(* ===== verification/_CoqProject ===== *)
-Q . S2P
Prelude.v
PyBase.v
WorkspaceAccess.v
Domain.v
Tables.v
Contracts.v
RunQueue.v
WorkspaceLeases.v
RunRepository.v
Approvals.v
Transcripts.v
Execution.v
Recovery.v
MessageCodecs.v
TaskPlans.v
PyText.v
JsonText.v
PyFormats.v
Gateway.v
ContextPipeline.v
ContextStore.v
MemoryJobs.v
WorkerContext.v
Redaction.v
AgentEvents.v
EventStore.v
PyEffects.v
ToolTurn.v
ModelTurn.v
GatewayPolicies.v
GatewayStores.v
LifecycleTables.v
DataLifecycle.v
AuditExports.v
LifecycleService.v
GatewayClient.v
AgentLoop.v
Executor.v
QueueInvariant.v
QueueOperations.v
ControlOperations.v
TranscriptProperties.v
ExecutionProperties.v
RecoveryProperties.v
TaskPlanProperties.v
ContextProperties.v
MemoryProperties.v
ContextPipelineProperties.v
WorkerContextProperties.v
ExecutorProperties.v
RedactionProperties.v
ToolTurnProperties.v
ToolTurnHistory.v
ToolTurnEvents.v
ModelTurnProperties.v
AgentLoopProperties.v
AgentLoopJournal.v
EventStoreProperties.v
AgentDelivery.v
QueueSafety.v
QueueProgress.v
QueueRecovery.v
ControlProperties.v
GatewayProperties.v
GatewayStoreProperties.v
GatewayClientProperties.v
LocalClient.v
LifecycleProperties.v
DeletionWorkerProperties.v
AuditFileProperties.v
AuditWriterProperties.v
AuditServiceProperties.v
Scenario.v
ExecutionScenario.v
LifecycleScenario.v
AuditScenario.v
GatewayScenario.v
ContextScenario.v
AgentScenario.v
EventScenario.v
