(* ===== verification/Prelude.v ===== *)
(** * Distributed Coding Agent Platform: verification library

    The platform runs coding agents for many tenants.  An API stores sessions and
    runs in PostgreSQL; workers claim queued runs under fenced leases, build the
    model's context from durable state, drive an agent loop of model requests and
    tool calls inside a workspace, and settle the run; a scheduler recovers runs
    whose worker was lost.  Everything that must survive a worker is a row of the
    database, and every worker write is fenced by the run lease.

    ** How the program is modelled

    A database transaction is a function from the database to [result] of its value
    and the committed database ([Prelude.commit], [Tables.Db]); an exception rolls
    the transaction back and is an [Err].  Transactions are serial, as the row locks
    of the code make them; rows skipped by SKIP LOCKED are an argument of the
    operation ([RunQueue.claim], [RunQueue.recover_expired]).  CHECK, UNIQUE and
    foreign-key constraints are checked at commit.  The clock of an operation is an
    argument; durations are whole microseconds.  Pydantic validators are functions
    to [result] that return the normalized value.  Coroutines of the agent loop are
    computations with state and exceptions ([PyEffects.eff]) that keep the state of
    every path, also of those that raise.  Text is a list of code points, JSON
    objects are key-ordered.

    Parameters of the model, with what is assumed of them stated where it is used:
    SHA-256 digests, uuid5, the length of serialized values, the text collation of
    the database, Unicode case folding, the redactor and its streaming form, the
    model gateway, the tools, the checkpoint coordinator, the transcript journal and
    identifier generators.  Error messages and detail payloads are kept only where a
    value is built from them ([Contracts.ErrorDetail]), not in [error].

    ** Files

    Shared: [Prelude] (results, automation, generic lemmas), [PyBase] (Python values,
    timestamps, JSON, identifier types), [PyText] (UTF-8 and canonical JSON),
    [JsonText] (json.loads and its round trip with json.dumps), [PyFormats] (the
    text of identifiers and times), [PyEffects] (state, exceptions, specifications
    and frames).

    Durable control plane (packages/persistence, agent_core):
    - [Domain]: domain/models.py, domain/transitions.py: Run and its state machine.
    - [Tables]: persistence/models.py: rows and constraints.
    - [Contracts]: agent_core/distributed.py, capacity.py, scheduling.py.
    - [RunQueue]: persistence/distributed.py, fencing.py: PostgresRunQueue.
    - [WorkspaceLeases]: the workspace-lease store of persistence/distributed.py.
    - [RunRepository], [Approvals]: persistence/repositories.py: create, get,
      transition, request_cancel, rewind; approvals and their decision.
    - [Transcripts], [Execution], [Recovery]: the journal of messages, tool calls,
      checkpoints, and PostgresRecoveryStore.load.
    - [TaskPlans], [ContextStore], [MemoryJobs]: persistence/context_management.py
      with agent_core/control.py and control_tools.py.
    - [WorkspaceAccess]: agent_core/workspace_access.py.

    Agent execution:
    - [Gateway]: agent_core/gateway.py; [MessageCodecs]: JSON forms of messages.
    - [ContextPipeline]: agent_core/context.py; [WorkerContext]: the worker's
      context.py, which joins the pipeline with the stores.
    - [AgentEvents]: agent_core/events.py, _loop_support.py, _loop_safety.py.
    - [EventStore]: event_store/postgres.py with agent_core/event_store.py.
    - [Redaction]: platform_telemetry/redaction.py.
    - [ToolTurn]: _tool_turn.py, tools.py, checkpoints.py; [ModelTurn]:
      _model_turn.py; [AgentLoop]: loop.py, _loop_types.py.
    - [Executor]: the worker's executor.py.

    Gateway: [GatewayPolicies]: gateway_client/reliability.py with
    agent_core/gateway_reliability.py; [GatewayStores]: their durable twins,
    persistence/capacity.py, gateway_store.py and gateway_policies.py;
    [GatewayClient]: gateway_client/client.py; [LocalClient]: the client composed
    with the process-local policies.

    Data lifecycle:
    - [LifecycleTables]: the tables of the lifecycle, their constraints, and the
      triggers of migration 0017 that stop the writes of a tenant under deletion.
    - [DataLifecycle]: persistence/lifecycle.py with agent_core/lifecycle.py: exports,
      legal holds, tenant deletion, retention and the outbox of object deletions.
    - [AuditExports]: agent_core/audit.py and the export file of
      agent_core/lifecycle_service.py: pages of the log, the writer, the check.
    - [LifecycleService]: the three coordinators of lifecycle_service.py over the
      database and an object store; other tasks act at every await ([pause]).

    ** What the theorems show

    - Queue ([QueueInvariant], [QueueOperations], [ControlOperations], [QueueSafety],
      [QueueProgress], [QueueRecovery]): an invariant tying runs, leases, writers and
      worker slots holds along every history of committed operations; at most one
      execution may write a workspace; a lost lease never becomes valid again; a
      claim takes the best run and comes back empty only when there is none; expired
      leases are always recovered; aging prevents starvation.
    - Control plane ([ControlProperties], [Domain]): idempotent creation, rewinding,
      approvals, cancellation.
    - Durable execution ([TranscriptProperties], [ExecutionProperties],
      [RecoveryProperties], [TaskPlanProperties], [ContextProperties],
      [MemoryProperties]): recovery reads back exactly what was journaled; tool
      outcomes and compactions are final; replays are harmless; plan updates are
      compare-and-set and plan graphs are decided exactly.
    - Context ([ContextPipelineProperties], [WorkerContextProperties]): contexts fit
      their budget, keep critical fragments and never orphan a tool result.
    - Agent loop ([ToolTurnProperties], [ToolTurnHistory], [ToolTurnEvents],
      [ModelTurnProperties], [AgentLoopProperties], [AgentLoopJournal],
      [ExecutorProperties], [AgentDelivery]): refused turns run nothing; failed calls
      restore the workspace; every call is answered; no identifier is executed
      twice; success is reported only after the transcript is journaled; a returning
      loop reports exactly one end, and the executor settles the attempt with it.
    - Events ([EventStoreProperties], [AgentDelivery]): the log of a run is contiguous
      and append-only, replays and live readers see exactly the log, a delivery is
      stored once, and a settled attempt has logged exactly the events of its loop.
    - Redaction ([RedactionProperties]): no secret is split across two releases of a
      stream.
    - Gateway ([GatewayProperties], [GatewayStoreProperties]): capacity limits, one
      execution per logical request on every store that keeps the contract of the
      protocol, sliding and fixed windows, the breaker as a refinement of three
      phases, and the durable breaker as the equal of the local one.
    - Gateway client ([GatewayClientProperties]), on any policies that keep the laws
      of the class [ClientLaws], which [LocalClient] discharges: what a stream yields
      is what is durable, every exit settles its claim and gives back its slot and
      lease (or asks for cleanup, unless the cleanup is itself cancelled), and repeated streams of a request share one bound on provider calls.
    - Data lifecycle ([LifecycleProperties]): finalization erases a tenant and nothing
      else, for good; a deletion only moves forward; holds stop the leasing of
      deletions; stale deletion leases are fenced; the tenant triggers stop a shared
      queue.
    - Audit exports and object deletion ([AuditFileProperties],
      [AuditWriterProperties], [AuditServiceProperties], [DeletionWorkerProperties]):
      the check accepts exactly the files of an export, the writer produces such a
      file, a completed export misses no row although the log grows meanwhile, and
      no object of a finalized tenant is left in the store.  The object store, the
      text forms of pydantic and SHA-256 enter through the classes [ObjectStoreLaws]
      and [WireLaws]; other tasks through a rely condition.
    - [Scenario], [ExecutionScenario], [GatewayScenario], [ContextScenario],
      [AgentScenario], [EventScenario], [LifecycleScenario], [AuditScenario] run
      concrete histories; they show that the hypotheses of the theorems hold on real
      states, and the defects found.

    ** Bounds and fuel

    MAX_CLAIM_CANDIDATES and MAX_RECOVERY_RUNS (1000) and the 4096-message limits are
    the constants of the code.  Fuel appears only where a loop of the code is not
    structural, and each fuel is proved to be enough: one unit per task and one more
    for the depth-first search of a plan, the encoded length for the chunk loop, the
    length and one for the summary search, the start index for the recent window,
    the text length for the chunks of model text, the text length for scans and
    boundary moves of the redactor, the number of stored events and one for the pages
    of a replay, the payload length for the writes of a line ([write_all_total]), the
    length and one for the lines of an export file, and two more than the record
    limit for the pages of an export ([export_fuel_enough]).  The JSON reader takes the
    length of its text and one, shown to be enough for every text the printer writes.
    The agent loop needs none: it counts down its turns.

    ** Not modelled

    Network and process code (the HTTP API, the S3 transport, containers, git
    worktrees, Redis wakeups, asyncio supervision), metrics, scripts, and the
    migrations apart from the tenant triggers: their correctness lies in the systems
    they call.  The workspace and snapshot repository, archive validation and the
    local session are outside the development.  The temporary directories of the audit
    exports are left out: only the content of their file is a value.  The JSON reader
    does not bound the nesting of values.  [RunRepository.transition], the
    administrative setter the workers do not call, is a step of the queue histories
    as long as it stays outside the leased statuses; [transition_leased_breaks] shows
    what a step into them does.  The session's own status and timestamps are not
    columns of the model.  An exception in the executor drops the transactions it had
    committed from the value of the model, because [result] carries no state. *)

From stdpp Require Import base list gmap strings sorting.
From Stdlib Require Import ZArith Lia.

#[global] Set Default Goal Selector "!".

(** ** Errors and results

    A Python call either returns or raises.  [result] keeps the two apart; the
    constructors of [error] are the exception classes the modelled code raises.
    A [DomainOperationError] is identified by its stable [code] and its
    [retryable] flag; human-readable messages and detail payloads are not
    modelled. *)

Inductive error :=
| DomainOperationError (code : string) (retryable : bool)
| ValidationError (what : string)
| ValueError (what : string)
| TypeError (what : string)
| RuntimeError (what : string)
| KeyError (what : string)
| IntegrityError (constraint : string).

#[export] Instance error_eq_dec : EqDecision error.
Proof. solve_decision. Defined.

Inductive result (A : Type) :=
| Ok (a : A)
| Err (e : error).
Arguments Ok {A} a.
Arguments Err {A} e.

#[export] Instance result_eq_dec `{EqDecision A} : EqDecision (result A).
Proof. solve_decision. Defined.

#[export] Instance result_ret : MRet result := λ A a, Ok a.
#[export] Instance result_bind : MBind result := λ A B f r,
  match r with Ok a => f a | Err e => Err e end.

(** [ensure b e]: continue when [b] holds, raise [e] otherwise (an [if not b:
    raise e] guard of the source). *)
Definition ensure (b : bool) (e : error) : result unit :=
  if b then Ok tt else Err e.

(** [require o e]: unwrap an optional row or raise. *)
Definition require {A} (o : option A) (e : error) : result A :=
  match o with Some a => Ok a | None => Err e end.

Definition is_ok {A} (r : result A) : bool :=
  match r with Ok _ => true | Err _ => false end.

Lemma bind_Ok {A B} (r : result A) (f : A → result B) b :
  r ≫= f = Ok b ↔ ∃ a, r = Ok a ∧ f a = Ok b.
Proof. destruct r; simpl; naive_solver. Qed.

Lemma bind_Err {A B} (r : result A) (f : A → result B) e :
  r ≫= f = Err e ↔ r = Err e ∨ ∃ a, r = Ok a ∧ f a = Err e.
Proof. destruct r; simpl; naive_solver. Qed.

Lemma ensure_Ok b e u : ensure b e = Ok u ↔ b = true.
Proof. destruct b, u; simpl; naive_solver. Qed.

Lemma ensure_Err b e e' : ensure b e = Err e' ↔ b = false ∧ e = e'.
Proof. destruct b; simpl; naive_solver. Qed.

Lemma require_Ok {A} (o : option A) e a : require o e = Ok a ↔ o = Some a.
Proof. destruct o; simpl; naive_solver. Qed.

Lemma require_Err {A} (o : option A) e e' : require o e = Err e' ↔ o = None ∧ e = e'.
Proof. destruct o; simpl; naive_solver. Qed.

(** Results collected left to right; the first error wins. *)
Fixpoint traverse {A B} (f : A → result B) (l : list A) : result (list B) :=
  match l with
  | [] => Ok []
  | a :: l => b ← f a; l' ← traverse f l; Ok (b :: l')
  end.

Lemma traverse_Ok {A B} (f : A → result B) l l' :
  traverse f l = Ok l' ↔ Forall2 (λ a b, f a = Ok b) l l'.
Proof.
  revert l'. induction l as [|a l IH]; intros l'; simpl.
  - split; [by intros [= <-]|]. intros H. by inversion H.
  - rewrite bind_Ok. setoid_rewrite bind_Ok. split.
    + intros (b & Hb & l0 & Hl & [= <-]). constructor; [done|by apply IH].
    + intros H. inversion H as [|? b ? l0 Hb Hl]; subst. exists b. split; [done|].
      exists l0. split; [by apply IH|done].
Qed.

(** Collecting what was produced by a left inverse gives the input back. *)
Lemma traverse_map {A B} (f : B → result A) (g : A → B) l :
  (∀ a, a ∈ l → f (g a) = Ok a) → traverse f (g <$> l) = Ok l.
Proof.
  intros H. apply traverse_Ok. induction l as [|a l IH]; simpl; constructor.
  - apply H. by left.
  - apply IH. intros b Hb. apply H. by right.
Qed.

Lemma traverse_fixed {A} (f : A → result A) l a :
  traverse f l = Ok l → a ∈ l → f a = Ok a.
Proof.
  rewrite traverse_Ok. intros H Ha. apply list_elem_of_lookup in Ha as [i Hi].
  exact (Forall2_lookup_lr _ _ _ _ _ _ H Hi Hi).
Qed.

(** A validator that accepts its own results accepts the list of them. *)
Lemma traverse_idem {A} (f : A → result A) l l' :
  (∀ a b, f a = Ok b → f b = Ok b) → traverse f l = Ok l' → traverse f l' = Ok l'.
Proof.
  intros Hf. rewrite !traverse_Ok. induction 1 as [|a b l l' Hab _ IH]; constructor; [|done]. by eapply Hf.
Qed.

(** A loop that threads a state and may raise. *)
Fixpoint foldM {S A} (f : S → A → result S) (s : S) (l : list A) : result S :=
  match l with
  | [] => Ok s
  | a :: l => s' ← f s a; foldM f s' l
  end.

(** Partners in related lists. *)
Lemma Forall2_elem_of_l {A B} (P : A → B → Prop) l k x :
  Forall2 P l k → x ∈ l → ∃ y, y ∈ k ∧ P x y.
Proof.
  intros H [i Hi]%list_elem_of_lookup. destruct (Forall2_lookup_l _ _ _ _ _ H Hi) as (y & Hy & HP).
  exists y. split; [by eapply list_elem_of_lookup_2|done].
Qed.

Lemma Forall2_elem_of_r {A B} (P : A → B → Prop) l k y :
  Forall2 P l k → y ∈ k → ∃ x, x ∈ l ∧ P x y.
Proof. intros H%Forall2_flip Hy. exact (Forall2_elem_of_l _ _ _ _ H Hy). Qed.

(** ** Automation

    [run_inv H] inverts the hypothesis [H : prog = Ok _] (or [Err _]) through
    every bind, guard and row lookup of a monadic program. *)

Ltac run_inv H :=
  cbv beta in H;
  lazymatch type of H with
  | _ ≫= _ = Ok _ =>
      let a := fresh "v" in let H1 := fresh "Hrun" in
      apply bind_Ok in H; destruct H as (a & H1 & H); run_inv H1; run_inv H
  | (let _ := _ in _) = Ok _ => cbv zeta in H; run_inv H
  | match ?p with (_, _) => _ end = Ok _ =>
      first [is_var p; destruct p | let E := fresh "Epair" in destruct p eqn:E]; run_inv H
  | ensure _ _ = Ok _ => apply ensure_Ok in H
  | require _ _ = Ok _ => apply require_Ok in H
  | Ok _ = Ok _ => first [discriminate H | injection H as H; subst | clear H]
  | mret _ = Ok _ => first [discriminate H | injection H as H; subst | clear H]
  | Err _ = Ok _ => discriminate H
  | _ => idtac
  end.

(** Split the boolean conjunctions and comparisons of the hypotheses. *)
Ltac bool_hyps :=
  repeat match goal with
  | H : andb _ _ = true |- _ => apply andb_prop in H as [? ?]
  | H : orb _ _ = false |- _ => apply orb_false_elim in H as [? ?]
  | H : negb _ = true |- _ => apply negb_true_iff in H
  | H : negb _ = false |- _ => apply negb_false_iff in H
  | H : bool_decide _ = true |- _ => apply bool_decide_eq_true in H
  | H : bool_decide _ = false |- _ => apply bool_decide_eq_false in H
  | H : (_ <? _)%Z = true |- _ => apply Z.ltb_lt in H
  | H : (_ <? _)%Z = false |- _ => apply Z.ltb_ge in H
  | H : (_ <=? _)%Z = true |- _ => apply Z.leb_le in H
  | H : (_ <=? _)%Z = false |- _ => apply Z.leb_gt in H
  | H : (_ =? _)%Z = true |- _ => apply Z.eqb_eq in H
  | H : (_ =? _)%Z = false |- _ => apply Z.eqb_neq in H
  end.

(** ** Rows of a table

    A table is a [gmap] from the primary key to the row.  [select_where P m]
    is a query without ORDER BY for the rows that satisfy [P];
    [scalar_where P m] is its first row; [count_where P m] is
    [SELECT count( * )]. *)

Section Tables.
Context `{Countable K} {V : Type}.
Implicit Types (m : gmap K V) (P : V → bool).

Definition select_where P m : list V :=
  filter (λ v, P v = true) (map_to_list m).*2.

Definition scalar_where P m : option V := head (select_where P m).

Definition count_where P m : nat := length (select_where P m).

Lemma elem_of_select P m v :
  v ∈ select_where P m ↔ P v = true ∧ ∃ k, m !! k = Some v.
Proof.
  unfold select_where. rewrite list_elem_of_filter, list_elem_of_fmap.
  split.
  - intros [HP ([k v'] & -> & Hin)]. apply elem_of_map_to_list in Hin. eauto.
  - intros [HP [k Hk]]. split; [done|]. exists (k, v).
    split; [done|]. by apply elem_of_map_to_list.
Qed.

Lemma scalar_where_Some P m v :
  scalar_where P m = Some v → P v = true ∧ ∃ k, m !! k = Some v.
Proof.
  intros Hh. apply elem_of_select. unfold scalar_where in Hh.
  destruct (select_where P m); simplify_eq/=. by left.
Qed.

Lemma scalar_where_None P m k v :
  scalar_where P m = None → m !! k = Some v → P v = false.
Proof.
  intros Hh Hk. destruct (P v) eqn:HP; [|done].
  assert (v ∈ select_where P m) as Hin by (apply elem_of_select; eauto).
  unfold scalar_where in Hh. destruct (select_where P m); [|done].
  by apply elem_of_nil in Hin.
Qed.

(** A unique match is the row the query returns. *)
Lemma scalar_where_unique P m k v :
  m !! k = Some v → P v = true →
  (∀ k' v', m !! k' = Some v' → P v' = true → v' = v) →
  scalar_where P m = Some v.
Proof.
  intros Hk HP Huniq. destruct (scalar_where P m) as [v'|] eqn:Hs.
  - apply scalar_where_Some in Hs as [HP' [k' Hk']].
    f_equal. by eapply Huniq.
  - by rewrite (scalar_where_None _ _ _ _ Hs Hk) in HP.
Qed.

Lemma select_where_insert_new P m k v :
  m !! k = None →
  select_where P (<[k:=v]> m) ≡ₚ (if P v then [v] else []) ++ select_where P m.
Proof.
  intros Hk. unfold select_where. rewrite (map_to_list_insert m k v Hk). simpl.
  rewrite filter_cons. destruct (P v); by case_decide.
Qed.

Lemma count_where_insert_new P m k v :
  m !! k = None →
  count_where P (<[k:=v]> m) = (if P v then 1 else 0) + count_where P m.
Proof.
  intros Hk. unfold count_where. rewrite (select_where_insert_new P m k v Hk), length_app.
  by destruct (P v).
Qed.

Lemma count_where_delete P m k v :
  m !! k = Some v →
  count_where P m = (if P v then 1 else 0) + count_where P (delete k m).
Proof.
  intros Hk. rewrite <- (insert_delete_id m k v Hk) at 1.
  apply count_where_insert_new, lookup_delete_eq.
Qed.

Lemma count_where_update P m k v v' :
  m !! k = Some v →
  count_where P (<[k:=v']> m) + (if P v then 1 else 0) =
  count_where P m + (if P v' then 1 else 0).
Proof.
  intros Hk. rewrite (count_where_delete P m k v Hk).
  rewrite <- insert_delete_eq, count_where_insert_new
    by apply lookup_delete_eq. lia.
Qed.

Lemma count_where_ext P Q m :
  (∀ k v, m !! k = Some v → P v = Q v) → count_where P m = count_where Q m.
Proof.
  intros Heq. unfold count_where, select_where.
  assert (∀ v, v ∈ (map_to_list m).*2 → P v = Q v) as Hl.
  { intros v ([k v'] & -> & Hin)%list_elem_of_fmap.
    apply elem_of_map_to_list in Hin. eauto. }
  induction (map_to_list m).*2 as [|v l IH]; [done|].
  rewrite !filter_cons, (Hl v) by (by left).
  assert (length (filter (λ v, P v = true) l) = length (filter (λ v, Q v = true) l))
    by (apply IH; intros; apply Hl; by right).
  case_decide; simpl; lia.
Qed.

Lemma count_where_pos P m k v :
  m !! k = Some v → P v = true → 1 ≤ count_where P m.
Proof. intros Hk HP. rewrite (count_where_delete P m k v Hk), HP. lia. Qed.

Lemma count_where_zero P m :
  count_where P m = 0 ↔ ∀ k v, m !! k = Some v → P v = false.
Proof.
  split.
  - intros Hz k v Hk. destruct (P v) eqn:HP; [|done].
    pose proof (count_where_pos P m k v Hk HP). lia.
  - intros Hall. unfold count_where.
    destruct (select_where P m) as [|v l] eqn:Hs; [done|].
    assert (v ∈ select_where P m) as Hin by (rewrite Hs; by left).
    apply elem_of_select in Hin as [HP [k Hk]]. by rewrite (Hall k v Hk) in HP.
Qed.

(** Sum of a numeric column over the matching rows. *)
Definition sum_where (f : V → Z) P m : Z := foldr (λ v acc, (f v + acc)%Z) 0%Z (select_where P m).

Lemma sum_where_insert_new f P m k v :
  m !! k = None →
  sum_where f P (<[k:=v]> m) = ((if P v then f v else 0) + sum_where f P m)%Z.
Proof.
  intros Hk. unfold sum_where, select_where.
  assert (∀ l1 l2 : list V, l1 ≡ₚ l2 →
    foldr (λ v acc, (f v + acc)%Z) 0%Z l1 = foldr (λ v acc, (f v + acc)%Z) 0%Z l2) as Hperm.
  { induction 1; simpl; lia. }
  rewrite (Hperm _ (filter (λ v, P v = true) (v :: (map_to_list m).*2)))
    by (by rewrite (map_to_list_insert m k v Hk)).
  rewrite filter_cons. destruct (P v); by case_decide.
Qed.

Lemma sum_where_delete f P m k v :
  m !! k = Some v →
  sum_where f P m = ((if P v then f v else 0) + sum_where f P (delete k m))%Z.
Proof.
  intros Hk. rewrite <- (insert_delete_id m k v Hk) at 1.
  apply sum_where_insert_new, lookup_delete_eq.
Qed.

(** Fewer rows or a stronger condition give no more. *)
Lemma count_where_mono P Q m m' :
  (∀ k v, m !! k = Some v → P v = true → m' !! k = Some v ∧ Q v = true) →
  count_where P m ≤ count_where Q m'.
Proof.
  revert m'. induction m as [|k v m Hk Hfst IH] using map_first_key_ind; intros m' Hsub.
  { unfold count_where, select_where. rewrite map_to_list_empty. simpl. lia. }
  rewrite count_where_insert_new by done. destruct (P v) eqn:HP.
  - destruct (Hsub k v (lookup_insert_eq _ _ _) HP) as [Hk' HQ].
    rewrite (count_where_delete Q m' k v Hk'), HQ. apply le_n_S, IH.
    intros j x Hj HPx. assert (k ≠ j) by congruence.
    rewrite lookup_delete_ne by done. apply Hsub; [|done]. by rewrite lookup_insert_ne.
  - apply IH. intros j x Hj HPx. apply Hsub; [|done]. rewrite lookup_insert_ne; [done|congruence].
Qed.

Lemma sum_where_nonneg f P m :
  (∀ k v, m !! k = Some v → P v = true → 0 ≤ f v)%Z → (0 ≤ sum_where f P m)%Z.
Proof.
  intros Hf. unfold sum_where. assert (∀ x, x ∈ select_where P m → 0 ≤ f x)%Z as Hall.
  { intros x [Hx [k Hk]]%elem_of_select. by eapply Hf. }
  induction (select_where P m) as [|x l IH]; simpl; [lia|].
  pose proof (Hall x (list_elem_of_here _ _)).
  assert (0 ≤ foldr (λ v acc, (f v + acc)%Z) 0%Z l)%Z; [|lia].
  apply IH. intros y Hy. apply Hall. by right.
Qed.

Lemma sum_where_mono f P Q m m' :
  (∀ k v, m' !! k = Some v → Q v = true → 0 ≤ f v)%Z →
  (∀ k v, m !! k = Some v → P v = true → m' !! k = Some v ∧ Q v = true) →
  (sum_where f P m ≤ sum_where f Q m')%Z.
Proof.
  revert m'. induction m as [|k v m Hk Hfst IH] using map_first_key_ind; intros m' Hf Hsub.
  { unfold sum_where at 1, select_where at 1. rewrite map_to_list_empty. simpl.
    by apply sum_where_nonneg. }
  rewrite sum_where_insert_new by done. destruct (P v) eqn:HP.
  - destruct (Hsub k v (lookup_insert_eq _ _ _) HP) as [Hk' HQ].
    rewrite (sum_where_delete f Q m' k v Hk'), HQ.
    assert (sum_where f P m ≤ sum_where f Q (delete k m'))%Z; [|lia]. apply IH.
    + intros j x [_ Hj]%lookup_delete_Some. by apply (Hf j).
    + intros j x Hj HPx. assert (k ≠ j) by congruence.
      rewrite lookup_delete_ne by done. apply Hsub; [|done]. by rewrite lookup_insert_ne.
  - apply IH; [done|]. intros j x Hj HPx. apply Hsub; [|done].
    rewrite lookup_insert_ne; [done|congruence].
Qed.

Lemma sum_where_zero f P m :
  (∀ k v, m !! k = Some v → P v = false) → sum_where f P m = 0%Z.
Proof.
  intros Hall. unfold sum_where. destruct (select_where P m) as [|v l] eqn:E; [done|].
  assert (v ∈ select_where P m) as Hv by (rewrite E; by left).
  apply elem_of_select in Hv as [HP [k Hk]]. by rewrite (Hall k v Hk) in HP.
Qed.
End Tables.

(** ORDER BY ... LIMIT 1: the first least element of a candidate list for a
    strict comparison [lt]. *)
Fixpoint first_by {A} (lt : A → A → bool) (l : list A) : option A :=
  match l with
  | [] => None
  | x :: l =>
      match first_by lt l with
      | None => Some x
      | Some y => if lt y x then Some y else Some x
      end
  end.

Lemma first_by_elem {A} (lt : A → A → bool) l x : first_by lt l = Some x → x ∈ l.
Proof.
  revert x. induction l as [|y l IH]; simpl; [done|]. intros x.
  destruct (first_by lt l) as [z|]; [destruct (lt z y)|]; intros [= <-];
    (by left) || (right; by apply IH).
Qed.

Lemma first_by_None {A} (lt : A → A → bool) l : first_by lt l = None ↔ l = [].
Proof.
  destruct l as [|x l]; simpl; [done|].
  destruct (first_by lt l) as [z|]; [destruct (lt z x)|]; done.
Qed.

(** When [lt] is irreflexive and transitive and its negation is transitive (a
    strict weak order) no element of the list comes before the chosen one. *)
Lemma first_by_least {A} (lt : A → A → bool) l x :
  (∀ a, lt a a = false) →
  (∀ a b c, lt a b = false → lt b c = false → lt a c = false) →
  (∀ a b, lt a b = true → lt b a = false) →
  first_by lt l = Some x → ∀ y, y ∈ l → lt y x = false.
Proof.
  intros Hirr Htr Has. revert x. induction l as [|z l IH]; simpl; [done|].
  intros x. destruct (first_by lt l) as [w|] eqn:Hw.
  - destruct (lt w z) eqn:Hlt; intros [= <-] y [->|Hy]%elem_of_cons; eauto.
  - intros [= <-] y [->|Hy]%elem_of_cons; [done|].
    apply first_by_None in Hw. subst. by apply elem_of_nil in Hy.
Qed.

(** ** Reflexive transitive closure of a step relation *)

Section Star.
Context {S : Type} (R : S → S → Prop).

Inductive star : S → S → Prop :=
| star_refl s : star s s
| star_next s1 s2 s3 : R s1 s2 → star s2 s3 → star s1 s3.

Lemma star_invariant (I : S → Prop) :
  (∀ s s', I s → R s s' → I s') → ∀ s s', star s s' → I s → I s'.
Proof. intros Hstep s s' Hstar. induction Hstar; eauto. Qed.

Lemma star_trans s1 s2 s3 : star s1 s2 → star s2 s3 → star s1 s3.
Proof. induction 1; [done|]. intros. econstructor; eauto. Qed.

(** A relation between the first and the last state, when it is a preorder
    that every step refines under an invariant. *)
Lemma star_relates (I : S → Prop) (Q : S → S → Prop) :
  (∀ s, Q s s) → (∀ a b c, Q a b → Q b c → Q a c) →
  (∀ s s', I s → R s s' → I s' ∧ Q s s') →
  ∀ s s', star s s' → I s → Q s s'.
Proof.
  intros Hrefl Htrans Hstep s s' Hstar. induction Hstar; intros HI; [done|].
  destruct (Hstep _ _ HI H) as [? ?]. eauto.
Qed.
End Star.

(** ** Hint databases *)

Create HintDb platform.
#[export] Hint Constructors star : platform.
#[export] Hint Resolve count_where_pos : platform.

Lemma filter_all {A} (P : A → Prop) `{!∀ x, Decision (P x)} (l : list A) :
  (∀ x, x ∈ l → P x) → filter P l = l.
Proof.
  induction l as [|x l IH]; intros Hall; [done|]. rewrite filter_cons.
  rewrite decide_True by (apply Hall; by left). f_equal. apply IH. intros y Hy. apply Hall. by right.
Qed.

(** Values with distinct images are determined by them. *)
Lemma NoDup_fmap_elem {A B} (f : A → B) (l : list A) x y :
  NoDup (f <$> l) → x ∈ l → y ∈ l → f x = f y → x = y.
Proof.
  intros Hnd [i Hi]%list_elem_of_lookup [j Hj]%list_elem_of_lookup E.
  assert (i = j) as ->; [|congruence].
  eapply (NoDup_lookup (f <$> l)); [done|by rewrite list_lookup_fmap, Hi|].
  rewrite list_lookup_fmap, Hj. simpl. congruence.
Qed.

(** ** Sorted results

    New rows that come last in the order of a query extend its answer. *)
Lemma merge_sort_extend {A} (R : relation A) `{!RelDecision R, !Transitive R, !Total R}
    (l new l' : list A) :
  l' ≡ₚ l ++ new → StronglySorted R new → (∀ x y, x ∈ l → y ∈ new → R x y) →
  (∀ x y, x ∈ l' → y ∈ l' → R x y → R y x → x = y) →
  merge_sort R l' = merge_sort R l ++ new.
Proof.
  intros Hp Hnew Hlast Hanti. apply (StronglySorted_unique_strong R).
  - intros x y Hx Hy. apply Hanti.
    + by rewrite merge_sort_Permutation in Hx.
    + by rewrite Hp, <- (merge_sort_Permutation R l).
  - by apply (StronglySorted_merge_sort R).
  - apply StronglySorted_app. split_and!; [|by apply (StronglySorted_merge_sort R)|done].
    intros x y Hx Hy. apply Hlast; [|done]. by rewrite merge_sort_Permutation in Hx.
  - by rewrite !merge_sort_Permutation.
Qed.
