(* ===== verification/PyBase.v ===== *)
(** * Python values used across the platform

    Text as lists of Unicode code points, UUIDs as numbers, timestamps as
    microseconds since the epoch in UTC, and the shared validation primitives of
    [agent_core/domain/base.py] and the string constraints of
    [agent_core/domain/models.py]. *)

From stdpp Require Import base list strings.
From Stdlib Require Import ZArith NArith Lia Ascii.
From S2P Require Import Prelude.

(** ** Identifiers and text *)

(** A UUID is its 128-bit value; PostgreSQL orders uuids by it. *)
Abbreviation uuid := N (only parsing).

(** A Python [str] is the list of its code points. *)
Abbreviation pystr := (list N) (only parsing).

Definition py (s : string) : pystr := List.map N_of_ascii (String.list_ascii_of_string s).

#[export] Instance py_inj : Inj (=) (=) py.
Proof.
  intros s s' H. rewrite <- (String.string_of_list_ascii_of_string s), <- (String.string_of_list_ascii_of_string s').
  f_equal. assert (Inj (=) (=) N_of_ascii) by (intros a b E; rewrite <- (ascii_N_embedding a), E; apply ascii_N_embedding).
  apply (inj (fmap N_of_ascii)). exact H.
Qed.

Definition in_range (lo hi c : N) : bool := (lo <=? c)%N && (c <=? hi)%N.

(** Code points with the Unicode [White_Space] property: what pydantic's
    [strip_whitespace] removes. *)
Definition is_white_space (c : N) : bool :=
  in_range 9 13 c || (c =? 32)%N || (c =? 133)%N || (c =? 160)%N || (c =? 5760)%N
  || in_range 8192 8202 c || (c =? 8232)%N || (c =? 8233)%N || (c =? 8239)%N
  || (c =? 8287)%N || (c =? 12288)%N.

(** [str.isspace] and [str.strip] also treat the four ASCII separators
    U+001C..U+001F as blank. *)
Definition py_isspace (c : N) : bool := is_white_space c || in_range 28 31 c.

Fixpoint drop_while (f : N → bool) (s : pystr) : pystr :=
  match s with
  | [] => []
  | c :: s' => if f c then drop_while f s' else s
  end.

Definition strip_by (f : N → bool) (s : pystr) : pystr :=
  rev (drop_while f (rev (drop_while f s))).

(** [str.strip()] *)
Definition py_strip (s : pystr) : pystr := strip_by py_isspace s.

(** UTF-8 size of one code point and of a string. *)
Definition utf8_size (c : N) : N :=
  if (c <? 128)%N then 1%N else if (c <? 2048)%N then 2%N
  else if (c <? 65536)%N then 3%N else 4%N.

Definition utf8_len (s : pystr) : N := foldr (λ c n, (utf8_size c + n)%N) 0%N s.

Lemma utf8_len_app (s t : pystr) : utf8_len (s ++ t) = (utf8_len s + utf8_len t)%N.
Proof. induction s; simpl; lia. Qed.

Lemma utf8_size_pos c : (1 <= utf8_size c)%N.
Proof. unfold utf8_size. repeat case_match; lia. Qed.

Lemma utf8_len_length (s : pystr) : (N.of_nat (length s) <= utf8_len s)%N.
Proof.
  induction s as [|c s IH]; simpl; [lia|].
  pose proof (utf8_size_pos c). lia.
Qed.

(** ** Stripping *)

Lemma drop_while_suffix f (s : pystr) : ∃ t, s = t ++ drop_while f s ∧ forallb f t = true.
Proof.
  induction s as [|c s (t & Ht & Hf)]; simpl; [by exists []|].
  destruct (f c) eqn:Hc; [|by exists []].
  exists (c :: t). simpl. rewrite Hc. by rewrite <- Ht.
Qed.

Lemma drop_while_id f (s : pystr) : drop_while f (drop_while f s) = drop_while f s.
Proof.
  induction s as [|c s IH]; simpl; [done|].
  destruct (f c) eqn:Hc; [done|]. simpl. by rewrite Hc.
Qed.

Lemma drop_while_head f (s : pystr) c t : drop_while f s = c :: t → f c = false.
Proof.
  induction s as [|d s IH]; simpl; [done|].
  destruct (f d) eqn:Hd; [done|]. by intros [= -> ->].
Qed.

Lemma drop_while_fix f (s : pystr) :
  (∀ c t, s = c :: t → f c = false) → drop_while f s = s.
Proof. destruct s as [|c s]; [done|]. intros Hh. simpl. by rewrite (Hh c s). Qed.

(** Removing trailing blanks keeps a nonblank first character. *)
Lemma strip_head f (s : pystr) c t : strip_by f s = c :: t → f c = false.
Proof.
  unfold strip_by. intros Heq.
  destruct (drop_while_suffix f (rev (drop_while f s))) as (u & Hu & _).
  apply (f_equal (@rev N)) in Hu. rewrite rev_involutive, rev_app_distr, Heq in Hu.
  simpl in Hu. by eapply drop_while_head.
Qed.

Lemma strip_last f (s : pystr) c t : rev (strip_by f s) = c :: t → f c = false.
Proof. unfold strip_by. rewrite rev_involutive. apply drop_while_head. Qed.

(** Stripping twice is stripping once. *)
Lemma strip_idem f (s : pystr) : strip_by f (strip_by f s) = strip_by f s.
Proof.
  unfold strip_by at 1.
  rewrite (drop_while_fix f (strip_by f s)) by apply strip_head.
  rewrite (drop_while_fix f (rev (strip_by f s))) by apply strip_last.
  apply rev_involutive.
Qed.

Lemma strip_none f (s : pystr) : Forall (λ c, f c = false) s → strip_by f s = s.
Proof.
  intros H. unfold strip_by. rewrite (drop_while_fix f s).
  - rewrite (drop_while_fix f (rev s)); [apply rev_involutive|]. intros c t E.
    rewrite Forall_forall in H. apply H. apply list_elem_of_In, in_rev. rewrite E. by left.
  - intros c t ->. by apply Forall_cons in H as [? _].
Qed.

Lemma strip_weaken f g (s : pystr) :
  (∀ c, g c = true → f c = true) → strip_by g (strip_by f s) = strip_by f s.
Proof.
  intros Hgf. unfold strip_by at 1.
  assert (∀ c, f c = false → g c = false) as Hn.
  { intros c Hf. destruct (g c) eqn:Hg; [|done]. by rewrite (Hgf c Hg) in Hf. }
  rewrite (drop_while_fix g (strip_by f s)) by (intros; eapply Hn, strip_head; eauto).
  rewrite (drop_while_fix g (rev (strip_by f s))) by (intros; eapply Hn, strip_last; eauto).
  apply rev_involutive.
Qed.

(** ** String constraints *)

(** [IdentifierString]: blanks stripped, 1 to 255 characters. *)
Definition identifier_string (s : pystr) : result pystr :=
  let s := strip_by is_white_space s in
  _ ← ensure ((1 <=? length s)%nat && (length s <=? 255)%nat)
        (ValidationError "identifier length");
  Ok s.

(** [ToolName] and [ErrorCode]: blanks stripped, at most 100 characters of
    ^[a-z][a-z0-9_]*$. *)
Definition name_ok (s : pystr) : bool :=
  (length s <=? 100)%nat
  && (match s with
      | [] => false
      | c :: rest =>
          in_range 97 122 c
          && forallb (λ c, in_range 97 122 c || in_range 48 57 c || (c =? 95)%N) rest
      end).
Definition name_string (s : pystr) : result pystr :=
  let s := strip_by is_white_space s in
  _ ← ensure (name_ok s) (ValidationError "name pattern");
  Ok s.

Definition validate_optional {A} (f : A → result A) (o : option A) : result (option A) :=
  match o with
  | None => Ok None
  | Some a => a' ← f a; Ok (Some a')
  end.

Definition is_lower_hex (c : N) : bool := in_range 48 57 c || in_range 97 102 c.

(** [Sha256Hex] *)
Definition sha256_hex_ok (s : pystr) : bool :=
  bool_decide (length s = 64) && forallb is_lower_hex s.

(** The parts of a [traceparent] value, when it has the shape
    00-<32 hex>-<16 hex>-<2 hex>. *)
Definition traceparent_parts (s : pystr) : option (pystr * pystr) :=
  let trace := take 32 (drop 3 s) in
  let parent := take 16 (drop 36 s) in
  let flags := drop 53 s in
  if (length s =? 55)%nat
     && bool_decide (take 3 s = py "00-")
     && forallb is_lower_hex trace
     && bool_decide (take 1 (drop 35 s) = py "-")
     && forallb is_lower_hex parent
     && bool_decide (take 1 (drop 52 s) = py "-")
     && forallb is_lower_hex flags
  then Some (trace, parent) else None.

(** [TraceState]: 1 to 512 characters. *)
Definition tracestate_ok (s : pystr) : bool :=
  (1 <=? length s)%nat && (length s <=? 512)%nat.

(** ** Timestamps *)

(** A [datetime]: local microseconds, with the UTC offset when it is aware. *)
Inductive datetime :=
| Naive (local : Z)
| Aware (local offset : Z).

(** An aware timestamp already in UTC: what the domain models store. *)
Abbreviation timestamp := Z (only parsing).
Abbreviation timedelta := Z (only parsing).

Definition utc (t : timestamp) : datetime := Aware t 0.

(** [normalize_timestamp]: a naive value raises [ValueError], an aware one is
    converted to UTC. *)
Definition normalize_timestamp (value : datetime) : result timestamp :=
  match value with
  | Naive _ => Err (ValueError "timestamp must include a timezone")
  | Aware local offset => Ok (local - offset)%Z
  end.

Definition seconds (n : Z) : timedelta := (n * 1000000)%Z.

Lemma normalize_utc t : normalize_timestamp (utc t) = Ok t.
Proof. simpl. f_equal. lia. Qed.

(** Two aware values that denote the same instant normalize to the same
    timestamp, whatever their offsets. *)
Lemma normalize_instant t o1 o2 :
  normalize_timestamp (Aware (t + o1) o1) = normalize_timestamp (Aware (t + o2) o2).
Proof. simpl. f_equal. lia. Qed.

(** ** JSON values *)

(** The values of JSON columns.  Numbers that are not integers stay opaque.  The
    fields of an object are listed in the order of their keys, each key once, so
    that equal dictionaries are equal values. *)
Inductive json :=
| JNull
| JBool (b : bool)
| JInt (z : Z)
| JNumber (s : pystr)
| JString (s : pystr)
| JArray (l : list json)
| JObject (fields : list (pystr * json)).

Definition is_json_object (j : json) : bool :=
  match j with JObject _ => true | _ => false end.

(** [dict.get(key)]: the last binding wins, [None] when absent. *)
Definition json_get (j : json) (key : pystr) : option json :=
  match j with
  | JObject fields =>
      foldl (λ acc kv, if bool_decide (kv.1 = key) then Some kv.2 else acc) None fields
  | _ => None
  end.

(** The checks of a closed model: an object without other keys, and a required
    text field. *)
Definition closed_object (j : json) (keys : list pystr) : result unit :=
  match j with
  | JObject fields =>
      ensure (forallb (λ kv, bool_decide (kv.1 ∈ keys)) fields) (ValidationError "extra fields")
  | _ => Err (ValidationError "object expected")
  end.

Definition required_string (j : json) (key : string) : result pystr :=
  match json_get j (py key) with
  | Some (JString s) => Ok s
  | _ => Err (ValidationError key)
  end.

#[export] Instance json_eq_dec : EqDecision json.
Proof.
  refine (fix go (x y : json) : Decision (x = y) :=
    match x, y with
    | JNull, JNull => left eq_refl
    | JBool a, JBool b => cast_if (decide (a = b))
    | JInt a, JInt b => cast_if (decide (a = b))
    | JNumber a, JNumber b => cast_if (decide (a = b))
    | JString a, JString b => cast_if (decide (a = b))
    | JArray a, JArray b => cast_if (@list_eq_dec _ go a b)
    | JObject a, JObject b =>
        cast_if (@list_eq_dec _ (@prod_eq_dec _ (list_eq_dec) _ go) a b)
    | _, _ => right _
    end); congruence.
Defined.
