(* ===== verification/WorkspaceAccess.v ===== *)
(** * Workspace paths and the protected-path policy

    [agent_core/workspace_access.py]: normalization of untrusted relative paths,
    explicit file references, and [WorkspaceAccessPolicy].  A [PurePosixPath] is
    the list of its parts (a relative path has no root); [casefold] stands for
    [str.casefold], whose Unicode table is a parameter. *)

From stdpp Require Import base list sets gmap strings.
From Stdlib Require Import ZArith Lia.
From S2P Require Import Prelude PyBase.

Definition slash : N := 47.
Definition _MAX_PATH_BYTES : N := 4096.

(** ** Paths *)

(** [str.split("/")] *)
Fixpoint split_slash (s : pystr) : list pystr :=
  match s with
  | [] => [[]]
  | c :: s =>
      if (c =? slash)%N then [] :: split_slash s
      else match split_slash s with
           | part :: rest => (c :: part) :: rest
           | [] => [[c]]
           end
  end.

(** What [PurePosixPath] keeps: neither empty nor the current directory. *)
Definition is_part (p : pystr) : bool := negb (bool_decide (p = [])) && negb (bool_decide (p = py ".")).

Definition parts (s : pystr) : list pystr := filter (λ p, is_part p = true) (split_slash s).

Definition is_absolute (s : pystr) : bool :=
  match s with c :: _ => (c =? slash)%N | [] => false end.

Fixpoint join_slash (ps : list pystr) : pystr :=
  match ps with
  | [] => []
  | [p] => p
  | p :: ps => p ++ slash :: join_slash ps
  end.

Definition as_posix (ps : list pystr) : pystr :=
  match ps with [] => py "." | _ => join_slash ps end.

Definition workspace_path_invalid : error := DomainOperationError "workspace_path_invalid" false.

Definition normalize_workspace_path (value : pystr) : result (list pystr) :=
  _ ← ensure (negb (bool_decide (value = [])) && negb (bool_decide (0%N ∈ value))
              && (utf8_len value <=? _MAX_PATH_BYTES)%N) workspace_path_invalid;
  _ ← ensure (negb (is_absolute value) && negb (bool_decide (py ".." ∈ parts value)))
        workspace_path_invalid;
  Ok (parts value).

(** ** The policy *)

Definition _SENSITIVE_DIRECTORY_COMPONENTS : list pystr := [py ".aws"; py ".azure"; py ".gnupg"; py ".ssh"].
(** In sorted order *)
Definition _SENSITIVE_FILENAMES : list pystr :=
  [py ".netrc"; py ".npmrc"; py ".pypirc"; py "application_default_credentials.json"; py "id_dsa";
   py "id_ecdsa"; py "id_ed25519"; py "id_rsa"].
Definition _SAFE_ENV_SUFFIXES : list pystr := [py ".example"; py ".sample"; py ".template"].

Definition ends_with (suffix s : pystr) : bool :=
  bool_decide (drop (length s - length suffix) s = suffix).
Definition starts_with (prefix s : pystr) : bool :=
  bool_decide (take (length prefix) s = prefix).

(** [any(left == a and right == b for left, right in pairwise(parts))] *)
Fixpoint has_pair (a b : pystr) (ps : list pystr) : bool :=
  match ps with
  | p :: ((q :: _) as rest) => (bool_decide (p = a) && bool_decide (q = b)) || has_pair a b rest
  | _ => false
  end.

Definition sensitive_filename (filename : pystr) : bool :=
  bool_decide (filename ∈ _SENSITIVE_FILENAMES)
  || bool_decide (filename = py ".env")
  || (starts_with (py ".env.") filename
      && negb (existsb (λ s, ends_with s filename) _SAFE_ENV_SUFFIXES)).

(** The verdict on folded parts. *)
Definition sensitive_parts (ps : list pystr) : bool :=
  existsb (λ p, bool_decide (p ∈ _SENSITIVE_DIRECTORY_COMPONENTS)) ps
  || has_pair (py ".config") (py "gcloud") ps
  || (match last ps with Some filename => sensitive_filename filename | None => false end).

Record WorkspaceAccessPolicy := mkAccessPolicy {
  allowlisted_files : list (list pystr);
  allowlisted_directories : list (list pystr);
}.

Definition default_access_policy : WorkspaceAccessPolicy := mkAccessPolicy [] [].

(** [path.is_relative_to(directory)] on parts *)
Definition is_relative_to (path directory : list pystr) : bool :=
  bool_decide (take (length directory) path = directory).

Section Policy.
Variable casefold : pystr → pystr.

Definition _casefold_parts (path : list pystr) : list pystr :=
  casefold <$> filter (λ p, p ≠ py ".") path.

Definition _is_repository_metadata (path : list pystr) : bool :=
  bool_decide (py ".git" ∈ _casefold_parts path).

Definition _is_sensitive_path (path : list pystr) : bool := sensitive_parts (_casefold_parts path).

(** [PurePosixPath( *parts)] of parts *)
Definition pure_path (ps : list pystr) : list pystr := ps ≫= parts.

Definition _validated_allowlist (values : list pystr) : result (list (list pystr)) :=
  traverse (λ value,
    path ← normalize_workspace_path value;
    _ ← ensure (negb (_is_repository_metadata path))
          (ValueError "repository metadata can never be allowlisted");
    Ok (pure_path (_casefold_parts path))) values.

Definition make_policy (files directories : list pystr) : result WorkspaceAccessPolicy :=
  files ← _validated_allowlist files;
  directories ← _validated_allowlist directories;
  Ok (mkAccessPolicy files directories).

Definition is_protected (policy : WorkspaceAccessPolicy) (path : list pystr) : bool :=
  _is_repository_metadata path
  || (_is_sensitive_path path
      && (let folded := pure_path (_casefold_parts path) in
          negb (bool_decide (folded ∈ allowlisted_files policy))
          && negb (existsb (λ directory, bool_decide (folded = directory) || is_relative_to folded directory)
                     (allowlisted_directories policy)))).

Definition require_accessible (policy : WorkspaceAccessPolicy) (path : list pystr) : result unit :=
  _ ← ensure (negb (_is_repository_metadata path)) workspace_path_invalid;
  ensure (negb (is_protected policy path)) (DomainOperationError "workspace_path_protected" false).

Definition ripgrep_exclusion_globs (policy : WorkspaceAccessPolicy) : list pystr :=
  let allowed_parts := _casefold_parts <$> (allowlisted_files policy ++ allowlisted_directories policy) in
  let named (name : pystr) := existsb (λ ps, bool_decide (last ps = Some name)) allowed_parts in
  (filter (λ c, negb (existsb (λ ps, bool_decide (c ∈ ps)) allowed_parts) = true)
     _SENSITIVE_DIRECTORY_COMPONENTS ≫= λ component,
     [py "!" ++ component; py "!**/" ++ component; py "!" ++ component ++ py "/**";
      py "!**/" ++ component ++ py "/**"])
  ++ (if existsb (has_pair (py ".config") (py "gcloud")) allowed_parts then []
      else [py "!.config/gcloud"; py "!**/.config/gcloud"; py "!.config/gcloud/**";
            py "!**/.config/gcloud/**"])
  ++ (if named (py ".env") then [] else [py "!.env"; py "!**/.env"])
  ++ (filter (λ f, negb (named f) = true) _SENSITIVE_FILENAMES ≫= λ filename,
        [py "!" ++ filename; py "!**/" ++ filename])
  ++ [py "!.git"; py "!**/.git"; py "!.git/**"; py "!**/.git/**"].

(** ** Explicit references *)

Definition MAX_REFERENCED_WORKSPACE_FILES : nat := 32.

(** [WorkspaceFileReference.validate_path] after the length constraint: the
    reference is its canonical path. *)
Definition validate_file_reference (path : pystr) : result pystr :=
  _ ← ensure ((1 <=? length path)%nat && (Z.of_nat (length path) <=? 4096)%Z) (ValidationError "path");
  ps ← (match normalize_workspace_path path with
        | Ok ps => Ok ps
        | Err _ => Err (ValidationError "referenced workspace paths must be canonical relative paths")
        end);
  _ ← ensure (negb (bool_decide (ps = []))) (ValidationError "referenced workspace paths must identify a file");
  _ ← ensure (negb (_is_repository_metadata ps)) (ValidationError "repository metadata cannot be referenced");
  Ok (as_posix ps).

(** [WorkspaceFileReference.model_validate] *)
Definition file_reference_of_json (j : json) : result pystr :=
  _ ← closed_object j [py "path"];
  path ← required_string j "path";
  validate_file_reference path.
End Policy.

(** ** Properties *)

Lemma split_slash_nonempty s : split_slash s ≠ [].
Proof. destruct s as [|c s]; simpl; [done|]. destruct (c =? slash)%N; [done|]. by destruct (split_slash s). Qed.

Lemma split_slash_free s p : p ∈ split_slash s → slash ∉ p.
Proof.
  revert p. induction s as [|c s IH]; intros p; simpl.
  { intros ->%list_elem_of_singleton. set_solver. }
  destruct (N.eqb_spec c slash) as [->|Hc].
  - intros [->|Hp]%elem_of_cons; [set_solver|by apply IH].
  - destruct (split_slash s) as [|q rest].
    + intros ->%list_elem_of_singleton. set_solver.
    + intros [->|Hp]%elem_of_cons; [|apply IH; set_solver].
      specialize (IH q ltac:(left)). set_solver.
Qed.

Lemma split_slash_part p : slash ∉ p → split_slash p = [p].
Proof.
  induction p as [|c p IH]; intros Hp; [done|]. simpl.
  destruct (N.eqb_spec c slash); [set_solver|]. rewrite IH by set_solver. done.
Qed.

Lemma split_slash_app p s : slash ∉ p → split_slash (p ++ slash :: s) = p :: split_slash s.
Proof.
  induction p as [|c p IH]; intros Hp; simpl; [done|].
  destruct (N.eqb_spec c slash); [set_solver|]. rewrite IH by set_solver. done.
Qed.

Lemma split_join ps : ps ≠ [] → (∀ p, p ∈ ps → slash ∉ p) → split_slash (join_slash ps) = ps.
Proof.
  induction ps as [|p ps IH]; intros Hne Hp; [done|]. destruct ps as [|q ps].
  - apply split_slash_part, Hp. by left.
  - change (join_slash (p :: q :: ps)) with (p ++ slash :: join_slash (q :: ps)).
    rewrite split_slash_app by (apply Hp; by left). rewrite IH; [done|done|].
    intros x Hx. apply Hp. by right.
Qed.

(** The parts of a text are names: not empty, not the current directory, without
    a separator. *)
Lemma parts_names s p : p ∈ parts s → p ≠ [] ∧ p ≠ py "." ∧ slash ∉ p.
Proof.
  unfold parts, is_part. intros [Hp Hin]%list_elem_of_filter. bool_hyps.
  split_and!; [done|done|by eapply split_slash_free].
Qed.

(** Joining and splitting names loses nothing. *)
Lemma parts_join ps :
  ps ≠ [] → (∀ p, p ∈ ps → p ≠ [] ∧ p ≠ py "." ∧ slash ∉ p) → parts (join_slash ps) = ps.
Proof.
  intros Hne Hp. unfold parts. rewrite split_join; [|done|intros p Hin; by apply Hp].
  apply filter_all. intros p Hin. destruct (Hp p Hin) as (? & ? & _).
  unfold is_part. by rewrite !bool_decide_false.
Qed.

(** Sizes: every part with its separator. *)
Definition weight (ps : list pystr) : N := foldr (λ p n, utf8_len p + 1 + n)%N 0%N ps.

Lemma weight_split s : weight (split_slash s) = (utf8_len s + 1)%N.
Proof.
  induction s as [|c s IH]; [done|]. simpl. destruct (N.eqb_spec c slash) as [->|Hc].
  - simpl. rewrite IH. change (utf8_size slash) with 1%N. lia.
  - pose proof (split_slash_nonempty s). destruct (split_slash s) as [|q rest]; [done|].
    simpl in *. lia.
Qed.

Lemma weight_join ps : ps ≠ [] → weight ps = (utf8_len (join_slash ps) + 1)%N.
Proof.
  induction ps as [|p ps IH]; intros Hne; [done|]. destruct ps as [|q ps]; [simpl; lia|].
  change (join_slash (p :: q :: ps)) with (p ++ slash :: join_slash (q :: ps)).
  rewrite utf8_len_app. change (weight (p :: q :: ps)) with (utf8_len p + 1 + weight (q :: ps))%N.
  rewrite IH by done. change (utf8_len (slash :: ?s)) with (1 + utf8_len s)%N. lia.
Qed.

Lemma weight_filter ps : (weight (filter (λ p, is_part p = true) ps) ≤ weight ps)%N.
Proof.
  induction ps as [|p ps IH]; [done|]. rewrite filter_cons. case_decide; simpl; lia.
Qed.

Lemma canonical_size s : parts s ≠ [] → (utf8_len (join_slash (parts s)) ≤ utf8_len s)%N.
Proof.
  intros Hne. pose proof (weight_filter (split_slash s)) as Hw. fold (parts s) in Hw.
  rewrite weight_split, (weight_join _ Hne) in Hw. lia.
Qed.

Lemma split_slash_chars s p c : p ∈ split_slash s → c ∈ p → c ∈ s.
Proof.
  revert p. induction s as [|d s IH]; intros p; simpl.
  { intros ->%list_elem_of_singleton. done. }
  destruct (d =? slash)%N.
  - intros [->|Hp]%elem_of_cons Hc; [set_solver|]. right. by eapply IH.
  - destruct (split_slash s) as [|q rest].
    + intros ->%list_elem_of_singleton. set_solver.
    + intros [->|Hp]%elem_of_cons Hc; [|right; eapply IH; [by right|done]].
      apply elem_of_cons in Hc as [->|Hc]; [by left|]. right. eapply IH; [by left|done].
Qed.

Lemma join_chars ps c : c ∈ join_slash ps → c = slash ∨ ∃ p, p ∈ ps ∧ c ∈ p.
Proof.
  induction ps as [|p ps IH]; [set_solver|]. destruct ps as [|q ps].
  - simpl. intros Hc. right. exists p. split; [by left|done].
  - change (join_slash (p :: q :: ps)) with (p ++ slash :: join_slash (q :: ps)).
    intros [Hc|[->|Hc]%elem_of_cons]%elem_of_app; [|by left|].
    + right. exists p. split; [by left|done].
    + destruct (IH Hc) as [?|(x & Hx & ?)]; [by left|]. right. exists x. split; [by right|done].
Qed.

(** The canonical form of a normalized path normalizes to the same parts. *)
Lemma normalize_canonical v ps :
  normalize_workspace_path v = Ok ps → ps ≠ [] →
  normalize_workspace_path (join_slash ps) = Ok ps ∧ (utf8_len (join_slash ps) ≤ _MAX_PATH_BYTES)%N.
Proof.
  unfold normalize_workspace_path. intros H Hne. run_inv H. bool_hyps.
  match goal with H : (_ <=? _)%N = true |- _ => apply N.leb_le in H end.
  pose proof (canonical_size v Hne) as Hsz.
  assert (∀ p, p ∈ parts v → p ≠ [] ∧ p ≠ py "." ∧ slash ∉ p) as Hn by (intros p; apply parts_names).
  rewrite (parts_join (parts v) Hne Hn). split; [|lia].
  assert (join_slash (parts v) ≠ [] ∧ is_absolute (join_slash (parts v)) = false) as [Hj1 Hj2].
  { destruct (parts v) as [|p ps]; [done|]. destruct (Hn p ltac:(left)) as (Hp1 & _ & Hp2).
    destruct p as [|c p]; [done|]. assert (c ≠ slash) by set_solver.
    split; destruct ps; simpl; try done; by apply N.eqb_neq. }
  rewrite (bool_decide_false (join_slash _ = [])) by done.
  rewrite (bool_decide_false (0%N ∈ _)).
  2:{ intros [?|(p & Hp & Hc)]%join_chars; [done|].
      apply list_elem_of_filter in Hp as [_ Hp]. by eapply split_slash_chars in Hp. }
  rewrite (proj2 (N.leb_le _ _)) by lia. rewrite Hj2. cbn [negb andb ensure mbind result_bind].
  by rewrite bool_decide_false.
Qed.

(** C32: explicit file references are canonical and confined.  An accepted
    reference is a relative path whose parts are plain names — never empty, the
    current or the parent directory, or git metadata in any case — and reading
    it again gives it back unchanged. *)
Theorem file_reference_confined casefold v s :
  validate_file_reference casefold v = Ok s →
  validate_file_reference casefold s = Ok s ∧ is_absolute s = false ∧
  ∀ p, p ∈ parts s → p ≠ [] ∧ p ≠ py "." ∧ p ≠ py ".." ∧ slash ∉ p ∧ casefold p ≠ py ".git".
Proof.
  unfold validate_file_reference. intros H. run_inv H. bool_hyps.
  destruct (normalize_workspace_path v) as [ps|] eqn:Hn; [|done].
  match goal with H : Ok ps = Ok _ |- _ => injection H as <- end.
  assert (as_posix ps = join_slash ps) as -> by (by destruct ps).
  destruct (normalize_canonical _ _ Hn ltac:(done)) as [Hc Hsz]. rewrite Hc.
  assert (join_slash ps ≠ [] ∧ is_absolute (join_slash ps) = false ∧ py ".." ∉ parts (join_slash ps) ∧
    parts (join_slash ps) = ps) as (Hj & Ha & Hup & Hps).
  { unfold normalize_workspace_path in Hc. run_inv Hc. bool_hyps. by split_and!. }
  pose proof (utf8_len_length (join_slash ps)) as Hlen. unfold _MAX_PATH_BYTES in Hsz.
  split_and!; [|done|].
  - rewrite (proj2 (Nat.leb_le 1 _)), (proj2 (Z.leb_le _ 4096)) by (destruct (join_slash ps); simpl in *; lia || done).
    cbn [andb ensure mbind result_bind]. rewrite bool_decide_false by done. cbn [negb ensure mbind result_bind].
    match goal with H : _is_repository_metadata _ _ = false |- _ => rewrite H end. by destruct ps.
  - intros p Hp. destruct (parts_names _ _ Hp) as (? & ? & ?). split_and!; try done.
    + intros ->. done.
    + intros Hg. match goal with H : _is_repository_metadata _ _ = false |- _ => rename H into Hm end.
      unfold _is_repository_metadata in Hm. apply bool_decide_eq_false in Hm. apply Hm.
      rewrite <- Hg. apply list_elem_of_fmap_2, list_elem_of_filter. rewrite Hps in Hp. done.
Qed.

(** Git metadata stays protected whatever the policy allows, and a sensitive path
    is only accessible through an exception of the policy. *)
Lemma protected_exceptions casefold policy path :
  require_accessible casefold policy path = Ok tt →
  py ".git" ∉ _casefold_parts casefold path ∧
  (_is_sensitive_path casefold path = true →
   pure_path (_casefold_parts casefold path) ∈ allowlisted_files policy ∨
   ∃ directory, directory ∈ allowlisted_directories policy ∧
     is_relative_to (pure_path (_casefold_parts casefold path)) directory = true).
Proof.
  unfold require_accessible, is_protected. intros H. run_inv H. bool_hyps.
  unfold _is_repository_metadata in *. split; [by eapply bool_decide_eq_false|].
  intros Hs. rewrite Hs in *. simpl in *.
  match goal with H : negb (bool_decide _) && _ = false |- _ =>
    apply andb_false_iff in H as [H|H]; apply negb_false_iff in H end.
  - left. by eapply bool_decide_eq_true.
  - right. match goal with H : existsb _ _ = true |- _ => apply existsb_exists in H as (dir & Hd & He) end.
    exists dir. split; [by apply list_elem_of_In|]. apply orb_true_iff in He as [He|He]; [|done].
    bool_hyps. rewrite He. unfold is_relative_to. by rewrite firstn_all, bool_decide_true.
Qed.
