(* ===== verification/Domain.v ===== *)
(** * Run domain model and lifecycle state machine

    [agent_core/domain/status.py], the [Run] entity of
    [agent_core/domain/models.py], the priority classes of
    [agent_core/scheduling.py] and the central transition policy of
    [agent_core/domain/transitions.py]. *)

From stdpp Require Import base list sets strings.
From Stdlib Require Import ZArith Lia.
From S2P Require Import Prelude PyBase.

(** ** Statuses *)

Inductive RunStatus :=
| QUEUED | LEASED | RUNNING | WAITING_APPROVAL | RETRY_PENDING
| COMPLETED | FAILED | CANCELLED | LOST.

#[export] Instance RunStatus_eq_dec : EqDecision RunStatus.
Proof. solve_decision. Defined.

Inductive RunPriorityClass := INTERACTIVE | BACKGROUND | EVALUATION.

#[export] Instance RunPriorityClass_eq_dec : EqDecision RunPriorityClass.
Proof. solve_decision. Defined.

(** Evaluate the comparisons of constant statuses in the goal. *)
Ltac eval_status :=
  repeat match goal with
  | |- context [bool_decide (?a = ?b)] =>
      let v := eval vm_compute in (bool_decide (a = b)) in
      lazymatch v with
      | true => change (bool_decide (a = b)) with true
      | false => change (bool_decide (a = b)) with false
      end
  end; cbn [andb orb].

(** ** The [Run] entity *)

Record Run := mkRun {
  run_id : uuid;
  run_session_id : uuid;
  run_workspace_id : uuid;
  run_status : RunStatus;
  run_priority : Z;
  run_priority_class : RunPriorityClass;
  run_attempt : Z;
  run_execution_epoch : Z;
  run_assigned_worker_id : option pystr;
  run_lease_expires_at : option timestamp;
  run_last_checkpoint_id : option uuid;
  run_cancellation_requested : bool;
  run_traceparent : option pystr;
  run_tracestate : option pystr;
  run_created_at : timestamp;
  run_started_at : option timestamp;
  run_completed_at : option timestamp;
}.

#[export] Instance Run_eq_dec : EqDecision Run.
Proof. solve_decision. Defined.

(** The fields a transition may rewrite; identity, priority and creation time
    stay. *)
Definition update_run (r : Run) status attempt epoch worker lease checkpoint
    cancellation started completed : Run :=
  mkRun (run_id r) (run_session_id r) (run_workspace_id r) status
    (run_priority r) (run_priority_class r) attempt epoch worker lease checkpoint
    cancellation (run_traceparent r) (run_tracestate r) (run_created_at r)
    started completed.

Definition is_terminal_run_status (s : RunStatus) : bool :=
  bool_decide (s ∈ [COMPLETED; FAILED; CANCELLED]).

Definition is_started_run_status (s : RunStatus) : bool :=
  bool_decide (s ∈ [RUNNING; WAITING_APPROVAL; RETRY_PENDING; COMPLETED; FAILED]).

Definition is_assigned_run_status (s : RunStatus) : bool :=
  bool_decide (s ∈ [LEASED; RUNNING]).

Definition is_unassigned_run_status (s : RunStatus) : bool :=
  bool_decide (s ∈ [QUEUED; WAITING_APPROVAL; RETRY_PENDING; LOST]).

Definition is_some {A} (o : option A) : bool :=
  match o with Some _ => true | None => false end.

Definition is_none {A} (o : option A) : bool := negb (is_some o).

(** [self.started_at or self.created_at] *)
Definition lifecycle_start (r : Run) : timestamp :=
  default (run_created_at r) (run_started_at r).

(** Field constraints: identifiers are stripped, numbers range-checked. *)
Definition validate_run_fields (r : Run) : result Run :=
  worker ← validate_optional identifier_string (run_assigned_worker_id r);
  _ ← ensure ((-100 <=? run_priority r)%Z && (run_priority r <=? 100)%Z)
        (ValidationError "priority");
  _ ← ensure (1 <=? run_attempt r)%Z (ValidationError "attempt");
  _ ← ensure (1 <=? run_execution_epoch r)%Z (ValidationError "execution_epoch");
  _ ← ensure (match run_traceparent r with
              | None => true
              | Some t => is_some (traceparent_parts t)
              end) (ValidationError "traceparent");
  _ ← ensure (match run_tracestate r with None => true | Some t => tracestate_ok t end)
        (ValidationError "tracestate");
  Ok (update_run r (run_status r) (run_attempt r) (run_execution_epoch r) worker
        (run_lease_expires_at r) (run_last_checkpoint_id r)
        (run_cancellation_requested r) (run_started_at r) (run_completed_at r)).

Definition validate_execution_epoch (r : Run) : result unit :=
  ensure (run_execution_epoch r <=? run_attempt r)%Z
    (ValidationError "execution_epoch may not exceed the run attempt").

(** [int(x, 16) != 0] for a nonempty hexadecimal string. *)
Definition hex_nonzero (s : pystr) : bool := existsb (λ c, negb (c =? 48)%N) s.

Definition validate_lifecycle (r : Run) : result unit :=
  let status := run_status r in
  _ ← ensure (is_none (run_tracestate r) || is_some (run_traceparent r))
        (ValidationError "tracestate requires traceparent");
  _ ← ensure (match run_traceparent r with
              | None => true
              | Some t =>
                  match traceparent_parts t with
                  | Some (trace, parent) => hex_nonzero trace && hex_nonzero parent
                  | None => false
                  end
              end) (ValidationError "traceparent identifiers must be nonzero");
  _ ← ensure (match run_started_at r with
              | None => true
              | Some s => (run_created_at r <=? s)%Z
              end) (ValidationError "started_at may not precede created_at");
  _ ← ensure (match run_completed_at r with
              | None => true
              | Some c => (lifecycle_start r <=? c)%Z
              end) (ValidationError "completed_at may not precede the run start");
  _ ← ensure (negb (is_started_run_status status && is_none (run_started_at r)))
        (ValidationError "run must have started_at");
  _ ← ensure (negb (is_assigned_run_status status && is_none (run_assigned_worker_id r)))
        (ValidationError "run must have assigned_worker_id");
  _ ← ensure (negb (is_assigned_run_status status && is_none (run_lease_expires_at r)))
        (ValidationError "run must have lease_expires_at");
  _ ← ensure (negb (is_unassigned_run_status status
                    && (is_some (run_assigned_worker_id r) || is_some (run_lease_expires_at r))))
        (ValidationError "run may not retain a worker lease");
  if is_terminal_run_status status
  then ensure (is_some (run_completed_at r)) (ValidationError "run must have completed_at")
  else ensure (is_none (run_completed_at r))
         (ValidationError "non-terminal run may not have completed_at").

(** [Run.model_validate]: the field constraints, then the two model validators
    in declaration order. *)
Definition validate_run (r : Run) : result Run :=
  r' ← validate_run_fields r;
  _ ← validate_execution_epoch r';
  _ ← validate_lifecycle r';
  Ok r'.

(** ** Transition policy *)

Definition allowed_run_transitions (s : RunStatus) : list RunStatus :=
  match s with
  | QUEUED => [LEASED; CANCELLED]
  | LEASED => [RUNNING; QUEUED; CANCELLED; LOST]
  | RUNNING => [WAITING_APPROVAL; RETRY_PENDING; COMPLETED; FAILED; CANCELLED; LOST]
  | WAITING_APPROVAL => [QUEUED; FAILED; CANCELLED]
  | RETRY_PENDING => [QUEUED; FAILED; CANCELLED]
  | LOST => [QUEUED; CANCELLED]
  | COMPLETED => []
  | FAILED => []
  | CANCELLED => []
  end.

Definition is_rewindable_run_status (s : RunStatus) : bool :=
  bool_decide (s ∈ [WAITING_APPROVAL; RETRY_PENDING; COMPLETED; FAILED; CANCELLED; LOST]).

Definition _operation_timestamp (value : datetime) (error_code : string) : result timestamp :=
  match normalize_timestamp value with
  | Ok t => Ok t
  | Err _ => Err (DomainOperationError error_code false)
  end.

Definition invalid_run_transition : error :=
  DomainOperationError "invalid_run_transition" false.
Definition invalid_transition_timestamp : error :=
  DomainOperationError "invalid_run_transition_timestamp" false.
Definition invalid_run_lease : error := DomainOperationError "invalid_run_lease" false.

(** The lease arguments of a transition to LEASED, checked against the
    transition time. *)
Definition lease_arguments (timestamp_ : timestamp) (worker_id : option pystr)
    (lease_expires_at : option datetime) : result (pystr * timestamp) :=
  let normalized_worker_id := match worker_id with Some w => py_strip w | None => [] end in
  match normalized_worker_id, lease_expires_at with
  | [], _ => Err invalid_run_lease
  | _, None => Err invalid_run_lease
  | w, Some expiry =>
      normalized_expiry ← _operation_timestamp expiry "invalid_run_lease";
      _ ← ensure (timestamp_ <? normalized_expiry)%Z invalid_run_lease;
      Ok (w, normalized_expiry)
  end.

Definition transition_run (run : Run) (new_status : RunStatus) (occurred_at : datetime)
    (worker_id : option pystr) (lease_expires_at : option datetime) : result Run :=
  _ ← ensure (bool_decide (new_status ∈ allowed_run_transitions (run_status run)))
        invalid_run_transition;
  timestamp_ ← _operation_timestamp occurred_at "invalid_run_transition_timestamp";
  _ ← ensure (lifecycle_start run <=? timestamp_)%Z invalid_transition_timestamp;
  let attempt := run_attempt run in
  let epoch := run_execution_epoch run in
  let checkpoint := run_last_checkpoint_id run in
  let cancellation := run_cancellation_requested run in
  let started := run_started_at run in
  let completed := run_completed_at run in
  match new_status with
  | LEASED =>
      '(w, e) ← lease_arguments timestamp_ worker_id lease_expires_at;
      validate_run (update_run run LEASED attempt epoch (Some w) (Some e) checkpoint
                      cancellation started completed)
  | RUNNING =>
      validate_run (update_run run RUNNING attempt epoch (run_assigned_worker_id run)
                      (run_lease_expires_at run) checkpoint cancellation
                      (Some (default timestamp_ started)) completed)
  | WAITING_APPROVAL | RETRY_PENDING | LOST =>
      validate_run (update_run run new_status attempt epoch None None checkpoint
                      cancellation started completed)
  | QUEUED =>
      let attempt' :=
        if bool_decide (run_status run ∈ [RETRY_PENDING; LOST])
        then (attempt + 1)%Z else attempt in
      validate_run (update_run run QUEUED attempt' epoch None None checkpoint
                      cancellation started completed)
  | COMPLETED | FAILED | CANCELLED =>
      validate_run (update_run run new_status attempt epoch None None checkpoint
                      (if bool_decide (new_status = CANCELLED) then true else cancellation)
                      started (Some timestamp_))
  end.

Definition rewind_run (run : Run) (checkpoint_id : uuid) : result Run :=
  _ ← ensure (is_rewindable_run_status (run_status run))
        (DomainOperationError "run_rewind_state_conflict" false);
  validate_run (update_run run QUEUED (run_attempt run + 1) (run_execution_epoch run + 1)
                  None None (Some checkpoint_id) false (run_started_at run) None).

(** [Run.model_copy(update=...)] for the two updates the platform makes; neither
    names [status], so the transition guard of [model_copy] passes and the copy
    is validated again. *)
Definition copy_with_checkpoint (run : Run) (checkpoint_id : uuid) : result Run :=
  validate_run (update_run run (run_status run) (run_attempt run) (run_execution_epoch run)
                  (run_assigned_worker_id run) (run_lease_expires_at run)
                  (Some checkpoint_id) (run_cancellation_requested run)
                  (run_started_at run) (run_completed_at run)).

Definition copy_with_cancellation (run : Run) : result Run :=
  validate_run (update_run run (run_status run) (run_attempt run) (run_execution_epoch run)
                  (run_assigned_worker_id run) (run_lease_expires_at run)
                  (run_last_checkpoint_id run) true
                  (run_started_at run) (run_completed_at run)).

(** ** Well-formed runs *)

(** What [Run.model_validate] promises of a run it returns. *)
Record run_wf (r : Run) : Prop := {
  wf_worker : ∀ w, run_assigned_worker_id r = Some w → identifier_string w = Ok w;
  wf_priority : (-100 ≤ run_priority r ≤ 100)%Z;
  wf_attempt : (1 ≤ run_execution_epoch r ≤ run_attempt r)%Z;
  wf_traceparent : ∀ t, run_traceparent r = Some t →
    ∃ a b, traceparent_parts t = Some (a, b) ∧ hex_nonzero a = true ∧ hex_nonzero b = true;
  wf_tracestate : ∀ t, run_tracestate r = Some t →
    tracestate_ok t = true ∧ is_some (run_traceparent r) = true;
  wf_started : ∀ s, run_started_at r = Some s → (run_created_at r ≤ s)%Z;
  wf_completed : ∀ c, run_completed_at r = Some c → (lifecycle_start r ≤ c)%Z;
  wf_started_state : is_started_run_status (run_status r) = true →
    run_started_at r ≠ None;
  wf_assigned_state : is_assigned_run_status (run_status r) = true →
    run_assigned_worker_id r ≠ None ∧ run_lease_expires_at r ≠ None;
  wf_unassigned_state : is_unassigned_run_status (run_status r) = true →
    run_assigned_worker_id r = None ∧ run_lease_expires_at r = None;
  wf_terminal_state : is_terminal_run_status (run_status r) = is_some (run_completed_at r);
}.

(** The run with its worker identifier stripped. *)
Definition strip_worker (r : Run) : Run :=
  update_run r (run_status r) (run_attempt r) (run_execution_epoch r)
    (strip_by is_white_space <$> run_assigned_worker_id r)
    (run_lease_expires_at r) (run_last_checkpoint_id r)
    (run_cancellation_requested r) (run_started_at r) (run_completed_at r).

Lemma update_run_id r :
  update_run r (run_status r) (run_attempt r) (run_execution_epoch r)
    (run_assigned_worker_id r) (run_lease_expires_at r) (run_last_checkpoint_id r)
    (run_cancellation_requested r) (run_started_at r) (run_completed_at r) = r.
Proof. by destruct r. Qed.

Lemma identifier_string_Ok s t :
  identifier_string s = Ok t ↔ t = strip_by is_white_space s ∧ 1 ≤ length t ≤ 255.
Proof.
  unfold identifier_string. split.
  - intros H. run_inv H. apply andb_prop in Hrun as [?%Nat.leb_le ?%Nat.leb_le].
    split; [done|lia].
  - intros [-> [??]]. rewrite bind_Ok. exists tt. split; [|done].
    apply ensure_Ok, andb_true_intro. split; apply Nat.leb_le; lia.
Qed.

Lemma identifier_string_idem s t : identifier_string s = Ok t → identifier_string t = Ok t.
Proof.
  rewrite !identifier_string_Ok. intros [-> Hl]. by rewrite strip_idem.
Qed.

(** A boolean guard of the form [o is None or P(o)]. *)
Lemma match_guard {A} (o : option A) (f : A → bool) :
  (match o with None => true | Some a => f a end) = true ↔ ∀ a, o = Some a → f a = true.
Proof. destruct o; naive_solver. Qed.

Lemma is_some_ne {A} (o : option A) : is_some o = true ↔ o ≠ None.
Proof. destruct o; naive_solver. Qed.

Lemma is_none_eq {A} (o : option A) : is_none o = true ↔ o = None.
Proof. destruct o; naive_solver. Qed.

Lemma guard_imp (a b : bool) : negb (a && b) = true ↔ (a = true → b = false).
Proof. destruct a, b; naive_solver. Qed.

Lemma validate_fields_Ok r r' :
  validate_run_fields r = Ok r' ↔
  r' = strip_worker r ∧
  (∀ w, run_assigned_worker_id r' = Some w → identifier_string w = Ok w) ∧
  (-100 ≤ run_priority r ≤ 100)%Z ∧ (1 ≤ run_attempt r)%Z ∧
  (1 ≤ run_execution_epoch r)%Z ∧
  (∀ t, run_traceparent r = Some t → is_some (traceparent_parts t) = true) ∧
  (∀ t, run_tracestate r = Some t → tracestate_ok t = true).
Proof.
  unfold validate_run_fields.
  assert (∀ o, validate_optional identifier_string (run_assigned_worker_id r) = Ok o ↔
    o = strip_by is_white_space <$> run_assigned_worker_id r ∧
    ∀ w, o = Some w → identifier_string w = Ok w) as Hw.
  { intros o. destruct (run_assigned_worker_id r) as [w|]; simpl.
    - rewrite bind_Ok. split.
      + intros (t & Ht & [= <-]). pose proof Ht as Ht'.
        apply identifier_string_Ok in Ht as [-> ?]. split; [done|].
        intros w' [= <-]. by eapply identifier_string_idem.
      + intros [-> Hall]. specialize (Hall _ eq_refl).
        exists (strip_by is_white_space w). split; [|done].
        apply identifier_string_Ok in Hall as [Hs ?]. by apply identifier_string_Ok.
    - split; [intros [= <-]; by split|]. by intros [-> _]. }
  split.
  - intros H. run_inv H. apply Hw in Hrun as [-> Hall]. bool_hyps.
    repeat match goal with H : _ = true |- _ => rewrite match_guard in H end.
    split; [done|]. simpl. repeat split; eauto; lia.
  - intros (-> & Hall & Hp & Ha & He & Ht & Hs). rewrite bind_Ok.
    eexists. split; [by apply Hw|]. rewrite !bind_Ok.
    exists tt. split.
    { apply ensure_Ok, andb_true_intro. split; apply Z.leb_le; lia. }
    rewrite bind_Ok. exists tt. split; [apply ensure_Ok, Z.leb_le; lia|].
    rewrite bind_Ok. exists tt. split; [apply ensure_Ok, Z.leb_le; lia|].
    rewrite bind_Ok. exists tt. split; [by apply ensure_Ok, match_guard|].
    rewrite bind_Ok. exists tt. split; [by apply ensure_Ok, match_guard|]. done.
Qed.

Lemma bind_unit_Ok {B} (r : result unit) (k : result B) b :
  (_ ← r; k) = Ok b ↔ r = Ok tt ∧ k = Ok b.
Proof. destruct r as [[]|]; simpl; naive_solver. Qed.

Lemma validate_lifecycle_Ok r u :
  validate_lifecycle r = Ok u ↔
  (run_tracestate r ≠ None → run_traceparent r ≠ None) ∧
  (∀ t, run_traceparent r = Some t →
    ∃ a b, traceparent_parts t = Some (a, b) ∧ hex_nonzero a = true ∧ hex_nonzero b = true) ∧
  (∀ s, run_started_at r = Some s → (run_created_at r ≤ s)%Z) ∧
  (∀ c, run_completed_at r = Some c → (lifecycle_start r ≤ c)%Z) ∧
  (is_started_run_status (run_status r) = true → run_started_at r ≠ None) ∧
  (is_assigned_run_status (run_status r) = true →
     run_assigned_worker_id r ≠ None ∧ run_lease_expires_at r ≠ None) ∧
  (is_unassigned_run_status (run_status r) = true →
     run_assigned_worker_id r = None ∧ run_lease_expires_at r = None) ∧
  is_terminal_run_status (run_status r) = is_some (run_completed_at r).
Proof.
  unfold validate_lifecycle. destruct u. rewrite !bind_unit_Ok, !ensure_Ok, !guard_imp.
  rewrite !match_guard.
  assert (∀ A (o : option A), is_none o = false ↔ o ≠ None) as Hnn
    by (intros A [?|]; naive_solver).
  assert (∀ s : RunStatus, (is_unassigned_run_status s = true →
      is_some (run_assigned_worker_id r) || is_some (run_lease_expires_at r) = false) ↔
    (is_unassigned_run_status s = true →
      run_assigned_worker_id r = None ∧ run_lease_expires_at r = None)) as Hun.
  { intros s. destruct (run_assigned_worker_id r), (run_lease_expires_at r); naive_solver. }
  rewrite Hun, !Hnn.
  assert ((if is_terminal_run_status (run_status r)
     then ensure (is_some (run_completed_at r)) (ValidationError "run must have completed_at")
     else ensure (is_none (run_completed_at r))
            (ValidationError "non-terminal run may not have completed_at")) = Ok tt ↔
    is_terminal_run_status (run_status r) = is_some (run_completed_at r)) as ->.
  { destruct (is_terminal_run_status _), (run_completed_at r); naive_solver. }
  assert ((is_none (run_tracestate r) || is_some (run_traceparent r) = true) ↔
    (run_tracestate r ≠ None → run_traceparent r ≠ None)) as ->.
  { destruct (run_tracestate r), (run_traceparent r); naive_solver. }
  assert ((∀ t, run_traceparent r = Some t →
      match traceparent_parts t with
      | Some (a, b) => hex_nonzero a && hex_nonzero b | None => false end = true) ↔
    (∀ t, run_traceparent r = Some t → ∃ a b, traceparent_parts t = Some (a, b) ∧
      hex_nonzero a = true ∧ hex_nonzero b = true)) as ->.
  { split; intros Hall t Ht; specialize (Hall t Ht).
    - destruct (traceparent_parts t) as [[a b]|]; [|done]. bool_hyps. eauto.
    - destruct Hall as (a & b & -> & -> & ->). done. }
  setoid_rewrite Z.leb_le. tauto.
Qed.

(** Validation returns the run with its worker identifier stripped, and
    succeeds exactly when that run is well formed. *)
Lemma validate_run_Ok r r' :
  validate_run r = Ok r' ↔ r' = strip_worker r ∧ run_wf r'.
Proof.
  unfold validate_run. split.
  - intros H. run_inv H. apply validate_fields_Ok in Hrun as (-> & ? & ? & ? & ? & ? & Hts).
    apply ensure_Ok, Z.leb_le in Hrun0.
    destruct v1. apply validate_lifecycle_Ok in Hrun1 as (Htt & ? & ? & ? & ? & ? & ? & ?).
    split; [done|]. constructor; eauto; simpl in *; try lia.
    intros t Ht. split; [eauto|]. apply is_some_ne, Htt. by rewrite Ht.
  - intros [-> Hwf]. destruct Hwf. simpl in *. rewrite bind_Ok. exists (strip_worker r). split.
    + apply validate_fields_Ok. simpl. repeat split; eauto; try lia.
      * intros t Ht. destruct (wf_traceparent0 t Ht) as (? & ? & -> & _). done.
      * intros t Ht. by destruct (wf_tracestate0 t Ht).
    + rewrite bind_Ok. exists tt. split; [apply ensure_Ok, Z.leb_le; simpl; lia|].
      rewrite bind_Ok. exists tt. split; [|done].
      apply validate_lifecycle_Ok. simpl. split; [|by eauto 10].
      intros Hts. destruct (run_tracestate r) as [t|]; [|done].
      apply is_some_ne. by destruct (wf_tracestate0 t eq_refl).
Qed.

Lemma wf_strip_worker r : run_wf r → strip_worker r = r.
Proof.
  intros Hwf. destruct r as [? ? ? ? ? ? ? ? [w|] ? ? ? ? ? ? ? ?]; [|done].
  unfold strip_worker, update_run; simpl. do 2 f_equal.
  by destruct (proj1 (identifier_string_Ok w w) (wf_worker _ Hwf w eq_refl)).
Qed.

Lemma wf_validate r : run_wf r → validate_run r = Ok r.
Proof. intros Hwf. apply validate_run_Ok. by rewrite wf_strip_worker. Qed.

Lemma validate_run_wf r r' : validate_run r = Ok r' → run_wf r'.
Proof. by intros [_ ?]%validate_run_Ok. Qed.

Lemma py_strip_identifier w :
  1 ≤ length (py_strip w) ≤ 255 → identifier_string (py_strip w) = Ok (py_strip w).
Proof.
  intros Hl. apply identifier_string_Ok. split; [|done]. symmetry.
  apply strip_weaken. intros c Hc. unfold py_isspace. by rewrite Hc.
Qed.

Lemma operation_timestamp_Ok v code t :
  _operation_timestamp v code = Ok t ↔ normalize_timestamp v = Ok t.
Proof. unfold _operation_timestamp. destruct (normalize_timestamp v); naive_solver. Qed.

Lemma lease_arguments_Ok t w e w' e' :
  lease_arguments t w e = Ok (w', e') ↔
  w' ≠ [] ∧ (∃ v, w = Some v ∧ w' = py_strip v) ∧
  (∃ d, e = Some d ∧ normalize_timestamp d = Ok e') ∧ (t < e')%Z.
Proof.
  unfold lease_arguments. destruct w as [v|]; [|naive_solver].
  destruct (py_strip v) as [|c s] eqn:Hs; [naive_solver|].
  destruct e as [d|]; [|naive_solver].
  rewrite bind_Ok. setoid_rewrite operation_timestamp_Ok. split.
  - intros (x & Hx & H). run_inv H. bool_hyps. naive_solver.
  - intros (_ & (? & [= <-] & ->) & (? & [= <-] & Hd) & Hlt).
    exists e'. split; [done|]. apply Z.ltb_lt in Hlt. by rewrite Hlt, Hs.
Qed.

(** The three guards every transition passes before its status-specific part. *)
Lemma transition_guards run s at_ w e run' :
  transition_run run s at_ w e = Ok run' →
  s ∈ allowed_run_transitions (run_status run) ∧
  ∃ t, normalize_timestamp at_ = Ok t ∧ (lifecycle_start run ≤ t)%Z.
Proof.
  unfold transition_run. intros H. run_inv H. bool_hyps.
  apply operation_timestamp_Ok in Hrun0. eauto.
Qed.

(** The run a transition at time [t] builds before it is validated. *)
Definition transition_data (run : Run) (s : RunStatus) (t : timestamp)
    (worker : option pystr) (lease : option timestamp) : Run :=
  update_run run s
    (if bool_decide (s = QUEUED) && bool_decide (run_status run ∈ [RETRY_PENDING; LOST])
     then run_attempt run + 1 else run_attempt run)%Z
    (run_execution_epoch run)
    (match s with
     | LEASED => worker
     | RUNNING => run_assigned_worker_id run
     | _ => None
     end)
    (match s with
     | LEASED => lease
     | RUNNING => run_lease_expires_at run
     | _ => None
     end)
    (run_last_checkpoint_id run)
    (run_cancellation_requested run || bool_decide (s = CANCELLED))
    (match s with
     | RUNNING => Some (default t (run_started_at run))
     | _ => run_started_at run
     end)
    (if is_terminal_run_status s then Some t else run_completed_at run).

Lemma transition_run_data run s at_ w e run' :
  transition_run run s at_ w e = Ok run' →
  ∃ t lw le, normalize_timestamp at_ = Ok t ∧ (lifecycle_start run ≤ t)%Z ∧
    s ∈ allowed_run_transitions (run_status run) ∧
    (s = LEASED → ∃ x y, lease_arguments t w e = Ok (x, y) ∧ lw = Some x ∧ le = Some y) ∧
    validate_run (transition_data run s t lw le) = Ok run'.
Proof.
  intros H. destruct (transition_guards _ _ _ _ _ _ H) as (Hs & t & Ht & Hle).
  unfold transition_run in H. run_inv H.
  apply operation_timestamp_Ok in Hrun0. rewrite Ht in Hrun0. injection Hrun0 as <-.
  destruct s; try (exists t, None, None; split_and!; try done;
    unfold transition_data; eval_status; simpl in *;
    by rewrite ?orb_false_r, ?orb_true_r).
  run_inv H. exists t, (Some l), (Some z). split_and!; try done; [by eauto|].
  unfold transition_data; eval_status; simpl. by rewrite orb_false_r.
Qed.

(** A transition of a well-formed run out of a non-terminal state. *)
Lemma allowed_source_open s s' :
  s' ∈ allowed_run_transitions s → is_terminal_run_status s = false.
Proof. destruct s; simpl; try done; by intros ?%elem_of_nil. Qed.

Lemma lifecycle_start_created r : run_wf r → (run_created_at r ≤ lifecycle_start r)%Z.
Proof.
  intros Hwf. unfold lifecycle_start.
  destruct (run_started_at r) as [s|] eqn:Hs; simpl; [by apply (wf_started _ Hwf)|lia].
Qed.

Lemma transition_data_wf run s t lw le :
  run_wf run → s ∈ allowed_run_transitions (run_status run) →
  (lifecycle_start run ≤ t)%Z →
  (s = LEASED → ∃ w e, lw = Some w ∧ le = Some e ∧ identifier_string w = Ok w) →
  run_wf (transition_data run s t lw le).
Proof.
  intros Hwf Hs Ht Hlease.
  pose proof (lifecycle_start_created _ Hwf) as Hc.
  pose proof (allowed_source_open _ _ Hs) as Hopen.
  destruct Hwf. rewrite Hopen in wf_terminal_state0.
  assert (run_completed_at run = None) as Hnc by (by destruct (run_completed_at run)).
  assert (is_started_run_status s = true → s ≠ RUNNING → run_started_at run ≠ None) as Hst.
  { intros Hs' Hr. apply wf_started_state0. destruct (run_status run), s;
      try done; simpl in Hs; set_unfold in Hs; naive_solver. }
  assert (s = RUNNING → run_status run = LEASED) as Hrun.
  { intros ->. destruct (run_status run); set_unfold in Hs; naive_solver. }
  constructor; simpl; eauto; try lia.
  - destruct s; try done.
    intros w Hw. destruct (Hlease eq_refl) as (w' & e' & -> & _ & Hid). by simplify_eq.
  - repeat case_match; lia.
  - destruct s; eauto. intros x [= <-]. unfold lifecycle_start in *.
    destruct (run_started_at run); simpl in *; lia.
  - destruct s; simpl; rewrite ?Hnc; try done; intros c [= <-]; done.
  - destruct s; simpl; try done; intros Hx; by apply Hst.
  - destruct s; simpl; try done; intros _.
    + destruct (Hlease eq_refl) as (w' & e' & -> & -> & _). done.
    + apply wf_assigned_state0. by rewrite Hrun.
  - destruct s; simpl; try done.
  - destruct s; simpl; by rewrite ?Hnc.
Qed.

(** ** Theorems of the lifecycle *)

(** The lease arguments a transition to LEASED needs: a worker whose stripped
    name is an identifier and an expiry after the transition. *)
Definition lease_request_ok (t : timestamp) (w : option pystr) (e : option datetime) : Prop :=
  ∃ v d x, w = Some v ∧ e = Some d ∧ normalize_timestamp d = Ok x ∧ (t < x)%Z ∧
    1 ≤ length (py_strip v) ≤ 255.

Lemma lease_request_arguments t w e :
  lease_request_ok t w e →
  ∃ x y, lease_arguments t w e = Ok (x, y) ∧ identifier_string x = Ok x.
Proof.
  intros (v & d & y & -> & -> & Hd & Hlt & Hl). exists (py_strip v), y. split.
  - apply lease_arguments_Ok. split_and!; eauto. intros Hn. rewrite Hn in Hl. simpl in Hl. lia.
  - by apply py_strip_identifier.
Qed.

Lemma transition_run_of_data run s at_ t w e lw le :
  run_wf run → normalize_timestamp at_ = Ok t → (lifecycle_start run ≤ t)%Z →
  s ∈ allowed_run_transitions (run_status run) →
  (s = LEASED → ∃ x y, lease_arguments t w e = Ok (x, y) ∧ lw = Some x ∧ le = Some y ∧
     identifier_string x = Ok x) →
  transition_run run s at_ w e = Ok (transition_data run s t lw le).
Proof.
  intros Hwf Ht Hle Hs Hl.
  assert (run_wf (transition_data run s t lw le)) as Hwf'.
  { apply transition_data_wf; eauto. intros ->.
    destruct (Hl eq_refl) as (x & y & _ & -> & -> & ?). eauto. }
  unfold transition_run.
  rewrite (bool_decide_true (s ∈ allowed_run_transitions _)) by done. simpl.
  rewrite (proj2 (operation_timestamp_Ok _ _ _) Ht). simpl.
  rewrite (proj2 (Z.leb_le _ _) Hle). simpl.
  pose proof (wf_validate _ Hwf') as Hv. unfold transition_data in *.
  destruct s; revert Hv; eval_status; simpl; rewrite ?orb_false_r, ?orb_true_r;
    intros Hv; try done.
  destruct (Hl eq_refl) as (x & y & Ha & -> & -> & _). by rewrite Ha.
Qed.

(** [transition_run] of a well-formed run succeeds exactly when the policy
    table permits the move, the operation time is timezone-aware and not before
    the current lifecycle, and, for a lease, the worker and expiry arguments are
    usable; re-validation of the result never rejects what the guards let
    through. *)
Theorem transition_run_succeeds_iff run s at_ w e :
  run_wf run →
  is_ok (transition_run run s at_ w e) = true ↔
  s ∈ allowed_run_transitions (run_status run) ∧
  ∃ t, normalize_timestamp at_ = Ok t ∧ (lifecycle_start run ≤ t)%Z ∧
    (s = LEASED → lease_request_ok t w e).
Proof.
  intros Hwf. split.
  - destruct (transition_run run s at_ w e) as [run'|] eqn:H; [intros _|done].
    apply transition_run_data in H as (t & lw & le & Ht & Hle & Hs & Hl & Hv).
    split; [done|]. exists t. split_and!; try done. intros ->.
    destruct (Hl eq_refl) as (x & y & Ha & -> & ->).
    apply validate_run_Ok in Hv as [-> Hwf']. simpl in Hwf'.
    pose proof (wf_worker _ Hwf' _ eq_refl) as [_ Hlen]%identifier_string_Ok.
    apply lease_arguments_Ok in Ha as (_ & (v & -> & ->) & (d & -> & Hd) & Hlt).
    exists v, d, y. split_and!; try done.
    all: unfold py_strip in *; rewrite strip_weaken in Hlen by
      (intros c Hc; unfold py_isspace; by rewrite Hc); lia.
  - intros (Hs & t & Ht & Hle & Hl).
    destruct (decide (s = LEASED)) as [->|Hn].
    + destruct (lease_request_arguments _ _ _ (Hl eq_refl)) as (x & y & Ha & Hid).
      rewrite (transition_run_of_data run LEASED at_ t w e (Some x) (Some y)); eauto 10.
    + rewrite (transition_run_of_data run s at_ t w e None None); try done.
Qed.

(** The effect of a successful transition, field by field. *)
Record transition_effect (run run' : Run) (s : RunStatus) (t : timestamp) : Prop := {
  te_wf : run_wf run';
  te_status : run_status run' = s;
  te_identity : run_id run' = run_id run ∧ run_session_id run' = run_session_id run ∧
    run_workspace_id run' = run_workspace_id run ∧ run_created_at run' = run_created_at run ∧
    run_priority run' = run_priority run ∧ run_priority_class run' = run_priority_class run;
  te_epoch : run_execution_epoch run' = run_execution_epoch run;
  te_checkpoint : run_last_checkpoint_id run' = run_last_checkpoint_id run;
  te_attempt : run_attempt run' =
    (run_attempt run + (if bool_decide (s = QUEUED ∧ run_status run ∈ [RETRY_PENDING; LOST])
                        then 1 else 0))%Z;
  te_cancelled : run_cancellation_requested run' =
    run_cancellation_requested run || bool_decide (s = CANCELLED);
  te_lease : is_some (run_assigned_worker_id run') = is_assigned_run_status s ∧
    is_some (run_lease_expires_at run') = is_assigned_run_status s;
  te_completed : run_completed_at run' = if is_terminal_run_status s then Some t else None;
}.

Lemma transition_run_effect_holds run s at_ w e run' :
  run_wf run → transition_run run s at_ w e = Ok run' →
  ∃ t, normalize_timestamp at_ = Ok t ∧ transition_effect run run' s t.
Proof.
  intros Hwf H.
  apply transition_run_data in H as (t & lw & le & Ht & Hle & Hs & Hl & Hv).
  exists t. split; [done|]. apply validate_run_Ok in Hv as [-> Hwf'].
  assert (run_completed_at run = None) as Hnc.
  { pose proof (wf_terminal_state _ Hwf) as Hx. rewrite (allowed_source_open _ _ Hs) in Hx.
    by destruct (run_completed_at run). }
  assert (s = RUNNING → run_status run = LEASED) as Hrun.
  { intros ->. destruct (run_status run); set_unfold in Hs; naive_solver. }
  constructor; try done.
  - unfold strip_worker, transition_data; simpl.
    destruct (decide (s = QUEUED)) as [->|Hn]; eval_status.
    + destruct (bool_decide (run_status run ∈ _)) eqn:Hb; bool_hyps;
        [rewrite bool_decide_true by done|rewrite bool_decide_false by tauto]; lia.
    + rewrite (bool_decide_false (s = QUEUED)) by done.
      rewrite (bool_decide_false (s = QUEUED ∧ _)) by tauto. simpl. lia.
  - simpl. destruct s; try done.
    + destruct (Hl eq_refl) as (x & y & _ & -> & ->). done.
    + destruct (wf_assigned_state _ Hwf) as [Hw Hd]; [by rewrite Hrun|].
      by destruct (run_assigned_worker_id run), (run_lease_expires_at run).
  - simpl. by rewrite Hnc.
Qed.

Lemma rewind_run_eq run checkpoint_id :
  run_wf run →
  rewind_run run checkpoint_id =
    if is_rewindable_run_status (run_status run)
    then Ok (update_run run QUEUED (run_attempt run + 1) (run_execution_epoch run + 1)
               None None (Some checkpoint_id) false (run_started_at run) None)
    else Err (DomainOperationError "run_rewind_state_conflict" false).
Proof.
  intros Hwf. unfold rewind_run.
  destruct (is_rewindable_run_status (run_status run)); [simpl|done].
  apply wf_validate. destruct Hwf. constructor; simpl; eauto; try done; lia.
Qed.

(** A successful transition of a well-formed run yields a well-formed run
    in the requested state that keeps identity, priority, epoch and checkpoint,
    counts an attempt exactly when it requeues a retrying or lost run, records a
    cancellation, holds a lease exactly in the leased and running states, and
    stamps the completion time exactly in terminal states. *)
Theorem transition_run_effect run s at_ w e run' :
  run_wf run → transition_run run s at_ w e = Ok run' →
  ∃ t, normalize_timestamp at_ = Ok t ∧ transition_effect run run' s t.
Proof. apply transition_run_effect_holds. Qed.

(** Rewinding a well-formed run succeeds exactly from the suspended and
    terminal states, and yields a well-formed queued run at the chosen
    checkpoint, one attempt and one execution epoch later, without lease,
    cancellation flag or completion time. *)
Theorem rewind_run_spec run checkpoint_id :
  run_wf run →
  rewind_run run checkpoint_id =
    if is_rewindable_run_status (run_status run)
    then Ok (update_run run QUEUED (run_attempt run + 1) (run_execution_epoch run + 1)
               None None (Some checkpoint_id) false (run_started_at run) None)
    else Err (DomainOperationError "run_rewind_state_conflict" false).
Proof. apply rewind_run_eq. Qed.

(** One lifecycle step: a policy transition or a rewind. *)
Inductive lifecycle_step : Run → Run → Prop :=
| step_transition r s at_ w e r' :
    transition_run r s at_ w e = Ok r' → lifecycle_step r r'
| step_rewind r c r' : rewind_run r c = Ok r' → lifecycle_step r r'.

(** The order a run's history respects. *)
Definition run_progress (r r' : Run) : Prop :=
  run_id r' = run_id r ∧ run_session_id r' = run_session_id r ∧
  run_workspace_id r' = run_workspace_id r ∧ run_created_at r' = run_created_at r ∧
  (run_attempt r ≤ run_attempt r')%Z ∧ (run_execution_epoch r ≤ run_execution_epoch r')%Z.

Lemma run_progress_refl r : run_progress r r.
Proof. unfold run_progress. split_and!; done || lia. Qed.

Lemma run_progress_trans a b c : run_progress a b → run_progress b c → run_progress a c.
Proof. unfold run_progress. intros. destruct_and!. split_and!; congruence || lia. Qed.

Lemma lifecycle_step_progress r r' :
  run_wf r → lifecycle_step r r' → run_wf r' ∧ run_progress r r'.
Proof.
  intros Hwf Hstep. destruct Hstep as [r s at_ w e r' H|r c r' H].
  - destruct (transition_run_effect_holds _ _ _ _ _ _ Hwf H) as (t & _ & [? ? Hid ? ? Hat _ _ _]).
    split; [done|]. unfold run_progress. destruct_and! Hid.
    split_and!; try done; [|lia]. rewrite Hat. case_bool_decide; lia.
  - rewrite rewind_run_eq in H by done.
    destruct (is_rewindable_run_status _) eqn:Hr; [|done]. injection H as <-.
    split; [|unfold run_progress; simpl; split_and!; done || lia].
    pose proof (rewind_run_eq _ c Hwf) as Hx. rewrite Hr in Hx.
    unfold rewind_run in Hx. rewrite Hr in Hx. simpl in Hx. by eapply validate_run_wf.
Qed.

(** Along every history of transitions and rewinds a run stays well formed,
    keeps its identity and creation time, and its attempt and execution-epoch
    counters never decrease. *)
Theorem run_history_progress r r' :
  run_wf r → star lifecycle_step r r' → run_wf r' ∧ run_progress r r'.
Proof.
  intros Hwf Hstar. split.
  - eapply (star_invariant _ run_wf); eauto.
    intros ? ? ? ?. by eapply lifecycle_step_progress.
  - eapply (star_relates _ run_wf run_progress); eauto using run_progress_refl,
      run_progress_trans, lifecycle_step_progress.
Qed.

(** A completed, failed or cancelled run admits no transition at all: every
    request is refused with [invalid_run_transition], so only a rewind can leave
    a terminal state. *)
Theorem terminal_run_absorbing run s at_ w e :
  is_terminal_run_status (run_status run) = true →
  transition_run run s at_ w e = Err invalid_run_transition.
Proof.
  intros Hterm. unfold transition_run.
  rewrite (bool_decide_false (s ∈ allowed_run_transitions _)); [done|].
  intros Hs%allowed_source_open. congruence.
Qed.
