(* ===== verification/Tables.v ===== *)
(** * Durable tables of the control plane

    The rows of [platform_persistence/models.py] the queue, lease and run
    repositories read and write, their CHECK, UNIQUE and FOREIGN KEY constraints,
    and the commit that enforces them.

    A transaction is a function from the database to a result: an exception (or
    a violated constraint at commit) leaves the database as it was.  Row locks
    make the modelled transactions serial; [FOR UPDATE SKIP LOCKED] queries take
    the set of rows other transactions hold locked as an argument. *)

From stdpp Require Import base list gmap strings.
From Stdlib Require Import ZArith Lia.
From S2P Require Import Prelude PyBase Domain.

(** ** Rows *)

Inductive ApprovalMode := REQUIRE_ALL | REQUIRE_SENSITIVE | AUTO_APPROVE.

Record SessionRecord := mkSessionRecord {
  sess_id : uuid;
  sess_tenant_id : uuid;
  sess_workspace_id : uuid;
  sess_approval_mode : ApprovalMode;
  sess_model_route : pystr;
  sess_memory_enabled : bool;
  sess_context_generation : Z;
}.

Record RunRecord := mkRunRecord {
  rr_id : uuid;
  rr_tenant_id : uuid;
  rr_session_id : uuid;
  rr_workspace_id : uuid;
  rr_status : RunStatus;
  rr_priority_class : RunPriorityClass;
  rr_priority : Z;
  rr_attempt : Z;
  rr_execution_epoch : Z;
  rr_lease_generation : Z;
  rr_assigned_worker_id : option pystr;
  rr_lease_expires_at : option timestamp;
  rr_retry_ready_at : option timestamp;
  rr_last_checkpoint_id : option uuid;
  rr_cancellation_requested : bool;
  rr_traceparent : option pystr;
  rr_tracestate : option pystr;
  rr_idempotency_key : pystr;
  rr_creation_hash : pystr;
  rr_created_at : timestamp;
  rr_started_at : option timestamp;
  rr_completed_at : option timestamp;
}.

Inductive WorkerStatus := ACTIVE | DRAINING | OFFLINE.

#[export] Instance WorkerStatus_eq_dec : EqDecision WorkerStatus.
Proof. solve_decision. Defined.

Record WorkerRecord := mkWorkerRecord {
  wk_worker_id : pystr;
  wk_supported_sandbox_types : list pystr;
  wk_total_slots : Z;
  wk_available_slots : Z;
  wk_status : WorkerStatus;
  wk_registered_at : timestamp;
  wk_last_heartbeat_at : timestamp;
}.

Record RunLeaseRecord := mkRunLeaseRecord {
  rl_run_id : uuid;
  rl_tenant_id : uuid;
  rl_worker_id : pystr;
  rl_lease_token : uuid;
  rl_generation : Z;
  rl_acquired_at : timestamp;
  rl_last_heartbeat_at : timestamp;
  rl_expires_at : timestamp;
}.

Record WorkspaceLeaseRecord := mkWorkspaceLeaseRecord {
  wl_tenant_id : uuid;
  wl_workspace_id : uuid;
  wl_run_id : option uuid;
  wl_worker_id : option pystr;
  wl_run_lease_token : option uuid;
  wl_lease_token : option uuid;
  wl_generation : Z;
  wl_acquired_at : option timestamp;
  wl_expires_at : option timestamp;
}.

Record TenantQuotaRecord := mkTenantQuotaRecord {
  tq_max_active_runs : Z;
  tq_max_queued_runs : Z;
  tq_max_gateway_requests : Z;
  tq_memory_enabled : bool;
  tq_created_at : timestamp;
  tq_updated_at : timestamp;
}.

Record CheckpointRecord := mkCheckpointRecord {
  cp_id : uuid;
  cp_tenant_id : uuid;
  cp_run_id : uuid;
  cp_session_id : uuid;
  cp_execution_epoch : Z;
  cp_tool_call_id : pystr;
  cp_message_sequence : Z;
  cp_messages : list json;
  cp_workspace_snapshot_uri : pystr;
  cp_workspace_revision : pystr;
  cp_completed_snapshot_uri : option pystr;
  cp_completed_revision : option pystr;
  cp_task_plan : json;
  cp_context_summary : option pystr;
  cp_created_at : timestamp;
}.

Inductive MessageRole := SYSTEM | USER | ASSISTANT | TOOL.

#[export] Instance MessageRole_eq_dec : EqDecision MessageRole.
Proof. solve_decision. Defined.

Record MessageRecord := mkMessageRecord {
  msg_id : uuid;
  msg_tenant_id : uuid;
  msg_session_id : uuid;
  msg_run_id : uuid;
  msg_execution_epoch : Z;
  msg_sequence : Z;
  msg_role : MessageRole;
  msg_content : pystr;
  msg_metadata : json;
  msg_created_at : timestamp;
}.

Inductive CompactionStatus := COMPACTION_PENDING | COMPACTION_COMPLETED | COMPACTION_FAILED.

#[export] Instance CompactionStatus_eq_dec : EqDecision CompactionStatus.
Proof. solve_decision. Defined.

Record ContextCompactionRecord := mkContextCompaction {
  cc_id : uuid;
  cc_tenant_id : uuid;
  cc_session_id : uuid;
  cc_context_generation : Z;
  cc_status : CompactionStatus;
  cc_idempotency_key : pystr;
  cc_source_message_sequence : Z;
  cc_route_name : pystr;
  cc_summary : option pystr;
  cc_input_tokens : option Z;
  cc_output_tokens : option Z;
  cc_error : option json;
  cc_requested_at : timestamp;
  cc_completed_at : option timestamp;
}.

Record TaskPlanRecord := mkTaskPlanRecord {
  tp_tenant_id : uuid;
  tp_run_id : uuid;
  tp_execution_epoch : Z;
  tp_version : Z;
  tp_plan : json;
  tp_created_at : timestamp;
}.

(** A memory-extraction job, keyed by (tenant, run, epoch); its deterministic
    identifier is a function of the key and is not stored. *)
Inductive MemoryJobStatus := JOB_PENDING | JOB_RUNNING | JOB_COMPLETED | JOB_FAILED.

#[export] Instance MemoryJobStatus_eq_dec : EqDecision MemoryJobStatus.
Proof. solve_decision. Defined.

Record MemoryExtractionJobRecord := mkMemoryJob {
  mj_session_id : uuid;
  mj_status : MemoryJobStatus;
  mj_source_message_sequence : Z;
  mj_attempt : Z;
  mj_worker_id : option pystr;
  mj_lease_token : option uuid;
  mj_lease_generation : Z;
  mj_lease_expires_at : option timestamp;
  mj_error : option json;
  mj_created_at : timestamp;
  mj_started_at : option timestamp;
  mj_completed_at : option timestamp;
}.

Inductive MemoryKind := FACT | PREFERENCE | DECISION | CONSTRAINT.

#[export] Instance MemoryKind_eq_dec : EqDecision MemoryKind.
Proof. solve_decision. Defined.

Record MemoryRecord := mkMemoryRecord {
  mem_id : uuid;
  mem_tenant_id : uuid;
  mem_session_id : uuid;
  mem_source_run_id : uuid;
  mem_execution_epoch : Z;
  mem_kind : MemoryKind;
  mem_content : pystr;
  mem_content_hash : pystr;
  mem_metadata : json;
  mem_extracted_at : timestamp;
  mem_archived_at : option timestamp;
}.

Inductive ToolCallStatus :=
| TOOL_RECEIVED | TOOL_WAITING_APPROVAL | TOOL_RUNNING
| TOOL_COMPLETED | TOOL_FAILED | TOOL_CANCELLED.

#[export] Instance ToolCallStatus_eq_dec : EqDecision ToolCallStatus.
Proof. solve_decision. Defined.

(** Keyed by (tenant, run, epoch, tool-call identifier); the random surrogate
    key is not stored. *)
Record ToolCallRecord := mkToolCallRecord {
  tc_turn_number : Z;
  tc_tool_name : pystr;
  tc_arguments : json;
  tc_argument_hash : pystr;
  tc_status : ToolCallStatus;
  tc_workspace_version : option pystr;
  tc_result : option json;
  tc_error : option json;
  tc_started_at : option timestamp;
  tc_completed_at : option timestamp;
}.

Definition is_terminal_tool_status (s : ToolCallStatus) : bool :=
  bool_decide (s ∈ [TOOL_COMPLETED; TOOL_FAILED; TOOL_CANCELLED]).

Inductive ApprovalStatus := PENDING | APPROVED | REJECTED.

#[export] Instance ApprovalStatus_eq_dec : EqDecision ApprovalStatus.
Proof. solve_decision. Defined.

Record ApprovalRecord := mkApprovalRecord {
  ap_id : uuid;
  ap_tenant_id : uuid;
  ap_run_id : uuid;
  ap_execution_epoch : Z;
  ap_tool_call_id : option pystr;
  ap_status : ApprovalStatus;
  ap_reason : pystr;
  ap_arguments : json;
  ap_decided_by : option pystr;
  ap_requested_at : timestamp;
  ap_decided_at : option timestamp;
  ap_response : option pystr;
}.

(** The singleton admission row; the retry hint in microseconds. *)
Record QueueAdmissionRecord := mkQueueAdmissionRecord {
  qa_global_queue_limit : Z;
  qa_retry_after : timedelta;
  qa_created_at : timestamp;
  qa_updated_at : timestamp;
}.

Record Db := mkDb {
  sessions : gmap uuid SessionRecord;
  runs : gmap uuid RunRecord;
  workers : gmap pystr WorkerRecord;
  run_leases : gmap uuid RunLeaseRecord;
  workspace_leases : gmap (uuid * uuid) WorkspaceLeaseRecord;
  tenant_quotas : gmap uuid TenantQuotaRecord;
  checkpoints : gmap uuid CheckpointRecord;
  messages : gmap uuid MessageRecord;
  memory_jobs : gmap (uuid * uuid * Z) MemoryExtractionJobRecord;
  compactions : gmap uuid ContextCompactionRecord;
  task_plans : gmap uuid TaskPlanRecord;
  tool_calls : gmap (uuid * uuid * Z * pystr) ToolCallRecord;
  approvals : gmap uuid ApprovalRecord;
  memories : gmap uuid MemoryRecord;
  queue_admission : option QueueAdmissionRecord;
}.

(** ** Table updates *)

Definition set_sessions (d : Db) t : Db :=
  mkDb t (runs d) (workers d) (run_leases d) (workspace_leases d) (tenant_quotas d)
    (checkpoints d) (messages d) (memory_jobs d) (compactions d) (task_plans d)
    (tool_calls d) (approvals d) (memories d) (queue_admission d).
Definition set_runs (d : Db) t : Db :=
  mkDb (sessions d) t (workers d) (run_leases d) (workspace_leases d) (tenant_quotas d)
    (checkpoints d) (messages d) (memory_jobs d) (compactions d) (task_plans d)
    (tool_calls d) (approvals d) (memories d) (queue_admission d).
Definition set_workers (d : Db) t : Db :=
  mkDb (sessions d) (runs d) t (run_leases d) (workspace_leases d) (tenant_quotas d)
    (checkpoints d) (messages d) (memory_jobs d) (compactions d) (task_plans d)
    (tool_calls d) (approvals d) (memories d) (queue_admission d).
Definition set_run_leases (d : Db) t : Db :=
  mkDb (sessions d) (runs d) (workers d) t (workspace_leases d) (tenant_quotas d)
    (checkpoints d) (messages d) (memory_jobs d) (compactions d) (task_plans d)
    (tool_calls d) (approvals d) (memories d) (queue_admission d).
Definition set_workspace_leases (d : Db) t : Db :=
  mkDb (sessions d) (runs d) (workers d) (run_leases d) t (tenant_quotas d)
    (checkpoints d) (messages d) (memory_jobs d) (compactions d) (task_plans d)
    (tool_calls d) (approvals d) (memories d) (queue_admission d).
Definition set_tenant_quotas (d : Db) t : Db :=
  mkDb (sessions d) (runs d) (workers d) (run_leases d) (workspace_leases d) t
    (checkpoints d) (messages d) (memory_jobs d) (compactions d) (task_plans d)
    (tool_calls d) (approvals d) (memories d) (queue_admission d).
Definition set_messages (d : Db) t : Db :=
  mkDb (sessions d) (runs d) (workers d) (run_leases d) (workspace_leases d) (tenant_quotas d)
    (checkpoints d) t (memory_jobs d) (compactions d) (task_plans d)
    (tool_calls d) (approvals d) (memories d) (queue_admission d).
Definition set_memory_jobs (d : Db) t : Db :=
  mkDb (sessions d) (runs d) (workers d) (run_leases d) (workspace_leases d) (tenant_quotas d)
    (checkpoints d) (messages d) t (compactions d) (task_plans d)
    (tool_calls d) (approvals d) (memories d) (queue_admission d).
Definition set_compactions (d : Db) t : Db :=
  mkDb (sessions d) (runs d) (workers d) (run_leases d) (workspace_leases d) (tenant_quotas d)
    (checkpoints d) (messages d) (memory_jobs d) t (task_plans d)
    (tool_calls d) (approvals d) (memories d) (queue_admission d).
Definition set_task_plans (d : Db) t : Db :=
  mkDb (sessions d) (runs d) (workers d) (run_leases d) (workspace_leases d) (tenant_quotas d)
    (checkpoints d) (messages d) (memory_jobs d) (compactions d) t
    (tool_calls d) (approvals d) (memories d) (queue_admission d).
Definition set_checkpoints (d : Db) t : Db :=
  mkDb (sessions d) (runs d) (workers d) (run_leases d) (workspace_leases d) (tenant_quotas d)
    t (messages d) (memory_jobs d) (compactions d) (task_plans d) (tool_calls d)
    (approvals d) (memories d) (queue_admission d).
Definition set_tool_calls (d : Db) t : Db :=
  mkDb (sessions d) (runs d) (workers d) (run_leases d) (workspace_leases d) (tenant_quotas d)
    (checkpoints d) (messages d) (memory_jobs d) (compactions d) (task_plans d) t
    (approvals d) (memories d) (queue_admission d).
Definition set_approvals (d : Db) t : Db :=
  mkDb (sessions d) (runs d) (workers d) (run_leases d) (workspace_leases d) (tenant_quotas d)
    (checkpoints d) (messages d) (memory_jobs d) (compactions d) (task_plans d)
    (tool_calls d) t (memories d) (queue_admission d).
Definition set_memories (d : Db) t : Db :=
  mkDb (sessions d) (runs d) (workers d) (run_leases d) (workspace_leases d) (tenant_quotas d)
    (checkpoints d) (messages d) (memory_jobs d) (compactions d) (task_plans d)
    (tool_calls d) (approvals d) t (queue_admission d).
Definition set_queue_admission (d : Db) t : Db :=
  mkDb (sessions d) (runs d) (workers d) (run_leases d) (workspace_leases d) (tenant_quotas d)
    (checkpoints d) (messages d) (memory_jobs d) (compactions d) (task_plans d)
    (tool_calls d) (approvals d) (memories d) t.

Definition put_run (d : Db) (r : RunRecord) : Db := set_runs d (<[rr_id r := r]> (runs d)).
Definition put_worker (d : Db) (w : WorkerRecord) : Db :=
  set_workers d (<[wk_worker_id w := w]> (workers d)).
Definition put_run_lease (d : Db) (l : RunLeaseRecord) : Db :=
  set_run_leases d (<[rl_run_id l := l]> (run_leases d)).
Definition put_workspace_lease (d : Db) (w : WorkspaceLeaseRecord) : Db :=
  set_workspace_leases d (<[(wl_tenant_id w, wl_workspace_id w) := w]> (workspace_leases d)).
Definition delete_run_lease (d : Db) (l : RunLeaseRecord) : Db :=
  set_run_leases d (delete (rl_run_id l) (run_leases d)).

(** ** Constraints *)

(** The check on [next_event_sequence] is of the column kept in [EventStore]. *)
Definition run_record_checks (r : RunRecord) : bool :=
  (1 <=? rr_attempt r)%Z
  && (1 <=? rr_execution_epoch r)%Z
  && (rr_execution_epoch r <=? rr_attempt r)%Z
  && (-100 <=? rr_priority r)%Z && (rr_priority r <=? 100)%Z
  && (0 <=? rr_lease_generation r)%Z
  && sha256_hex_ok (rr_creation_hash r)
  && (match rr_traceparent r with
      | None => true
      | Some t =>
          match traceparent_parts t with
          | Some (trace, parent) => hex_nonzero trace && hex_nonzero parent
          | None => false
          end
      end)
  && (match rr_tracestate r with
      | None => true
      | Some t => is_some (rr_traceparent r) && (1 <=? utf8_len t)%N && (utf8_len t <=? 512)%N
      end)
  && (match rr_started_at r with None => true | Some s => (rr_created_at r <=? s)%Z end)
  && (match rr_completed_at r with
      | None => true
      | Some c => (default (rr_created_at r) (rr_started_at r) <=? c)%Z
      end)
  && (negb (is_started_run_status (rr_status r)) || is_some (rr_started_at r))
  && eqb (is_terminal_run_status (rr_status r)) (is_some (rr_completed_at r))
  && (negb (is_assigned_run_status (rr_status r))
      || (is_some (rr_assigned_worker_id r) && is_some (rr_lease_expires_at r)))
  && (negb (is_unassigned_run_status (rr_status r))
      || (is_none (rr_assigned_worker_id r) && is_none (rr_lease_expires_at r)))
  && eqb (bool_decide (rr_status r = RETRY_PENDING)) (is_some (rr_retry_ready_at r)).

Definition worker_record_checks (w : WorkerRecord) : bool :=
  (1 <=? wk_total_slots w)%Z && (wk_total_slots w <=? 1024)%Z
  && (0 <=? wk_available_slots w)%Z && (wk_available_slots w <=? wk_total_slots w)%Z
  && (wk_registered_at w <=? wk_last_heartbeat_at w)%Z.

Definition run_lease_record_checks (l : RunLeaseRecord) : bool :=
  (1 <=? rl_generation l)%Z
  && (rl_acquired_at l <=? rl_last_heartbeat_at l)%Z
  && (rl_last_heartbeat_at l <? rl_expires_at l)%Z.

(** The ownership columns are all null or all set, with expiry after
    acquisition. *)
Definition workspace_lease_record_checks (w : WorkspaceLeaseRecord) : bool :=
  (0 <=? wl_generation w)%Z
  && (match wl_run_id w, wl_worker_id w, wl_run_lease_token w, wl_lease_token w,
            wl_acquired_at w, wl_expires_at w with
      | None, None, None, None, None, None => true
      | Some _, Some _, Some _, Some _, Some a, Some e => (a <? e)%Z
      | _, _, _, _, _, _ => false
      end).

Definition tenant_quota_record_checks (q : TenantQuotaRecord) : bool :=
  (1 <=? tq_max_active_runs q)%Z && (tq_max_active_runs q <=? 10000)%Z
  && (1 <=? tq_max_queued_runs q)%Z && (tq_max_queued_runs q <=? 100000)%Z
  && (1 <=? tq_max_gateway_requests q)%Z && (tq_max_gateway_requests q <=? 10000)%Z
  && (tq_created_at q <=? tq_updated_at q)%Z.

(** FOREIGN KEY (tenant_id, run_id) of a child row. *)
Definition run_exists (d : Db) (tenant run : uuid) : bool :=
  match runs d !! run with
  | Some r => bool_decide (rr_tenant_id r = tenant)
  | None => false
  end.

Definition run_references (d : Db) (r : RunRecord) : bool :=
  (match sessions d !! rr_session_id r with
   | Some s => bool_decide (sess_tenant_id s = rr_tenant_id r)
               && bool_decide (sess_workspace_id s = rr_workspace_id r)
   | None => false
   end)
  && (match rr_last_checkpoint_id r with
      | None => true
      | Some c =>
          match checkpoints d !! c with
          | Some cp => bool_decide (cp_tenant_id cp = rr_tenant_id r)
                       && bool_decide (cp_run_id cp = rr_id r)
          | None => false
          end
      end).

Definition run_lease_references (d : Db) (l : RunLeaseRecord) : bool :=
  run_exists d (rl_tenant_id l) (rl_run_id l) && is_some (workers d !! rl_worker_id l).

Definition workspace_lease_references (d : Db) (w : WorkspaceLeaseRecord) : bool :=
  (match wl_run_id w with
   | None => true
   | Some run =>
       run_exists d (wl_tenant_id w) run
       && (match runs d !! run with
           | Some r => bool_decide (rr_workspace_id r = wl_workspace_id w)
           | None => false
           end)
   end)
  && (match wl_worker_id w with None => true | Some k => is_some (workers d !! k) end).

(** UNIQUE (run_leases.lease_token) *)
Definition lease_tokens_unique (m : gmap uuid RunLeaseRecord) : Prop :=
  map_Forall (λ k1 l1, map_Forall (λ k2 l2,
    rl_lease_token l1 = rl_lease_token l2 → k1 = k2) m) m.

(** UNIQUE (workspace_writer_leases.lease_token), nulls distinct *)
Definition writer_tokens_unique (m : gmap (uuid * uuid) WorkspaceLeaseRecord) : Prop :=
  map_Forall (λ k1 w1, map_Forall (λ k2 w2,
    wl_lease_token w1 ≠ None → wl_lease_token w1 = wl_lease_token w2 → k1 = k2) m) m.

(** UNIQUE (runs.tenant_id, session_id, idempotency_key) *)
Definition run_keys_unique (m : gmap uuid RunRecord) : Prop :=
  map_Forall (λ k1 r1, map_Forall (λ k2 r2,
    rr_tenant_id r1 = rr_tenant_id r2 → rr_session_id r1 = rr_session_id r2 →
    rr_idempotency_key r1 = rr_idempotency_key r2 → k1 = k2) m) m.

(** FOREIGN KEY (tenant_id, run_id, session_id) *)
Definition run_in_session (d : Db) (tenant run session : uuid) : bool :=
  match runs d !! run with
  | Some r => bool_decide (rr_tenant_id r = tenant) && bool_decide (rr_session_id r = session)
  | None => false
  end.

Definition checkpoint_ok (d : Db) (c : CheckpointRecord) : bool :=
  (0 <=? cp_message_sequence c)%Z && (1 <=? cp_execution_epoch c)%Z
  && is_json_object (cp_task_plan c)
  && eqb (is_none (cp_completed_snapshot_uri c)) (is_none (cp_completed_revision c))
  && run_in_session d (cp_tenant_id c) (cp_run_id c) (cp_session_id c).

(** UNIQUE (checkpoints.tenant_id, run_id, execution_epoch, tool_call_id) *)
Definition checkpoint_calls_unique (m : gmap uuid CheckpointRecord) : Prop :=
  map_Forall (λ k1 c1, map_Forall (λ k2 c2,
    (cp_tenant_id c1, cp_run_id c1, cp_execution_epoch c1, cp_tool_call_id c1) =
    (cp_tenant_id c2, cp_run_id c2, cp_execution_epoch c2, cp_tool_call_id c2) → k1 = k2) m) m.

Definition message_ok (d : Db) (m : MessageRecord) : bool :=
  (1 <=? msg_sequence m)%Z && (1 <=? msg_execution_epoch m)%Z
  && is_json_object (msg_metadata m)
  && run_in_session d (msg_tenant_id m) (msg_run_id m) (msg_session_id m).

(** UNIQUE (messages.tenant_id, session_id, sequence) *)
Definition message_sequences_unique (m : gmap uuid MessageRecord) : Prop :=
  map_Forall (λ k1 m1, map_Forall (λ k2 m2,
    msg_tenant_id m1 = msg_tenant_id m2 → msg_session_id m1 = msg_session_id m2 →
    msg_sequence m1 = msg_sequence m2 → k1 = k2) m) m.

(** FOREIGN KEY (tenant_id, session_id) of a child row. *)
Definition session_exists (d : Db) (tenant session : uuid) : bool :=
  match sessions d !! session with
  | Some s => bool_decide (sess_tenant_id s = tenant)
  | None => false
  end.

Definition compaction_checks (c : ContextCompactionRecord) : bool :=
  (0 <=? cc_source_message_sequence c)%Z && (1 <=? cc_context_generation c)%Z
  && (match cc_error c with Some e => is_json_object e | None => true end)
  && (match cc_status c with
      | COMPACTION_PENDING =>
          is_none (cc_summary c) && is_none (cc_input_tokens c) && is_none (cc_output_tokens c)
          && is_none (cc_error c) && is_none (cc_completed_at c)
      | COMPACTION_COMPLETED =>
          (match cc_summary c with
           | Some s => (0 <? utf8_len s)%N && (utf8_len s <=? 262144)%N
           | None => false
           end)
          && (match cc_input_tokens c with Some n => (0 <=? n)%Z | None => false end)
          && (match cc_output_tokens c with Some n => (0 <=? n)%Z | None => false end)
          && is_none (cc_error c)
          && (match cc_completed_at c with Some t => (cc_requested_at c <=? t)%Z | None => false end)
      | COMPACTION_FAILED =>
          is_none (cc_summary c) && is_none (cc_input_tokens c) && is_none (cc_output_tokens c)
          && is_some (cc_error c)
          && (match cc_completed_at c with Some t => (cc_requested_at c <=? t)%Z | None => false end)
      end).

Definition compaction_ok (d : Db) (c : ContextCompactionRecord) : bool :=
  compaction_checks c && session_exists d (cc_tenant_id c) (cc_session_id c).

(** UNIQUE (context_compactions.tenant_id, session_id, idempotency_key) and at
    most one pending row of a session *)
Definition compaction_keys_unique (m : gmap uuid ContextCompactionRecord) : Prop :=
  map_Forall (λ k1 c1, map_Forall (λ k2 c2,
    (cc_tenant_id c1, cc_session_id c1) = (cc_tenant_id c2, cc_session_id c2) →
    cc_idempotency_key c1 = cc_idempotency_key c2 ∨
      (cc_status c1 = COMPACTION_PENDING ∧ cc_status c2 = COMPACTION_PENDING) → k1 = k2) m) m.

Definition task_plan_ok (d : Db) (p : TaskPlanRecord) : bool :=
  (1 <=? tp_version p)%Z && (1 <=? tp_execution_epoch p)%Z && is_json_object (tp_plan p)
  && run_exists d (tp_tenant_id p) (tp_run_id p).

(** UNIQUE (task_plans.tenant_id, run_id, execution_epoch, version) *)
Definition plan_versions_unique (m : gmap uuid TaskPlanRecord) : Prop :=
  map_Forall (λ k1 p1, map_Forall (λ k2 p2,
    (tp_tenant_id p1, tp_run_id p1, tp_execution_epoch p1, tp_version p1) =
    (tp_tenant_id p2, tp_run_id p2, tp_execution_epoch p2, tp_version p2) → k1 = k2) m) m.

Definition memory_job_ok (d : Db) (key : uuid * uuid * Z) (j : MemoryExtractionJobRecord) : bool :=
  let '(tenant, run, epoch) := key in
  (1 <=? mj_attempt j)%Z && (mj_attempt j <=? 100)%Z && (0 <=? mj_lease_generation j)%Z
  && (0 <=? mj_source_message_sequence j)%Z && (1 <=? epoch)%Z
  && (match mj_error j with Some e => is_json_object e | None => true end)
  && run_in_session d tenant run (mj_session_id j)
  && (match mj_status j, mj_started_at j, mj_completed_at j, mj_lease_expires_at j with
      | JOB_PENDING, None, None, None =>
          is_none (mj_error j) && is_none (mj_worker_id j) && is_none (mj_lease_token j)
          && (mj_lease_generation j =? 0)%Z
      | JOB_RUNNING, Some s, None, Some e =>
          (mj_created_at j <=? s)%Z && is_none (mj_error j) && is_some (mj_worker_id j)
          && is_some (mj_lease_token j) && (1 <=? mj_lease_generation j)%Z && (s <? e)%Z
      | JOB_COMPLETED, Some s, Some c, None =>
          (mj_created_at j <=? s)%Z && (s <=? c)%Z && is_none (mj_error j)
          && is_none (mj_worker_id j) && is_none (mj_lease_token j)
      | JOB_FAILED, Some s, Some c, None =>
          (mj_created_at j <=? s)%Z && (s <=? c)%Z && is_some (mj_error j)
          && is_none (mj_worker_id j) && is_none (mj_lease_token j)
      | _, _, _, _ => false
      end).

(** UNIQUE (memory_extraction_jobs.lease_token) WHERE lease_token IS NOT NULL *)
Definition memory_tokens_unique (m : gmap (uuid * uuid * Z) MemoryExtractionJobRecord) : Prop :=
  map_Forall (λ k1 j1, map_Forall (λ k2 j2,
    is_some (mj_lease_token j1) = true → mj_lease_token j1 = mj_lease_token j2 → k1 = k2) m) m.

Definition memory_ok (d : Db) (m : MemoryRecord) : bool :=
  (0 <? utf8_len (mem_content m))%N && (utf8_len (mem_content m) <=? 65536)%N
  && sha256_hex_ok (mem_content_hash m) && (1 <=? mem_execution_epoch m)%Z
  && is_json_object (mem_metadata m)
  && (match mem_archived_at m with Some t => (mem_extracted_at m <=? t)%Z | None => true end)
  && session_exists d (mem_tenant_id m) (mem_session_id m)
  && run_in_session d (mem_tenant_id m) (mem_source_run_id m) (mem_session_id m).

(** The columns of UNIQUE uq_memories_memory_identity *)
Definition memory_identity (m : MemoryRecord) : uuid * uuid * Z * MemoryKind * pystr :=
  (mem_tenant_id m, mem_session_id m, mem_execution_epoch m, mem_kind m, mem_content_hash m).

Definition memories_unique (m : gmap uuid MemoryRecord) : Prop :=
  map_Forall (λ k1 m1, map_Forall (λ k2 m2, memory_identity m1 = memory_identity m2 → k1 = k2) m) m.

Definition tool_call_ok (d : Db) (key : uuid * uuid * Z * pystr) (t : ToolCallRecord) : bool :=
  let '(tenant, run, epoch, _) := key in
  run_exists d tenant run && (1 <=? tc_turn_number t)%Z && (1 <=? epoch)%Z
  && sha256_hex_ok (tc_argument_hash t) && is_json_object (tc_arguments t)
  && (match tc_result t with Some r => is_json_object r | None => true end)
  && (match tc_error t with Some e => is_json_object e | None => true end)
  && (match tc_started_at t, tc_completed_at t with Some s, Some c => (s <=? c)%Z | _, _ => true end)
  && (match tc_status t with
      | TOOL_RECEIVED | TOOL_WAITING_APPROVAL =>
          is_none (tc_completed_at t) && is_none (tc_result t) && is_none (tc_error t)
      | TOOL_RUNNING =>
          is_some (tc_started_at t)
          && is_none (tc_completed_at t) && is_none (tc_result t) && is_none (tc_error t)
      | TOOL_COMPLETED =>
          is_some (tc_started_at t)
          && is_some (tc_completed_at t) && is_some (tc_result t) && is_none (tc_error t)
      | TOOL_FAILED | TOOL_CANCELLED =>
          is_some (tc_completed_at t) && is_none (tc_result t) && is_some (tc_error t)
      end).

Definition approval_ok (d : Db) (a : ApprovalRecord) : bool :=
  (1 <=? ap_execution_epoch a)%Z && is_json_object (ap_arguments a)
  && (match ap_status a, ap_decided_by a, ap_decided_at a with
      | PENDING, None, None => true
      | (APPROVED | REJECTED), Some _, Some t => (ap_requested_at a <=? t)%Z
      | _, _, _ => false
      end)
  && (match ap_response a with
      | None => true
      | Some t => (1 <=? utf8_len t)%N && (utf8_len t <=? 65536)%N
      end)
  && run_exists d (ap_tenant_id a) (ap_run_id a)
  && (match ap_tool_call_id a with
      | None => true
      | Some t => is_some (tool_calls d !! (ap_tenant_id a, ap_run_id a, ap_execution_epoch a, t))
      end).

(** UNIQUE (approvals.tenant_id, run_id, execution_epoch, tool_call_id) *)
Definition approval_calls_unique (m : gmap uuid ApprovalRecord) : Prop :=
  map_Forall (λ k1 a1, map_Forall (λ k2 a2,
    ap_tool_call_id a1 ≠ None →
    (ap_tenant_id a1, ap_run_id a1, ap_execution_epoch a1, ap_tool_call_id a1) =
    (ap_tenant_id a2, ap_run_id a2, ap_execution_epoch a2, ap_tool_call_id a2) → k1 = k2) m) m.

Definition queue_admission_ok (q : QueueAdmissionRecord) : bool :=
  (1 <=? qa_global_queue_limit q)%Z && (qa_global_queue_limit q <=? 1000000)%Z
  && (0 <? qa_retry_after q)%Z && (qa_retry_after q <=? seconds 3600)%Z
  && (qa_created_at q <=? qa_updated_at q)%Z.

(** The tables that hang off a run. *)
Record children_ok (d : Db) : Prop := {
  ok_checkpoints : map_Forall (λ k c, cp_id c = k ∧ checkpoint_ok d c = true) (checkpoints d);
  ok_checkpoint_calls : checkpoint_calls_unique (checkpoints d);
  ok_messages : map_Forall (λ k m, msg_id m = k ∧ message_ok d m = true) (messages d);
  ok_message_sequences : message_sequences_unique (messages d);
  ok_compactions : map_Forall (λ k c, cc_id c = k ∧ compaction_ok d c = true) (compactions d);
  ok_compaction_keys : compaction_keys_unique (compactions d);
  ok_task_plans : map_Forall (λ _ p, task_plan_ok d p = true) (task_plans d);
  ok_plan_versions : plan_versions_unique (task_plans d);
  ok_memory_jobs : map_Forall (λ k j, memory_job_ok d k j = true) (memory_jobs d);
  ok_memory_tokens : memory_tokens_unique (memory_jobs d);
  ok_memories : map_Forall (λ k m, mem_id m = k ∧ memory_ok d m = true) (memories d);
  ok_memory_identities : memories_unique (memories d);
  ok_tool_calls : map_Forall (λ k t, tool_call_ok d k t = true) (tool_calls d);
  ok_approvals : map_Forall (λ k a, ap_id a = k ∧ approval_ok d a = true) (approvals d);
  ok_approval_calls : approval_calls_unique (approvals d);
  ok_admission : ∀ q, queue_admission d = Some q → queue_admission_ok q = true;
}.

Definition children_okb (d : Db) : bool :=
  bool_decide (map_Forall (λ k c, cp_id c = k ∧ checkpoint_ok d c = true) (checkpoints d))
  && bool_decide (checkpoint_calls_unique (checkpoints d))
  && bool_decide (map_Forall (λ k m, msg_id m = k ∧ message_ok d m = true) (messages d))
  && bool_decide (message_sequences_unique (messages d))
  && bool_decide (map_Forall (λ k c, cc_id c = k ∧ compaction_ok d c = true) (compactions d))
  && bool_decide (compaction_keys_unique (compactions d))
  && bool_decide (map_Forall (λ _ p, task_plan_ok d p = true) (task_plans d))
  && bool_decide (plan_versions_unique (task_plans d))
  && bool_decide (map_Forall (λ k j, memory_job_ok d k j = true) (memory_jobs d))
  && bool_decide (memory_tokens_unique (memory_jobs d))
  && bool_decide (map_Forall (λ k m, mem_id m = k ∧ memory_ok d m = true) (memories d))
  && bool_decide (memories_unique (memories d))
  && bool_decide (map_Forall (λ k t, tool_call_ok d k t = true) (tool_calls d))
  && bool_decide (map_Forall (λ k a, ap_id a = k ∧ approval_ok d a = true) (approvals d))
  && bool_decide (approval_calls_unique (approvals d))
  && (match queue_admission d with Some q => queue_admission_ok q | None => true end).

Lemma children_okb_iff d : children_okb d = true ↔ children_ok d.
Proof.
  unfold children_okb. rewrite !andb_true_iff, !bool_decide_eq_true.
  split.
  - intros [Hall Hq]. destruct_and? Hall. constructor; try done.
    intros q E. by rewrite E in Hq.
  - intros []. split_and!; try done.
    destruct (queue_admission d) as [q|]; [by auto|done].
Qed.

(** The children only look at which runs exist and in which session. *)
Lemma children_ok_frame d d' :
  checkpoints d' = checkpoints d → messages d' = messages d → compactions d' = compactions d →
  task_plans d' = task_plans d → memory_jobs d' = memory_jobs d → tool_calls d' = tool_calls d →
  approvals d' = approvals d → memories d' = memories d → queue_admission d' = queue_admission d →
  (∀ t s, session_exists d t s = true → session_exists d' t s = true) →
  (∀ t k s, run_in_session d t k s = true → run_in_session d' t k s = true) →
  (∀ t k, run_exists d t k = true → run_exists d' t k = true) →
  children_ok d → children_ok d'.
Proof.
  intros E1 E2 E3 E4 E5 E6 E7 E9 E8 Hss Hs Hr [C1 C1' C2 C3 C4 C4' C5 C6 C7 Cm1 Cm2 Cm3 C7' C8 C9 C10].
  constructor; rewrite ?E1, ?E2, ?E3, ?E4, ?E5, ?E6, ?E7, ?E8, ?E9; try done.
  - intros k x Hx. destruct (C1 k x Hx) as [? Hc]. split; [done|].
    unfold checkpoint_ok in *. bool_hyps.
    repeat (apply andb_true_intro; split); try (by apply Z.leb_le); [done|done|by apply Hs].
  - intros k x Hx. destruct (C2 k x Hx) as [? Hm]. split; [done|].
    unfold message_ok in *. bool_hyps.
    repeat (apply andb_true_intro; split); try (by apply Z.leb_le); [done|by apply Hs].
  - intros k x Hx. destruct (C4 k x Hx) as [? Hc]. split; [done|]. unfold compaction_ok in *.
    apply andb_true_iff in Hc as [Hc1 Hc2]. apply andb_true_iff. split; [done|by apply Hss].
  - intros k x Hx. specialize (C5 k x Hx). unfold task_plan_ok in *. bool_hyps.
    repeat (apply andb_true_intro; split); try (by apply Z.leb_le); [done|by apply Hr].
  - intros [[t k] e] x Hx. specialize (C7 _ x Hx). unfold memory_job_ok in *.
    rewrite !andb_true_iff in *. destruct_and! C7. split_and!; try done. by apply Hs.
  - intros k x Hx. destruct (Cm2 k x Hx) as [? Hm]. split; [done|]. unfold memory_ok in *.
    rewrite !andb_true_iff in *. destruct_and! Hm. split_and!; try done; [by apply Hss|by apply Hs].
  - intros [[[t k] e] c] x Hx. specialize (C7' _ x Hx). unfold tool_call_ok in *.
    rewrite !andb_true_iff in *. destruct_and! C7'. split_and!; try done. by apply Hr.
  - intros k x Hx. destruct (C8 k x Hx) as [Hk Ha]. split; [done|]. unfold approval_ok in *.
    rewrite E6. rewrite !andb_true_iff in *. destruct_and! Ha. split_and!; try done. by apply Hr.
Qed.

(** Every row is stored under its primary key and passes its constraints. *)
Record db_ok (d : Db) : Prop := {
  ok_runs : map_Forall (λ k r, rr_id r = k ∧ run_record_checks r = true ∧
    run_references d r = true) (runs d);
  ok_sessions : map_Forall (λ k s, sess_id s = k ∧ (1 ≤ sess_context_generation s)%Z) (sessions d);
  ok_workers : map_Forall (λ k w, wk_worker_id w = k ∧ worker_record_checks w = true) (workers d);
  ok_run_leases : map_Forall (λ k l, rl_run_id l = k ∧ run_lease_record_checks l = true ∧
    run_lease_references d l = true) (run_leases d);
  ok_workspace_leases : map_Forall (λ k w, (wl_tenant_id w, wl_workspace_id w) = k ∧
    workspace_lease_record_checks w = true ∧ workspace_lease_references d w = true)
    (workspace_leases d);
  ok_tenant_quotas : map_Forall (λ _ q, tenant_quota_record_checks q = true) (tenant_quotas d);
  ok_lease_tokens : lease_tokens_unique (run_leases d);
  ok_writer_tokens : writer_tokens_unique (workspace_leases d);
  ok_run_keys : run_keys_unique (runs d);
  ok_children : children_ok d;
}.

Definition db_okb (d : Db) : bool :=
  bool_decide (map_Forall (λ k r, rr_id r = k ∧ run_record_checks r = true ∧
    run_references d r = true) (runs d))
  && bool_decide (map_Forall (λ k s, sess_id s = k ∧ (1 ≤ sess_context_generation s)%Z) (sessions d))
  && bool_decide (map_Forall (λ k w, wk_worker_id w = k ∧ worker_record_checks w = true)
       (workers d))
  && bool_decide (map_Forall (λ k l, rl_run_id l = k ∧ run_lease_record_checks l = true ∧
       run_lease_references d l = true) (run_leases d))
  && bool_decide (map_Forall (λ k w, (wl_tenant_id w, wl_workspace_id w) = k ∧
       workspace_lease_record_checks w = true ∧ workspace_lease_references d w = true)
       (workspace_leases d))
  && bool_decide (map_Forall (λ _ q, tenant_quota_record_checks q = true) (tenant_quotas d))
  && bool_decide (lease_tokens_unique (run_leases d))
  && bool_decide (writer_tokens_unique (workspace_leases d))
  && bool_decide (run_keys_unique (runs d))
  && children_okb d.

Lemma db_okb_iff d : db_okb d = true ↔ db_ok d.
Proof.
  unfold db_okb. rewrite !andb_true_iff, !bool_decide_eq_true, children_okb_iff.
  split; [|intros []; tauto].
  intros [[[[[[[[[? ?] ?] ?] ?] ?] ?] ?] ?] ?]. by constructor.
Qed.

#[export] Instance db_ok_dec d : Decision (db_ok d).
Proof.
  destruct (db_okb d) eqn:E; [left; by apply db_okb_iff|right].
  intros Hd%db_okb_iff. congruence.
Defined.

Definition integrity_error : error := IntegrityError "constraint violation".

(** End of a transaction: the constraints are enforced, and a violation rolls
    the transaction back with [IntegrityError]. *)
Definition commit {A} (r : result (A * Db)) : result (A * Db) :=
  match r with
  | Ok (a, d) => if db_okb d then Ok (a, d) else Err integrity_error
  | Err e => Err e
  end.

Lemma commit_Ok {A} (r : result (A * Db)) a d :
  commit r = Ok (a, d) ↔ r = Ok (a, d) ∧ db_ok d.
Proof.
  unfold commit. rewrite <- db_okb_iff. destruct r as [[a' d']|]; [|by split; [|intros [? _]]].
  destruct (db_okb d') eqn:E; split; try done.
  - by intros [= <- <-].
  - by intros [[= <- <-] _].
  - intros [[= <- <-] Hd]. congruence.
Qed.
