(* ===== verification/Contracts.v ===== *)
(** * Distributed-execution contracts

    The validated values that cross the boundary between workers, scheduler and
    store: [agent_core/distributed.py], the quota, admission and queue-depth
    contracts of [agent_core/capacity.py] and [agent_core/scheduling.py]. *)

From stdpp Require Import base list gmap strings.
From Stdlib Require Import ZArith Lia.
From S2P Require Import Prelude PyBase Domain Tables.

(** ** Workers *)

Record WorkerRegistration := mkWorkerRegistration {
  reg_worker_id : pystr;
  reg_supported_sandbox_types : list pystr;
  reg_total_slots : Z;
  reg_available_slots : Z;
  reg_status : WorkerStatus;
  reg_registered_at : timestamp;
  reg_last_heartbeat_at : timestamp;
}.

Definition validate_worker_registration (r : WorkerRegistration) : result WorkerRegistration :=
  worker ← identifier_string (reg_worker_id r);
  types ← traverse identifier_string (reg_supported_sandbox_types r);
  _ ← ensure ((1 <=? length types)%nat && (length types <=? 32)%nat)
        (ValidationError "supported_sandbox_types");
  _ ← ensure ((1 <=? reg_total_slots r)%Z && (reg_total_slots r <=? 1024)%Z)
        (ValidationError "total_slots");
  _ ← ensure ((0 <=? reg_available_slots r)%Z && (reg_available_slots r <=? 1024)%Z)
        (ValidationError "available_slots");
  _ ← ensure (reg_available_slots r <=? reg_total_slots r)%Z
        (ValidationError "available_slots may not exceed total_slots");
  _ ← ensure (bool_decide (NoDup types)) (ValidationError "supported_sandbox_types must be unique");
  _ ← ensure (reg_registered_at r <=? reg_last_heartbeat_at r)%Z
        (ValidationError "last_heartbeat_at may not precede registered_at");
  Ok (mkWorkerRegistration worker types (reg_total_slots r) (reg_available_slots r)
        (reg_status r) (reg_registered_at r) (reg_last_heartbeat_at r)).

(** ** Leases *)

Record RunLease := mkRunLease {
  lease_tenant_id : uuid;
  lease_run_id : uuid;
  lease_session_id : uuid;
  lease_workspace_id : uuid;
  lease_worker_id : pystr;
  lease_route_name : pystr;
  lease_lease_token : uuid;
  lease_generation : Z;
  lease_attempt : Z;
  lease_execution_epoch : Z;
  lease_priority : Z;
  lease_priority_class : RunPriorityClass;
  lease_queued_at : option timestamp;
  lease_acquired_at : timestamp;
  lease_expires_at : timestamp;
  lease_checkpoint_id : option uuid;
  lease_cancellation_requested : bool;
  lease_traceparent : option pystr;
  lease_tracestate : option pystr;
}.

Definition validate_run_lease (l : RunLease) : result RunLease :=
  worker ← identifier_string (lease_worker_id l);
  route ← identifier_string (lease_route_name l);
  _ ← ensure (1 <=? lease_generation l)%Z (ValidationError "generation");
  _ ← ensure (1 <=? lease_attempt l)%Z (ValidationError "attempt");
  _ ← ensure (1 <=? lease_execution_epoch l)%Z (ValidationError "execution_epoch");
  _ ← ensure ((-100 <=? lease_priority l)%Z && (lease_priority l <=? 100)%Z)
        (ValidationError "priority");
  _ ← ensure (match lease_traceparent l with
              | None => true
              | Some t => is_some (traceparent_parts t)
              end) (ValidationError "traceparent");
  _ ← ensure (match lease_tracestate l with None => true | Some t => tracestate_ok t end)
        (ValidationError "tracestate");
  _ ← ensure (lease_acquired_at l <? lease_expires_at l)%Z
        (ValidationError "run lease expiry must follow acquisition");
  _ ← ensure (match lease_queued_at l with
              | None => true
              | Some q => (q <=? lease_acquired_at l)%Z
              end) (ValidationError "run lease queue time may not follow acquisition");
  _ ← ensure (is_none (lease_tracestate l) || is_some (lease_traceparent l))
        (ValidationError "tracestate requires traceparent");
  Ok (mkRunLease (lease_tenant_id l) (lease_run_id l) (lease_session_id l)
        (lease_workspace_id l) worker route (lease_lease_token l) (lease_generation l)
        (lease_attempt l) (lease_execution_epoch l) (lease_priority l)
        (lease_priority_class l) (lease_queued_at l) (lease_acquired_at l)
        (lease_expires_at l) (lease_checkpoint_id l) (lease_cancellation_requested l)
        (lease_traceparent l) (lease_tracestate l)).

Record RunLeaseHeartbeat := mkRunLeaseHeartbeat {
  hb_lease_token : uuid;
  hb_generation : Z;
  hb_expires_at : timestamp;
  hb_cancellation_requested : bool;
}.

Record WorkspaceWriterLease := mkWorkspaceWriterLease {
  writer_tenant_id : uuid;
  writer_workspace_id : uuid;
  writer_run_id : uuid;
  writer_worker_id : pystr;
  writer_run_lease_token : uuid;
  writer_lease_token : uuid;
  writer_generation : Z;
  writer_acquired_at : timestamp;
  writer_expires_at : timestamp;
}.

Definition validate_workspace_writer_lease (l : WorkspaceWriterLease)
    : result WorkspaceWriterLease :=
  worker ← identifier_string (writer_worker_id l);
  _ ← ensure (1 <=? writer_generation l)%Z (ValidationError "generation");
  _ ← ensure (writer_acquired_at l <? writer_expires_at l)%Z
        (ValidationError "workspace lease expiry must follow acquisition");
  Ok (mkWorkspaceWriterLease (writer_tenant_id l) (writer_workspace_id l) (writer_run_id l)
        worker (writer_run_lease_token l) (writer_lease_token l) (writer_generation l)
        (writer_acquired_at l) (writer_expires_at l)).

(** ** Execution results *)

(** The failure a worker reports ([agent_core/domain/errors.py]). *)
Record ErrorDetail := mkErrorDetail {
  detail_code : pystr;
  detail_message : pystr;
  detail_retryable : bool;
  detail_details : json;
}.

#[export] Instance ErrorDetail_eq_dec : EqDecision ErrorDetail.
Proof. solve_decision. Defined.

(** [ErrorCode] is a name of up to 100 characters, [ErrorMessage] is not blank. *)
Definition validate_error_detail (e : ErrorDetail) : result ErrorDetail :=
  code ← name_string (detail_code e);
  let message := strip_by is_white_space (detail_message e) in
  _ ← ensure (1 <=? length message)%nat (ValidationError "message");
  _ ← ensure (is_json_object (detail_details e)) (ValidationError "details");
  Ok (mkErrorDetail code message (detail_retryable e) (detail_details e)).

(** [model_dump(mode="json")] and [model_validate] of an error detail; textual
    booleans, which no writer produces, are refused. *)
Definition error_json (e : ErrorDetail) : json :=
  JObject [(py "code", JString (detail_code e)); (py "details", detail_details e);
           (py "message", JString (detail_message e)); (py "retryable", JBool (detail_retryable e))].

Definition error_of_json (j : json) : result ErrorDetail :=
  _ ← closed_object j [py "code"; py "details"; py "message"; py "retryable"];
  code ← required_string j "code";
  message ← required_string j "message";
  retryable ← (match json_get j (py "retryable") with
               | None => Ok false
               | Some (JBool b) => Ok b
               | Some (JInt 0) => Ok false
               | Some (JInt 1) => Ok true
               | Some _ => Err (ValidationError "retryable")
               end);
  validate_error_detail (mkErrorDetail code message retryable
    (default (JObject []) (json_get j (py "details")))).

Record RunExecutionResult := mkRunExecutionResult {
  res_status : RunStatus;
  res_last_checkpoint_id : option uuid;
  res_error : option ErrorDetail;
  res_retry_delay : option timedelta;
}.

Definition validate_run_execution_result (r : RunExecutionResult) : result RunExecutionResult :=
  _ ← ensure (match res_retry_delay r with
              | None => true
              | Some x => (0 <=? x)%Z && (x <=? seconds 3600)%Z
              end) (ValidationError "retry_delay_seconds");
  _ ← ensure (bool_decide (res_status r ∈
                [COMPLETED; FAILED; CANCELLED; WAITING_APPROVAL; RETRY_PENDING]))
        (ValidationError "worker execution result must release its run lease");
  _ ← ensure (negb (bool_decide (res_status r = FAILED) && is_none (res_error r)))
        (ValidationError "failed worker execution requires an error");
  _ ← ensure (negb (negb (bool_decide (res_status r = FAILED)) && is_some (res_error r)))
        (ValidationError "only failed worker execution may include an error");
  _ ← ensure (eqb (bool_decide (res_status r = RETRY_PENDING)) (is_some (res_retry_delay r)))
        (ValidationError "retry-pending execution requires only a retry delay");
  Ok r.

(** ** Quotas, admission and queue pressure *)

Record TenantQuota := mkTenantQuota {
  quota_max_active_runs : Z;
  quota_max_queued_runs : Z;
  quota_max_gateway_requests : Z;
  quota_memory_enabled : bool;
}.

Definition default_tenant_quota : TenantQuota := mkTenantQuota 4 100 4 true.

Definition tenant_quota_ok (q : TenantQuota) : bool :=
  (1 <=? quota_max_active_runs q)%Z && (quota_max_active_runs q <=? 10000)%Z
  && (1 <=? quota_max_queued_runs q)%Z && (quota_max_queued_runs q <=? 100000)%Z
  && (1 <=? quota_max_gateway_requests q)%Z && (quota_max_gateway_requests q <=? 10000)%Z.

(** Durations are kept in microseconds. *)
Record QueueAdmissionPolicy := mkQueueAdmissionPolicy {
  policy_global_queue_limit : Z;
  policy_retry_after : timedelta;
  policy_priority_aging : timedelta;
}.

Definition default_admission_policy : QueueAdmissionPolicy :=
  mkQueueAdmissionPolicy 10000 (seconds 1) (seconds 300).

Definition admission_policy_ok (p : QueueAdmissionPolicy) : bool :=
  (1 <=? policy_global_queue_limit p)%Z && (policy_global_queue_limit p <=? 1000000)%Z
  && (0 <? policy_retry_after p)%Z && (policy_retry_after p <=? seconds 3600)%Z
  && (0 <? policy_priority_aging p)%Z && (policy_priority_aging p <=? seconds 86400)%Z.

Record QueueDepth := mkQueueDepth {
  depth_interactive : Z;
  depth_background : Z;
  depth_evaluation : Z;
}.

Definition depth_total (q : QueueDepth) : Z :=
  (depth_interactive q + depth_background q + depth_evaluation q)%Z.

Record QueueSnapshot := mkQueueSnapshot {
  snap_depth : QueueDepth;
  snap_oldest_age : timedelta;
  snap_captured_at : timestamp;
}.

(** Ages above one year (31 536 000 s) are not representable. *)
Definition validate_queue_snapshot (s : QueueSnapshot) : result QueueSnapshot :=
  _ ← ensure ((0 <=? depth_interactive (snap_depth s))%Z
              && (0 <=? depth_background (snap_depth s))%Z
              && (0 <=? depth_evaluation (snap_depth s))%Z) (ValidationError "depth");
  _ ← ensure ((0 <=? snap_oldest_age s)%Z && (snap_oldest_age s <=? seconds 31536000)%Z)
        (ValidationError "oldest_age_seconds");
  Ok s.
