(* ===== verification/RunQueue.v ===== *)
(** * The PostgreSQL run queue

    [PostgresRunQueue] of [platform_persistence/distributed.py]: worker
    registration and heartbeats, the claim transaction, lease renewal, completion
    and recovery of expired leases, plus the row conversions it shares with
    [platform_persistence/repositories.py], the quota rows of
    [platform_persistence/capacity.py] and the fence check of
    [platform_persistence/fencing.py]. *)

From stdpp Require Import base list gmap strings sorting.
From Stdlib Require Import ZArith Lia.
From S2P Require Import Prelude PyBase Domain Tables Contracts.

(** ** Row conversions *)

Definition _run_domain (r : RunRecord) : result Run :=
  validate_run (mkRun (rr_id r) (rr_session_id r) (rr_workspace_id r) (rr_status r)
    (rr_priority r) (rr_priority_class r) (rr_attempt r) (rr_execution_epoch r)
    (rr_assigned_worker_id r) (rr_lease_expires_at r) (rr_last_checkpoint_id r)
    (rr_cancellation_requested r) (rr_traceparent r) (rr_tracestate r)
    (rr_created_at r) (rr_started_at r) (rr_completed_at r)).

Definition _apply_run (r : RunRecord) (run : Run) : RunRecord :=
  mkRunRecord (rr_id r) (rr_tenant_id r) (rr_session_id r) (rr_workspace_id r)
    (run_status run) (rr_priority_class r) (rr_priority r) (run_attempt run)
    (run_execution_epoch run) (rr_lease_generation r) (run_assigned_worker_id run)
    (run_lease_expires_at run) (rr_retry_ready_at r) (run_last_checkpoint_id run)
    (run_cancellation_requested run) (run_traceparent run) (run_tracestate run)
    (rr_idempotency_key r) (rr_creation_hash r) (rr_created_at r)
    (run_started_at run) (run_completed_at run).

(** Single-column assignments of the queue. *)
Definition set_lease_generation (r : RunRecord) (g : Z) : RunRecord :=
  mkRunRecord (rr_id r) (rr_tenant_id r) (rr_session_id r) (rr_workspace_id r)
    (rr_status r) (rr_priority_class r) (rr_priority r) (rr_attempt r)
    (rr_execution_epoch r) g (rr_assigned_worker_id r)
    (rr_lease_expires_at r) (rr_retry_ready_at r) (rr_last_checkpoint_id r)
    (rr_cancellation_requested r) (rr_traceparent r) (rr_tracestate r)
    (rr_idempotency_key r) (rr_creation_hash r) (rr_created_at r)
    (rr_started_at r) (rr_completed_at r).

Definition set_retry_ready_at (r : RunRecord) (t : option timestamp) : RunRecord :=
  mkRunRecord (rr_id r) (rr_tenant_id r) (rr_session_id r) (rr_workspace_id r)
    (rr_status r) (rr_priority_class r) (rr_priority r) (rr_attempt r)
    (rr_execution_epoch r) (rr_lease_generation r) (rr_assigned_worker_id r)
    (rr_lease_expires_at r) t (rr_last_checkpoint_id r)
    (rr_cancellation_requested r) (rr_traceparent r) (rr_tracestate r)
    (rr_idempotency_key r) (rr_creation_hash r) (rr_created_at r)
    (rr_started_at r) (rr_completed_at r).

Definition set_lease_expires_at (r : RunRecord) (t : option timestamp) : RunRecord :=
  mkRunRecord (rr_id r) (rr_tenant_id r) (rr_session_id r) (rr_workspace_id r)
    (rr_status r) (rr_priority_class r) (rr_priority r) (rr_attempt r)
    (rr_execution_epoch r) (rr_lease_generation r) (rr_assigned_worker_id r)
    t (rr_retry_ready_at r) (rr_last_checkpoint_id r)
    (rr_cancellation_requested r) (rr_traceparent r) (rr_tracestate r)
    (rr_idempotency_key r) (rr_creation_hash r) (rr_created_at r)
    (rr_started_at r) (rr_completed_at r).

Definition _worker_domain (w : WorkerRecord) : result WorkerRegistration :=
  validate_worker_registration
    (mkWorkerRegistration (wk_worker_id w) (wk_supported_sandbox_types w)
       (wk_total_slots w) (wk_available_slots w) (wk_status w)
       (wk_registered_at w) (wk_last_heartbeat_at w)).

Definition _run_lease_domain (l : RunLeaseRecord) (r : RunRecord) (route : pystr)
    : result RunLease :=
  validate_run_lease
    (mkRunLease (rl_tenant_id l) (rl_run_id l) (rr_session_id r) (rr_workspace_id r)
       (rl_worker_id l) route (rl_lease_token l) (rl_generation l) (rr_attempt r)
       (rr_execution_epoch r) (rr_priority r) (rr_priority_class r)
       (Some (rr_created_at r)) (rl_acquired_at l) (rl_expires_at l)
       (rr_last_checkpoint_id r) (rr_cancellation_requested r)
       (rr_traceparent r) (rr_tracestate r)).

(** ** Guards *)

Definition MAX_LEASE : timedelta := seconds 3600.
Definition MAX_RECOVERY_RUNS : nat := 1000.
Definition MAX_CLAIM_CANDIDATES : nat := 1000.

Definition _operation_time (value : datetime) (code : string) : result timestamp :=
  match normalize_timestamp value with
  | Ok t => Ok t
  | Err _ => Err (DomainOperationError code false)
  end.

Definition _expiry (occurred_at : timestamp) (duration : timedelta) (code : string)
    : result timestamp :=
  _ ← ensure ((0 <? duration)%Z && (duration <=? MAX_LEASE)%Z) (DomainOperationError code false);
  Ok (occurred_at + duration)%Z.

Definition run_lease_lost : error := DomainOperationError "run_lease_lost" true.
Definition run_lease_expired : error := DomainOperationError "run_lease_expired" true.

Definition lease_matches (r : RunLeaseRecord) (l : RunLease) : bool :=
  bool_decide (rl_tenant_id r = lease_tenant_id l)
  && bool_decide (rl_run_id r = lease_run_id l)
  && bool_decide (rl_worker_id r = lease_worker_id l)
  && bool_decide (rl_lease_token r = lease_lease_token l)
  && bool_decide (rl_generation r = lease_generation l).

Definition _assert_matching_run_lease (record : option RunLeaseRecord) (lease : RunLease)
    : result RunLeaseRecord :=
  match record with
  | Some r => if lease_matches r lease then Ok r else Err run_lease_lost
  | None => Err run_lease_lost
  end.

(** [select(RunLeaseRecord).where(lease_token == token)] *)
Definition lease_by_token (d : Db) (token : uuid) : option RunLeaseRecord :=
  scalar_where (λ r, bool_decide (rl_lease_token r = token)) (run_leases d).

(** The session a run joins with. *)
Definition joined_session (d : Db) (r : RunRecord) : option SessionRecord :=
  match sessions d !! rr_session_id r with
  | Some s => if bool_decide (sess_tenant_id s = rr_tenant_id r) then Some s else None
  | None => None
  end.

Definition run_fence_matches (r : RunRecord) (l : RunLease) : bool :=
  bool_decide (rr_tenant_id r = lease_tenant_id l)
  && bool_decide (rr_lease_generation r = lease_generation l)
  && bool_decide (rr_assigned_worker_id r = Some (lease_worker_id l))
  && bool_decide (rr_execution_epoch r = lease_execution_epoch l).

Definition _locked_lease_state (d : Db) (lease : RunLease)
    : result (RunLeaseRecord * RunRecord * pystr) :=
  lease_row ← _assert_matching_run_lease (lease_by_token d (lease_lease_token lease)) lease;
  run_row ← require (runs d !! lease_run_id lease) run_lease_lost;
  _ ← ensure (run_fence_matches run_row lease) run_lease_lost;
  session ← require (joined_session d run_row) run_lease_lost;
  Ok (lease_row, run_row, sess_model_route session).

Definition _require_unexpired (lease_row : RunLeaseRecord) (occurred_at : timestamp)
    : result unit :=
  ensure (occurred_at <? rl_expires_at lease_row)%Z run_lease_expired.

Definition _active_worker_leases (d : Db) (worker_id : pystr) : Z :=
  Z.of_nat (count_where (λ l, bool_decide (rl_worker_id l = worker_id)) (run_leases d)).

Definition set_available_slots (w : WorkerRecord) (n : Z) : WorkerRecord :=
  mkWorkerRecord (wk_worker_id w) (wk_supported_sandbox_types w) (wk_total_slots w) n
    (wk_status w) (wk_registered_at w) (wk_last_heartbeat_at w).

Definition _return_worker_slot (d : Db) (worker_id : pystr) : Db :=
  match workers d !! worker_id with
  | Some w =>
      put_worker d (set_available_slots w
        (Z.min (wk_total_slots w) (wk_available_slots w + 1)))
  | None => d
  end.

Definition _clear_workspace_owner (w : WorkspaceLeaseRecord) : WorkspaceLeaseRecord :=
  mkWorkspaceLeaseRecord (wl_tenant_id w) (wl_workspace_id w) None None None None
    (wl_generation w) None None.

Definition _release_workspace_for_run (d : Db) (lease : RunLeaseRecord) : Db :=
  match scalar_where (λ w, bool_decide (wl_run_lease_token w = Some (rl_lease_token lease)))
          (workspace_leases d) with
  | Some w => put_workspace_lease d (_clear_workspace_owner w)
  | None => d
  end.

(** ** Worker liveness and capacity *)

Definition worker_heartbeat_stale : error := DomainOperationError "worker_heartbeat_stale" false.
Definition worker_not_registered : error := DomainOperationError "worker_not_registered" false.

Definition register_worker (d : Db) (registration : WorkerRegistration)
    : result (WorkerRegistration * Db) :=
  commit (
    row ← (match workers d !! reg_worker_id registration with
      | None =>
          Ok (mkWorkerRecord (reg_worker_id registration)
                (reg_supported_sandbox_types registration)
                (reg_total_slots registration) (reg_available_slots registration)
                (reg_status registration) (reg_registered_at registration)
                (reg_last_heartbeat_at registration))
      | Some row =>
          _ ← ensure (negb (reg_last_heartbeat_at registration <? wk_last_heartbeat_at row)%Z)
                worker_heartbeat_stale;
          let active_count := _active_worker_leases d (wk_worker_id row) in
          _ ← ensure (active_count <=? reg_total_slots registration)%Z
                (DomainOperationError "worker_capacity_conflict" false);
          Ok (mkWorkerRecord (wk_worker_id row) (reg_supported_sandbox_types registration)
                (reg_total_slots registration)
                (Z.min (reg_available_slots registration)
                   (reg_total_slots registration - active_count))
                (reg_status registration) (wk_registered_at row)
                (reg_last_heartbeat_at registration))
      end);
    reg ← _worker_domain row;
    Ok (reg, put_worker d row)).

Definition heartbeat_worker (d : Db) (worker_id : pystr) (occurred_at : datetime)
    (available_slots : Z) : result (WorkerRegistration * Db) :=
  timestamp_ ← _operation_time occurred_at "worker_heartbeat_invalid";
  commit (
    row ← require (workers d !! worker_id) worker_not_registered;
    _ ← ensure (negb (timestamp_ <? wk_last_heartbeat_at row)%Z) worker_heartbeat_stale;
    _ ← ensure ((0 <=? available_slots)%Z && (available_slots <=? wk_total_slots row)%Z)
          (DomainOperationError "worker_capacity_invalid" false);
    let active_count := _active_worker_leases d worker_id in
    let row' := mkWorkerRecord (wk_worker_id row) (wk_supported_sandbox_types row)
      (wk_total_slots row) (Z.min available_slots (wk_total_slots row - active_count))
      (wk_status row) (wk_registered_at row) timestamp_ in
    reg ← _worker_domain row';
    Ok (reg, put_worker d row')).

Definition set_worker_draining (d : Db) (worker_id : pystr) (draining : bool)
    (occurred_at : datetime) : result (WorkerRegistration * Db) :=
  timestamp_ ← _operation_time occurred_at "worker_drain_invalid";
  commit (
    row ← require (workers d !! worker_id) worker_not_registered;
    _ ← ensure (negb (timestamp_ <? wk_last_heartbeat_at row)%Z) worker_heartbeat_stale;
    let row' := mkWorkerRecord (wk_worker_id row) (wk_supported_sandbox_types row)
      (wk_total_slots row) (wk_available_slots row)
      (if draining then DRAINING else ACTIVE) (wk_registered_at row) timestamp_ in
    reg ← _worker_domain row';
    Ok (reg, put_worker d row')).

(** ** Quota rows *)

Definition ensure_tenant_quota (d : Db) (tenant_id : uuid) (default_ : TenantQuota)
    (occurred_at : timestamp) : Db * TenantQuotaRecord :=
  match tenant_quotas d !! tenant_id with
  | Some q => (d, q)
  | None =>
      let q := mkTenantQuotaRecord (quota_max_active_runs default_)
        (quota_max_queued_runs default_) (quota_max_gateway_requests default_)
        (quota_memory_enabled default_) occurred_at occurred_at in
      (set_tenant_quotas d (<[tenant_id := q]> (tenant_quotas d)), q)
  end.

(** ** Claiming a run *)

(** Composition-time policy of the queue. *)
Record QueueConfig := mkQueueConfig {
  default_quota : TenantQuota;
  admission_policy : QueueAdmissionPolicy;
}.

(** Rows other transactions hold locked: [SKIP LOCKED] queries pass over them. *)
Record Locks := mkLocks {
  locked_runs : gset uuid;
  locked_workspaces : gset (uuid * uuid);
  locked_leases : gset uuid;
}.

Definition no_locks : Locks := mkLocks ∅ ∅ ∅.

Definition class_rank (c : RunPriorityClass) : Z :=
  match c with INTERACTIVE => 2 | BACKGROUND => 1 | EVALUATION => 0 end.

Definition age_boost (policy : QueueAdmissionPolicy) (now : timestamp) (r : RunRecord) : Z :=
  Z.max 0 (Z.min 2 ((now - rr_created_at r) / policy_priority_aging policy)).

Definition effective_rank (policy : QueueAdmissionPolicy) (now : timestamp) (r : RunRecord) : Z :=
  (class_rank (rr_priority_class r) + age_boost policy now r)%Z.

(** ORDER BY effective rank DESC, priority DESC, created_at, id *)
Definition claim_before (policy : QueueAdmissionPolicy) (now : timestamp) (a b : RunRecord)
    : bool :=
  let ra := effective_rank policy now a in
  let rb := effective_rank policy now b in
  (rb <? ra)%Z
  || ((ra =? rb)%Z
      && ((rr_priority b <? rr_priority a)%Z
          || ((rr_priority a =? rr_priority b)%Z
              && ((rr_created_at a <? rr_created_at b)%Z
                  || ((rr_created_at a =? rr_created_at b)%Z && (rr_id a <? rr_id b)%N))))).

(** The workspace has no active writer. *)
Definition workspace_unowned (d : Db) (tenant workspace : uuid) : bool :=
  match workspace_leases d !! (tenant, workspace) with
  | Some w => is_none (wl_lease_token w)
  | None => true
  end.

Definition claimable (d : Db) (r : RunRecord) : bool :=
  bool_decide (rr_status r = QUEUED)
  && negb (rr_cancellation_requested r)
  && is_some (joined_session d r)
  && workspace_unowned d (rr_tenant_id r) (rr_workspace_id r).

Definition claim_candidates (d : Db) (locks : Locks) (skipped : list uuid) : list RunRecord :=
  select_where (λ r, claimable d r
                     && negb (bool_decide (rr_id r ∈ locked_runs locks))
                     && negb (bool_decide (rr_id r ∈ skipped))) (runs d).

Definition tenant_active_runs (d : Db) (tenant : uuid) : Z :=
  Z.of_nat (count_where (λ l, bool_decide (rl_tenant_id l = tenant)) (run_leases d)).

(** INSERT ... generation=0 ON CONFLICT DO NOTHING *)
Definition ensure_workspace_row (d : Db) (tenant workspace : uuid) : Db * WorkspaceLeaseRecord :=
  match workspace_leases d !! (tenant, workspace) with
  | Some w => (d, w)
  | None =>
      let w := mkWorkspaceLeaseRecord tenant workspace None None None None 0 None None in
      (put_workspace_lease d w, w)
  end.

(** The candidate loop: at most [fuel] candidates are examined; one over its
    tenant quota, or whose workspace row is locked or owned, is skipped. *)
Fixpoint claim_search (cfg : QueueConfig) (locks : Locks) (now : timestamp) (fuel : nat)
    (d : Db) (skipped : list uuid)
    : Db * option (RunRecord * pystr * WorkspaceLeaseRecord) :=
  match fuel with
  | O => (d, None)
  | S fuel =>
      match first_by (claim_before (admission_policy cfg) now)
              (claim_candidates d locks skipped) with
      | None => (d, None)
      | Some candidate =>
          let '(d1, quota) := ensure_tenant_quota d (rr_tenant_id candidate)
                                (default_quota cfg) now in
          if (tq_max_active_runs quota <=? tenant_active_runs d1 (rr_tenant_id candidate))%Z
          then claim_search cfg locks now fuel d1 (rr_id candidate :: skipped)
          else
            let '(d2, workspace) := ensure_workspace_row d1 (rr_tenant_id candidate)
                                      (rr_workspace_id candidate) in
            if bool_decide ((rr_tenant_id candidate, rr_workspace_id candidate)
                            ∈ locked_workspaces locks)
               || is_some (wl_lease_token workspace)
            then claim_search cfg locks now fuel d2 (rr_id candidate :: skipped)
            else
              match joined_session d candidate with
              | Some s => (d2, Some (candidate, sess_model_route s, workspace))
              | None => (d2, None)
              end
      end
  end.

Definition claim (cfg : QueueConfig) (locks : Locks) (d : Db) (worker_id : pystr)
    (occurred_at : datetime) (lease_duration : timedelta) (lease_token workspace_token : uuid)
    : result (option RunLease * Db) :=
  timestamp_ ← _operation_time occurred_at "run_claim_invalid";
  expires_at ← _expiry timestamp_ lease_duration "run_claim_invalid";
  commit (
    worker ← require (workers d !! worker_id) worker_not_registered;
    if negb (bool_decide (wk_status worker = ACTIVE)) || (wk_available_slots worker <=? 0)%Z
    then Ok (None, d)
    else
      match claim_search cfg locks timestamp_ MAX_CLAIM_CANDIDATES d [] with
      | (d1, None) => Ok (None, d1)
      | (d1, Some (run_row, route_name, workspace_row)) =>
          let generation := (rr_lease_generation run_row + 1)%Z in
          run ← _run_domain run_row;
          transitioned ← transition_run run LEASED (utc timestamp_) (Some worker_id)
                           (Some (utc expires_at));
          let run_row' := set_lease_generation (_apply_run run_row transitioned) generation in
          let lease_row := mkRunLeaseRecord (rr_id run_row) (rr_tenant_id run_row) worker_id
            lease_token generation timestamp_ timestamp_ expires_at in
          let workspace_row' := mkWorkspaceLeaseRecord (wl_tenant_id workspace_row)
            (wl_workspace_id workspace_row) (Some (rr_id run_row)) (Some worker_id)
            (Some lease_token) (Some workspace_token) (wl_generation workspace_row + 1)
            (Some timestamp_) (Some expires_at) in
          let worker' := set_available_slots worker (wk_available_slots worker - 1) in
          _ ← ensure (is_none (run_leases d1 !! rr_id run_row)) integrity_error;
          lease ← _run_lease_domain lease_row run_row' route_name;
          Ok (Some lease,
              put_worker (put_workspace_lease (put_run_lease (put_run d1 run_row') lease_row)
                            workspace_row') worker')
      end).

(** ** Observing the queue *)

Definition is_waiting_status (s : RunStatus) : bool :=
  bool_decide (s ∈ [QUEUED; WAITING_APPROVAL; RETRY_PENDING; LOST]).

Definition oldest_waiting (d : Db) : option timestamp :=
  foldr (λ r acc, Some (match acc with
                        | None => rr_created_at r
                        | Some t => Z.min (rr_created_at r) t
                        end)) None
    (select_where (λ r, is_waiting_status (rr_status r)) (runs d)).

Definition snapshot (d : Db) (occurred_at : datetime) : result QueueSnapshot :=
  timestamp_ ← _operation_time occurred_at "queue_snapshot_invalid";
  let count c := Z.of_nat (count_where (λ r, is_waiting_status (rr_status r)
                   && bool_decide (rr_priority_class r = c)) (runs d)) in
  let oldest_age := match oldest_waiting d with
                    | Some oldest => Z.max 0 (timestamp_ - oldest)
                    | None => 0%Z
                    end in
  validate_queue_snapshot
    (mkQueueSnapshot (mkQueueDepth (count INTERACTIVE) (count BACKGROUND) (count EVALUATION))
       oldest_age timestamp_).

(** ** Fence checks *)

Definition sandbox_lease_unauthorized : error :=
  DomainOperationError "sandbox_lease_unauthorized" true.

(** Both the run lease and the workspace writer lease are current. *)
Definition sandbox_authorized (d : Db) (tenant_id run_id session_id workspace_id : uuid)
    (worker_id : pystr) (lease_token : uuid) (generation : Z) (now : timestamp)
    (execution_epoch : Z) : bool :=
  match run_leases d !! run_id, runs d !! run_id,
        workspace_leases d !! (tenant_id, workspace_id) with
  | Some l, Some r, Some w =>
      bool_decide (rr_tenant_id r = rl_tenant_id l)
      && bool_decide (rl_tenant_id l = tenant_id)
      && bool_decide (rl_worker_id l = worker_id)
      && bool_decide (rl_lease_token l = lease_token)
      && bool_decide (rl_generation l = generation)
      && (now <? rl_expires_at l)%Z
      && bool_decide (rr_session_id r = session_id)
      && bool_decide (rr_workspace_id r = workspace_id)
      && bool_decide (rr_execution_epoch r = execution_epoch)
      && bool_decide (rr_status r = RUNNING)
      && bool_decide (rr_assigned_worker_id r = Some worker_id)
      && negb (rr_cancellation_requested r)
      && bool_decide (wl_run_id w = Some run_id)
      && bool_decide (wl_worker_id w = Some worker_id)
      && bool_decide (wl_run_lease_token w = Some lease_token)
      && is_some (wl_lease_token w)
      && (match wl_expires_at w with Some e => (now <? e)%Z | None => false end)
  | _, _, _ => false
  end.

Definition authorize_sandbox_lease (d : Db) (tenant_id run_id session_id workspace_id : uuid)
    (worker_id : pystr) (lease_token : uuid) (generation : Z) (occurred_at : datetime)
    (execution_epoch : Z) : result unit :=
  timestamp_ ← _operation_time occurred_at "sandbox_lease_invalid";
  ensure (sandbox_authorized d tenant_id run_id session_id workspace_id worker_id
            lease_token generation timestamp_ execution_epoch) sandbox_lease_unauthorized.

(** [assert_active_run_lease]: [now] is the database clock. *)
Definition assert_active_run_lease (d : Db) (now : timestamp) (lease : RunLease)
    : result RunRecord :=
  lease_row ← require (run_leases d !! lease_run_id lease) run_lease_lost;
  _ ← ensure (lease_matches lease_row lease && (now <? rl_expires_at lease_row)%Z)
        run_lease_lost;
  run_row ← require (runs d !! lease_run_id lease) run_lease_lost;
  _ ← ensure (bool_decide (rr_tenant_id run_row = lease_tenant_id lease)
              && bool_decide (rr_session_id run_row = lease_session_id lease)
              && bool_decide (rr_workspace_id run_row = lease_workspace_id lease)
              && bool_decide (rr_execution_epoch run_row = lease_execution_epoch lease)
              && bool_decide (rr_assigned_worker_id run_row = Some (lease_worker_id lease))
              && bool_decide (rr_lease_generation run_row = lease_generation lease)
              && (match rr_lease_expires_at run_row with
                  | Some e => (now <? e)%Z
                  | None => false
                  end)
              && bool_decide (rr_status run_row ∈ [LEASED; RUNNING])) run_lease_lost;
  Ok run_row.

(** ** Lease holders *)

Definition run_state_conflict : error := DomainOperationError "run_state_conflict" false.

Definition start (d : Db) (lease : RunLease) (occurred_at : datetime)
    : result (RunLease * Db) :=
  timestamp_ ← _operation_time occurred_at "run_start_invalid";
  commit (
    '(lease_row, run_row, route_name) ← _locked_lease_state d lease;
    _ ← _require_unexpired lease_row timestamp_;
    _ ← ensure (bool_decide (rr_status run_row = LEASED)) run_state_conflict;
    run ← _run_domain run_row;
    transitioned ← transition_run run RUNNING (utc timestamp_) None None;
    let run_row' := _apply_run run_row transitioned in
    lease' ← _run_lease_domain lease_row run_row' route_name;
    Ok (lease', put_run d run_row')).

Definition heartbeat (d : Db) (lease : RunLease) (occurred_at : datetime)
    (lease_duration : timedelta) : result (RunLeaseHeartbeat * Db) :=
  timestamp_ ← _operation_time occurred_at "run_heartbeat_invalid";
  expires_at ← _expiry timestamp_ lease_duration "run_heartbeat_invalid";
  commit (
    '(lease_row, run_row, _) ← _locked_lease_state d lease;
    _ ← _require_unexpired lease_row timestamp_;
    _ ← ensure (bool_decide (rr_status run_row ∈ [LEASED; RUNNING])) run_lease_lost;
    let lease_row' := mkRunLeaseRecord (rl_run_id lease_row) (rl_tenant_id lease_row)
      (rl_worker_id lease_row) (rl_lease_token lease_row) (rl_generation lease_row)
      (rl_acquired_at lease_row) timestamp_ expires_at in
    let run_row' := set_lease_expires_at run_row (Some expires_at) in
    Ok (mkRunLeaseHeartbeat (rl_lease_token lease_row) (rl_generation lease_row) expires_at
          (rr_cancellation_requested run_row),
        put_run (put_run_lease d lease_row') run_row')).

(** [coalesce(max(sequence), 0)] over the session's messages of active branches *)
Definition memory_source_sequence (d : Db) (r : RunRecord) : Z :=
  foldr (λ m acc, Z.max (msg_sequence m) acc) 0%Z
    (select_where (λ m, bool_decide (msg_tenant_id m = rr_tenant_id r)
                        && bool_decide (msg_session_id m = rr_session_id r)
                        && (match runs d !! msg_run_id m with
                            | Some owner => bool_decide (rr_tenant_id owner = msg_tenant_id m)
                                && bool_decide (msg_execution_epoch m = rr_execution_epoch owner)
                            | None => false
                            end)) (messages d)).

(** INSERT ... SELECT ... ON CONFLICT DO NOTHING, for enabled sessions only. *)
Definition _enqueue_memory_extraction (d : Db) (r : RunRecord) (created_at : timestamp) : Db :=
  match joined_session d r, tenant_quotas d !! rr_tenant_id r with
  | Some s, Some q =>
      if sess_memory_enabled s && tq_memory_enabled q then
        let key := (rr_tenant_id r, rr_id r, rr_execution_epoch r) in
        match memory_jobs d !! key with
        | Some _ => d
        | None =>
            set_memory_jobs d (<[key := mkMemoryJob (rr_session_id r) JOB_PENDING
              (memory_source_sequence d r) 1 None None 0 None None created_at None None]>
              (memory_jobs d))
        end
      else d
  | _, _ => d
  end.

Definition finish (d : Db) (lease : RunLease) (res : RunExecutionResult)
    (occurred_at : datetime) : result (Run * Db) :=
  timestamp_ ← _operation_time occurred_at "run_finish_invalid";
  commit (
    '(lease_row, run_row, _) ← _locked_lease_state d lease;
    _ ← _require_unexpired lease_row timestamp_;
    let desired_status :=
      if rr_cancellation_requested run_row then CANCELLED else res_status res in
    run ← _run_domain run_row;
    transitioned ← transition_run run desired_status (utc timestamp_) None None;
    transitioned ← (match res_last_checkpoint_id res with
                    | Some c => copy_with_checkpoint transitioned c
                    | None => Ok transitioned
                    end);
    let retry_ready_at :=
      match res_retry_delay res with
      | Some delay =>
          if bool_decide (desired_status = RETRY_PENDING)
          then Some (timestamp_ + delay)%Z else None
      | None => None
      end in
    let run_row' := set_retry_ready_at (_apply_run run_row transitioned) retry_ready_at in
    let d1 := put_run d run_row' in
    let d2 := if bool_decide (desired_status = COMPLETED)
              then _enqueue_memory_extraction d1 run_row' timestamp_ else d1 in
    let d3 := _release_workspace_for_run d2 lease_row in
    let d4 := delete_run_lease d3 lease_row in
    let d5 := _return_worker_slot d4 (lease_worker_id lease) in
    run' ← _run_domain run_row';
    Ok (run', d5)).

(** ** Recovery *)

Definition retry_due (now : timestamp) (r : RunRecord) : bool :=
  bool_decide (rr_status r = RETRY_PENDING)
  && (match rr_retry_ready_at r with Some t => (t <=? now)%Z | None => false end).

(** ORDER BY retry_ready_at, id and ORDER BY expires_at, run_id *)
Definition retry_le (a b : RunRecord) : Prop :=
  (default 0%Z (rr_retry_ready_at a) < default 0%Z (rr_retry_ready_at b))%Z ∨
  (default 0%Z (rr_retry_ready_at a) = default 0%Z (rr_retry_ready_at b) ∧ (rr_id a <= rr_id b)%N).
Definition expiry_le (a b : RunLeaseRecord) : Prop :=
  (rl_expires_at a < rl_expires_at b)%Z ∨
  (rl_expires_at a = rl_expires_at b ∧ (rl_run_id a <= rl_run_id b)%N).

#[export] Instance retry_le_dec : RelDecision retry_le.
Proof. intros a b. unfold retry_le. apply _. Defined.
#[export] Instance expiry_le_dec : RelDecision expiry_le.
Proof. intros a b. unfold expiry_le. apply _. Defined.

Definition due_retries (d : Db) (locks : Locks) (now : timestamp) (limit : nat)
    : list RunRecord :=
  take limit (merge_sort retry_le
    (select_where (λ r, retry_due now r && negb (bool_decide (rr_id r ∈ locked_runs locks)))
       (runs d))).

Definition expired_leases (d : Db) (locks : Locks) (now : timestamp) (limit : nat)
    : list RunLeaseRecord :=
  take limit (merge_sort expiry_le
    (select_where (λ l, (rl_expires_at l <=? now)%Z
                        && negb (bool_decide (rl_run_id l ∈ locked_leases locks)))
       (run_leases d))).

Definition requeue_retry (now : timestamp) (d : Db) (row : RunRecord) : result (Run * Db) :=
  run ← _run_domain row;
  queued ← transition_run run QUEUED (utc now) None None;
  Ok (queued, put_run d (set_retry_ready_at (_apply_run row queued) None)).

Fixpoint requeue_retries (now : timestamp) (d : Db) (rows : list RunRecord)
    : result (list Run * Db) :=
  match rows with
  | [] => Ok ([], d)
  | row :: rows =>
      '(run, d1) ← requeue_retry now d row;
      '(rest, d2) ← requeue_retries now d1 rows;
      Ok (run :: rest, d2)
  end.

(** The run still owned by an expired lease. *)
Definition lease_owns_run (l : RunLeaseRecord) (r : RunRecord) : bool :=
  bool_decide (rr_tenant_id r = rl_tenant_id l)
  && bool_decide (rr_lease_generation r = rl_generation l)
  && bool_decide (rr_assigned_worker_id r = Some (rl_worker_id l))
  && bool_decide (rr_status r ∈ [LEASED; RUNNING]).

Definition recover_run (now : timestamp) (row : RunRecord) : result Run :=
  current ← _run_domain row;
  if run_cancellation_requested current
  then transition_run current CANCELLED (utc now) None None
  else
    lost ← transition_run current LOST (utc now) None None;
    transition_run lost QUEUED (utc now) None None.

Definition recover_lease (now : timestamp) (d : Db) (l : RunLeaseRecord)
    : result (option Run * Db) :=
  '(recovered, d1) ←
    (match runs d !! rl_run_id l with
     | Some row =>
         if lease_owns_run l row then
           next_run ← recover_run now row;
           Ok (Some next_run, put_run d (_apply_run row next_run))
         else Ok (None, d)
     | None => Ok (None, d)
     end : result (option Run * Db));
  let d2 := _release_workspace_for_run d1 l in
  let d3 := delete_run_lease d2 l in
  Ok (recovered, _return_worker_slot d3 (rl_worker_id l)).

Fixpoint recover_leases (now : timestamp) (d : Db) (rows : list RunLeaseRecord)
    : result (list Run * Db) :=
  match rows with
  | [] => Ok ([], d)
  | l :: rows =>
      '(recovered, d1) ← recover_lease now d l;
      '(rest, d2) ← recover_leases now d1 rows;
      Ok ((match recovered with Some r => [r] | None => [] end) ++ rest, d2)
  end.

(** Returns the recovered runs and, after commit, the runs whose wake-up is
    published. *)
Definition recover_expired (locks : Locks) (d : Db) (occurred_at : datetime) (limit : nat)
    : result (list Run * list uuid * Db) :=
  timestamp_ ← _operation_time occurred_at "run_recovery_invalid";
  _ ← ensure ((1 <=? limit)%nat && (limit <=? MAX_RECOVERY_RUNS)%nat) (ValueError "limit");
  '(recovered, d') ← commit (
    '(retried, d1) ← requeue_retries timestamp_ d (due_retries d locks timestamp_ limit);
    '(lost, d2) ← recover_leases timestamp_ d1
                    (expired_leases d1 locks timestamp_ (limit - length retried));
    Ok (retried ++ lost, d2));
  Ok (recovered,
      map run_id (filter (λ r, run_status r = QUEUED) recovered), d').
