(* ===== verification/WorkspaceLeases.v ===== *)
(** * Fenced workspace writer leases

    [PostgresWorkspaceLeaseStore] of [platform_persistence/distributed.py]:
    exclusive writer ownership of a tenant workspace, tied to the run lease that
    acquired it. *)

From stdpp Require Import base list gmap strings.
From Stdlib Require Import ZArith Lia.
From S2P Require Import Prelude PyBase Domain Tables Contracts RunQueue.

Definition workspace_lease_lost : error := DomainOperationError "workspace_lease_lost" true.
Definition workspace_lease_invalid : error := DomainOperationError "workspace_lease_invalid" false.
Definition workspace_lease_corrupt : error := DomainOperationError "workspace_lease_corrupt" false.

Definition _workspace_lease_domain (w : WorkspaceLeaseRecord) : result WorkspaceWriterLease :=
  match wl_run_id w, wl_worker_id w, wl_run_lease_token w, wl_lease_token w,
        wl_acquired_at w, wl_expires_at w with
  | Some run, Some worker, Some run_token, Some token, Some acquired, Some expires =>
      validate_workspace_writer_lease
        (mkWorkspaceWriterLease (wl_tenant_id w) (wl_workspace_id w) run worker run_token
           token (wl_generation w) acquired expires)
  | _, _, _, _, _, _ => Err workspace_lease_corrupt
  end.

Definition set_writer_expiry (w : WorkspaceLeaseRecord) (e : timestamp) : WorkspaceLeaseRecord :=
  mkWorkspaceLeaseRecord (wl_tenant_id w) (wl_workspace_id w) (wl_run_id w) (wl_worker_id w)
    (wl_run_lease_token w) (wl_lease_token w) (wl_generation w) (wl_acquired_at w) (Some e).

(** The row is owned by this very run lease. *)
Definition owned_by_run_lease (w : WorkspaceLeaseRecord) (l : RunLease) : bool :=
  bool_decide (wl_run_lease_token w = Some (lease_lease_token l))
  && bool_decide (wl_run_id w = Some (lease_run_id l))
  && bool_decide (wl_worker_id w = Some (lease_worker_id l))
  && bool_decide (wl_tenant_id w = lease_tenant_id l)
  && bool_decide (wl_workspace_id w = lease_workspace_id l).

Definition acquire (d : Db) (run_lease : RunLease) (occurred_at : datetime)
    (lease_duration : timedelta) (token : uuid) : result (option WorkspaceWriterLease * Db) :=
  timestamp_ ← _operation_time occurred_at "workspace_lease_invalid";
  requested_expiry ← _expiry timestamp_ lease_duration "workspace_lease_invalid";
  commit (
    active_run_lease ← _assert_matching_run_lease
                         (lease_by_token d (lease_lease_token run_lease)) run_lease;
    _ ← _require_unexpired active_run_lease timestamp_;
    let expires_at := Z.min requested_expiry (rl_expires_at active_run_lease) in
    _ ← ensure (timestamp_ <? expires_at)%Z workspace_lease_invalid;
    let '(d1, row) := ensure_workspace_row d (lease_tenant_id run_lease)
                        (lease_workspace_id run_lease) in
    if is_some (wl_lease_token row) then
      if owned_by_run_lease row run_lease then
        let row' := set_writer_expiry row expires_at in
        lease ← _workspace_lease_domain row';
        Ok (Some lease, put_workspace_lease d1 row')
      else Ok (None, d1)
    else
      let row' := mkWorkspaceLeaseRecord (wl_tenant_id row) (wl_workspace_id row)
        (Some (lease_run_id run_lease)) (Some (lease_worker_id run_lease))
        (Some (lease_lease_token run_lease)) (Some token) (wl_generation row + 1)
        (Some timestamp_) (Some expires_at) in
      lease ← _workspace_lease_domain row';
      Ok (Some lease, put_workspace_lease d1 row')).

(** The row carries exactly the fence of the writer lease. *)
Definition writer_matches (w : WorkspaceLeaseRecord) (l : WorkspaceWriterLease) : bool :=
  bool_decide (wl_tenant_id w = writer_tenant_id l)
  && bool_decide (wl_workspace_id w = writer_workspace_id l)
  && bool_decide (wl_run_id w = Some (writer_run_id l))
  && bool_decide (wl_worker_id w = Some (writer_worker_id l))
  && bool_decide (wl_lease_token w = Some (writer_lease_token l))
  && bool_decide (wl_generation w = writer_generation l)
  && bool_decide (wl_run_lease_token w = Some (writer_run_lease_token l)).

Definition heartbeat (d : Db) (lease : WorkspaceWriterLease) (occurred_at : datetime)
    (lease_duration : timedelta) : result (WorkspaceWriterLease * Db) :=
  timestamp_ ← _operation_time occurred_at "workspace_heartbeat_invalid";
  requested_expiry ← _expiry timestamp_ lease_duration "workspace_heartbeat_invalid";
  commit (
    run_lease ← require (lease_by_token d (writer_run_lease_token lease)) workspace_lease_lost;
    _ ← ensure (bool_decide (rl_tenant_id run_lease = writer_tenant_id lease)
                && bool_decide (rl_worker_id run_lease = writer_worker_id lease)
                && bool_decide (rl_run_id run_lease = writer_run_id lease)
                && (timestamp_ <? rl_expires_at run_lease)%Z) workspace_lease_lost;
    row ← require (workspace_leases d !! (writer_tenant_id lease, writer_workspace_id lease))
            workspace_lease_lost;
    _ ← ensure (writer_matches row lease) workspace_lease_lost;
    let expires_at := Z.min requested_expiry (rl_expires_at run_lease) in
    _ ← ensure (timestamp_ <? expires_at)%Z workspace_lease_lost;
    let row' := set_writer_expiry row expires_at in
    lease' ← _workspace_lease_domain row';
    Ok (lease', put_workspace_lease d row')).

(** The row is fully cleared at the generation of the lease: an earlier release
    already happened. *)
Definition already_released (w : WorkspaceLeaseRecord) (l : WorkspaceWriterLease) : bool :=
  bool_decide (wl_generation w = writer_generation l)
  && is_none (wl_run_id w) && is_none (wl_worker_id w) && is_none (wl_run_lease_token w)
  && is_none (wl_acquired_at w) && is_none (wl_expires_at w).

Definition release (d : Db) (lease : WorkspaceWriterLease) : result (unit * Db) :=
  commit (
    row ← require (workspace_leases d !! (writer_tenant_id lease, writer_workspace_id lease))
            workspace_lease_lost;
    if is_none (wl_lease_token row) then
      _ ← ensure (already_released row lease) workspace_lease_lost;
      Ok (tt, d)
    else
      _ ← ensure (writer_matches row lease) workspace_lease_lost;
      Ok (tt, put_workspace_lease d (_clear_workspace_owner row))).
