(* ===== verification/RunRepository.v ===== *)
(** * Control-plane run operations

    [PostgresRunRepository] of [platform_persistence/repositories.py]: creation
    under admission control, lookup, compare-and-set transitions, cancellation
    requests and rewinds, with the creation payload of [agent_core/control.py].

    Digests and name-based identifiers are arguments: [digest] stands for the
    SHA-256 hex digest of the canonical JSON encoding, [message_uuid] and
    [plan_uuid] for [uuid.uuid5]. *)

From stdpp Require Import base list gmap strings sorting.
From Stdlib Require Import ZArith Lia.
From S2P Require Import Prelude PyBase Domain Tables Contracts RunQueue.

(** The row of a tenant's run. *)
Definition tenant_run (d : Db) (tenant_id run_id : uuid) : option RunRecord :=
  match runs d !! run_id with
  | Some r => if bool_decide (rr_tenant_id r = tenant_id) then Some r else None
  | None => None
  end.

Definition get (d : Db) (tenant_id run_id : uuid) : result (option Run) :=
  match tenant_run d tenant_id run_id with
  | Some row => run ← _run_domain row; Ok (Some run)
  | None => Ok None
  end.

Definition transition (d : Db) (tenant_id run_id : uuid) (expected_status new_status : RunStatus)
    (occurred_at : datetime) (worker_id : option pystr) (lease_expires_at : option datetime)
    : result (bool * Db) :=
  commit (
    match tenant_run d tenant_id run_id with
    | None => Ok (false, d)
    | Some row =>
        if bool_decide (rr_status row = expected_status) then
          run ← _run_domain row;
          transitioned ← transition_run run new_status occurred_at worker_id lease_expires_at;
          Ok (true, put_run d (_apply_run row transitioned))
        else Ok (false, d)
    end).

Definition request_cancel (d : Db) (tenant_id run_id : uuid) (occurred_at : datetime)
    : result (option Run * Db) :=
  commit (
    match tenant_run d tenant_id run_id with
    | None => Ok (None, d)
    | Some row =>
        run ← _run_domain row;
        if bool_decide (run_status run ∈ [COMPLETED; FAILED; CANCELLED]) then Ok (Some run, d)
        else
          run' ← (if bool_decide (run_status run ∈ [QUEUED; WAITING_APPROVAL; RETRY_PENDING; LOST])
                  then transition_run run CANCELLED occurred_at None None
                  else copy_with_cancellation run);
          Ok (Some run', put_run d (_apply_run row run'))
    end).

(** ** Creation *)

(** [TrackedTask] and [WorkspaceFileReference] payloads by their JSON dumps. *)
Record RunSubmission := mkRunSubmission {
  sub_run : Run;
  sub_task : pystr;
  sub_initial_tasks : list json;
  sub_referenced_files : list json;
}.

Record RunCreationResult := mkRunCreationResult {
  creation_run : Run;
  creation_created : bool;
}.

Definition class_value (c : RunPriorityClass) : pystr :=
  match c with
  | INTERACTIVE => py "interactive"
  | BACKGROUND => py "background"
  | EVALUATION => py "evaluation"
  end.

(** The payload [run_creation_hash] encodes and digests. *)
Definition creation_payload (priority : Z) (priority_class : RunPriorityClass)
    (submission : option RunSubmission) : json :=
  JObject (match submission with
           | None => []
           | Some s => [(py "initial_tasks", JArray (sub_initial_tasks s))]
           end
    ++ [(py "priority", JInt priority);
        (py "priority_class", JString (class_value priority_class))]
    ++ match submission with
       | None => []
       | Some s =>
           match sub_referenced_files s with
           | [] => []
           | files => [(py "referenced_files", JArray files)]
           end ++ [(py "task", JString (sub_task s))]
       end).

Definition run_creation_hash (digest : json → pystr) (priority : Z)
    (priority_class : RunPriorityClass) (submission : option RunSubmission) : pystr :=
  digest (creation_payload priority priority_class submission).

(** [IdempotencyKey]: 1 to 255 characters of ^[A-Za-z0-9][A-Za-z0-9._:-]*$ *)
Definition is_alphanumeric (c : N) : bool :=
  in_range 48 57 c || in_range 65 90 c || in_range 97 122 c.
Definition idempotency_key_ok (s : pystr) : bool :=
  (length s <=? 255)%nat
  && (match s with
      | [] => false
      | c :: rest =>
          is_alphanumeric c
          && forallb (λ c, is_alphanumeric c || (c =? 46)%N || (c =? 95)%N || (c =? 58)%N
                           || (c =? 45)%N) rest
      end).

Definition invalid_run_creation : error := DomainOperationError "invalid_run_creation" false.

(** [_run_values]; the lease generation and retry time take their defaults. *)
Definition _run_values (tenant_id : uuid) (run : Run) (idempotency_key creation_hash : pystr)
    : RunRecord :=
  mkRunRecord (run_id run) tenant_id (run_session_id run) (run_workspace_id run)
    (run_status run) (run_priority_class run) (run_priority run) (run_attempt run)
    (run_execution_epoch run) 0 (run_assigned_worker_id run) (run_lease_expires_at run) None
    (run_last_checkpoint_id run) (run_cancellation_requested run) (run_traceparent run)
    (run_tracestate run) idempotency_key creation_hash (run_created_at run)
    (run_started_at run) (run_completed_at run).

Definition _creation_record (d : Db) (tenant_id session_id : uuid) (idempotency_key : pystr)
    : option RunRecord :=
  scalar_where (λ r, bool_decide (rr_tenant_id r = tenant_id)
                     && bool_decide (rr_session_id r = session_id)
                     && bool_decide (rr_idempotency_key r = idempotency_key)) (runs d).

Definition _existing_creation (existing : RunRecord) (creation_hash : pystr)
    : result RunCreationResult :=
  _ ← ensure (bool_decide (rr_creation_hash existing = creation_hash))
        (DomainOperationError "run_idempotency_conflict" false);
  run ← _run_domain existing;
  Ok (mkRunCreationResult run false).

Definition _lock_submission_session (d : Db) (tenant_id : uuid) (run : Run) : result unit :=
  session ← require (match sessions d !! run_session_id run with
                     | Some s => if bool_decide (sess_tenant_id s = tenant_id)
                                 then Some s else None
                     | None => None
                     end) (DomainOperationError "session_not_found" false);
  ensure (bool_decide (sess_workspace_id session = run_workspace_id run))
    (DomainOperationError "run_workspace_mismatch" false).

Definition _queue_admission (d : Db) (policy : QueueAdmissionPolicy) (occurred_at : timestamp)
    : result (Db * QueueAdmissionRecord) :=
  let row := match queue_admission d with
             | Some row => row
             | None => mkQueueAdmissionRecord (policy_global_queue_limit policy)
                         (policy_retry_after policy) occurred_at occurred_at
             end in
  if negb (qa_global_queue_limit row =? policy_global_queue_limit policy)%Z
     || negb (qa_retry_after row =? policy_retry_after policy)%Z
  then
    _ ← ensure (negb (occurred_at <? qa_updated_at row)%Z)
          (DomainOperationError "queue_admission_clock_invalid" true);
    let row' := mkQueueAdmissionRecord (policy_global_queue_limit policy)
                  (policy_retry_after policy) (qa_created_at row) occurred_at in
    Ok (set_queue_admission d (Some row'), row')
  else Ok (set_queue_admission d (Some row), row).

(** Waiting runs of one tenant and of all tenants. *)
Definition tenant_queued_runs (d : Db) (tenant_id : uuid) : Z :=
  Z.of_nat (count_where (λ r, bool_decide (rr_tenant_id r = tenant_id)
                              && is_waiting_status (rr_status r)) (runs d)).
Definition global_queued_runs (d : Db) : Z :=
  Z.of_nat (count_where (λ r, is_waiting_status (rr_status r)) (runs d)).

(** [coalesce(max(sequence), 0)] over the messages of a session. *)
Definition max_sequence (d : Db) (tenant_id session_id : uuid) : Z :=
  foldr (λ m acc, Z.max (msg_sequence m) acc) 0%Z
    (select_where (λ m, bool_decide (msg_tenant_id m = tenant_id)
                        && bool_decide (msg_session_id m = session_id)) (messages d)).

(** INSERT of rows under fresh primary keys. *)
Definition insert_message (d : Db) (m : MessageRecord) : result Db :=
  _ ← ensure (is_none (messages d !! msg_id m)) integrity_error;
  Ok (set_messages d (<[msg_id m := m]> (messages d))).
Definition insert_plan (d : Db) (id : uuid) (p : TaskPlanRecord) : result Db :=
  _ ← ensure (is_none (task_plans d !! id)) integrity_error;
  Ok (set_task_plans d (<[id := p]> (task_plans d))).
Definition insert_run (d : Db) (r : RunRecord) : result Db :=
  _ ← ensure (is_none (runs d !! rr_id r)) integrity_error;
  Ok (put_run d r).

Definition _insert_initial_state (d : Db) (tenant_id : uuid) (submission : RunSubmission)
    (message_id plan_id : uuid) : result Db :=
  let run := sub_run submission in
  let next_sequence := (max_sequence d tenant_id (run_session_id run) + 1)%Z in
  let metadata := JObject (match sub_referenced_files submission with
       | [] => []
       | files => [(py "referenced_files", JArray files)]
       end ++ [(py "source", JString (py "run_submission"))]) in
  d1 ← insert_message d (mkMessageRecord message_id tenant_id (run_session_id run) (run_id run)
         (run_execution_epoch run) next_sequence USER (sub_task submission) metadata
         (run_created_at run));
  insert_plan d1 plan_id (mkTaskPlanRecord tenant_id (run_id run) (run_execution_epoch run) 1
    (JObject [(py "tasks", JArray (sub_initial_tasks submission))]) (run_created_at run)).

Definition _create (cfg : QueueConfig) (digest : json → pystr) (d : Db) (tenant_id : uuid)
    (run : Run) (idempotency_key creation_hash : pystr) (submission : option RunSubmission)
    (message_id plan_id : uuid) : result (RunCreationResult * Db) :=
  _ ← ensure (idempotency_key_ok idempotency_key) invalid_run_creation;
  let expected_creation_hash :=
    run_creation_hash digest (run_priority run) (run_priority_class run) submission in
  _ ← ensure (bool_decide (creation_hash = expected_creation_hash)) invalid_run_creation;
  let values := _run_values tenant_id run idempotency_key creation_hash in
  commit (
    match _creation_record d tenant_id (run_session_id run) idempotency_key with
    | Some existing =>
        res ← _existing_creation existing creation_hash;
        Ok (res, d)
    | None =>
        _ ← (match submission with
             | Some _ => _lock_submission_session d tenant_id run
             | None => Ok tt
             end);
        let '(d1, quota) := ensure_tenant_quota d tenant_id (default_quota cfg)
                              (run_created_at run) in
        match _creation_record d1 tenant_id (run_session_id run) idempotency_key with
        | Some existing =>
            res ← _existing_creation existing creation_hash;
            Ok (res, d1)
        | None =>
            '(d2, admission) ← _queue_admission d1 (admission_policy cfg) (run_created_at run);
            _ ← ensure (tenant_queued_runs d2 tenant_id <? tq_max_queued_runs quota)%Z
                  (DomainOperationError "tenant_queue_quota_exceeded" true);
            _ ← ensure (global_queued_runs d2 <? qa_global_queue_limit admission)%Z
                  (DomainOperationError "queue_overloaded" true);
            match _creation_record d2 tenant_id (run_session_id run) idempotency_key with
            | None =>
                d3 ← insert_run d2 values;
                d4 ← (match submission with
                      | Some s => _insert_initial_state d3 tenant_id s message_id plan_id
                      | None => Ok d3
                      end);
                Ok (mkRunCreationResult run true, d4)
            | Some existing =>
                res ← _existing_creation existing creation_hash;
                Ok (res, d2)
            end
        end
    end).

(** Both entry points publish a wake-up for the resulting run after commit. *)
Definition create_idempotent (cfg : QueueConfig) (digest : json → pystr) (d : Db)
    (tenant_id : uuid) (run : Run) (idempotency_key creation_hash : pystr)
    : result (RunCreationResult * uuid * Db) :=
  '(res, d') ← _create cfg digest d tenant_id run idempotency_key creation_hash None 0%N 0%N;
  Ok (res, run_id (creation_run res), d').

Definition create_submission (cfg : QueueConfig) (digest : json → pystr) (d : Db)
    (tenant_id : uuid) (submission : RunSubmission) (idempotency_key creation_hash : pystr)
    (message_id plan_id : uuid) : result (RunCreationResult * uuid * Db) :=
  '(res, d') ← _create cfg digest d tenant_id (sub_run submission) idempotency_key creation_hash
                 (Some submission) message_id plan_id;
  Ok (res, run_id (creation_run res), d').

(** ** Rewind *)

Definition MAX_TRANSCRIPT_SUFFIX_MESSAGES : nat := 4096.

Definition rewind_message_invalid : error := DomainOperationError "rewind_message_invalid" false.

(** ORDER BY sequence *)
Definition sequence_le (a b : MessageRecord) : Prop := (msg_sequence a <= msg_sequence b)%Z.
#[export] Instance sequence_le_dec : RelDecision sequence_le.
Proof. intros a b. unfold sequence_le. apply _. Defined.

(** The loop over the branch rows: messages without a transcript position stay,
    positions up to the checkpoint stay once each. *)
Fixpoint retain_messages (limit : Z) (seen : list Z) (rows : list MessageRecord)
    : result (list MessageRecord) :=
  match rows with
  | [] => Ok []
  | message :: rows =>
      _ ← ensure (is_json_object (msg_metadata message)) rewind_message_invalid;
      match json_get (msg_metadata message) (py "transcript_index") with
      | None | Some JNull =>
          rest ← retain_messages limit seen rows;
          Ok (message :: rest)
      | Some (JInt transcript_index) =>
          _ ← ensure (1 <=? transcript_index)%Z rewind_message_invalid;
          if (transcript_index <=? limit)%Z then
            _ ← ensure (negb (bool_decide (transcript_index ∈ seen))) rewind_message_invalid;
            rest ← retain_messages limit (transcript_index :: seen) rows;
            Ok (message :: rest)
          else retain_messages limit seen rows
      | Some _ => Err rewind_message_invalid
      end
  end.

Section Rewind.
Variable message_uuid : uuid → Z → uuid → uuid.
Variable plan_uuid : uuid → Z → uuid.

(** The copies get consecutive sequence numbers after the session's last one. *)
Fixpoint copy_messages (now : timestamp) (run : RunRecord) (tenant_id : uuid) (epoch : Z)
    (next_sequence : Z) (rows : list MessageRecord) (d : Db) : result Db :=
  match rows with
  | [] => Ok d
  | message :: rows =>
      d1 ← insert_message d (mkMessageRecord (message_uuid (rr_id run) epoch (msg_id message))
             tenant_id (rr_session_id run) (rr_id run) epoch next_sequence (msg_role message)
             (msg_content message) (msg_metadata message) now);
      copy_messages now run tenant_id epoch (next_sequence + 1) rows d1
  end.

(** The rows of the checkpoint's branch written no later than the checkpoint. *)
Definition branch_messages (d : Db) (tenant_id : uuid) (run : RunRecord)
    (checkpoint : CheckpointRecord) : list MessageRecord :=
  take (MAX_TRANSCRIPT_SUFFIX_MESSAGES + 1) (merge_sort sequence_le
    (select_where (λ m, bool_decide (msg_tenant_id m = tenant_id)
                        && bool_decide (msg_run_id m = rr_id run)
                        && (msg_execution_epoch m =? cp_execution_epoch checkpoint)%Z
                        && (msg_created_at m <=? cp_created_at checkpoint)%Z) (messages d))).

Definition _seed_rewind_branch (now : timestamp) (d : Db) (tenant_id : uuid) (run : RunRecord)
    (checkpoint_id : uuid) (checkpoint : CheckpointRecord) (execution_epoch : Z) : result Db :=
  _ ← ensure ((0 <=? cp_message_sequence checkpoint)%Z
              && (cp_message_sequence checkpoint <=? Z.of_nat MAX_TRANSCRIPT_SUFFIX_MESSAGES)%Z)
        (DomainOperationError "rewind_checkpoint_invalid" false);
  let rows := branch_messages d tenant_id run checkpoint in
  _ ← ensure (length rows <=? MAX_TRANSCRIPT_SUFFIX_MESSAGES)%nat
        (DomainOperationError "rewind_context_limit" false);
  retained ← retain_messages (cp_message_sequence checkpoint) [] rows;
  let next_sequence := (max_sequence d tenant_id (rr_session_id run) + 1)%Z in
  d1 ← copy_messages now run tenant_id execution_epoch next_sequence retained d;
  insert_plan d1 (plan_uuid checkpoint_id execution_epoch)
    (mkTaskPlanRecord tenant_id (rr_id run) execution_epoch 1 (cp_task_plan checkpoint) now).

(** The literal error payloads of a rewind. *)
Definition superseded_error (code message : string) : json :=
  JObject [(py "code", JString (py code)); (py "details", JObject []);
           (py "message", JString (py message)); (py "retryable", JBool false)].

Definition supersede_compaction (now : timestamp) (tenant_id session_id : uuid)
    (c : ContextCompactionRecord) : ContextCompactionRecord :=
  if bool_decide (cc_tenant_id c = tenant_id) && bool_decide (cc_session_id c = session_id)
     && bool_decide (cc_status c = COMPACTION_PENDING)
  then mkContextCompaction (cc_id c) (cc_tenant_id c) (cc_session_id c) (cc_context_generation c)
         COMPACTION_FAILED (cc_idempotency_key c) (cc_source_message_sequence c) (cc_route_name c)
         (cc_summary c) (cc_input_tokens c) (cc_output_tokens c)
         (Some (superseded_error "context_compaction_superseded" "the source conversation was rewound"))
         (cc_requested_at c) (Some (Z.max now (cc_requested_at c)))
  else c.

Definition supersede_memory_job (now : timestamp) (tenant_id run_id : uuid) (epoch : Z)
    (key : uuid * uuid * Z) (j : MemoryExtractionJobRecord) : MemoryExtractionJobRecord :=
  if bool_decide (key = (tenant_id, run_id, epoch))
     && bool_decide (mj_status j ∈ [JOB_PENDING; JOB_RUNNING])
  then
    let started := default (mj_created_at j) (mj_started_at j) in
    mkMemoryJob (mj_session_id j) JOB_FAILED (mj_source_message_sequence j) (mj_attempt j)
      None None (mj_lease_generation j) None
      (Some (superseded_error "memory_extraction_superseded" "the source run was rewound"))
      (mj_created_at j) (Some started)
      (Some (Z.max now (Z.max (mj_created_at j) started)))
  else j.

Definition bump_context_generation (s : SessionRecord) : SessionRecord :=
  mkSessionRecord (sess_id s) (sess_tenant_id s) (sess_workspace_id s) (sess_approval_mode s)
    (sess_model_route s)
    (sess_memory_enabled s) (sess_context_generation s + 1).

(** The checkpoint row of this very run. *)
Definition run_checkpoint (d : Db) (tenant_id run_id checkpoint_id : uuid)
    : option CheckpointRecord :=
  match checkpoints d !! checkpoint_id with
  | Some c => if bool_decide (cp_tenant_id c = tenant_id) && bool_decide (cp_run_id c = run_id)
              then Some c else None
  | None => None
  end.

(** [now] is the transaction's database clock. *)
Definition rewind (now : timestamp) (d : Db) (tenant_id run_id checkpoint_id : uuid)
    : result (option Run * Db) :=
  commit (
    match tenant_run d tenant_id run_id with
    | None => Ok (None, d)
    | Some row =>
        match run_checkpoint d tenant_id run_id checkpoint_id with
        | None => Ok (None, d)
        | Some checkpoint =>
            session ← require (joined_session d row)
                        (DomainOperationError "rewind_session_missing" true);
            run ← _run_domain row;
            rewound ← rewind_run run checkpoint_id;
            d1 ← _seed_rewind_branch now d tenant_id row checkpoint_id checkpoint
                   (run_execution_epoch rewound);
            let d2 := set_sessions d1
              (<[sess_id session := bump_context_generation session]> (sessions d1)) in
            let d3 := set_compactions d2
              (supersede_compaction now tenant_id (rr_session_id row) <$> compactions d2) in
            let d4 := set_memory_jobs d3
              (map_imap (λ key j, Some (supersede_memory_job now tenant_id run_id
                 (rr_execution_epoch row) key j)) (memory_jobs d3)) in
            Ok (Some rewound,
                put_run d4 (set_retry_ready_at (_apply_run row rewound) None))
        end
    end).
End Rewind.
