(* ===== verification/Approvals.v ===== *)
(** * Durable approvals

    [PostgresApprovalRepository.decide] and
    [PostgresExecutionRepository.create_approval_fenced] of
    [platform_persistence/repositories.py], with [PersistedApproval] and
    [ApprovalDecision] of [agent_core/control.py]: the worker records a pending
    approval under its lease, a person decides it, and the decision resumes a
    run that waits for its last approval. *)

From stdpp Require Import base list gmap strings.
From Stdlib Require Import ZArith Lia.
From S2P Require Import Prelude PyBase Domain Tables Contracts RunQueue RunRepository.

(** ** Contracts *)

Record PersistedApproval := mkPersistedApproval {
  pa_id : uuid;
  pa_run_id : uuid;
  pa_execution_epoch : Z;
  pa_status : ApprovalStatus;
  pa_reason : pystr;
  pa_arguments : json;
  pa_decided_by : option pystr;
  pa_requested_at : timestamp;
  pa_decided_at : option timestamp;
  pa_response : option pystr;
}.

#[export] Instance PersistedApproval_eq_dec : EqDecision PersistedApproval.
Proof. solve_decision. Defined.

(** [PersistedApproval.validate_decision] *)
Definition validate_persisted_approval (a : PersistedApproval) : result PersistedApproval :=
  _ ← ensure (1 <=? pa_execution_epoch a)%Z (ValidationError "execution_epoch");
  _ ← ensure (is_json_object (pa_arguments a)) (ValidationError "arguments");
  _ ← (if bool_decide (pa_status a = PENDING)
       then ensure (is_none (pa_decided_by a) && is_none (pa_decided_at a)
                    && is_none (pa_response a))
              (ValidationError "pending approval may not contain decision metadata")
       else ensure (is_some (pa_decided_by a) && is_some (pa_decided_at a))
              (ValidationError "decided approval requires subject and timestamp"));
  _ ← ensure (match pa_decided_at a with
              | Some t => (pa_requested_at a <=? t)%Z
              | None => true
              end) (ValidationError "approval decision may not precede its request");
  _ ← ensure (match pa_response a with
              | Some t => (utf8_len t <=? 65536)%N
              | None => true
              end) (ValidationError "approval response exceeds its UTF-8 byte limit");
  Ok a.

Record ApprovalDecision := mkApprovalDecision {
  dec_approved : bool;
  dec_decided_by : pystr;
  dec_decided_at : timestamp;
  dec_response : option pystr;
}.

Definition _approval_domain (r : ApprovalRecord) : result PersistedApproval :=
  validate_persisted_approval
    (mkPersistedApproval (ap_id r) (ap_run_id r) (ap_execution_epoch r) (ap_status r)
       (ap_reason r) (ap_arguments r) (ap_decided_by r) (ap_requested_at r) (ap_decided_at r)
       (ap_response r)).

Definition put_approval (d : Db) (a : ApprovalRecord) : Db :=
  set_approvals d (<[ap_id a := a]> (approvals d)).

(** ** Recording a pending approval *)

(** [PostgresExecutionRepository.create_approval], without the fence *)
Definition create_approval (d : Db) (tenant_id : uuid) (approval : PersistedApproval)
    (tool_call_id : option pystr) : result (PersistedApproval * Db) :=
  commit (
    _ ← ensure (is_none (approvals d !! pa_id approval)) integrity_error;
    Ok (approval, put_approval d
          (mkApprovalRecord (pa_id approval) tenant_id (pa_run_id approval)
             (pa_execution_epoch approval) tool_call_id (pa_status approval) (pa_reason approval)
             (pa_arguments approval) (pa_decided_by approval) (pa_requested_at approval)
             (pa_decided_at approval) (pa_response approval)))).

(** [now] is the database clock of the fence. *)
Definition create_approval_fenced (now : timestamp) (d : Db) (lease : RunLease)
    (approval : PersistedApproval) (tool_call_id : pystr) : result (PersistedApproval * Db) :=
  _ ← ensure (bool_decide (pa_run_id approval = lease_run_id lease)
              && (pa_execution_epoch approval =? lease_execution_epoch lease)%Z)
        (DomainOperationError "approval_run_mismatch" false);
  commit (
    _ ← assert_active_run_lease d now lease;
    tool ← require (tool_calls d !! (lease_tenant_id lease, lease_run_id lease,
                                     lease_execution_epoch lease, tool_call_id))
             (DomainOperationError "approval_tool_state_conflict" false);
    _ ← ensure (bool_decide (tc_status tool = TOOL_WAITING_APPROVAL))
          (DomainOperationError "approval_tool_state_conflict" false);
    let found := match approvals d !! pa_id approval with
                 | Some row =>
                     if bool_decide (ap_tenant_id row = lease_tenant_id lease)
                        && bool_decide (ap_run_id row = lease_run_id lease)
                        && (ap_execution_epoch row =? lease_execution_epoch lease)%Z
                     then Some row else None
                 | None => None
                 end in
    match found with
    | None =>
        _ ← ensure (is_none (approvals d !! pa_id approval)) integrity_error;
        Ok (approval, put_approval d
              (mkApprovalRecord (pa_id approval) (lease_tenant_id lease) (lease_run_id lease)
                 (lease_execution_epoch lease) (Some tool_call_id) (pa_status approval)
                 (pa_reason approval) (pa_arguments approval) (pa_decided_by approval)
                 (pa_requested_at approval) (pa_decided_at approval) (pa_response approval)))
    | Some row =>
        existing ← _approval_domain row;
        _ ← ensure (bool_decide (existing = approval)
                    && bool_decide (ap_tool_call_id row = Some tool_call_id))
              (DomainOperationError "approval_id_conflict" false);
        Ok (existing, d)
    end).

(** ** Deciding *)

(** The approval of this run at its current execution epoch. *)
Definition current_approval (d : Db) (tenant_id run_id approval_id : uuid)
    : option ApprovalRecord :=
  match approvals d !! approval_id, runs d !! run_id with
  | Some a, Some r =>
      if bool_decide (rr_tenant_id r = ap_tenant_id a)
         && bool_decide (ap_tenant_id a = tenant_id) && bool_decide (ap_run_id a = run_id)
         && (ap_execution_epoch a =? rr_execution_epoch r)%Z
      then Some a else None
  | _, _ => None
  end.

Definition pending_approvals (d : Db) (tenant_id run_id : uuid) (epoch : Z) : nat :=
  count_where (λ a, bool_decide (ap_tenant_id a = tenant_id) && bool_decide (ap_run_id a = run_id)
                    && (ap_execution_epoch a =? epoch)%Z && bool_decide (ap_status a = PENDING))
    (approvals d).

(** The recorded answer is the one now given. *)
Definition same_decision (a : ApprovalRecord) (status : ApprovalStatus)
    (decision : ApprovalDecision) : bool :=
  bool_decide (ap_status a = status)
  && bool_decide (ap_decided_by a = Some (dec_decided_by decision))
  && bool_decide (ap_response a = dec_response decision).

Definition set_decision (a : ApprovalRecord) (status : ApprovalStatus)
    (decision : ApprovalDecision) : ApprovalRecord :=
  mkApprovalRecord (ap_id a) (ap_tenant_id a) (ap_run_id a) (ap_execution_epoch a)
    (ap_tool_call_id a) status (ap_reason a) (ap_arguments a) (Some (dec_decided_by decision))
    (ap_requested_at a) (Some (dec_decided_at decision)) (dec_response decision).

Definition requires_response (d : Db) (a : ApprovalRecord) : bool :=
  match ap_tool_call_id a with
  | Some t =>
      match tool_calls d !! (ap_tenant_id a, ap_run_id a, ap_execution_epoch a, t) with
      | Some tool => bool_decide (tc_tool_name tool = py "ask_user")
      | None => false
      end
  | None => false
  end.

(** Kept in a module of its own: the name is also a function of the library. *)
Module ApprovalRepository.

(** Returns the decided approval and, after commit, whether the run is woken. *)
Definition decide (d : Db) (tenant_id run_id approval_id : uuid) (decision : ApprovalDecision)
    : result (option PersistedApproval * bool * Db) :=
  let status := if dec_approved decision then APPROVED else REJECTED in
  '(res, did_resume, d') ← commit (
    match current_approval d tenant_id run_id approval_id with
    | None => Ok (None, false, d)
    | Some row =>
        _ ← ensure (negb (dec_approved decision && requires_response d row
                          && is_none (dec_response decision)))
              (DomainOperationError "interaction_response_required" false);
        if negb (bool_decide (ap_status row = PENDING)) then
          _ ← ensure (same_decision row status decision)
                (DomainOperationError "approval_decision_conflict" false);
          res ← _approval_domain row;
          Ok (Some res, false, d)
        else
          let row' := set_decision row status decision in
          let d1 := put_approval d row' in
          run_row ← require (tenant_run d1 tenant_id run_id)
                      (DomainOperationError "persistence_conflict" true);
          '(did_resume, d2) ←
            (if bool_decide (rr_status run_row = WAITING_APPROVAL)
                && (pending_approvals d1 tenant_id run_id (ap_execution_epoch row) =? 0)%nat
             then
               run ← _run_domain run_row;
               resumed ← transition_run run QUEUED (utc (dec_decided_at decision)) None None;
               Ok (true, put_run d1 (_apply_run run_row resumed))
             else Ok (false, d1));
          res ← _approval_domain row';
          Ok (Some res, did_resume, d2)
    end);
  Ok (res, did_resume, d').

End ApprovalRepository.
