(* ===== verification/Transcripts.v ===== *)
(** * Gateway messages and the durable transcript

    [GatewayMessage] of [agent_core/gateway.py] with its JSON form, and
    [PostgresExecutionRepository.append_transcript_fenced] of
    [platform_persistence/repositories.py], which journals the messages of a turn
    under the run lease.

    [encoded_size] stands for the length of [model_dump_json], [message_id] for
    the name-based identifier of a transcript position (run, epoch, index). *)

From stdpp Require Import base list sets gmap strings.
From Stdlib Require Import ZArith Lia.
From S2P Require Import Prelude PyBase Domain Tables Contracts RunQueue RunRepository.

(** ** Messages *)

Record GatewayToolCall := mkGatewayToolCall {
  gtc_id : pystr;
  gtc_name : pystr;
  gtc_arguments : json;
}.

Record GatewayMessage := mkGatewayMessage {
  gm_role : MessageRole;
  gm_content : pystr;
  gm_tool_call_id : option pystr;
  gm_tool_calls : list GatewayToolCall;
}.

#[export] Instance GatewayToolCall_eq_dec : EqDecision GatewayToolCall.
Proof. solve_decision. Defined.
#[export] Instance GatewayMessage_eq_dec : EqDecision GatewayMessage.
Proof. solve_decision. Defined.

Definition validate_gateway_tool_call (c : GatewayToolCall) : result GatewayToolCall :=
  id ← identifier_string (gtc_id c);
  name ← name_string (gtc_name c);
  _ ← ensure (is_json_object (gtc_arguments c)) (ValidationError "arguments");
  Ok (mkGatewayToolCall id name (gtc_arguments c)).

Definition is_nil {A} (l : list A) : bool := match l with [] => true | _ => false end.

(** [GatewayMessage.validate_role_fields] *)
Definition validate_role_fields (m : GatewayMessage) : result unit :=
  match gm_role m with
  | SYSTEM | USER =>
      _ ← ensure (negb (is_nil (gm_content m))) (ValidationError "message must contain content");
      ensure (is_none (gm_tool_call_id m) && is_nil (gm_tool_calls m))
        (ValidationError "message may not contain tool-call fields")
  | ASSISTANT =>
      _ ← ensure (negb (is_nil (gm_content m) && is_nil (gm_tool_calls m)))
            (ValidationError "assistant message must contain content or tool calls");
      ensure (is_none (gm_tool_call_id m))
        (ValidationError "assistant message may not contain tool_call_id")
  | TOOL =>
      _ ← ensure (is_some (gm_tool_call_id m))
            (ValidationError "tool message must contain tool_call_id");
      _ ← ensure (negb (is_nil (gm_content m))) (ValidationError "tool message must contain content");
      ensure (is_nil (gm_tool_calls m)) (ValidationError "tool message may not contain tool_calls")
  end.

Definition validate_gateway_message (m : GatewayMessage) : result GatewayMessage :=
  tool_call_id ← validate_optional identifier_string (gm_tool_call_id m);
  tool_calls ← traverse validate_gateway_tool_call (gm_tool_calls m);
  let m := mkGatewayMessage (gm_role m) (gm_content m) tool_call_id tool_calls in
  _ ← validate_role_fields m;
  Ok m.

(** ** JSON form *)

Definition role_value (r : MessageRole) : pystr :=
  match r with
  | SYSTEM => py "system" | USER => py "user" | ASSISTANT => py "assistant" | TOOL => py "tool"
  end.

Definition role_of_value (s : pystr) : result MessageRole :=
  if bool_decide (s = py "system") then Ok SYSTEM
  else if bool_decide (s = py "user") then Ok USER
  else if bool_decide (s = py "assistant") then Ok ASSISTANT
  else if bool_decide (s = py "tool") then Ok TOOL
  else Err (ValidationError "role").

Definition tool_call_json (c : GatewayToolCall) : json :=
  JObject [(py "arguments", gtc_arguments c); (py "id", JString (gtc_id c));
           (py "name", JString (gtc_name c))].

Definition optional_string_json (o : option pystr) : json :=
  match o with Some s => JString s | None => JNull end.

(** [model_dump(mode="json", exclude={"role", "content"})] *)
Definition tool_fields (m : GatewayMessage) : list (pystr * json) :=
  [(py "tool_call_id", optional_string_json (gm_tool_call_id m));
   (py "tool_calls", JArray (tool_call_json <$> gm_tool_calls m))].

(** [model_dump(mode="json")] *)
Definition message_json (m : GatewayMessage) : json :=
  JObject ((py "content", JString (gm_content m)) :: (py "role", JString (role_value (gm_role m)))
           :: tool_fields m).

Definition tool_call_of_json (j : json) : result GatewayToolCall :=
  _ ← closed_object j [py "arguments"; py "id"; py "name"];
  id ← required_string j "id";
  name ← required_string j "name";
  arguments ← require (json_get j (py "arguments")) (ValidationError "arguments");
  validate_gateway_tool_call (mkGatewayToolCall id name arguments).

Definition optional_string_of_json (o : option json) : result (option pystr) :=
  match o with
  | None | Some JNull => Ok None
  | Some (JString s) => Ok (Some s)
  | Some _ => Err (ValidationError "string or null expected")
  end.

(** [GatewayMessage.model_validate] *)
Definition message_of_json (j : json) : result GatewayMessage :=
  _ ← closed_object j [py "content"; py "role"; py "tool_call_id"; py "tool_calls"];
  role ← required_string j "role";
  role ← role_of_value role;
  content ← (match json_get j (py "content") with
             | None => Ok []
             | Some (JString s) => Ok s
             | Some _ => Err (ValidationError "content")
             end);
  tool_call_id ← optional_string_of_json (json_get j (py "tool_call_id"));
  tool_calls ← (match json_get j (py "tool_calls") with
                | None => Ok []
                | Some (JArray l) => traverse tool_call_of_json l
                | Some _ => Err (ValidationError "tool_calls")
                end);
  validate_gateway_message (mkGatewayMessage role content tool_call_id tool_calls).

(** ** The journal *)

Definition MAX_TRANSCRIPT_SUFFIX_BYTES : Z := 8 * 1024 * 1024.

Definition transcript_metadata (m : GatewayMessage) (transcript_index : Z) : json :=
  JObject (tool_fields m ++ [(py "transcript_index", JInt transcript_index)]).

Section Transcripts.
Variable encoded_size : GatewayMessage → Z.
Variable message_id : uuid → Z → Z → uuid.

Definition encoded_bytes (messages : list GatewayMessage) : Z :=
  foldr (λ m acc, (encoded_size m + acc)%Z) 0%Z messages.

Definition tenant_message (d : Db) (tenant_id id : uuid) : option MessageRecord :=
  match messages d !! id with
  | Some row => if bool_decide (msg_tenant_id row = tenant_id) then Some row else None
  | None => None
  end.

(** The durable row already holds this message at this position. *)
Definition same_transcript_row (row : MessageRecord) (lease : RunLease) (m : GatewayMessage)
    (transcript_index : Z) : bool :=
  bool_decide (msg_session_id row = lease_session_id lease)
  && bool_decide (msg_run_id row = lease_run_id lease)
  && (msg_execution_epoch row =? lease_execution_epoch lease)%Z
  && bool_decide (msg_role row = gm_role m)
  && bool_decide (msg_content row = gm_content m)
  && bool_decide (msg_metadata row = transcript_metadata m transcript_index).

Definition transcript_row (lease : RunLease) (occurred_at : timestamp) (m : GatewayMessage)
    (transcript_index sequence : Z) : MessageRecord :=
  mkMessageRecord (message_id (lease_run_id lease) (lease_execution_epoch lease) transcript_index)
    (lease_tenant_id lease) (lease_session_id lease) (lease_run_id lease)
    (lease_execution_epoch lease) sequence (gm_role m) (gm_content m)
    (transcript_metadata m transcript_index) occurred_at.

(** The loop over the suffix: rows found before it must agree, the others are
    added with consecutive sequence numbers. *)
Fixpoint append_messages (before : Db) (lease : RunLease) (occurred_at : timestamp)
    (transcript_index next_sequence : Z) (suffix : list GatewayMessage) (d : Db) : result Db :=
  match suffix with
  | [] => Ok d
  | m :: suffix =>
      let id := message_id (lease_run_id lease) (lease_execution_epoch lease) transcript_index in
      match tenant_message before (lease_tenant_id lease) id with
      | Some row =>
          _ ← ensure (same_transcript_row row lease m transcript_index)
                (DomainOperationError "transcript_message_conflict" false);
          append_messages before lease occurred_at (transcript_index + 1) next_sequence suffix d
      | None =>
          d1 ← insert_message d (transcript_row lease occurred_at m transcript_index next_sequence);
          append_messages before lease occurred_at (transcript_index + 1) (next_sequence + 1) suffix d1
      end
  end.

Definition append_transcript_fenced (now : timestamp) (d : Db) (lease : RunLease)
    (start_index : Z) (suffix : list GatewayMessage) (occurred_at : timestamp)
    : result (unit * Db) :=
  _ ← ensure (0 <=? start_index)%Z
        (ValueError "transcript start index must be a nonnegative integer");
  _ ← ensure ((1 <=? length suffix)%nat && (length suffix <=? MAX_TRANSCRIPT_SUFFIX_MESSAGES)%nat)
        (ValueError "transcript suffix must contain between 1 and 4096 messages");
  _ ← ensure (encoded_bytes suffix <=? MAX_TRANSCRIPT_SUFFIX_BYTES)%Z
        (DomainOperationError "transcript_limit" false);
  commit (
    _ ← assert_active_run_lease d now lease;
    _ ← require (match sessions d !! lease_session_id lease with
                 | Some s => if bool_decide (sess_tenant_id s = lease_tenant_id lease)
                             then Some s else None
                 | None => None
                 end) (DomainOperationError "transcript_session_missing" false);
    let next_sequence := (max_sequence d (lease_tenant_id lease) (lease_session_id lease) + 1)%Z in
    d' ← append_messages d lease occurred_at (start_index + 1) next_sequence suffix d;
    Ok (tt, d')).
End Transcripts.
