(* ===== verification/Execution.v ===== *)
(** * Durable execution records

    The [ToolCall] and [Checkpoint] entities of [agent_core/domain/models.py] and
    the operations of [PostgresExecutionRepository]
    ([platform_persistence/repositories.py]) that store them: replay-safe saving
    of tool calls, and fenced creation and completion of checkpoints.

    [digest] stands for the SHA-256 hex digest of canonical JSON. *)

From stdpp Require Import base list sets gmap strings.
From Stdlib Require Import ZArith Lia.
From S2P Require Import Prelude PyBase Domain Tables Contracts RunQueue RunRepository Transcripts.

(** ** Tool calls *)

Record ToolCall := mkToolCall {
  call_id : pystr;
  call_run_id : uuid;
  call_execution_epoch : Z;
  call_turn_number : Z;
  call_tool_name : pystr;
  call_arguments : json;
  call_argument_hash : pystr;
  call_status : ToolCallStatus;
  call_workspace_version : option pystr;
  call_result : option json;
  call_error : option ErrorDetail;
  call_started_at : option timestamp;
  call_completed_at : option timestamp;
}.

#[export] Instance ToolCall_eq_dec : EqDecision ToolCall.
Proof. solve_decision. Defined.

Definition optional_object (o : option json) : bool :=
  match o with Some j => is_json_object j | None => true end.

Section ToolCalls.
Variable digest : json → pystr.

(** [canonical_argument_hash] *)
Definition canonical_argument_hash (arguments : json) : pystr := digest arguments.

(** [ToolCall.validate_execution] *)
Definition validate_execution (c : ToolCall) : result unit :=
  _ ← ensure (bool_decide (call_argument_hash c = canonical_argument_hash (call_arguments c)))
        (ValidationError "argument_hash does not match canonical arguments");
  _ ← ensure (match call_started_at c, call_completed_at c with
              | Some s, Some e => (s <=? e)%Z
              | _, _ => true
              end) (ValidationError "completed_at may not precede started_at");
  _ ← ensure (negb (bool_decide (call_status c ∈ [TOOL_RUNNING; TOOL_COMPLETED])
                    && is_none (call_started_at c)))
        (ValidationError "tool call must have started_at");
  _ ← (if is_terminal_tool_status (call_status c)
       then ensure (is_some (call_completed_at c)) (ValidationError "tool call must have completed_at")
       else ensure (is_none (call_completed_at c))
              (ValidationError "non-terminal tool call may not have completed_at"));
  match call_status c with
  | TOOL_COMPLETED =>
      ensure (is_some (call_result c) && is_none (call_error c))
        (ValidationError "completed tool call requires only a result")
  | TOOL_FAILED | TOOL_CANCELLED =>
      ensure (is_some (call_error c) && is_none (call_result c))
        (ValidationError "failed or cancelled tool call requires only an error")
  | _ =>
      ensure (is_none (call_result c) && is_none (call_error c))
        (ValidationError "non-terminal tool call may not have a result or error")
  end.

Definition validate_tool_call (c : ToolCall) : result ToolCall :=
  id ← identifier_string (call_id c);
  _ ← ensure (1 <=? call_execution_epoch c)%Z (ValidationError "execution_epoch");
  _ ← ensure (1 <=? call_turn_number c)%Z (ValidationError "turn_number");
  name ← name_string (call_tool_name c);
  _ ← ensure (is_json_object (call_arguments c)) (ValidationError "arguments");
  _ ← ensure (sha256_hex_ok (call_argument_hash c)) (ValidationError "argument_hash");
  version ← validate_optional identifier_string (call_workspace_version c);
  _ ← ensure (optional_object (call_result c)) (ValidationError "result");
  error_ ← validate_optional validate_error_detail (call_error c);
  let c := mkToolCall id (call_run_id c) (call_execution_epoch c) (call_turn_number c) name
    (call_arguments c) (call_argument_hash c) (call_status c) version (call_result c) error_
    (call_started_at c) (call_completed_at c) in
  _ ← validate_execution c;
  Ok c.

Definition _tool_call_domain (key : uuid * uuid * Z * pystr) (r : ToolCallRecord)
    : result ToolCall :=
  let '(_, run_id, epoch, tool_call_id) := key in
  error_ ← (match tc_error r with
            | Some e => e ← error_of_json e; Ok (Some e)
            | None => Ok None
            end);
  validate_tool_call (mkToolCall tool_call_id run_id epoch (tc_turn_number r) (tc_tool_name r)
    (tc_arguments r) (tc_argument_hash r) (tc_status r) (tc_workspace_version r) (tc_result r)
    error_ (tc_started_at r) (tc_completed_at r)).

Definition _tool_call_row_matches (r : ToolCallRecord) (c : ToolCall) : bool :=
  bool_decide (tc_status r = call_status c)
  && bool_decide (tc_workspace_version r = call_workspace_version c)
  && bool_decide (tc_result r = call_result c)
  && bool_decide (tc_error r = (error_json <$> call_error c)).

(** [_TOOL_CALL_TRANSITIONS] and [_TOOL_CALL_PREDECESSORS] *)
Definition _tool_call_transitions (s : ToolCallStatus) : list ToolCallStatus :=
  match s with
  | TOOL_RECEIVED => [TOOL_WAITING_APPROVAL; TOOL_RUNNING; TOOL_FAILED; TOOL_CANCELLED]
  | TOOL_WAITING_APPROVAL => [TOOL_RUNNING; TOOL_FAILED; TOOL_CANCELLED]
  | TOOL_RUNNING => [TOOL_COMPLETED; TOOL_FAILED; TOOL_CANCELLED]
  | TOOL_COMPLETED | TOOL_FAILED | TOOL_CANCELLED => []
  end.

Definition _tool_call_predecessors (s : ToolCallStatus) : list ToolCallStatus :=
  match s with
  | TOOL_RECEIVED => []
  | TOOL_WAITING_APPROVAL => [TOOL_RECEIVED]
  | TOOL_RUNNING => [TOOL_RECEIVED; TOOL_WAITING_APPROVAL]
  | TOOL_COMPLETED | TOOL_FAILED | TOOL_CANCELLED =>
      [TOOL_RECEIVED; TOOL_WAITING_APPROVAL; TOOL_RUNNING]
  end.

Definition tool_call_row (c : ToolCall) : ToolCallRecord :=
  mkToolCallRecord (call_turn_number c) (call_tool_name c) (call_arguments c)
    (call_argument_hash c) (call_status c) (call_workspace_version c) (call_result c)
    (error_json <$> call_error c) (call_started_at c) (call_completed_at c).

Definition tool_call_key (tenant_id : uuid) (c : ToolCall) : uuid * uuid * Z * pystr :=
  (tenant_id, call_run_id c, call_execution_epoch c, call_id c).

Definition put_tool_call (d : Db) (key : uuid * uuid * Z * pystr) (r : ToolCallRecord) : Db :=
  set_tool_calls d (<[key := r]> (tool_calls d)).

Definition _save_tool_call (d : Db) (tenant_id : uuid) (c : ToolCall) : result (ToolCall * Db) :=
  let key := tool_call_key tenant_id c in
  match tool_calls d !! key with
  | None => Ok (c, put_tool_call d key (tool_call_row c))
  | Some row =>
      if negb (bool_decide (tc_argument_hash row = call_argument_hash c)
               && bool_decide (tc_tool_name row = call_tool_name c)
               && (tc_turn_number row =? call_turn_number c)%Z
               && bool_decide (tc_arguments row = call_arguments c))
      then Err (DomainOperationError "tool_call_id_conflict" false)
      else if _tool_call_row_matches row c then
        stored ← _tool_call_domain key row;
        Ok (stored, d)
      else if bool_decide (call_status c ∈ _tool_call_predecessors (tc_status row)) then
        stored ← _tool_call_domain key row;
        Ok (stored, d)
      else if bool_decide (call_status c ∈ _tool_call_transitions (tc_status row)) then
        Ok (c, put_tool_call d key
                 (mkToolCallRecord (tc_turn_number row) (tc_tool_name row) (tc_arguments row)
                    (tc_argument_hash row) (call_status c) (call_workspace_version c)
                    (call_result c) (error_json <$> call_error c) (call_started_at c)
                    (call_completed_at c)))
      else Err (DomainOperationError "tool_call_state_conflict" false)
  end.

Definition save_tool_call (d : Db) (tenant_id : uuid) (c : ToolCall) : result (ToolCall * Db) :=
  commit (_save_tool_call d tenant_id c).

Definition save_tool_call_fenced (now : timestamp) (d : Db) (lease : RunLease) (c : ToolCall)
    : result (ToolCall * Db) :=
  _ ← ensure (bool_decide (call_run_id c = lease_run_id lease)
              && (call_execution_epoch c =? lease_execution_epoch lease)%Z)
        (DomainOperationError "tool_call_run_mismatch" false);
  commit (
    _ ← assert_active_run_lease d now lease;
    _save_tool_call d (lease_tenant_id lease) c).
End ToolCalls.

(** ** Checkpoints *)

Record Checkpoint := mkCheckpoint {
  chk_id : uuid;
  chk_run_id : uuid;
  chk_session_id : uuid;
  chk_execution_epoch : Z;
  chk_tool_call_id : pystr;
  chk_message_sequence : Z;
  chk_messages : list json;
  chk_workspace_snapshot_uri : pystr;
  chk_workspace_revision : pystr;
  chk_task_plan : json;
  chk_context_summary : option pystr;
  chk_created_at : timestamp;
}.

#[export] Instance Checkpoint_eq_dec : EqDecision Checkpoint.
Proof. solve_decision. Defined.

Definition validate_checkpoint (c : Checkpoint) : result Checkpoint :=
  _ ← ensure (1 <=? chk_execution_epoch c)%Z (ValidationError "execution_epoch");
  tool_call_id ← identifier_string (chk_tool_call_id c);
  _ ← ensure (0 <=? chk_message_sequence c)%Z (ValidationError "message_sequence");
  _ ← ensure (forallb is_json_object (chk_messages c)
              && (Z.of_nat (length (chk_messages c)) <=? 4096)%Z) (ValidationError "messages");
  let uri := strip_by is_white_space (chk_workspace_snapshot_uri c) in
  _ ← ensure (1 <=? length uri)%nat (ValidationError "workspace_snapshot_uri");
  revision ← identifier_string (chk_workspace_revision c);
  _ ← ensure (is_json_object (chk_task_plan c)) (ValidationError "task_plan");
  _ ← ensure (is_nil (chk_messages c)
              || (Z.of_nat (length (chk_messages c)) =? chk_message_sequence c)%Z)
        (ValidationError "checkpoint messages must match message_sequence");
  Ok (mkCheckpoint (chk_id c) (chk_run_id c) (chk_session_id c) (chk_execution_epoch c)
        tool_call_id (chk_message_sequence c) (chk_messages c) uri revision (chk_task_plan c)
        (chk_context_summary c) (chk_created_at c)).

Definition checkpoint_row (tenant_id : uuid) (c : Checkpoint) : CheckpointRecord :=
  mkCheckpointRecord (chk_id c) tenant_id (chk_run_id c) (chk_session_id c)
    (chk_execution_epoch c) (chk_tool_call_id c) (chk_message_sequence c) (chk_messages c)
    (chk_workspace_snapshot_uri c) (chk_workspace_revision c) None None (chk_task_plan c)
    (chk_context_summary c) (chk_created_at c).

(** The entity of a row, with the given workspace state. *)
Definition row_checkpoint (r : CheckpointRecord) (uri revision : pystr) : result Checkpoint :=
  validate_checkpoint (mkCheckpoint (cp_id r) (cp_run_id r) (cp_session_id r)
    (cp_execution_epoch r) (cp_tool_call_id r) (cp_message_sequence r) (cp_messages r) uri revision
    (cp_task_plan r) (cp_context_summary r) (cp_created_at r)).

Definition put_checkpoint (d : Db) (r : CheckpointRecord) : Db :=
  set_checkpoints d (<[cp_id r := r]> (checkpoints d)).

(** The row of the leased run's branch under this identifier. *)
Definition leased_checkpoint (d : Db) (lease : RunLease) (id : uuid) : option CheckpointRecord :=
  match checkpoints d !! id with
  | Some r =>
      if bool_decide (cp_tenant_id r = lease_tenant_id lease)
         && bool_decide (cp_run_id r = lease_run_id lease)
         && (cp_execution_epoch r =? lease_execution_epoch lease)%Z
      then Some r else None
  | None => None
  end.

Definition create_checkpoint_fenced (now : timestamp) (d : Db) (lease : RunLease) (c : Checkpoint)
    : result (Checkpoint * Db) :=
  _ ← ensure (bool_decide (chk_run_id c = lease_run_id lease)
              && bool_decide (chk_session_id c = lease_session_id lease)
              && (chk_execution_epoch c =? lease_execution_epoch lease)%Z)
        (DomainOperationError "checkpoint_run_mismatch" false);
  commit (
    _ ← assert_active_run_lease d now lease;
    match leased_checkpoint d lease (chk_id c) with
    | None =>
        _ ← ensure (is_none (checkpoints d !! chk_id c)) integrity_error;
        Ok (c, put_checkpoint d (checkpoint_row (lease_tenant_id lease) c))
    | Some row =>
        existing ← row_checkpoint row (cp_workspace_snapshot_uri row) (cp_workspace_revision row);
        _ ← ensure (bool_decide (existing = c)) (DomainOperationError "checkpoint_id_conflict" false);
        Ok (existing, d)
    end).

Definition set_completed (r : CheckpointRecord) (uri revision : pystr) : CheckpointRecord :=
  mkCheckpointRecord (cp_id r) (cp_tenant_id r) (cp_run_id r) (cp_session_id r)
    (cp_execution_epoch r) (cp_tool_call_id r) (cp_message_sequence r) (cp_messages r)
    (cp_workspace_snapshot_uri r) (cp_workspace_revision r) (Some uri) (Some revision)
    (cp_task_plan r) (cp_context_summary r) (cp_created_at r).

Definition complete_checkpoint_fenced (now : timestamp) (d : Db) (lease : RunLease)
    (checkpoint_id : uuid) (workspace_snapshot_uri workspace_revision : pystr)
    : result (unit * Db) :=
  commit (
    _ ← assert_active_run_lease d now lease;
    row ← require (leased_checkpoint d lease checkpoint_id)
            (DomainOperationError "checkpoint_not_found" false);
    _ ← ensure (bool_decide ((cp_completed_snapshot_uri row, cp_completed_revision row) ∈
                  [(None, None); (Some workspace_snapshot_uri, Some workspace_revision)]))
          (DomainOperationError "checkpoint_state_conflict" false);
    Ok (tt, put_checkpoint d (set_completed row workspace_snapshot_uri workspace_revision))).

(** [PostgresExecutionRepository.create_checkpoint], without the fence *)
Definition create_checkpoint (d : Db) (tenant_id : uuid) (c : Checkpoint) : result (Checkpoint * Db) :=
  commit (
    _ ← ensure (is_none (checkpoints d !! chk_id c)) integrity_error;
    Ok (c, put_checkpoint d (checkpoint_row tenant_id c))).
