(* ===== verification/Recovery.v ===== *)
(** * Recovery of a run's execution state

    [PostgresRecoveryStore] of [platform_persistence/distributed.py]: the worker
    that claims a run loads the selected checkpoint, the durable transcript, the
    terminal tool outcomes and the tool calls that wait for their decision, with
    the contracts [DurableToolOutcome], [DurablePendingToolCall] and
    [RunRecoveryState] of [agent_core/distributed.py].

    What the code takes from elsewhere is a parameter: [encoded_size] is the
    length of [model_dump_json] of a message, [state_size] of a recovery state,
    [jsonb_text_size] the length of PostgreSQL's text form of a JSON value,
    [text_le] the collation order, [digest] the canonical JSON digest. *)

From stdpp Require Import base list sets gmap strings sorting pretty.
From Stdlib Require Import ZArith Lia.
From S2P Require Import Prelude PyBase Domain Tables Contracts RunQueue RunRepository Transcripts Execution.

Definition MAX_RECOVERY_MESSAGES : nat := 4096.
Definition MAX_RECOVERY_TOOL_OUTCOMES : nat := 100.
Definition MAX_RECOVERY_CONTEXT_BYTES : Z := 8 * 1024 * 1024.
Definition MAX_RECOVERY_TOOL_BYTES : Z := 8 * 1024 * 1024.
Definition MAX_RECOVERY_STATE_BYTES : Z := 16 * 1024 * 1024.
Definition MAX_APPROVAL_RESPONSE_BYTES : N := 65536.

Definition recovery_message_invalid : error := DomainOperationError "recovery_message_invalid" false.
Definition recovery_context_limit : error := DomainOperationError "recovery_context_limit" false.
Definition recovery_tool_limit : error := DomainOperationError "recovery_tool_limit" false.

(** ** Size of [json.dumps(ensure_ascii=False, separators=(",", ":"))] in UTF-8 *)

Definition escaped_size (c : N) : N :=
  if bool_decide (c ∈ [34; 92; 8; 9; 10; 12; 13]%N) then 2
  else if (c <? 32)%N then 6 else utf8_size c.
Definition string_size (s : pystr) : N := (2 + foldr (λ c n, escaped_size c + n) 0 s)%N.
Definition separators {A} (l : list A) : N := N.of_nat (pred (length l)).

Fixpoint json_size (j : json) : N :=
  match j with
  | JNull => 4
  | JBool b => if b then 4 else 5
  | JInt z => N.of_nat (String.length (pretty z))
  | JNumber s => N.of_nat (length s)
  | JString s => string_size s
  | JArray l => (2 + separators l + (fix go l := match l with [] => 0 | x :: l => json_size x + go l end) l)%N
  | JObject l => (2 + separators l
      + (fix go l := match l with [] => 0 | (k, x) :: l => string_size k + 1 + json_size x + go l end) l)%N
  end.

(** ** Contracts *)

Record DurableToolOutcome := mkOutcome {
  out_tool_call_id : pystr;
  out_tool_name : pystr;
  out_turn_number : Z;
  out_argument_hash : pystr;
  out_status : ToolCallStatus;
  out_workspace_version : option pystr;
  out_result : option json;
  out_error : option ErrorDetail;
}.

Definition validate_outcome (o : DurableToolOutcome) : result DurableToolOutcome :=
  id ← identifier_string (out_tool_call_id o);
  name ← name_string (out_tool_name o);
  _ ← ensure (1 <=? out_turn_number o)%Z (ValidationError "turn_number");
  _ ← ensure (sha256_hex_ok (out_argument_hash o)) (ValidationError "argument_hash");
  version ← validate_optional identifier_string (out_workspace_version o);
  _ ← ensure (optional_object (out_result o)) (ValidationError "result");
  _ ← ensure (is_terminal_tool_status (out_status o))
        (ValidationError "durable tool outcome must be terminal");
  _ ← (if bool_decide (out_status o = TOOL_COMPLETED)
       then ensure (is_some (out_result o) && is_none (out_error o))
              (ValidationError "completed durable tool outcome requires only a result")
       else ensure (is_some (out_error o) && is_none (out_result o))
              (ValidationError "failed or cancelled durable tool outcome requires only an error"));
  Ok (mkOutcome id name (out_turn_number o) (out_argument_hash o) (out_status o) version
        (out_result o) (out_error o)).

Record DurablePendingToolCall := mkPending {
  pend_tool_call_id : pystr;
  pend_tool_name : pystr;
  pend_turn_number : Z;
  pend_arguments : json;
  pend_argument_hash : pystr;
  pend_approval_id : option uuid;
  pend_approval_approved : option bool;
  pend_approval_response : option pystr;
}.

Record RunRecoveryState := mkRecoveryState {
  rs_checkpoint : option Checkpoint;
  rs_workspace_restore_revision : option pystr;
  rs_messages : list GatewayMessage;
  rs_task_plan : json;
  rs_context_summary : option pystr;
  rs_prior_tool_outcomes : list DurableToolOutcome;
  rs_approval_mode : ApprovalMode;
  rs_pending_tool_calls : list DurablePendingToolCall;
}.

Section Recovery.
Variable digest : json → pystr.
Variable encoded_size : GatewayMessage → Z.
Variable state_size : RunRecoveryState → Z.
Variable jsonb_text_size : json → Z.
Variable text_le : relation pystr.
Context `{!RelDecision text_le}.

(** [DurablePendingToolCall.validate_approval] after the field constraints *)
Definition validate_pending (p : DurablePendingToolCall) : result DurablePendingToolCall :=
  id ← identifier_string (pend_tool_call_id p);
  name ← name_string (pend_tool_name p);
  _ ← ensure (1 <=? pend_turn_number p)%Z (ValidationError "turn_number");
  _ ← ensure (is_json_object (pend_arguments p)) (ValidationError "arguments");
  _ ← ensure (sha256_hex_ok (pend_argument_hash p)) (ValidationError "argument_hash");
  _ ← ensure (match pend_approval_response p with
              | Some r => (1 <=? length r)%nat && (Z.of_nat (length r) <=? 65536)%Z
              | None => true
              end) (ValidationError "approval_response");
  _ ← ensure (bool_decide (pend_argument_hash p = canonical_argument_hash digest (pend_arguments p)))
        (ValidationError "pending tool argument hash does not match its arguments");
  _ ← ensure (eqb (is_none (pend_approval_id p)) (is_none (pend_approval_approved p)))
        (ValidationError "approval identity and decision must be present together");
  _ ← ensure (is_none (pend_approval_response p) || is_some (pend_approval_id p))
        (ValidationError "approval response requires an approval decision");
  _ ← ensure (match pend_approval_response p with
              | Some r => (utf8_len r <=? MAX_APPROVAL_RESPONSE_BYTES)%N
              | None => true
              end) (ValidationError "approval response exceeds its UTF-8 byte limit");
  Ok (mkPending id name (pend_turn_number p) (pend_arguments p) (pend_argument_hash p)
        (pend_approval_id p) (pend_approval_approved p) (pend_approval_response p)).

(** [RunRecoveryState.validate_outcomes] after the field constraints *)
Definition validate_recovery_state (s : RunRecoveryState) : result RunRecoveryState :=
  let identifiers := out_tool_call_id <$> rs_prior_tool_outcomes s in
  let pending := pend_tool_call_id <$> rs_pending_tool_calls s in
  _ ← ensure ((1 <=? length (rs_messages s))%nat && (length (rs_messages s) <=? 4096)%nat)
        (ValidationError "messages");
  _ ← ensure (is_json_object (rs_task_plan s)) (ValidationError "task_plan");
  _ ← ensure (length identifiers <=? 100)%nat (ValidationError "prior_tool_outcomes");
  _ ← ensure (length pending <=? 100)%nat (ValidationError "pending_tool_calls");
  _ ← ensure (eqb (is_none (rs_checkpoint s)) (is_none (rs_workspace_restore_revision s)))
        (ValidationError "workspace_restore_revision must match the checkpoint");
  _ ← ensure (bool_decide (NoDup identifiers))
        (ValidationError "prior durable tool-call IDs must be unique");
  _ ← ensure (bool_decide (NoDup pending))
        (ValidationError "pending durable tool-call IDs must be unique");
  _ ← ensure (match rs_pending_tool_calls s with
              | [] => true
              | p :: rest => forallb (λ q, (pend_turn_number q =? pend_turn_number p)%Z) rest
              end) (ValidationError "pending durable tool calls must belong to one atomic model turn");
  _ ← ensure (forallb (λ i, negb (bool_decide (i ∈ pending))) identifiers)
        (ValidationError "terminal and pending tool-call IDs must be disjoint");
  _ ← ensure (state_size s <=? MAX_RECOVERY_STATE_BYTES)%Z
        (ValidationError "serialized recovery state exceeds its byte limit");
  Ok s.

(** ** Checkpoint selection *)

(** ORDER BY created_at DESC, id DESC *)
Definition checkpoint_after (a b : CheckpointRecord) : bool :=
  (cp_created_at b <? cp_created_at a)%Z
  || ((cp_created_at a =? cp_created_at b)%Z && (cp_id b <? cp_id a)%N).

Definition _checkpoint (d : Db) (lease : RunLease) : option CheckpointRecord :=
  match lease_checkpoint_id lease with
  | Some id =>
      match checkpoints d !! id with
      | Some r => if bool_decide (cp_tenant_id r = lease_tenant_id lease)
                     && bool_decide (cp_run_id r = lease_run_id lease)
                  then Some r else None
      | None => None
      end
  | None =>
      first_by checkpoint_after
        (select_where (λ r, bool_decide (cp_tenant_id r = lease_tenant_id lease)
                            && bool_decide (cp_run_id r = lease_run_id lease)
                            && (cp_execution_epoch r =? lease_execution_epoch lease)%Z)
           (checkpoints d))
  end.

Definition _checkpoint_domain (r : CheckpointRecord) (prefer_completed : bool) : result Checkpoint :=
  _ ← ensure (eqb (is_none (cp_completed_snapshot_uri r)) (is_none (cp_completed_revision r)))
        (DomainOperationError "recovery_checkpoint_invalid" false);
  row_checkpoint r
    (if prefer_completed then default (cp_workspace_snapshot_uri r) (cp_completed_snapshot_uri r)
     else cp_workspace_snapshot_uri r)
    (if prefer_completed then default (cp_workspace_revision r) (cp_completed_revision r)
     else cp_workspace_revision r).

(** ** Messages *)

Definition as_recovery_message (r : result GatewayMessage) : result GatewayMessage :=
  match r with Ok m => Ok m | Err _ => Err recovery_message_invalid end.

Definition _checkpoint_messages (values : list json) : result (list GatewayMessage) :=
  _ ← ensure (length values <=? MAX_RECOVERY_MESSAGES)%nat recovery_context_limit;
  _ ← ensure (Z.of_N (json_size (JArray values)) <=? MAX_RECOVERY_CONTEXT_BYTES)%Z
        recovery_context_limit;
  traverse (λ v, as_recovery_message (message_of_json v)) values.

Definition object_fields (j : json) : list (pystr * json) :=
  match j with JObject fields => fields | _ => [] end.

Definition _gateway_message (row : MessageRecord) : result GatewayMessage :=
  let metadata := msg_metadata row in
  _ ← ensure (is_none (json_get metadata (py "role")) && is_none (json_get metadata (py "content")))
        recovery_message_invalid;
  as_recovery_message (message_of_json (JObject (
    (py "content", JString (msg_content row))
    :: (py "role", JString (role_value (msg_role row)))
    :: filter (λ kv, kv.1 ∈ [py "tool_call_id"; py "tool_calls"]) (object_fields metadata)))).

(** The journal rows of the leased branch, in order. *)
Definition branch_journal (d : Db) (lease : RunLease) : list MessageRecord :=
  take (MAX_RECOVERY_MESSAGES + 1) (merge_sort sequence_le
    (select_where (λ m, bool_decide (msg_tenant_id m = lease_tenant_id lease)
                        && bool_decide (msg_session_id m = lease_session_id lease)
                        && bool_decide (msg_run_id m = lease_run_id lease)
                        && (msg_execution_epoch m =? lease_execution_epoch lease)%Z) (messages d))).

(** The loop that collects the positions after the checkpoint. *)
Fixpoint collect_suffix (checkpoint_sequence : Z) (row_count : nat) (suffix : gmap Z GatewayMessage)
    (rows : list MessageRecord) : result (gmap Z GatewayMessage) :=
  match rows with
  | [] => Ok suffix
  | row :: rows =>
      let row_count := S row_count in
      _ ← ensure (row_count <=? MAX_RECOVERY_MESSAGES)%nat recovery_context_limit;
      _ ← ensure (is_json_object (msg_metadata row)) recovery_message_invalid;
      match json_get (msg_metadata row) (py "transcript_index") with
      | None | Some JNull => collect_suffix checkpoint_sequence row_count suffix rows
      | Some (JInt transcript_index) =>
          _ ← ensure (1 <=? transcript_index)%Z recovery_message_invalid;
          if (transcript_index <=? checkpoint_sequence)%Z
          then collect_suffix checkpoint_sequence row_count suffix rows
          else
            _ ← ensure (is_none (suffix !! transcript_index)) recovery_message_invalid;
            m ← _gateway_message row;
            collect_suffix checkpoint_sequence row_count (<[transcript_index := m]> suffix) rows
      | Some _ => Err recovery_message_invalid
      end
  end.

(** The messages at positions [start], [start + 1], ..., when these are all. *)
Fixpoint contiguous (start : Z) (n : nat) (suffix : gmap Z GatewayMessage)
    : result (list GatewayMessage) :=
  match n with
  | O => Ok []
  | S n =>
      m ← require (suffix !! start) recovery_message_invalid;
      rest ← contiguous (start + 1) n suffix;
      Ok (m :: rest)
  end.

Definition _checkpoint_messages_with_suffix (d : Db) (lease : RunLease) (values : list json)
    (checkpoint_sequence : Z) : result (list GatewayMessage) :=
  base ← _checkpoint_messages values;
  _ ← ensure (checkpoint_sequence =? Z.of_nat (length base))%Z recovery_message_invalid;
  suffix ← collect_suffix checkpoint_sequence 0 ∅ (branch_journal d lease);
  tail ← contiguous (checkpoint_sequence + 1) (size suffix) suffix;
  let merged := base ++ tail in
  _ ← ensure (length merged <=? MAX_RECOVERY_MESSAGES)%nat recovery_context_limit;
  _ ← ensure (encoded_bytes encoded_size merged <=? MAX_RECOVERY_CONTEXT_BYTES)%Z
        recovery_context_limit;
  Ok merged.

(** [max(sequence)] of the leased branch; NULL when it has no message. *)
Definition branch_cutoff (d : Db) (lease : RunLease) : option Z :=
  match select_where (λ m, bool_decide (msg_tenant_id m = lease_tenant_id lease)
                           && bool_decide (msg_run_id m = lease_run_id lease)
                           && (msg_execution_epoch m =? lease_execution_epoch lease)%Z)
          (messages d) with
  | [] => None
  | m :: rest => Some (foldr (λ m acc, Z.max (msg_sequence m) acc) (msg_sequence m) rest)
  end.

(** A message of the current branch of its run. *)
Definition on_active_branch (d : Db) (m : MessageRecord) : bool :=
  match runs d !! msg_run_id m with
  | Some r => bool_decide (rr_tenant_id r = msg_tenant_id m)
              && (rr_execution_epoch r =? msg_execution_epoch m)%Z
  | None => false
  end.

(** The streaming loop stops with an error at the row after the limit. *)
Fixpoint convert_rows (converted : nat) (rows : list MessageRecord) : result (list GatewayMessage) :=
  match rows with
  | [] => Ok []
  | row :: rows =>
      _ ← ensure (converted <? MAX_RECOVERY_MESSAGES)%nat recovery_context_limit;
      _ ← ensure (is_json_object (msg_metadata row)) recovery_message_invalid;
      m ← _gateway_message row;
      rest ← convert_rows (S converted) rows;
      Ok (m :: rest)
  end.

Definition _messages (d : Db) (lease : RunLease) (message_limit : option Z)
    : result (list GatewayMessage) :=
  let cutoff := match message_limit with None => branch_cutoff d lease | Some n => Some n end in
  let rows := select_where (λ m,
    bool_decide (msg_tenant_id m = lease_tenant_id lease)
    && bool_decide (msg_session_id m = lease_session_id lease)
    && (match cutoff with Some n => (msg_sequence m <=? n)%Z | None => false end)
    && on_active_branch d m) (messages d) in
  let serialized_bytes := foldr (λ m acc,
    Z.of_N (utf8_len (msg_content m)) + jsonb_text_size (msg_metadata m) + acc)%Z 0%Z rows in
  _ ← ensure (serialized_bytes <=? MAX_RECOVERY_CONTEXT_BYTES)%Z recovery_context_limit;
  convert_rows 0 (take (MAX_RECOVERY_MESSAGES + 1) (merge_sort sequence_le rows)).

(** ** Tool calls *)

Definition tool_entry : Type := (uuid * uuid * Z * pystr) * ToolCallRecord.

Definition branch_tool_calls (d : Db) (lease : RunLease) (statuses : list ToolCallStatus)
    : list tool_entry :=
  filter (λ e, e.1.1 = (lease_tenant_id lease, lease_run_id lease, lease_execution_epoch lease)
               ∧ tc_status e.2 ∈ statuses) (map_to_list (tool_calls d)).

(** ORDER BY completed_at, turn_number, tool_call_id *)
Definition outcome_le (a b : tool_entry) : Prop :=
  let ca := default 0%Z (tc_completed_at a.2) in
  let cb := default 0%Z (tc_completed_at b.2) in
  (ca < cb ∨ (ca = cb ∧ (tc_turn_number a.2 < tc_turn_number b.2 ∨
    (tc_turn_number a.2 = tc_turn_number b.2 ∧ text_le a.1.2 b.1.2))))%Z.
#[export] Instance outcome_le_dec : RelDecision outcome_le.
Proof. intros a b. unfold outcome_le. apply _. Defined.

(** ORDER BY turn_number, tool_call_id *)
Definition pending_le (a b : tool_entry) : Prop :=
  (tc_turn_number a.2 < tc_turn_number b.2 ∨
    (tc_turn_number a.2 = tc_turn_number b.2 ∧ text_le a.1.2 b.1.2))%Z.
#[export] Instance pending_le_dec : RelDecision pending_le.
Proof. intros a b. unfold pending_le. apply _. Defined.

Definition outcome_bytes (e : tool_entry) : Z :=
  (Z.of_N (utf8_len e.1.2) + Z.of_N (utf8_len (tc_tool_name e.2))
   + match tc_result e.2 with Some r => jsonb_text_size r | None => 0 end
   + match tc_error e.2 with Some r => jsonb_text_size r | None => 0 end)%Z.

Definition entry_outcome (e : tool_entry) : result DurableToolOutcome :=
  error_ ← (match tc_error e.2 with
            | Some j => d ← error_of_json j; Ok (Some d)
            | None => Ok None
            end);
  validate_outcome (mkOutcome e.1.2 (tc_tool_name e.2) (tc_turn_number e.2)
    (tc_argument_hash e.2) (tc_status e.2) (tc_workspace_version e.2) (tc_result e.2) error_).

Fixpoint collect_outcomes (collected : nat) (rows : list tool_entry)
    : result (list DurableToolOutcome) :=
  match rows with
  | [] => Ok []
  | e :: rows =>
      _ ← ensure (collected <? MAX_RECOVERY_TOOL_OUTCOMES)%nat recovery_tool_limit;
      o ← entry_outcome e;
      rest ← collect_outcomes (S collected) rows;
      Ok (o :: rest)
  end.

Definition completed_since (bound : option timestamp) (t : ToolCallRecord) : bool :=
  match bound, tc_completed_at t with
  | None, _ => true
  | Some b, Some c => (b <=? c)%Z
  | Some _, None => false
  end.

Definition _tool_outcomes (d : Db) (lease : RunLease) (completed_at_or_after : option timestamp)
    : result (list DurableToolOutcome) :=
  let rows := filter (λ e, completed_since completed_at_or_after e.2 = true)
    (branch_tool_calls d lease [TOOL_COMPLETED; TOOL_FAILED; TOOL_CANCELLED]) in
  _ ← ensure (foldr (λ e acc, (outcome_bytes e + acc)%Z) 0%Z rows <=? MAX_RECOVERY_TOOL_BYTES)%Z
        recovery_tool_limit;
  collect_outcomes 0 (take (MAX_RECOVERY_TOOL_OUTCOMES + 1) (merge_sort outcome_le rows)).

(** The approval joined to a tool call: the key of the join is unique in [approvals]
    ([approval_calls_unique]), so the join never doubles a call. *)
Definition call_approval (d : Db) (key : uuid * uuid * Z * pystr) : option ApprovalRecord :=
  let '(tenant, run, epoch, call) := key in
  scalar_where (λ a, bool_decide (ap_tenant_id a = tenant) && bool_decide (ap_run_id a = run)
                     && (ap_execution_epoch a =? epoch)%Z
                     && bool_decide (ap_tool_call_id a = Some call)) (approvals d).

Definition entry_pending (d : Db) (e : tool_entry) : result DurablePendingToolCall :=
  let approval := call_approval d e.1 in
  '(approval_id, approved) ←
    (if bool_decide (tc_status e.2 = TOOL_WAITING_APPROVAL) then
       match approval with
       | Some a =>
           if bool_decide (ap_status a = PENDING)
           then Err (DomainOperationError "recovery_approval_incomplete" true)
           else Ok (Some (ap_id a), Some (bool_decide (ap_status a = APPROVED)))
       | None => Err (DomainOperationError "recovery_approval_incomplete" true)
       end
     else
       match approval with
       | Some _ => Err (DomainOperationError "recovery_approval_invalid" false)
       | None => Ok (None, None)
       end : result (option uuid * option bool));
  validate_pending (mkPending e.1.2 (tc_tool_name e.2) (tc_turn_number e.2) (tc_arguments e.2)
    (tc_argument_hash e.2) approval_id approved
    (match approval with Some a => ap_response a | None => None end)).

Definition _pending_tool_calls (d : Db) (lease : RunLease) : result (list DurablePendingToolCall) :=
  let rows := take (MAX_RECOVERY_TOOL_OUTCOMES + 1) (merge_sort pending_le
    (branch_tool_calls d lease [TOOL_RECEIVED; TOOL_WAITING_APPROVAL])) in
  _ ← ensure (length rows <=? MAX_RECOVERY_TOOL_OUTCOMES)%nat recovery_tool_limit;
  traverse (entry_pending d) rows.

(** ** The recovery state *)

(** ORDER BY version DESC LIMIT 1 *)
Definition latest_plan (d : Db) (lease : RunLease) : option TaskPlanRecord :=
  first_by (λ a b, (tp_version b <? tp_version a)%Z)
    (select_where (λ p, bool_decide (tp_tenant_id p = lease_tenant_id lease)
                        && bool_decide (tp_run_id p = lease_run_id lease)
                        && (tp_execution_epoch p =? lease_execution_epoch lease)%Z) (task_plans d)).

(** Which messages a recovery replays. *)
Definition recovery_messages (d : Db) (lease : RunLease) (row : option CheckpointRecord)
    : result (list GatewayMessage) :=
  match row with
  | None => _messages d lease None
  | Some r =>
      if (cp_execution_epoch r =? lease_execution_epoch lease)%Z then
        if is_nil (cp_messages r) then _messages d lease (Some (cp_message_sequence r))
        else _checkpoint_messages_with_suffix d lease (cp_messages r) (cp_message_sequence r)
      else _messages d lease None
  end.

Definition load (now : timestamp) (d : Db) (lease : RunLease) : result RunRecoveryState :=
  _ ← assert_active_run_lease d now lease;
  let row := _checkpoint d lease in
  _ ← ensure (is_none (lease_checkpoint_id lease) || is_some row)
        (DomainOperationError "recovery_checkpoint_missing" false);
  let active := match row with
                | None => true
                | Some r => (cp_execution_epoch r =? lease_execution_epoch lease)%Z
                end in
  messages ← recovery_messages d lease row;
  _ ← ensure (negb (is_nil messages)) (DomainOperationError "recovery_context_missing" false);
  checkpoint ← (match row with
                | Some r => c ← _checkpoint_domain r active; Ok (Some c)
                | None => Ok None
                end : result (option Checkpoint));
  let task_plan := match checkpoint with
                   | Some c => chk_task_plan c
                   | None => match latest_plan d lease with
                             | Some p => tp_plan p
                             | None => JObject []
                             end
                   end in
  let context_summary := match checkpoint with Some c => chk_context_summary c | None => None end in
  let has_completed := match row with
                       | Some r => is_some (cp_completed_snapshot_uri r)
                       | None => false
                       end in
  let resumes := negb active || is_none checkpoint || has_completed in
  outcomes ← (if resumes
              then _tool_outcomes d lease (chk_created_at <$> checkpoint)
              else Ok []);
  pending ← (if resumes then _pending_tool_calls d lease else Ok []);
  session ← require (match sessions d !! lease_session_id lease with
                     | Some s => if bool_decide (sess_tenant_id s = lease_tenant_id lease)
                                 then Some s else None
                     | None => None
                     end) (DomainOperationError "recovery_session_missing" false);
  validate_recovery_state (mkRecoveryState checkpoint (chk_workspace_revision <$> checkpoint)
    messages task_plan context_summary outcomes (sess_approval_mode session) pending).
End Recovery.
