(* ===== verification/MessageCodecs.v ===== *)
(** * JSON codecs of durable values

    The values workers store as JSON are read back unchanged: error details, tool
    calls and gateway messages, in the checkpoint form and in the journal form. *)

From stdpp Require Import base list sets gmap strings.
From Stdlib Require Import ZArith Lia.
From S2P Require Import Prelude PyBase Domain Tables Contracts RunQueue RunRepository Transcripts Execution Recovery.

(** A model with a wire form: validated values survive the round trip. *)
Class JsonCodec (A : Type) := {
  to_json : A → json;
  of_json : json → result A;
  validate : A → result A;
  of_to_json x : validate x = Ok x → of_json (to_json x) = Ok x;
}.

(** Equal encodings come from equal valid values. *)
Lemma to_json_inj `{JsonCodec A} (x y : A) :
  validate x = Ok x → validate y = Ok y → to_json x = to_json y → x = y.
Proof.
  intros Hx Hy E. apply of_to_json in Hx, Hy. rewrite E in Hx. congruence.
Qed.

Lemma name_string_Ok s t : name_string s = Ok t ↔ t = strip_by is_white_space s ∧ name_ok t = true.
Proof.
  unfold name_string. cbv zeta. rewrite bind_Ok. setoid_rewrite ensure_Ok. split.
  - intros ([] & Hn & [= <-]). done.
  - intros [-> Hn]. by exists tt.
Qed.

Lemma name_string_idem s t : name_string s = Ok t → name_string t = Ok t.
Proof. rewrite !name_string_Ok. intros [-> Hn]. by rewrite strip_idem. Qed.

Lemma error_detail_roundtrip e :
  validate_error_detail e = Ok e → error_of_json (error_json e) = Ok e.
Proof. destruct e as [c m r d]. intros H. unfold error_of_json. simpl. done. Qed.

#[export] Instance error_detail_codec : JsonCodec ErrorDetail := {|
  to_json := error_json; of_json := error_of_json; validate := validate_error_detail;
  of_to_json := error_detail_roundtrip;
|}.

Lemma tool_call_roundtrip c :
  validate_gateway_tool_call c = Ok c → tool_call_of_json (tool_call_json c) = Ok c.
Proof. destruct c as [i n a]. intros H. unfold tool_call_of_json. simpl. done. Qed.

#[export] Instance tool_call_codec : JsonCodec GatewayToolCall := {|
  to_json := tool_call_json; of_json := tool_call_of_json; validate := validate_gateway_tool_call;
  of_to_json := tool_call_roundtrip;
|}.

Lemma role_roundtrip r : role_of_value (role_value r) = Ok r.
Proof. by destruct r. Qed.

Lemma optional_string_roundtrip o : optional_string_of_json (Some (optional_string_json o)) = Ok o.
Proof. by destruct o. Qed.

(** Tool calls inside a valid message are valid. *)
Lemma valid_message_calls m c :
  validate_gateway_message m = Ok m → c ∈ gm_tool_calls m → validate_gateway_tool_call c = Ok c.
Proof.
  unfold validate_gateway_message. intros H Hc. run_inv H.
  match goal with H : traverse _ _ = Ok ?v |- _ => rename H into Ht; rename v into calls end.
  match goal with H : mkGatewayMessage _ _ _ _ = m |- _ => rename H into Em end.
  assert (calls = gm_tool_calls m) as -> by (by rewrite <- Em).
  by eapply traverse_fixed.
Qed.

(** Reading the fields of a message, whatever the order of its keys. *)
Lemma message_of_fields j m :
  closed_object j [py "content"; py "role"; py "tool_call_id"; py "tool_calls"] = Ok tt →
  json_get j (py "role") = Some (JString (role_value (gm_role m))) →
  json_get j (py "content") = Some (JString (gm_content m)) →
  json_get j (py "tool_call_id") = Some (optional_string_json (gm_tool_call_id m)) →
  json_get j (py "tool_calls") = Some (JArray (tool_call_json <$> gm_tool_calls m)) →
  validate_gateway_message m = Ok m → message_of_json j = Ok m.
Proof.
  intros Hc Hr Hx Hi Ht Hv. unfold message_of_json, required_string.
  rewrite Hc, Hr. simpl. rewrite role_roundtrip. simpl. rewrite Hx. simpl.
  rewrite Hi, optional_string_roundtrip. simpl. rewrite Ht.
  rewrite (traverse_map tool_call_of_json tool_call_json).
  - simpl. by destruct m.
  - intros c Hin. by apply tool_call_roundtrip, (valid_message_calls m).
Qed.

Lemma message_roundtrip m :
  validate_gateway_message m = Ok m → message_of_json (message_json m) = Ok m.
Proof. intros Hv. by apply message_of_fields. Qed.

#[export] Instance message_codec : JsonCodec GatewayMessage := {|
  to_json := message_json; of_json := message_of_json; validate := validate_gateway_message;
  of_to_json := message_roundtrip;
|}.

(** The journal stores role and content as columns and the rest as metadata. *)
Lemma journal_roundtrip row m i :
  msg_role row = gm_role m → msg_content row = gm_content m →
  msg_metadata row = transcript_metadata m i →
  validate_gateway_message m = Ok m → _gateway_message row = Ok m.
Proof.
  intros Hr Hc Hm Hv. unfold _gateway_message. rewrite Hr, Hc, Hm. simpl.
  erewrite message_of_fields; [done|done..].
Qed.
