(* ===== verification/TaskPlans.v ===== *)
(** * Task plans

    [TrackedTask], [TaskPlanUpdate] and [PersistedTaskState] of
    [agent_core/control.py], their durable form, [PostgresTaskRepository] of
    [platform_persistence/context_management.py], and the task-plan tool of
    [agent_core/control_tools.py]. *)

From stdpp Require Import base list sets gmap strings pretty.
From Stdlib Require Import ZArith Lia.
From S2P Require Import Prelude PyBase Domain Tables Contracts RunQueue RunRepository Transcripts.

(** ** Tasks *)

Inductive TaskStatus := TASK_PENDING | TASK_IN_PROGRESS | TASK_COMPLETED | TASK_BLOCKED | TASK_CANCELLED.

#[export] Instance TaskStatus_eq_dec : EqDecision TaskStatus.
Proof. solve_decision. Defined.

Record TrackedTask := mkTrackedTask {
  task_id : pystr;
  task_title : pystr;
  task_status : TaskStatus;
  task_details : pystr;
  task_depends_on : list pystr;
}.

#[export] Instance TrackedTask_eq_dec : EqDecision TrackedTask.
Proof. solve_decision. Defined.

(** [TrackedTask.validate_dependencies] after the field constraints *)
Definition validate_tracked_task (t : TrackedTask) : result TrackedTask :=
  id ← identifier_string (task_id t);
  let title := strip_by is_white_space (task_title t) in
  _ ← ensure ((1 <=? length title)%nat && (length title <=? 1000)%nat) (ValidationError "title");
  _ ← ensure (Z.of_nat (length (task_details t)) <=? 16384)%Z (ValidationError "details");
  depends_on ← traverse identifier_string (task_depends_on t);
  _ ← ensure (length depends_on <=? 100)%nat (ValidationError "depends_on");
  _ ← ensure (negb (bool_decide (id ∈ depends_on))) (ValidationError "a task may not depend on itself");
  _ ← ensure (bool_decide (NoDup depends_on)) (ValidationError "task dependencies must be unique");
  Ok (mkTrackedTask id title (task_status t) (task_details t) depends_on).

(** ** The dependency graph *)

Definition cyclic_error : error := ValidationError "task dependencies must be acyclic".
(** The depth-first search ran out of fuel; it never does. *)
Definition recursion_error : error := RuntimeError "maximum recursion depth exceeded".

(** The sets [visiting] and [visited]. *)
Record Marks := mkMarks { visiting : gset pystr; visited : gset pystr }.

Fixpoint visit (fuel : nat) (dependencies : gmap pystr (list pystr)) (s : Marks) (identifier : pystr)
    : result Marks :=
  match fuel with
  | O => Err recursion_error
  | S fuel =>
      if bool_decide (identifier ∈ visiting s) then Err cyclic_error
      else if bool_decide (identifier ∈ visited s) then Ok s
      else
        deps ← require (dependencies !! identifier) (KeyError "dependencies");
        s ← foldM (visit fuel dependencies) (mkMarks ({[identifier]} ∪ visiting s) (visited s)) deps;
        Ok (mkMarks (visiting s ∖ {[identifier]}) ({[identifier]} ∪ visited s))
  end.

Definition dependency_map (tasks : list TrackedTask) : gmap pystr (list pystr) :=
  list_to_map ((λ t, (task_id t, task_depends_on t)) <$> tasks).
Definition status_map (tasks : list TrackedTask) : gmap pystr TaskStatus :=
  list_to_map ((λ t, (task_id t, task_status t)) <$> tasks).

(** An unfinished dependency of a started task. *)
Definition dependencies_complete (by_id : gmap pystr TaskStatus) (t : TrackedTask) : bool :=
  negb (bool_decide (task_status t ∈ [TASK_IN_PROGRESS; TASK_COMPLETED]))
  || forallb (λ d, bool_decide (by_id !! d = Some TASK_COMPLETED)) (task_depends_on t).

(** [TaskPlanUpdate.validate_graph]; the recursion depth is bounded by the
    number of tasks, so the fuel is that number and one. *)
Definition validate_graph (tasks : list TrackedTask) : result unit :=
  let identifiers := task_id <$> tasks in
  _ ← ensure (bool_decide (NoDup identifiers)) (ValidationError "task IDs must be unique");
  _ ← ensure (forallb (λ t, forallb (λ d, bool_decide (d ∈ identifiers)) (task_depends_on t)) tasks)
        (ValidationError "task dependencies must reference tasks in the same plan");
  _ ← foldM (visit (S (length tasks)) (dependency_map tasks)) (mkMarks ∅ ∅) identifiers;
  ensure (forallb (dependencies_complete (status_map tasks)) tasks)
    (ValidationError "in-progress and completed tasks require completed dependencies").

Record TaskPlanUpdate := mkTaskPlanUpdate {
  upd_expected_version : Z;
  upd_tasks : list TrackedTask;
}.

Definition MAX_PLAN_TASKS : nat := 500.

Definition validate_update (u : TaskPlanUpdate) : result TaskPlanUpdate :=
  _ ← ensure (0 <=? upd_expected_version u)%Z (ValidationError "expected_version");
  tasks ← traverse validate_tracked_task (upd_tasks u);
  _ ← ensure (length tasks <=? MAX_PLAN_TASKS)%nat (ValidationError "tasks");
  _ ← validate_graph tasks;
  Ok (mkTaskPlanUpdate (upd_expected_version u) tasks).

Record PersistedTaskState := mkTaskState {
  ts_id : uuid;
  ts_run_id : uuid;
  ts_execution_epoch : Z;
  ts_version : Z;
  ts_tasks : list TrackedTask;
  ts_created_at : timestamp;
}.

(** [PersistedTaskState.validate_tasks] after the field constraints *)
Definition validate_task_state (s : PersistedTaskState) : result PersistedTaskState :=
  _ ← ensure (1 <=? ts_execution_epoch s)%Z (ValidationError "execution_epoch");
  _ ← ensure (1 <=? ts_version s)%Z (ValidationError "version");
  u ← validate_update (mkTaskPlanUpdate 0 (ts_tasks s));
  Ok (mkTaskState (ts_id s) (ts_run_id s) (ts_execution_epoch s) (ts_version s) (upd_tasks u)
        (ts_created_at s)).

(** ** JSON form *)

Definition task_status_value (s : TaskStatus) : pystr :=
  match s with
  | TASK_PENDING => py "pending" | TASK_IN_PROGRESS => py "in_progress"
  | TASK_COMPLETED => py "completed" | TASK_BLOCKED => py "blocked"
  | TASK_CANCELLED => py "cancelled"
  end.

Definition task_status_values : list pystr :=
  task_status_value <$> [TASK_PENDING; TASK_IN_PROGRESS; TASK_COMPLETED; TASK_BLOCKED; TASK_CANCELLED].

Definition task_status_of_value (s : pystr) : result TaskStatus :=
  if bool_decide (s = py "pending") then Ok TASK_PENDING
  else if bool_decide (s = py "in_progress") then Ok TASK_IN_PROGRESS
  else if bool_decide (s = py "completed") then Ok TASK_COMPLETED
  else if bool_decide (s = py "blocked") then Ok TASK_BLOCKED
  else if bool_decide (s = py "cancelled") then Ok TASK_CANCELLED
  else Err (ValidationError "status").

Definition task_json (t : TrackedTask) : json :=
  JObject [(py "depends_on", JArray (JString <$> task_depends_on t));
           (py "details", JString (task_details t)); (py "id", JString (task_id t));
           (py "status", JString (task_status_value (task_status t)));
           (py "title", JString (task_title t))].

Definition string_of_json (j : json) : result pystr :=
  match j with JString s => Ok s | _ => Err (ValidationError "string expected") end.

(** [TrackedTask.model_validate] *)
Definition task_of_json (j : json) : result TrackedTask :=
  _ ← closed_object j [py "depends_on"; py "details"; py "id"; py "status"; py "title"];
  id ← required_string j "id";
  title ← required_string j "title";
  status ← (match json_get j (py "status") with
            | None => Ok TASK_PENDING
            | Some (JString s) => task_status_of_value s
            | Some _ => Err (ValidationError "status")
            end);
  details ← (match json_get j (py "details") with
             | None => Ok []
             | Some v => string_of_json v
             end);
  depends_on ← (match json_get j (py "depends_on") with
                | None => Ok []
                | Some (JArray l) => traverse string_of_json l
                | Some _ => Err (ValidationError "depends_on")
                end);
  validate_tracked_task (mkTrackedTask id title status details depends_on).

Definition plan_json (tasks : list TrackedTask) : json :=
  JObject [(py "tasks", JArray (task_json <$> tasks))].

(** ** Plans stored before task lists *)

(** [json.dumps(value, ensure_ascii=False, sort_keys=True)] *)
Definition hex_digit (n : N) : N := if (n <? 10)%N then (48 + n)%N else (87 + n)%N.
Definition escape_char (c : N) : pystr :=
  if (c =? 34)%N then [92; 34]%N else if (c =? 92)%N then [92; 92]%N
  else if (c =? 8)%N then [92; 98]%N else if (c =? 9)%N then [92; 116]%N
  else if (c =? 10)%N then [92; 110]%N else if (c =? 12)%N then [92; 102]%N
  else if (c =? 13)%N then [92; 114]%N
  else if (c <? 32)%N then py "\u00" ++ [hex_digit (c / 16); hex_digit (c mod 16)]%N
  else [c].
Definition quoted (s : pystr) : pystr := 34%N :: (s ≫= escape_char) ++ [34%N].
Definition comma (rest : pystr) : pystr := match rest with [] => [] | _ => py ", " ++ rest end.

Fixpoint json_dumps (j : json) : pystr :=
  match j with
  | JNull => py "null"
  | JBool b => if b then py "true" else py "false"
  | JInt z => py (pretty z)
  | JNumber s => s
  | JString s => quoted s
  | JArray l =>
      py "[" ++ (fix go l := match l with [] => [] | x :: l => json_dumps x ++ comma (go l) end) l ++ py "]"
  | JObject l =>
      py "{" ++ (fix go l := match l with
                 | [] => []
                 | (k, x) :: l => quoted k ++ py ": " ++ json_dumps x ++ comma (go l)
                 end) l ++ py "}"
  end.

Section Legacy.
(** [repr] of a list value. *)
Variable list_repr : list json → pystr.

(** [str(step)] of a decoded value that is not an object *)
Definition py_str (j : json) : pystr :=
  match j with
  | JNull => py "None"
  | JBool b => if b then py "True" else py "False"
  | JInt z => py (pretty z)
  | JNumber s | JString s => s
  | JArray l => list_repr l
  | JObject _ => []
  end.

Definition legacy_name (index : Z) : pystr := py "Legacy step " ++ py (pretty index).

Definition legacy_task (id title status details : pystr) : json :=
  JObject [(py "details", JString details); (py "id", JString id); (py "status", JString status);
           (py "title", JString title)].

(** [raw_status in {...}] needs a hashable value. *)
Definition legacy_status (step : json) : result pystr :=
  let by_done := if bool_decide (json_get step (py "done") = Some (JBool true))
                 then py "completed" else py "pending" in
  match json_get step (py "status") with
  | Some (JArray _) | Some (JObject _) => Err (TypeError "unhashable type")
  | Some (JString s) => Ok (if bool_decide (s ∈ task_status_values) then s else by_done)
  | _ => Ok by_done
  end.

Definition legacy_step (index : Z) (step : json) : result json :=
  '(title, status, details) ←
    (match step with
     | JObject _ =>
         let raw_title := match json_get step (py "title") with
                          | Some v => Some v
                          | None => json_get step (py "text")
                          end in
         let title := match raw_title with
                      | Some (JString s) => py_strip s
                      | _ => legacy_name index
                      end in
         status ← legacy_status step;
         Ok (title, status, take (Z.to_nat 16384) (json_dumps step))
     | _ =>
         let title := py_strip (py_str step) in
         Ok (if is_nil title then legacy_name index else title, py "pending", [])
     end : result (pystr * pystr * pystr));
  Ok (legacy_task (py "legacy-step-" ++ py (pretty index)) (take 1000 title) status details).

Fixpoint legacy_steps (index : Z) (steps : list json) : result (list json) :=
  match steps with
  | [] => Ok []
  | step :: steps => t ← legacy_step index step; rest ← legacy_steps (index + 1) steps; Ok (t :: rest)
  end.

Definition _legacy_tasks (plan : json) : result (list json) :=
  match json_get plan (py "steps") with
  | Some (JArray steps) => legacy_steps 1 steps
  | _ => Ok [legacy_task (py "legacy-plan") (py "Legacy task plan") (py "pending")
               (take (Z.to_nat 16384) (json_dumps plan))]
  end.

Definition _state_conflict : error := DomainOperationError "persistence_state_conflict" true.

(** [except (TypeError, ValueError)]: what validation raises *)
Definition as_state_conflict {A} (r : result A) : result A :=
  match r with Ok a => Ok a | Err _ => Err _state_conflict end.

Definition _task_state_domain (id : uuid) (r : TaskPlanRecord) : result PersistedTaskState :=
  raw_tasks ← (match json_get (tp_plan r) (py "tasks") with
               | None | Some JNull => _legacy_tasks (tp_plan r)
               | Some (JArray l) => Ok l
               | Some _ => Err _state_conflict
               end);
  tasks ← as_state_conflict (
    tasks ← traverse task_of_json raw_tasks;
    u ← validate_update (mkTaskPlanUpdate 0 tasks);
    Ok (upd_tasks u));
  validate_task_state (mkTaskState id (tp_run_id r) (tp_execution_epoch r) (tp_version r) tasks
    (tp_created_at r)).

End Legacy.

(** ** The repository *)

Module TaskRepository.
(** ORDER BY version DESC LIMIT 1 over the rows of a branch, with their keys *)
Definition latest_plan_entry (d : Db) (tenant_id run_id : uuid) (epoch : Z)
    : option (uuid * TaskPlanRecord) :=
  first_by (λ a b, (tp_version b.2 <? tp_version a.2)%Z)
    (filter (λ e, (tp_tenant_id e.2, tp_run_id e.2, tp_execution_epoch e.2)
                  = (tenant_id, run_id, epoch)) (map_to_list (task_plans d))).

Definition get (list_repr : list json → pystr) (d : Db) (tenant_id run_id : uuid)
    : result (option PersistedTaskState) :=
  match tenant_run d tenant_id run_id with
  | None => Ok None
  | Some run =>
      match latest_plan_entry d tenant_id run_id (rr_execution_epoch run) with
      | None => Ok None
      | Some (id, row) => s ← _task_state_domain list_repr id row; Ok (Some s)
      end
  end.

Definition task_plan_version_conflict : error := DomainOperationError "task_plan_version_conflict" false.

Definition update (d : Db) (tenant_id run_id : uuid) (u : TaskPlanUpdate) (plan_id : uuid)
    (created_at : timestamp) : result (option PersistedTaskState * Db) :=
  commit (
    match tenant_run d tenant_id run_id with
    | None => Ok (None, d)
    | Some run =>
        let current_version :=
          match latest_plan_entry d tenant_id run_id (rr_execution_epoch run) with
          | Some (_, row) => tp_version row
          | None => 0%Z
          end in
        _ ← ensure (current_version =? upd_expected_version u)%Z task_plan_version_conflict;
        state ← validate_task_state (mkTaskState plan_id run_id (rr_execution_epoch run)
                  (current_version + 1) (upd_tasks u) created_at);
        d' ← insert_plan d plan_id (mkTaskPlanRecord tenant_id run_id (ts_execution_epoch state)
               (ts_version state) (plan_json (ts_tasks state)) (ts_created_at state));
        Ok (Some state, d')
    end).

End TaskRepository.

(** ** The tool *)

(** [AgentControlToolset.update_task_plan]: the result is the dump of
    [UpdateTaskPlanResult]; [run_text] is [str] of a UUID. *)
Definition update_task_plan (run_text : uuid → pystr) (d : Db) (tenant_id run_id context_run_id : uuid)
    (expected_version : Z) (tasks : list TrackedTask) (plan_id : uuid) (created_at : timestamp)
    : result (json * Db) :=
  _ ← ensure (1 <=? expected_version)%Z (ValidationError "expected_version");
  _ ← ensure (bool_decide (context_run_id = run_id))
        (DomainOperationError "task_plan_run_mismatch" false);
  u ← validate_update (mkTaskPlanUpdate expected_version tasks);
  '(state, d') ← TaskRepository.update d tenant_id run_id u plan_id created_at;
  state ← require state (DomainOperationError "task_plan_run_missing" false);
  Ok (JObject [(py "run_id", JString (run_text (ts_run_id state)));
               (py "task_plan", plan_json (ts_tasks state));
               (py "version", JInt (ts_version state))], d').

(** [AgentControlToolset.ask_user]: the question suspends the run before the
    handler; reaching it is an error. *)
Definition ask_user : result json := Err (DomainOperationError "interaction_not_resumed" false).
