(* ===== verification/PyText.v ===== *)
(** * UTF-8 and canonical JSON text

    [str.encode("utf-8")] and strict [bytes.decode("utf-8")] on byte lists,
    [str.join], and the canonical [json.dumps] form ([ensure_ascii=False],
    separators "," and ":", sorted keys) that the context pipeline renders and
    measures.  Text holds Unicode scalar values: the validated models refuse lone
    surrogates. *)

From stdpp Require Import base list sets gmap strings pretty.
From Stdlib Require Import ZArith NArith Lia.
From S2P Require Import Prelude PyBase Recovery TaskPlans.

(** ** Encoding *)

Definition is_scalar (c : N) : bool := (c <? 55296)%N || in_range 57344 1114111 c.

Definition encode_char (c : N) : list N :=
  if (c <? 128)%N then [c]
  else if (c <? 2048)%N then [192 + c / 64; 128 + c mod 64]%N
  else if (c <? 65536)%N then [224 + c / 4096; 128 + (c / 64) mod 64; 128 + c mod 64]%N
  else [240 + c / 262144; 128 + (c / 4096) mod 64; 128 + (c / 64) mod 64; 128 + c mod 64]%N.

Definition utf8_encode (s : pystr) : list N := s ≫= encode_char.

(** ** Decoding *)

Definition is_continuation (b : N) : bool := in_range 128 191 b.

(** The second byte of a sequence: no overlong form, no surrogate, nothing above
    U+10FFFF. *)
Definition second_ok (b0 b1 : N) : bool :=
  is_continuation b1
  && (if (b0 =? 224)%N then (160 <=? b1)%N
      else if (b0 =? 237)%N then (b1 <=? 159)%N
      else if (b0 =? 240)%N then (144 <=? b1)%N
      else if (b0 =? 244)%N then (b1 <=? 143)%N
      else true).

Definition cons_char (c : N) (r : pystr + nat) : pystr + nat :=
  match r with inl s => inl (c :: s) | inr start => inr start end.

(** [bytes.decode("utf-8")] of the bytes from position [pos] on: the text, or the
    [start] of the [UnicodeDecodeError]. *)
Fixpoint utf8_decode (pos : nat) (bs : list N) : pystr + nat :=
  match bs with
  | [] => inl []
  | b0 :: r0 =>
      if (b0 <? 128)%N then cons_char b0 (utf8_decode (S pos) r0)
      else match r0 with
      | [] => inr pos
      | b1 :: r1 =>
          if in_range 194 223 b0 then
            if is_continuation b1
            then cons_char ((b0 - 192) * 64 + (b1 - 128))%N (utf8_decode (2 + pos) r1)
            else inr pos
          else match r1 with
          | [] => inr pos
          | b2 :: r2 =>
              if in_range 224 239 b0 then
                if second_ok b0 b1 && is_continuation b2
                then cons_char ((b0 - 224) * 4096 + (b1 - 128) * 64 + (b2 - 128))%N
                       (utf8_decode (3 + pos) r2)
                else inr pos
              else match r2 with
              | [] => inr pos
              | b3 :: r3 =>
                  if in_range 240 244 b0 && second_ok b0 b1 && is_continuation b2
                     && is_continuation b3
                  then cons_char ((b0 - 240) * 262144 + (b1 - 128) * 4096 + (b2 - 128) * 64
                                  + (b3 - 128))%N (utf8_decode (4 + pos) r3)
                  else inr pos
              end
          end
      end
  end.

(** ** Canonical JSON *)

(** The fields of an object are in key order, as [sort_keys] prints them. *)
Fixpoint _canonical_json (j : json) : pystr :=
  match j with
  | JNull => py "null"
  | JBool b => if b then py "true" else py "false"
  | JInt z => py (pretty z)
  | JNumber s => s
  | JString s => quoted s
  | JArray l =>
      py "[" ++ (fix go l := match l with
                 | [] => []
                 | [x] => _canonical_json x
                 | x :: l => _canonical_json x ++ py "," ++ go l
                 end) l ++ py "]"
  | JObject l =>
      py "{" ++ (fix go l := match l with
                 | [] => []
                 | [(k, x)] => quoted k ++ py ":" ++ _canonical_json x
                 | (k, x) :: l => quoted k ++ py ":" ++ _canonical_json x ++ py "," ++ go l
                 end) l ++ py "}"
  end.

(** [separator.join(l)] *)
Fixpoint str_join (separator : pystr) (l : list pystr) : pystr :=
  match l with
  | [] => []
  | [s] => s
  | s :: l => s ++ separator ++ str_join separator l
  end.

(** [f"{n}"] *)
Definition py_nat (n : nat) : pystr := py (pretty (N.of_nat n)).

(** ** Round trip *)

(** The base-64 digits of a code point. *)
Lemma base64_digits c :
  ∃ c1 c2 c3 d0 d1 d2, c = (64 * c1 + d0)%N ∧ c1 = (64 * c2 + d1)%N ∧ c2 = (64 * c3 + d2)%N ∧
    (d0 < 64)%N ∧ (d1 < 64)%N ∧ (d2 < 64)%N ∧
    (c / 64 = c1)%N ∧ (c / 4096 = c2)%N ∧ (c / 262144 = c3)%N ∧
    (c mod 64 = d0)%N ∧ ((c / 64) mod 64 = d1)%N ∧ ((c / 4096) mod 64 = d2)%N.
Proof.
  exists (c / 64)%N, (c / 4096)%N, (c / 262144)%N, (c mod 64)%N, ((c / 64) mod 64)%N,
    ((c / 4096) mod 64)%N.
  change 4096%N with (64 * 64)%N. change 262144%N with (64 * 64 * 64)%N.
  rewrite <- !N.Div0.div_div.
  repeat split; try (by apply N.mod_lt); apply N.div_mod'.
Qed.

(** Decide the byte comparisons a scalar value determines. *)
Ltac byte_cases :=
  unfold second_ok, is_continuation, in_range;
  repeat match goal with
  | |- context [(?a <? ?b)%N] => destruct (N.ltb_spec a b); try (exfalso; lia)
  | |- context [(?a <=? ?b)%N] => destruct (N.leb_spec a b); try (exfalso; lia)
  | |- context [(?a =? ?b)%N] => destruct (N.eqb_spec a b); try (exfalso; lia)
  end; cbn [andb].

(** The four lengths of an encoded character. *)
Ltac char_cases Hc c :=
  unfold is_scalar, in_range in Hc; apply orb_true_iff in Hc;
  rewrite andb_true_iff, N.ltb_lt, !N.leb_le in Hc; unfold encode_char;
  destruct (base64_digits c) as
    (c1 & c2 & c3 & d0 & d1 & d2 & ? & ? & ? & ? & ? & ? & -> & -> & -> & -> & E1 & E2);
  rewrite ?E1, ?E2; clear E1 E2;
  destruct (N.ltb_spec c 128); [|destruct (N.ltb_spec c 2048);
    [|destruct (N.ltb_spec c 65536)]].

(** A whole character is decoded. *)
Lemma decode_char pos c bs :
  is_scalar c = true →
  utf8_decode pos (encode_char c ++ bs)
  = cons_char c (utf8_decode (length (encode_char c) + pos) bs).
Proof.
  intros Hc. char_cases Hc c; cbn [app utf8_decode length Nat.add]; byte_cases;
    done || (f_equal; lia).
Qed.

(** A cut character is reported at its first byte. *)
Lemma decode_cut pos c k :
  is_scalar c = true → 0 < k < length (encode_char c) →
  utf8_decode pos (take k (encode_char c)) = inr pos.
Proof.
  intros Hc. char_cases Hc c; cbn [length]; intros Hk;
    destruct k as [|[|[|[|k]]]]; try lia; cbn [take utf8_decode]; byte_cases; done.
Qed.

Lemma length_encode_char c : N.of_nat (length (encode_char c)) = utf8_size c.
Proof. unfold encode_char, utf8_size. by repeat case_match. Qed.

Lemma length_encode (s : pystr) : N.of_nat (length (utf8_encode s)) = utf8_len s.
Proof.
  induction s as [|c s IH]; [done|]. unfold utf8_encode in *. cbn.
  rewrite length_app, Nat2N.inj_add, length_encode_char. by rewrite IH.
Qed.

Lemma encode_app (s t : pystr) : utf8_encode (s ++ t) = utf8_encode s ++ utf8_encode t.
Proof. apply bind_app. Qed.

Lemma encode_cons c s : utf8_encode (c :: s) = encode_char c ++ utf8_encode s.
Proof. done. Qed.

Lemma encode_char_length c : 1 ≤ length (encode_char c) ≤ 4.
Proof. unfold encode_char. repeat case_match; cbn; lia. Qed.

Definition scalar_text (s : pystr) : bool := forallb is_scalar s.

Lemma scalar_text_app s t : scalar_text (s ++ t) = scalar_text s && scalar_text t.
Proof. apply forallb_app. Qed.

(** The longest prefix of at most [k] bytes. *)
Fixpoint utf8_fit (k : nat) (s : pystr) : pystr :=
  match s with
  | [] => []
  | c :: s =>
      if (length (encode_char c) <=? k)%nat then c :: utf8_fit (k - length (encode_char c)) s
      else []
  end.

(** Decoding the first [k] bytes of an encoded text gives the longest prefix that
    fits, or reports the byte where the cut character starts. *)
Lemma decode_take pos k s :
  scalar_text s = true → k ≤ length (utf8_encode s) →
  utf8_decode pos (take k (utf8_encode s))
  = if (length (utf8_encode (utf8_fit k s)) =? k)%nat then inl (utf8_fit k s)
    else inr (pos + length (utf8_encode (utf8_fit k s))).
Proof.
  revert pos k. induction s as [|c s IH]; intros pos k Hs Hk.
  { cbn in *. by replace k with 0 by lia. }
  cbn in Hs. apply andb_prop in Hs as [Hc Hs]. rewrite encode_cons in *. rewrite length_app in Hk. cbn [utf8_fit].
  destruct (Nat.leb_spec (length (encode_char c)) k) as [Hle|Hgt].
  - rewrite take_app_ge by done. rewrite decode_char, IH by (done || lia).
    rewrite encode_cons, length_app.
    set (m := length (utf8_encode _)). set (n := length (encode_char c)) in *.
    destruct (Nat.eqb_spec m (k - n)), (Nat.eqb_spec (n + m) k); cbn;
      first [done | exfalso; lia | f_equal; lia].
  - rewrite take_app_le by lia. cbn. destruct k as [|k]; [done|].
    rewrite decode_cut by (done || lia). cbn. f_equal. lia.
Qed.

(** What [encode] wrote, [decode] reads back. *)
Lemma decode_encode s : scalar_text s = true → utf8_decode 0 (utf8_encode s) = inl s.
Proof.
  enough (∀ pos, scalar_text s = true → utf8_decode pos (utf8_encode s) = inl s) by eauto.
  induction s as [|c s IH]; intros pos Hs; [done|].
  cbn in Hs. apply andb_prop in Hs as [Hc Hs]. rewrite encode_cons, decode_char, IH by done. done.
Qed.

Lemma utf8_fit_prefix k s : ∃ t, s = utf8_fit k s ++ t.
Proof.
  revert k. induction s as [|c s IH]; intros k; cbn; [by exists []|].
  case_match; [|by exists (c :: s)]. destruct (IH (k - length (encode_char c))) as [t Ht].
  exists t. cbn. by rewrite <- Ht.
Qed.

Lemma utf8_fit_size k s : length (utf8_encode (utf8_fit k s)) ≤ k.
Proof.
  revert k. induction s as [|c s IH]; intros k; [cbn; lia|]. cbn [utf8_fit].
  destruct (Nat.leb_spec (length (encode_char c)) k); [|cbn; lia].
  rewrite encode_cons, length_app.
  specialize (IH (k - length (encode_char c))). lia.
Qed.

Lemma utf8_fit_nonempty k s : 4 ≤ k → s ≠ [] → utf8_fit k s ≠ [].
Proof.
  destruct s as [|c s]; [done|]. intros Hk _. cbn.
  destruct (Nat.leb_spec (length (encode_char c)) k); [done|]. pose proof (encode_char_length c). lia.
Qed.

