(* ===== verification/JsonText.v ===== *)
(** * Reading JSON text

    [json.loads] of the standard library on decoded text: white space, literals,
    strings with escapes and surrogate pairs, numbers, arrays and objects, where the
    last of equal keys wins.  The constants NaN and Infinity are refused, as the
    [parse_constant] hook of the callers does.  A number is the longest run of the
    characters numbers are made of: a shorter match would leave a rest that no
    context accepts.  [float_text] is the shortest text of the float a literal
    denotes ([repr(float(text))]). *)

From stdpp Require Import base list sets gmap strings pretty.
From Stdlib Require Import ZArith NArith Lia Ascii.
From S2P Require Import Prelude PyBase Domain Transcripts Recovery TaskPlans PyText.

(** ** Scanning *)

Fixpoint span (f : N → bool) (s : pystr) : pystr * pystr :=
  match s with
  | [] => ([], [])
  | c :: s' => if f c then (c :: (span f s').1, (span f s').2) else ([], s)
  end.

Definition is_digit (c : N) : bool := in_range 48 57 c.
Definition json_space (c : N) : bool := (c =? 32)%N || (c =? 9)%N || (c =? 10)%N || (c =? 13)%N.
Definition skip_ws (s : pystr) : pystr := drop_while json_space s.

(** *** Strings *)

Definition hex_value (c : N) : option N :=
  if is_digit c then Some (c - 48)%N
  else if in_range 97 102 c then Some (c - 87)%N
  else if in_range 65 70 c then Some (c - 55)%N else None.
Definition hex4 (a b c d : N) : option N :=
  x ← hex_value a; y ← hex_value b; z ← hex_value c; w ← hex_value d;
  Some (((x * 16 + y) * 16 + z) * 16 + w)%N.

Definition simple_escape (c : N) : option N :=
  if (c =? 34)%N then Some 34%N else if (c =? 92)%N then Some 92%N else if (c =? 47)%N then Some 47%N
  else if (c =? 98)%N then Some 8%N else if (c =? 102)%N then Some 12%N else if (c =? 110)%N then Some 10%N
  else if (c =? 114)%N then Some 13%N else if (c =? 116)%N then Some 9%N else None.

Definition push (c : N) (o : option (pystr * pystr)) : option (pystr * pystr) :=
  '(s, rest) ← o; Some (c :: s, rest).

Definition surrogate_pair (high low : N) : N := (65536 + (high - 55296) * 1024 + (low - 56320))%N.

(** The characters after the opening quote, and what follows the closing one *)
Fixpoint parse_string (s : pystr) : option (pystr * pystr) :=
  match s with
  | [] => None
  | c :: r =>
      if (c =? 34)%N then Some ([], r)
      else if (c =? 92)%N then
        match r with
        | [] => None
        | e :: r1 =>
            match simple_escape e with
            | Some x => push x (parse_string r1)
            | None =>
                if negb (e =? 117)%N then None
                else match r1 with
                | a :: b :: c :: d :: r2 =>
                    match hex4 a b c d with
                    | None => None
                    | Some u =>
                        if in_range 55296 56319 u then
                          match r2 with
                          | 92%N :: 117%N :: a' :: b' :: c' :: d' :: r3 =>
                              match hex4 a' b' c' d' with
                              | Some v => if in_range 56320 57343 v then push (surrogate_pair u v) (parse_string r3)
                                          else push u (parse_string r2)
                              | None => push u (parse_string r2)
                              end
                          | _ => push u (parse_string r2)
                          end
                        else push u (parse_string r2)
                    end
                | _ => None
                end
            end
        end
      else if (c <? 32)%N then None
      else push c (parse_string r)
  end.

(** *** Numbers *)

Definition number_char (c : N) : bool :=
  is_digit c || (c =? 45)%N || (c =? 43)%N || (c =? 46)%N || (c =? 101)%N || (c =? 69)%N.

Definition digits_value (s : pystr) : N := foldl (λ n c, (n * 10 + (c - 48))%N) 0%N s.

(** 0 or a digit sequence that does not start with 0 *)
Definition int_digits (s : pystr) : bool :=
  match s with
  | [] => false
  | c :: rest => if (c =? 48)%N then is_nil rest else forallb is_digit s
  end.
Definition unsigned (s : pystr) : bool * pystr :=
  match s with c :: rest => if (c =? 45)%N then (true, rest) else (false, s) | [] => (false, s) end.

Definition int_token (s : pystr) : option Z :=
  let '(negative, digits) := unsigned s in
  if int_digits digits then Some (if negative then - Z.of_N (digits_value digits) else Z.of_N (digits_value digits))%Z else None.

(** [int(text)] refuses more than 4300 digits. *)
Definition int_limit (s : pystr) : bool := (N.of_nat (length (unsigned s).2) <=? 4300)%N.

Definition exponent_ok (s : pystr) : bool :=
  match s with
  | c :: r =>
      if (c =? 101)%N || (c =? 69)%N then
        let r := match r with x :: r' => if (x =? 43)%N || (x =? 45)%N then r' else r | [] => r end in
        negb (is_nil r) && forallb is_digit r
      else false
  | [] => false
  end.
Definition float_token (s : pystr) : bool :=
  let '(whole, rest) := span is_digit (unsigned s).2 in
  int_digits whole &&
  match rest with
  | c :: r =>
      if (c =? 46)%N then let '(fraction, r) := span is_digit r in negb (is_nil fraction) && (is_nil r || exponent_ok r)
      else exponent_ok rest
  | [] => false
  end.

(** *** Objects *)

(** The order of Python strings *)
Fixpoint str_lt (s t : pystr) : bool :=
  match s, t with
  | [], [] => false
  | [], _ :: _ => true
  | _ :: _, [] => false
  | a :: s, b :: t => (a <? b)%N || ((a =? b)%N && str_lt s t)
  end.

Fixpoint field_insert (k : pystr) (v : json) (fields : list (pystr * json)) : list (pystr * json) :=
  match fields with
  | [] => [(k, v)]
  | (k', v') :: rest =>
      if bool_decide (k = k') then (k, v) :: rest
      else if str_lt k k' then (k, v) :: fields
      else (k', v') :: field_insert k v rest
  end.
Definition object_of (pairs : list (pystr * json)) : list (pystr * json) :=
  foldl (λ fields kv, field_insert kv.1 kv.2 fields) [] pairs.

(** ** Values *)

Section Parser.
Variable float_text : pystr → pystr.

Definition parse_number (s : pystr) : option (json * pystr) :=
  let '(token, rest) := span number_char s in
  match int_token token with
  | Some z => if int_limit token then Some (JInt z, rest) else None
  | None => if float_token token then Some (JNumber (float_text token), rest) else None
  end.

Definition literal (word : pystr) (j : json) (s : pystr) : option (json * pystr) :=
  if bool_decide (take (length word) s = word) then Some (j, drop (length word) s) else None.

Fixpoint parse_value (n : nat) (s : pystr) {struct n} : option (json * pystr) :=
  match n with
  | O => None
  | S n =>
      match s with
      | [] => None
      | c :: rest =>
          if (c =? 34)%N then '(t, r) ← parse_string rest; Some (JString t, r)
          else if (c =? 91)%N then
            match skip_ws rest with
            | 93%N :: r => Some (JArray [], r)
            | r => '(l, r) ← parse_items n r; Some (JArray l, r)
            end
          else if (c =? 123)%N then
            match skip_ws rest with
            | 125%N :: r => Some (JObject [], r)
            | r => '(l, r) ← parse_fields n r; Some (JObject (object_of l), r)
            end
          else if (c =? 110)%N then literal (py "null") JNull s
          else if (c =? 116)%N then literal (py "true") (JBool true) s
          else if (c =? 102)%N then literal (py "false") (JBool false) s
          else parse_number s
      end
  end
with parse_items (n : nat) (s : pystr) {struct n} : option (list json * pystr) :=
  match n with
  | O => None
  | S n =>
      '(v, r) ← parse_value n s;
      match skip_ws r with
      | 44%N :: r => '(l, r) ← parse_items n (skip_ws r); Some (v :: l, r)
      | 93%N :: r => Some ([v], r)
      | _ => None
      end
  end
with parse_fields (n : nat) (s : pystr) {struct n} : option (list (pystr * json) * pystr) :=
  match n with
  | O => None
  | S n =>
      match s with
      | 34%N :: r =>
          '(k, r) ← parse_string r;
          match skip_ws r with
          | 58%N :: r =>
              '(v, r) ← parse_value n (skip_ws r);
              match skip_ws r with
              | 44%N :: r => '(l, r) ← parse_fields n (skip_ws r); Some ((k, v) :: l, r)
              | 125%N :: r => Some ([(k, v)], r)
              | _ => None
              end
          | _ => None
          end
      | _ => None
      end
  end.

(** [json.loads(text)]; every value takes at least one character, so the length is
    fuel enough. *)
Definition json_loads (s : pystr) : option json :=
  '(v, rest) ← parse_value (S (length s)) (skip_ws s);
  if is_nil (skip_ws rest) then Some v else None.
End Parser.

(** ** What the printer wrote, the reader reads back *)

(** *** Strings *)

(** A claim about the numbers below a bound, case by case *)
Lemma below_cases (P : N → Prop) n : Forall (λ k, P (N.of_nat k)) (seq 0 n) → ∀ c, (c < N.of_nat n)%N → P c.
Proof.
  intros H c Hc. rewrite Forall_forall in H. rewrite <- (N2Nat.id c). apply H. apply elem_of_seq. lia.
Qed.

Lemma parse_escape c rest :
  parse_string (escape_char c ++ rest) = push c (parse_string rest).
Proof.
  unfold escape_char.
  destruct (N.eqb_spec c 34); [by subst|]. destruct (N.eqb_spec c 92); [by subst|].
  destruct (N.eqb_spec c 8); [by subst|]. destruct (N.eqb_spec c 9); [by subst|].
  destruct (N.eqb_spec c 10); [by subst|]. destruct (N.eqb_spec c 12); [by subst|].
  destruct (N.eqb_spec c 13); [by subst|]. destruct (N.ltb_spec c 32) as [Hc|Hc].
  - clear -Hc. revert c Hc. apply (below_cases (λ c, parse_string ((py "\u00" ++ [hex_digit (c / 16); hex_digit (c mod 16)]) ++ rest)%N
      = push c (parse_string rest)) 32). by repeat constructor.
  - cbn [app parse_string]. destruct (N.eqb_spec c 34); [done|]. destruct (N.eqb_spec c 92); [done|].
    by destruct (N.ltb_spec c 32); [lia|].
Qed.

Lemma parse_quoted s rest : parse_string ((s ≫= escape_char) ++ 34%N :: rest) = Some (s, rest).
Proof.
  induction s as [|c s IH]; [done|]. cbn [mbind list_bind]. rewrite <- app_assoc, parse_escape, IH. done.
Qed.

(** *** Numbers *)

Lemma span_all f (s rest : pystr) :
  forallb f s = true → (∀ c r, rest = c :: r → f c = false) → span f (s ++ rest) = (s, rest).
Proof.
  intros Hs Hr. induction s as [|c s IH]; cbn in *.
  - destruct rest as [|c r]; [done|]. cbn. by rewrite (Hr c r).
  - apply andb_prop in Hs as [Hc Hs]. rewrite Hc, IH by done. done.
Qed.

Lemma pretty_N_char_code x : (x < 10)%N → N_of_ascii (pretty_N_char x) = (48 + x)%N.
Proof.
  revert x. apply (below_cases (λ x, N_of_ascii (pretty_N_char x) = (48 + x)%N) 10). by repeat constructor.
Qed.

Lemma digits_value_snoc s c : digits_value (s ++ [c]) = (digits_value s * 10 + (c - 48))%N.
Proof. unfold digits_value. by rewrite foldl_app. Qed.

(** The digits of a number *)
Lemma pretty_digits x :
  ∃ ds, (∀ s, py (pretty_N_go x s) = ds ++ py s) ∧ forallb is_digit ds = true ∧ digits_value ds = x ∧
    (x = 0%N → ds = []) ∧ (x ≠ 0%N → ∃ c r, ds = c :: r ∧ c ≠ 48%N).
Proof.
  induction (N.lt_wf_0 x) as [x _ IH]. destruct (N.eq_dec x 0) as [->|Hx].
  { exists []. split_and!; done. }
  destruct (IH (x `div` 10)%N) as (ds & Hds & Hall & Hv & Hz & Hh); [apply N.div_lt; lia|].
  assert (x `mod` 10 < 10)%N as Hm by (apply N.mod_lt; lia). pose proof (N.div_mod' x 10) as Hdm.
  exists (ds ++ [(48 + x `mod` 10)%N]). split_and!.
  - intros s. rewrite pretty_N_go_step by lia. rewrite Hds, <- app_assoc. unfold py. cbn. by rewrite pretty_N_char_code.
  - rewrite forallb_app, Hall. cbn [forallb andb]. rewrite andb_true_r. unfold is_digit, in_range.
    apply andb_true_intro. split; apply N.leb_le; (clear -Hm; revert Hm; generalize (x mod 10)%N; intros; lia).
  - rewrite digits_value_snoc, Hv. clear -Hdm. revert Hdm. generalize (x mod 10)%N (x / 10)%N. intros m d ->. lia.
  - done.
  - intros _. destruct (N.eq_dec (x `div` 10) 0) as [E|E].
    + rewrite (Hz E). eexists _, _. split; [done|]. lia.
    + destruct (Hh E) as (c & r & -> & Hne). by eexists c, _.
Qed.

Lemma digits_int s : forallb is_digit s = true → (∃ c r, s = c :: r ∧ c ≠ 48%N) → int_digits s = true.
Proof. intros Hs (c & r & -> & Hc). unfold int_digits. destruct (N.eqb_spec c 48); done. Qed.

Lemma digit_number c : is_digit c = true → number_char c = true.
Proof. unfold number_char. by intros ->. Qed.
Lemma digits_number s : forallb is_digit s = true → forallb number_char s = true.
Proof. rewrite !forallb_forall. eauto using digit_number. Qed.

Lemma unsigned_digits s : forallb is_digit s = true → unsigned s = (false, s).
Proof.
  destruct s as [|c s]; [done|]. cbn. intros [Hc _]%andb_prop. destruct (N.eqb_spec c 45); [|done]. by subst.
Qed.

(** The printed form of a natural number *)
Lemma pretty_N_token n :
  ∃ ds, py (pretty n) = ds ∧ forallb is_digit ds = true ∧ int_digits ds = true ∧ digits_value ds = n.
Proof.
  unfold pretty, pretty_N. destruct (decide (n = 0)%N) as [->|Hn]; [by exists [48%N]|].
  destruct (pretty_digits n) as (ds & Hds & Hall & Hv & _ & Hh). exists ds. rewrite Hds. unfold py at 1. cbn.
  rewrite app_nil_r. split_and!; try done. by apply digits_int; [|apply Hh].
Qed.

Lemma pretty_Z_token z : forallb number_char (py (pretty z)) = true ∧ int_token (py (pretty z)) = Some z.
Proof.
  destruct z as [|x|x]; [done| |].
  - destruct (pretty_N_token (Npos x)) as (ds & E & Hd & Hi & Hv). change (pretty (Z.pos x)) with (pretty (N.pos x)). rewrite E. split; [by apply digits_number|].
    unfold int_token. rewrite unsigned_digits, Hi, Hv by done. done.
  - destruct (pretty_N_token (Npos x)) as (ds & E & Hd & Hi & Hv).
    change (py (pretty (Z.neg x))) with (45%N :: py (pretty (N.pos x))). rewrite E.
    split; [cbn; by apply digits_number|]. unfold int_token. cbn. rewrite Hi, Hv. done.
Qed.

(** *** Objects *)

Lemma str_lt_irrefl s : str_lt s s = false.
Proof. induction s as [|c s IH]; [done|]. cbn. by rewrite N.ltb_irrefl, N.eqb_refl. Qed.
Lemma str_lt_asym s t : str_lt s t = true → str_lt t s = false.
Proof.
  revert t. induction s as [|a s IH]; intros [|b t]; cbn; try done. rewrite orb_true_iff, andb_true_iff. intros [H|[H1 H2]].
  - apply N.ltb_lt in H. apply orb_false_intro; [apply N.ltb_ge; lia|]. destruct (N.eqb_spec b a); [lia|done].
  - apply N.eqb_eq in H1 as ->. rewrite N.ltb_irrefl. cbn. rewrite (IH _ H2). by rewrite andb_false_r.
Qed.

(** Keys in strictly ascending order *)
Fixpoint keys_sorted (fields : list (pystr * json)) : bool :=
  match fields with
  | (k, _) :: rest => forallb (λ kv, str_lt k kv.1) rest && keys_sorted rest
  | [] => true
  end.

Lemma field_insert_last k v fields :
  forallb (λ kv, str_lt kv.1 k) fields = true → field_insert k v fields = fields ++ [(k, v)].
Proof.
  induction fields as [|[k' v'] rest IH]; [done|]. cbn. intros [Hk Hr]%andb_prop.
  rewrite bool_decide_false; [|by intros ->; rewrite str_lt_irrefl in Hk]. rewrite (str_lt_asym _ _ Hk). by rewrite IH.
Qed.

Lemma object_of_sorted fields : keys_sorted fields = true → object_of fields = fields.
Proof.
  unfold object_of. enough (∀ acc, keys_sorted fields = true →
    forallb (λ kv, forallb (λ kv', str_lt kv.1 kv'.1) fields) acc = true →
    foldl (λ fields kv, field_insert kv.1 kv.2 fields) acc fields = acc ++ fields) as H.
  { intros Hs. by apply (H []). }
  induction fields as [|[k v] rest IH]; intros acc Hs Ha; cbn; [by rewrite app_nil_r|].
  cbn in Hs. apply andb_prop in Hs as [Hk Hs]. rewrite forallb_forall in Ha.
  rewrite field_insert_last.
  - rewrite IH; [by rewrite <- app_assoc|done|]. rewrite forallb_app. apply andb_true_intro. split.
    + apply forallb_forall. intros kv Hin. specialize (Ha kv Hin). cbn in Ha. by apply andb_prop in Ha as [_ Ha].
    + cbn. by rewrite Hk.
  - apply forallb_forall. intros kv Hin. specialize (Ha kv Hin). cbn in Ha. by apply andb_prop in Ha as [Ha _].
Qed.

(** *** Values *)

Lemma canonical_array l : _canonical_json (JArray l) = py "[" ++ str_join (py ",") (_canonical_json <$> l) ++ py "]".
Proof.
  cbn [_canonical_json]. f_equal. f_equal. induction l as [|x [|y l] IH]; [done|done|]. cbn [fmap list_fmap str_join] in *. by rewrite IH.
Qed.
Definition field_text (kv : pystr * json) : pystr := quoted kv.1 ++ py ":" ++ _canonical_json kv.2.
Lemma canonical_object l : _canonical_json (JObject l) = py "{" ++ str_join (py ",") (field_text <$> l) ++ py "}".
Proof.
  cbn [_canonical_json]. f_equal. f_equal. induction l as [|[k x] [|[k' y] l] IH]; [done|done|].
  cbn [fmap list_fmap str_join] in *. rewrite IH. unfold field_text. cbn [fst snd]. by rewrite <- !app_assoc.
Qed.

Section RoundTrip.
Variable float_text : pystr → pystr.

(** Values as [json.loads] returns them: keys in order, integers within the limit of
    [int], other numbers in their shortest text. *)
Fixpoint json_ok (j : json) : bool :=
  match j with
  | JInt z => int_limit (py (pretty z))
  | JNumber s => float_token s && forallb number_char s && is_none (int_token s) && bool_decide (float_text s = s)
  | JArray l => forallb json_ok l
  | JObject l => keys_sorted l && forallb (λ kv, json_ok kv.2) l
  | _ => true
  end.

(** Fuel for a value *)
Fixpoint need (j : json) : nat :=
  S (match j with
     | JArray l => foldr (λ x n, S (need x + n)) 0 l
     | JObject l => foldr (λ kv n, S (need kv.2 + n)) 0 l
     | _ => 0
     end).

(** Texts after which a number has ended *)
Definition ends (rest : pystr) : Prop := ∀ c r, rest = c :: r → number_char c = false.

(** The first character of a printed value *)
Definition value_start (c : N) : bool := negb (json_space c) && negb (c =? 93)%N && negb (c =? 125)%N.

Lemma number_not_special c : number_char c = true →
  value_start c = true ∧ c ≠ 34%N ∧ c ≠ 91%N ∧ c ≠ 123%N ∧ c ≠ 110%N ∧ c ≠ 116%N ∧ c ≠ 102%N.
Proof.
  intros Hc. assert (value_start c = true) as Hv.
  { destruct (N.lt_ge_cases c 128) as [H|H].
    - revert c H Hc. apply (below_cases (λ c, number_char c = true → value_start c = true) 128).
      repeat constructor; intros H; (reflexivity || discriminate H).
    - unfold number_char, is_digit, in_range in Hc. rewrite !orb_true_iff, !andb_true_iff, !N.leb_le, !N.eqb_eq in Hc. lia. }
  split_and!; [done|..]; intros ->; discriminate Hc.
Qed.

Lemma number_head s : s ≠ [] → forallb number_char s = true → ∃ c r, s = c :: r ∧ number_char c = true.
Proof. destruct s as [|c r]; [done|]. cbn. intros _ [Hc _]%andb_prop. eauto. Qed.

Lemma token_nonempty s : is_some (int_token s) || float_token s = true → s ≠ [].
Proof. by intros H ->. Qed.

Lemma value_number n s rest :
  forallb number_char s = true → s ≠ [] → ends rest →
  parse_value float_text (S n) (s ++ rest) =
    match int_token s with
    | Some z => if int_limit s then Some (JInt z, rest) else None
    | None => if float_token s then Some (JNumber (float_text s), rest) else None
    end.
Proof.
  intros Hs Hne He. destruct (number_head s Hne Hs) as (c & r & -> & Hc).
  destruct (number_not_special c Hc) as (_ & H1 & H2 & H3 & H4 & H5 & H6).
  cbn [app parse_value]. rewrite !(proj2 (N.eqb_neq _ _)) by done.
  change (c :: r ++ rest) with ((c :: r) ++ rest). unfold parse_number. rewrite span_all; [done|done|]. intros c' r'. apply He.
Qed.

Lemma value_starts j : json_ok j = true → ∃ c r, _canonical_json j = c :: r ∧ value_start c = true.
Proof.
  destruct j; cbn [json_ok]; intros H; try (eexists _, _; split; [cbn; reflexivity|reflexivity]).
  - destruct b; by eexists _, _.
  - destruct (pretty_Z_token z) as [Hn Ht]. destruct (number_head (py (pretty z))) as (c & r & E & Hc); [|done|].
    + apply token_nonempty. by rewrite Ht.
    + exists c, r. split; [done|]. by apply number_not_special.
  - rewrite !andb_true_iff in H. destruct H as [[[Hf Hn] _] _].
    destruct (number_head s) as (c & r & E & Hc); [|done|].
    + apply token_nonempty. by rewrite Hf, orb_true_r.
    + exists c, r. split; [done|]. by apply number_not_special.
Qed.
Lemma skip_value j rest : json_ok j = true → skip_ws (_canonical_json j ++ rest) = _canonical_json j ++ rest.
Proof.
  intros H. destruct (value_starts j H) as (c & r & -> & Hc). unfold skip_ws. cbn. unfold value_start in Hc.
  rewrite !andb_true_iff, !negb_true_iff in Hc. by destruct Hc as [[-> _] _].
Qed.

Definition items_need (l : list json) : nat := foldr (λ x n, S (need x + n)) 0 l.
Definition fields_need (l : list (pystr * json)) : nat := foldr (λ kv n, S (need kv.2 + n)) 0 l.

Lemma skip_ws_id c r : json_space c = false → skip_ws (c :: r) = c :: r.
Proof. unfold skip_ws. cbn. by intros ->. Qed.

Lemma ends_char c r : number_char c = false → ends (c :: r).
Proof. by intros Hc c' r' [= <- <-]. Qed.

(** A literal is read from its first letter. *)
Lemma literal_here word j rest : literal word j (word ++ rest) = Some (j, rest).
Proof. unfold literal. rewrite take_app_length, bool_decide_true by done. by rewrite drop_app_length. Qed.

Definition reads_value (n : nat) : Prop := ∀ j rest,
  need j ≤ n → json_ok j = true → ends rest → parse_value float_text n (_canonical_json j ++ rest) = Some (j, rest).
Definition reads_items (n : nat) : Prop := ∀ l rest,
  l ≠ [] → items_need l ≤ n → forallb json_ok l = true →
  parse_items float_text n (str_join (py ",") (_canonical_json <$> l) ++ 93%N :: rest) = Some (l, rest).
Definition reads_fields (n : nat) : Prop := ∀ l rest,
  l ≠ [] → fields_need l ≤ n → forallb (λ kv, json_ok kv.2) l = true →
  parse_fields float_text n (str_join (py ",") (field_text <$> l) ++ 125%N :: rest) = Some (l, rest).

Lemma items_more n s v r l rest :
  parse_value float_text n s = Some (v, 44%N :: r) → parse_items float_text n (skip_ws r) = Some (l, rest) →
  parse_items float_text (S n) s = Some (v :: l, rest).
Proof. intros Hv Hl. cbn [parse_items]. rewrite Hv. cbn [mbind option_bind]. rewrite skip_ws_id by done. by rewrite Hl. Qed.
Lemma items_last n s v rest :
  parse_value float_text n s = Some (v, 93%N :: rest) → parse_items float_text (S n) s = Some ([v], rest).
Proof. intros Hv. cbn [parse_items]. rewrite Hv. cbn [mbind option_bind]. by rewrite skip_ws_id. Qed.

Lemma fields_more n k r1 v r l rest :
  parse_value float_text n (skip_ws r1) = Some (v, 44%N :: r) → parse_fields float_text n (skip_ws r) = Some (l, rest) →
  parse_fields float_text (S n) (quoted k ++ 58%N :: r1) = Some ((k, v) :: l, rest).
Proof.
  intros Hv Hl. unfold quoted. cbn [app parse_fields]. rewrite <- app_assoc. cbn [app]. rewrite parse_quoted. cbn [mbind option_bind].
  rewrite skip_ws_id by done. rewrite Hv. cbn [mbind option_bind]. rewrite skip_ws_id by done. by rewrite Hl.
Qed.
Lemma fields_last n k r1 v rest :
  parse_value float_text n (skip_ws r1) = Some (v, 125%N :: rest) →
  parse_fields float_text (S n) (quoted k ++ 58%N :: r1) = Some ([(k, v)], rest).
Proof.
  intros Hv. unfold quoted. cbn [app parse_fields]. rewrite <- app_assoc. cbn [app]. rewrite parse_quoted. cbn [mbind option_bind].
  rewrite skip_ws_id by done. rewrite Hv. cbn [mbind option_bind]. by rewrite skip_ws_id.
Qed.

(** Joined texts of a nonempty list *)
Lemma join_cons {A : Type} (f : A → pystr) x l rest :
  str_join (py ",") (f <$> x :: l) ++ rest = f x ++ match l with [] => rest | _ => 44%N :: str_join (py ",") (f <$> l) ++ rest end.
Proof. destruct l as [|y l]; [done|]. cbn [fmap list_fmap str_join]. by rewrite <- !app_assoc. Qed.

Lemma reads_items_step n : reads_value n → reads_items n → reads_items (S n).
Proof.
  intros Hv Hi l rest Hl Hn Hok. destruct l as [|x l]; [done|]. rewrite join_cons.
  unfold items_need in Hn. cbn [foldr] in Hn. fold (items_need l) in Hn. cbn [forallb] in Hok. apply andb_prop in Hok as [Hx Hok].
  destruct l as [|y l].
  - apply items_last. apply Hv; [lia|done|by apply ends_char].
  - eapply items_more; [apply Hv; [lia|done|by apply ends_char]|].
    rewrite join_cons, skip_value by (by apply andb_prop in Hok as [? _]). rewrite <- join_cons. apply Hi; [done|lia|done].
Qed.

Lemma skip_field kv rest : skip_ws (field_text kv ++ rest) = field_text kv ++ rest.
Proof. done. Qed.

Lemma reads_fields_step n : reads_value n → reads_fields n → reads_fields (S n).
Proof.
  intros Hv Hi l rest Hl Hn Hok. destruct l as [|[k x] l]; [done|]. rewrite join_cons.
  unfold fields_need in Hn. cbn [foldr snd] in Hn. fold (fields_need l) in Hn. cbn [forallb snd] in Hok. apply andb_prop in Hok as [Hx Hok].
  unfold field_text at 1. cbn [fst snd]. rewrite <- !app_assoc. destruct l as [|[k' y] l].
  - eapply fields_last. rewrite skip_value by done. apply Hv; [lia|done|by apply ends_char].
  - eapply fields_more; [rewrite skip_value by done; apply Hv; [lia|done|by apply ends_char]|].
    rewrite join_cons, skip_field, <- join_cons. apply Hi; [done|lia|done].
Qed.

Lemma array_items n r l rest :
  (∀ r', skip_ws r ≠ 93%N :: r') → parse_items float_text n (skip_ws r) = Some (l, rest) →
  parse_value float_text (S n) (91%N :: r) = Some (JArray l, rest).
Proof.
  intros Hr Hl. cbn [parse_value]. cbn -[parse_items skip_ws]. set (t := skip_ws r) in *. clearbody t.
  destruct t as [|c t]; [by rewrite Hl|]. destruct c as [|p]; [by rewrite Hl|].
  do 7 (destruct p as [p|p|]; try (by rewrite Hl)); by destruct (Hr _ eq_refl).
Qed.
Lemma object_fields n r l rest :
  (∀ r', skip_ws r ≠ 125%N :: r') → parse_fields float_text n (skip_ws r) = Some (l, rest) →
  parse_value float_text (S n) (123%N :: r) = Some (JObject (object_of l), rest).
Proof.
  intros Hr Hl. cbn [parse_value]. cbn -[parse_fields skip_ws object_of]. set (t := skip_ws r) in *. clearbody t.
  destruct t as [|c t]; [by rewrite Hl|]. destruct c as [|p]; [by rewrite Hl|].
  do 7 (destruct p as [p|p|]; try (by rewrite Hl)); by destruct (Hr _ eq_refl).
Qed.

Lemma reads_value_step n : reads_value n → reads_items n → reads_fields n → reads_value (S n).
Proof.
  intros _ Hi Hf j rest Hn Hok He. destruct j as [|b|z|s|s|l|l].
  - apply (literal_here (py "null")).
  - destruct b; [apply (literal_here (py "true"))|apply (literal_here (py "false"))].
  - destruct (pretty_Z_token z) as [Hz Ht]. cbn [json_ok] in Hok. cbn [_canonical_json]. rewrite value_number; [by rewrite Ht, Hok|done| |done].
    apply token_nonempty. by rewrite Ht.
  - cbn [json_ok] in Hok. rewrite !andb_true_iff in Hok. destruct Hok as [[[Hs Hc] Hi'] Hb]. apply bool_decide_eq_true in Hb.
    cbn [_canonical_json]. rewrite value_number; [|done| |done].
    + destruct (int_token s); [done|]. by rewrite Hs, Hb.
    + apply token_nonempty. by rewrite Hs, orb_true_r.
  - cbn [_canonical_json]. unfold quoted. cbn [app parse_value]. rewrite <- app_assoc. cbn. by rewrite parse_quoted.
  - rewrite canonical_array, <- !app_assoc. cbn [need json_ok] in Hn, Hok. fold (items_need l) in Hn.
    destruct l as [|x l]; [done|]. pose proof (andb_prop _ _ Hok) as [Hx _].
    assert (∀ t, skip_ws (str_join (py ",") (_canonical_json <$> x :: l) ++ t) = str_join (py ",") (_canonical_json <$> x :: l) ++ t) as Hs.
    { intros t. rewrite join_cons. by apply skip_value. }
    apply array_items; rewrite Hs.
    + intros r'. rewrite join_cons. destruct (value_starts x Hx) as (c & r & -> & Hc). intros [= -> _]. done.
    + apply Hi; [done|lia|done].
  - rewrite canonical_object, <- !app_assoc. cbn [need json_ok] in Hn, Hok. fold (fields_need l) in Hn.
    apply andb_prop in Hok as [Hk Hok]. destruct l as [|x l]; [done|].
    assert (∀ t, skip_ws (str_join (py ",") (field_text <$> x :: l) ++ t) = str_join (py ",") (field_text <$> x :: l) ++ t) as Hs.
    { intros t. by rewrite join_cons, skip_field. }
    rewrite <- (object_of_sorted _ Hk) at 2. apply object_fields; rewrite Hs.
    + intros r'. by rewrite join_cons.
    + apply Hf; [done|lia|done].
Qed.

Lemma reads_all n : reads_value n ∧ reads_items n ∧ reads_fields n.
Proof.
  induction n as [|n (Hv & Hi & Hf)].
  - split_and!.
    + intros j rest Hn. destruct j; cbn in Hn; lia.
    + intros [|x l] rest Hl Hn; [done|]. unfold items_need in Hn. cbn in Hn. lia.
    + intros [|x l] rest Hl Hn; [done|]. unfold fields_need in Hn. cbn in Hn. lia.
  - split_and!; [by apply reads_value_step|by apply reads_items_step|by apply reads_fields_step].
Qed.

(** The text of a value is at least as long as its fuel. *)
Lemma join_length {A : Type} (f : A → pystr) (g : A → nat) l :
  (∀ x, x ∈ l → g x ≤ length (f x)) →
  foldr (λ x n, S (g x + n)) 0 l ≤ S (length (str_join (py ",") (f <$> l))).
Proof.
  induction l as [|x [|y l] IH]; intros H; cbn [foldr fmap list_fmap str_join]; [lia| |].
  - specialize (H x (list_elem_of_here _ _)). cbn. lia.
  - rewrite !length_app. pose proof (H x (list_elem_of_here _ _)). cbn [foldr fmap list_fmap] in IH. cbn [length py List.map].
    assert (∀ z, z ∈ y :: l → g z ≤ length (f z)) as H' by (intros z Hz; apply H; by right). specialize (IH H'). cbn in *. lia.
Qed.

Lemma foldr_elem {A : Type} (g : A → nat) l x : x ∈ l → g x < foldr (λ x n, S (g x + n)) 0 l.
Proof. induction l as [|y l IH]; [by intros ?%elem_of_nil|]. intros [->|Hx]%elem_of_cons; cbn; [lia|]. specialize (IH Hx). lia. Qed.

Lemma need_length n j : need j ≤ n → json_ok j = true → need j ≤ length (_canonical_json j).
Proof.
  revert j. induction n as [|n IH]; intros j Hn Hok; [destruct j; cbn in Hn; lia|].
  assert (1 ≤ length (_canonical_json j)) as H1.
  { destruct (value_starts j Hok) as (c & r & -> & _). cbn. lia. }
  destruct j as [|b|z|s|s|l|l]; try (cbn in Hn |- *; lia); try done.
  - rewrite canonical_array, !length_app. cbn [need] in Hn |- *. cbn [json_ok] in Hok. rewrite forallb_forall in Hok.
    cut (foldr (λ x n, S (need x + n)) 0 l ≤ S (length (str_join (py ",") (_canonical_json <$> l)))); [cbn; lia|].
    apply join_length. intros x Hx. apply IH; [|apply Hok; by apply list_elem_of_In]. pose proof (foldr_elem need l x Hx). lia.
  - rewrite canonical_object, !length_app. cbn [need] in Hn |- *. cbn [json_ok] in Hok. apply andb_prop in Hok as [_ Hok].
    rewrite forallb_forall in Hok. cut (foldr (λ kv n, S (need kv.2 + n)) 0 l ≤ S (length (str_join (py ",") (field_text <$> l)))); [cbn; lia|].
    apply (join_length field_text (λ kv, need kv.2)). intros x Hx. unfold field_text. rewrite !length_app.
    assert (need x.2 ≤ length (_canonical_json x.2)); [|lia]. apply IH; [|apply Hok; by apply list_elem_of_In].
    pose proof (foldr_elem (λ kv : pystr * json, need kv.2) l x Hx) as Hfe. cbn in Hfe. lia.
Qed.

(** Reading a printed value gives the value. *)
Lemma loads_canonical j trailing :
  json_ok j = true → forallb json_space trailing = true →
  json_loads float_text (_canonical_json j ++ trailing) = Some j.
Proof.
  intros Hok Ht. unfold json_loads. rewrite skip_value by done.
  assert (ends trailing) as He.
  { intros c r ->. cbn in Ht. apply andb_prop in Ht as [Hc _]. destruct (number_char c) eqn:E; [|done].
    destruct (number_not_special c E) as [Hv _]. unfold value_start in Hv. by rewrite Hc in Hv. }
  assert (skip_ws trailing = []) as Et.
  { clear He. unfold skip_ws. induction trailing as [|c r IH]; [done|]. cbn in *. apply andb_prop in Ht as [Hc Hr]. by rewrite Hc, IH. }
  destruct (reads_all (S (length (_canonical_json j ++ trailing)))) as [Hv _]. rewrite Hv; [|..|done|done].
  - cbn [mbind option_bind]. by rewrite Et.
  - rewrite length_app. pose proof (need_length _ j (le_n _) Hok). lia.
Qed.
End RoundTrip.

(** ** Bytes

    [json.loads(bytes)] finds the encoding from the first bytes and decodes with
    ["surrogatepass"]: the encoded form of a surrogate is accepted. *)

Definition second_pass (b0 b1 : N) : bool :=
  is_continuation b1
  && (if (b0 =? 224)%N then (160 <=? b1)%N
      else if (b0 =? 240)%N then (144 <=? b1)%N
      else if (b0 =? 244)%N then (b1 <=? 143)%N
      else true).

Fixpoint utf8_pass (bs : list N) : option pystr :=
  match bs with
  | [] => Some []
  | b0 :: r0 =>
      if (b0 <? 128)%N then s ← utf8_pass r0; Some (b0 :: s)
      else match r0 with
      | [] => None
      | b1 :: r1 =>
          if in_range 194 223 b0 then
            if is_continuation b1 then s ← utf8_pass r1; Some (((b0 - 192) * 64 + (b1 - 128))%N :: s) else None
          else match r1 with
          | [] => None
          | b2 :: r2 =>
              if in_range 224 239 b0 then
                if second_pass b0 b1 && is_continuation b2
                then s ← utf8_pass r2; Some (((b0 - 224) * 4096 + (b1 - 128) * 64 + (b2 - 128))%N :: s)
                else None
              else match r2 with
              | [] => None
              | b3 :: r3 =>
                  if in_range 240 244 b0 && second_pass b0 b1 && is_continuation b2 && is_continuation b3
                  then s ← utf8_pass r3;
                       Some (((b0 - 240) * 262144 + (b1 - 128) * 4096 + (b2 - 128) * 64 + (b3 - 128))%N :: s)
                  else None
              end
          end
      end
  end.

(** The code units of the wider encodings *)
Fixpoint units16 (big : bool) (bs : list N) : option (list N) :=
  match bs with
  | [] => Some []
  | a :: b :: r => l ← units16 big r; Some ((if big then a * 256 + b else b * 256 + a)%N :: l)
  | [_] => None
  end.
Fixpoint join16 (units : list N) : pystr :=
  match units with
  | high :: rest =>
      if in_range 55296 56319 high then
        match rest with
        | low :: rest' => if in_range 56320 57343 low then surrogate_pair high low :: join16 rest' else high :: join16 rest
        | [] => [high]
        end
      else high :: join16 rest
  | [] => []
  end.
Definition utf16_pass (big : bool) (bs : list N) : option pystr := u ← units16 big bs; Some (join16 u).
Fixpoint utf32_pass (big : bool) (bs : list N) : option pystr :=
  match bs with
  | [] => Some []
  | a :: b :: c :: d :: r =>
      let u := (if big then ((a * 256 + b) * 256 + c) * 256 + d else ((d * 256 + c) * 256 + b) * 256 + a)%N in
      if (u <=? 1114111)%N then s ← utf32_pass big r; Some (u :: s) else None
  | _ => None
  end.

Definition starts_with (prefix bs : list N) : bool := bool_decide (take (length prefix) bs = prefix).

(** [json.detect_encoding] and the decoding it selects; the marks in front of the
    text are dropped *)
Definition decode_detected (bs : list N) : option pystr :=
  if starts_with [0; 0; 254; 255]%N bs then utf32_pass true (drop 4 bs)
  else if starts_with [255; 254; 0; 0]%N bs then utf32_pass false (drop 4 bs)
  else if starts_with [254; 255]%N bs then utf16_pass true (drop 2 bs)
  else if starts_with [255; 254]%N bs then utf16_pass false (drop 2 bs)
  else if starts_with [239; 187; 191]%N bs then utf8_pass (drop 3 bs)
  else match bs with
  | b0 :: b1 :: b2 :: b3 :: _ =>
      if (b0 =? 0)%N then (if (b1 =? 0)%N then utf32_pass true bs else utf16_pass true bs)
      else if (b1 =? 0)%N then (if (b2 =? 0)%N && (b3 =? 0)%N then utf32_pass false bs else utf16_pass false bs)
      else utf8_pass bs
  | [b0; b1] =>
      if (b0 =? 0)%N then utf16_pass true bs else if (b1 =? 0)%N then utf16_pass false bs else utf8_pass bs
  | _ => utf8_pass bs
  end.

Definition json_loads_bytes (float_text : pystr → pystr) (bs : list N) : option json :=
  s ← decode_detected bs; json_loads float_text s.

(** Strict decoding agrees where it succeeds. *)
Lemma utf8_pass_strict n bs pos s : length bs ≤ n → utf8_decode pos bs = inl s → utf8_pass bs = Some s.
Proof.
  revert bs pos s. induction n as [|n IH]; intros [|b0 r0] pos s Hn H; try (cbn in Hn; lia); try (by injection H as <-).
  assert (∀ r p c t, length r ≤ n → cons_char c (utf8_decode p r) = inl t → (x ← utf8_pass r; Some (c :: x)) = Some t) as Hc.
  { intros r p c t Hr Ht. destruct (utf8_decode p r) as [x|] eqn:E; [|done]. injection Ht as <-. by rewrite (IH _ _ _ Hr E). }
  assert (∀ a b, second_ok a b = true → second_pass a b = true) as H2.
  { intros a b. unfold second_ok, second_pass. intros [-> Hb]%andb_prop. cbn. destruct (a =? 224)%N; [done|].
    destruct (N.eqb_spec a 237) as [->|_]; done. }
  cbn [utf8_decode utf8_pass length] in *. destruct (b0 <? 128)%N; [by eapply Hc; [lia|exact H]|].
  destruct r0 as [|b1 r1]; [done|]. cbn [length] in Hn. destruct (in_range 194 223 b0).
  { destruct (is_continuation b1); [|done]. eapply Hc; [lia|exact H]. }
  destruct r1 as [|b2 r2]; [done|]. cbn [length] in Hn. destruct (in_range 224 239 b0).
  { destruct (second_ok b0 b1) eqn:E; [|done]. rewrite (H2 _ _ E). destruct (is_continuation b2); [|done]. eapply Hc; [lia|exact H]. }
  destruct r2 as [|b3 r3]; [done|]. cbn [length] in Hn. destruct (in_range 240 244 b0); [|done].
  destruct (second_ok b0 b1) eqn:E; [|done]. rewrite (H2 _ _ E). destruct (is_continuation b2); [|done].
  destruct (is_continuation b3); [|done]. eapply Hc; [lia|exact H].
Qed.

Lemma object_text_ends kv l : ∃ u, _canonical_json (JObject (kv :: l)) = 123%N :: 34%N :: u ++ [125%N].
Proof.
  rewrite canonical_object, join_cons. unfold field_text, quoted. cbn [py app List.map]. cbn.
  destruct l as [|kv' l]; rewrite <- ?app_assoc; [by eexists (_ ++ 34%N :: 58%N :: _); rewrite <- app_assoc; cbn|].
  eexists ((kv.1 ≫= escape_char) ++ 34%N :: 58%N :: _canonical_json kv.2 ++ 44%N :: str_join (py ",") (field_text <$> kv' :: l)).
  cbn. rewrite <- !app_assoc. cbn. by rewrite <- !app_assoc.
Qed.

Lemma detect_object bs : decode_detected (123%N :: 34%N :: bs) = utf8_pass (123%N :: 34%N :: bs).
Proof. unfold decode_detected, starts_with. cbn [length take]. rewrite !bool_decide_false by done. by destruct bs as [|? [|? ?]]. Qed.

(** A printed object on a line of its own is read back from its bytes. *)
Lemma loads_line float_text kv l :
  json_ok float_text (JObject (kv :: l)) = true → scalar_text (_canonical_json (JObject (kv :: l))) = true →
  json_loads_bytes float_text (utf8_encode (_canonical_json (JObject (kv :: l))) ++ [10%N]) = Some (JObject (kv :: l)).
Proof.
  intros Hok Hs. assert (utf8_pass (utf8_encode (_canonical_json (JObject (kv :: l))) ++ [10%N]) =
    Some (_canonical_json (JObject (kv :: l)) ++ [10%N])) as Hp.
  { change [10%N] with (utf8_encode [10%N]) at 1. rewrite <- encode_app. eapply utf8_pass_strict; [apply le_n|].
    apply decode_encode. by rewrite scalar_text_app, Hs. }
  unfold json_loads_bytes. destruct (object_text_ends kv l) as [u E].
  assert (decode_detected (utf8_encode (_canonical_json (JObject (kv :: l))) ++ [10%N]) =
    utf8_pass (utf8_encode (_canonical_json (JObject (kv :: l))) ++ [10%N])) as ->.
  { rewrite E. rewrite !encode_cons. apply detect_object. }
  rewrite Hp. cbn [mbind option_bind]. by apply loads_canonical.
Qed.
