(* ===== verification/PyFormats.v ===== *)
(** * Texts of identifiers and times

    [str(uuid)], [uuid.hex] and [datetime.isoformat] of the standard library, on the
    values the types have: identifiers of 128 bits and the years 1 to 9999. *)

From stdpp Require Import base list strings.
From Stdlib Require Import ZArith NArith Lia.
From S2P Require Import Prelude PyBase Domain Transcripts Recovery TaskPlans PyText JsonText.

(** The [k] lowest digits of [n] in a base, most significant first *)
Fixpoint low_digits (base : N) (k : nat) (n : N) : list N :=
  match k with
  | O => []
  | S k => low_digits base k (n / base)%N ++ [(n mod base)%N]
  end.
Definition hex_char (d : N) : N := if (d <? 10)%N then (48 + d)%N else (87 + d)%N.
Definition fixed (k : nat) (z : Z) : pystr := (λ d, (48 + d)%N) <$> low_digits 10 k (Z.to_N z).

(** [id.hex] and [str(id)] *)
Definition uuid_hex (u : uuid) : pystr := hex_char <$> low_digits 16 32 u.
Definition uuid_text (u : uuid) : pystr :=
  let h := uuid_hex u in
  take 8 h ++ py "-" ++ take 4 (drop 8 h) ++ py "-" ++ take 4 (drop 12 h) ++ py "-" ++ take 4 (drop 16 h) ++ py "-" ++ drop 20 h.

(** The date of a day count since 1970-01-01 in the Gregorian calendar: year, month
    and day, by eras of 400 years that start in March *)
Definition civil_date (days : Z) : Z * Z * Z :=
  let z := (days + 719468)%Z in
  let era := (z / 146097)%Z in
  let doe := (z mod 146097)%Z in
  let yoe := ((doe - doe / 1460 + doe / 36524 - doe / 146096) / 365)%Z in
  let doy := (doe - (365 * yoe + yoe / 4 - yoe / 100))%Z in
  let mp := ((5 * doy + 2) / 153)%Z in
  let day := (doy - (153 * mp + 2) / 5 + 1)%Z in
  let month := (if mp <? 10 then mp + 3 else mp - 9)%Z in
  ((yoe + era * 400 + (if month <=? 2 then 1 else 0))%Z, month, day).

(** Date and time of a UTC timestamp, without the offset *)
Definition iso_local (t : timestamp) : pystr :=
  let '(year, month, day) := civil_date (t / 86400000000) in
  let us := (t mod 86400000000)%Z in
  fixed 4 year ++ py "-" ++ fixed 2 month ++ py "-" ++ fixed 2 day ++ py "T"
  ++ fixed 2 (us / 3600000000) ++ py ":" ++ fixed 2 ((us / 60000000) mod 60) ++ py ":" ++ fixed 2 ((us / 1000000) mod 60)
  ++ (if (us mod 1000000 =? 0)%Z then [] else py "." ++ fixed 6 (us mod 1000000)).
Definition isoformat (t : timestamp) : pystr := iso_local t ++ py "+00:00".

Definition uuid_ok (u : uuid) : bool := (u <? 2 ^ 128)%N.

Example uuid_text_example : uuid_text 0x12345678123456781234567812345678%N = py "12345678-1234-5678-1234-567812345678".
Proof. vm_compute. reflexivity. Qed.
Example isoformat_epoch : isoformat 0 = py "1970-01-01T00:00:00+00:00".
Proof. vm_compute. reflexivity. Qed.
Example isoformat_leap : isoformat (1709210096789012)%Z = py "2024-02-29T12:34:56.789012+00:00".
Proof. vm_compute. reflexivity. Qed.

(** ** Lengths and characters *)

Lemma low_digits_length b k n : length (low_digits b k n) = k.
Proof. revert n. induction k as [|k IH]; intros n; [done|]. cbn. rewrite length_app, IH. cbn. lia. Qed.
Lemma low_digits_small b k n : (b ≠ 0)%N → Forall (λ d, (d < b)%N) (low_digits b k n).
Proof.
  intros Hb. revert n. induction k as [|k IH]; intros n; [constructor|]. cbn. apply Forall_app. split; [done|].
  constructor; [|constructor]. by apply N.mod_lt.
Qed.

(** Characters that stand for themselves in JSON and take one byte *)
Definition plain_char (c : N) : bool := in_range 32 126 c && negb (c =? 34)%N && negb (c =? 92)%N.
Definition plain_text (s : pystr) : bool := forallb plain_char s.

Lemma plain_text_app s t : plain_text (s ++ t) = plain_text s && plain_text t.
Proof. apply forallb_app. Qed.
Lemma plain_take k s : plain_text s = true → plain_text (take k s) = true.
Proof. revert k. induction s as [|c s IH]; intros [|k]; cbn; try done. intros [-> H]%andb_prop. cbn. by apply IH. Qed.
Lemma plain_drop k s : plain_text s = true → plain_text (drop k s) = true.
Proof. revert k. induction s as [|c s IH]; intros [|k]; cbn; try done. intros [_ H]%andb_prop. by apply IH. Qed.

Lemma fixed_length k z : length (fixed k z) = k.
Proof. unfold fixed. by rewrite length_fmap, low_digits_length. Qed.

Lemma plain_fixed k z : plain_text (fixed k z) = true.
Proof.
  unfold fixed, plain_text. apply Is_true_true, forallb_True, Forall_fmap. eapply Forall_impl; [by apply low_digits_small|]. cbn. intros d Hd.
  apply Is_true_true. assert (d = 0 ∨ d = 1 ∨ d = 2 ∨ d = 3 ∨ d = 4 ∨ d = 5 ∨ d = 6 ∨ d = 7 ∨ d = 8 ∨ d = 9)%N as H by lia.
  by repeat destruct H as [->|H]; [..|subst].
Qed.
Lemma plain_hex u : plain_text (uuid_hex u) = true.
Proof.
  unfold uuid_hex, plain_text. apply Is_true_true, forallb_True, Forall_fmap. eapply Forall_impl; [by apply low_digits_small|]. cbn. intros d Hd.
  apply Is_true_true. revert d Hd. apply (below_cases (λ d, plain_char (hex_char d) = true) 16). by repeat constructor.
Qed.

Lemma plain_uuid u : plain_text (uuid_text u) = true.
Proof.
  unfold uuid_text. rewrite !plain_text_app, !plain_take by (repeat apply plain_drop; apply plain_hex).
  by rewrite plain_drop by apply plain_hex.
Qed.
Lemma uuid_text_length u : length (uuid_text u) = 36.
Proof.
  unfold uuid_text. rewrite !length_app, !length_take, !length_drop. unfold uuid_hex. by rewrite length_fmap, low_digits_length.
Qed.

Lemma iso_local_plain t : plain_text (iso_local t) = true ∧ length (iso_local t) ≤ 26.
Proof.
  unfold iso_local. destruct (civil_date _) as [[y m] d]. destruct (_ =? 0)%Z;
    (split; [rewrite !plain_text_app, !plain_fixed; done|rewrite !length_app, !fixed_length; cbn; lia]).
Qed.
