(* ===== verification/Gateway.v ===== *)
(** * Model gateway contracts

    [agent_core/gateway.py]: requests, tool definitions and the normalized events of
    a model stream.  Decimal costs are opaque optional numbers of 10^-10 dollars. *)

From stdpp Require Import base list sets gmap strings.
From Stdlib Require Import ZArith Lia.
From S2P Require Import Prelude PyBase Domain Tables Contracts Transcripts.

Definition MAX_GATEWAY_MESSAGES : Z := 4096.
Definition MAX_GATEWAY_TOOLS : Z := 1000.

(** [GatewayRequestIdentifier]: 1 to 255 characters of
    ^[A-Za-z0-9][A-Za-z0-9._:-]*$, not stripped. *)
Definition is_ascii_alnum (c : N) : bool := in_range 48 57 c || in_range 65 90 c || in_range 97 122 c.
Definition is_request_char (c : N) : bool :=
  is_ascii_alnum c || bool_decide (c ∈ [46; 95; 58; 45]%N).
Definition request_identifier_ok (s : pystr) : bool :=
  (match s with
   | [] => false
   | c :: rest => is_ascii_alnum c && forallb is_request_char rest
   end)
  && (length s <=? 255)%nat.

Record GatewayToolDefinition := mkToolDefinition {
  gtd_name : pystr;
  gtd_description : pystr;
  gtd_input_schema : json;
}.

Record GatewayRequest := mkGatewayRequest {
  gq_tenant_id : uuid;
  gq_session_id : uuid;
  gq_run_id : uuid;
  gq_execution_epoch : Z;
  gq_turn_number : Z;
  gq_model_call_id : pystr;
  gq_request_id : pystr;
  gq_route_name : pystr;
  gq_messages : list GatewayMessage;
  gq_tools : list GatewayToolDefinition;
}.

Inductive GatewayFinishReason := FINISH_STOP | FINISH_TOOL_CALLS | FINISH_LENGTH | FINISH_CONTENT_FILTER.

#[export] Instance GatewayFinishReason_eq_dec : EqDecision GatewayFinishReason.
Proof. solve_decision. Defined.

Record GatewayResponseCompleted := mkCompleted {
  rc_finish_reason : GatewayFinishReason;
  rc_input_tokens : Z;
  rc_output_tokens : Z;
  rc_cached_tokens : Z;
  rc_estimated_cost_usd : option Z;
  rc_provider : option pystr;
  rc_model : option pystr;
}.

Inductive GatewayEvent :=
| GatewayTextDelta (delta : pystr)
| GatewayToolCallEvent (tool_call : GatewayToolCall)
| GatewayInvalidToolCallEvent (tool_call_id tool_name : pystr) (error : ErrorDetail)
| ResponseCompleted (response : GatewayResponseCompleted).

(** [NonEmptyString] *)
Definition nonempty_string (s : pystr) : result pystr :=
  let s := strip_by is_white_space s in
  _ ← ensure (negb (is_nil s)) (ValidationError "empty string");
  Ok s.

Definition validate_tool_definition (t : GatewayToolDefinition) : result GatewayToolDefinition :=
  name ← name_string (gtd_name t);
  description ← nonempty_string (gtd_description t);
  _ ← ensure (is_json_object (gtd_input_schema t)) (ValidationError "input_schema");
  Ok (mkToolDefinition name description (gtd_input_schema t)).

(** [GatewayRequest], with [validate_unique_tools] *)
Definition validate_gateway_request (r : GatewayRequest) : result GatewayRequest :=
  _ ← ensure (1 <=? gq_execution_epoch r)%Z (ValidationError "execution_epoch");
  _ ← ensure ((1 <=? gq_turn_number r)%Z && (gq_turn_number r <=? 100)%Z) (ValidationError "turn_number");
  _ ← ensure (request_identifier_ok (gq_model_call_id r)) (ValidationError "model_call_id");
  _ ← ensure (request_identifier_ok (gq_request_id r)) (ValidationError "request_id");
  route ← identifier_string (gq_route_name r);
  messages ← traverse validate_gateway_message (gq_messages r);
  _ ← ensure (negb (is_nil messages) && (Z.of_nat (length messages) <=? MAX_GATEWAY_MESSAGES)%Z)
        (ValidationError "messages");
  tools ← traverse validate_tool_definition (gq_tools r);
  _ ← ensure (Z.of_nat (length tools) <=? MAX_GATEWAY_TOOLS)%Z (ValidationError "tools");
  _ ← ensure (bool_decide (NoDup (gtd_name <$> tools))) (ValidationError "gateway tool names must be unique");
  Ok (mkGatewayRequest (gq_tenant_id r) (gq_session_id r) (gq_run_id r) (gq_execution_epoch r)
        (gq_turn_number r) (gq_model_call_id r) (gq_request_id r) route messages tools).

(** A cost of at most twenty digits, ten of them decimals. *)
Definition cost_ok (o : option Z) : bool :=
  match o with Some c => (0 <=? c)%Z && (c <? 10 ^ 20)%Z | None => true end.

Definition validate_completed (c : GatewayResponseCompleted) : result GatewayResponseCompleted :=
  _ ← ensure ((0 <=? rc_input_tokens c)%Z && (0 <=? rc_output_tokens c)%Z && (0 <=? rc_cached_tokens c)%Z)
        (ValidationError "tokens");
  _ ← ensure (cost_ok (rc_estimated_cost_usd c)) (ValidationError "estimated_cost_usd");
  provider ← validate_optional identifier_string (rc_provider c);
  model ← validate_optional identifier_string (rc_model c);
  Ok (mkCompleted (rc_finish_reason c) (rc_input_tokens c) (rc_output_tokens c) (rc_cached_tokens c)
        (rc_estimated_cost_usd c) provider model).

(** The validated event models *)
Definition validate_gateway_event (e : GatewayEvent) : result GatewayEvent :=
  match e with
  | GatewayTextDelta delta =>
      _ ← ensure (negb (is_nil delta)) (ValidationError "delta"); Ok e
  | GatewayToolCallEvent call => c ← validate_gateway_tool_call call; Ok (GatewayToolCallEvent c)
  | GatewayInvalidToolCallEvent id name error =>
      id ← identifier_string id;
      name ← name_string name;
      error ← validate_error_detail error;
      Ok (GatewayInvalidToolCallEvent id name error)
  | ResponseCompleted c => c ← validate_completed c; Ok (ResponseCompleted c)
  end.

(** ** Streams

    What an [AsyncIterator] of events does: the values it yields, and how it ends
    (exhausted, or with an exception that is not a [StopAsyncIteration]). *)

Inductive stream_end := StreamExhausted | StreamRaises (e : error).

Record gateway_stream := mkStream {
  stream_events : list GatewayEvent;
  stream_finish : stream_end;
  (** What [aclose] does: no such method or a normal return, or an exception. *)
  stream_close : result unit;
}.

Definition ModelGateway : Type := GatewayRequest → gateway_stream.
