(* ===== verification/ContextPipeline.v ===== *)
(** * The context pipeline

    [agent_core/context.py]: the bounded sources of one model turn, the
    contributors that turn them into fragments, [ContextPipeline.build], which
    keeps critical fragments and replaces the rest by a summary when the route
    budget is exceeded, and the summarization call through the model gateway.

    Lengths of [model_dump_json], Unicode case folding and the redactor are
    parameters, as are the identifier generator and the gateway stream. *)

From stdpp Require Import base list sets gmap strings sorting pretty.
From Stdlib Require Import ZArith Lia.
From S2P Require Import Prelude PyBase WorkspaceAccess Domain Tables Transcripts Recovery TaskPlans PyText Gateway.

Definition MAX_CONTEXT_FRAGMENTS : Z := 8192.
Definition MAX_CONTEXT_MESSAGES : Z := 4096.
Definition MAX_CONTEXT_INPUT_BYTES : Z := 16 * 1024 * 1024.
Definition MAX_CONTEXT_ITEM_BYTES : N := 1024 * 1024.
Definition MAX_COMPRESSION_INPUT_BYTES : N := 4 * 1024 * 1024.
Definition MAX_CONTEXT_SUMMARY_BYTES : N := 256 * 1024.
Definition MAX_RECENT_CONTEXT_MESSAGES : Z := 512.
Definition MAX_WORKSPACE_CONTEXT_BYTES : Z := 6 * 1024 * 1024.
Definition CONTEXT_COMPACTION_ROUTE : pystr := py "summarization".
Definition _TASK_PLAN_CHUNK_BYTES : N := MAX_CONTEXT_ITEM_BYTES / 16.
Definition _TERMINAL_TASK_STATUSES : list pystr := [py "completed"; py "cancelled"].

Definition newline : pystr := [10%N].

(** ** Data *)

Inductive ContextSource :=
| SYSTEM_INSTRUCTIONS | PROJECT_INSTRUCTIONS | CONVERSATION_HISTORY | REFERENCED_FILES
| ACTIVE_TASK_PLAN | RECENT_TOOL_RESULTS | LONG_TERM_MEMORY | CURRENT_GIT_DIFF
| COMPACTED_SUMMARY.

Definition context_source_value (s : ContextSource) : pystr :=
  match s with
  | SYSTEM_INSTRUCTIONS => py "system_instructions"
  | PROJECT_INSTRUCTIONS => py "project_instructions"
  | CONVERSATION_HISTORY => py "conversation_history"
  | REFERENCED_FILES => py "referenced_files"
  | ACTIVE_TASK_PLAN => py "active_task_plan"
  | RECENT_TOOL_RESULTS => py "recent_tool_results"
  | LONG_TERM_MEMORY => py "long_term_memory"
  | CURRENT_GIT_DIFF => py "current_git_diff"
  | COMPACTED_SUMMARY => py "compacted_summary"
  end.

Record ReferencedContextFile := mkContextFile {
  rcf_path : pystr;
  rcf_content : pystr;
  rcf_active : bool;
}.

Record ContextToolResult := mkContextToolResult {
  ctr_tool_call_id : pystr;
  ctr_tool_name : pystr;
  ctr_content : pystr;
  ctr_is_error : bool;
}.

Record WorkspaceContextSnapshot := mkWorkspaceSnapshot {
  wcs_project_instructions : pystr;
  wcs_referenced_files : list ReferencedContextFile;
  wcs_current_git_diff : pystr;
}.

Record ContextMemorySnippet := mkMemorySnippet {
  cms_memory_id : uuid;
  cms_content : pystr;
}.

Record ContextBuildRequest := mkContextRequest {
  cbr_tenant_id : uuid;
  cbr_session_id : uuid;
  cbr_run_id : uuid;
  cbr_execution_epoch : Z;
  cbr_route_name : pystr;
  cbr_system_instructions : pystr;
  cbr_project_instructions : pystr;
  cbr_conversation : list GatewayMessage;
  cbr_referenced_files : list ReferencedContextFile;
  cbr_task_plan : json;
  cbr_recent_tool_results : list ContextToolResult;
  cbr_memories : list ContextMemorySnippet;
  cbr_current_git_diff : pystr;
  cbr_previous_summary : option pystr;
  cbr_force_compaction : bool;
}.

Record ContextFragment := mkFragment {
  fr_id : pystr;
  fr_source : ContextSource;
  fr_message : GatewayMessage;
  fr_critical : bool;
  fr_priority : Z;
  fr_ordinal : nat;
}.

Record ContextRouteBudget := mkRouteBudget {
  crb_route_name : pystr;
  crb_max_context_tokens : Z;
  crb_reserved_output_tokens : Z;
}.

Record ContextCompressionRequest := mkCompressionRequest {
  ccr_tenant_id : uuid;
  ccr_session_id : uuid;
  ccr_run_id : uuid;
  ccr_execution_epoch : Z;
  ccr_source_text : pystr;
  ccr_max_summary_bytes : N;
}.

Record ContextCompressionResult := mkCompressionResult {
  cr_summary : pystr;
  cr_input_tokens : Z;
  cr_output_tokens : Z;
}.

Record ContextBuildResult := mkBuildResult {
  br_messages : list GatewayMessage;
  br_estimated_tokens : Z;
  br_budget_tokens : Z;
  br_compressed : bool;
  br_summary : option pystr;
  br_compression_input_tokens : option Z;
  br_compression_output_tokens : option Z;
  br_retained_fragment_ids : list pystr;
  br_dropped_fragment_ids : list pystr;
}.

(** [_require_utf8_limit] *)
Definition _require_utf8_limit (name : string) (value : pystr) (limit : N) : result unit :=
  ensure (utf8_len value <=? limit)%N (ValidationError name).

(** ** Text helpers *)

(** One chunk: decode the segment, cut it at the reported byte and try again.
    Each retry shortens the segment, so its length bounds the retries. *)
Fixpoint chunk_at (fuel : nat) (segment : list N) : result (pystr * nat) :=
  match segment with
  | [] => Err (RuntimeError "positive UTF-8 chunk limit must consume input")
  | _ =>
      match fuel with
      | 0 => Err (RuntimeError "fuel")
      | S fuel =>
          match utf8_decode 0 segment with
          | inl chunk => Ok (chunk, length segment)
          | inr start => chunk_at fuel (take start segment)
          end
      end
  end.

Fixpoint chunk_loop (fuel limit : nat) (encoded : list N) : result (list pystr) :=
  match encoded with
  | [] => Ok []
  | _ =>
      match fuel with
      | 0 => Err (RuntimeError "fuel")
      | S fuel =>
          let segment := take limit encoded in
          '(chunk, size) ← chunk_at (length segment) segment;
          chunks ← chunk_loop fuel limit (drop size encoded);
          Ok (chunk :: chunks)
      end
  end.

Definition _utf8_chunks (value : pystr) (limit : nat) : result (list pystr) :=
  match utf8_encode value with
  | [] => Ok [[]]
  | encoded => chunk_loop (length encoded) limit encoded
  end.

(** [_utf8_prefix]: encoding and decoding change nothing. *)
Definition _utf8_prefix (value : pystr) (character_limit : nat) : pystr := take character_limit value.

Definition system_message (content : pystr) : result GatewayMessage :=
  validate_gateway_message (mkGatewayMessage SYSTEM content None []).

(** [_recent_conversation_start]: walk back to the message that proposed the call,
    then as long as the window would open with a tool result. *)
Definition proposes (tool_call_id : option pystr) (m : GatewayMessage) : bool :=
  bool_decide (gm_role m = ASSISTANT)
  && existsb (λ call, bool_decide (Some (gtc_id call) = tool_call_id)) (gm_tool_calls m).

Fixpoint walk_to_call (messages : list GatewayMessage) (tool_call_id : option pystr) (start : nat) : nat :=
  match start with
  | 0 => 0
  | S previous =>
      match messages !! start with
      | Some m => if proposes tool_call_id m then start else walk_to_call messages tool_call_id previous
      | None => walk_to_call messages tool_call_id previous
      end
  end.

Fixpoint window_start (fuel : nat) (messages : list GatewayMessage) (start : nat) : nat :=
  match fuel, start with
  | S fuel, S previous =>
      match messages !! start with
      | Some m =>
          if bool_decide (gm_role m = TOOL)
          then window_start fuel messages (walk_to_call messages (gm_tool_call_id m) previous)
          else start
      | None => start
      end
  | _, _ => start
  end.

Definition _recent_conversation_start (messages : list GatewayMessage) (recent_messages : nat) : nat :=
  let start := length messages - recent_messages in
  window_start start messages start.

Definition is_system (m : GatewayMessage) : bool := bool_decide (gm_role m = SYSTEM).

Definition _assemble_messages (fragments : list ContextFragment) : result (list GatewayMessage) :=
  let all := fr_message <$> fragments in
  let systems := gm_content <$> filter (λ m, is_system m = true) all in
  let conversation := filter (λ m, is_system m = false) all in
  merged ← (match systems with
            | [] => Ok []
            | _ => m ← system_message (str_join (newline ++ newline) systems); Ok [m]
            end);
  let messages := merged ++ conversation in
  _ ← ensure (negb (is_nil messages)) (DomainOperationError "context_empty" false);
  _ ← ensure (Z.of_nat (length messages) <=? MAX_CONTEXT_MESSAGES)%Z
        (DomainOperationError "context_message_limit" false);
  Ok messages.

(** The order of [sorted(..., reverse=True)]: descending, equal keys in their
    original order (both sorts are stable). *)
Definition compression_before (a b : ContextFragment) : Prop :=
  (fr_priority b < fr_priority a)%Z ∨ (fr_priority a = fr_priority b ∧ fr_ordinal b ≤ fr_ordinal a).
#[export] Instance compression_before_dec a b : Decision (compression_before a b).
Proof. unfold compression_before. apply _. Defined.

Definition rendered_fragment (f : ContextFragment) : pystr :=
  py "[" ++ context_source_value (fr_source f) ++ py ":" ++ fr_id f ++ py "]" ++ newline
  ++ _canonical_json (message_json (fr_message f)).

(** The fragments that still fit, in order. *)
Fixpoint select_rendered (limit : N) (selected : list pystr) (size : N) (fragments : list ContextFragment)
    : list pystr :=
  match fragments with
  | [] => selected
  | f :: rest =>
      let rendered := rendered_fragment f in
      let encoded_size := (utf8_len rendered + (if is_nil selected then 0 else 2))%N in
      if (limit <? size + encoded_size)%N then select_rendered limit selected size rest
      else select_rendered limit (selected ++ [rendered]) (size + encoded_size) rest
  end.

Definition _bounded_compression_source (fragments : list ContextFragment) (limit : N) : result pystr :=
  let selected := select_rendered limit [] 0 (merge_sort compression_before fragments) in
  _ ← ensure (negb (is_nil selected)) (DomainOperationError "context_compression_input_limit" false);
  Ok (str_join (newline ++ newline) selected).

(** [str(uuid)]: 32 hexadecimal digits grouped 8-4-4-4-12. *)
Fixpoint hex_digits (n : nat) (v : N) : pystr :=
  match n with
  | 0 => []
  | S n => hex_digits n (v / 16) ++ [hex_digit (v mod 16)]
  end.
Definition uuid_str (u : uuid) : pystr :=
  let h := hex_digits 32 u in
  take 8 h ++ py "-" ++ take 4 (drop 8 h) ++ py "-" ++ take 4 (drop 12 h) ++ py "-"
  ++ take 4 (drop 16 h) ++ py "-" ++ drop 20 h.

(** ** Validation and contributors *)

Section Models.
Variable casefold : pystr → pystr.
(** Lengths of [model_dump_json] in UTF-8. *)
Variable encoded_size : GatewayMessage → Z.
Variable request_size : ContextBuildRequest → Z.
Variable snapshot_size : WorkspaceContextSnapshot → Z.

(** [ReferencedContextFile] *)
Definition validate_context_file (f : ReferencedContextFile) : result ReferencedContextFile :=
  _ ← ensure ((1 <=? length (rcf_path f))%nat && (Z.of_nat (length (rcf_path f)) <=? 4096)%Z)
        (ValidationError "path");
  path ← (match validate_file_reference casefold (rcf_path f) with
          | Ok path => Ok path
          | Err _ => Err (ValidationError "referenced context paths must be canonical workspace files")
          end);
  _ ← _require_utf8_limit "referenced file" (rcf_content f) MAX_CONTEXT_ITEM_BYTES;
  Ok (mkContextFile path (rcf_content f) (rcf_active f)).

(** [ContextToolResult] *)
Definition validate_context_tool_result (t : ContextToolResult) : result ContextToolResult :=
  id ← identifier_string (ctr_tool_call_id t);
  name ← identifier_string (ctr_tool_name t);
  _ ← _require_utf8_limit "tool result" (ctr_content t) MAX_CONTEXT_ITEM_BYTES;
  Ok (mkContextToolResult id name (ctr_content t) (ctr_is_error t)).

(** [WorkspaceContextSnapshot] *)
Definition validate_snapshot (s : WorkspaceContextSnapshot) : result WorkspaceContextSnapshot :=
  _ ← ensure (length (wcs_referenced_files s) <=? 32)%nat (ValidationError "referenced_files");
  files ← traverse validate_context_file (wcs_referenced_files s);
  let s := mkWorkspaceSnapshot (wcs_project_instructions s) files (wcs_current_git_diff s) in
  _ ← _require_utf8_limit "project instructions" (wcs_project_instructions s) MAX_CONTEXT_ITEM_BYTES;
  _ ← _require_utf8_limit "current Git diff" (wcs_current_git_diff s) MAX_CONTEXT_ITEM_BYTES;
  _ ← ensure (snapshot_size s <=? MAX_WORKSPACE_CONTEXT_BYTES)%Z
        (ValidationError "serialized workspace context exceeds its byte limit");
  Ok s.

(** [ContextMemorySnippet] *)
Definition validate_snippet (m : ContextMemorySnippet) : result ContextMemorySnippet :=
  _ ← _require_utf8_limit "memory" (cms_content m) MAX_CONTEXT_ITEM_BYTES;
  Ok m.

Definition is_empty_object (j : json) : bool :=
  match j with JObject [] => true | _ => false end.

(** [not previous_summary]: absent or empty. *)
Definition blank (o : option pystr) : bool :=
  match o with None | Some [] => true | _ => false end.

(** [ContextBuildRequest.validate_size] *)
Definition validate_request_size (r : ContextBuildRequest) : result unit :=
  _ ← ensure (negb (is_nil (cbr_conversation r) && is_nil (cbr_system_instructions r)
                    && is_nil (cbr_project_instructions r) && is_nil (cbr_referenced_files r)
                    && is_empty_object (cbr_task_plan r) && is_nil (cbr_recent_tool_results r)
                    && is_nil (cbr_memories r) && is_nil (cbr_current_git_diff r)
                    && blank (cbr_previous_summary r)))
        (ValidationError "context request must contain at least one source");
  _ ← _require_utf8_limit "system instructions" (cbr_system_instructions r) MAX_CONTEXT_ITEM_BYTES;
  _ ← _require_utf8_limit "project instructions" (cbr_project_instructions r) MAX_CONTEXT_ITEM_BYTES;
  _ ← _require_utf8_limit "Git diff" (cbr_current_git_diff r) MAX_CONTEXT_ITEM_BYTES;
  _ ← _require_utf8_limit "previous summary" (default [] (cbr_previous_summary r)) MAX_CONTEXT_ITEM_BYTES;
  ensure (request_size r <=? MAX_CONTEXT_INPUT_BYTES)%Z
    (ValidationError "serialized context input exceeds its byte limit").

(** [ContextBuildRequest] *)
Definition validate_build_request (r : ContextBuildRequest) : result ContextBuildRequest :=
  _ ← ensure (1 <=? cbr_execution_epoch r)%Z (ValidationError "execution_epoch");
  route ← identifier_string (cbr_route_name r);
  _ ← ensure (Z.of_nat (length (cbr_conversation r)) <=? 4096)%Z (ValidationError "conversation");
  conversation ← traverse validate_gateway_message (cbr_conversation r);
  _ ← ensure (length (cbr_referenced_files r) <=? 256)%nat (ValidationError "referenced_files");
  files ← traverse validate_context_file (cbr_referenced_files r);
  _ ← ensure (is_json_object (cbr_task_plan r)) (ValidationError "task_plan");
  _ ← ensure (length (cbr_recent_tool_results r) <=? 256)%nat (ValidationError "recent_tool_results");
  results ← traverse validate_context_tool_result (cbr_recent_tool_results r);
  _ ← ensure (length (cbr_memories r) <=? 512)%nat (ValidationError "memories");
  memories ← traverse validate_snippet (cbr_memories r);
  let r := mkContextRequest (cbr_tenant_id r) (cbr_session_id r) (cbr_run_id r)
             (cbr_execution_epoch r) route (cbr_system_instructions r) (cbr_project_instructions r)
             conversation files (cbr_task_plan r) results memories (cbr_current_git_diff r)
             (cbr_previous_summary r) (cbr_force_compaction r) in
  _ ← validate_request_size r;
  Ok r.

(** [ContextFragment(...)] *)
Definition make_fragment (id : pystr) (source : ContextSource) (message : GatewayMessage)
    (critical : bool) (priority : Z) (ordinal : nat) : result ContextFragment :=
  id ← identifier_string id;
  _ ← ensure ((-100 <=? priority)%Z && (priority <=? 100)%Z) (ValidationError "priority");
  _ ← ensure (Z.of_nat ordinal <=? MAX_CONTEXT_FRAGMENTS)%Z (ValidationError "ordinal");
  _ ← ensure (encoded_size message <=? Z.of_N MAX_CONTEXT_ITEM_BYTES)%Z
        (ValidationError "serialized context fragment exceeds its byte limit");
  Ok (mkFragment id source message critical priority ordinal).

(** A fragment that carries a system message. *)
Definition system_text_fragment (id : pystr) (source : ContextSource) (content : pystr)
    (critical : bool) (priority : Z) (ordinal : nat) : result ContextFragment :=
  message ← system_message content;
  make_fragment id source message critical priority ordinal.

Definition _system_fragment (identifier : pystr) (source : ContextSource) (content : pystr)
    (critical : bool) (priority : Z) (ordinal : nat) : result (list ContextFragment) :=
  if is_nil content then Ok []
  else f ← system_text_fragment identifier source content critical priority ordinal; Ok [f].

(** [for index, item in enumerate(items)] *)
Definition enumerate {A} (l : list A) : list (nat * A) := imap pair l.

Definition contributor : Type := ContextBuildRequest → result (list ContextFragment).

Definition SystemInstructionsContributor : contributor := λ request,
  _system_fragment (py "system-instructions") SYSTEM_INSTRUCTIONS (cbr_system_instructions request)
    true 100 0.

Definition ProjectInstructionsContributor : contributor := λ request,
  _system_fragment (py "project-instructions") PROJECT_INSTRUCTIONS
    (cbr_project_instructions request) true 90 0.

Definition ConversationHistoryContributor (recent_messages : nat) : contributor := λ request,
  let recent_start := _recent_conversation_start (cbr_conversation request) recent_messages in
  traverse (λ '(index, message),
    make_fragment (py "conversation-" ++ py_nat (index + 1)) CONVERSATION_HISTORY message
      ((recent_start <=? index)%nat || is_system message)
      (if (recent_start <=? index)%nat then 80 else 10) index)
    (enumerate (cbr_conversation request)).

(** [ConversationHistoryContributor.__init__] *)
Definition make_history_contributor (recent_messages : Z) : result contributor :=
  _ ← ensure ((1 <=? recent_messages)%Z && (recent_messages <=? MAX_RECENT_CONTEXT_MESSAGES)%Z)
        (ValueError "recent_messages must be in [1, 512]");
  Ok (ConversationHistoryContributor (Z.to_nat recent_messages)).

Definition ReferencedFilesContributor : contributor := λ request,
  traverse (λ '(index, item),
    system_text_fragment (py "referenced-file-" ++ py_nat (index + 1)) REFERENCED_FILES
      (py "Referenced file `" ++ rcf_path item ++ py "`:" ++ newline ++ rcf_content item)
      (rcf_active item) (if rcf_active item then 85 else 30) index)
    (enumerate (cbr_referenced_files request)).

Definition _task_item_is_unresolved (item : json) : bool :=
  match item with
  | JObject _ =>
      match json_get item (py "status") with
      | Some (JString status) => negb (bool_decide (casefold status ∈ _TERMINAL_TASK_STATUSES))
      | _ => negb (bool_decide (json_get item (py "done") = Some (JBool true)))
      end
  | _ => true
  end.

Definition _chunked_task_fragment (content : pystr) (critical : bool) (priority : Z)
    (ordinal_start : nat) (identifier_prefix label : pystr) : result (list ContextFragment) :=
  chunks ← _utf8_chunks content (N.to_nat _TASK_PLAN_CHUNK_BYTES);
  traverse (λ '(index, chunk),
    system_text_fragment (identifier_prefix ++ py "-" ++ py_nat (index + 1)) ACTIVE_TASK_PLAN
      (label ++ py " (" ++ py_nat (index + 1) ++ py "/" ++ py_nat (length chunks) ++ py "):"
       ++ newline ++ chunk)
      critical priority (ordinal_start + index)) (enumerate chunks).

(** The loop over the items of a plan; [fragments] are those already made. *)
Fixpoint plan_item_fragments (index : nat) (fragments : list ContextFragment) (items : list json)
    : result (list ContextFragment) :=
  match items with
  | [] => Ok fragments
  | item :: rest =>
      let critical := _task_item_is_unresolved item in
      more ← _chunked_task_fragment (_canonical_json item) critical (if critical then 100 else 20)
               (length fragments) (py "task-plan-item-" ++ py_nat (index + 1))
               (if critical then py "Active task plan unresolved item"
                else py "Resolved task plan item");
      plan_item_fragments (S index) (fragments ++ more) rest
  end.

(** The first of "tasks" and "steps" that is a list. *)
Definition plan_collection (plan : json) : option (pystr * list json) :=
  match json_get plan (py "tasks"), json_get plan (py "steps") with
  | Some (JArray items), _ => Some (py "tasks", items)
  | _, Some (JArray items) => Some (py "steps", items)
  | _, _ => None
  end.

Definition _task_plan_fragments (plan : json) : result (list ContextFragment) :=
  match plan_collection plan with
  | None =>
      _chunked_task_fragment (_canonical_json plan) true 100 0 (py "task-plan-legacy")
        (py "Active task plan (unrecognized shape; preserve as unresolved)")
  | Some (collection_name, items) =>
      let metadata := filter (λ kv, kv.1 ≠ collection_name) (object_fields plan) in
      head ← (if is_nil metadata then Ok []
              else _chunked_task_fragment (_canonical_json (JObject metadata)) false 25 0
                     (py "task-plan-metadata") (py "Task plan metadata"));
      fragments ← plan_item_fragments 0 head items;
      if is_nil fragments
      then _chunked_task_fragment (_canonical_json plan) false 20 0 (py "task-plan-empty")
             (py "Task plan with no active items")
      else Ok fragments
  end.

Definition ActiveTaskPlanContributor : contributor := λ request,
  if is_empty_object (cbr_task_plan request) then Ok []
  else _task_plan_fragments (cbr_task_plan request).

Definition RecentToolResultsContributor : contributor := λ request,
  traverse (λ '(index, item),
    system_text_fragment (py "tool-result-" ++ ctr_tool_call_id item) RECENT_TOOL_RESULTS
      (py "Recent " ++ ctr_tool_name item ++ py " result:" ++ newline ++ ctr_content item)
      (ctr_is_error item) (if ctr_is_error item then 90 else 40) index)
    (enumerate (cbr_recent_tool_results request)).

Definition LongTermMemoryContributor : contributor := λ request,
  traverse (λ '(index, item),
    system_text_fragment (py "memory-" ++ uuid_str (cms_memory_id item)) LONG_TERM_MEMORY
      (py "Relevant durable memory:" ++ newline ++ cms_content item) false 20 index)
    (enumerate (cbr_memories request)).

Definition CurrentGitDiffContributor : contributor := λ request,
  _system_fragment (py "current-git-diff") CURRENT_GIT_DIFF (cbr_current_git_diff request) false 50 0.

Definition default_contributors : list contributor :=
  [SystemInstructionsContributor; ProjectInstructionsContributor;
   ConversationHistoryContributor 12; ReferencedFilesContributor; ActiveTaskPlanContributor;
   RecentToolResultsContributor; LongTermMemoryContributor; CurrentGitDiffContributor].

(** ** Budgets and estimates *)

Definition available_input_tokens (b : ContextRouteBudget) : Z :=
  (crb_max_context_tokens b - crb_reserved_output_tokens b)%Z.

(** [ContextRouteBudget] *)
Definition validate_route_budget (b : ContextRouteBudget) : result ContextRouteBudget :=
  route ← identifier_string (crb_route_name b);
  _ ← ensure ((256 <=? crb_max_context_tokens b)%Z && (crb_max_context_tokens b <=? 10000000)%Z)
        (ValidationError "max_context_tokens");
  _ ← ensure ((1 <=? crb_reserved_output_tokens b)%Z && (crb_reserved_output_tokens b <=? 1000000)%Z)
        (ValidationError "reserved_output_tokens");
  _ ← ensure (crb_reserved_output_tokens b <? crb_max_context_tokens b)%Z
        (ValidationError "reserved output tokens must be below the context limit");
  Ok (mkRouteBudget route (crb_max_context_tokens b) (crb_reserved_output_tokens b)).

(** [ContextBudgetRegistry.__init__] *)
Definition make_budget_registry (budgets : list ContextRouteBudget) : result (list ContextRouteBudget) :=
  _ ← ensure (negb (is_nil budgets)) (ValueError "at least one context route budget is required");
  _ ← ensure (bool_decide (NoDup (crb_route_name <$> budgets)))
        (ValueError "context route budgets must have unique route names");
  Ok budgets.

(** [ContextBudgetRegistry.get] *)
Definition budget_get (budgets : list ContextRouteBudget) (route_name : pystr) : result ContextRouteBudget :=
  require (head (filter (λ b, crb_route_name b = route_name) budgets))
    (DomainOperationError "context_route_unconfigured" false).

(** [Utf8TokenEstimator.estimate_messages] *)
Definition utf8_estimate (messages : list GatewayMessage) : Z :=
  Z.of_N (utf8_len (_canonical_json (JArray (message_json <$> messages)))).

Record ContextPipeline := mkPipeline {
  pl_budgets : list ContextRouteBudget;
  pl_contributors : list contributor;
  pl_estimator : list GatewayMessage → Z;
  pl_max_compression_input_bytes : N;
  pl_max_summary_bytes : N;
}.

(** [ContextPipeline.__init__]; an empty contributor sequence means the default. *)
Definition make_pipeline (budgets : list ContextRouteBudget) (contributors : option (list contributor))
    (estimator : option (list GatewayMessage → Z)) (max_compression_input_bytes max_summary_bytes : N)
    : result ContextPipeline :=
  _ ← ensure ((1 <=? max_compression_input_bytes)%N
              && (max_compression_input_bytes <=? MAX_COMPRESSION_INPUT_BYTES)%N)
        (ValueError "max_compression_input_bytes is outside its supported range");
  _ ← ensure ((1 <=? max_summary_bytes)%N && (max_summary_bytes <=? MAX_CONTEXT_SUMMARY_BYTES)%N)
        (ValueError "max_summary_bytes is outside its supported range");
  let contributors :=
    match contributors with None | Some [] => default_contributors | Some l => l end in
  Ok (mkPipeline budgets contributors (default utf8_estimate estimator)
        max_compression_input_bytes max_summary_bytes).

(** [ContextPipeline._estimate] *)
Definition _estimate (p : ContextPipeline) (messages : list GatewayMessage) : result Z :=
  let estimate := pl_estimator p messages in
  _ ← ensure (0 <=? estimate)%Z (DomainOperationError "context_estimator_invalid" false);
  Ok (Z.max 1 estimate).

Definition estimate_fragments (p : ContextPipeline) (fragments : list ContextFragment) : result Z :=
  messages ← _assemble_messages fragments;
  _estimate p messages.

Definition summary_text (candidate : pystr) : pystr :=
  py "Compacted prior context:" ++ newline ++ candidate.

(** One probe of the search: the fragment of a candidate prefix and the estimate
    with it. *)
Definition probe_summary (p : ContextPipeline) (summary : pystr) (critical : list ContextFragment)
    (midpoint : nat) : result Z :=
  f ← system_text_fragment (py "summary-fit") COMPACTED_SUMMARY
        (summary_text (_utf8_prefix summary midpoint)) false 0 0;
  estimate_fragments p (f :: critical).

(** The binary search of [_fit_summary] over [low, high). *)
Fixpoint fit_loop (fuel : nat) (p : ContextPipeline) (summary : pystr) (critical : list ContextFragment)
    (available : Z) (low high : Z) (best : pystr) : result pystr :=
  if (low <=? high)%Z then
    match fuel with
    | 0 => Err (RuntimeError "fuel")
    | S fuel =>
        let midpoint := ((low + high) / 2)%Z in
        tokens ← probe_summary p summary critical (Z.to_nat midpoint);
        if (tokens <=? available)%Z
        then fit_loop fuel p summary critical available (midpoint + 1) high
               (_utf8_prefix summary (Z.to_nat midpoint))
        else fit_loop fuel p summary critical available low (midpoint - 1) best
    end
  else Ok best.

(** [ContextPipeline._fit_summary]: each probe shrinks the interval. *)
Definition _fit_summary (p : ContextPipeline) (summary : pystr) (critical : list ContextFragment)
    (available : Z) : result (option pystr) :=
  best ← fit_loop (S (length summary)) p summary critical available 0 (Z.of_nat (length summary)) [];
  Ok (if is_nil best then None else Some best).

(** ** Build *)

(** [ContextCompressionRequest] *)
Definition validate_compression_request (r : ContextCompressionRequest) : result ContextCompressionRequest :=
  _ ← ensure (1 <=? ccr_execution_epoch r)%Z (ValidationError "execution_epoch");
  _ ← ensure ((1 <=? ccr_max_summary_bytes r)%N
              && (ccr_max_summary_bytes r <=? MAX_CONTEXT_SUMMARY_BYTES)%N)
        (ValidationError "max_summary_bytes");
  _ ← _require_utf8_limit "compression source" (ccr_source_text r) MAX_COMPRESSION_INPUT_BYTES;
  Ok r.

(** [ContextCompressionResult] *)
Definition validate_compression_result (r : ContextCompressionResult) : result ContextCompressionResult :=
  _ ← ensure (negb (is_nil (cr_summary r))) (ValidationError "summary");
  _ ← ensure ((0 <=? cr_input_tokens r)%Z && (0 <=? cr_output_tokens r)%Z) (ValidationError "tokens");
  _ ← _require_utf8_limit "context summary" (cr_summary r) MAX_CONTEXT_SUMMARY_BYTES;
  Ok r.

Definition optional_nonnegative_tokens (o : option Z) : bool :=
  match o with Some n => (0 <=? n)%Z | None => true end.

(** [ContextBuildResult.validate_budget] after the field constraints *)
Definition validate_build_result (r : ContextBuildResult) : result ContextBuildResult :=
  _ ← ensure (negb (is_nil (br_messages r))
              && (Z.of_nat (length (br_messages r)) <=? MAX_CONTEXT_MESSAGES)%Z)
        (ValidationError "messages");
  _ ← ensure ((1 <=? br_estimated_tokens r)%Z && (1 <=? br_budget_tokens r)%Z) (ValidationError "tokens");
  _ ← ensure (optional_nonnegative_tokens (br_compression_input_tokens r)
              && optional_nonnegative_tokens (br_compression_output_tokens r))
        (ValidationError "compression tokens");
  retained ← traverse identifier_string (br_retained_fragment_ids r);
  _ ← ensure (Z.of_nat (length retained) <=? MAX_CONTEXT_FRAGMENTS)%Z (ValidationError "retained_fragment_ids");
  dropped ← traverse identifier_string (br_dropped_fragment_ids r);
  _ ← ensure (Z.of_nat (length dropped) <=? MAX_CONTEXT_FRAGMENTS)%Z (ValidationError "dropped_fragment_ids");
  _ ← ensure (br_estimated_tokens r <=? br_budget_tokens r)%Z
        (ValidationError "context build exceeds its declared route budget");
  _ ← _require_utf8_limit "context summary" (default [] (br_summary r)) MAX_CONTEXT_SUMMARY_BYTES;
  _ ← (if br_compressed r && is_some (br_summary r)
       then ensure (is_some (br_compression_input_tokens r) && is_some (br_compression_output_tokens r))
              (ValidationError "compressed context with a summary requires compression usage")
       else ensure (is_none (br_compression_input_tokens r) && is_none (br_compression_output_tokens r))
              (ValidationError "compression usage requires a compressed context summary"));
  Ok (mkBuildResult (br_messages r) (br_estimated_tokens r) (br_budget_tokens r) (br_compressed r)
        (br_summary r) (br_compression_input_tokens r) (br_compression_output_tokens r) retained dropped).

(** The contributors in order, bounded after each of them. *)
Fixpoint gather (request : ContextBuildRequest) (fragments : list ContextFragment)
    (contributors : list contributor) : result (list ContextFragment) :=
  match contributors with
  | [] => Ok fragments
  | contribute :: rest =>
      values ← contribute request;
      let fragments := fragments ++ values in
      _ ← ensure (Z.of_nat (length fragments) <=? MAX_CONTEXT_FRAGMENTS)%Z
            (DomainOperationError "context_fragment_limit" false);
      gather request fragments rest
  end.

(** The fragments of a build, the previous summary in front. *)
Definition collect_fragments (p : ContextPipeline) (request : ContextBuildRequest)
    : result (list ContextFragment) :=
  fragments ← gather request [] (pl_contributors p);
  let identifiers := fr_id <$> fragments in
  _ ← ensure (bool_decide (NoDup identifiers)) (DomainOperationError "context_fragment_conflict" false);
  match cbr_previous_summary request with
  | None | Some [] => Ok fragments
  | Some previous =>
      _ ← ensure (negb (bool_decide (py "previous-compacted-summary" ∈ identifiers)))
            (DomainOperationError "context_fragment_conflict" false);
      f ← system_text_fragment (py "previous-compacted-summary") COMPACTED_SUMMARY
            (py "Previous compacted context:" ++ newline ++ previous) false 60 0;
      Ok (f :: fragments)
  end.

Definition is_critical (f : ContextFragment) : bool := fr_critical f.
Definition critical_of (l : list ContextFragment) : list ContextFragment :=
  filter (λ f, is_critical f = true) l.
Definition noncritical_of (l : list ContextFragment) : list ContextFragment :=
  filter (λ f, is_critical f = false) l.

(** [self._estimate(_assemble_messages(critical)) if critical else 0] *)
Definition critical_estimate (p : ContextPipeline) (critical : list ContextFragment) : result Z :=
  if is_nil critical then Ok 0%Z else estimate_fragments p critical.

Section Compressor.
(** The injected [ContextCompressor]. *)
Variable compress : ContextCompressionRequest → result ContextCompressionResult.

Definition compress_noncritical (p : ContextPipeline) (request : ContextBuildRequest)
    (noncritical : list ContextFragment) : result (option ContextCompressionResult) :=
  if is_nil noncritical then Ok None
  else
    source_text ← _bounded_compression_source noncritical (pl_max_compression_input_bytes p);
    r ← validate_compression_request (mkCompressionRequest (cbr_tenant_id request)
          (cbr_session_id request) (cbr_run_id request) (cbr_execution_epoch request) source_text
          (pl_max_summary_bytes p));
    c ← compress r;
    Ok (Some c).

(** The summary that is kept, and the fragments with it in front. *)
Definition retain (p : ContextPipeline) (critical : list ContextFragment) (available : Z)
    (compression : option ContextCompressionResult) : result (option pystr * list ContextFragment) :=
  match cr_summary <$> compression with
  | None => Ok (None, critical)
  | Some [] => Ok (Some [], critical)
  | Some summary =>
      fitted ← _fit_summary p summary critical available;
      match fitted with
      | None => Ok (None, critical)
      | Some s =>
          f ← system_text_fragment (py "new-compacted-summary") COMPACTED_SUMMARY (summary_text s)
                false 60 0;
          Ok (Some s, f :: critical)
      end
  end.

(** [ContextPipeline.build] *)
Definition build (p : ContextPipeline) (request : ContextBuildRequest) : result ContextBuildResult :=
  budget ← budget_get (pl_budgets p) (cbr_route_name request);
  fragments ← collect_fragments p request;
  all_messages ← _assemble_messages fragments;
  all_tokens ← _estimate p all_messages;
  let available := available_input_tokens budget in
  if (all_tokens <=? available)%Z && negb (cbr_force_compaction request)
  then validate_build_result (mkBuildResult all_messages all_tokens available false None None None
         (fr_id <$> fragments) [])
  else
    let critical := critical_of fragments in
    critical_tokens ← critical_estimate p critical;
    _ ← ensure (critical_tokens <=? available)%Z (DomainOperationError "context_critical_limit" false);
    let noncritical := noncritical_of fragments in
    compression ← compress_noncritical p request noncritical;
    '(summary, retained) ← retain p critical available compression;
    messages ← _assemble_messages retained;
    estimated ← _estimate p messages;
    let retained_ids := fr_id <$> critical in
    validate_build_result (mkBuildResult messages estimated available (negb (is_nil noncritical)) summary
      (if is_some summary then cr_input_tokens <$> compression else None)
      (if is_some summary then cr_output_tokens <$> compression else None)
      (fr_id <$> retained)
      (filter (λ id, id ∉ retained_ids) (fr_id <$> fragments))).
End Compressor.
End Models.

(** ** Compression through the gateway *)

Section GatewayCompressor.
Variable redact_text : pystr → pystr.
(** [id_generator.new_id(kind)] *)
Variable new_id : pystr → pystr.
Variable gateway : ModelGateway.
Variable route_name : pystr.

Definition context_compression_invalid : error := DomainOperationError "context_compression_invalid" false.
Definition context_compression_failed : error := DomainOperationError "context_compression_failed" true.

Definition compression_prompt : pystr :=
  py "Compress coding-agent context. Preserve active files, unresolved "
  ++ py "tasks, decisions, constraints, and recent errors. Return plain text.".

Definition compression_gateway_request (request : ContextCompressionRequest) : result GatewayRequest :=
  let source := redact_text (ccr_source_text request) in
  system ← system_message compression_prompt;
  user ← validate_gateway_message (mkGatewayMessage USER source None []);
  validate_gateway_request (mkGatewayRequest (ccr_tenant_id request) (ccr_session_id request)
    (ccr_run_id request) (ccr_execution_epoch request) 1 (new_id (py "context-model-call"))
    (new_id (py "context-request")) route_name [system; user] []).

(** The loop over the stream: the chunks in order and the terminal event. *)
Fixpoint read_summary (max_summary_bytes : N) (chunks : list pystr) (size : N)
    (terminal : option GatewayResponseCompleted) (events : list GatewayEvent) (finish : stream_end)
    : result (list pystr * option GatewayResponseCompleted) :=
  match events with
  | [] =>
      match finish with
      | StreamExhausted => Ok (chunks, terminal)
      | StreamRaises _ => Err context_compression_failed
      end
  | event :: rest =>
      _ ← ensure (is_none terminal) context_compression_invalid;
      match event with
      | GatewayTextDelta delta =>
          let size := (size + utf8_len delta)%N in
          _ ← ensure (size <=? max_summary_bytes)%N (DomainOperationError "context_summary_limit" false);
          read_summary max_summary_bytes (chunks ++ [delta]) size terminal rest finish
      | GatewayToolCallEvent _ | GatewayInvalidToolCallEvent _ _ _ => Err context_compression_invalid
      | ResponseCompleted c => read_summary max_summary_bytes chunks size (Some c) rest finish
      end
  end.

(** [_close_context_gateway_stream]: an error of the loop wins over one of the
    close. *)
Definition close_stream {A} (s : gateway_stream) (outcome : result A) : result A :=
  match outcome, stream_close s with
  | Ok _, Err _ => Err context_compression_failed
  | _, _ => outcome
  end.

(** [GatewayContextCompressor.compress] *)
Definition gateway_compress (request : ContextCompressionRequest) : result ContextCompressionResult :=
  gateway_request ← compression_gateway_request request;
  let stream := gateway gateway_request in
  '(chunks, terminal) ← close_stream stream
    (read_summary (ccr_max_summary_bytes request) [] 0 None (stream_events stream) (stream_finish stream));
  terminal ← require terminal context_compression_invalid;
  _ ← ensure (bool_decide (rc_finish_reason terminal ∈ [FINISH_STOP; FINISH_LENGTH]))
        context_compression_invalid;
  let summary := py_strip (redact_text (mjoin chunks)) in
  _ ← ensure (negb (is_nil summary)) context_compression_invalid;
  validate_compression_result (mkCompressionResult summary (rc_input_tokens terminal)
    (rc_output_tokens terminal)).
End GatewayCompressor.
