(* ===== verification/ContextStore.v ===== *)
(** * Context compaction

    [PersistedMessage] and [PersistedContextCompaction] of
    [agent_core/control.py] and [PostgresContextRepository] of
    [platform_persistence/context_management.py]: bounded history reads, explicit
    file references, and the life of a compaction request. *)

From stdpp Require Import base list sets gmap strings sorting pretty.
From Stdlib Require Import ZArith Lia.
From S2P Require Import Prelude PyBase WorkspaceAccess Domain Tables Contracts RunQueue RunRepository Transcripts Execution Recovery TaskPlans.

Definition MAX_CONTEXT_HISTORY_MESSAGES : Z := 4096.

(** ** Contracts *)

Record PersistedMessage := mkPersistedMessage {
  pm_id : uuid;
  pm_session_id : uuid;
  pm_run_id : uuid;
  pm_execution_epoch : Z;
  pm_sequence : Z;
  pm_role : MessageRole;
  pm_content : pystr;
  pm_metadata : json;
  pm_created_at : timestamp;
}.

Definition persisted_message (m : MessageRecord) : result PersistedMessage :=
  _ ← ensure (1 <=? msg_execution_epoch m)%Z (ValidationError "execution_epoch");
  _ ← ensure (1 <=? msg_sequence m)%Z (ValidationError "sequence");
  _ ← ensure (is_json_object (msg_metadata m)) (ValidationError "metadata");
  Ok (mkPersistedMessage (msg_id m) (msg_session_id m) (msg_run_id m) (msg_execution_epoch m)
        (msg_sequence m) (msg_role m) (msg_content m) (msg_metadata m) (msg_created_at m)).

(** [PostgresExecutionRepository.append_message] *)
Definition append_message (d : Db) (tenant_id : uuid) (m : PersistedMessage)
    : result (PersistedMessage * Db) :=
  commit (
    d' ← insert_message d (mkMessageRecord (pm_id m) tenant_id (pm_session_id m) (pm_run_id m)
           (pm_execution_epoch m) (pm_sequence m) (pm_role m) (pm_content m) (pm_metadata m)
           (pm_created_at m));
    Ok (m, d')).

Record PersistedTaskPlan := mkPersistedTaskPlan {
  pp_id : uuid;
  pp_run_id : uuid;
  pp_execution_epoch : Z;
  pp_version : Z;
  pp_plan : json;
  pp_created_at : timestamp;
}.

(** [PostgresExecutionRepository.save_task_plan] *)
Definition save_task_plan (d : Db) (tenant_id : uuid) (p : PersistedTaskPlan)
    : result (PersistedTaskPlan * Db) :=
  commit (
    d' ← insert_plan d (pp_id p) (mkTaskPlanRecord tenant_id (pp_run_id p) (pp_execution_epoch p)
           (pp_version p) (pp_plan p) (pp_created_at p));
    Ok (p, d')).

Record PersistedContextCompaction := mkCompaction {
  comp_id : uuid;
  comp_session_id : uuid;
  comp_context_generation : Z;
  comp_status : CompactionStatus;
  comp_idempotency_key : pystr;
  comp_source_message_sequence : Z;
  comp_route_name : pystr;
  comp_summary : option pystr;
  comp_input_tokens : option Z;
  comp_output_tokens : option Z;
  comp_error : option json;
  comp_requested_at : timestamp;
  comp_completed_at : option timestamp;
}.

(** [PersistedContextCompaction.validate_lifecycle] *)
Definition validate_compaction_lifecycle (c : PersistedContextCompaction) : result unit :=
  _ ← ensure (match comp_summary c with Some s => (utf8_len s <=? 262144)%N | None => true end)
        (ValidationError "compaction summary exceeds its UTF-8 byte limit");
  _ ← (match comp_status c with
       | COMPACTION_PENDING =>
           ensure (is_none (comp_summary c) && is_none (comp_input_tokens c)
                   && is_none (comp_output_tokens c) && is_none (comp_error c)
                   && is_none (comp_completed_at c))
             (ValidationError "pending compaction may not contain a terminal outcome")
       | COMPACTION_COMPLETED =>
           ensure (match comp_summary c with Some s => negb (is_nil s) | None => false end
                   && is_some (comp_input_tokens c) && is_some (comp_output_tokens c)
                   && is_none (comp_error c) && is_some (comp_completed_at c))
             (ValidationError "completed compaction requires summary, usage, and timestamp")
       | COMPACTION_FAILED =>
           ensure (is_some (comp_error c) && is_none (comp_summary c)
                   && is_none (comp_input_tokens c) && is_none (comp_output_tokens c)
                   && is_some (comp_completed_at c))
             (ValidationError "failed compaction requires only an error and timestamp")
       end);
  ensure (match comp_completed_at c with Some t => (comp_requested_at c <=? t)%Z | None => true end)
    (ValidationError "compaction completion may not precede its request").

Definition optional_nonnegative (o : option Z) : bool :=
  match o with Some n => (0 <=? n)%Z | None => true end.

Definition validate_compaction (c : PersistedContextCompaction) : result PersistedContextCompaction :=
  _ ← ensure (1 <=? comp_context_generation c)%Z (ValidationError "context_generation");
  _ ← ensure (idempotency_key_ok (comp_idempotency_key c)) (ValidationError "idempotency_key");
  _ ← ensure (0 <=? comp_source_message_sequence c)%Z (ValidationError "source_message_sequence");
  route ← identifier_string (comp_route_name c);
  _ ← ensure (optional_nonnegative (comp_input_tokens c)) (ValidationError "input_tokens");
  _ ← ensure (optional_nonnegative (comp_output_tokens c)) (ValidationError "output_tokens");
  _ ← ensure (optional_object (comp_error c)) (ValidationError "error");
  let c := mkCompaction (comp_id c) (comp_session_id c) (comp_context_generation c) (comp_status c)
    (comp_idempotency_key c) (comp_source_message_sequence c) route (comp_summary c)
    (comp_input_tokens c) (comp_output_tokens c) (comp_error c) (comp_requested_at c)
    (comp_completed_at c) in
  _ ← validate_compaction_lifecycle c;
  Ok c.

Definition _compaction_domain (r : ContextCompactionRecord) : result PersistedContextCompaction :=
  validate_compaction (mkCompaction (cc_id r) (cc_session_id r) (cc_context_generation r)
    (cc_status r) (cc_idempotency_key r) (cc_source_message_sequence r) (cc_route_name r)
    (cc_summary r) (cc_input_tokens r) (cc_output_tokens r) (cc_error r) (cc_requested_at r)
    (cc_completed_at r)).

(** ** History *)

(** Messages of the session on the current branch of their run. *)
Definition active_messages (d : Db) (tenant_id session_id : uuid) (after_sequence : option Z)
    : list MessageRecord :=
  select_where (λ m, bool_decide (msg_tenant_id m = tenant_id)
                     && bool_decide (msg_session_id m = session_id) && on_active_branch d m
                     && (match after_sequence with Some n => (n <? msg_sequence m)%Z | None => true end))
    (messages d).

Definition list_messages (d : Db) (tenant_id session_id : uuid)
    (after_sequence through_sequence : option Z) (limit : Z) : result (list PersistedMessage) :=
  _ ← ensure (optional_nonnegative after_sequence)
        (ValueError "after_sequence must be a nonnegative integer");
  _ ← ensure (optional_nonnegative through_sequence)
        (ValueError "through_sequence must be a nonnegative integer");
  _ ← ensure (match after_sequence, through_sequence with
              | Some a, Some t => (a <=? t)%Z
              | _, _ => true
              end) (ValueError "through_sequence may not precede after_sequence");
  _ ← ensure ((1 <=? limit)%Z && (limit <=? MAX_CONTEXT_HISTORY_MESSAGES)%Z)
        (ValueError "context history limit must be in [1, 4096]");
  let rows := take (Z.to_nat limit + 1) (merge_sort sequence_le
    (filter (λ m, match through_sequence with Some n => (msg_sequence m <=? n)%Z | None => true end = true)
       (active_messages d tenant_id session_id after_sequence))) in
  _ ← ensure (length rows <=? Z.to_nat limit)%nat (DomainOperationError "context_history_limit" false);
  match traverse persisted_message rows with
  | Ok ms => Ok ms
  | Err _ => Err (DomainOperationError "context_history_invalid" false)
  end.

(** ** File references of the submission *)

Definition context_references_invalid : error := DomainOperationError "context_references_invalid" false.

(** ORDER BY execution_epoch, sequence LIMIT 1 *)
Definition first_run_message (d : Db) (tenant_id run_id : uuid) : option MessageRecord :=
  first_by (λ a b, (msg_execution_epoch a <? msg_execution_epoch b)%Z
                   || ((msg_execution_epoch a =? msg_execution_epoch b)%Z
                       && (msg_sequence a <? msg_sequence b)%Z))
    (select_where (λ m, bool_decide (msg_tenant_id m = tenant_id)
                        && bool_decide (msg_run_id m = run_id)) (messages d)).

Definition referenced_files_for_run (casefold : pystr → pystr) (d : Db) (tenant_id run_id : uuid)
    : result (list pystr) :=
  match first_run_message d tenant_id run_id with
  | None => Ok []
  | Some m =>
      let metadata := msg_metadata m in
      _ ← ensure (is_json_object metadata) context_references_invalid;
      if negb (bool_decide (json_get metadata (py "source") = Some (JString (py "run_submission"))))
      then Ok []
      else
        raw ← (match json_get metadata (py "referenced_files") with
               | None => Ok []
               | Some (JArray l) => Ok l
               | Some _ => Err context_references_invalid
               end);
        match traverse (file_reference_of_json casefold) raw with
        | Err _ => Err context_references_invalid
        | Ok references =>
            _ ← ensure ((length references <=? MAX_REFERENCED_WORKSPACE_FILES)%nat
                        && bool_decide (NoDup references)) context_references_invalid;
            Ok references
        end
  end.

(** ** Compaction requests *)

Module ContextRepository.
Definition _by_idempotency_key (d : Db) (tenant_id session_id : uuid) (key : pystr)
    : option ContextCompactionRecord :=
  scalar_where (λ c, bool_decide (cc_tenant_id c = tenant_id)
                     && bool_decide (cc_session_id c = session_id)
                     && bool_decide (cc_idempotency_key c = key)) (compactions d).

Definition _validate_compaction_replay (r : ContextCompactionRecord) (route_name : pystr)
    : result PersistedContextCompaction :=
  _ ← ensure (bool_decide (cc_route_name r = route_name))
        (DomainOperationError "context_compaction_idempotency_conflict" false);
  _compaction_domain r.

Definition tenant_session (d : Db) (tenant_id session_id : uuid) : option SessionRecord :=
  match sessions d !! session_id with
  | Some s => if bool_decide (sess_tenant_id s = tenant_id) then Some s else None
  | None => None
  end.

(** ORDER BY requested_at, id LIMIT 1 over the rows of a generation *)
Definition first_in_status (d : Db) (tenant_id session_id : uuid) (generation : Z)
    (status : CompactionStatus) (before : ContextCompactionRecord → ContextCompactionRecord → bool)
    : option ContextCompactionRecord :=
  first_by before
    (select_where (λ c, bool_decide (cc_tenant_id c = tenant_id)
                        && bool_decide (cc_session_id c = session_id)
                        && (cc_context_generation c =? generation)%Z
                        && bool_decide (cc_status c = status)) (compactions d)).

Definition requested_before (a b : ContextCompactionRecord) : bool :=
  (cc_requested_at a <? cc_requested_at b)%Z
  || ((cc_requested_at a =? cc_requested_at b)%Z && (cc_id a <? cc_id b)%N).
Definition completed_after (a b : ContextCompactionRecord) : bool :=
  (default 0 (cc_completed_at b) <? default 0 (cc_completed_at a))%Z.

(** [max(sequence)] of the active messages, 0 without any *)
Definition source_sequence (d : Db) (tenant_id session_id : uuid) (after_sequence : option Z) : Z :=
  foldr (λ m acc, Z.max (msg_sequence m) acc) 0%Z (active_messages d tenant_id session_id after_sequence).

(** INSERT ... ON CONFLICT (tenant, session, key) DO NOTHING: the key is looked up
    under the session lock just before, so the row is new. *)
Definition insert_compaction (d : Db) (tenant_id : uuid) (session : SessionRecord) (id : uuid)
    (key : pystr) (source : Z) (route_name : pystr) (requested_at : timestamp) : result Db :=
  match _by_idempotency_key d tenant_id (sess_id session) key with
  | Some _ => Ok d
  | None =>
      _ ← ensure (is_none (compactions d !! id)) integrity_error;
      Ok (set_compactions d (<[id := mkContextCompaction id tenant_id (sess_id session)
        (sess_context_generation session) COMPACTION_PENDING key source route_name None None None
        None requested_at None]> (compactions d)))
  end.

(** The row under the key after the insertion. *)
Definition inserted_compaction (d : Db) (tenant_id session_id : uuid) (key route_name : pystr)
    : result PersistedContextCompaction :=
  row ← require (_by_idempotency_key d tenant_id session_id key) _state_conflict;
  _validate_compaction_replay row route_name.

Definition request_compaction (d : Db) (tenant_id session_id compaction_id : uuid)
    (idempotency_key route_name : pystr) (requested_at : timestamp)
    : result (option PersistedContextCompaction * Db) :=
  commit (
    match tenant_session d tenant_id session_id with
    | None => Ok (None, d)
    | Some session =>
        match _by_idempotency_key d tenant_id session_id idempotency_key with
        | Some existing => c ← _validate_compaction_replay existing route_name; Ok (Some c, d)
        | None =>
            _ ← ensure (is_none (first_in_status d tenant_id session_id
                    (sess_context_generation session) COMPACTION_PENDING requested_before))
                  (DomainOperationError "context_compaction_in_progress" true);
            d' ← insert_compaction d tenant_id session compaction_id idempotency_key
                   (source_sequence d tenant_id session_id None) route_name requested_at;
            c ← inserted_compaction d' tenant_id session_id idempotency_key route_name;
            Ok (Some c, d')
        end
    end).

Definition auto_key (generation source : Z) : pystr :=
  py "auto-context-" ++ py (pretty generation) ++ py "-" ++ py (pretty source).

(** [auto_id] stands for the name-based identifier of an automatic request. *)
Definition request_compaction_if_needed (auto_id : uuid → pystr → uuid) (d : Db)
    (tenant_id session_id : uuid) (after_message_sequence : option Z) (threshold_messages : Z)
    (route_name : pystr) (requested_at : datetime)
    : result (option PersistedContextCompaction * Db) :=
  _ ← ensure (optional_nonnegative after_message_sequence)
        (ValueError "after_message_sequence must be a nonnegative integer");
  _ ← ensure ((1 <=? threshold_messages)%Z && (threshold_messages <? MAX_CONTEXT_HISTORY_MESSAGES)%Z)
        (ValueError "threshold_messages must be in [1, 4095]");
  requested ← normalize_timestamp requested_at;
  commit (
    match tenant_session d tenant_id session_id with
    | None => Ok (None, d)
    | Some session =>
        let generation := sess_context_generation session in
        match first_in_status d tenant_id session_id generation COMPACTION_PENDING requested_before with
        | Some pending => c ← _compaction_domain pending; Ok (Some c, d)
        | None =>
            let uncompacted := active_messages d tenant_id session_id after_message_sequence in
            if (Z.of_nat (length uncompacted) <? threshold_messages)%Z then Ok (None, d)
            else
              let source := source_sequence d tenant_id session_id after_message_sequence in
              let key := auto_key generation source in
              match _by_idempotency_key d tenant_id session_id key with
              | Some existing =>
                  c ← _validate_compaction_replay existing route_name;
                  Ok (if bool_decide (comp_status c = COMPACTION_PENDING) then Some c else None, d)
              | None =>
                  d' ← insert_compaction d tenant_id session (auto_id session_id key) key source
                         route_name requested;
                  c ← inserted_compaction d' tenant_id session_id key route_name;
                  Ok (Some c, d')
              end
        end
    end).

Definition optional_domain (r : option ContextCompactionRecord)
    : result (option PersistedContextCompaction) :=
  match r with Some r => c ← _compaction_domain r; Ok (Some c) | None => Ok None end.

Definition pending_for_session (d : Db) (tenant_id session_id : uuid)
    : result (option PersistedContextCompaction) :=
  optional_domain (session ← tenant_session d tenant_id session_id;
    first_in_status d tenant_id session_id (sess_context_generation session) COMPACTION_PENDING
      requested_before).

Definition get (d : Db) (tenant_id session_id compaction_id : uuid)
    : result (option PersistedContextCompaction) :=
  optional_domain (r ← compactions d !! compaction_id;
    if bool_decide (cc_tenant_id r = tenant_id) && bool_decide (cc_session_id r = session_id)
    then Some r else None).

Definition latest_completed (d : Db) (tenant_id session_id : uuid)
    : result (option PersistedContextCompaction) :=
  optional_domain (session ← tenant_session d tenant_id session_id;
    first_in_status d tenant_id session_id (sess_context_generation session) COMPACTION_COMPLETED
      completed_after).

(** A terminal outcome of a compaction: a summary with its usage, or an error. *)
Record Outcome := mkCompactionOutcome {
  oc_summary : option pystr;
  oc_input_tokens : option Z;
  oc_output_tokens : option Z;
  oc_error : option ErrorDetail;
}.

Definition requested_status (o : Outcome) : CompactionStatus :=
  match oc_error o with Some _ => COMPACTION_FAILED | None => COMPACTION_COMPLETED end.

Definition same_outcome (c : PersistedContextCompaction) (o : Outcome) : bool :=
  bool_decide (comp_status c = requested_status o)
  && bool_decide (comp_summary c = oc_summary o)
  && bool_decide (comp_input_tokens c = oc_input_tokens o)
  && bool_decide (comp_output_tokens c = oc_output_tokens o)
  && bool_decide (comp_error c = error_json <$> oc_error o).

Definition _finish (d : Db) (tenant_id compaction_id : uuid) (o : Outcome) (completed_at : timestamp)
    : result (option PersistedContextCompaction * Db) :=
  commit (
    match compactions d !! compaction_id with
    | None => Ok (None, d)
    | Some row =>
        if negb (bool_decide (cc_tenant_id row = tenant_id)) then Ok (None, d)
        else if negb (bool_decide (cc_status row = COMPACTION_PENDING)) then
          current ← _compaction_domain row;
          _ ← ensure (same_outcome current o) (DomainOperationError "context_compaction_conflict" false);
          Ok (Some current, d)
        else
          let row := mkContextCompaction (cc_id row) (cc_tenant_id row) (cc_session_id row)
            (cc_context_generation row) (requested_status o) (cc_idempotency_key row)
            (cc_source_message_sequence row) (cc_route_name row) (oc_summary o) (oc_input_tokens o)
            (oc_output_tokens o) (error_json <$> oc_error o) (cc_requested_at row)
            (Some completed_at) in
          c ← _compaction_domain row;
          Ok (Some c, set_compactions d (<[compaction_id := row]> (compactions d)))
    end).

Definition complete (d : Db) (tenant_id compaction_id : uuid) (summary : pystr)
    (input_tokens output_tokens : Z) (completed_at : timestamp) :=
  _finish d tenant_id compaction_id
    (mkCompactionOutcome (Some summary) (Some input_tokens) (Some output_tokens) None) completed_at.

Definition fail (d : Db) (tenant_id compaction_id : uuid) (error_ : ErrorDetail)
    (completed_at : timestamp) :=
  _finish d tenant_id compaction_id (mkCompactionOutcome None None None (Some error_)) completed_at.
End ContextRepository.
