(* ===== verification/MemoryJobs.v ===== *)
(** * Long-term memory

    [PersistedMemory] and [MemoryExtractionJob] of [agent_core/control.py] and
    [PostgresMemoryRepository] of [platform_persistence/context_management.py]: the
    extraction queue with its fenced leases, the bounded source of a job, and the
    provenance-checked storage of memories.

    [job_id] stands for the name-based identifier of a job, [text_digest] for the
    SHA-256 hex digest of UTF-8 text; the set of rows locked by others is an
    argument of the claim. *)

From stdpp Require Import base list sets gmap strings sorting.
From Stdlib Require Import ZArith Lia.
From S2P Require Import Prelude PyBase Domain Tables Contracts RunQueue RunRepository Transcripts Execution Recovery TaskPlans ContextStore.

Definition MAX_MEMORY_RESULTS : Z := 500.
Definition MAX_MEMORIES_PER_EXTRACTION : nat := 100.
Definition MAX_MEMORY_SOURCE_MESSAGES : nat := 2000.
Definition MAX_MEMORY_JOB_ATTEMPTS : Z := 100.
Definition MAX_MEMORY_WORKER_ID_LENGTH : nat := 255.
Definition MAX_PERSISTED_MEMORY_BYTES : N := 65536.

(** ** Contracts *)

(** The entity has the columns of its row. *)
Abbreviation PersistedMemory := MemoryRecord (only parsing).

Abbreviation job_key := (uuid * uuid * Z)%type (only parsing).

Record MemoryExtractionJob := mkJob {
  job_identifier : uuid;
  job_tenant_id : uuid;
  job_session_id : uuid;
  job_run_id : uuid;
  job_execution_epoch : Z;
  job_status : MemoryJobStatus;
  job_source_message_sequence : Z;
  job_attempt : Z;
  job_worker_id : option pystr;
  job_lease_token : option uuid;
  job_lease_generation : Z;
  job_lease_expires_at : option timestamp;
  job_error : option json;
  job_created_at : timestamp;
  job_started_at : option timestamp;
  job_completed_at : option timestamp;
}.

(** [MemoryExtractionJob.validate_lifecycle] *)
Definition validate_job_lifecycle (j : MemoryExtractionJob) : result unit :=
  _ ← (match job_status j with
       | JOB_PENDING =>
           ensure (is_none (job_started_at j) && is_none (job_completed_at j) && is_none (job_error j)
                   && is_none (job_worker_id j) && is_none (job_lease_token j)
                   && is_none (job_lease_expires_at j))
             (ValidationError "pending memory job may not have execution state")
       | JOB_RUNNING =>
           ensure (is_some (job_started_at j) && is_none (job_completed_at j) && is_none (job_error j)
                   && is_some (job_worker_id j) && is_some (job_lease_token j)
                   && is_some (job_lease_expires_at j) && (1 <=? job_lease_generation j)%Z)
             (ValidationError "running memory job requires fenced lease state")
       | JOB_COMPLETED =>
           ensure (is_some (job_started_at j) && is_some (job_completed_at j) && is_none (job_error j)
                   && is_none (job_worker_id j) && is_none (job_lease_token j)
                   && is_none (job_lease_expires_at j))
             (ValidationError "completed memory job requires execution timestamps")
       | JOB_FAILED =>
           ensure (is_some (job_started_at j) && is_some (job_completed_at j) && is_some (job_error j)
                   && is_none (job_worker_id j) && is_none (job_lease_token j)
                   && is_none (job_lease_expires_at j))
             (ValidationError "failed memory job requires timestamps and error")
       end);
  _ ← ensure (match job_started_at j with Some s => (job_created_at j <=? s)%Z | None => true end)
        (ValidationError "memory job start may not precede creation");
  _ ← ensure (match job_completed_at j, job_started_at j with
              | Some c, Some s => (s <=? c)%Z
              | Some _, None => false
              | None, _ => true
              end) (ValidationError "memory job completion may not precede start");
  ensure (match job_lease_expires_at j, job_started_at j with
          | Some e, Some s => (s <? e)%Z
          | Some _, None => false
          | None, _ => true
          end) (ValidationError "memory job lease must expire after its start").

Definition validate_job (j : MemoryExtractionJob) : result MemoryExtractionJob :=
  _ ← ensure (1 <=? job_execution_epoch j)%Z (ValidationError "execution_epoch");
  _ ← ensure (0 <=? job_source_message_sequence j)%Z (ValidationError "source_message_sequence");
  _ ← ensure ((1 <=? job_attempt j)%Z && (job_attempt j <=? 100)%Z) (ValidationError "attempt");
  worker ← validate_optional identifier_string (job_worker_id j);
  _ ← ensure (0 <=? job_lease_generation j)%Z (ValidationError "lease_generation");
  _ ← ensure (optional_object (job_error j)) (ValidationError "error");
  let j := mkJob (job_identifier j) (job_tenant_id j) (job_session_id j) (job_run_id j)
    (job_execution_epoch j) (job_status j) (job_source_message_sequence j) (job_attempt j) worker
    (job_lease_token j) (job_lease_generation j) (job_lease_expires_at j) (job_error j)
    (job_created_at j) (job_started_at j) (job_completed_at j) in
  _ ← validate_job_lifecycle j;
  Ok j.

(** ** Sources *)

(** [_utf8_tail]: the bytes before the cut and the rest of a split character are
    dropped, so what stays is the longest suffix of whole characters that fits. *)
Fixpoint _utf8_tail (value : pystr) (limit : N) : pystr :=
  if (utf8_len value <=? limit)%N then value
  else match value with
       | [] => []
       | _ :: rest => _utf8_tail rest limit
       end.

Definition render_message (m : MessageRecord) : pystr :=
  py "[" ++ role_value (msg_role m) ++ py "] " ++ msg_content m.

(** The loop over the newest messages first; [selected] holds the chosen texts,
    the latest chosen first. *)
Fixpoint select_source (max_bytes : N) (selected : list pystr) (retained_bytes : N)
    (rows : list MessageRecord) : list pystr :=
  match rows with
  | [] => selected
  | m :: rows =>
      let rendered := render_message m in
      let rendered_bytes := (utf8_len rendered + if is_nil selected then 0 else 1)%N in
      if (max_bytes <? retained_bytes + rendered_bytes)%N then
        if is_nil selected then
          let rendered := _utf8_tail rendered max_bytes in
          select_source max_bytes [rendered] (retained_bytes + utf8_len rendered) rows
        else selected
      else select_source max_bytes (rendered :: selected) (retained_bytes + rendered_bytes) rows
  end.

(** ["\n".join(...)] *)
Fixpoint join_lines (l : list pystr) : pystr :=
  match l with
  | [] => []
  | [s] => s
  | s :: l => s ++ 10%N :: join_lines l
  end.

Definition _memory_lease_lost : error := DomainOperationError "memory_extraction_lease_lost" true.

Definition _assert_memory_job_lease (r : MemoryExtractionJobRecord) (j : MemoryExtractionJob)
    (occurred_at : timestamp) : result unit :=
  ensure (bool_decide (mj_worker_id r = job_worker_id j)
          && bool_decide (mj_lease_token r = job_lease_token j)
          && (mj_lease_generation r =? job_lease_generation j)%Z
          && bool_decide (mj_lease_expires_at r = job_lease_expires_at j)
          && is_some (mj_lease_token r)
          && (match mj_lease_expires_at r with Some e => (occurred_at <? e)%Z | None => false end))
    _memory_lease_lost.

Definition _assert_terminal_generation (r : MemoryExtractionJobRecord) (j : MemoryExtractionJob)
    : result unit :=
  ensure (mj_lease_generation r =? job_lease_generation j)%Z _memory_lease_lost.

(** A terminal row: the status, error and completion, without lease
    ([_clear_memory_job_lease]). *)
Definition close_job (r : MemoryExtractionJobRecord) (status : MemoryJobStatus) (error_ : option json)
    (started_at : option timestamp) (completed_at : timestamp) : MemoryExtractionJobRecord :=
  mkMemoryJob (mj_session_id r) status (mj_source_message_sequence r) (mj_attempt r) None None
    (mj_lease_generation r) None error_ (mj_created_at r) started_at (Some completed_at).

(** Both switches: the session opted in, the tenant did not opt out. *)
Definition _memory_enabled (d : Db) (tenant_id session_id : uuid) : bool :=
  (match ContextRepository.tenant_session d tenant_id session_id with
   | Some s => sess_memory_enabled s
   | None => false
   end)
  && (match tenant_quotas d !! tenant_id with Some q => tq_memory_enabled q | None => true end).

Definition put_job (d : Db) (key : job_key) (r : MemoryExtractionJobRecord) : Db :=
  set_memory_jobs d (<[key := r]> (memory_jobs d)).

Module MemoryRepository.
Section MemoryRepository.
Variable job_id : job_key → uuid.
Variable text_digest : pystr → pystr.

(** [memory_content_hash] and [PersistedMemory.validate_archive] after the field
    constraints *)
Definition validate_memory (m : PersistedMemory) : result PersistedMemory :=
  _ ← ensure (1 <=? mem_execution_epoch m)%Z (ValidationError "execution_epoch");
  let content := strip_by is_white_space (mem_content m) in
  _ ← ensure ((1 <=? length content)%nat && (N.of_nat (length content) <=? MAX_PERSISTED_MEMORY_BYTES)%N)
        (ValidationError "content");
  _ ← ensure (sha256_hex_ok (mem_content_hash m)) (ValidationError "content_hash");
  _ ← ensure (is_json_object (mem_metadata m)) (ValidationError "metadata");
  _ ← ensure (utf8_len content <=? MAX_PERSISTED_MEMORY_BYTES)%N
        (ValidationError "memory content exceeds its UTF-8 byte limit");
  _ ← ensure (bool_decide (mem_content_hash m = text_digest content))
        (ValidationError "memory content hash does not match its content");
  _ ← ensure (match mem_archived_at m with Some t => (mem_extracted_at m <=? t)%Z | None => true end)
        (ValidationError "memory archive may not precede extraction");
  Ok (mkMemoryRecord (mem_id m) (mem_tenant_id m) (mem_session_id m) (mem_source_run_id m)
        (mem_execution_epoch m) (mem_kind m) content (mem_content_hash m) (mem_metadata m)
        (mem_extracted_at m) (mem_archived_at m)).

Definition _memory_domain (r : MemoryRecord) : result PersistedMemory := validate_memory r.

Definition _memory_job_domain (key : job_key) (r : MemoryExtractionJobRecord)
    : result MemoryExtractionJob :=
  let '(tenant_id, run_id, epoch) := key in
  validate_job (mkJob (job_id key) tenant_id (mj_session_id r) run_id epoch (mj_status r)
    (mj_source_message_sequence r) (mj_attempt r) (mj_worker_id r) (mj_lease_token r)
    (mj_lease_generation r) (mj_lease_expires_at r) (mj_error r) (mj_created_at r) (mj_started_at r)
    (mj_completed_at r)).

Definition set_session_enabled (d : Db) (tenant_id session_id : uuid) (enabled : bool)
    : result (bool * Db) :=
  commit (
    match ContextRepository.tenant_session d tenant_id session_id with
    | None => Ok (false, d)
    | Some s =>
        Ok (true, set_sessions d (<[session_id := mkSessionRecord (sess_id s) (sess_tenant_id s)
          (sess_workspace_id s) (sess_approval_mode s) (sess_model_route s) enabled
          (sess_context_generation s)]> (sessions d)))
    end).

(** ORDER BY extracted_at DESC, id *)
Definition memory_le (a b : MemoryRecord) : Prop :=
  (mem_extracted_at b < mem_extracted_at a ∨
   (mem_extracted_at a = mem_extracted_at b ∧ (mem_id a <= mem_id b)%N))%Z.
#[export] Instance memory_le_dec : RelDecision memory_le.
Proof. intros a b. unfold memory_le. apply _. Defined.

Definition memory_run_active (d : Db) (m : MemoryRecord) : bool :=
  match runs d !! mem_source_run_id m with
  | Some r => bool_decide (rr_tenant_id r = mem_tenant_id m)
              && (rr_execution_epoch r =? mem_execution_epoch m)%Z
  | None => false
  end.

Definition list_active (d : Db) (tenant_id session_id : uuid) (limit : Z)
    : result (list PersistedMemory) :=
  _ ← ensure ((1 <=? limit)%Z && (limit <=? MAX_MEMORY_RESULTS)%Z)
        (ValueError "memory result limit must be in [1, 500]");
  if negb (_memory_enabled d tenant_id session_id) then Ok []
  else traverse _memory_domain (take (Z.to_nat limit) (merge_sort memory_le
    (select_where (λ m, bool_decide (mem_tenant_id m = tenant_id)
                        && bool_decide (mem_session_id m = session_id)
                        && is_none (mem_archived_at m) && memory_run_active d m) (memories d)))).

Definition archive (d : Db) (tenant_id session_id memory_id : uuid) (archived_at : timestamp)
    : result (option PersistedMemory * Db) :=
  commit (
    match memories d !! memory_id with
    | Some m =>
        if bool_decide (mem_tenant_id m = tenant_id) && bool_decide (mem_session_id m = session_id)
           && is_none (mem_archived_at m)
        then
          let m := mkMemoryRecord (mem_id m) (mem_tenant_id m) (mem_session_id m)
            (mem_source_run_id m) (mem_execution_epoch m) (mem_kind m) (mem_content m)
            (mem_content_hash m) (mem_metadata m) (mem_extracted_at m) (Some archived_at) in
          v ← _memory_domain m;
          Ok (Some v, set_memories d (<[memory_id := m]> (memories d)))
        else Ok (None, d)
    | None => Ok (None, d)
    end).

(** ** The extraction queue *)

(** A job of the current branch that is pending or whose lease has run out *)
Definition claimable (d : Db) (occurred_at : timestamp) (key : job_key)
    (r : MemoryExtractionJobRecord) : bool :=
  let '(tenant_id, run_id, epoch) := key in
  (match runs d !! run_id with
   | Some run => bool_decide (rr_tenant_id run = tenant_id) && (rr_execution_epoch run =? epoch)%Z
   | None => false
   end)
  && (bool_decide (mj_status r = JOB_PENDING)
      || (bool_decide (mj_status r = JOB_RUNNING)
          && (match mj_lease_expires_at r with Some e => (e <=? occurred_at)%Z | None => false end))).

(** ORDER BY coalesce(lease_expires_at, created_at), id *)
Definition job_due (r : MemoryExtractionJobRecord) : timestamp :=
  default (mj_created_at r) (mj_lease_expires_at r).
Definition job_before (a b : job_key * MemoryExtractionJobRecord) : bool :=
  (job_due a.2 <? job_due b.2)%Z
  || ((job_due a.2 =? job_due b.2)%Z && (job_id a.1 <? job_id b.1)%N).

Definition exhausted_error : json := error_json
  (mkErrorDetail (py "memory_extraction_retry_exhausted")
     (py "memory extraction exhausted its retry limit") false (JObject [])).

(** What a claim makes of the selected row. *)
Definition claimed_row (d : Db) (key : job_key) (r : MemoryExtractionJobRecord) (worker_id : pystr)
    (occurred_at : timestamp) (lease_duration : timedelta) (token : uuid)
    : result MemoryExtractionJobRecord :=
  let recovering := bool_decide (mj_status r = JOB_RUNNING) in
  if recovering && (MAX_MEMORY_JOB_ATTEMPTS <=? mj_attempt r)%Z then
    Ok (close_job r JOB_FAILED (Some exhausted_error) (mj_started_at r) occurred_at)
  else if negb (_memory_enabled d key.1.1 (mj_session_id r)) then
    Ok (close_job r JOB_COMPLETED (mj_error r)
          (Some (default occurred_at (mj_started_at r))) occurred_at)
  else
    _ ← ensure (negb (token =? 0)%N) (TypeError "memory lease token factory returned an invalid UUID");
    Ok (mkMemoryJob (mj_session_id r) JOB_RUNNING (mj_source_message_sequence r)
          (mj_attempt r + if recovering then 1 else 0) (Some worker_id) (Some token)
          (mj_lease_generation r + 1) (Some (occurred_at + lease_duration)%Z) (mj_error r)
          (mj_created_at r) (Some occurred_at) (mj_completed_at r)).

Definition claim_pending (locked : job_key → bool) (d : Db) (worker_id : pystr)
    (occurred_at : timestamp) (lease_duration : timedelta) (token : uuid)
    : result (option MemoryExtractionJob * Db) :=
  _ ← ensure (negb (is_nil (py_strip worker_id)) && (length worker_id <=? MAX_MEMORY_WORKER_ID_LENGTH)%nat)
        (ValueError "memory extraction worker ID is invalid");
  _ ← ensure ((0 <? lease_duration)%Z && (lease_duration <=? seconds 3600)%Z)
        (ValueError "memory extraction lease duration must be in (0, 3600] seconds");
  commit (
    match first_by job_before
            (filter (λ e, claimable d occurred_at e.1 e.2 && negb (locked e.1) = true)
               (map_to_list (memory_jobs d))) with
    | None => Ok (None, d)
    | Some (key, r) =>
        r ← claimed_row d key r worker_id occurred_at lease_duration token;
        j ← _memory_job_domain key r;
        Ok (Some j, put_job d key r)
    end).

Definition job_row_key (j : MemoryExtractionJob) : job_key :=
  (job_tenant_id j, job_run_id j, job_execution_epoch j).

Definition source_for_job (d : Db) (j : MemoryExtractionJob) (max_bytes : N) (occurred_at : datetime)
    : result pystr :=
  _ ← ensure ((1 <=? max_bytes)%N && (max_bytes <=? 4 * 1024 * 1024)%N)
        (ValueError "memory extraction source limit is invalid");
  timestamp_ ← normalize_timestamp occurred_at;
  r ← require (scalar_where (λ e : job_key * MemoryExtractionJobRecord,
                  bool_decide (e.1.1.1 = job_tenant_id j) && (job_id e.1 =? job_identifier j)%N)
                (map_imap (λ k r, Some (k, r)) (memory_jobs d))) _memory_lease_lost;
  _ ← ensure (bool_decide (mj_status r.2 = JOB_RUNNING)) _memory_lease_lost;
  _ ← _assert_memory_job_lease r.2 j timestamp_;
  let rows := take MAX_MEMORY_SOURCE_MESSAGES (rev (merge_sort sequence_le
    (select_where (λ m, bool_decide (msg_tenant_id m = job_tenant_id j)
                        && bool_decide (msg_session_id m = job_session_id j)
                        && bool_decide (msg_run_id m = job_run_id j)
                        && (msg_execution_epoch m =? job_execution_epoch j)%Z
                        && (msg_sequence m <=? job_source_message_sequence j)%Z) (messages d)))) in
  Ok (join_lines (select_source max_bytes [] 0 rows)).

Definition _locked_job (d : Db) (j : MemoryExtractionJob) : result MemoryExtractionJobRecord :=
  require (match memory_jobs d !! job_row_key j with
           | Some r =>
               if (job_id (job_row_key j) =? job_identifier j)%N
                  && bool_decide (mj_session_id r = job_session_id j)
                  && (mj_source_message_sequence r =? job_source_message_sequence j)%Z
               then Some r else None
           | None => None
           end) _state_conflict.

(** INSERT ... ON CONFLICT (identity) DO NOTHING *)
Definition insert_memory (d : Db) (tenant_id : uuid) (m : PersistedMemory) : result Db :=
  let row := mkMemoryRecord (mem_id m) tenant_id (mem_session_id m) (mem_source_run_id m)
    (mem_execution_epoch m) (mem_kind m) (mem_content m) (mem_content_hash m) (mem_metadata m)
    (mem_extracted_at m) (mem_archived_at m) in
  match scalar_where (λ m', bool_decide (memory_identity m' = memory_identity row)) (memories d) with
  | Some _ => Ok d
  | None =>
      _ ← ensure (is_none (memories d !! mem_id m)) integrity_error;
      Ok (set_memories d (<[mem_id m := row]> (memories d)))
  end.

Definition store_memory (j : MemoryExtractionJob) (d : Db) (m : PersistedMemory) : result Db :=
  _ ← ensure (bool_decide (mem_tenant_id m = job_tenant_id j)
              && bool_decide (mem_session_id m = job_session_id j)
              && bool_decide (mem_source_run_id m = job_run_id j)
              && (mem_execution_epoch m =? job_execution_epoch j)%Z)
        (ValueError "memory provenance does not match its extraction job");
  insert_memory d (job_tenant_id j) m.

Definition complete (d : Db) (j : MemoryExtractionJob) (new_memories : list PersistedMemory)
    (completed_at : timestamp) : result (MemoryExtractionJob * Db) :=
  _ ← ensure (bool_decide (job_status j = JOB_RUNNING))
        (ValueError "only a running memory extraction job can complete");
  _ ← ensure (length new_memories <=? MAX_MEMORIES_PER_EXTRACTION)%nat
        (ValueError "one memory extraction job may produce at most 100 memories");
  commit (
    r ← _locked_job d j;
    if bool_decide (mj_status r = JOB_COMPLETED) then
      _ ← _assert_terminal_generation r j;
      v ← _memory_job_domain (job_row_key j) r;
      Ok (v, d)
    else
      _ ← ensure (bool_decide (mj_status r = JOB_RUNNING)) _memory_lease_lost;
      _ ← _assert_memory_job_lease r j completed_at;
      d1 ← (if _memory_enabled d (job_tenant_id j) (job_session_id j)
            then foldM (store_memory j) d new_memories else Ok d);
      let r := close_job r JOB_COMPLETED (mj_error r) (mj_started_at r) completed_at in
      v ← _memory_job_domain (job_row_key j) r;
      Ok (v, put_job d1 (job_row_key j) r)).

Definition fail (d : Db) (j : MemoryExtractionJob) (error_ : ErrorDetail) (completed_at : timestamp)
    : result (MemoryExtractionJob * Db) :=
  commit (
    r ← _locked_job d j;
    if bool_decide (mj_status r = JOB_FAILED) then
      _ ← _assert_terminal_generation r j;
      v ← _memory_job_domain (job_row_key j) r;
      Ok (v, d)
    else
      _ ← ensure (bool_decide (mj_status r = JOB_RUNNING)) _memory_lease_lost;
      _ ← _assert_memory_job_lease r j completed_at;
      let r := close_job r JOB_FAILED (Some (error_json error_)) (mj_started_at r) completed_at in
      v ← _memory_job_domain (job_row_key j) r;
      Ok (v, put_job d (job_row_key j) r)).
End MemoryRepository.
End MemoryRepository.
