(* ===== verification/WorkerContext.v ===== *)
(** * The worker's run context

    [apps/agent-worker/src/agent_worker/context.py]: [PersistentRunContextSource.load]
    gathers history, memories, file references, the workspace snapshot and recovered
    tool outcomes into one build request; [DurableRunContextBuilder.build] joins it
    with the life of compaction requests and the context pipeline.

    Each store call is a transaction of its own; the functions below run them in
    program order with no other writer in between.  The redactor, the SHA-256 digest
    and the workspace source are parameters. *)

From stdpp Require Import base list sets gmap strings pretty.
From Stdlib Require Import ZArith Lia.
From S2P Require Import Prelude PyBase WorkspaceAccess Domain Tables Contracts RunQueue Transcripts Execution Recovery TaskPlans PyText Gateway ContextPipeline ContextStore MemoryJobs.

Definition _MAX_SOURCE_MESSAGES : Z := 4096.
Definition _MAX_SOURCE_MEMORIES : Z := 500.
Definition _DEFAULT_PROACTIVE_COMPACTION_MESSAGES : Z := 3072.
Definition _MAX_RECENT_TOOL_RESULT_BYTES : N := 64 * 1024.

(** [_gateway_message] of a persisted message *)
Definition persisted_gateway_message (m : PersistedMessage) : result GatewayMessage :=
  let metadata := pm_metadata m in
  let candidate := JObject
    [(py "content", JString (pm_content m));
     (py "role", JString (role_value (pm_role m)));
     (py "tool_call_id", default JNull (json_get metadata (py "tool_call_id")));
     (py "tool_calls", default (JArray []) (json_get metadata (py "tool_calls")))] in
  match message_of_json candidate with
  | Ok message => Ok message
  | Err _ => Err (DomainOperationError "context_message_invalid" false)
  end.

Section Source.
Variable casefold : pystr → pystr.
Variable request_size : ContextBuildRequest → Z.
Variable redact_text : pystr → pystr.
(** [Redactor.redact] of a JSON object *)
Variable redact : json → json.
(** [hashlib.sha256(s.encode()).hexdigest()] *)
Variable sha256_hex : pystr → pystr.

(** [_recent_tool_result_content]: decoding the cut bytes with [errors="ignore"]
    drops the split character. *)
Definition _recent_tool_result_content (outcome : DurableToolOutcome) : pystr :=
  let payload :=
    match out_result outcome, out_error outcome with
    | Some result_, _ => result_
    | None, Some error_ => error_json error_
    | None, None => JObject []
    end in
  let serialized := _canonical_json (redact payload) in
  if (utf8_len serialized <=? _MAX_RECENT_TOOL_RESULT_BYTES)%N then serialized
  else
    let marker := py "[TRUNCATED size_bytes=" ++ py (pretty (utf8_len serialized))
                  ++ py " sha256=" ++ sha256_hex serialized ++ py "]" ++ newline in
    marker ++ utf8_fit (N.to_nat (_MAX_RECENT_TOOL_RESULT_BYTES - utf8_len marker)) serialized.

Record PersistentRunContextSource := mkContextSource {
  src_system_instructions : pystr;
  src_message_limit : Z;
  src_memory_limit : Z;
  src_workspace_context :
    option (RunLease → WorkspaceWriterLease → list pystr → result WorkspaceContextSnapshot);
}.

(** [PersistentRunContextSource.__init__] *)
Definition make_context_source (s : PersistentRunContextSource) : result PersistentRunContextSource :=
  _ ← ensure (negb (is_nil (src_system_instructions s))
              && (utf8_len (src_system_instructions s) <=? 64 * 1024)%N)
        (ValueError "system instructions must contain at most 64 KiB of UTF-8 text");
  _ ← ensure ((1 <=? src_message_limit s)%Z && (src_message_limit s <=? _MAX_SOURCE_MESSAGES)%Z)
        (ValueError "context message limit must be in [1, 4096]");
  _ ← ensure ((1 <=? src_memory_limit s)%Z && (src_memory_limit s <=? _MAX_SOURCE_MEMORIES)%Z)
        (ValueError "context memory limit must be in [1, 500]");
  Ok s.

Definition writer_matches_run (lease : RunLease) (w : WorkspaceWriterLease) : bool :=
  bool_decide (writer_tenant_id w = lease_tenant_id lease)
  && bool_decide (writer_run_id w = lease_run_id lease)
  && bool_decide (writer_workspace_id w = lease_workspace_id lease)
  && bool_decide (writer_run_lease_token w = lease_lease_token lease).

Definition load_workspace (s : PersistentRunContextSource) (lease : RunLease) (w : WorkspaceWriterLease)
    (references : list pystr) : result WorkspaceContextSnapshot :=
  match src_workspace_context s with
  | None =>
      _ ← ensure (is_nil references) (DomainOperationError "context_workspace_source_unavailable" true);
      Ok (mkWorkspaceSnapshot [] [] [])
  | Some load => load lease w references
  end.

(** [PersistentRunContextSource.load] *)
Definition load (s : PersistentRunContextSource) (d : Db) (lease : RunLease) (w : WorkspaceWriterLease)
    (recovery : RunRecoveryState) (after_message_sequence through_message_sequence : option Z)
    (previous_summary : option pystr) (force_compaction : bool) : result ContextBuildRequest :=
  _ ← ensure (writer_matches_run lease w) (DomainOperationError "context_workspace_lease_mismatch" true);
  durable_messages ← list_messages d (lease_tenant_id lease) (lease_session_id lease)
    after_message_sequence through_message_sequence (src_message_limit s);
  conversation ← traverse persisted_gateway_message durable_messages;
  let conversation :=
    if is_nil conversation && is_none previous_summary then rs_messages recovery else conversation in
  memories ← MemoryRepository.list_active sha256_hex d (lease_tenant_id lease) (lease_session_id lease)
    (src_memory_limit s);
  references ← referenced_files_for_run casefold d (lease_tenant_id lease) (lease_run_id lease);
  workspace ← load_workspace s lease w references;
  validate_build_request casefold request_size (mkContextRequest (lease_tenant_id lease)
    (lease_session_id lease) (lease_run_id lease) (lease_execution_epoch lease)
    (lease_route_name lease) (src_system_instructions s)
    (redact_text (wcs_project_instructions workspace)) conversation
    ((λ item, mkContextFile (redact_text (rcf_path item)) (redact_text (rcf_content item))
                (rcf_active item)) <$> wcs_referenced_files workspace)
    (rs_task_plan recovery)
    ((λ outcome, mkContextToolResult (out_tool_call_id outcome) (out_tool_name outcome)
                   (_recent_tool_result_content outcome) (is_some (out_error outcome)))
       <$> rs_prior_tool_outcomes recovery)
    ((λ memory, mkMemorySnippet (mem_id memory) (mem_content memory)) <$> memories)
    (redact_text (wcs_current_git_diff workspace)) previous_summary force_compaction).

(** ** The builder *)

Variable encoded_size : GatewayMessage → Z.
Variable compress : ContextCompressionRequest → result ContextCompressionResult.
(** The name-based identifier of an automatic compaction request *)
Variable auto_id : uuid → pystr → uuid.

Record DurableRunContextBuilder := mkContextBuilder {
  dcb_pipeline : ContextPipeline;
  dcb_source : PersistentRunContextSource;
  dcb_proactive : bool;
  dcb_proactive_threshold_messages : Z;
}.

(** [DurableRunContextBuilder.__init__] *)
Definition make_context_builder (b : DurableRunContextBuilder) : result DurableRunContextBuilder :=
  _ ← ensure ((1 <=? dcb_proactive_threshold_messages b)%Z
              && (dcb_proactive_threshold_messages b <? _MAX_SOURCE_MESSAGES)%Z)
        (ValueError "proactive compaction threshold must be in [1, 4095]");
  Ok b.

Definition compaction_failed : ErrorDetail :=
  mkErrorDetail (py "context_compaction_failed") (py "context compaction could not be completed") true
    (JObject []).
Definition compaction_empty : ErrorDetail :=
  mkErrorDetail (py "context_compaction_empty") (py "no noncritical context was available to compact")
    false (JObject []).

(** The pending request, created when the history has grown past the threshold. *)
Definition pending_compaction (b : DurableRunContextBuilder) (now : timestamp) (d : Db) (lease : RunLease)
    (latest : option PersistedContextCompaction)
    : result (option PersistedContextCompaction * Db) :=
  pending ← ContextRepository.pending_for_session d (lease_tenant_id lease) (lease_session_id lease);
  match pending with
  | Some _ => Ok (pending, d)
  | None =>
      if dcb_proactive b then
        ContextRepository.request_compaction_if_needed auto_id d (lease_tenant_id lease)
          (lease_session_id lease) (comp_source_message_sequence <$> latest)
          (dcb_proactive_threshold_messages b) (lease_route_name lease) (utc now)
      else Ok (None, d)
  end.

Definition request_matches_lease (request : ContextBuildRequest) (lease : RunLease) : bool :=
  bool_decide (cbr_tenant_id request = lease_tenant_id lease)
  && bool_decide (cbr_session_id request = lease_session_id lease)
  && bool_decide (cbr_run_id request = lease_run_id lease)
  && bool_decide (cbr_route_name request = lease_route_name lease).

(** What becomes of the pending request after a successful pipeline build. *)
Definition settle_compaction (now : timestamp) (d : Db) (lease : RunLease)
    (pending : PersistedContextCompaction) (r : ContextBuildResult) : result Db :=
  match br_summary r, br_compression_input_tokens r, br_compression_output_tokens r with
  | Some summary, Some input_tokens, Some output_tokens =>
      '(completed, d') ← ContextRepository.complete d (lease_tenant_id lease) (comp_id pending) summary
                           input_tokens output_tokens now;
      _ ← ensure (is_some completed) (DomainOperationError "context_compaction_missing" true);
      Ok d'
  | _, _, _ =>
      '(_, d') ← ContextRepository.fail d (lease_tenant_id lease) (comp_id pending) compaction_empty now;
      Ok d'
  end.

(** [DurableRunContextBuilder.build]: the outcome and the database it leaves, also
    when it raises. *)
Definition build_run_context (b : DurableRunContextBuilder) (now : timestamp) (d : Db) (lease : RunLease)
    (w : WorkspaceWriterLease) (recovery : RunRecoveryState) : result ContextBuildResult * Db :=
  match (latest ← ContextRepository.latest_completed d (lease_tenant_id lease) (lease_session_id lease);
         '(pending, d1) ← pending_compaction b now d lease latest;
         Ok (latest, pending, d1)) with
  | Err e => (Err e, d)
  | Ok (latest, pending, d1) =>
      match (request ← load (dcb_source b) d1 lease w recovery (comp_source_message_sequence <$> latest)
               (comp_source_message_sequence <$> pending)
               (match latest with Some c => comp_summary c | None => rs_context_summary recovery end)
               (is_some pending);
             _ ← ensure (request_matches_lease request lease) (DomainOperationError "context_source_mismatch" true);
             Ok request) with
      | Err e => (Err e, d1)
      | Ok request =>
          match build encoded_size compress (dcb_pipeline b) request, pending with
          | Err e, None => (Err e, d1)
          | Err e, Some pending =>
              match ContextRepository.fail d1 (lease_tenant_id lease) (comp_id pending) compaction_failed now with
              | Ok (_, d2) => (Err e, d2)
              | Err e' => (Err e', d1)
              end
          | Ok r, None => (Ok r, d1)
          | Ok r, Some pending =>
              match settle_compaction now d1 lease pending r with
              | Ok d2 => (Ok r, d2)
              | Err e => (Err e, d1)
              end
          end
      end
  end.
End Source.
