(* ===== verification/Redaction.v ===== *)
(** * Redaction

    [platform_telemetry/redaction.py]: configured secrets and built-in token shapes are
    replaced in texts and nested values, and a streaming redactor releases text only up
    to a boundary that splits no secret.

    The regular expressions are lists of pieces (one class, a greedy repetition of a
    class, a word boundary) matched with backtracking, which is all the code uses of
    [re].  [is_word] is the Unicode class behind [\w]; [re] and [str.isspace] agree on
    blanks. *)

From stdpp Require Import base list sets gmap strings sorting.
From Stdlib Require Import ZArith Lia.
From S2P Require Import Prelude PyBase Domain Tables Contracts Transcripts Execution Recovery TaskPlans PyText.

Definition _REDACTED : pystr := py "[REDACTED]".
Definition _MIN_SECRET_LENGTH : nat := 4.

(** ** Strings *)

Fixpoint starts_with (needle hay : pystr) : bool :=
  match needle, hay with
  | [], _ => true
  | _, [] => false
  | a :: needle, b :: hay => (a =? b)%N && starts_with needle hay
  end.

(** [hay.find(needle, start)] *)
Fixpoint find_from (needle hay : pystr) (pos : nat) : option nat :=
  if starts_with needle hay then Some pos
  else match hay with [] => None | _ :: rest => find_from needle rest (S pos) end.
Definition find (needle hay : pystr) (start : nat) : option nat := find_from needle (drop start hay) start.

(** [hay.replace(needle, by_)] for a non-empty needle *)
Fixpoint replace_from (fuel : nat) (needle by_ hay : pystr) : pystr :=
  match fuel, hay with
  | S fuel, c :: rest =>
      if starts_with needle hay then by_ ++ replace_from fuel needle by_ (drop (length needle) hay)
      else c :: replace_from fuel needle by_ rest
  | _, _ => []
  end.
Definition replace (needle by_ hay : pystr) : pystr := replace_from (length hay) needle by_ hay.

(** ** Regular expressions *)

Inductive piece :=
| One (p : N → bool)
| Repeat (p : N → bool) (least : nat) (most : option nat)
| WordBoundary.

(** The length of the longest run of a class. *)
Fixpoint run_length (p : N → bool) (s : pystr) : nat :=
  match s with
  | c :: s => if p c then S (run_length p s) else 0
  | [] => 0
  end.

(** A letter of an expression that ignores case, with the letters outside ASCII that
    fold to it *)
Definition ignoring_case (c x : N) : bool :=
  (x =? c)%N || (in_range 97 122 c && (x + 32 =? c)%N) || (in_range 65 90 c && (x =? c + 32)%N)
  || match c with
     | 105 | 73 => (x =? 304) || (x =? 305)
     | 115 | 83 => (x =? 383)
     | 107 | 75 => (x =? 8490)
     | _ => false
     end%N.

Definition is_digit (c : N) : bool := in_range 48 57 c.
Definition is_upper (c : N) : bool := in_range 65 90 c.
Definition is_letter (c : N) : bool := in_range 65 90 c || in_range 97 122 c.
Definition is_token_char (c : N) : bool := is_letter c || is_digit c || (c =? 95)%N || (c =? 45)%N.
Definition is_bearer_char (c : N) : bool :=
  is_letter c || is_digit c || bool_decide (c ∈ [46; 95; 126; 43; 47; 61; 45]%N)
  || bool_decide (c ∈ [304; 305; 383; 8490]%N).
Definition literally (s : string) : list piece := (λ c, One (N.eqb c)) <$> py s.

Record pattern := mkPattern {
  pat_pieces : list piece;
  (** The pieces of the group [prefix] and the length of [suffix], where the
      expression has them; the prefix matches in one way only. *)
  pat_groups : option (list piece * nat);
}.

Definition user_part : list piece :=
  literally "://" ++ [Repeat (λ c, negb (bool_decide (c ∈ [58; 47; 64]%N) || py_isspace c)) 1 None; One (N.eqb 58)].

Definition _BUILTIN_PATTERNS : list pattern :=
  [mkPattern (WordBoundary :: literally "sk-ant-" ++ [Repeat is_token_char 8 None; WordBoundary]) None;
   mkPattern (WordBoundary :: literally "sk-" ++ [Repeat is_token_char 8 None; WordBoundary]) None;
   mkPattern (WordBoundary :: literally "AKIA" ++ [Repeat (λ c, is_digit c || is_upper c) 16 (Some 16); WordBoundary]) None;
   mkPattern (WordBoundary :: ((λ c, One (ignoring_case c)) <$> py "Bearer")
              ++ [Repeat py_isspace 1 None; Repeat is_bearer_char 1 None; WordBoundary]) None;
   mkPattern (WordBoundary :: literally "eyJ" ++ [Repeat is_token_char 5 None; One (N.eqb 46); Repeat is_token_char 5 None;
                One (N.eqb 46); Repeat is_token_char 5 None; WordBoundary]) None;
   mkPattern (user_part ++ [Repeat (λ c, negb ((c =? 64)%N || py_isspace c)) 1 None; One (N.eqb 64)])
     (Some (user_part, 1))].

(** [_SENSITIVE_KEY.search] *)
Definition ci (s : string) : list piece := (λ c, One (ignoring_case c)) <$> py s.
Definition sensitive_words : list (list piece) :=
  [ci "api" ++ [Repeat (λ c, bool_decide (c ∈ [95; 45]%N)) 0 (Some 1)] ++ ci "key"; ci "authorization"; ci "credential";
   ci "password"; ci "secret"; ci "token"].

Definition longer_first (a b : pystr) : Prop := length b ≤ length a.
#[export] Instance longer_first_dec a b : Decision (longer_first a b).
Proof. unfold longer_first. apply _. Defined.

Section Redactor.
Variable is_word : N → bool.

Definition word_at (o : option N) : bool := match o with Some c => is_word c | None => false end.

(** The length of the match of the pieces at the head of [s], after [previous]. *)
Fixpoint match_here (pieces : list piece) (previous : option N) (s : pystr) : option nat :=
  match pieces with
  | [] => Some 0
  | One p :: rest =>
      match s with
      | c :: s' => if p c then S <$> match_here rest (Some c) s' else None
      | [] => None
      end
  | WordBoundary :: rest =>
      if negb (eqb (word_at previous) (word_at (head s))) then match_here rest previous s else None
  | Repeat p least most :: rest =>
      let longest := match most with
                     | Some m => Nat.min m (run_length p s)
                     | None => run_length p s
                     end in
      (fix back (k : nat) : option nat :=
         if (k <? least)%nat then None
         else match match_here rest (match k with O => previous | S j => s !! j end) (drop k s) with
              | Some n => Some (k + n)
              | None => match k with O => None | S k => back k end
              end) longest
  end.

(** [pattern.finditer]: the spans of the matches; a match of the patterns is never
    empty. *)
Fixpoint finditer_from (fuel : nat) (pieces : list piece) (previous : option N) (s : pystr) (pos : nat)
    : list (nat * nat) :=
  match fuel, s with
  | S fuel, c :: s' =>
      match match_here pieces previous s with
      | Some (S n) => (pos, pos + S n) :: finditer_from fuel pieces (s !! n) (drop (S n) s) (pos + S n)
      | _ => finditer_from fuel pieces (Some c) s' (S pos)
      end
  | _, _ => []
  end.
Definition finditer (pieces : list piece) (s : pystr) : list (nat * nat) :=
  finditer_from (length s) pieces None s 0.

(** [pattern.sub] *)
Fixpoint sub_from (fuel : nat) (p : pattern) (previous : option N) (s : pystr) : pystr :=
  match fuel, s with
  | S fuel, c :: s' =>
      match match_here (pat_pieces p) previous s with
      | Some (S n) =>
          let found := take (S n) s in
          let kept := match pat_groups p with
                      | Some (prefix, suffix) => (default 0 (match_here prefix previous s), suffix)
                      | None => (0, 0)
                      end in
          take kept.1 found ++ _REDACTED ++ drop (S n - kept.2) found
          ++ sub_from fuel p (s !! n) (drop (S n) s)
      | _ => c :: sub_from fuel p (Some c) s'
      end
  | _, _ => []
  end.
Definition sub (p : pattern) (s : pystr) : pystr := sub_from (length s) p None s.

(** ** [Redactor] *)

(** [Redactor.__init__]: long secrets first. *)
Definition make_secrets (known : list pystr) : list pystr :=
  merge_sort longer_first (remove_dups (filter (λ s, _MIN_SECRET_LENGTH ≤ length s) known)).

Section Known.
Variable known_secrets : list pystr.

Definition redact_text (value : pystr) : pystr :=
  foldl (λ redacted p, sub p redacted)
    (foldl (λ redacted secret, replace secret _REDACTED redacted) value known_secrets) _BUILTIN_PATTERNS.

Definition sensitive_key (key : pystr) : bool :=
  existsb (λ w, negb (is_nil (finditer w key))) sensitive_words.

(** [Redactor.redact] of a JSON value *)
Fixpoint redact_value (value : json) : json :=
  match value with
  | JString s => JString (redact_text s)
  | JArray l => JArray ((fix go l := match l with [] => [] | x :: l => redact_value x :: go l end) l)
  | JObject fields =>
      JObject ((fix go l := match l with
                | [] => []
                | (k, x) :: l => (k, if sensitive_key k then JString _REDACTED else redact_value x) :: go l
                end) fields)
  | _ => value
  end.

(** ** [StreamingRedactor] *)

Record StreamingRedactor := mkStreaming {
  str_pending : pystr;
  str_finished : bool;
}.

Definition literal_overlap : nat := foldr (λ secret n, Nat.max (length secret - 1) n) 0 known_secrets.

(** [_last_two_tokens_start], reading from the end *)
Definition not_space (c : N) : bool := negb (py_isspace c).
Definition _last_two_tokens_start (value : pystr) : nat :=
  let before := drop_while py_isspace (drop_while not_space (drop_while py_isspace (rev value))) in
  match before with
  | [] => 0
  | _ => length (drop_while not_space before)
  end.

(** The search for an occurrence of one secret across the boundary *)
Fixpoint cross_loop (fuel : nat) (value secret : pystr) (boundary : nat) (position : option nat) : nat :=
  match fuel, position with
  | S fuel, Some position =>
      if (position <? boundary)%nat then
        if (boundary <? position + length secret)%nat then position
        else cross_loop fuel value secret boundary (find secret value (S position))
      else boundary
  | _, _ => boundary
  end.
Definition cross_secret (value secret : pystr) (boundary : nat) : nat :=
  cross_loop (S (length value)) value secret boundary (find secret value (boundary + 1 - length secret)).

(** The first match of one pattern across the boundary *)
Fixpoint cross_matches (boundary : nat) (spans : list (nat * nat)) : nat :=
  match spans with
  | [] => boundary
  | (a, b) :: rest => if (a <? boundary)%nat && (boundary <? b)%nat then a else cross_matches boundary rest
  end.

(** One round over the secrets and the patterns *)
Definition cross_round (value : pystr) (boundary : nat) : nat :=
  foldl (λ b p, cross_matches b (finditer (pat_pieces p) value))
    (foldl (λ b secret, cross_secret value secret b) boundary known_secrets) _BUILTIN_PATTERNS.

(** [_avoid_redaction_match_split] *)
Fixpoint avoid_split (fuel : nat) (value : pystr) (boundary : nat) : nat :=
  match fuel with
  | O => 0
  | S fuel =>
      if (boundary =? 0)%nat then 0
      else
        let next := cross_round value boundary in
        if (next =? boundary)%nat then boundary else avoid_split fuel value next
  end.
Definition _avoid_redaction_match_split (value : pystr) (boundary : nat) : nat :=
  avoid_split (S boundary) value boundary.

(** [feed], before redaction: the new state and the raw text it releases. *)
Definition feed_raw (s : StreamingRedactor) (value : pystr) : result (StreamingRedactor * pystr) :=
  if str_finished s then Err (RuntimeError "redaction stream is already finished")
  else if is_nil value then Ok (s, [])
  else
    let pending := str_pending s ++ value in
    if negb (existsb py_isspace value) then Ok (mkStreaming pending false, [])
    else
      let flush_at := _avoid_redaction_match_split pending
        (Nat.min (length pending - literal_overlap) (_last_two_tokens_start pending)) in
      Ok (mkStreaming (drop flush_at pending) false, take flush_at pending).

(** [StreamingRedactor.feed]; nothing is redacted when nothing is released. *)
Definition feed (s : StreamingRedactor) (value : pystr) : result (StreamingRedactor * pystr) :=
  '(s', stable) ← feed_raw s value;
  Ok (s', if is_nil stable then [] else redact_text stable).

(** [StreamingRedactor.finish] *)
Definition finish (s : StreamingRedactor) : result (StreamingRedactor * pystr) :=
  if str_finished s then Err (RuntimeError "redaction stream is already finished")
  else Ok (mkStreaming [] true, redact_text (str_pending s)).
End Known.
End Redactor.
