(* ===== verification/AgentEvents.v ===== *)
(** * Agent events

    [agent_core/events.py]: the typed payloads of the execution protocol with their
    validators, and the helpers of [agent_core/_loop_support.py] and
    [agent_core/_loop_safety.py] that build tool feedback and transport-safe errors.

    [payload_size] stands for the length of the payload's [model_dump_json],
    [digest] for SHA-256 of the canonical arguments. *)

From stdpp Require Import base list sets gmap strings.
From Stdlib Require Import ZArith Lia.
From S2P Require Import Prelude PyBase Domain Tables Contracts Transcripts Execution Recovery TaskPlans PyText Gateway.

Definition MAX_EVENT_PAYLOAD_BYTES : Z := 1024 * 1024.

Inductive AgentPayload :=
| RunStarted (attempt : Z) (worker_id : pystr)
| ContextBuildStarted (message_count : Z) (checkpoint_id : option uuid)
| ModelRequestStarted (model_call_id request_id route_name : pystr)
| ModelTextDelta (model_call_id delta : pystr)
| ModelToolCallReceived (model_call_id tool_call_id tool_name : pystr) (arguments : option json)
    (argument_hash : option pystr) (error_ : option ErrorDetail)
| ToolApprovalRequired (approval_id : uuid) (tool_call_id tool_name : pystr) (arguments : json)
    (argument_hash reason : pystr)
| ToolStarted (tool_call_id tool_name : pystr)
| ToolOutput (stderr : bool) (tool_call_id chunk : pystr) (truncated : bool)
| ToolCompleted (tool_call_id : pystr) (status : ToolCallStatus) (result_ : option json)
    (error_ : option ErrorDetail)
| CheckpointCreated (checkpoint_id : uuid) (tool_call_id : pystr) (message_sequence : Z)
    (workspace_revision : pystr)
| RunRetryScheduled (attempt : Z) (delay : timedelta) (error_ : ErrorDetail)
| RunCompleted (final_text : pystr) (checkpoint_id : option uuid)
| RunFailed (error_ : ErrorDetail).

#[export] Instance AgentPayload_eq_dec : EqDecision AgentPayload.
Proof. solve_decision. Defined.

Record AgentEvent := mkAgentEvent {
  ev_run_id : uuid;
  ev_sequence : Z;
  ev_payload : AgentPayload;
  ev_created_at : timestamp;
}.

Section Validation.
Variable digest : json → pystr.
Variable payload_size : AgentPayload → Z.

(** The field constraints and validators of each payload class. *)
Definition validate_payload (p : AgentPayload) : result AgentPayload :=
  match p with
  | RunStarted attempt worker =>
      _ ← ensure (1 <=? attempt)%Z (ValidationError "attempt");
      worker ← identifier_string worker;
      Ok (RunStarted attempt worker)
  | ContextBuildStarted n _ =>
      _ ← ensure (0 <=? n)%Z (ValidationError "message_count"); Ok p
  | ModelRequestStarted call request route =>
      call ← identifier_string call;
      request ← identifier_string request;
      route ← identifier_string route;
      Ok (ModelRequestStarted call request route)
  | ModelTextDelta call delta =>
      call ← identifier_string call;
      _ ← ensure (negb (is_nil delta)) (ValidationError "delta");
      Ok (ModelTextDelta call delta)
  | ModelToolCallReceived call id name arguments hash error_ =>
      call ← identifier_string call;
      id ← identifier_string id;
      name ← name_string name;
      error_ ← validate_optional validate_error_detail error_;
      _ ← ensure (match hash with Some h => sha256_hex_ok h | None => true end) (ValidationError "argument_hash");
      _ ← (match error_ with
           | None => ensure (is_some arguments && is_some hash)
                       (ValidationError "accepted tool-call event requires arguments and their hash")
           | Some _ => ensure (is_none arguments && is_none hash)
                       (ValidationError "rejected tool-call event may not contain arguments or their hash")
           end);
      _ ← ensure (match arguments with Some a => bool_decide (hash = Some (digest a)) | None => true end)
            (ValidationError "argument_hash does not match canonical arguments");
      Ok (ModelToolCallReceived call id name arguments hash error_)
  | ToolApprovalRequired approval id name arguments hash reason =>
      id ← identifier_string id;
      name ← name_string name;
      reason ← nonempty_string reason;
      _ ← ensure (sha256_hex_ok hash) (ValidationError "argument_hash");
      _ ← ensure (bool_decide (hash = digest arguments))
            (ValidationError "argument_hash does not match canonical arguments");
      Ok (ToolApprovalRequired approval id name arguments hash reason)
  | ToolStarted id name =>
      id ← identifier_string id;
      name ← name_string name;
      Ok (ToolStarted id name)
  | ToolOutput stderr id chunk truncated =>
      id ← identifier_string id;
      _ ← ensure (negb (is_nil chunk)) (ValidationError "chunk");
      Ok (ToolOutput stderr id chunk truncated)
  | ToolCompleted id status result_ error_ =>
      id ← identifier_string id;
      error_ ← validate_optional validate_error_detail error_;
      _ ← ensure (bool_decide (status ∈ [TOOL_COMPLETED; TOOL_FAILED; TOOL_CANCELLED])) (ValidationError "status");
      _ ← (if bool_decide (status = TOOL_COMPLETED)
           then ensure (is_some result_ && is_none error_)
                  (ValidationError "completed tool event must contain a result and may not contain an error")
           else ensure (is_none result_ && is_some error_)
                  (ValidationError "failed or cancelled tool event must contain an error and no result"));
      Ok (ToolCompleted id status result_ error_)
  | CheckpointCreated checkpoint id sequence revision =>
      id ← identifier_string id;
      _ ← ensure (0 <=? sequence)%Z (ValidationError "message_sequence");
      revision ← identifier_string revision;
      Ok (CheckpointCreated checkpoint id sequence revision)
  | RunRetryScheduled attempt delay error_ =>
      _ ← ensure (1 <=? attempt)%Z (ValidationError "attempt");
      _ ← ensure ((0 <=? delay)%Z && (delay <=? seconds 3600)%Z) (ValidationError "delay_seconds");
      error_ ← validate_error_detail error_;
      Ok (RunRetryScheduled attempt delay error_)
  | RunCompleted text _ =>
      _ ← ensure (negb (is_nil text)) (ValidationError "final_text"); Ok p
  | RunFailed error_ => error_ ← validate_error_detail error_; Ok (RunFailed error_)
  end.

(** [AgentEvent] with [validate_concrete_event] *)
Definition validate_event (e : AgentEvent) : result AgentEvent :=
  _ ← ensure (1 <=? ev_sequence e)%Z (ValidationError "sequence");
  payload ← validate_payload (ev_payload e);
  _ ← ensure (payload_size payload <=? MAX_EVENT_PAYLOAD_BYTES)%Z
        (ValidationError "serialized event payload exceeds its byte limit");
  Ok (mkAgentEvent (ev_run_id e) (ev_sequence e) payload (ev_created_at e)).
End Validation.

(** ** Loop errors and tool feedback *)

Definition loop_error (code message : string) (retryable : bool) (details : json) : ErrorDetail :=
  mkErrorDetail (py code) (py message) retryable details.

(** [tool_message] *)
Definition tool_message (tool_call_id : pystr) (result_ : option json) (error_ : option ErrorDetail)
    : result GatewayMessage :=
  let body := match error_ with
              | Some e => JObject [(py "error", error_json e); (py "ok", JBool false)]
              | None => JObject [(py "ok", JBool true); (py "result", default (JObject []) result_)]
              end in
  validate_gateway_message (mkGatewayMessage TOOL (_canonical_json body) (Some tool_call_id) []).

(** A rejected provider call *)
Record InvalidToolCall := mkInvalidCall {
  inv_tool_call_id : pystr;
  inv_tool_name : pystr;
  inv_error : ErrorDetail;
}.

(** [invalid_call_feedback] *)
Definition invalid_call_feedback (calls : list InvalidToolCall) : result GatewayMessage :=
  let failures := (λ c, JObject [(py "error", error_json (inv_error c));
                                 (py "tool_call_id", JString (inv_tool_call_id c));
                                 (py "tool_name", JString (inv_tool_name c))]) <$> calls in
  validate_gateway_message
    (mkGatewayMessage USER (_canonical_json (JObject [(py "tool_calls_rejected", JArray failures)])) None []).

(** ** Redaction at the loop's boundary *)

Definition MAX_SAFE_ERROR_BYTES : Z := 64 * 1024.
Definition MAX_SAFE_ERROR_MESSAGE_BYTES : nat := 4096.

Section Safety.
Variable redact : json → json.
(** Length of an error's [model_dump_json] *)
Variable error_size : ErrorDetail → Z.

(** [_utf8_prefix]: cutting the bytes and ignoring a split character *)
Definition utf8_byte_prefix (value : pystr) (byte_limit : nat) : pystr := utf8_fit byte_limit value.

Definition redact_json (value : json) : result json :=
  let redacted := redact value in
  _ ← ensure (is_json_object redacted) (TypeError "redacting a JSON object must preserve its object shape");
  Ok redacted.

Definition contains_secret (value : json) : bool := negb (bool_decide (redact value = value)).

Definition redact_error (e : ErrorDetail) : result ErrorDetail :=
  let redacted := redact (error_json e) in
  _ ← ensure (is_json_object redacted) (TypeError "redacting an error must preserve its object shape");
  safe_error ← error_of_json redacted;
  if (error_size safe_error <=? MAX_SAFE_ERROR_BYTES)%Z then Ok safe_error
  else validate_error_detail (mkErrorDetail (detail_code safe_error)
         (utf8_byte_prefix (detail_message safe_error) MAX_SAFE_ERROR_MESSAGE_BYTES)
         (detail_retryable safe_error) (JObject [(py "details_truncated", JBool true)])).
End Safety.
