(* ===== verification/EventStore.v ===== *)
(** * The durable event store

    [event_store/postgres.py] with the contracts of [agent_core/event_store.py]: events
    of a run get consecutive sequence numbers from the run row, a worker delivery is
    appended once per delivery key, and readers page through the log.

    [runs.next_event_sequence] is read and written by this store only and is kept with
    its rows; a new run starts at one.  A payload stands for its event type together
    with its JSON form.  [event_size] and [page_size] are lengths of compact JSON. *)

From stdpp Require Import base list sets gmap strings sorting.
From Stdlib Require Import ZArith Lia.
From S2P Require Import Prelude PyBase Domain Tables Contracts RunQueue Transcripts Execution Recovery TaskPlans PyText Gateway AgentEvents.

Definition MAX_EVENT_PAGE_SIZE : nat := 1000.
Definition MAX_EVENT_PAGE_BYTES : Z := 4 * 1024 * 1024.
Definition MIN_EVENT_PAGE_BYTES : Z := MAX_EVENT_PAYLOAD_BYTES + 64 * 1024.
Definition EVENT_PAGE_ENVELOPE_RESERVE_BYTES : Z := 1024.

(** ** Data *)

Record EventDraft := mkEventDraft {
  dr_payload : AgentPayload;
  dr_created_at : timestamp;
}.

Record StoredEvent := mkStoredEvent {
  se_run_id : uuid;
  se_execution_epoch : Z;
  se_sequence : Z;
  se_payload : AgentPayload;
  se_created_at : timestamp;
}.

Record EventPage := mkEventPage {
  pg_events : list StoredEvent;
  pg_next_after : Z;
  pg_has_more : bool;
}.

Record AgentEventRecord := mkEventRecord {
  er_tenant_id : uuid;
  er_run_id : uuid;
  er_execution_epoch : Z;
  er_sequence : Z;
  er_delivery_key : option pystr;
  er_payload : AgentPayload;
  er_created_at : timestamp;
}.

Record EventTables := mkEventTables {
  et_next : gmap uuid Z;
  et_rows : gmap (uuid * Z) AgentEventRecord;
}.

Definition next_event_sequence (t : EventTables) (run_id : uuid) : Z := default 1%Z (et_next t !! run_id).

Definition run_not_found : error := DomainOperationError "run_not_found" false.

(** ** Rows *)

(** [UNIQUE (run_id, execution_epoch, delivery_key)]; absent keys never clash. *)
Definition same_delivery (run_id : uuid) (epoch : Z) (key : pystr) (row : AgentEventRecord) : bool :=
  bool_decide (er_run_id row = run_id) && (er_execution_epoch row =? epoch)%Z
  && bool_decide (er_delivery_key row = Some key).
Definition find_delivery (t : EventTables) (tenant_id run_id : uuid) (epoch : Z) (key : pystr)
    : option AgentEventRecord :=
  scalar_where (λ row, bool_decide (er_tenant_id row = tenant_id) && same_delivery run_id epoch key row) (et_rows t).

(** [database.add] with the constraints of the table *)
Definition insert_event (t : EventTables) (row : AgentEventRecord) : result EventTables :=
  let key := (er_run_id row, er_sequence row) in
  _ ← ensure ((1 <=? er_sequence row)%Z && (1 <=? er_execution_epoch row)%Z) (IntegrityError "agent_events");
  _ ← ensure (is_none (et_rows t !! key)) (IntegrityError "agent_events");
  _ ← ensure (match er_delivery_key row with
              | None => true
              | Some k => is_none (scalar_where (same_delivery (er_run_id row) (er_execution_epoch row) k) (et_rows t))
              end) (IntegrityError "agent_events");
  Ok (mkEventTables (et_next t) (<[key := row]> (et_rows t))).

Definition advance (t : EventTables) (run_id : uuid) : EventTables :=
  mkEventTables (<[run_id := (next_event_sequence t run_id + 1)%Z]> (et_next t)) (et_rows t).

Section EventStore.
Variable digest : json → pystr.
Variable payload_size : AgentPayload → Z.
Variable event_size : StoredEvent → Z.
Variable page_size : EventPage → Z.

(** [EventDraft] with [validate_typed_payload] *)
Definition make_draft (payload : AgentPayload) (created_at : timestamp) : result EventDraft :=
  _ ← validate_event digest payload_size (mkAgentEvent 0 1 payload created_at);
  Ok (mkEventDraft payload created_at).

(** [StoredEvent] with [validate_typed_event] *)
Definition validate_stored (e : StoredEvent) : result StoredEvent :=
  _ ← ensure (1 <=? se_execution_epoch e)%Z (ValidationError "execution_epoch");
  _ ← validate_event digest payload_size (mkAgentEvent (se_run_id e) (se_sequence e) (se_payload e) (se_created_at e));
  Ok e.

(** [_stored_event] *)
Definition of_record (row : AgentEventRecord) : StoredEvent :=
  mkStoredEvent (er_run_id row) (er_execution_epoch row) (er_sequence row) (er_payload row) (er_created_at row).
Definition _stored_event (row : AgentEventRecord) : result StoredEvent := validate_stored (of_record row).

(** [_validate_delivery_key] *)
Definition _validate_delivery_key (key : pystr) : result pystr :=
  _ ← ensure (request_identifier_ok key) (DomainOperationError "event_delivery_key_invalid" false);
  Ok key.

(** The run row of a tenant *)
Definition tenant_run (d : Db) (tenant_id run_id : uuid) : option RunRecord :=
  match runs d !! run_id with
  | Some r => if bool_decide (rr_tenant_id r = tenant_id) then Some r else None
  | None => None
  end.

(** [PostgresEventStore.append]; the draft is valid, so the stored event is too. *)
Definition append (d : Db) (t : EventTables) (tenant_id run_id : uuid) (draft : EventDraft)
    : result (StoredEvent * EventTables) :=
  run_row ← require (tenant_run d tenant_id run_id) run_not_found;
  let sequence := next_event_sequence t run_id in
  let row := mkEventRecord tenant_id run_id (rr_execution_epoch run_row) sequence None (dr_payload draft)
               (dr_created_at draft) in
  t' ← insert_event (advance t run_id) row;
  e ← _stored_event row;
  Ok (e, t').

(** [_append_idempotent] *)
Definition _append_idempotent (t : EventTables) (run_row : RunRecord) (tenant_id run_id : uuid) (delivery_key : pystr)
    (draft : EventDraft) : result (StoredEvent * EventTables) :=
  match find_delivery t tenant_id run_id (rr_execution_epoch run_row) delivery_key with
  | Some existing =>
      _ ← ensure (bool_decide (er_payload existing = dr_payload draft))
            (DomainOperationError "event_delivery_conflict" false);
      e ← _stored_event existing;
      Ok (e, t)
  | None =>
      let row := mkEventRecord tenant_id run_id (rr_execution_epoch run_row) (next_event_sequence t run_id)
                   (Some delivery_key) (dr_payload draft) (dr_created_at draft) in
      t' ← insert_event (advance t run_id) row;
      e ← _stored_event row;
      Ok (e, t')
  end.

Definition append_idempotent (d : Db) (t : EventTables) (tenant_id run_id : uuid) (delivery_key : pystr)
    (draft : EventDraft) : result (StoredEvent * EventTables) :=
  key ← _validate_delivery_key delivery_key;
  run_row ← require (tenant_run d tenant_id run_id) run_not_found;
  _append_idempotent t run_row tenant_id run_id key draft.

Definition append_idempotent_fenced (now : timestamp) (d : Db) (t : EventTables) (lease : RunLease)
    (delivery_key : pystr) (draft : EventDraft) : result (StoredEvent * EventTables) :=
  key ← _validate_delivery_key delivery_key;
  run_row ← assert_active_run_lease d now lease;
  _append_idempotent t run_row (lease_tenant_id lease) (lease_run_id lease) key draft.

(** ** Reading *)

Definition earlier (a b : AgentEventRecord) : Prop := (er_sequence a <= er_sequence b)%Z.
#[export] Instance earlier_dec a b : Decision (earlier a b).
Proof. unfold earlier. apply _. Defined.

Definition rows_after (t : EventTables) (tenant_id run_id : uuid) (after : Z) : list AgentEventRecord :=
  merge_sort earlier (select_where (λ row, bool_decide (er_tenant_id row = tenant_id) && bool_decide (er_run_id row = run_id)
                                          && (after <? er_sequence row)%Z) (et_rows t)).

(** [EventPage] with [validate_cursor] *)
Fixpoint contiguous (sequences : list Z) : bool :=
  match sequences with
  | a :: ((b :: _) as rest) => (b =? a + 1)%Z && contiguous rest
  | _ => true
  end.
Definition validate_page (p : EventPage) : result EventPage :=
  let sequences := se_sequence <$> pg_events p in
  _ ← ensure (length (pg_events p) <=? MAX_EVENT_PAGE_SIZE)%nat (ValidationError "events");
  _ ← ensure (0 <=? pg_next_after p)%Z (ValidationError "next_after");
  _ ← ensure (contiguous sequences) (ValidationError "event page sequences must be contiguous");
  _ ← ensure (match pg_events p with
              | [] => negb (pg_has_more p)
              | e :: rest => forallb (λ e', bool_decide (se_run_id e' = se_run_id e)) rest
              end) (ValidationError "event page entries must belong to one run");
  _ ← ensure (match last sequences with Some s => (pg_next_after p =? s)%Z | None => true end)
        (ValidationError "next_after must equal the final event sequence");
  _ ← ensure (page_size p <=? MAX_EVENT_PAGE_BYTES)%Z (ValidationError "serialized event page exceeds its limit");
  Ok p.

(** The loop over the selected rows: the events kept, and whether more follow. *)
Fixpoint fill_page (max_page_bytes : Z) (limit : nat) (retained : list StoredEvent) (retained_bytes expected : Z)
    (rows : list AgentEventRecord) : result (list StoredEvent * bool) :=
  match rows with
  | [] => Ok (retained, false)
  | row :: rest =>
      event ← _stored_event row;
      _ ← ensure (se_sequence event =? expected)%Z (DomainOperationError "event_sequence_gap" true);
      let event_bytes := (event_size event + 1)%Z in
      if (limit <=? length retained)%nat || (max_page_bytes <? retained_bytes + event_bytes)%Z
      then Ok (retained, true)
      else fill_page max_page_bytes limit (retained ++ [event]) (retained_bytes + event_bytes) (expected + 1) rest
  end.

(** [read_page] with [_read_page] *)
Definition read_page (max_page_bytes : Z) (t : EventTables) (tenant_id run_id : uuid) (after : Z) (limit : nat)
    : result EventPage :=
  _ ← ensure (0 <=? after)%Z (ValueError "after may not be negative");
  _ ← ensure ((1 <=? limit)%nat && (limit <=? MAX_EVENT_PAGE_SIZE)%nat) (ValueError "limit must be in [1, 1000]");
  '(events, has_more) ← fill_page max_page_bytes limit [] EVENT_PAGE_ENVELOPE_RESERVE_BYTES (after + 1)
                          (take (S limit) (rows_after t tenant_id run_id after));
  validate_page (mkEventPage events (match last events with Some e => se_sequence e | None => after end) has_more).

(** [iter_after]: the events yielded; each page advances the cursor, so the number of
    rows bounds the pages. *)
Fixpoint iter_pages (fuel : nat) (max_page_bytes : Z) (t : EventTables) (tenant_id run_id : uuid) (cursor : Z)
    (page_limit : nat) : result (list StoredEvent) :=
  match fuel with
  | O => Err (RuntimeError "fuel")
  | S fuel =>
      page ← read_page max_page_bytes t tenant_id run_id cursor page_limit;
      if pg_has_more page then
        more ← iter_pages fuel max_page_bytes t tenant_id run_id
                  (match last (pg_events page) with Some e => se_sequence e | None => cursor end) page_limit;
        Ok (pg_events page ++ more)
      else Ok (pg_events page)
  end.
Definition iter_after (max_page_bytes : Z) (t : EventTables) (tenant_id run_id : uuid) (after : Z) (page_limit : nat)
    : result (list StoredEvent) :=
  iter_pages (S (size (et_rows t))) max_page_bytes t tenant_id run_id after page_limit.

(** [stream]: the events yielded while the store goes through the states of [reads], one
    per page read; an empty page sleeps and reads again from the same cursor. *)
Fixpoint stream (max_page_bytes : Z) (reads : list EventTables) (tenant_id run_id : uuid) (cursor : Z) (page_limit : nat)
    : result (list StoredEvent) :=
  match reads with
  | [] => Ok []
  | t :: reads =>
      page ← read_page max_page_bytes t tenant_id run_id cursor page_limit;
      let cursor := match last (pg_events page) with Some e => se_sequence e | None => cursor end in
      more ← stream max_page_bytes reads tenant_id run_id cursor page_limit;
      Ok (pg_events page ++ more)
  end.

(** [latest_sequence] *)
Definition latest_sequence (d : Db) (t : EventTables) (tenant_id run_id : uuid) : option Z :=
  match tenant_run d tenant_id run_id with
  | None => None
  | Some _ => Some (foldr Z.max 0%Z (er_sequence <$>
      select_where (λ row, bool_decide (er_tenant_id row = tenant_id) && bool_decide (er_run_id row = run_id)) (et_rows t)))
  end.
End EventStore.
