(* ===== verification/PyEffects.v ===== *)
(** * Computations with state and exceptions

    A coroutine of the agent loop changes the world around it and may raise.
    [eff S A] keeps the state of every path, also of those that raise: Python does
    not roll back what was done before an exception. *)

From stdpp Require Import base list gmap strings.
From Stdlib Require Import ZArith Lia.
From S2P Require Import Prelude PyBase Domain Tables Contracts.

(** The exceptions the loop tells apart: a [DomainOperationError] with its detail,
    a [TimeoutError], the [CancelledError] of asyncio, which [except Exception] does
    not catch, and any other exception. *)
Inductive exn :=
| DomainExn (e : ErrorDetail)
| TimeoutExn
| CancelledExn
| OtherExn.

Inductive outcome (A : Type) :=
| Ret (a : A)
| Raise (e : exn).
Arguments Ret {A} a.
Arguments Raise {A} e.

Definition eff (S A : Type) : Type := S → outcome A * S.

#[export] Instance eff_ret S : MRet (eff S) := λ A a s, (Ret a, s).
#[export] Instance eff_bind S : MBind (eff S) := λ A B f m s,
  match m s with
  | (Ret a, s') => f a s'
  | (Raise e, s') => (Raise e, s')
  end.

Definition raise {S A} (e : exn) : eff S A := λ s, (Raise e, s).

(** A pure computation that may raise. *)
Definition pure_result {S A} (r : result A) : eff S A := λ s,
  match r with Ok a => (Ret a, s) | Err _ => (Raise OtherExn, s) end.

(** [try: m except ...: h]; the handler decides which exceptions it lets pass. *)
Definition catch {S A} (m : eff S A) (h : exn → eff S A) : eff S A := λ s,
  match m s with
  | (Ret a, s') => (Ret a, s')
  | (Raise e, s') => h e s'
  end.

(** [try: m finally: f]: an exception of [f] replaces that of [m]. *)
Definition finally_ {S A} (m : eff S A) (f : eff S unit) : eff S A := λ s,
  let '(r, s') := m s in
  match f s' with
  | (Ret _, s'') => (r, s'')
  | (Raise e, s'') => (Raise e, s'')
  end.

Definition gets {S A} (f : S → A) : eff S A := λ s, (Ret (f s), s).
Definition modify {S} (f : S → S) : eff S unit := λ s, (Ret tt, f s).

Lemma eff_bind_Ret {S A B} (m : eff S A) (f : A → eff S B) s b s' :
  (m ≫= f) s = (Ret b, s') ↔ ∃ a s1, m s = (Ret a, s1) ∧ f a s1 = (Ret b, s').
Proof.
  unfold mbind, eff_bind. destruct (m s) as [[a|e] s1]; [naive_solver|].
  split; [done|]. intros (a & s2 & [=] & _).
Qed.

Lemma eff_bind_Raise {S A B} (m : eff S A) (f : A → eff S B) s x s' :
  (m ≫= f) s = (Raise x, s') ↔ m s = (Raise x, s') ∨ ∃ a s1, m s = (Ret a, s1) ∧ f a s1 = (Raise x, s').
Proof.
  unfold mbind, eff_bind. destruct (m s) as [[a|e] s1]; split.
  - intros H. right. eauto.
  - by intros [|(? & ? & [= <- <-] & ?)].
  - intros [= -> ->]. by left.
  - by intros [[= -> ->]|(? & ? & ? & ?)].
Qed.

(** What a computation leaves, whether it returns or raises. *)
Lemma eff_bind_preserves {S A B} (P : S → S → Prop) (m : eff S A) (f : A → eff S B) s :
  (∀ s1 s2 s3, P s1 s2 → P s2 s3 → P s1 s3) →
  P s (m s).2 → (∀ a s1, m s = (Ret a, s1) → P s1 (f a s1).2) → P s ((m ≫= f) s).2.
Proof.
  intros Htrans Hm Hf. unfold mbind, eff_bind. destruct (m s) as [[a|e] s1] eqn:E; cbn in *; [|done].
  eapply Htrans; [exact Hm|]. by apply Hf.
Qed.

(** ** Specifications

    [spec P m Q E]: from a state in [P], [m] returns in [Q] or raises in [E]. *)
Definition spec {S A} (P : S → Prop) (m : eff S A) (Q : A → S → Prop) (E : exn → S → Prop) : Prop :=
  ∀ s, P s → match m s with (Ret a, s') => Q a s' | (Raise e, s') => E e s' end.

Lemma spec_bind {S A B} P (m : eff S A) (f : A → eff S B) Q R E :
  spec P m Q E → (∀ a, spec (Q a) (f a) R E) → spec P (m ≫= f) R E.
Proof.
  intros Hm Hf s HP. specialize (Hm s HP). unfold mbind, eff_bind. destruct (m s) as [[a|e] s'].
  - by apply Hf.
  - done.
Qed.
Lemma spec_ret {S A} (P : S → Prop) (a : A) Q (E : exn → S → Prop) :
  (∀ s, P s → Q a s) → spec P (mret a) Q E.
Proof. intros H s HP. by apply H. Qed.
Lemma spec_raise {S A} (P : S → Prop) e (Q : A → S → Prop) (E : exn → S → Prop) :
  (∀ s, P s → E e s) → spec P (raise e) Q E.
Proof. intros H s HP. by apply H. Qed.
Lemma spec_gets {S A} (P : S → Prop) (f : S → A) (E : exn → S → Prop) :
  spec P (gets f) (λ a s, P s ∧ a = f s) E.
Proof. intros s HP. by split. Qed.
Lemma spec_pure {S A} (P : S → Prop) (r : result A) (E : exn → S → Prop) :
  (∀ s, P s → E OtherExn s) → spec P (pure_result r) (λ a s, P s ∧ r = Ok a) E.
Proof. intros H s HP. unfold pure_result. destruct r; [done|]. by apply H. Qed.
Lemma spec_catch {S A} P (m : eff S A) h Q (E1 E : exn → S → Prop) :
  spec P m Q E1 → (∀ e, spec (E1 e) (h e) Q E) → spec P (catch m h) Q E.
Proof.
  intros Hm Hh s HP. specialize (Hm s HP). unfold catch. destruct (m s) as [[a|e] s']; [done|]. by apply Hh.
Qed.
Lemma spec_finally {S A} P (m : eff S A) f Q (E : exn → S → Prop) Q' (E' : exn → S → Prop) :
  spec P m Q E → (∀ a, spec (Q a) f (λ _, Q' a) E') → (∀ e, spec (E e) f (λ _, E' e) E') → spec P (finally_ m f) Q' E'.
Proof.
  intros Hm HQ HE s HP. specialize (Hm s HP). unfold finally_. destruct (m s) as [[a|e] s'].
  - specialize (HQ a s' Hm). by destruct (f s') as [[]].
  - specialize (HE e s' Hm). by destruct (f s') as [[]].
Qed.
Lemma spec_weaken {S A} P P' (m : eff S A) (Q Q' : A → S → Prop) (E E' : exn → S → Prop) :
  spec P' m Q' E' → (∀ s, P s → P' s) → (∀ a s, Q' a s → Q a s) → (∀ e s, E' e s → E e s) → spec P m Q E.
Proof. intros Hm HP HQ HE s Hs. specialize (Hm s (HP s Hs)). destruct (m s) as [[a|e] s']; auto. Qed.
Lemma spec_assume {S A} (φ : Prop) P (m : eff S A) Q E :
  (φ → spec P m Q E) → spec (λ s, P s ∧ φ) m Q E.
Proof. intros H s [HP Hφ]. by apply H. Qed.

Lemma spec_given {S A} (φ : Prop) P (m : eff S A) Q E :
  (φ → spec P m Q E) → spec (λ s, φ ∧ P s) m Q E.
Proof. intros H s [Hφ HP]. by apply H. Qed.

(** *** Computations that no cancellation reaches *)

Definition calm {S A} (m : eff S A) : Prop := ∀ s s', m s ≠ (Raise CancelledExn, s').
Lemma calm_bind {S A B} (m : eff S A) (f : A → eff S B) : calm m → (∀ a, calm (f a)) → calm (m ≫= f).
Proof. intros Hm Hf s s' [H|(a & s1 & _ & H)]%eff_bind_Raise; [by apply Hm in H|by apply Hf in H]. Qed.
Lemma calm_ret {S A} (a : A) : calm (mret a : eff S A).
Proof. done. Qed.
Lemma calm_pure {S A} (r : result A) : calm (pure_result r : eff S A).
Proof. intros s s'. unfold pure_result. by destruct r. Qed.
Lemma calm_modify {S} (f : S → S) : calm (modify f).
Proof. done. Qed.

(** *** What a computation leaves alone *)

(** [keeps R m]: [m] moves along [R], however it ends. *)
Definition keeps {S A} (R : relation S) (m : eff S A) : Prop := ∀ s, R s (m s).2.

Section Keeps.
Context {S : Type} (R : relation S) `{!PreOrder R}.

Lemma keeps_bind {A C} (m : eff S A) (k : A → eff S C) : keeps R m → (∀ a, keeps R (k a)) → keeps R (m ≫= k).
Proof. intros Hm Hk s. apply eff_bind_preserves; [by etransitivity|apply Hm|intros; apply Hk]. Qed.
Lemma keeps_catch {A} (m : eff S A) h : keeps R m → (∀ e, keeps R (h e)) → keeps R (catch m h).
Proof.
  intros Hm Hh s. specialize (Hm s). unfold catch. destruct (m s) as [[a|e] s']; [done|]. etransitivity; [exact Hm|apply Hh].
Qed.
Lemma keeps_finally {A} (m : eff S A) g : keeps R m → keeps R g → keeps R (finally_ m g).
Proof.
  intros Hm Hg s. specialize (Hm s). unfold finally_. destruct (m s) as [r s']. cbn in Hm. specialize (Hg s').
  destruct (g s') as [[] s'']; cbn in *; by etransitivity.
Qed.
Lemma keeps_ret {A} (a : A) : keeps R (mret a).
Proof. by intros s. Qed.
Lemma keeps_raise {A} e : keeps R (raise e : eff S A).
Proof. by intros s. Qed.
Lemma keeps_gets {A} (g : S → A) : keeps R (gets g).
Proof. by intros s. Qed.
Lemma keeps_pure {A} (r : result A) : keeps R (pure_result r).
Proof. intros s. unfold pure_result. by destruct r. Qed.

(** A property that [R] carries over is an invariant. *)
Lemma keeps_spec {A} (m : eff S A) (P : S → Prop) :
  keeps R m → (∀ s s', R s s' → P s → P s') → spec P m (λ _, P) (λ _, P).
Proof. intros Hm HP s Hs. specialize (Hm s). destruct (m s) as [[a|e] s']; by eapply HP. Qed.
End Keeps.

Create HintDb keeps.
#[export] Hint Resolve keeps_ret keeps_raise keeps_gets keeps_pure : keeps.

(** [keeps_auto] walks through binds, handlers and case distinctions. *)
Ltac keeps_auto :=
  repeat (first [solve [eauto with keeps typeclass_instances] | apply keeps_bind; [apply _| |] | apply keeps_catch; [apply _| |]
                | apply keeps_finally; [apply _| |] | progress intros | progress cbv zeta | case_match]).

(** [frames f m]: [m] does not change [f] of the state, however it ends. *)
Definition frames {S A B} (f : S → B) (m : eff S A) : Prop := keeps (λ s s', f s' = f s) m.

Section Frames.
Context {S B : Type} (f : S → B).

#[local] Instance same_preorder : PreOrder (λ s s', f s' = f s).
Proof. split; [done|]. intros s1 s2 s3 H1 H2. by rewrite H2. Qed.

Lemma frames_bind {A C} (m : eff S A) (k : A → eff S C) : frames f m → (∀ a, frames f (k a)) → frames f (m ≫= k).
Proof. apply (keeps_bind _). Qed.
Lemma frames_catch {A} (m : eff S A) h : frames f m → (∀ e, frames f (h e)) → frames f (catch m h).
Proof. apply (keeps_catch _). Qed.
Lemma frames_finally {A} (m : eff S A) g : frames f m → frames f g → frames f (finally_ m g).
Proof. apply (keeps_finally _). Qed.
Lemma frames_ret {A} (a : A) : frames f (mret a).
Proof. done. Qed.
Lemma frames_raise {A} e : frames f (raise e : eff S A).
Proof. done. Qed.
Lemma frames_gets {A} (g : S → A) : frames f (gets g).
Proof. done. Qed.
Lemma frames_pure {A} (r : result A) : frames f (pure_result r).
Proof. apply keeps_pure, _. Qed.

(** A frame carries any property of what it leaves alone. *)
Lemma frames_spec {A} (m : eff S A) (φ : B → Prop) :
  frames f m → spec (λ s, φ (f s)) m (λ _ s, φ (f s)) (λ _ s, φ (f s)).
Proof. intros Hm s Hs. specialize (Hm s). destruct (m s) as [[a|e] s']; cbn in Hm; by rewrite Hm. Qed.
End Frames.

Create HintDb frames.
#[export] Hint Resolve frames_ret frames_raise frames_gets frames_pure : frames.

(** [frames_auto] walks through binds, handlers and case distinctions. *)
Ltac frames_auto :=
  repeat (first [solve [eauto with frames] | apply frames_bind | apply frames_catch | apply frames_finally | progress intros
                | progress cbv zeta | case_match]).
