(* ===== verification/ToolTurn.v ===== *)
(** * Tool turns

    [agent_core/_tool_turn.py] with the registry of [agent_core/tools.py]: one
    complete turn of tool calls is validated before any of them runs; each call is
    replayed, denied, answered or executed, side-effecting ones under a checkpoint
    that is restored when the tool fails.

    The tools, the checkpoint coordinator, the clock and the approval-identifier
    factory act on an abstract world.  Telemetry is not modelled. *)

From stdpp Require Import base list sets gmap strings.
From Stdlib Require Import ZArith Lia.
From S2P Require Import Prelude PyBase Domain Tables Contracts Transcripts Execution Recovery TaskPlans PyText Gateway AgentEvents PyEffects.

Definition _WORKSPACE_RESULT_METADATA_RESERVE_BYTES : Z := 2048.
Definition _MAX_WORKSPACE_REVISION_CHARACTERS : nat := 255.

(** ** Configuration and registry *)

Record AgentLoopConfig := mkLoopConfig {
  cfg_max_turns : nat;
  cfg_max_tool_calls : Z;
  cfg_max_semantic_retries : Z;
  cfg_max_context_messages : Z;
  cfg_max_gateway_request_bytes : Z;
  cfg_max_model_output_bytes : N;
  cfg_max_tool_argument_bytes : N;
  cfg_max_tool_result_bytes : N;
  cfg_max_tool_output_bytes : N;
}.

Inductive ToolEffect := READ_ONLY | WORKSPACE_MUTATION | COMMAND | INTERACTION | CONTROL_MUTATION.

#[export] Instance ToolEffect_eq_dec : EqDecision ToolEffect.
Proof. solve_decision. Defined.

(** A registration validates raw arguments: no issues, or the issues found. *)
Record ToolRegistration := mkRegistration {
  reg_definition : GatewayToolDefinition;
  reg_effect : ToolEffect;
  reg_issues : json → list json;
}.

Definition unknown_tool (tool_name : pystr) : ErrorDetail :=
  loop_error "unknown_tool" "the requested tool is not registered" false
    (JObject [(py "tool_name", JString tool_name)]).

(** [ToolRegistry.__init__] *)
Definition make_registry (registrations : list ToolRegistration) : result (list ToolRegistration) :=
  _ ← ensure (bool_decide (NoDup ((gtd_name ∘ reg_definition) <$> registrations)))
        (ValueError "tool registration names must be unique");
  Ok registrations.

Definition find_registration (registry : list ToolRegistration) (tool_name : pystr) : option ToolRegistration :=
  head (filter (λ r, gtd_name (reg_definition r) = tool_name) registry).

(** [ToolRegistry.prepare]: the effect of the prepared execution, or the error. *)
Definition prepare (registry : list ToolRegistration) (tool_name : pystr) (arguments : json)
    : ToolEffect + ErrorDetail :=
  match find_registration registry tool_name with
  | None => inr (unknown_tool tool_name)
  | Some r =>
      match reg_issues r arguments with
      | [] => inl (reg_effect r)
      | issues => inr (loop_error "malformed_tool_arguments"
                         "model-generated tool arguments failed schema validation" false
                         (JObject [(py "issues", JArray issues); (py "tool_name", JString tool_name)]))
      end
  end.

(** ** Data of a turn *)

Record ToolOutcome := mkToolOutcome {
  to_tool_name : pystr;
  to_argument_hash : option pystr;
  to_status : ToolCallStatus;
  to_result : option json;
  to_error : option ErrorDetail;
}.

Record ToolTurnReport := mkReport {
  rep_events : list AgentEvent;
  rep_semantic_failures : Z;
  rep_terminal : bool;
  rep_last_checkpoint_id : option uuid;
  rep_updated_task_plan : option json;
}.

Record BufferedOutput := mkBuffered {
  bo_stderr : bool;
  bo_chunk : pystr;
  bo_truncated : bool;
}.

Record ToolRunResult := mkRunResult {
  trr_output : list BufferedOutput;
  trr_result : option json;
  trr_error : option ErrorDetail;
}.

Record PreparedCall := mkPreparedCall {
  pc_tool_call : GatewayToolCall;
  pc_argument_hash : pystr;
  pc_prepared : option ToolEffect;
  pc_validation_error : option ErrorDetail;
}.

Record ToolExecutionContext := mkToolContext {
  tec_run_id : uuid;
  tec_tool_call_id : pystr;
  tec_checkpoint_id : option uuid;
  tec_workspace_revision : option pystr;
  tec_max_output_bytes : N;
  tec_max_result_bytes : N;
}.

(** The items of a tool stream, how it ends, and how the two context managers around it
    end when it is left early. *)
Inductive tool_item :=
| ToolOutputChunk (stderr : bool) (chunk : pystr)
| ToolExecutionCompleted (result_ : json)
| UnsupportedItem.

Record tool_stream := mkToolStream {
  tsm_items : list tool_item;
  tsm_end : outcome unit;
  tsm_close : outcome unit;
}.

(** ** Bounded output *)

Definition truncate_last (output : list BufferedOutput) : list BufferedOutput :=
  match rev output with
  | [] => []
  | b :: before => rev before ++ [mkBuffered (bo_stderr b) (bo_chunk b) true]
  end.

(** [_append_bounded_output]: the buffer, the bytes left, and whether the limit was
    hit. *)
Definition _append_bounded_output (output : list BufferedOutput) (stderr : bool) (chunk : pystr)
    (remaining : N) : list BufferedOutput * N * bool :=
  let encoded_size := utf8_len chunk in
  if (encoded_size <=? remaining)%N
  then (output ++ [mkBuffered stderr chunk false], remaining - encoded_size, false)%N
  else
    let prefix := utf8_byte_prefix chunk (N.to_nat remaining) in
    (if is_nil prefix then truncate_last output else output ++ [mkBuffered stderr prefix true], 0%N, true).

(** Neighbouring chunks of one channel become one. *)
Fixpoint coalesce (coalesced : list BufferedOutput) (output : list BufferedOutput) : list BufferedOutput :=
  match output with
  | [] => coalesced
  | item :: rest =>
      match rev coalesced with
      | previous :: before =>
          if eqb (bo_stderr previous) (bo_stderr item)
          then coalesce (rev before ++ [mkBuffered (bo_stderr item) (bo_chunk previous ++ bo_chunk item)
                                          (bo_truncated previous || bo_truncated item)]) rest
          else coalesce (coalesced ++ [item]) rest
      | [] => coalesce [item] rest
      end
  end.

Section Redacted.
Variable redact_text : pystr → pystr.

Fixpoint bound_redacted (bounded : list BufferedOutput) (remaining : N) (items : list BufferedOutput)
    : list BufferedOutput :=
  match items with
  | [] => bounded
  | item :: rest =>
      let '(bounded, remaining, overflow) :=
        _append_bounded_output bounded (bo_stderr item) (redact_text (bo_chunk item)) remaining in
      let bounded := if bo_truncated item then truncate_last bounded else bounded in
      if overflow then bounded else bound_redacted bounded remaining rest
  end.

(** [_coalesce_and_redact_output] *)
Definition _coalesce_and_redact_output (output : list BufferedOutput) (byte_limit : N) : list BufferedOutput :=
  bound_redacted [] byte_limit (coalesce [] output).
End Redacted.

(** ** Policies *)

Definition _requires_approval (mode : ApprovalMode) (effect : ToolEffect) : bool :=
  match effect, mode with
  | INTERACTION, _ => true
  | _, REQUIRE_ALL => true
  | (WORKSPACE_MUTATION | COMMAND), REQUIRE_SENSITIVE => true
  | _, _ => false
  end.

Definition _approval_reason (tool_name : pystr) (effect : ToolEffect) : pystr :=
  match effect with
  | READ_ONLY => py "Session policy requires confirmation before " ++ tool_name ++ py "."
  | COMMAND => py "Command execution by " ++ tool_name ++ py " requires human confirmation."
  | _ => py "Workspace mutation by " ++ tool_name ++ py " requires human confirmation."
  end.

(** [_checkpoint_matches_request] *)
Definition _checkpoint_matches_request (c : Checkpoint) (run_id : uuid) (tool_call_id : pystr)
    (message_sequence : Z) (task_plan : json) (context_summary : option pystr) : bool :=
  bool_decide (chk_run_id c = run_id) && bool_decide (chk_tool_call_id c = tool_call_id)
  && (chk_message_sequence c =? message_sequence)%Z && bool_decide (chk_task_plan c = task_plan)
  && bool_decide (chk_context_summary c = context_summary).

(** [_valid_workspace_revision] of a text *)
Definition _valid_workspace_revision (value : pystr) : bool :=
  bool_decide (value = py_strip value) && negb (bool_decide (0%N ∈ value))
  && (0 <? length value)%nat && (length value <=? _MAX_WORKSPACE_REVISION_CHARACTERS)%nat.

(** [result["workspace_revision"] = revision] on key-ordered fields *)
Fixpoint text_ltb (a b : pystr) : bool :=
  match a, b with
  | _, [] => false
  | [], _ :: _ => true
  | x :: a, y :: b => (x <? y)%N || ((x =? y)%N && text_ltb a b)
  end.
Fixpoint set_field (key : pystr) (value : json) (fields : list (pystr * json)) : list (pystr * json) :=
  match fields with
  | [] => [(key, value)]
  | (k, v) :: rest =>
      if bool_decide (k = key) then (key, value) :: rest
      else if text_ltb key k then (key, value) :: (k, v) :: rest
      else (k, v) :: set_field key value rest
  end.
Definition json_set (j : json) (key : pystr) (value : json) : json :=
  JObject (set_field key value (object_fields j)).

(** ** The environment *)

(** The checkpoint coordinator of a turn, acting on the world. *)
Record CheckpointCoordinator (W : Type) := mkCoordinator {
  create_before_tool : W → uuid → pystr → list GatewayMessage → json → option pystr → outcome Checkpoint * W;
  complete_tool : W → Checkpoint → pystr → outcome pystr * W;
  rollback : W → Checkpoint → outcome unit * W;
}.
Arguments create_before_tool {W}.
Arguments complete_tool {W}.
Arguments rollback {W}.

Record ToolEnvironment (W : Type) := mkToolEnvironment {
  env_registry : list ToolRegistration;
  env_clock : W → timestamp;
  env_approval_id : W → uuid * W;
  (** Running a tool to the end of its stream. *)
  env_stream : W → GatewayToolCall → ToolExecutionContext → tool_stream * W;
  env_checkpoints : option (CheckpointCoordinator W);
  (** A second cancellation arrives while the restore after a cancelled tool is awaited. *)
  env_interrupted : W → bool;
}.
Arguments env_registry {W}.
Arguments env_clock {W}.
Arguments env_approval_id {W}.
Arguments env_stream {W}.
Arguments env_checkpoints {W}.
Arguments env_interrupted {W}.

(** What a turn works on: the world, the event counter, the transcript and the
    outcomes of the run. *)
Record TurnState (W : Type) := mkTurnState {
  ts_world : W;
  ts_sequence : Z;
  ts_transcript : list GatewayMessage;
  ts_outcomes : gmap pystr ToolOutcome;
}.
Arguments mkTurnState {W}.
Arguments ts_world {W}.
Arguments ts_sequence {W}.
Arguments ts_transcript {W}.
Arguments ts_outcomes {W}.

(** ** The executor *)

Record TurnInput := mkTurnInput {
  ti_run_id : uuid;
  ti_task_plan : json;
  ti_context_summary : option pystr;
  ti_approval_mode : ApprovalMode;
  ti_approval_decisions : gmap pystr bool;
  ti_approval_responses : gmap pystr pystr;
}.

Section Turn.
Context {W : Type}.
Variable env : ToolEnvironment W.
Variable config : AgentLoopConfig.
Variable redact_text : pystr → pystr.
Variable redact : json → json.
Variable error_size : ErrorDetail → Z.
Variable digest : json → pystr.
Variable payload_size : AgentPayload → Z.

(** *** Running one tool: [_run_tool] *)

Definition call_details (call : GatewayToolCall) : json :=
  JObject [(py "tool_call_id", JString (gtc_id call)); (py "tool_name", JString (gtc_name call))].
Definition limited_details (call : GatewayToolCall) (limit : N) : json :=
  JObject [(py "limit_bytes", JInt (Z.of_N limit)); (py "tool_call_id", JString (gtc_id call));
           (py "tool_name", JString (gtc_name call))].

(** [_failed_run] *)
Definition _failed_run (output : list BufferedOutput) (error_ : ErrorDetail) : ToolRunResult :=
  mkRunResult (_coalesce_and_redact_output redact_text output (cfg_max_tool_output_bytes config))
    None (Some error_).

Definition invalid_tool_stream (call : GatewayToolCall) (message : string) : ErrorDetail :=
  loop_error "invalid_tool_stream" message false (call_details call).

(** The loop over the stream: its buffer with the completion, or an early failure. *)
Fixpoint consume_tool (call : GatewayToolCall) (context : ToolExecutionContext) (output : list BufferedOutput)
    (remaining : N) (completion : option json) (items : list tool_item)
    : list BufferedOutput * (option json + ErrorDetail) :=
  match items with
  | [] => (output, inl completion)
  | item :: rest =>
      if is_some completion
      then (output, inr (invalid_tool_stream call "tool emitted data after its terminal result"))
      else
        match item with
        | ToolOutputChunk stderr chunk =>
            let '(output, remaining, overflow) := _append_bounded_output output stderr chunk remaining in
            if overflow
            then (output, inr (loop_error "tool_output_limit" "tool output exceeded the configured byte limit"
                                 false (limited_details call (tec_max_output_bytes context))))
            else consume_tool call context output remaining completion rest
        | ToolExecutionCompleted result_ => consume_tool call context output remaining (Some result_) rest
        | UnsupportedItem =>
            (output, inr (invalid_tool_stream call "tool emitted an unsupported execution event"))
        end
  end.

Definition tool_result_limit (call : GatewayToolCall) (message : string) (limit : N) : ErrorDetail :=
  loop_error "tool_result_limit" message false (limited_details call limit).

(** The handlers around the stream; a cancellation passes. *)
Definition raised_run (call : GatewayToolCall) (output : list BufferedOutput) (e : exn) : outcome ToolRunResult :=
  let failed error_ := Ret (_failed_run output error_) in
  match e with
  | CancelledExn => Raise CancelledExn
  | TimeoutExn =>
      failed (loop_error "tool_timeout" "tool execution exceeded its timeout" true (call_details call))
  | DomainExn e =>
      match redact_error redact error_size e with Ok e => failed e | Err _ => Raise OtherExn end
  | OtherExn => failed (loop_error "tool_execution_failed" "tool execution failed" false (call_details call))
  end.

(** What the consumed stream amounts to: an exception of the context managers replaces
    an early return. *)
Definition settle_run (call : GatewayToolCall) (context : ToolExecutionContext)
    (consumed : list BufferedOutput * (option json + ErrorDetail)) (ending closing : outcome unit)
    : outcome ToolRunResult :=
  let failed error_ := Ret (_failed_run consumed.1 error_) in
  match consumed.2 with
  | inr error_ => match closing with Ret _ => failed error_ | Raise e => raised_run call consumed.1 e end
  | inl completion =>
      match ending with
      | Raise e => raised_run call consumed.1 e
      | Ret _ =>
          match completion with
          | None => failed (invalid_tool_stream call "tool stream ended without a terminal result")
          | Some result_ =>
              let limit := tec_max_result_bytes context in
              if (limit <? json_size result_)%N
              then failed (tool_result_limit call "tool result exceeded the configured byte limit" limit)
              else match redact_json redact result_ with
                   | Err _ => Raise OtherExn
                   | Ok safe =>
                       if (limit <? json_size safe)%N
                       then failed (tool_result_limit call
                              "redacted tool result exceeded the configured byte limit" limit)
                       else Ret (mkRunResult (_coalesce_and_redact_output redact_text consumed.1
                                                (tec_max_output_bytes context)) (Some safe) None)
                   end
          end
      end
  end.

(** [_run_tool] *)
Definition _run_tool (call : GatewayToolCall) (run_id : uuid) (checkpoint : option Checkpoint)
    : eff (TurnState W) ToolRunResult := λ s,
  let result_limit :=
    match checkpoint with
    | Some _ => Z.to_N (Z.max 1 (Z.of_N (cfg_max_tool_result_bytes config) - _WORKSPACE_RESULT_METADATA_RESERVE_BYTES))
    | None => cfg_max_tool_result_bytes config
    end in
  let context := mkToolContext run_id (gtc_id call) (chk_id <$> checkpoint)
                   (chk_workspace_revision <$> checkpoint) (cfg_max_tool_output_bytes config) result_limit in
  let '(stream, w) := env_stream env (ts_world s) call context in
  (settle_run call context
     (consume_tool call context [] (tec_max_output_bytes context) None (tsm_items stream)) (tsm_end stream) (tsm_close stream),
   mkTurnState w (ts_sequence s) (ts_transcript s) (ts_outcomes s)).

(** *** Events, transcript and outcomes *)

(** [LoopEventFactory._metadata] and the construction of one event *)
Definition make_event (run_id : uuid) (payload : AgentPayload) : eff (TurnState W) AgentEvent := λ s,
  let sequence := (ts_sequence s + 1)%Z in
  let s' := mkTurnState (ts_world s) sequence (ts_transcript s) (ts_outcomes s) in
  match validate_event digest payload_size (mkAgentEvent run_id sequence payload (env_clock env (ts_world s))) with
  | Ok e => (Ret e, s')
  | Err _ => (Raise OtherExn, s')
  end.

Definition append_transcript (m : GatewayMessage) : eff (TurnState W) unit :=
  modify (λ s, mkTurnState (ts_world s) (ts_sequence s) (ts_transcript s ++ [m]) (ts_outcomes s)).

Definition set_outcome (tool_call_id : pystr) (o : ToolOutcome) : eff (TurnState W) unit :=
  modify (λ s, mkTurnState (ts_world s) (ts_sequence s) (ts_transcript s) (<[tool_call_id := o]> (ts_outcomes s))).

(** [dict.setdefault] *)
Definition default_outcome (tool_call_id : pystr) (o : ToolOutcome) : eff (TurnState W) unit :=
  modify (λ s, mkTurnState (ts_world s) (ts_sequence s) (ts_transcript s)
                 (match ts_outcomes s !! tool_call_id with
                  | Some _ => ts_outcomes s
                  | None => <[tool_call_id := o]> (ts_outcomes s)
                  end)).

Definition append_tool_message (tool_call_id : pystr) (result_ : option json) (error_ : option ErrorDetail)
    : eff (TurnState W) unit :=
  m ← pure_result (tool_message tool_call_id result_ error_);
  append_transcript m.

(** [_completion_from_outcome] *)
Definition completion_event (run_id : uuid) (tool_call_id : pystr) (o : ToolOutcome) : eff (TurnState W) AgentEvent :=
  make_event run_id (ToolCompleted tool_call_id (to_status o) (to_result o) (to_error o)).

Definition failed_event (run_id : uuid) (tool_call_id : pystr) (error_ : ErrorDetail) : eff (TurnState W) AgentEvent :=
  make_event run_id (ToolCompleted tool_call_id TOOL_FAILED None (Some error_)).

Definition feedback_invalid (invalid : list InvalidToolCall) : eff (TurnState W) unit :=
  if is_nil invalid then mret tt
  else m ← pure_result (invalid_call_feedback invalid); append_transcript m.

(** The state as the coordinator changes it. *)
Definition with_world {A} (f : W → outcome A * W) : eff (TurnState W) A := λ s,
  let '(r, w) := f (ts_world s) in
  (r, mkTurnState w (ts_sequence s) (ts_transcript s) (ts_outcomes s)).

(** *** Validation of a turn *)

(** [_find_id_conflict] *)
Fixpoint conflict_in_calls (identities : gmap pystr (pystr * option pystr)) (calls : list GatewayToolCall)
    : gmap pystr (pystr * option pystr) + (pystr * pystr) :=
  match calls with
  | [] => inl identities
  | call :: rest =>
      let current := (gtc_name call, Some (digest (gtc_arguments call))) in
      match identities !! gtc_id call with
      | Some known =>
          if bool_decide (known = current)
          then conflict_in_calls (<[gtc_id call := current]> identities) rest
          else inr (gtc_id call, gtc_name call)
      | None => conflict_in_calls (<[gtc_id call := current]> identities) rest
      end
  end.

Fixpoint conflict_in_invalid (identities : gmap pystr (pystr * option pystr)) (invalid : list InvalidToolCall)
    : option (pystr * pystr) :=
  match invalid with
  | [] => None
  | c :: rest =>
      match identities !! inv_tool_call_id c with
      | Some _ => Some (inv_tool_call_id c, inv_tool_name c)
      | None => conflict_in_invalid (<[inv_tool_call_id c := (inv_tool_name c, None)]> identities) rest
      end
  end.

Definition _find_id_conflict (calls : list GatewayToolCall) (invalid : list InvalidToolCall)
    (outcomes : gmap pystr ToolOutcome) : option (pystr * pystr) :=
  match conflict_in_calls ((λ o, (to_tool_name o, to_argument_hash o)) <$> outcomes) calls with
  | inr conflict => Some conflict
  | inl identities => conflict_in_invalid identities invalid
  end.

(** [_prepare_calls] *)
Fixpoint _prepare_calls (outcomes : gmap pystr ToolOutcome) (pending : list pystr) (calls : list GatewayToolCall)
    : eff (TurnState W) (list PreparedCall) :=
  match calls with
  | [] => mret []
  | call :: rest =>
      let hash := digest (gtc_arguments call) in
      if is_some (outcomes !! gtc_id call) || bool_decide (gtc_id call ∈ pending) then
        more ← _prepare_calls outcomes pending rest;
        mret (mkPreparedCall call hash None None :: more)
      else
        item ← (match prepare (env_registry env) (gtc_name call) (gtc_arguments call) with
                | inl effect => mret (mkPreparedCall call hash (Some effect) None)
                | inr error_ =>
                    e ← pure_result (redact_error redact error_size error_);
                    mret (mkPreparedCall call hash None (Some e))
                end);
        more ← _prepare_calls outcomes (gtc_id call :: pending) rest;
        mret (item :: more)
  end.

(** [_reject_conflicting_turn] *)
Fixpoint reject_calls (run_id : uuid) (verdict : pystr → ErrorDetail) (calls : list pystr)
    : eff (TurnState W) (list AgentEvent) :=
  match calls with
  | [] => mret []
  | id :: rest =>
      e ← failed_event run_id id (verdict id);
      _ ← append_tool_message id None (Some (verdict id));
      more ← reject_calls run_id verdict rest;
      mret (e :: more)
  end.

Fixpoint fail_invalid (run_id : uuid) (verdict : InvalidToolCall → ErrorDetail) (keep : bool)
    (invalid : list InvalidToolCall) : eff (TurnState W) (list AgentEvent) :=
  match invalid with
  | [] => mret []
  | c :: rest =>
      e ← failed_event run_id (inv_tool_call_id c) (verdict c);
      _ ← (if keep then default_outcome (inv_tool_call_id c)
             (mkToolOutcome (inv_tool_name c) None TOOL_FAILED None (Some (inv_error c)))
           else mret tt);
      more ← fail_invalid run_id verdict keep rest;
      mret (e :: more)
  end.

Definition _reject_conflicting_turn (input : TurnInput) (calls : list GatewayToolCall)
    (invalid : list InvalidToolCall) (conflict : pystr * pystr) : eff (TurnState W) ToolTurnReport :=
  let conflict_error := loop_error "tool_call_id_conflict"
    "a stable tool-call identifier was reused for a different tool or arguments" false
    (JObject [(py "tool_call_id", JString conflict.1); (py "tool_name", JString conflict.2)]) in
  let rejected_error := loop_error "tool_turn_rejected" "the tool turn was rejected before execution" false (JObject []) in
  e1 ← reject_calls (ti_run_id input)
         (λ id, if bool_decide (id = conflict.1) then conflict_error else rejected_error) (gtc_id <$> calls);
  e2 ← fail_invalid (ti_run_id input)
         (λ c, if bool_decide (inv_tool_call_id c = conflict.1) then conflict_error else inv_error c) false invalid;
  _ ← feedback_invalid invalid;
  e3 ← make_event (ti_run_id input) (RunFailed conflict_error);
  mret (mkReport (e1 ++ e2 ++ [e3]) 0 true None None).

(** [_reject_invalid_turn] *)
Fixpoint reject_prepared (run_id : uuid) (rejected : ErrorDetail) (items : list PreparedCall)
    : eff (TurnState W) (list AgentEvent) :=
  match items with
  | [] => mret []
  | item :: rest =>
      let call := pc_tool_call item in
      let error_ := default rejected (pc_validation_error item) in
      _ ← default_outcome (gtc_id call)
            (mkToolOutcome (gtc_name call) (Some (pc_argument_hash item)) TOOL_FAILED None (Some error_));
      e ← failed_event run_id (gtc_id call) error_;
      _ ← append_tool_message (gtc_id call) None (Some error_);
      more ← reject_prepared run_id rejected rest;
      mret (e :: more)
  end.

Definition _reject_invalid_turn (input : TurnInput) (items : list PreparedCall)
    (invalid : list InvalidToolCall) (semantic_retry_count : Z) : eff (TurnState W) ToolTurnReport :=
  let rejected := loop_error "tool_turn_rejected"
    "the tool turn contained an invalid call and none were executed" false (JObject []) in
  e1 ← reject_prepared (ti_run_id input) rejected items;
  e2 ← fail_invalid (ti_run_id input) inv_error true invalid;
  _ ← feedback_invalid invalid;
  let terminal := (cfg_max_semantic_retries config <? semantic_retry_count + 1)%Z in
  e3 ← (if terminal then
          e ← make_event (ti_run_id input) (RunFailed (loop_error "semantic_retry_limit"
                "model exceeded the semantic retry budget" false
                (JObject [(py "limit", JInt (cfg_max_semantic_retries config));
                          (py "retries", JInt (semantic_retry_count + 1))])));
          mret [e]
        else mret []);
  mret (mkReport (e1 ++ e2 ++ e3) 1 terminal None None).

(** *** Approval *)

Definition awaits_approval (input : TurnInput) (outcomes : gmap pystr ToolOutcome) (item : PreparedCall) : bool :=
  is_none (outcomes !! gtc_id (pc_tool_call item))
  && (match pc_prepared item with
      | Some effect => _requires_approval (ti_approval_mode input) effect
      | None => false
      end)
  && is_none (ti_approval_decisions input !! gtc_id (pc_tool_call item)).

Fixpoint request_approvals (input : TurnInput) (items : list PreparedCall) : eff (TurnState W) (list AgentEvent) :=
  match items with
  | [] => mret []
  | item :: rest =>
      let call := pc_tool_call item in
      approval_id ← with_world (λ w, let '(id, w) := env_approval_id env w in (Ret id, w));
      e ← make_event (ti_run_id input) (ToolApprovalRequired approval_id (gtc_id call) (gtc_name call)
            (gtc_arguments call) (pc_argument_hash item)
            (_approval_reason (gtc_name call) (default READ_ONLY (pc_prepared item))));
      more ← request_approvals input rest;
      mret (e :: more)
  end.

(** *** One call *)

(** A finished call lets the turn go on, or ends it with a report. *)
Inductive call_progress :=
| CallDone (events : list AgentEvent) (checkpoint_id : option uuid) (task_plan : option json)
| TurnOver (events : list AgentEvent) (last_checkpoint_id : option uuid).

Definition checkpoint_details (c : Checkpoint) (call : GatewayToolCall) (uuid_text : uuid → pystr) : json :=
  JObject [(py "checkpoint_id", JString (uuid_text (chk_id c))); (py "tool_call_id", JString (gtc_id call))].

(** A failed completion event followed by the failure of the run *)
Definition fail_call (input : TurnInput) (call : GatewayToolCall) (error_ : ErrorDetail)
    (emitted : list AgentEvent) (last_checkpoint_id : option uuid) : eff (TurnState W) call_progress :=
  e1 ← failed_event (ti_run_id input) (gtc_id call) error_;
  e2 ← make_event (ti_run_id input) (RunFailed error_);
  mret (TurnOver (emitted ++ [e1; e2]) last_checkpoint_id).

(** Record an outcome and report it to the model. *)
Definition finish_call (input : TurnInput) (item : PreparedCall) (o : ToolOutcome) (emitted : list AgentEvent)
    (checkpoint_id : option uuid) (task_plan : option json) : eff (TurnState W) call_progress :=
  let id := gtc_id (pc_tool_call item) in
  _ ← set_outcome id o;
  e ← completion_event (ti_run_id input) id o;
  _ ← append_tool_message id (to_result o) (to_error o);
  mret (CallDone (emitted ++ [e]) checkpoint_id task_plan).

(** A terminal outcome of the run is replayed. *)
Definition replay_call (input : TurnInput) (item : PreparedCall) (prior : ToolOutcome) : eff (TurnState W) call_progress :=
  let id := gtc_id (pc_tool_call item) in
  e ← completion_event (ti_run_id input) id prior;
  _ ← append_tool_message id (to_result prior) (to_error prior);
  mret (CallDone [e] None None).

Definition call_outcome (item : PreparedCall) (status : ToolCallStatus) (result_ : option json)
    (error_ : option ErrorDetail) : ToolOutcome :=
  mkToolOutcome (gtc_name (pc_tool_call item)) (Some (pc_argument_hash item)) status result_ error_.

Definition deny_call (input : TurnInput) (item : PreparedCall) : eff (TurnState W) call_progress :=
  let error_ := loop_error "approval_rejected" "human approval was denied for this tool call" false
    (call_details (pc_tool_call item)) in
  finish_call input item (call_outcome item TOOL_FAILED None (Some error_)) [] None None.

Definition answer_call (input : TurnInput) (item : PreparedCall) : eff (TurnState W) call_progress :=
  let id := gtc_id (pc_tool_call item) in
  finish_call input item
    (match ti_approval_responses input !! id with
     | None => call_outcome item TOOL_FAILED None (Some (loop_error "interaction_response_missing"
                 "the approved user interaction did not include a response" false
                 (JObject [(py "tool_call_id", JString id)])))
     | Some response => call_outcome item TOOL_COMPLETED (Some (JObject [(py "response", JString response)])) None
     end) [] None None.

(** *** Checkpoints *)

Variable uuid_text : uuid → pystr.

Definition side_effecting (effect : ToolEffect) : bool :=
  match effect with WORKSPACE_MUTATION | COMMAND => true | _ => false end.

(** The checkpoint before a side-effecting call, or the end of the turn. *)
Definition take_checkpoint (input : TurnInput) (call : GatewayToolCall)
    : eff (TurnState W) (Checkpoint * AgentEvent + call_progress) :=
  match env_checkpoints env with
  | None =>
      p ← fail_call input call (loop_error "checkpoint_required"
            "side-effecting tools require a checkpoint coordinator" false (call_details call)) [] None;
      mret (inr p)
  | Some coordinator =>
      transcript ← gets ts_transcript;
      created ← catch
        (c ← with_world (λ w, create_before_tool coordinator w (ti_run_id input) (gtc_id call) transcript
               (ti_task_plan input) (ti_context_summary input));
         mret (inl c))
        (λ e, match e with
              | CancelledExn => raise CancelledExn
              | DomainExn d =>
                  safe ← pure_result (redact_error redact error_size d);
                  p ← fail_call input call safe [] None; mret (inr p)
              | _ =>
                  p ← fail_call input call (loop_error "checkpoint_create_failed"
                        "the pre-tool checkpoint could not be created" false (call_details call)) [] None;
                  mret (inr p)
              end);
      match created with
      | inr p => mret (inr p)
      | inl c =>
          if negb (_checkpoint_matches_request c (ti_run_id input) (gtc_id call)
                     (Z.of_nat (length transcript)) (ti_task_plan input) (ti_context_summary input))
          then
            p ← fail_call input call (loop_error "checkpoint_contract_invalid"
                  "the checkpoint coordinator returned mismatched state" false (call_details call)) [] None;
            mret (inr p)
          else
            e ← make_event (ti_run_id input) (CheckpointCreated (chk_id c) (chk_tool_call_id c)
                  (chk_message_sequence c) (chk_workspace_revision c));
            mret (inl (c, e))
      end
  end.

(** [coordinator.rollback]: whether it succeeded; a cancellation passes. *)
Definition try_rollback (coordinator : CheckpointCoordinator W) (c : Checkpoint) : eff (TurnState W) bool :=
  catch (_ ← with_world (λ w, rollback coordinator w c); mret true)
    (λ e, match e with CancelledExn => raise CancelledExn | _ => mret false end).

(** A cancelled tool is rolled back before the cancellation goes on.  A second
    cancellation waits for the restore, whose exception then passes as it is; a third
    one cancels the restore itself, which [rollback] shows by raising [CancelledExn]. *)
Definition cancel_with_rollback (coordinator : CheckpointCoordinator W) (call : GatewayToolCall) (c : Checkpoint)
    : eff (TurnState W) ToolRunResult :=
  interrupted ← gets (λ s, env_interrupted env (ts_world s));
  _ ← catch (with_world (λ w, rollback coordinator w c))
        (λ e, match e with
              | CancelledExn => raise CancelledExn
              | _ => if interrupted : bool then raise e else raise (DomainExn (loop_error "checkpoint_restore_failed"
                              "workspace restoration failed after tool cancellation" false
                              (checkpoint_details c call uuid_text)))
              end);
  raise CancelledExn.

Definition run_checkpointed (input : TurnInput) (call : GatewayToolCall) (checkpoint : option Checkpoint)
    : eff (TurnState W) ToolRunResult :=
  catch (_run_tool call (ti_run_id input) checkpoint)
    (λ e, match e, checkpoint, env_checkpoints env with
          | CancelledExn, Some c, Some coordinator => cancel_with_rollback coordinator call c
          | _, _, _ => raise e
          end).

Fixpoint output_events (input : TurnInput) (call : GatewayToolCall) (output : list BufferedOutput)
    : eff (TurnState W) (list AgentEvent) :=
  match output with
  | [] => mret []
  | b :: rest =>
      e ← make_event (ti_run_id input) (ToolOutput (bo_stderr b) (gtc_id call) (bo_chunk b) (bo_truncated b));
      more ← output_events input call rest;
      mret (e :: more)
  end.

(** Finalizing a successful checkpointed call: its result with the new revision, or
    the error the turn ends with (the workspace restored where possible). *)
Definition finalize_call (coordinator : CheckpointCoordinator W) (call : GatewayToolCall) (c : Checkpoint)
    (result_ : json) : eff (TurnState W) (json + ErrorDetail) :=
  let details := checkpoint_details c call uuid_text in
  revision ← catch
    (r ← with_world (λ w, complete_tool coordinator w c (gtc_id call)); mret (Some r))
    (λ e, match e with CancelledExn => raise CancelledExn | _ => mret None end);
  match revision with
  | None =>
      restored ← try_rollback coordinator c;
      mret (inr (if restored : bool
                 then loop_error "checkpoint_finalize_failed"
                        "the successful tool state could not be checkpointed" false details
                 else loop_error "checkpoint_restore_failed"
                        "workspace restoration failed after checkpoint finalization" false details))
  | Some revision =>
      let completed := json_set result_ (py "workspace_revision") (JString revision) in
      let result_error :=
        if negb (_valid_workspace_revision revision)
        then Some (loop_error "checkpoint_finalize_failed"
                     "the checkpoint coordinator returned an invalid workspace revision" false details)
        else if (cfg_max_tool_result_bytes config <? json_size completed)%N
        then Some (loop_error "tool_result_limit"
                     "the completed tool metadata exceeded the configured byte limit" false
                     (limited_details call (cfg_max_tool_result_bytes config)))
        else None in
      match result_error with
      | None => mret (inl completed)
      | Some error_ =>
          restored ← try_rollback coordinator c;
          mret (inr (if restored : bool then error_
                     else loop_error "checkpoint_restore_failed"
                            "workspace restoration failed after invalid completion metadata" false details))
      end
  end.

(** The plan a successful [update_task_plan] reports *)
Definition reported_plan (call : GatewayToolCall) (result_ : option json) : option json :=
  if bool_decide (gtc_name call = py "update_task_plan") then
    match result_ ≫= (λ r, json_get r (py "task_plan")) with
    | Some (JObject fields) => Some (JObject fields)
    | _ => None
    end
  else None.

(** Execution of a call that is neither replayed, denied nor answered. *)
Definition execute_call (input : TurnInput) (item : PreparedCall) (effect : ToolEffect)
    : eff (TurnState W) call_progress :=
  let call := pc_tool_call item in
  taken ← (if side_effecting effect
           then t ← take_checkpoint input call;
                mret (match t with inl (c, e) => inl (Some c, [e]) | inr p => inr p end)
           else mret (inl (None, [])));
  match taken with
  | inr p => mret p
  | inl (checkpoint, emitted) =>
      let last := chk_id <$> checkpoint in
      started ← make_event (ti_run_id input) (ToolStarted (gtc_id call) (gtc_name call));
      run ← run_checkpointed input call checkpoint;
      outputs ← output_events input call (trr_output run);
      let emitted := emitted ++ [started] ++ outputs in
      match checkpoint, env_checkpoints env, trr_error run, trr_result run with
      | Some c, Some coordinator, Some error_, _ =>
          restored ← try_rollback coordinator c;
          if restored : bool
          then finish_call input item (call_outcome item TOOL_FAILED None (Some error_)) emitted last None
          else fail_call input call (loop_error "checkpoint_restore_failed"
                 "the workspace could not be restored after tool failure" false
                 (checkpoint_details c call uuid_text)) emitted last
      | Some c, Some coordinator, None, Some result_ =>
          finalized ← finalize_call coordinator call c result_;
          match finalized with
          | inr error_ => fail_call input call error_ emitted last
          | inl completed =>
              finish_call input item (call_outcome item TOOL_COMPLETED (Some completed) None) emitted last
                (reported_plan call (Some completed))
          end
      | _, _, Some error_, _ =>
          finish_call input item (call_outcome item TOOL_FAILED None (Some error_)) emitted last None
      | _, _, None, Some result_ =>
          finish_call input item (call_outcome item TOOL_COMPLETED (Some result_) None) emitted last
            (reported_plan call (Some result_))
      | _, _, None, None => raise OtherExn
      end
  end.

Definition run_call (input : TurnInput) (item : PreparedCall) : eff (TurnState W) call_progress :=
  outcomes ← gets ts_outcomes;
  let id := gtc_id (pc_tool_call item) in
  match outcomes !! id, ti_approval_decisions input !! id, pc_prepared item with
  | Some prior, _, _ => replay_call input item prior
  | None, Some false, _ => deny_call input item
  | None, _, None => raise OtherExn
  | None, _, Some INTERACTION => answer_call input item
  | None, _, Some effect => execute_call input item effect
  end.

(** *** The turn *)

Fixpoint run_calls (input : TurnInput) (emitted : list AgentEvent) (last_checkpoint_id : option uuid)
    (task_plan : option json) (items : list PreparedCall) : eff (TurnState W) ToolTurnReport :=
  match items with
  | [] => mret (mkReport emitted 0 false last_checkpoint_id task_plan)
  | item :: rest =>
      progress ← run_call input item;
      match progress with
      | TurnOver events last => mret (mkReport (emitted ++ events) 0 true last None)
      | CallDone events checkpoint plan =>
          run_calls input (emitted ++ events)
            (match checkpoint with Some c => Some c | None => last_checkpoint_id end)
            (match plan with Some p => Some p | None => task_plan end) rest
      end
  end.

(** [ToolTurnExecutor.execute] *)
Definition execute (input : TurnInput) (calls : list GatewayToolCall) (invalid : list InvalidToolCall)
    (semantic_retry_count : Z) : eff (TurnState W) ToolTurnReport :=
  outcomes ← gets ts_outcomes;
  match _find_id_conflict calls invalid outcomes with
  | Some conflict => _reject_conflicting_turn input calls invalid conflict
  | None =>
      items ← _prepare_calls outcomes [] calls;
      if negb (is_nil invalid) || existsb (λ i, is_some (pc_validation_error i)) items
      then _reject_invalid_turn input items invalid semantic_retry_count
      else
        let awaiting := filter (λ i, awaits_approval input outcomes i = true) items in
        if negb (is_nil awaiting) then
          events ← request_approvals input awaiting;
          mret (mkReport events 0 true None None)
        else run_calls input [] None None items
  end.
End Turn.
