(* ===== verification/ModelTurn.v ===== *)
(** * Model turns

    [agent_core/_model_turn.py]: one gateway stream is consumed under the loop's byte
    and call limits; text is redacted as it streams and cut into events that fit, tool
    calls are collected, and every failure becomes a safe error.

    The generator's yields are kept in the state, in order: what was yielded before an
    exception has been yielded.  The gateway and the streaming redactor act through an
    interface. *)

From stdpp Require Import base list sets gmap strings.
From Stdlib Require Import ZArith Lia.
From S2P Require Import Prelude PyBase Domain Tables Contracts Transcripts Execution Recovery TaskPlans PyText Gateway Redaction AgentEvents PyEffects ToolTurn.

(** ** Interfaces *)

(** A streaming redactor: its state, [feed] and [finish]. *)
Record StreamRedactor := mkStreamRedactor {
  sr_state : Type;
  sr_start : sr_state;
  sr_feed : sr_state → pystr → sr_state * pystr;
  sr_finish : sr_state → pystr;
}.

(** [Redactor.stream()]; the runner feeds a stream only before it finishes it. *)
Definition redaction_stream (is_word : N → bool) (secrets : list pystr) : StreamRedactor :=
  mkStreamRedactor StreamingRedactor (mkStreaming [] false)
    (λ s value, match Redaction.feed is_word secrets s value with Ok r => r | Err _ => (s, []) end)
    (λ s, match Redaction.finish is_word secrets s with Ok (_, text) => text | Err _ => [] end).

(** What a gateway stream delivers ([None] where no event model accepts the value),
    and how it ends. *)
Record model_stream := mkModelStream {
  msm_items : list (option GatewayEvent);
  msm_end : outcome unit;
}.

(** [parse_gateway_event] *)
Definition parse_gateway_event (value : option GatewayEvent) : option GatewayEvent :=
  match value with
  | Some e => match validate_gateway_event e with Ok e => Some e | Err _ => None end
  | None => None
  end.

(** ** State of the loop *)

Record LoopState (W : Type) := mkLoopState {
  ls_turn : TurnState W;
  ls_yielded : list AgentEvent;
}.
Arguments mkLoopState {W}.
Arguments ls_turn {W}.
Arguments ls_yielded {W}.

(** A computation of a turn inside the loop. *)
Definition lift {W A} (m : eff (TurnState W) A) : eff (LoopState W) A := λ s,
  let '(r, t) := m (ls_turn s) in (r, mkLoopState t (ls_yielded s)).

Definition yield_ {W} (e : AgentEvent) : eff (LoopState W) unit :=
  modify (λ s, mkLoopState (ls_turn s) (ls_yielded s ++ [e])).

(** [while lower <= upper]: the longest prefix the search finds to fit. *)
Fixpoint search_prefix (fuel : nat) (fits : pystr → bool) (remaining : pystr) (lower upper best : nat) : nat :=
  match fuel with
  | O => best
  | S fuel =>
      if (lower <=? upper)%nat then
        let middle := Nat.div2 (lower + upper) in
        if fits (take middle remaining) then search_prefix fuel fits remaining (S middle) upper middle
        else search_prefix fuel fits remaining lower (pred middle) best
      else best
  end.

(** [_model_text_chunks]: the chunks yielded, and whether the generator ended rather
    than raised. *)
Fixpoint model_text_chunks (fuel : nat) (fits : pystr → bool) (remaining : pystr) : list pystr * bool :=
  match fuel, remaining with
  | _, [] => ([], true)
  | O, _ => ([], false)
  | S fuel, _ =>
      if fits remaining then ([remaining], true)
      else
        let best := search_prefix (length remaining) fits remaining 1 (length remaining - 1) 0 in
        if (best =? 0)%nat then ([], false)
        else let '(chunks, ended) := model_text_chunks fuel fits (drop best remaining) in
             (take best remaining :: chunks, ended)
  end.
Definition _model_text_chunks (fits : pystr → bool) (value : pystr) : list pystr * bool :=
  model_text_chunks (length value) fits value.

Record ModelTurnResult := mkTurnResult {
  mtr_text : pystr;
  mtr_tool_calls : list GatewayToolCall;
  mtr_invalid_tool_calls : list InvalidToolCall;
  mtr_completion : GatewayResponseCompleted;
}.
Definition has_tool_calls (r : ModelTurnResult) : bool :=
  negb (is_nil (mtr_tool_calls r)) || negb (is_nil (mtr_invalid_tool_calls r)).

Section ModelTurn.
Context {W : Type}.
Variable env : ToolEnvironment W.
Variable config : AgentLoopConfig.
Variable redactor : StreamRedactor.
Variable redact : json → json.
Variable error_size : ErrorDetail → Z.
Variable digest : json → pystr.
Variable payload_size : AgentPayload → Z.

(** The local variables of [ModelTurnRunner.stream] *)
Record model_progress := mkModelProgress {
  mp_text_parts : list pystr;
  mp_raw_bytes : N;
  mp_safe_bytes : N;
  mp_redactor : sr_state redactor;
  mp_tool_calls : list GatewayToolCall;
  mp_invalid_tool_calls : list InvalidToolCall;
  mp_completion : option GatewayResponseCompleted;
}.

Section Stream.
Variable run_id : uuid.
Variable model_call_id : pystr.
Variable turn_number : Z.
Variable prior_tool_call_count : Z.

Definition emit (payload : AgentPayload) : eff (LoopState W) unit :=
  e ← lift (make_event env digest payload_size run_id payload); yield_ e.

(** [_model_text_payload_fits]; the request has validated the identifier *)
Definition _model_text_payload_fits (value : pystr) : bool :=
  (payload_size (ModelTextDelta model_call_id value) <=? MAX_EVENT_PAYLOAD_BYTES)%Z.

Fixpoint emit_chunks (chunks : list pystr) : eff (LoopState W) unit :=
  match chunks with
  | [] => mret tt
  | chunk :: rest => _ ← emit (ModelTextDelta model_call_id chunk); emit_chunks rest
  end.
Definition emit_text (text : pystr) : eff (LoopState W) unit :=
  let '(chunks, ended) := _model_text_chunks _model_text_payload_fits text in
  _ ← emit_chunks chunks;
  if ended : bool then mret tt else raise OtherExn.

Definition turn_details : json := JObject [(py "turn", JInt turn_number)].
Definition invalid_model_stream (message : string) : ErrorDetail :=
  loop_error "invalid_model_stream" message false turn_details.
Definition model_output_limit (message : string) : ErrorDetail :=
  loop_error "model_output_limit" message false
    (JObject [(py "limit_bytes", JInt (Z.of_N (cfg_max_model_output_bytes config))); (py "turn", JInt turn_number)]).
Definition tool_call_limit : ErrorDetail :=
  loop_error "tool_call_limit" "agent reached the maximum number of tool calls" false
    (JObject [(py "limit", JInt (cfg_max_tool_calls config))]).

(** The check after each tool call *)
Definition within_tool_calls (p : model_progress) : bool :=
  (prior_tool_call_count + Z.of_nat (length (mp_tool_calls p) + length (mp_invalid_tool_calls p))
   <=? cfg_max_tool_calls config)%Z.

Definition add_invalid (p : model_progress) (c : InvalidToolCall) : model_progress :=
  mkModelProgress (mp_text_parts p) (mp_raw_bytes p) (mp_safe_bytes p) (mp_redactor p) (mp_tool_calls p)
    (mp_invalid_tool_calls p ++ [c]) (mp_completion p).
Definition add_call (p : model_progress) (c : GatewayToolCall) : model_progress :=
  mkModelProgress (mp_text_parts p) (mp_raw_bytes p) (mp_safe_bytes p) (mp_redactor p) (mp_tool_calls p ++ [c])
    (mp_invalid_tool_calls p) (mp_completion p).
Definition rejected_call (id name : pystr) (error_ : ErrorDetail) : AgentPayload :=
  ModelToolCallReceived model_call_id id name None None (Some error_).

(** A text delta *)
Definition text_delta (p : model_progress) (delta : pystr) : eff (LoopState W) (model_progress + ErrorDetail) :=
  let raw := (mp_raw_bytes p + utf8_len delta)%N in
  if (cfg_max_model_output_bytes config <? raw)%N
  then mret (inr (model_output_limit "model output exceeded the configured byte limit"))
  else
    let '(redactor', safe_text) := sr_feed redactor (mp_redactor p) delta in
    let safe := (mp_safe_bytes p + utf8_len safe_text)%N in
    if (cfg_max_model_output_bytes config <? safe)%N
    then mret (inr (model_output_limit "redacted model output exceeded the configured byte limit"))
    else
      let parts := if is_nil safe_text then mp_text_parts p else mp_text_parts p ++ [safe_text] in
      _ ← emit_text safe_text;
      mret (inl (mkModelProgress parts raw safe redactor' (mp_tool_calls p) (mp_invalid_tool_calls p)
                   (mp_completion p))).

(** A tool call of the model *)
Definition tool_call_event (p : model_progress) (call : GatewayToolCall)
    : eff (LoopState W) (model_progress + ErrorDetail) :=
  if (cfg_max_tool_argument_bytes config <? json_size (gtc_arguments call))%N then
    let error_ := loop_error "tool_argument_limit" "model-generated tool arguments exceeded the byte limit" false
      (limited_details call (cfg_max_tool_argument_bytes config)) in
    _ ← emit (rejected_call (gtc_id call) (gtc_name call) error_);
    mret (inr error_)
  else if contains_secret redact (gtc_arguments call) then
    let error_ := loop_error "sensitive_tool_arguments"
      "model-generated tool arguments contained sensitive data" false (call_details call) in
    _ ← emit (rejected_call (gtc_id call) (gtc_name call) error_);
    mret (inl (add_invalid p (mkInvalidCall (gtc_id call) (gtc_name call) error_)))
  else
    _ ← emit (ModelToolCallReceived model_call_id (gtc_id call) (gtc_name call) (Some (gtc_arguments call))
                (Some (digest (gtc_arguments call))) None);
    mret (inl (add_call p call)).

(** One event of the stream; [inr] ends the turn with a failure. *)
Definition model_event (p : model_progress) (event : GatewayEvent) : eff (LoopState W) (model_progress + ErrorDetail) :=
  let limited (r : model_progress + ErrorDetail) : model_progress + ErrorDetail :=
    match r with
    | inl p => if within_tool_calls p then inl p else inr tool_call_limit
    | inr e => inr e
    end in
  if is_some (mp_completion p)
  then mret (inr (invalid_model_stream "gateway emitted data after the terminal event"))
  else
    match event with
    | GatewayTextDelta delta => text_delta p delta
    | GatewayToolCallEvent call => r ← tool_call_event p call; mret (limited r)
    | GatewayInvalidToolCallEvent id name error_ =>
        safe ← pure_result (redact_error redact error_size error_);
        _ ← emit (rejected_call id name safe);
        mret (limited (inl (add_invalid p (mkInvalidCall id name safe))))
    | ResponseCompleted completion =>
        mret (inl (mkModelProgress (mp_text_parts p) (mp_raw_bytes p) (mp_safe_bytes p) (mp_redactor p)
                     (mp_tool_calls p) (mp_invalid_tool_calls p) (Some completion)))
    end.

Fixpoint consume_model (p : model_progress) (items : list (option GatewayEvent)) (ending : outcome unit)
    : eff (LoopState W) (model_progress + ErrorDetail) :=
  match items with
  | [] => match ending with Ret _ => mret (inl p) | Raise e => raise e end
  | item :: rest =>
      match parse_gateway_event item with
      | None => mret (inr (invalid_model_stream "gateway emitted an invalid normalized event"))
      | Some event =>
          r ← model_event p event;
          match r with
          | inl p => consume_model p rest ending
          | inr e => mret (inr e)
          end
      end
  end.

(** The handlers around the stream *)
Definition stream_failure (e : exn) : eff (LoopState W) (model_progress + ErrorDetail) :=
  match e with
  | CancelledExn => raise CancelledExn
  | TimeoutExn =>
      mret (inr (loop_error "model_timeout" "model gateway stream exceeded its timeout" true turn_details))
  | DomainExn d => safe ← pure_result (redact_error redact error_size d); mret (inr safe)
  | OtherExn => mret (inr (loop_error "model_gateway_failure" "model gateway stream failed" true turn_details))
  end.

(** What follows the stream *)
Definition finish_turn (p : model_progress) : eff (LoopState W) (ModelTurnResult + ErrorDetail) :=
  match mp_completion p with
  | None => mret (inr (loop_error "incomplete_model_stream"
                         "model gateway stream ended without a terminal event" true turn_details))
  | Some completion =>
      let final_safe_text := sr_finish redactor (mp_redactor p) in
      if (cfg_max_model_output_bytes config <? mp_safe_bytes p + utf8_len final_safe_text)%N
      then mret (inr (model_output_limit "redacted model output exceeded the configured byte limit"))
      else
        let parts := if is_nil final_safe_text then mp_text_parts p else mp_text_parts p ++ [final_safe_text] in
        _ ← emit_text final_safe_text;
        mret (inl (mkTurnResult (mjoin parts) (mp_tool_calls p) (mp_invalid_tool_calls p) completion))
  end.

Definition start_progress : model_progress := mkModelProgress [] 0 0 (sr_start redactor) [] [] None.

(** [ModelTurnRunner.stream] *)
Definition stream (gateway : W → GatewayRequest → model_stream * W) (request : GatewayRequest)
    : eff (LoopState W) (ModelTurnResult + ErrorDetail) :=
  opened ← lift (with_world (λ w, let '(m, w') := gateway w request in (Ret m, w')));
  r ← catch (consume_model start_progress (msm_items opened) (msm_end opened)) stream_failure;
  match r with
  | inr e => mret (inr e)
  | inl p => finish_turn p
  end.
End Stream.
End ModelTurn.
