(* ===== verification/GatewayPolicies.v ===== *)
(** * Gateway admission and reliability policies

    The four process-local policies of [gateway_client/reliability.py]: the
    capacity store, the request (idempotency) store, the sliding-window rate
    limiter and the circuit breaker, with the contracts of
    [agent_core/capacity.py] and [agent_core/gateway_reliability.py].

    Every operation runs under the object's lock, so it is one function from the
    state to the outcome and the new state; an exception keeps whatever the
    operation had already changed.  Clock readings are arguments.  Seconds are
    kept as exact microsecond counts. *)

From stdpp Require Import base list sets gmap strings.
From Stdlib Require Import ZArith Lia.
From S2P Require Import Prelude PyBase Domain Contracts RunRepository.

Definition MAX_POLICY : timedelta := seconds 3600.
Definition MAX_PROVIDER_TOKENS_PER_WINDOW : Z := 1000000000.

(** [_bounded_integer] and [_bounded_seconds] *)
Definition _bounded_integer (value maximum : Z) : result Z :=
  _ ← ensure ((1 <=? value)%Z && (value <=? maximum)%Z) (ValueError "bounded integer");
  Ok value.
Definition _bounded_seconds (value : timedelta) : result timedelta :=
  _ ← ensure ((0 <? value)%Z && (value <=? MAX_POLICY)%Z) (ValueError "bounded seconds");
  Ok value.

(** [_aware_clock_value] *)
Definition _aware_clock_value (value : datetime) : result timestamp :=
  match normalize_timestamp value with
  | Ok t => Ok t
  | Err _ => Err (ValueError "gateway capacity clock must return an aware datetime")
  end.

(** ** Capacity store *)

Module CapacityStore.

Inductive CapacityScope := TENANT_GATEWAY_REQUESTS | PROVIDER_REQUESTS | PROVIDER_TOKENS.

Record GatewayCapacityLease := mkLease {
  cl_id : uuid;
  cl_tenant_id : uuid;
  cl_route_name : pystr;
  cl_request_id : pystr;
  cl_reserved_tokens : Z;
  cl_acquired_at : timestamp;
  cl_expires_at : timestamp;
}.

#[export] Instance lease_eq_dec : EqDecision GatewayCapacityLease.
Proof. solve_decision. Defined.

(** [GatewayRequestIdentifier] has the shape of an idempotency key. *)
Definition validate_lease (l : GatewayCapacityLease) : result GatewayCapacityLease :=
  route ← identifier_string (cl_route_name l);
  _ ← ensure (idempotency_key_ok (cl_request_id l)) (ValidationError "request_id");
  _ ← ensure ((1 <=? cl_reserved_tokens l)%Z
              && (cl_reserved_tokens l <=? MAX_PROVIDER_TOKENS_PER_WINDOW)%Z)
        (ValidationError "reserved_tokens");
  _ ← ensure (cl_acquired_at l <? cl_expires_at l)%Z
        (ValidationError "gateway capacity expiry must follow acquisition");
  Ok (mkLease (cl_id l) (cl_tenant_id l) route (cl_request_id l) (cl_reserved_tokens l)
        (cl_acquired_at l) (cl_expires_at l)).

(** A claim holds exactly one of a lease and a rejection. *)
Inductive GatewayCapacityClaim :=
| Granted (lease : GatewayCapacityLease)
| Rejected (scope : CapacityScope) (retry_after : timedelta).

Definition rejection (scope : CapacityScope) (retry_after : timedelta)
    : result GatewayCapacityClaim :=
  _ ← ensure ((0 <? retry_after)%Z && (retry_after <=? seconds 3600)%Z)
        (ValidationError "retry_after_seconds");
  Ok (Rejected scope retry_after).

Record LeaseState := mkLeaseState {
  ls_lease : GatewayCapacityLease;
  ls_window_started_at : timestamp;
}.

Record TokenWindow := mkWindow {
  tw_started_at : timestamp;
  tw_tokens : Z;
}.

Record Config := mkConfig {
  tenant_limit : Z;
  provider_limit : Z;
  token_limit : Z;
  window : timedelta;
}.

(** The checks of the constructor. *)
Definition config_ok (c : Config) : bool :=
  (1 <=? tenant_limit c)%Z && (tenant_limit c <=? 10000)%Z
  && (1 <=? provider_limit c)%Z && (provider_limit c <=? 10000)%Z
  && (1 <=? token_limit c)%Z && (token_limit c <=? MAX_PROVIDER_TOKENS_PER_WINDOW)%Z
  && (0 <? window c)%Z && (window c <=? MAX_POLICY)%Z.

Record State := mkState {
  leases : gmap uuid LeaseState;
  requests : gmap (uuid * pystr) uuid;
  tokens : gmap pystr TokenWindow;
}.

Definition initial : State := mkState ∅ ∅ ∅.

Definition request_key (st : LeaseState) : uuid * pystr :=
  (cl_tenant_id (ls_lease st), cl_request_id (ls_lease st)).

Definition expired (now : timestamp) (st : LeaseState) : bool :=
  (cl_expires_at (ls_lease st) <=? now)%Z.

Definition _prune (now : timestamp) (s : State) : State :=
  mkState
    (filter (λ kv, expired now kv.2 = false) (leases s))
    (foldr (λ st m, delete (request_key st) m) (requests s)
       (select_where (expired now) (leases s)))
    (tokens s).

Definition _token_window (c : Config) (route_name : pystr) (now : timestamp) (s : State)
    : TokenWindow * State :=
  match tokens s !! route_name with
  | Some w =>
      if (window c <=? now - tw_started_at w)%Z then
        let w' := mkWindow now 0 in
        (w', mkState (leases s) (requests s) (<[route_name := w']> (tokens s)))
      else (w, s)
  | None =>
      let w' := mkWindow now 0 in
      (w', mkState (leases s) (requests s) (<[route_name := w']> (tokens s)))
  end.

Definition tenant_leases (s : State) (tenant_id : uuid) : list LeaseState :=
  select_where (λ st, bool_decide (cl_tenant_id (ls_lease st) = tenant_id)) (leases s).
Definition route_leases (s : State) (route_name : pystr) : list LeaseState :=
  select_where (λ st, bool_decide (cl_route_name (ls_lease st) = route_name)) (leases s).

(** [max(0.001, min(expires_at - now))] over a nonempty tuple; [min(())] raises. *)
Definition _retry_after (l : list LeaseState) (now : timestamp) : result timedelta :=
  match l with
  | [] => Err (ValueError "min() arg is an empty sequence")
  | st :: l =>
      Ok (Z.max 1000 (foldr (λ st acc, Z.min (cl_expires_at (ls_lease st) - now) acc)
                        (cl_expires_at (ls_lease st) - now) l))%Z
  end.

(** [now] is the clock reading, [lease_id] the next identifier of the factory. *)
Definition acquire (c : Config) (clock : datetime) (lease_id : uuid) (s : State)
    (tenant_id : uuid) (route_name request_id : pystr) (reserved_tokens : Z)
    (lease_duration : timedelta) : result GatewayCapacityClaim * State :=
  match (_ ← _bounded_integer reserved_tokens MAX_PROVIDER_TOKENS_PER_WINDOW;
         _ ← _bounded_seconds lease_duration;
         _aware_clock_value clock) with
  | Err e => (Err e, s)
  | Ok now =>
      let s := _prune now s in
      let key := (tenant_id, request_id) in
      match requests s !! key with
      | Some existing_id =>
          match leases s !! existing_id with
          | None => (Err (KeyError "lease"), s)
          | Some existing =>
              if negb (bool_decide (cl_route_name (ls_lease existing) = route_name))
                 || negb (cl_reserved_tokens (ls_lease existing) =? reserved_tokens)%Z
              then (Err (ValueError "gateway capacity request identity is already in use"), s)
              else (Ok (Granted (ls_lease existing)), s)
          end
      | None =>
          if (tenant_limit c <=? Z.of_nat (length (tenant_leases s tenant_id)))%Z then
            (retry ← _retry_after (tenant_leases s tenant_id) now;
             rejection TENANT_GATEWAY_REQUESTS retry, s)
          else if (provider_limit c <=? Z.of_nat (length (route_leases s route_name)))%Z then
            (retry ← _retry_after (route_leases s route_name) now;
             rejection PROVIDER_REQUESTS retry, s)
          else
            let '(w, s) := _token_window c route_name now s in
            if (token_limit c <? tw_tokens w + reserved_tokens)%Z then
              (rejection PROVIDER_TOKENS (Z.max 1000 (window c - (now - tw_started_at w))%Z), s)
            else
              match validate_lease (mkLease lease_id tenant_id route_name request_id
                      reserved_tokens now (now + lease_duration)) with
              | Err e => (Err e, s)
              | Ok lease =>
                  let w' := mkWindow (tw_started_at w) (tw_tokens w + reserved_tokens) in
                  (Ok (Granted lease),
                   mkState (<[lease_id := mkLeaseState lease (tw_started_at w)]> (leases s))
                     (<[key := lease_id]> (requests s))
                     (<[route_name := w']> (tokens s)))
              end
      end
  end.

Definition release (c : Config) (clock : datetime) (s : State) (lease : GatewayCapacityLease)
    (consumed_tokens : Z) : result unit * State :=
  match (_ ← ensure ((0 <=? consumed_tokens)%Z
                     && (consumed_tokens <=? MAX_PROVIDER_TOKENS_PER_WINDOW)%Z)
               (ValueError "consumed_tokens must be in [0, 1000000000]");
         _aware_clock_value clock) with
  | Err e => (Err e, s)
  | Ok now =>
      match leases s !! cl_id lease with
      | None => (Ok tt, s)
      | Some st =>
          if bool_decide (ls_lease st = lease) then
            let s1 := mkState (delete (cl_id lease) (leases s))
                        (delete (cl_tenant_id lease, cl_request_id lease) (requests s))
                        (tokens s) in
            let '(w, s2) := _token_window c (cl_route_name lease) now s1 in
            if bool_decide (tw_started_at w = ls_window_started_at st) then
              let w' := mkWindow (tw_started_at w)
                (Z.max 0 (tw_tokens w - cl_reserved_tokens lease + consumed_tokens)) in
              (Ok tt, mkState (leases s2) (requests s2)
                        (<[cl_route_name lease := w']> (tokens s2)))
            else (Ok tt, s2)
          else (Err (ValueError "gateway capacity lease does not match durable ownership"), s)
      end
  end.

Definition capacity_lease_lost : error := DomainOperationError "gateway_capacity_lease_lost" true.

Definition renew (clock : datetime) (s : State) (lease : GatewayCapacityLease)
    (lease_duration : timedelta) : result GatewayCapacityLease * State :=
  match (_ ← _bounded_seconds lease_duration; _aware_clock_value clock) with
  | Err e => (Err e, s)
  | Ok now =>
      let s := _prune now s in
      match leases s !! cl_id lease with
      | None => (Err capacity_lease_lost, s)
      | Some st =>
          if bool_decide (ls_lease st = lease) then
            match validate_lease (mkLease (cl_id lease) (cl_tenant_id lease)
                    (cl_route_name lease) (cl_request_id lease) (cl_reserved_tokens lease)
                    (cl_acquired_at lease) (now + lease_duration)) with
            | Err e => (Err e, s)
            | Ok renewed =>
                (Ok renewed,
                 mkState (<[cl_id lease := mkLeaseState renewed (ls_window_started_at st)]>
                            (leases s)) (requests s) (tokens s))
            end
          else (Err capacity_lease_lost, s)
      end
  end.

End CapacityStore.

(** ** Request store *)

Module RequestStore.
Section RequestStore.
(** Gateway events, of which the store only asks whether one completes the
    response, and failure details are opaque. *)
Context {GatewayEvent ErrorValue : Type} (is_response_completed : GatewayEvent → bool).

Inductive Status := EXECUTE | IN_PROGRESS | COMPLETED | FAILED | CONFLICT.

#[local] Instance status_eq_dec : EqDecision Status.
Proof. solve_decision. Defined.

Definition is_in_progress (s : Status) : bool := bool_decide (s = IN_PROGRESS).

Record Claim := mkClaim {
  cm_status : Status;
  cm_request_hash : pystr;
  cm_events : list GatewayEvent;
  cm_error : option ErrorValue;
}.

(** [terminal_positions == (len(events) - 1,)] *)
Fixpoint completed_last (events : list GatewayEvent) : bool :=
  match events with
  | [] => false
  | [e] => is_response_completed e
  | e :: rest => negb (is_response_completed e) && completed_last rest
  end.

(** The digest pattern, then [GatewayRequestClaim.model_post_init]. *)
Definition validate_claim (m : Claim) : result Claim :=
  _ ← ensure (sha256_hex_ok (cm_request_hash m)) (ValidationError "request_hash");
  _ ← (match cm_status m with
       | COMPLETED =>
           _ ← ensure (negb (bool_decide (length (cm_events m) = 0)) && is_none (cm_error m))
                 (ValueError "completed claim requires events and no error");
           ensure (completed_last (cm_events m))
             (ValueError "completed claim requires exactly one final event")
       | _ => ensure (bool_decide (length (cm_events m) = 0))
                (ValueError "non-completed claim may not contain events")
       end);
  _ ← (match cm_status m with
       | FAILED => ensure (is_some (cm_error m)) (ValueError "failed claim requires an error")
       | _ => ensure (is_none (cm_error m))
                (ValueError "only a failed claim may contain an error")
       end);
  Ok m.

Record Stored := mkStored {
  sr_request_hash : pystr;
  sr_status : Status;
  sr_events : list GatewayEvent;
  sr_error : option ErrorValue;
}.

Record Store := mkStore {
  max_requests : nat;
  stored : gmap (uuid * pystr) Stored;
}.

Definition set_stored (s : Store) m : Store := mkStore (max_requests s) m.

Definition claim (s : Store) (tenant_id : uuid) (request_id request_hash : pystr)
    : result Claim * Store :=
  let key := (tenant_id, request_id) in
  match stored s !! key with
  | None =>
      if (max_requests s <=? size (stored s))%nat
      then (Err (RuntimeError "in-memory gateway request store reached capacity"), s)
      else (validate_claim (mkClaim EXECUTE request_hash [] None),
            set_stored s (<[key := mkStored request_hash IN_PROGRESS [] None]> (stored s)))
  | Some r =>
      if bool_decide (sr_request_hash r = request_hash)
      then (validate_claim (mkClaim (sr_status r) (sr_request_hash r) (sr_events r) (sr_error r)), s)
      else (validate_claim (mkClaim CONFLICT (sr_request_hash r) [] None), s)
  end.

Definition not_owned : error :=
  ValueError "gateway request claim is missing or belongs to another payload".

Definition _require_owned (s : Store) (tenant_id : uuid) (request_id request_hash : pystr)
    : result Stored :=
  r ← require (stored s !! (tenant_id, request_id)) not_owned;
  _ ← ensure (bool_decide (sr_request_hash r = request_hash)) not_owned;
  Ok r.

Definition complete (s : Store) (tenant_id : uuid) (request_id request_hash : pystr)
    (events : list GatewayEvent) : result unit * Store :=
  match (_ ← validate_claim (mkClaim COMPLETED request_hash events None);
         r ← _require_owned s tenant_id request_id request_hash;
         _ ← ensure (bool_decide (sr_status r = IN_PROGRESS))
               (ValueError "gateway request is not in progress");
         Ok r) with
  | Err e => (Err e, s)
  | Ok r => (Ok tt, set_stored s (<[(tenant_id, request_id) :=
              mkStored (sr_request_hash r) COMPLETED events (sr_error r)]> (stored s)))
  end.

Definition fail (s : Store) (tenant_id : uuid) (request_id request_hash : pystr)
    (error_ : ErrorValue) : result unit * Store :=
  match _require_owned s tenant_id request_id request_hash with
  | Err e => (Err e, s)
  | Ok r =>
      if bool_decide (sr_status r = IN_PROGRESS)
      then (Ok tt, set_stored s (<[(tenant_id, request_id) :=
              mkStored (sr_request_hash r) FAILED (sr_events r) (Some error_)]> (stored s)))
      else (Ok tt, s)
  end.

Definition release (s : Store) (tenant_id : uuid) (request_id request_hash : pystr)
    : result unit * Store :=
  let key := (tenant_id, request_id) in
  match stored s !! key with
  | Some r =>
      if bool_decide (sr_request_hash r = request_hash) && bool_decide (sr_status r = IN_PROGRESS)
      then (Ok tt, set_stored s (delete key (stored s)))
      else (Err not_owned, s)
  | None => (Err not_owned, s)
  end.

(** The protocol [GatewayRequestStore] of [agent_core/gateway_reliability.py] *)
Record Operations (S : Type) := mkOperations {
  op_claim : S → uuid → pystr → pystr → result Claim * S;
  op_complete : S → uuid → pystr → pystr → list GatewayEvent → result unit * S;
  op_fail : S → uuid → pystr → pystr → ErrorValue → result unit * S;
  op_release : S → uuid → pystr → pystr → result unit * S;
}.
Definition in_memory : Operations Store := mkOperations _ claim complete fail release.
End RequestStore.
Arguments op_claim {_ _ _} _ _ _ _ _.
Arguments op_complete {_ _ _} _ _ _ _ _ _.
Arguments op_fail {_ _ _} _ _ _ _ _ _.
Arguments op_release {_ _ _} _ _ _ _ _.
End RequestStore.

(** ** Rate limiter *)

Module RateLimiter.

(** Monotonic clock readings in microseconds. *)
Record Limiter := mkLimiter {
  limit : nat;
  window : timedelta;
  max_keys : nat;
  windows : gmap (uuid * pystr) (list Z);
}.

Definition limiter_ok (l : Limiter) : bool :=
  (1 <=? limit l)%nat && (Z.of_nat (limit l) <=? 1000000)%Z
  && (0 <? window l)%Z && (window l <=? MAX_POLICY)%Z
  && (1 <=? max_keys l)%nat && (Z.of_nat (max_keys l) <=? 100000)%Z.

(** [while timestamps and timestamps[0] <= boundary: popleft()] *)
Fixpoint drop_until (boundary : Z) (timestamps : list Z) : list Z :=
  match timestamps with
  | t :: rest => if (t <=? boundary)%Z then drop_until boundary rest else timestamps
  | [] => []
  end.

(** [None] is a grant, [Some r] the seconds to wait. *)
Definition acquire (now : Z) (l : Limiter) (tenant_id : uuid) (route_name : pystr)
    : result (option timedelta) * Limiter :=
  let boundary := (now - window l)%Z in
  let key := (tenant_id, route_name) in
  if is_none (windows l !! key) && (max_keys l <=? size (windows l))%nat
  then (Err (RuntimeError "in-memory gateway rate limiter reached capacity"), l)
  else
    let timestamps := drop_until boundary (default [] (windows l !! key)) in
    let keep ts := mkLimiter (limit l) (window l) (max_keys l) (<[key := ts]> (windows l)) in
    if (limit l <=? length timestamps)%nat then
      match timestamps with
      | t :: _ => (Ok (Some (Z.max 0 (t + window l - now))%Z), keep timestamps)
      | [] => (Err (KeyError "deque index out of range"), keep timestamps)
      end
    else (Ok None, keep (timestamps ++ [now])).

End RateLimiter.

(** ** Circuit breaker *)

Module CircuitBreaker.

Record CircuitState := mkCircuit {
  failures : Z;
  opened_at : option Z;
  probe_in_flight : bool;
  probe_started_at : option Z;
}.

Definition closed : CircuitState := mkCircuit 0 None false None.

Record Breaker := mkBreaker {
  threshold : Z;
  recovery : timedelta;
  max_routes : nat;
  states : gmap pystr CircuitState;
}.

Definition breaker_ok (b : Breaker) : bool :=
  (1 <=? threshold b)%Z && (threshold b <=? 100)%Z && (0 <? recovery b)%Z
  && (recovery b <=? MAX_POLICY)%Z && (1 <=? max_routes b)%nat
  && (Z.of_nat (max_routes b) <=? 1000)%Z.

Definition set_state (b : Breaker) (route : pystr) (c : CircuitState) : Breaker :=
  mkBreaker (threshold b) (recovery b) (max_routes b) (<[route := c]> (states b)).

Definition capacity_error : error :=
  RuntimeError "in-memory gateway circuit breaker reached capacity".

Definition at_capacity (b : Breaker) (route : pystr) : bool :=
  is_none (states b !! route) && (max_routes b <=? size (states b))%nat.

Definition route_state (b : Breaker) (route : pystr) : CircuitState :=
  default closed (states b !! route).

Definition allow (now : Z) (b : Breaker) (route : pystr) : result bool * Breaker :=
  if at_capacity b route then (Err capacity_error, b)
  else
    let c := route_state b route in
    match opened_at c with
    | None => (Ok true, set_state b route c)
    | Some o =>
        if (now - o <? recovery b)%Z then (Ok false, set_state b route c)
        else if probe_in_flight c
                && (match probe_started_at c with
                    | Some p => (now - p <? recovery b)%Z
                    | None => false
                    end)
        then (Ok false, set_state b route c)
        else (Ok true, set_state b route (mkCircuit (failures c) (opened_at c) true (Some now)))
    end.

Definition record_success (b : Breaker) (route : pystr) : result unit * Breaker :=
  if at_capacity b route then (Err capacity_error, b)
  else (Ok tt, set_state b route closed).

Definition record_failure (now : Z) (b : Breaker) (route : pystr) : result unit * Breaker :=
  if at_capacity b route then (Err capacity_error, b)
  else
    let c := route_state b route in
    let n := (failures c + 1)%Z in
    (Ok tt, set_state b route
       (mkCircuit n (if (threshold b <=? n)%Z then Some now else opened_at c) false None)).

End CircuitBreaker.
