(* ===== verification/GatewayStores.v ===== *)
(** * Durable gateway policies

    The PostgreSQL twins of the gateway policies: tenant quotas and capacity leases
    ([persistence/capacity.py]), the request store ([gateway_store.py]), the rate
    limiter and the circuit breaker ([gateway_policies.py]).

    Each operation is one transaction: an exception leaves the tables as they were.
    Rows of [gateway_requests] are the stored requests of [RequestStore]; their
    timestamps are written by the database and read by nobody.  Seconds are exact
    microsecond counts. *)

From stdpp Require Import base list sets gmap strings.
From Stdlib Require Import ZArith Lia.
From S2P Require Import Prelude PyBase Domain Tables Contracts RunQueue RunRepository GatewayPolicies.

(** [CapacityRouteName] and [PolicyRouteName]: ^[a-z][a-z0-9-]*$ of at most 100 characters *)
Definition route_name_ok (s : pystr) : bool :=
  (length s <=? 100)%nat &&
  match s with
  | c :: rest => in_range 97 122 c && forallb (λ c, in_range 97 122 c || in_range 48 57 c || (c =? 45)%N) rest
  | [] => false
  end.

(** ** Tenant quotas *)

Module TenantQuotas.

(** [_quota_domain] *)
Definition _quota_domain (row : TenantQuotaRecord) : result TenantQuota :=
  let q := mkTenantQuota (tq_max_active_runs row) (tq_max_queued_runs row) (tq_max_gateway_requests row)
             (tq_memory_enabled row) in
  _ ← ensure (tenant_quota_ok q) (ValidationError "quota");
  Ok q.

Definition _aware_time (value : datetime) : result timestamp :=
  match normalize_timestamp value with
  | Ok t => Ok t
  | Err _ => Err (ValueError "capacity clock must return an aware datetime")
  end.

Definition get (default_ : TenantQuota) (clock : datetime) (d : Db) (tenant_id : uuid) : result (TenantQuota * Db) :=
  now ← _aware_time clock;
  commit (let '(d1, row) := ensure_tenant_quota d tenant_id default_ now in
          q ← _quota_domain row;
          Ok (q, d1)).

(** [quota] is a validated [TenantQuota]. *)
Definition set (default_ : TenantQuota) (d : Db) (tenant_id : uuid) (quota : TenantQuota) (occurred_at : datetime)
    : result (TenantQuota * Db) :=
  timestamp ← _aware_time occurred_at;
  commit (let '(d1, row) := ensure_tenant_quota d tenant_id default_ timestamp in
          _ ← ensure (tq_updated_at row <=? timestamp)%Z (ValueError "quota update may not move time backward");
          let row' := mkTenantQuotaRecord (quota_max_active_runs quota) (quota_max_queued_runs quota)
                        (quota_max_gateway_requests quota) (quota_memory_enabled quota) (tq_created_at row) timestamp in
          q ← _quota_domain row';
          Ok (q, set_tenant_quotas d1 (<[tenant_id := row']> (tenant_quotas d1)))).
End TenantQuotas.

(** ** Capacity leases *)

Module DurableCapacity.
Import CapacityStore TenantQuotas.

Record GatewayProviderCapacityRecord := mkRoute {
  pr_request_limit : Z;
  pr_token_limit : Z;
  pr_token_window : timedelta;
  pr_token_window_started_at : timestamp;
  pr_accounted_tokens : Z;
  pr_updated_at : timestamp;
}.

Record GatewayCapacityLeaseRecord := mkLeaseRow {
  gl_id : uuid;
  gl_tenant_id : uuid;
  gl_route_name : pystr;
  gl_request_id : pystr;
  gl_reserved_tokens : Z;
  gl_token_window_started_at : timestamp;
  gl_acquired_at : timestamp;
  gl_expires_at : timestamp;
}.

Record Tables := mkTables {
  db : Db;
  routes : gmap pystr GatewayProviderCapacityRecord;
  capacity_leases : gmap uuid GatewayCapacityLeaseRecord;
}.

Record Settings := mkSettings {
  default_quota : TenantQuota;
  provider_request_limit : Z;
  provider_token_limit : Z;
  token_window : timedelta;
}.

(** The checks of the constructor *)
Definition settings_ok (c : Settings) : bool :=
  tenant_quota_ok (default_quota c)
  && (1 <=? provider_request_limit c)%Z && (provider_request_limit c <=? 10000)%Z
  && (1 <=? provider_token_limit c)%Z && (provider_token_limit c <=? MAX_PROVIDER_TOKENS_PER_WINDOW)%Z
  && (0 <? token_window c)%Z && (token_window c <=? MAX_POLICY)%Z.

(** NUMERIC(10, 3) seconds: rounded to whole milliseconds when stored *)
Definition numeric3 (w : timedelta) : timedelta := ((w + 500) / 1000 * 1000)%Z.

Definition route_checks (r : GatewayProviderCapacityRecord) : bool :=
  (1 <=? pr_request_limit r)%Z && (pr_request_limit r <=? 10000)%Z
  && (1 <=? pr_token_limit r)%Z && (pr_token_limit r <=? 1000000000)%Z
  && (0 <? pr_token_window r)%Z && (pr_token_window r <=? seconds 3600)%Z
  && (0 <=? pr_accounted_tokens r)%Z && (pr_token_window_started_at r <=? pr_updated_at r)%Z.
Definition lease_checks (l : GatewayCapacityLeaseRecord) : bool :=
  (1 <=? gl_reserved_tokens l)%Z && (gl_acquired_at l <? gl_expires_at l)%Z.

(** The changed rows at commit *)
Definition stored_route (r : GatewayProviderCapacityRecord) : GatewayProviderCapacityRecord :=
  mkRoute (pr_request_limit r) (pr_token_limit r) (numeric3 (pr_token_window r)) (pr_token_window_started_at r)
    (pr_accounted_tokens r) (pr_updated_at r).
Definition save_route (t : Tables) (name : pystr) (r : GatewayProviderCapacityRecord) : result Tables :=
  let r := stored_route r in
  _ ← ensure (route_checks r) (IntegrityError "gateway_provider_capacity");
  Ok (mkTables (db t) (<[name := r]> (routes t)) (capacity_leases t)).
Definition save_lease (t : Tables) (l : GatewayCapacityLeaseRecord) : result Tables :=
  _ ← ensure (lease_checks l) (IntegrityError "gateway_capacity_leases");
  Ok (mkTables (db t) (routes t) (<[gl_id l := l]> (capacity_leases t))).

Definition _validated_route (value : pystr) : result pystr :=
  _ ← ensure (route_name_ok value) (ValueError "route_name is invalid"); Ok value.
Definition _validated_request_id (value : pystr) : result pystr :=
  _ ← ensure (idempotency_key_ok value) (ValueError "request_id is invalid"); Ok value.

Definition _lease_domain (row : GatewayCapacityLeaseRecord) : result GatewayCapacityLease :=
  validate_lease (mkLease (gl_id row) (gl_tenant_id row) (gl_route_name row) (gl_request_id row)
    (gl_reserved_tokens row) (gl_acquired_at row) (gl_expires_at row)).

Definition clock_backward : error := ValueError "capacity clock may not move backward".

Definition _route_capacity (c : Settings) (t : Tables) (route_name : pystr) (now : timestamp)
    : result GatewayProviderCapacityRecord :=
  let row := default (mkRoute (provider_request_limit c) (provider_token_limit c) (numeric3 (token_window c)) now 0 now)
               (routes t !! route_name) in
  _ ← ensure (negb ((now <? pr_token_window_started_at row)%Z || (now <? pr_updated_at row)%Z)) clock_backward;
  Ok (if negb (pr_request_limit row =? provider_request_limit c)%Z
         || negb (pr_token_limit row =? provider_token_limit c)%Z || negb (pr_token_window row =? token_window c)%Z
      then mkRoute (provider_request_limit c) (provider_token_limit c) (token_window c)
             (pr_token_window_started_at row) (pr_accounted_tokens row) now
      else row).

Definition _reset_token_window (route : GatewayProviderCapacityRecord) (now : timestamp)
    : result GatewayProviderCapacityRecord :=
  _ ← ensure (negb ((now <? pr_token_window_started_at route)%Z || (now <? pr_updated_at route)%Z)) clock_backward;
  Ok (if (pr_token_window route <=? now - pr_token_window_started_at route)%Z
      then mkRoute (pr_request_limit route) (pr_token_limit route) (pr_token_window route) now 0 now
      else route).

(** [_database_retry_after] *)
Definition _database_retry_after (rows : list GatewayCapacityLeaseRecord) (now : timestamp) : result timedelta :=
  match rows with
  | [] => Err (TypeError "capacity rejection has no expiring lease")
  | r :: rows => Ok (Z.max 1000 (foldr (λ r acc, Z.min (gl_expires_at r) acc) (gl_expires_at r) rows - now))%Z
  end.

Definition of_tenant (tenant_id : uuid) (l : GatewayCapacityLeaseRecord) : bool := bool_decide (gl_tenant_id l = tenant_id).
Definition of_route (route_name : pystr) (l : GatewayCapacityLeaseRecord) : bool := bool_decide (gl_route_name l = route_name).

Definition acquire (c : Settings) (clock : datetime) (lease_id : uuid) (t : Tables) (tenant_id : uuid)
    (route_name request_id : pystr) (reserved_tokens : Z) (lease_duration : timedelta)
    : result (GatewayCapacityClaim * Tables) :=
  route_name ← _validated_route route_name;
  request_id ← _validated_request_id request_id;
  reserved_tokens ← _bounded_integer reserved_tokens MAX_PROVIDER_TOKENS_PER_WINDOW;
  lease_duration ← _bounded_seconds lease_duration;
  now ← _aware_time clock;
  let '(d, quota) := ensure_tenant_quota (db t) tenant_id (default_quota c) now in
  route ← _route_capacity c t route_name now;
  let leases := filter (λ kv, (gl_expires_at kv.2 <=? now)%Z = false) (capacity_leases t) in
  let t := mkTables d (routes t) leases in
  match scalar_where (λ l, of_tenant tenant_id l && bool_decide (gl_request_id l = request_id)) leases with
  | Some existing =>
      _ ← ensure (of_route route_name existing && (gl_reserved_tokens existing =? reserved_tokens)%Z)
            (ValueError "gateway capacity request identity is already in use");
      lease ← _lease_domain existing;
      t' ← save_route t route_name route;
      Ok (Granted lease, t')
  | None =>
      if (tq_max_gateway_requests quota <=? Z.of_nat (count_where (of_tenant tenant_id) leases))%Z then
        retry ← _database_retry_after (select_where (of_tenant tenant_id) leases) now;
        claim ← rejection TENANT_GATEWAY_REQUESTS retry;
        t' ← save_route t route_name route;
        Ok (claim, t')
      else if (pr_request_limit route <=? Z.of_nat (count_where (of_route route_name) leases))%Z then
        retry ← _database_retry_after (select_where (of_route route_name) leases) now;
        claim ← rejection PROVIDER_REQUESTS retry;
        t' ← save_route t route_name route;
        Ok (claim, t')
      else
        route ← _reset_token_window route now;
        if (pr_token_limit route <? pr_accounted_tokens route + reserved_tokens)%Z then
          claim ← rejection PROVIDER_TOKENS (Z.max 1000 (pr_token_window route - (now - pr_token_window_started_at route))%Z);
          t' ← save_route t route_name route;
          Ok (claim, t')
        else
          _ ← ensure (is_none (leases !! lease_id)) (IntegrityError "gateway_capacity_leases");
          let row := mkLeaseRow lease_id tenant_id route_name request_id reserved_tokens
                       (pr_token_window_started_at route) now (now + lease_duration) in
          t1 ← save_route t route_name (mkRoute (pr_request_limit route) (pr_token_limit route) (pr_token_window route)
                 (pr_token_window_started_at route) (pr_accounted_tokens route + reserved_tokens) now);
          t2 ← save_lease t1 row;
          lease ← _lease_domain row;
          Ok (Granted lease, t2)
  end.

Definition release (clock : datetime) (t : Tables) (lease : GatewayCapacityLease) (consumed_tokens : Z)
    : result (unit * Tables) :=
  _ ← ensure ((0 <=? consumed_tokens)%Z && (consumed_tokens <=? MAX_PROVIDER_TOKENS_PER_WINDOW)%Z)
        (ValueError "consumed_tokens must be in [0, 1000000000]");
  now ← _aware_time clock;
  match capacity_leases t !! cl_id lease with
  | None => Ok (tt, t)
  | Some row =>
      owned ← _lease_domain row;
      _ ← ensure (bool_decide (owned = lease)) (ValueError "gateway capacity lease does not match durable ownership");
      route ← require (routes t !! cl_route_name lease) (RuntimeError "gateway provider capacity row disappeared");
      route ← _reset_token_window route now;
      let accounted := if bool_decide (pr_token_window_started_at route = gl_token_window_started_at row)
                       then Z.max 0 (pr_accounted_tokens route - gl_reserved_tokens row + consumed_tokens)
                       else pr_accounted_tokens route in
      t1 ← save_route (mkTables (db t) (routes t) (delete (cl_id lease) (capacity_leases t))) (cl_route_name lease)
             (mkRoute (pr_request_limit route) (pr_token_limit route) (pr_token_window route)
                (pr_token_window_started_at route) accounted now);
      Ok (tt, t1)
  end.

Definition renew (clock : datetime) (t : Tables) (lease : GatewayCapacityLease) (lease_duration : timedelta)
    : result (GatewayCapacityLease * Tables) :=
  lease_duration ← _bounded_seconds lease_duration;
  now ← _aware_time clock;
  row ← require (capacity_leases t !! cl_id lease) capacity_lease_lost;
  owned ← _lease_domain row;
  _ ← ensure (bool_decide (owned = lease) && negb (gl_expires_at row <=? now)%Z) capacity_lease_lost;
  let row := mkLeaseRow (gl_id row) (gl_tenant_id row) (gl_route_name row) (gl_request_id row) (gl_reserved_tokens row)
               (gl_token_window_started_at row) (gl_acquired_at row) (now + lease_duration) in
  t1 ← save_lease t row;
  renewed ← _lease_domain row;
  Ok (renewed, t1).
End DurableCapacity.

(** ** Requests *)

Module DurableRequests.
Import RequestStore.
Section DurableRequests.
Context {GatewayEvent ErrorValue : Type} (is_response_completed : GatewayEvent → bool).
Abbreviation Rows := (gmap (uuid * pystr) (@Stored GatewayEvent ErrorValue)).

(** [_request_identity] *)
Definition _request_identity (request_id request_hash : pystr) : result (pystr * pystr) :=
  _ ← ensure (idempotency_key_ok request_id && sha256_hex_ok request_hash)
        (ValueError "gateway request identity is invalid");
  Ok (request_id, request_hash).

(** [_claim_from_record] *)
Definition _claim_from_record (r : @Stored GatewayEvent ErrorValue) : result Claim :=
  validate_claim is_response_completed (mkClaim (sr_status r) (sr_request_hash r) (sr_events r) (sr_error r)).

Definition claim (rows : Rows) (tenant_id : uuid) (request_id request_hash : pystr) : result (Claim * Rows) :=
  '(request_id, request_hash) ← _request_identity request_id request_hash;
  match rows !! (tenant_id, request_id) with
  | None =>
      c ← validate_claim is_response_completed (mkClaim EXECUTE request_hash [] None);
      Ok (c, <[(tenant_id, request_id) := mkStored request_hash IN_PROGRESS [] None]> rows)
  | Some r =>
      if bool_decide (sr_request_hash r = request_hash)
      then c ← _claim_from_record r; Ok (c, rows)
      else c ← validate_claim is_response_completed (mkClaim CONFLICT (sr_request_hash r) [] None); Ok (c, rows)
  end.

(** The row an UPDATE or DELETE of the claim holder matches *)
Definition claimed_row (rows : Rows) (tenant_id : uuid) (request_id request_hash : pystr)
    : option (@Stored GatewayEvent ErrorValue) :=
  match rows !! (tenant_id, request_id) with
  | Some r => if bool_decide (sr_request_hash r = request_hash) && is_in_progress (sr_status r) then Some r else None
  | None => None
  end.

Definition complete (rows : Rows) (tenant_id : uuid) (request_id request_hash : pystr) (events : list GatewayEvent)
    : result (unit * Rows) :=
  '(request_id, request_hash) ← _request_identity request_id request_hash;
  _ ← validate_claim is_response_completed (mkClaim (ErrorValue := ErrorValue) COMPLETED request_hash events None);
  _ ← require (claimed_row rows tenant_id request_id request_hash) (RuntimeError "gateway request completion lost its claim");
  Ok (tt, <[(tenant_id, request_id) := mkStored request_hash COMPLETED events None]> rows).

Definition fail (rows : Rows) (tenant_id : uuid) (request_id request_hash : pystr) (error_ : ErrorValue)
    : result (unit * Rows) :=
  '(request_id, request_hash) ← _request_identity request_id request_hash;
  r ← require (claimed_row rows tenant_id request_id request_hash) (RuntimeError "gateway request failure lost its claim");
  Ok (tt, <[(tenant_id, request_id) := mkStored request_hash FAILED (sr_events r) (Some error_)]> rows).

Definition release (rows : Rows) (tenant_id : uuid) (request_id request_hash : pystr) : result (unit * Rows) :=
  '(request_id, request_hash) ← _request_identity request_id request_hash;
  _ ← require (claimed_row rows tenant_id request_id request_hash) (RuntimeError "gateway request release lost its claim");
  Ok (tt, delete (tenant_id, request_id) rows).

(** A transaction as an operation of the protocol: an exception rolls it back. *)
Definition transact {A : Type} (rows : Rows) (r : result (A * Rows)) : result A * Rows :=
  match r with Ok (a, rows') => (Ok a, rows') | Err e => (Err e, rows) end.
Definition durable : Operations Rows := mkOperations _
  (λ rows t req h, transact rows (claim rows t req h))
  (λ rows t req h events, transact rows (complete rows t req h events))
  (λ rows t req h e, transact rows (fail rows t req h e))
  (λ rows t req h, transact rows (release rows t req h)).
End DurableRequests.
End DurableRequests.

(** ** Rate limits *)

Definition _aware_utc (value : datetime) : result timestamp :=
  match normalize_timestamp value with
  | Ok t => Ok t
  | Err _ => Err (ValueError "gateway policy clock must return an aware timestamp")
  end.
Definition _route_name (value : pystr) : result pystr :=
  _ ← ensure (route_name_ok value) (ValueError "gateway route name is invalid"); Ok value.

Module DurableRates.

Record GatewayRateLimitRecord := mkRate {
  rt_window_started_at : timestamp;
  rt_request_count : Z;
}.
Record Limiter := mkLimiter {
  limit : Z;
  window : timedelta;
}.
Definition limiter_ok (l : Limiter) : bool :=
  (1 <=? limit l)%Z && (limit l <=? 1000000)%Z && (0 <? window l)%Z && (window l <=? MAX_POLICY)%Z.

Abbreviation Rows := (gmap (uuid * pystr) GatewayRateLimitRecord).

(** [None] is a grant, [Some r] the time to wait. *)
Definition acquire (l : Limiter) (clock : datetime) (rows : Rows) (tenant_id : uuid) (route_name : pystr)
    : result (option timedelta * Rows) :=
  route_name ← _route_name route_name;
  now ← _aware_utc clock;
  let key := (tenant_id, route_name) in
  let row := default (mkRate now 0) (rows !! key) in
  let elapsed := (now - rt_window_started_at row)%Z in
  if (window l <=? elapsed)%Z then Ok (None, <[key := mkRate now 1]> rows)
  else if (limit l <=? rt_request_count row)%Z then Ok (Some (Z.max 0 (window l - elapsed))%Z, <[key := row]> rows)
  else Ok (None, <[key := mkRate (rt_window_started_at row) (rt_request_count row + 1)]> rows).
End DurableRates.

(** ** Circuits *)

Module DurableCircuits.

Record GatewayCircuitRecord := mkCircuitRow {
  gc_failure_count : Z;
  gc_opened_at : option timestamp;
  gc_probe_started_at : option timestamp;
  gc_probe_in_flight : bool;
  gc_updated_at : timestamp;
}.
Record Settings := mkSettings {
  failure_threshold : Z;
  recovery : timedelta;
}.
Definition settings_ok (c : Settings) : bool :=
  (1 <=? failure_threshold c)%Z && (failure_threshold c <=? 100)%Z && (0 <? recovery c)%Z && (recovery c <=? MAX_POLICY)%Z.

Abbreviation Rows := (gmap pystr GatewayCircuitRecord).

Definition circuit_checks (r : GatewayCircuitRecord) : bool :=
  (0 <=? gc_failure_count r)%Z && Bool.eqb (gc_probe_in_flight r) (is_some (gc_probe_started_at r)).

(** [_locked_row] *)
Definition _locked_row (rows : Rows) (route_name : pystr) (now : timestamp) : GatewayCircuitRecord :=
  default (mkCircuitRow 0 None None false now) (rows !! route_name).

Definition save {A : Type} (rows : Rows) (route_name : pystr) (r : GatewayCircuitRecord) (value : A) : result (A * Rows) :=
  _ ← ensure (circuit_checks r) (IntegrityError "gateway_circuits");
  Ok (value, <[route_name := r]> rows).

Definition allow (c : Settings) (clock : datetime) (rows : Rows) (route_name : pystr) : result (bool * Rows) :=
  route_name ← _route_name route_name;
  now ← _aware_utc clock;
  let row := _locked_row rows route_name now in
  match gc_opened_at row with
  | None => save rows route_name row true
  | Some opened_at =>
      if (now - opened_at <? recovery c)%Z then save rows route_name row false
      else if gc_probe_in_flight row
              && (match gc_probe_started_at row with
                  | Some started => (now - started <? recovery c)%Z
                  | None => false
                  end)
      then save rows route_name row false
      else save rows route_name (mkCircuitRow (gc_failure_count row) (Some opened_at) (Some now) true now) true
  end.

Definition record_success (clock : datetime) (rows : Rows) (route_name : pystr) : result (unit * Rows) :=
  route_name ← _route_name route_name;
  now ← _aware_utc clock;
  save rows route_name (mkCircuitRow 0 None None false now) tt.

Definition record_failure (c : Settings) (clock : datetime) (rows : Rows) (route_name : pystr) : result (unit * Rows) :=
  route_name ← _route_name route_name;
  now ← _aware_utc clock;
  let row := _locked_row rows route_name now in
  let failures := (gc_failure_count row + 1)%Z in
  save rows route_name (mkCircuitRow failures
    (if (failure_threshold c <=? failures)%Z then Some now else gc_opened_at row) None false now) tt.
End DurableCircuits.
