(* ===== verification/LifecycleTables.v ===== *)
(** * Tables of the data lifecycle

    The rows of [platform_persistence/models.py] that retention, legal holds, audit
    exports and tenant deletion read and write, next to the control plane of
    [Tables]: workspaces, artifacts, source snapshots and their validation jobs, the
    audit log and its exports, tenant lifecycles, legal holds and the deletion
    outbox; and the constraints PostgreSQL checks after every statement.

    Of [model_calls] only the identifying columns are kept: nothing here reads the
    others.  Errors are stored as JSON. *)

From stdpp Require Import base list gmap strings.
From Stdlib Require Import ZArith Lia.
From S2P Require Import Prelude PyBase Domain Tables Contracts Execution EventStore GatewayPolicies GatewayStores.

(** ** Object metadata *)

(** [CHECK (object_key ~ '^[a-z0-9][a-z0-9._/-]*$')], VARCHAR(1024) *)
Definition lower_alnum (c : N) : bool := in_range 97 122 c || in_range 48 57 c.
Definition object_key_check (s : pystr) : bool :=
  (length s <=? 1024)%nat &&
  match s with
  | c :: rest => lower_alnum c && forallb (λ c, lower_alnum c || (c =? 46)%N || (c =? 95)%N || (c =? 47)%N || (c =? 45)%N) rest
  | [] => false
  end.
Definition octets_between (lo hi : N) (s : pystr) : bool := (lo <=? utf8_len s)%N && (utf8_len s <=? hi)%N.
Definition etag_check (e : option pystr) : bool :=
  match e with Some s => octets_between 1 1024 s | None => true end.

Inductive ArtifactKind := SOURCE_SNAPSHOT | WORKSPACE_CHECKPOINT | FINAL_PATCH | COMMAND_LOG | EVALUATION_REPORT.
#[export] Instance ArtifactKind_eq_dec : EqDecision ArtifactKind.
Proof. solve_decision. Defined.

(** ** Workspaces and artifacts *)

Inductive WorkspaceStatus := WS_PENDING | WS_READY | WS_ARCHIVED.
#[export] Instance WorkspaceStatus_eq_dec : EqDecision WorkspaceStatus.
Proof. solve_decision. Defined.

Record WorkspaceRecord := mkWorkspaceRecord {
  ws_id : uuid;
  ws_tenant_id : uuid;
  ws_status : WorkspaceStatus;
  ws_display_name : pystr;
  ws_current_snapshot_id : option uuid;
  ws_version : Z;
  ws_created_at : timestamp;
  ws_updated_at : timestamp;
}.

Definition workspace_checks (w : WorkspaceRecord) : bool :=
  (match ws_status w with
   | WS_PENDING => is_none (ws_current_snapshot_id w) && (ws_version w =? 0)%Z
   | WS_READY => is_some (ws_current_snapshot_id w) && (1 <=? ws_version w)%Z
   | WS_ARCHIVED => true
   end)
  && octets_between 1 1024 (ws_display_name w) && (length (ws_display_name w) <=? 255)%nat
  && (ws_created_at w <=? ws_updated_at w)%Z.

Record ArtifactRecord := mkArtifactRecord {
  ar_id : uuid;
  ar_tenant_id : uuid;
  ar_workspace_id : uuid;
  ar_run_id : option uuid;
  ar_execution_epoch : Z;
  ar_kind : ArtifactKind;
  ar_object_key : pystr;
  ar_sha256 : pystr;
  ar_size_bytes : Z;
  ar_content_type : pystr;
  ar_etag : option pystr;
  ar_created_at : timestamp;
  ar_expires_at : option timestamp;
}.

Definition artifact_checks (a : ArtifactRecord) : bool :=
  object_key_check (ar_object_key a) && sha256_hex_ok (ar_sha256 a) && (0 <=? ar_size_bytes a)%Z
  && (1 <=? ar_execution_epoch a)%Z && octets_between 3 255 (ar_content_type a) && etag_check (ar_etag a)
  && (match ar_expires_at a with Some e => (ar_created_at a <? e)%Z | None => true end).

Inductive SourceSnapshotStatus := SN_PENDING | SN_VALIDATING | SN_READY | SN_REJECTED.
#[export] Instance SourceSnapshotStatus_eq_dec : EqDecision SourceSnapshotStatus.
Proof. solve_decision. Defined.

Record SourceSnapshotRecord := mkSourceSnapshotRecord {
  sn_id : uuid;
  sn_tenant_id : uuid;
  sn_workspace_id : uuid;
  sn_status : SourceSnapshotStatus;
  sn_object_key : pystr;
  sn_expected_sha256 : option pystr;
  sn_compressed_bytes : option Z;
  sn_artifact_id : option uuid;
  sn_manifest_sha256 : option pystr;
  sn_entry_count : option Z;
  sn_expanded_bytes : option Z;
  sn_error : option json;
  sn_created_at : timestamp;
  sn_updated_at : timestamp;
}.

Definition optional_sha256 (o : option pystr) : bool := match o with Some s => sha256_hex_ok s | None => true end.
Definition optional_nonneg (o : option Z) : bool := match o with Some z => (0 <=? z)%Z | None => true end.

Definition snapshot_checks (s : SourceSnapshotRecord) : bool :=
  object_key_check (sn_object_key s) && optional_sha256 (sn_expected_sha256 s) && optional_sha256 (sn_manifest_sha256 s)
  && optional_nonneg (sn_compressed_bytes s) && optional_nonneg (sn_entry_count s) && optional_nonneg (sn_expanded_bytes s)
  && optional_object (sn_error s)
  && eqb (bool_decide (sn_status s ≠ SN_PENDING)) (is_some (sn_expected_sha256 s))
  && eqb (bool_decide (sn_status s ≠ SN_PENDING)) (is_some (sn_compressed_bytes s))
  && eqb (bool_decide (sn_status s = SN_READY)) (is_some (sn_artifact_id s))
  && eqb (bool_decide (sn_status s = SN_READY)) (is_some (sn_manifest_sha256 s))
  && eqb (bool_decide (sn_status s = SN_READY)) (is_some (sn_entry_count s))
  && eqb (bool_decide (sn_status s = SN_READY)) (is_some (sn_expanded_bytes s))
  && eqb (bool_decide (sn_status s = SN_REJECTED)) (is_some (sn_error s))
  && (sn_created_at s <=? sn_updated_at s)%Z.

Inductive ValidationJobStatus := VJ_PENDING | VJ_RUNNING | VJ_COMPLETED | VJ_FAILED.
#[export] Instance ValidationJobStatus_eq_dec : EqDecision ValidationJobStatus.
Proof. solve_decision. Defined.

Record SnapshotValidationJobRecord := mkValidationJob {
  vj_id : uuid;
  vj_tenant_id : uuid;
  vj_workspace_id : uuid;
  vj_snapshot_id : uuid;
  vj_status : ValidationJobStatus;
  vj_expected_workspace_version : Z;
  vj_attempt : Z;
  vj_worker_id : option pystr;
  vj_lease_token : option uuid;
  vj_lease_generation : Z;
  vj_lease_expires_at : option timestamp;
  vj_created_at : timestamp;
  vj_started_at : option timestamp;
  vj_completed_at : option timestamp;
}.

Definition validation_job_checks (j : SnapshotValidationJobRecord) : bool :=
  (1 <=? vj_attempt j)%Z && (vj_attempt j <=? 100)%Z && (0 <=? vj_expected_workspace_version j)%Z
  && (0 <=? vj_lease_generation j)%Z
  && (match vj_status j, vj_worker_id j, vj_lease_token j, vj_lease_expires_at j, vj_started_at j, vj_completed_at j with
      | VJ_PENDING, None, None, None, _, None => true
      | VJ_RUNNING, Some _, Some _, Some e, Some s, None => (1 <=? vj_lease_generation j)%Z && (s <? e)%Z
      | (VJ_COMPLETED | VJ_FAILED), None, None, None, Some s, Some c => (s <=? c)%Z
      | _, _, _, _, _, _ => false
      end).

(** ** Audit log and exports *)

Inductive AuditMethod := POST | PUT | PATCH | DELETE.
#[export] Instance AuditMethod_eq_dec : EqDecision AuditMethod.
Proof. solve_decision. Defined.

Record AuditRecord := mkAuditRecord {
  au_id : uuid;
  au_tenant_id : uuid;
  au_subject : pystr;
  au_method : AuditMethod;
  au_resource : pystr;
  au_action : pystr;
  au_request_id : pystr;
  au_details : json;
  au_occurred_at : timestamp;
}.
#[export] Instance AuditRecord_eq_dec : EqDecision AuditRecord.
Proof. solve_decision. Defined.

Inductive AuditExportStatus := EXPORT_PENDING | EXPORT_COMPLETED | EXPORT_FAILED.
#[export] Instance AuditExportStatus_eq_dec : EqDecision AuditExportStatus.
Proof. solve_decision. Defined.

Record AuditExportRecord := mkAuditExportRecord {
  ex_id : uuid;
  ex_tenant_id : uuid;
  ex_status : AuditExportStatus;
  ex_requested_by : pystr;
  ex_cutoff_at : timestamp;
  ex_object_key : option pystr;
  ex_sha256 : option pystr;
  ex_size_bytes : option Z;
  ex_content_type : option pystr;
  ex_etag : option pystr;
  ex_record_count : option Z;
  ex_first_occurred_at : option timestamp;
  ex_last_occurred_at : option timestamp;
  ex_created_at : timestamp;
  ex_completed_at : option timestamp;
  ex_error : option json;
}.

Definition no_outcome (e : AuditExportRecord) : bool :=
  is_none (ex_object_key e) && is_none (ex_sha256 e) && is_none (ex_size_bytes e) && is_none (ex_content_type e)
  && is_none (ex_etag e) && is_none (ex_record_count e) && is_none (ex_first_occurred_at e)
  && is_none (ex_last_occurred_at e) && is_none (ex_completed_at e).

Definition audit_export_checks (e : AuditExportRecord) : bool :=
  (length (ex_requested_by e) <=? 255)%nat
  && (match ex_object_key e with Some k => object_key_check k | None => true end)
  && optional_sha256 (ex_sha256 e)
  && (match ex_size_bytes e with Some n => (1 <=? n)%Z && (n <=? 1073741824)%Z | None => true end)
  && (match ex_record_count e with Some n => (0 <=? n)%Z && (n <=? 10000000)%Z | None => true end)
  && optional_object (ex_error e)
  && (match ex_status e with
      | EXPORT_PENDING => no_outcome e && is_none (ex_error e)
      | EXPORT_COMPLETED =>
          is_some (ex_object_key e) && is_some (ex_sha256 e) && is_some (ex_size_bytes e)
          && is_some (ex_content_type e) && is_none (ex_error e)
          && (match ex_completed_at e with Some c => (ex_created_at e <=? c)%Z | None => false end)
          && (match ex_record_count e, ex_first_occurred_at e, ex_last_occurred_at e with
              | Some n, None, None => (n =? 0)%Z
              | Some n, Some f, Some l => (0 <? n)%Z && (f <=? l)%Z && (l <=? ex_cutoff_at e)%Z
              | _, _, _ => false
              end)
      | EXPORT_FAILED => no_outcome e && is_some (ex_error e)
      end).

(** ** Tenant lifecycle *)

Inductive TenantLifecycleStatus := TENANT_ACTIVE | DELETION_REQUESTED | DELETING | DELETED.
#[export] Instance TenantLifecycleStatus_eq_dec : EqDecision TenantLifecycleStatus.
Proof. solve_decision. Defined.

Record TenantLifecycleRecord := mkTenantLifecycle {
  tl_tenant_id : uuid;
  tl_status : TenantLifecycleStatus;
  tl_request_id : option uuid;
  tl_requested_by : option pystr;
  tl_requested_at : option timestamp;
  tl_delete_after : option timestamp;
  tl_audit_export_id : option uuid;
  tl_deletion_started_at : option timestamp;
  tl_deleted_at : option timestamp;
  tl_updated_at : timestamp;
}.
#[export] Instance TenantLifecycleRecord_eq_dec : EqDecision TenantLifecycleRecord.
Proof. solve_decision. Defined.

Definition lifecycle_checks (l : TenantLifecycleRecord) : bool :=
  (match tl_status l, tl_request_id l, tl_requested_by l, tl_requested_at l, tl_delete_after l, tl_audit_export_id l with
   | TENANT_ACTIVE, None, None, None, None, None => is_none (tl_deletion_started_at l) && is_none (tl_deleted_at l)
   | DELETION_REQUESTED, Some _, Some _, Some r, Some a, Some _ =>
       (r <=? a)%Z && is_none (tl_deletion_started_at l) && is_none (tl_deleted_at l)
   | DELETING, Some _, Some _, Some r, Some a, Some _ =>
       (r <=? a)%Z && is_none (tl_deleted_at l)
       && (match tl_deletion_started_at l with Some s => (a <=? s)%Z | None => false end)
   | DELETED, Some _, Some _, Some r, Some a, Some _ =>
       (r <=? a)%Z
       && (match tl_deletion_started_at l, tl_deleted_at l with
           | Some s, Some e => (a <=? s)%Z && (s <=? e)%Z
           | _, _ => false
           end)
   | _, _, _, _, _, _ => false
   end)
  && (match tl_requested_by l with Some s => octets_between 1 1024 s && (length s <=? 255)%nat | None => true end)
  && (match tl_requested_at l with Some r => (r <=? tl_updated_at l)%Z | None => true end).

Record LegalHoldRecord := mkLegalHold {
  lh_id : uuid;
  lh_tenant_id : uuid;
  lh_reason : pystr;
  lh_placed_by : pystr;
  lh_placed_at : timestamp;
  lh_expires_at : option timestamp;
  lh_released_by : option pystr;
  lh_released_at : option timestamp;
}.
#[export] Instance LegalHoldRecord_eq_dec : EqDecision LegalHoldRecord.
Proof. solve_decision. Defined.

Definition hold_checks (h : LegalHoldRecord) : bool :=
  octets_between 1 8000 (lh_reason h) && (length (lh_reason h) <=? 2000)%nat
  && octets_between 1 1024 (lh_placed_by h) && (length (lh_placed_by h) <=? 255)%nat
  && (match lh_expires_at h with Some e => (lh_placed_at h <? e)%Z | None => true end)
  && (match lh_released_by h, lh_released_at h with
      | None, None => true
      | Some s, Some r => (lh_placed_at h <=? r)%Z && (length s <=? 255)%nat
      | _, _ => false
      end).

(** ** The deletion outbox *)

Inductive ObjectDeletionReason := RETENTION_EXPIRED | TENANT_DELETION.
#[export] Instance ObjectDeletionReason_eq_dec : EqDecision ObjectDeletionReason.
Proof. solve_decision. Defined.

Inductive DeletionStatus := DEL_PENDING | DEL_RUNNING | DEL_COMPLETED | DEL_FAILED.
#[export] Instance DeletionStatus_eq_dec : EqDecision DeletionStatus.
Proof. solve_decision. Defined.

Record ObjectDeletionJobRecord := mkDeletionJob {
  dj_id : uuid;
  dj_tenant_id : uuid;
  dj_artifact_id : option uuid;
  dj_object_key : pystr;
  dj_reason : ObjectDeletionReason;
  dj_status : DeletionStatus;
  dj_worker_id : option pystr;
  dj_lease_token : option uuid;
  dj_outcome_lease_token : option uuid;
  dj_lease_generation : Z;
  dj_attempt : Z;
  dj_lease_expires_at : option timestamp;
  dj_error : option json;
  dj_created_at : timestamp;
  dj_updated_at : timestamp;
  dj_completed_at : option timestamp;
}.

Definition deletion_job_checks (j : ObjectDeletionJobRecord) : bool :=
  object_key_check (dj_object_key j) && (0 <=? dj_attempt j)%Z && (dj_attempt j <=? 100)%Z
  && (0 <=? dj_lease_generation j)%Z && optional_object (dj_error j)
  && (match dj_worker_id j with Some s => (length s <=? 255)%nat | None => true end)
  && (match dj_status j, dj_worker_id j, dj_lease_token j, dj_outcome_lease_token j, dj_lease_expires_at j, dj_completed_at j with
      | DEL_PENDING, None, None, None, None, None => true
      | DEL_RUNNING, Some _, Some _, None, Some e, None =>
          (1 <=? dj_lease_generation j)%Z && (1 <=? dj_attempt j)%Z && (dj_updated_at j <? e)%Z && is_none (dj_error j)
      | DEL_COMPLETED, None, None, Some _, None, Some c => (dj_created_at j <=? c)%Z && is_none (dj_error j)
      | DEL_FAILED, None, None, Some _, None, None => is_some (dj_error j)
      | _, _, _, _, _, _ => false
      end).

(** The identifying columns of [model_calls] *)
Record ModelCallRow := mkModelCallRow {
  mr_tenant_id : uuid;
  mr_run_id : uuid;
  mr_execution_epoch : Z;
  mr_model_call_id : pystr;
  mr_request_id : pystr;
}.

(** ** The database *)

(** The tables [agent_require_active_tenant_write] guards *)
Record TenantTables := mkTenantTables {
  control : Db;
  events : EventTables;
  model_calls : gmap uuid ModelCallRow;
  capacity_leases : gmap uuid DurableCapacity.GatewayCapacityLeaseRecord;
  rate_limits : gmap (uuid * pystr) DurableRates.GatewayRateLimitRecord;
  gateway_requests : gmap (uuid * pystr) (@RequestStore.Stored json json);
  workspaces : gmap uuid WorkspaceRecord;
  artifacts : gmap uuid ArtifactRecord;
  source_snapshots : gmap uuid SourceSnapshotRecord;
  validation_jobs : gmap uuid SnapshotValidationJobRecord;
}.

Record PlatformDb := mkPlatformDb {
  data : TenantTables;
  audit_log : gmap uuid AuditRecord;
  audit_exports : gmap uuid AuditExportRecord;
  tenant_lifecycles : gmap uuid TenantLifecycleRecord;
  legal_holds : gmap uuid LegalHoldRecord;
  deletion_jobs : gmap uuid ObjectDeletionJobRecord;
}.

Definition set_data (p : PlatformDb) t : PlatformDb :=
  mkPlatformDb t (audit_log p) (audit_exports p) (tenant_lifecycles p) (legal_holds p) (deletion_jobs p).
Definition set_audit_log (p : PlatformDb) t : PlatformDb :=
  mkPlatformDb (data p) t (audit_exports p) (tenant_lifecycles p) (legal_holds p) (deletion_jobs p).
Definition set_audit_exports (p : PlatformDb) t : PlatformDb :=
  mkPlatformDb (data p) (audit_log p) t (tenant_lifecycles p) (legal_holds p) (deletion_jobs p).
Definition set_tenant_lifecycles (p : PlatformDb) t : PlatformDb :=
  mkPlatformDb (data p) (audit_log p) (audit_exports p) t (legal_holds p) (deletion_jobs p).
Definition set_legal_holds (p : PlatformDb) t : PlatformDb :=
  mkPlatformDb (data p) (audit_log p) (audit_exports p) (tenant_lifecycles p) t (deletion_jobs p).
Definition set_deletion_jobs (p : PlatformDb) t : PlatformDb :=
  mkPlatformDb (data p) (audit_log p) (audit_exports p) (tenant_lifecycles p) (legal_holds p) t.

Definition set_workspaces (t : TenantTables) m : TenantTables :=
  mkTenantTables (control t) (events t) (model_calls t) (capacity_leases t) (rate_limits t) (gateway_requests t) m
    (artifacts t) (source_snapshots t) (validation_jobs t).
Definition set_artifacts (t : TenantTables) m : TenantTables :=
  mkTenantTables (control t) (events t) (model_calls t) (capacity_leases t) (rate_limits t) (gateway_requests t)
    (workspaces t) m (source_snapshots t) (validation_jobs t).
Definition set_control (t : TenantTables) d : TenantTables :=
  mkTenantTables d (events t) (model_calls t) (capacity_leases t) (rate_limits t) (gateway_requests t)
    (workspaces t) (artifacts t) (source_snapshots t) (validation_jobs t).

(** *** Foreign keys *)

Definition workspace_exists (t : TenantTables) (tenant workspace : uuid) : bool :=
  match workspaces t !! workspace with Some w => bool_decide (ws_tenant_id w = tenant) | None => false end.
Definition snapshot_exists (t : TenantTables) (tenant workspace snapshot : uuid) : bool :=
  match source_snapshots t !! snapshot with
  | Some s => bool_decide (sn_tenant_id s = tenant) && bool_decide (sn_workspace_id s = workspace)
  | None => false
  end.
Definition artifact_exists (t : TenantTables) (tenant artifact : uuid) : bool :=
  match artifacts t !! artifact with Some a => bool_decide (ar_tenant_id a = tenant) | None => false end.

Definition workspace_references (t : TenantTables) (w : WorkspaceRecord) : bool :=
  match ws_current_snapshot_id w with Some s => snapshot_exists t (ws_tenant_id w) (ws_id w) s | None => true end.
Definition artifact_references (t : TenantTables) (a : ArtifactRecord) : bool :=
  workspace_exists t (ar_tenant_id a) (ar_workspace_id a)
  && (match ar_run_id a with
      | Some r => match runs (control t) !! r with
                  | Some row => bool_decide (rr_tenant_id row = ar_tenant_id a) && bool_decide (rr_workspace_id row = ar_workspace_id a)
                  | None => false
                  end
      | None => true
      end).
Definition snapshot_references (t : TenantTables) (s : SourceSnapshotRecord) : bool :=
  workspace_exists t (sn_tenant_id s) (sn_workspace_id s)
  && (match sn_artifact_id s with
      | Some i => match artifacts t !! i with
                  | Some a => bool_decide (ar_tenant_id a = sn_tenant_id s) && bool_decide (ar_workspace_id a = sn_workspace_id s)
                  | None => false
                  end
      | None => true
      end).
Definition lifecycle_references (p : PlatformDb) (l : TenantLifecycleRecord) : bool :=
  match tl_audit_export_id l with
  | Some i => match audit_exports p !! i with Some e => bool_decide (ex_tenant_id e = tl_tenant_id l) | None => false end
  | None => true
  end.
Definition deletion_job_references (t : TenantTables) (j : ObjectDeletionJobRecord) : bool :=
  match dj_artifact_id j with Some a => artifact_exists t (dj_tenant_id j) a | None => true end.

(** UNIQUE over a nullable column: nulls are distinct. *)
Definition unique_by {V K : Type} (f : V → option K) (m : gmap uuid V) : Prop :=
  map_Forall (λ k1 v1, map_Forall (λ k2 v2, f v1 ≠ None → f v1 = f v2 → k1 = k2) m) m.
#[export] Instance unique_by_dec {V K : Type} `{EqDecision K} (f : V → option K) m : Decision (unique_by f m).
Proof. unfold unique_by. apply _. Defined.

(** *** Constraints *)

Record platform_ok (p : PlatformDb) : Prop := {
  pk_app : db_ok (control (data p));
  pk_events : map_Forall (λ k e, run_exists (control (data p)) (er_tenant_id e) (er_run_id e) = true ∧ k.1 = er_run_id e)
    (et_rows (events (data p)));
  pk_model_calls : map_Forall (λ _ c, run_exists (control (data p)) (mr_tenant_id c) (mr_run_id c) = true) (model_calls (data p));
  pk_capacity : map_Forall (λ _ l, is_some (tenant_quotas (control (data p)) !! DurableCapacity.gl_tenant_id l) = true)
    (capacity_leases (data p));
  pk_workspaces : map_Forall (λ k w, ws_id w = k ∧ workspace_checks w = true ∧ workspace_references (data p) w = true)
    (workspaces (data p));
  pk_artifacts : map_Forall (λ k a, ar_id a = k ∧ artifact_checks a = true ∧ artifact_references (data p) a = true)
    (artifacts (data p));
  pk_artifact_keys : unique_by (λ a, Some (ar_object_key a)) (artifacts (data p));
  pk_snapshots : map_Forall (λ k s, sn_id s = k ∧ snapshot_checks s = true ∧ snapshot_references (data p) s = true)
    (source_snapshots (data p));
  pk_snapshot_keys : unique_by (λ s, Some (sn_object_key s)) (source_snapshots (data p));
  pk_validation_jobs : map_Forall (λ k j, vj_id j = k ∧ validation_job_checks j = true ∧
    snapshot_exists (data p) (vj_tenant_id j) (vj_workspace_id j) (vj_snapshot_id j) = true) (validation_jobs (data p));
  pk_validation_snapshots : unique_by (λ j, Some (vj_tenant_id j, vj_snapshot_id j)) (validation_jobs (data p));
  pk_audit : map_Forall (λ k a, au_id a = k ∧ is_json_object (au_details a) = true) (audit_log p);
  pk_exports : map_Forall (λ k e, ex_id e = k ∧ audit_export_checks e = true) (audit_exports p);
  pk_export_keys : unique_by ex_object_key (audit_exports p);
  pk_lifecycles : map_Forall (λ k l, tl_tenant_id l = k ∧ lifecycle_checks l = true ∧ lifecycle_references p l = true)
    (tenant_lifecycles p);
  pk_lifecycle_requests : unique_by tl_request_id (tenant_lifecycles p);
  pk_holds : map_Forall (λ k h, lh_id h = k ∧ hold_checks h = true) (legal_holds p);
  pk_jobs : map_Forall (λ k j, dj_id j = k ∧ deletion_job_checks j = true ∧ deletion_job_references (data p) j = true)
    (deletion_jobs p);
  pk_job_keys : unique_by (λ j, Some (dj_object_key j)) (deletion_jobs p);
  pk_job_tokens : unique_by dj_lease_token (deletion_jobs p);
  pk_job_outcomes : unique_by dj_outcome_lease_token (deletion_jobs p);
}.

Definition platform_okb (p : PlatformDb) : bool :=
  bool_decide (db_ok (control (data p)))
  && bool_decide (map_Forall (λ k e, run_exists (control (data p)) (er_tenant_id e) (er_run_id e) = true ∧ k.1 = er_run_id e)
       (et_rows (events (data p))))
  && bool_decide (map_Forall (λ _ c, run_exists (control (data p)) (mr_tenant_id c) (mr_run_id c) = true) (model_calls (data p)))
  && bool_decide (map_Forall (λ _ l, is_some (tenant_quotas (control (data p)) !! DurableCapacity.gl_tenant_id l) = true)
       (capacity_leases (data p)))
  && bool_decide (map_Forall (λ k w, ws_id w = k ∧ workspace_checks w = true ∧ workspace_references (data p) w = true)
       (workspaces (data p)))
  && bool_decide (map_Forall (λ k a, ar_id a = k ∧ artifact_checks a = true ∧ artifact_references (data p) a = true)
       (artifacts (data p)))
  && bool_decide (unique_by (λ a, Some (ar_object_key a)) (artifacts (data p)))
  && bool_decide (map_Forall (λ k s, sn_id s = k ∧ snapshot_checks s = true ∧ snapshot_references (data p) s = true)
       (source_snapshots (data p)))
  && bool_decide (unique_by (λ s, Some (sn_object_key s)) (source_snapshots (data p)))
  && bool_decide (map_Forall (λ k j, vj_id j = k ∧ validation_job_checks j = true ∧
       snapshot_exists (data p) (vj_tenant_id j) (vj_workspace_id j) (vj_snapshot_id j) = true) (validation_jobs (data p)))
  && bool_decide (unique_by (λ j, Some (vj_tenant_id j, vj_snapshot_id j)) (validation_jobs (data p)))
  && bool_decide (map_Forall (λ k a, au_id a = k ∧ is_json_object (au_details a) = true) (audit_log p))
  && bool_decide (map_Forall (λ k e, ex_id e = k ∧ audit_export_checks e = true) (audit_exports p))
  && bool_decide (unique_by ex_object_key (audit_exports p))
  && bool_decide (map_Forall (λ k l, tl_tenant_id l = k ∧ lifecycle_checks l = true ∧ lifecycle_references p l = true)
       (tenant_lifecycles p))
  && bool_decide (unique_by tl_request_id (tenant_lifecycles p))
  && bool_decide (map_Forall (λ k h, lh_id h = k ∧ hold_checks h = true) (legal_holds p))
  && bool_decide (map_Forall (λ k j, dj_id j = k ∧ deletion_job_checks j = true ∧ deletion_job_references (data p) j = true)
       (deletion_jobs p))
  && bool_decide (unique_by (λ j, Some (dj_object_key j)) (deletion_jobs p))
  && bool_decide (unique_by dj_lease_token (deletion_jobs p))
  && bool_decide (unique_by dj_outcome_lease_token (deletion_jobs p)).

Lemma platform_okb_iff p : platform_okb p = true ↔ platform_ok p.
Proof.
  unfold platform_okb. rewrite !andb_true_iff, !bool_decide_eq_true.
  split; [|intros []; tauto]. intros H. destruct_and! H. by constructor.
Qed.

#[export] Instance platform_ok_dec p : Decision (platform_ok p).
Proof.
  destruct (platform_okb p) eqn:E; [left; by apply platform_okb_iff|right].
  intros Hp%platform_okb_iff. congruence.
Defined.

(** The end of a statement: constraints are not deferred. *)
Definition statement (p : PlatformDb) : result PlatformDb := if platform_okb p then Ok p else Err integrity_error.

Lemma statement_Ok p p' : statement p = Ok p' ↔ p' = p ∧ platform_ok p.
Proof.
  unfold statement. rewrite <- platform_okb_iff. destruct (platform_okb p); [naive_solver|]. split; [done|]. by intros [_ ?].
Qed.

(** ** Writes of tenant rows

    Every row of the tables of [_TENANT_WRITE_TABLES], with its key; a run comes with
    its event counter, which is one of its columns. *)
Inductive TenantRow :=
| ROW_session (k : uuid) (v : SessionRecord)
| ROW_run (k : uuid) (v : RunRecord) (next : Z)
| ROW_run_lease (k : uuid) (v : RunLeaseRecord)
| ROW_writer_lease (k : uuid * uuid) (v : WorkspaceLeaseRecord)
| ROW_quota (k : uuid) (v : TenantQuotaRecord)
| ROW_checkpoint (k : uuid) (v : CheckpointRecord)
| ROW_message (k : uuid) (v : MessageRecord)
| ROW_memory_job (k : uuid * uuid * Z) (v : MemoryExtractionJobRecord)
| ROW_compaction (k : uuid) (v : ContextCompactionRecord)
| ROW_task_plan (k : uuid) (v : TaskPlanRecord)
| ROW_tool_call (k : uuid * uuid * Z * pystr) (v : ToolCallRecord)
| ROW_approval (k : uuid) (v : ApprovalRecord)
| ROW_memory (k : uuid) (v : MemoryRecord)
| ROW_event (k : uuid * Z) (v : AgentEventRecord)
| ROW_model_call (k : uuid) (v : ModelCallRow)
| ROW_capacity_lease (k : uuid) (v : DurableCapacity.GatewayCapacityLeaseRecord)
| ROW_rate_limit (k : uuid * pystr) (v : DurableRates.GatewayRateLimitRecord)
| ROW_gateway_request (k : uuid * pystr) (v : @RequestStore.Stored json json)
| ROW_workspace (k : uuid) (v : WorkspaceRecord)
| ROW_artifact (k : uuid) (v : ArtifactRecord)
| ROW_snapshot (k : uuid) (v : SourceSnapshotRecord)
| ROW_validation_job (k : uuid) (v : SnapshotValidationJobRecord).

Definition row_tenant (r : TenantRow) : uuid :=
  match r with
  | ROW_session _ v => sess_tenant_id v
  | ROW_run _ v _ => rr_tenant_id v
  | ROW_run_lease _ v => rl_tenant_id v
  | ROW_writer_lease _ v => wl_tenant_id v
  | ROW_quota k _ => k
  | ROW_checkpoint _ v => cp_tenant_id v
  | ROW_message _ v => msg_tenant_id v
  | ROW_memory_job k _ => k.1.1
  | ROW_compaction _ v => cc_tenant_id v
  | ROW_task_plan _ v => tp_tenant_id v
  | ROW_tool_call k _ => k.1.1.1
  | ROW_approval _ v => ap_tenant_id v
  | ROW_memory _ v => mem_tenant_id v
  | ROW_event _ v => er_tenant_id v
  | ROW_model_call _ v => mr_tenant_id v
  | ROW_capacity_lease _ v => DurableCapacity.gl_tenant_id v
  | ROW_rate_limit k _ => k.1
  | ROW_gateway_request k _ => k.1
  | ROW_workspace _ v => ws_tenant_id v
  | ROW_artifact _ v => ar_tenant_id v
  | ROW_snapshot _ v => sn_tenant_id v
  | ROW_validation_job _ v => vj_tenant_id v
  end.

Definition has_row (x : TenantTables) (r : TenantRow) : Prop :=
  match r with
  | ROW_session k v => sessions (control x) !! k = Some v
  | ROW_run k v next => runs (control x) !! k = Some v ∧ next = next_event_sequence (events x) k
  | ROW_run_lease k v => run_leases (control x) !! k = Some v
  | ROW_writer_lease k v => workspace_leases (control x) !! k = Some v
  | ROW_quota k v => tenant_quotas (control x) !! k = Some v
  | ROW_checkpoint k v => checkpoints (control x) !! k = Some v
  | ROW_message k v => messages (control x) !! k = Some v
  | ROW_memory_job k v => memory_jobs (control x) !! k = Some v
  | ROW_compaction k v => compactions (control x) !! k = Some v
  | ROW_task_plan k v => task_plans (control x) !! k = Some v
  | ROW_tool_call k v => tool_calls (control x) !! k = Some v
  | ROW_approval k v => approvals (control x) !! k = Some v
  | ROW_memory k v => memories (control x) !! k = Some v
  | ROW_event k v => et_rows (events x) !! k = Some v
  | ROW_model_call k v => model_calls x !! k = Some v
  | ROW_capacity_lease k v => capacity_leases x !! k = Some v
  | ROW_rate_limit k v => rate_limits x !! k = Some v
  | ROW_gateway_request k v => gateway_requests x !! k = Some v
  | ROW_workspace k v => workspaces x !! k = Some v
  | ROW_artifact k v => artifacts x !! k = Some v
  | ROW_snapshot k v => source_snapshots x !! k = Some v
  | ROW_validation_job k v => validation_jobs x !! k = Some v
  end.

Definition tenant_active (p : PlatformDb) (tenant_id : uuid) : bool :=
  match tenant_lifecycles p !! tenant_id with Some l => bool_decide (tl_status l = TENANT_ACTIVE) | None => true end.

(** The trigger [agent_require_active_tenant_write]: a row that is inserted or updated
    belongs to an active tenant; deletes are not guarded. *)
Definition agent_require_active_tenant_write (p : PlatformDb) (x : TenantTables) : Prop :=
  ∀ r, has_row x r → has_row (data p) r ∨ tenant_active p (row_tenant r) = true.

(** A transaction of any other repository: it changes tenant tables only and passes
    the trigger and the constraints. *)
Definition tenant_write (p p' : PlatformDb) : Prop :=
  ∃ x, p' = set_data p x ∧ agent_require_active_tenant_write p x ∧ platform_ok p'.
