(* ===== verification/DataLifecycle.v ===== *)
(** * Tenant lifecycle, legal holds, audit exports and the deletion outbox

    The contracts of [agent_core/lifecycle.py] and [PostgresLifecycleRepository] of
    [platform_persistence/lifecycle.py], with [PostgresAuditSink] of [audit.py].

    Every operation is one transaction.  The advisory tenant lock makes the
    operations on a tenant serial, and so does the row lock of a deletion job; rows
    other claims hold locked are an argument of the claim.  [database_now] is
    [SELECT now()], [token] gives each claimed job its [uuid4]; [uuid5], [uuid_text]
    ([str(id)]) and [isoformat] are parameters. *)

From stdpp Require Import base list sets gmap strings sorting.
From Stdlib Require Import ZArith Lia.
From S2P Require Import Prelude PyBase Domain Tables Contracts Execution EventStore GatewayStores LifecycleTables.

Definition MAX_LIFECYCLE_ATTEMPTS : Z := 100.
Definition MAX_LIFECYCLE_BATCH_SIZE : Z := 1000.
Definition MAX_AUDIT_EXPORT_RECORDS : Z := 10000000.
Definition MAX_LEASE_SECONDS : Z := 300.
Definition MAX_WORKER_ID_BYTES : N := 255.

(** ** Contracts *)

(** [LifecycleActor] is an [IdentifierString]; [LifecycleReason] has up to 2000
    characters. *)
Definition lifecycle_reason (s : pystr) : result pystr :=
  let s := strip_by is_white_space s in
  _ ← ensure ((1 <=? length s)%nat && (length s <=? 2000)%nat) (ValidationError "reason");
  Ok s.

(** [value.split("/")] *)
Fixpoint split_slash (s : pystr) : list pystr :=
  match s with
  | [] => [[]]
  | c :: s =>
      if (c =? 47)%N then [] :: split_slash s
      else match split_slash s with part :: parts => (c :: part) :: parts | [] => [[c]] end
  end.
(** [ObjectKey] with [_validate_object_key] *)
Definition validate_object_key (s : pystr) : result pystr :=
  _ ← ensure (object_key_check s) (ValidationError "object_key");
  _ ← ensure (forallb (λ part, negb (bool_decide (part ∈ [[]; py "."; py ".."]))) (split_slash s))
        (ValidationError "object key must contain only canonical path components");
  Ok s.

(** [MediaType] *)
Definition media_char (c : N) : bool :=
  lower_alnum c || bool_decide (c ∈ [33; 35; 36; 38; 94; 95; 46; 43; 45]%N).
Definition media_part (s : pystr) : bool :=
  match s with c :: rest => lower_alnum c && forallb media_char rest | [] => false end.
Definition media_type_ok (s : pystr) : bool :=
  (3 <=? length s)%nat && (length s <=? 255)%nat
  && (match split_slash s with [a; b] => media_part a && media_part b | _ => false end).

Record StoredObject := mkStoredObject {
  so_object_key : pystr;
  so_sha256 : pystr;
  so_size_bytes : Z;
  so_content_type : pystr;
  so_etag : option pystr;
}.
#[export] Instance StoredObject_eq_dec : EqDecision StoredObject.
Proof. solve_decision. Defined.
Definition validate_stored_object (o : StoredObject) : result StoredObject :=
  _ ← validate_object_key (so_object_key o);
  _ ← ensure (sha256_hex_ok (so_sha256 o)) (ValidationError "sha256");
  _ ← ensure (0 <=? so_size_bytes o)%Z (ValidationError "size_bytes");
  _ ← ensure (media_type_ok (so_content_type o)) (ValidationError "content_type");
  _ ← ensure (match so_etag o with Some e => (1 <=? length e)%nat && (length e <=? 1024)%nat | None => true end)
        (ValidationError "etag");
  Ok o.

(** The lifecycle of a tenant and a legal hold have the columns of their rows. *)
Abbreviation TenantLifecycle := TenantLifecycleRecord (only parsing).
Abbreviation LegalHold := LegalHoldRecord (only parsing).

(** [TenantLifecycle.validate_lifecycle] *)
Definition validate_tenant_state (l : TenantLifecycle) : result unit :=
  match tl_status l with
  | TENANT_ACTIVE =>
      ensure (is_none (tl_request_id l) && is_none (tl_requested_by l) && is_none (tl_requested_at l)
              && is_none (tl_delete_after l) && is_none (tl_audit_export_id l)
              && is_none (tl_deletion_started_at l) && is_none (tl_deleted_at l))
        (ValidationError "active tenant lifecycle may not contain deletion state")
  | status =>
      match tl_request_id l, tl_requested_by l, tl_requested_at l, tl_delete_after l, tl_audit_export_id l with
      | Some _, Some _, Some requested_at, Some delete_after, Some _ =>
          _ ← ensure (requested_at <=? delete_after)%Z
                (ValidationError "tenant deletion cooling-off time may not precede its request");
          _ ← ensure (requested_at <=? tl_updated_at l)%Z
                (ValidationError "tenant lifecycle update may not precede its request");
          match status, tl_deletion_started_at l, tl_deleted_at l with
          | DELETION_REQUESTED, started, deleted =>
              ensure (is_none started && is_none deleted)
                (ValidationError "requested tenant deletion may not contain completion state")
          | DELETING, Some started, None =>
              ensure (delete_after <=? started)%Z
                (ValidationError "tenant deletion may not start before cooling-off completes")
          | DELETING, _, _ => Err (ValidationError "deleting tenant requires only a deletion start time")
          | _, Some started, Some deleted =>
              ensure (started <=? deleted)%Z (ValidationError "tenant deletion completion may not precede its start")
          | _, _, _ => Err (ValidationError "deleted tenant requires start and completion times")
          end
      | _, _, _, _, _ => Err (ValidationError "tenant deletion requires request and audit-export state")
      end
  end.
Definition validate_tenant_lifecycle (l : TenantLifecycle) : result TenantLifecycle :=
  requested_by ← validate_optional identifier_string (tl_requested_by l);
  let l := mkTenantLifecycle (tl_tenant_id l) (tl_status l) (tl_request_id l) requested_by (tl_requested_at l)
             (tl_delete_after l) (tl_audit_export_id l) (tl_deletion_started_at l) (tl_deleted_at l) (tl_updated_at l) in
  _ ← validate_tenant_state l;
  Ok l.

(** [LegalHold.validate_lifecycle] after the field constraints *)
Definition validate_legal_hold (h : LegalHold) : result LegalHold :=
  reason ← lifecycle_reason (lh_reason h);
  placed_by ← identifier_string (lh_placed_by h);
  released_by ← validate_optional identifier_string (lh_released_by h);
  _ ← ensure (match lh_expires_at h with Some e => (lh_placed_at h <? e)%Z | None => true end)
        (ValidationError "legal-hold expiry must follow placement");
  _ ← ensure (eqb (is_none released_by) (is_none (lh_released_at h)))
        (ValidationError "legal-hold release actor and timestamp must be recorded together");
  _ ← ensure (match lh_released_at h with Some r => (lh_placed_at h <=? r)%Z | None => true end)
        (ValidationError "legal-hold release may not precede placement");
  Ok (mkLegalHold (lh_id h) (lh_tenant_id h) reason placed_by (lh_placed_at h) (lh_expires_at h) released_by
        (lh_released_at h)).

Record AuditExport := mkAuditExport {
  axp_id : uuid;
  axp_tenant_id : uuid;
  axp_status : AuditExportStatus;
  axp_requested_by : pystr;
  axp_cutoff_at : timestamp;
  axp_created_at : timestamp;
  axp_object : option StoredObject;
  axp_record_count : option Z;
  axp_first_occurred_at : option timestamp;
  axp_last_occurred_at : option timestamp;
  axp_completed_at : option timestamp;
  axp_error : option ErrorDetail;
}.
#[export] Instance AuditExport_eq_dec : EqDecision AuditExport.
Proof. solve_decision. Defined.

(** [AuditExport.validate_lifecycle] *)
Definition validate_export_state (e : AuditExport) : result unit :=
  _ ← (match axp_status e with
       | EXPORT_PENDING =>
           ensure (is_none (axp_object e) && is_none (axp_record_count e) && is_none (axp_completed_at e)
                   && is_none (axp_error e)) (ValidationError "pending audit export may not contain an outcome")
       | EXPORT_COMPLETED =>
           match axp_object e, axp_record_count e, axp_completed_at e, axp_error e with
           | Some _, Some n, Some _, None =>
               if (n =? 0)%Z then
                 ensure (is_none (axp_first_occurred_at e) && is_none (axp_last_occurred_at e))
                   (ValidationError "empty audit export may not contain a timestamp range")
               else
                 ensure (is_some (axp_first_occurred_at e) && is_some (axp_last_occurred_at e))
                   (ValidationError "nonempty audit export requires a timestamp range")
           | _, _, _, _ => Err (ValidationError "completed audit export requires immutable object metadata")
           end
       | EXPORT_FAILED =>
           ensure (is_none (axp_object e) && is_none (axp_record_count e) && is_none (axp_completed_at e)
                   && is_some (axp_error e)) (ValidationError "failed audit export requires only a structured error")
       end);
  _ ← ensure (match axp_completed_at e with Some c => (axp_created_at e <=? c)%Z | None => true end)
        (ValidationError "audit export completion may not precede creation");
  _ ← ensure (match axp_last_occurred_at e with Some l => (l <=? axp_cutoff_at e)%Z | None => true end)
        (ValidationError "audit export may not include records after its cutoff");
  ensure (match axp_first_occurred_at e, axp_last_occurred_at e with Some f, Some l => (f <=? l)%Z | _, _ => true end)
    (ValidationError "audit export timestamp range is invalid").
Definition validate_audit_export (e : AuditExport) : result AuditExport :=
  requested_by ← identifier_string (axp_requested_by e);
  object ← validate_optional validate_stored_object (axp_object e);
  _ ← ensure (match axp_record_count e with Some n => (0 <=? n)%Z && (n <=? MAX_AUDIT_EXPORT_RECORDS)%Z | None => true end)
        (ValidationError "record_count");
  error_ ← validate_optional validate_error_detail (axp_error e);
  let e := mkAuditExport (axp_id e) (axp_tenant_id e) (axp_status e) requested_by (axp_cutoff_at e) (axp_created_at e)
             object (axp_record_count e) (axp_first_occurred_at e) (axp_last_occurred_at e) (axp_completed_at e) error_ in
  _ ← validate_export_state e;
  Ok e.

Record ObjectDeletionLease := mkDeletionLease {
  dl_job_id : uuid;
  dl_tenant_id : uuid;
  dl_artifact_id : option uuid;
  dl_object_key : pystr;
  dl_reason : ObjectDeletionReason;
  dl_worker_id : pystr;
  dl_lease_token : uuid;
  dl_lease_generation : Z;
  dl_attempt : Z;
  dl_expires_at : timestamp;
}.
Definition validate_deletion_lease (l : ObjectDeletionLease) : result ObjectDeletionLease :=
  _ ← validate_object_key (dl_object_key l);
  worker ← identifier_string (dl_worker_id l);
  _ ← ensure (1 <=? dl_lease_generation l)%Z (ValidationError "lease_generation");
  _ ← ensure ((1 <=? dl_attempt l)%Z && (dl_attempt l <=? MAX_LIFECYCLE_ATTEMPTS)%Z) (ValidationError "attempt");
  Ok (mkDeletionLease (dl_job_id l) (dl_tenant_id l) (dl_artifact_id l) (dl_object_key l) (dl_reason l) worker
        (dl_lease_token l) (dl_lease_generation l) (dl_attempt l) (dl_expires_at l)).

(** ** Rows to contracts *)

Definition _tenant_lifecycle (row : TenantLifecycleRecord) : result TenantLifecycle := validate_tenant_lifecycle row.
Definition _legal_hold (row : LegalHoldRecord) : result LegalHold := validate_legal_hold row.

Definition _audit_export (row : AuditExportRecord) : result AuditExport :=
  object ← (match ex_status row with
            | EXPORT_COMPLETED =>
                match ex_object_key row, ex_sha256 row, ex_size_bytes row, ex_content_type row with
                | Some k, Some h, Some n, Some c => o ← validate_stored_object (mkStoredObject k h n c (ex_etag row)); Ok (Some o)
                | _, _, _, _ => Err (ValidationError "object")
                end
            | _ => Ok None
            end);
  error_ ← (match ex_error row with Some j => e ← error_of_json j; Ok (Some e) | None => Ok None end);
  validate_audit_export (mkAuditExport (ex_id row) (ex_tenant_id row) (ex_status row) (ex_requested_by row)
    (ex_cutoff_at row) (ex_created_at row) object (ex_record_count row) (ex_first_occurred_at row)
    (ex_last_occurred_at row) (ex_completed_at row) error_).

Definition _object_deletion_lease (row : ObjectDeletionJobRecord) : result ObjectDeletionLease :=
  match dj_worker_id row, dj_lease_token row, dj_lease_expires_at row with
  | Some worker, Some token, Some expires =>
      validate_deletion_lease (mkDeletionLease (dj_id row) (dj_tenant_id row) (dj_artifact_id row) (dj_object_key row)
        (dj_reason row) worker token (dj_lease_generation row) (dj_attempt row) expires)
  | _, _, _ => Err (ValidationError "lease")
  end.

Definition _batch_size (value : Z) : result unit :=
  ensure ((1 <=? value)%Z && (value <=? MAX_LIFECYCLE_BATCH_SIZE)%Z) (ValueError "batch size must be between 1 and 1000").
Definition _lease_seconds (value : Z) : result unit :=
  ensure ((1 <=? value)%Z && (value <=? MAX_LEASE_SECONDS)%Z) (ValueError "lease seconds must be between 1 and 300").
Definition _worker_id (value : pystr) : result unit :=
  ensure (negb (bool_decide (py_strip value = [])) && (utf8_len value <=? MAX_WORKER_ID_BYTES)%N
          && negb (bool_decide (0%N ∈ value))) (ValueError "worker_id must be nonempty and at most 255 UTF-8 bytes").
Definition _conflict (code : string) : error := DomainOperationError code false.
Definition object_deletion_lease_lost : error := _conflict "object_deletion_lease_lost".

(** ** Queries *)

Definition _NONTERMINAL_RUN_STATUSES : list RunStatus :=
  [QUEUED; LEASED; RUNNING; WAITING_APPROVAL; RETRY_PENDING; LOST].
Definition _RETENTION_SAFE_KINDS : list ArtifactKind := [FINAL_PATCH; COMMAND_LOG; EVALUATION_REPORT].

Definition hold_active (tenant_id : uuid) (occurred_at : timestamp) (h : LegalHoldRecord) : bool :=
  bool_decide (lh_tenant_id h = tenant_id) && is_none (lh_released_at h)
  && (match lh_expires_at h with None => true | Some e => (occurred_at <? e)%Z end).
Definition _has_active_hold (p : PlatformDb) (tenant_id : uuid) (occurred_at : timestamp) : bool :=
  is_some (scalar_where (hold_active tenant_id occurred_at) (legal_holds p)).
Definition _require_no_hold (p : PlatformDb) (tenant_id : uuid) (occurred_at : timestamp) : result unit :=
  ensure (negb (_has_active_hold p tenant_id occurred_at)) (_conflict "tenant_legal_hold_active").

Definition _require_no_running_deletions (p : PlatformDb) (tenant_id : uuid) : result unit :=
  ensure (is_none (scalar_where (λ j, bool_decide (dj_tenant_id j = tenant_id) && bool_decide (dj_status j = DEL_RUNNING))
            (deletion_jobs p))) (_conflict "legal_hold_cleanup_in_progress").

Definition run_active (tenant_id : uuid) (r : RunRecord) : bool :=
  bool_decide (rr_tenant_id r = tenant_id) && bool_decide (rr_status r ∈ _NONTERMINAL_RUN_STATUSES).
Definition _require_no_active_runs (p : PlatformDb) (tenant_id : uuid) : result unit :=
  ensure (is_none (scalar_where (run_active tenant_id) (runs (control (data p))))) (_conflict "tenant_runs_active").

Definition _tenant_cleanup_allowed (p : PlatformDb) (tenant_id : uuid) (occurred_at : timestamp) : bool :=
  if _has_active_hold p tenant_id occurred_at then false
  else match tenant_lifecycles p !! tenant_id with
       | None => true
       | Some l => bool_decide (tl_status l = TENANT_ACTIVE)
       end.

(** [exists().where(ObjectDeletionJobRecord.object_key == key)] *)
Definition key_queued (p : PlatformDb) (key : pystr) : bool :=
  is_some (scalar_where (λ j, bool_decide (dj_object_key j = key)) (deletion_jobs p)).

Definition _require_objects_deleted (p : PlatformDb) (tenant_id : uuid) : result unit :=
  ensure (is_none (scalar_where (λ j, bool_decide (dj_tenant_id j = tenant_id) && bool_decide (dj_status j ≠ DEL_COMPLETED))
            (deletion_jobs p))
          && is_none (scalar_where (λ a, bool_decide (ar_tenant_id a = tenant_id) && negb (key_queued p (ar_object_key a)))
               (artifacts (data p)))
          && is_none (scalar_where (λ s, bool_decide (sn_tenant_id s = tenant_id) && negb (key_queued p (sn_object_key s)))
               (source_snapshots (data p))))
    (_conflict "tenant_objects_not_deleted").

Definition put_export (p : PlatformDb) (e : AuditExportRecord) : PlatformDb :=
  set_audit_exports p (<[ex_id e := e]> (audit_exports p)).
Definition put_hold (p : PlatformDb) (h : LegalHoldRecord) : PlatformDb :=
  set_legal_holds p (<[lh_id h := h]> (legal_holds p)).
Definition put_lifecycle (p : PlatformDb) (l : TenantLifecycleRecord) : PlatformDb :=
  set_tenant_lifecycles p (<[tl_tenant_id l := l]> (tenant_lifecycles p)).
Definition put_deletion_job (p : PlatformDb) (j : ObjectDeletionJobRecord) : PlatformDb :=
  set_deletion_jobs p (<[dj_id j := j]> (deletion_jobs p)).

(** ORDER BY of the claims and scans *)
Definition job_le (a b : ObjectDeletionJobRecord) : Prop :=
  (dj_created_at a < dj_created_at b ∨ (dj_created_at a = dj_created_at b ∧ (dj_id a <= dj_id b)%N))%Z.
#[export] Instance job_le_dec : RelDecision job_le.
Proof. intros a b. unfold job_le. apply _. Defined.
Definition expiry_le (a b : ArtifactRecord) : Prop :=
  let ta := default 0%Z (ar_expires_at a) in let tb := default 0%Z (ar_expires_at b) in
  (ta < tb ∨ (ta = tb ∧ (ar_id a <= ar_id b)%N))%Z.
#[export] Instance expiry_le_dec : RelDecision expiry_le.
Proof. intros a b. unfold expiry_le. apply _. Defined.
Definition artifact_id_le (a b : ArtifactRecord) : Prop := (ar_id a <= ar_id b)%N.
#[export] Instance artifact_id_le_dec : RelDecision artifact_id_le.
Proof. intros a b. unfold artifact_id_le. apply _. Defined.
Definition snapshot_id_le (a b : SourceSnapshotRecord) : Prop := (sn_id a <= sn_id b)%N.
#[export] Instance snapshot_id_le_dec : RelDecision snapshot_id_le.
Proof. intros a b. unfold snapshot_id_le. apply _. Defined.

(** ** The repository *)

Module LifecycleRepository.
Section LifecycleRepository.
Variable uuid5 : pystr → uuid.
Variable uuid_text : uuid → pystr.
Variable isoformat : timestamp → pystr.

Definition get_tenant_lifecycle (p : PlatformDb) (tenant_id : uuid) : result (option TenantLifecycle) :=
  match tenant_lifecycles p !! tenant_id with Some row => l ← _tenant_lifecycle row; Ok (Some l) | None => Ok None end.

Definition require_active (p : PlatformDb) (tenant_id : uuid) : result unit :=
  lifecycle ← get_tenant_lifecycle p tenant_id;
  ensure (match lifecycle with Some l => bool_decide (tl_status l = TENANT_ACTIVE) | None => true end)
    (_conflict "tenant_not_active").

Definition get_audit_export (p : PlatformDb) (tenant_id export_id : uuid) : result (option AuditExport) :=
  match audit_exports p !! export_id with
  | Some row => if bool_decide (ex_tenant_id row = tenant_id) then e ← _audit_export row; Ok (Some e) else Ok None
  | None => Ok None
  end.

Definition get_legal_hold (p : PlatformDb) (tenant_id hold_id : uuid) : result (option LegalHold) :=
  match legal_holds p !! hold_id with
  | Some row => if bool_decide (lh_tenant_id row = tenant_id) then h ← _legal_hold row; Ok (Some h) else Ok None
  | None => Ok None
  end.

Definition has_active_legal_hold (p : PlatformDb) (tenant_id : uuid) (occurred_at : timestamp) : bool :=
  _has_active_hold p tenant_id occurred_at.

(** *** Audit exports *)

Definition create_audit_export (p : PlatformDb) (export : AuditExport) : result (AuditExport * PlatformDb) :=
  _ ← ensure (bool_decide (axp_status export = EXPORT_PENDING)) (ValueError "new audit exports must be pending");
  match audit_exports p !! axp_id export with
  | None =>
      let row := mkAuditExportRecord (axp_id export) (axp_tenant_id export) (axp_status export) (axp_requested_by export)
                   (axp_cutoff_at export) None None None None None None None None (axp_created_at export) None None in
      p' ← statement (put_export p row);
      e ← _audit_export row;
      Ok (e, p')
  | Some row =>
      _ ← ensure (bool_decide (ex_tenant_id row = axp_tenant_id export)
                  && bool_decide (ex_requested_by row = axp_requested_by export)
                  && bool_decide (ex_cutoff_at row = axp_cutoff_at export)
                  && bool_decide (ex_created_at row = axp_created_at export)) (_conflict "audit_export_conflict");
      e ← _audit_export row;
      Ok (e, p)
  end.

Definition complete_audit_export (p : PlatformDb) (export : AuditExport) : result (AuditExport * PlatformDb) :=
  _ ← ensure (bool_decide (axp_status export = EXPORT_COMPLETED))
        (ValueError "audit export completion requires a completed model");
  row ← require (audit_exports p !! axp_id export) (_conflict "audit_export_not_found");
  _ ← ensure (bool_decide (ex_tenant_id row = axp_tenant_id export)) (_conflict "audit_export_not_found");
  match ex_status row with
  | EXPORT_COMPLETED =>
      current ← _audit_export row;
      _ ← ensure (bool_decide (current = export)) (_conflict "audit_export_conflict");
      Ok (current, p)
  | EXPORT_FAILED => Err (_conflict "audit_export_conflict")
  | EXPORT_PENDING =>
      _ ← ensure (bool_decide (ex_requested_by row = axp_requested_by export)
                  && bool_decide (ex_cutoff_at row = axp_cutoff_at export)
                  && bool_decide (ex_created_at row = axp_created_at export)) (_conflict "audit_export_conflict");
      stored ← require (axp_object export) (ValueError "completed audit export requires object metadata");
      let row := mkAuditExportRecord (ex_id row) (ex_tenant_id row) (axp_status export) (ex_requested_by row)
                   (ex_cutoff_at row) (Some (so_object_key stored)) (Some (so_sha256 stored)) (Some (so_size_bytes stored))
                   (Some (so_content_type stored)) (so_etag stored) (axp_record_count export)
                   (axp_first_occurred_at export) (axp_last_occurred_at export) (ex_created_at row)
                   (axp_completed_at export) None in
      p' ← statement (put_export p row);
      e ← _audit_export row;
      Ok (e, p')
  end.

Definition fail_audit_export (p : PlatformDb) (export_id tenant_id : uuid) (error_ : ErrorDetail)
    : result (AuditExport * PlatformDb) :=
  row ← require (audit_exports p !! export_id) (_conflict "audit_export_not_found");
  _ ← ensure (bool_decide (ex_tenant_id row = tenant_id)) (_conflict "audit_export_not_found");
  _ ← ensure (bool_decide (ex_status row ≠ EXPORT_COMPLETED)) (_conflict "audit_export_conflict");
  let row := mkAuditExportRecord (ex_id row) (ex_tenant_id row) EXPORT_FAILED (ex_requested_by row) (ex_cutoff_at row)
               None None None None None None None None (ex_created_at row) None (Some (error_json error_)) in
  p' ← statement (put_export p row);
  e ← _audit_export row;
  Ok (e, p').

(** *** Legal holds *)

Definition place_legal_hold (p : PlatformDb) (hold : LegalHold) : result (LegalHold * PlatformDb) :=
  _ ← _require_no_running_deletions p (lh_tenant_id hold);
  _ ← ensure (match tenant_lifecycles p !! lh_tenant_id hold with
              | Some l => bool_decide (tl_status l ≠ DELETED)
              | None => true
              end) (_conflict "tenant_deleted");
  match legal_holds p !! lh_id hold with
  | None =>
      p' ← statement (put_hold p hold);
      h ← _legal_hold hold;
      Ok (h, p')
  | Some row =>
      current ← _legal_hold row;
      _ ← ensure (bool_decide (current = hold)) (_conflict "legal_hold_conflict");
      Ok (current, p)
  end.

Definition release_legal_hold (p : PlatformDb) (tenant_id hold_id : uuid) (released_by : pystr) (released_at : timestamp)
    : result (LegalHold * PlatformDb) :=
  row ← require (legal_holds p !! hold_id) (_conflict "legal_hold_not_found");
  _ ← ensure (bool_decide (lh_tenant_id row = tenant_id)) (_conflict "legal_hold_not_found");
  if is_some (lh_released_at row) then
    _ ← ensure (bool_decide (lh_released_by row = Some released_by)) (_conflict "legal_hold_conflict");
    h ← _legal_hold row;
    Ok (h, p)
  else
    _ ← ensure (lh_placed_at row <=? released_at)%Z (ValueError "legal-hold release may not precede placement");
    let row := mkLegalHold (lh_id row) (lh_tenant_id row) (lh_reason row) (lh_placed_by row) (lh_placed_at row)
                 (lh_expires_at row) (Some released_by) (Some released_at) in
    p' ← statement (put_hold p row);
    h ← _legal_hold row;
    Ok (h, p').

(** *** Tenant deletion *)

Definition same_request (l : TenantLifecycle) (request_id : uuid) (requested_by : pystr)
    (requested_at delete_after : timestamp) (audit_export_id : uuid) : bool :=
  bool_decide (tl_request_id l = Some request_id) && bool_decide (tl_requested_by l = Some requested_by)
  && bool_decide (tl_requested_at l = Some requested_at) && bool_decide (tl_delete_after l = Some delete_after)
  && bool_decide (tl_audit_export_id l = Some audit_export_id).

(** The audit row of the request *)
Definition deletion_audit_row (tenant_id request_id : uuid) (requested_by : pystr) (requested_at delete_after : timestamp)
    (audit_export_id : uuid) : AuditRecord :=
  mkAuditRecord (uuid5 (py "tenant-deletion:" ++ uuid_text request_id)) tenant_id requested_by DELETE
    (py "/admin/tenants/" ++ uuid_text tenant_id) (py "tenant.deletion_requested") (uuid_text request_id)
    (JObject [(py "audit_export_id", JString (uuid_text audit_export_id)); (py "delete_after", JString (isoformat delete_after))])
    requested_at.

(** INSERT of an audit row *)
Definition add_audit (p : PlatformDb) (row : AuditRecord) : result PlatformDb :=
  _ ← ensure (is_none (audit_log p !! au_id row)) integrity_error;
  statement (set_audit_log p (<[au_id row := row]> (audit_log p))).

(** A request of an active tenant; the active row a new tenant first gets is
    overwritten in the same transaction. *)
Definition request_new (p : PlatformDb) (tenant_id request_id : uuid) (requested_by : pystr)
    (requested_at delete_after : timestamp) (audit_export_id : uuid) : result (TenantLifecycle * PlatformDb) :=
  _ ← _require_no_hold p tenant_id requested_at;
  _ ← _require_no_active_runs p tenant_id;
  export ← require (audit_exports p !! audit_export_id) (_conflict "audit_export_required");
  _ ← ensure (bool_decide (ex_tenant_id export = tenant_id) && bool_decide (ex_status export = EXPORT_COMPLETED)
              && bool_decide (ex_cutoff_at export = requested_at)) (_conflict "audit_export_required");
  let row := mkTenantLifecycle tenant_id DELETION_REQUESTED (Some request_id) (Some requested_by) (Some requested_at)
               (Some delete_after) (Some audit_export_id) None None requested_at in
  p1 ← statement (put_lifecycle p row);
  p2 ← add_audit p1 (deletion_audit_row tenant_id request_id requested_by requested_at delete_after audit_export_id);
  l ← _tenant_lifecycle row;
  Ok (l, p2).

Definition request_tenant_deletion (p : PlatformDb) (tenant_id request_id : uuid) (requested_by : pystr)
    (requested_at delete_after : timestamp) (audit_export_id : uuid) : result (TenantLifecycle * PlatformDb) :=
  _ ← ensure (requested_at <=? delete_after)%Z (ValueError "delete_after may not precede requested_at");
  let fresh := request_new p tenant_id request_id requested_by requested_at delete_after audit_export_id in
  match tenant_lifecycles p !! tenant_id with
  | None => fresh
  | Some row =>
      if bool_decide (tl_status row = TENANT_ACTIVE) then fresh
      else
        current ← _tenant_lifecycle row;
        _ ← ensure (same_request current request_id requested_by requested_at delete_after audit_export_id)
              (_conflict "tenant_deletion_conflict");
        Ok (current, p)
  end.

Definition begin_tenant_deletion (p : PlatformDb) (tenant_id : uuid) (occurred_at : timestamp)
    : result (TenantLifecycle * PlatformDb) :=
  row ← require (tenant_lifecycles p !! tenant_id) (_conflict "tenant_deletion_not_requested");
  match tl_status row with
  | DELETING => l ← _tenant_lifecycle row; Ok (l, p)
  | DELETION_REQUESTED =>
      _ ← ensure (match tl_delete_after row with Some a => negb (occurred_at <? a)%Z | None => false end)
            (_conflict "tenant_deletion_cooling_off");
      _ ← _require_no_hold p tenant_id occurred_at;
      _ ← _require_no_active_runs p tenant_id;
      export ← require (tl_audit_export_id row ≫= λ i, audit_exports p !! i) (_conflict "audit_export_required");
      _ ← ensure (bool_decide (ex_status export = EXPORT_COMPLETED)) (_conflict "audit_export_required");
      let row := mkTenantLifecycle (tl_tenant_id row) DELETING (tl_request_id row) (tl_requested_by row)
                   (tl_requested_at row) (tl_delete_after row) (tl_audit_export_id row) (Some occurred_at)
                   (tl_deleted_at row) occurred_at in
      p' ← statement (put_lifecycle p row);
      l ← _tenant_lifecycle row;
      Ok (l, p')
  | _ => Err (_conflict "tenant_deletion_conflict")
  end.

(** *** The outbox *)

Record Candidate := mkCandidate {
  ca_tenant_id : uuid;
  ca_artifact_id : option uuid;
  ca_object_key : pystr;
  ca_reason : ObjectDeletionReason;
}.

Definition candidate_job (c : Candidate) (occurred_at : timestamp) : ObjectDeletionJobRecord :=
  mkDeletionJob (uuid5 (py "agent-object-deletion:" ++ ca_object_key c)) (ca_tenant_id c) (ca_artifact_id c)
    (ca_object_key c) (ca_reason c) DEL_PENDING None None None 0 0 None None occurred_at occurred_at None.

(** INSERT ... ON CONFLICT (object_key) DO NOTHING RETURNING id *)
Definition insert_job (occurred_at : timestamp) (s : Z * PlatformDb) (c : Candidate) : result (Z * PlatformDb) :=
  let '(n, p) := s in
  if key_queued p (ca_object_key c) then Ok (n, p)
  else
    let j := candidate_job c occurred_at in
    _ ← ensure (is_none (deletion_jobs p !! dj_id j)) integrity_error;
    Ok ((n + 1)%Z, put_deletion_job p j).

Definition _insert_deletion_jobs (p : PlatformDb) (candidates : list Candidate) (occurred_at : timestamp)
    : result (Z * PlatformDb) :=
  '(n, p1) ← foldM (insert_job occurred_at) (0%Z, p) candidates;
  p2 ← statement p1;
  Ok (n, p2).

(** The artifacts a retention scan selects *)
Definition retention_expired (p : PlatformDb) (occurred_at : timestamp) (a : ArtifactRecord) : bool :=
  (match ar_expires_at a with Some e => (e <=? occurred_at)%Z | None => false end)
  && bool_decide (ar_kind a ∈ _RETENTION_SAFE_KINDS)
  && negb (_has_active_hold p (ar_tenant_id a) occurred_at)
  && (match tenant_lifecycles p !! ar_tenant_id a with Some l => bool_decide (tl_status l = TENANT_ACTIVE) | None => true end)
  && negb (key_queued p (ar_object_key a)).

Definition enqueue_expired_artifacts (p : PlatformDb) (occurred_at : timestamp) (limit : Z) : result (Z * PlatformDb) :=
  _ ← _batch_size limit;
  let rows := take (Z.to_nat limit) (merge_sort expiry_le (select_where (retention_expired p occurred_at) (artifacts (data p)))) in
  let allowed := filter (λ a, _tenant_cleanup_allowed p (ar_tenant_id a) occurred_at = true) rows in
  _insert_deletion_jobs p ((λ a, mkCandidate (ar_tenant_id a) (Some (ar_id a)) (ar_object_key a) RETENTION_EXPIRED) <$> allowed)
    occurred_at.

Definition enqueue_tenant_objects (p : PlatformDb) (tenant_id : uuid) (limit : Z) (database_now : timestamp)
    : result (Z * PlatformDb) :=
  _ ← _batch_size limit;
  lifecycle ← require (tenant_lifecycles p !! tenant_id) (_conflict "tenant_deletion_not_started");
  _ ← ensure (bool_decide (tl_status lifecycle = DELETING)) (_conflict "tenant_deletion_not_started");
  _ ← _require_no_hold p tenant_id database_now;
  let artifact_rows := take (Z.to_nat limit) (merge_sort artifact_id_le (select_where (λ a,
      bool_decide (ar_tenant_id a = tenant_id) && negb (key_queued p (ar_object_key a))) (artifacts (data p)))) in
  '(inserted, p1) ← _insert_deletion_jobs p
    ((λ a, mkCandidate (ar_tenant_id a) (Some (ar_id a)) (ar_object_key a) TENANT_DELETION) <$> artifact_rows)
    (tl_updated_at lifecycle);
  let remaining := (limit - Z.of_nat (length artifact_rows))%Z in
  if (remaining <=? 0)%Z then Ok (inserted, p1)
  else
    let snapshot_rows := take (Z.to_nat remaining) (merge_sort snapshot_id_le (select_where (λ s,
        bool_decide (sn_tenant_id s = tenant_id) && negb (key_queued p1 (sn_object_key s))) (source_snapshots (data p1)))) in
    '(more, p2) ← _insert_deletion_jobs p1
      ((λ s, mkCandidate (sn_tenant_id s) None (sn_object_key s) TENANT_DELETION) <$> snapshot_rows)
      (tl_updated_at lifecycle);
    Ok ((inserted + more)%Z, p2).

(** The statuses and lease columns of a job; identity, key and creation stay. *)
Definition update_job (j : ObjectDeletionJobRecord) artifact status worker token outcome generation attempt expires error_
    updated completed : ObjectDeletionJobRecord :=
  mkDeletionJob (dj_id j) (dj_tenant_id j) artifact (dj_object_key j) (dj_reason j) status worker token outcome generation
    attempt expires error_ (dj_created_at j) updated completed.

Definition object_deletion_lease_expired : ErrorDetail :=
  mkErrorDetail (py "object_deletion_lease_expired") (py "the prior object deletion lease expired") true (JObject []).
Definition object_deletion_attempts_exhausted : ErrorDetail :=
  mkErrorDetail (py "object_deletion_attempts_exhausted") (py "object deletion exhausted its retry limit") false (JObject []).

Definition recover_job (occurred_at : timestamp) (j : ObjectDeletionJobRecord) : ObjectDeletionJobRecord :=
  if bool_decide (dj_status j = DEL_RUNNING)
     && (match dj_lease_expires_at j with Some e => (e <=? occurred_at)%Z | None => false end)
  then
    if (dj_attempt j <? MAX_LIFECYCLE_ATTEMPTS)%Z then
      update_job j (dj_artifact_id j) DEL_PENDING None None None (dj_lease_generation j) (dj_attempt j) None
        (Some (error_json object_deletion_lease_expired)) occurred_at (dj_completed_at j)
    else
      update_job j (dj_artifact_id j) DEL_FAILED None None (dj_lease_token j) (dj_lease_generation j) (dj_attempt j) None
        (Some (error_json object_deletion_attempts_exhausted)) occurred_at (dj_completed_at j)
  else j.
(** The two UPDATEs select disjoint rows. *)
Definition _recover_expired_jobs (p : PlatformDb) (occurred_at : timestamp) : result PlatformDb :=
  statement (set_deletion_jobs p (recover_job occurred_at <$> deletion_jobs p)).

Definition lease_job (token : uuid → uuid) (worker_id : pystr) (occurred_at expires_at : timestamp) (j : ObjectDeletionJobRecord)
    : ObjectDeletionJobRecord :=
  update_job j (dj_artifact_id j) DEL_RUNNING (Some worker_id) (Some (token (dj_id j))) None (dj_lease_generation j + 1)%Z
    (dj_attempt j + 1)%Z (Some expires_at) None occurred_at (dj_completed_at j).

Definition claimable (p : PlatformDb) (occurred_at : timestamp) (locked : gset uuid) (j : ObjectDeletionJobRecord) : bool :=
  bool_decide (dj_status j = DEL_PENDING) && (dj_attempt j <? MAX_LIFECYCLE_ATTEMPTS)%Z
  && negb (_has_active_hold p (dj_tenant_id j) occurred_at) && bool_decide (dj_id j ∉ locked).

Definition claim_object_deletions (p : PlatformDb) (worker_id : pystr) (occurred_at : timestamp) (lease_seconds limit : Z)
    (locked : gset uuid) (token : uuid → uuid) : result (list ObjectDeletionLease * PlatformDb) :=
  _ ← _worker_id worker_id;
  _ ← _lease_seconds lease_seconds;
  _ ← _batch_size limit;
  p1 ← _recover_expired_jobs p occurred_at;
  let rows := take (Z.to_nat limit) (merge_sort job_le (select_where (claimable p1 occurred_at locked) (deletion_jobs p1))) in
  let free := filter (λ j, _has_active_hold p1 (dj_tenant_id j) occurred_at = false) rows in
  let leased := lease_job token worker_id occurred_at (occurred_at + seconds lease_seconds)%Z <$> free in
  leases ← traverse _object_deletion_lease leased;
  p2 ← statement (foldl put_deletion_job p1 leased);
  Ok (leases, p2).

Definition _require_deletion_lease (row : ObjectDeletionJobRecord) (lease : ObjectDeletionLease) : result unit :=
  ensure (bool_decide (dj_status row = DEL_RUNNING)
          && bool_decide (dj_worker_id row = Some (dl_worker_id lease))
          && bool_decide (dj_lease_token row = Some (dl_lease_token lease))
          && (dj_lease_generation row =? dl_lease_generation lease)%Z
          && (dj_attempt row =? dl_attempt lease)%Z
          && bool_decide (dj_tenant_id row = dl_tenant_id lease)
          && bool_decide (dj_artifact_id row = dl_artifact_id lease)
          && bool_decide (dj_object_key row = dl_object_key lease)
          && bool_decide (dj_reason row = dl_reason lease)
          && bool_decide (dj_lease_expires_at row = Some (dl_expires_at lease))) object_deletion_lease_lost.

Definition complete_object_deletion (p : PlatformDb) (lease : ObjectDeletionLease) (database_now : timestamp)
    : result (unit * PlatformDb) :=
  row ← require (deletion_jobs p !! dl_job_id lease) object_deletion_lease_lost;
  _ ← ensure (bool_decide (dj_tenant_id row = dl_tenant_id lease)) object_deletion_lease_lost;
  if bool_decide (dj_status row = DEL_COMPLETED) && bool_decide (dj_outcome_lease_token row = Some (dl_lease_token lease))
  then Ok (tt, p)
  else
    _ ← _require_deletion_lease row lease;
    _ ← ensure (match dj_lease_expires_at row with Some e => (database_now <? e)%Z | None => false end)
          object_deletion_lease_lost;
    let done artifact := update_job row artifact DEL_COMPLETED None None (Some (dl_lease_token lease))
                           (dj_lease_generation row) (dj_attempt row) None None database_now (Some database_now) in
    match dj_reason row, dj_artifact_id row with
    | RETENTION_EXPIRED, Some artifact_id =>
        p1 ← statement (put_deletion_job p (done None));
        p2 ← statement (set_data p1 (set_artifacts (data p1)
               (filter (λ kv, ¬ (ar_tenant_id kv.2 = dl_tenant_id lease ∧ ar_id kv.2 = artifact_id)) (artifacts (data p1)))));
        Ok (tt, p2)
    | _, artifact =>
        p1 ← statement (put_deletion_job p (done artifact));
        Ok (tt, p1)
    end.

Definition fail_object_deletion (p : PlatformDb) (lease : ObjectDeletionLease) (error_ : ErrorDetail)
    (occurred_at database_now : timestamp) : result (unit * PlatformDb) :=
  row ← require (deletion_jobs p !! dl_job_id lease) object_deletion_lease_lost;
  _ ← ensure (bool_decide (dj_tenant_id row = dl_tenant_id lease)) object_deletion_lease_lost;
  if bool_decide (dj_status row = DEL_FAILED) && bool_decide (dj_outcome_lease_token row = Some (dl_lease_token lease))
  then Ok (tt, p)
  else
    _ ← _require_deletion_lease row lease;
    _ ← ensure (match dj_lease_expires_at row with
                | Some e => (database_now <? e)%Z && (dj_updated_at row <=? occurred_at)%Z && (occurred_at <? e)%Z
                | None => false
                end) object_deletion_lease_lost;
    let retry := detail_retryable error_ && (dj_attempt row <? MAX_LIFECYCLE_ATTEMPTS)%Z in
    p' ← statement (put_deletion_job p (update_job row (dj_artifact_id row) (if retry then DEL_PENDING else DEL_FAILED)
           None None (if retry then None else Some (dl_lease_token lease)) (dj_lease_generation row) (dj_attempt row) None
           (Some (error_json error_)) database_now (dj_completed_at row)));
    Ok (tt, p').

(** *** Finalization *)

(** Rows that hang on a session or run of the tenant: ON DELETE CASCADE of a session
    deletes its runs, and these delete their own rows. *)
Definition session_gone (t : uuid) (d : Db) (tenant session : uuid) : bool :=
  bool_decide (tenant = t) && session_exists d tenant session.
Definition run_gone (t : uuid) (d : Db) (tenant run : uuid) : bool :=
  match runs d !! run with
  | Some r => bool_decide (rr_tenant_id r = tenant) && session_gone t d tenant (rr_session_id r)
  | None => false
  end.

(** DELETE FROM sessions WHERE tenant_id = t *)
Definition delete_sessions (t : uuid) (d : Db) : Db :=
  mkDb
    (filter (λ kv, sess_tenant_id kv.2 ≠ t) (sessions d))
    (filter (λ kv, session_gone t d (rr_tenant_id kv.2) (rr_session_id kv.2) = false) (runs d))
    (workers d)
    (filter (λ kv, run_gone t d (rl_tenant_id kv.2) (rl_run_id kv.2) = false) (run_leases d))
    (filter (λ kv, match wl_run_id kv.2 with Some r => run_gone t d (wl_tenant_id kv.2) r | None => false end = false)
       (workspace_leases d))
    (tenant_quotas d)
    (filter (λ kv, session_gone t d (cp_tenant_id kv.2) (cp_session_id kv.2) || run_gone t d (cp_tenant_id kv.2) (cp_run_id kv.2) = false)
       (checkpoints d))
    (filter (λ kv, session_gone t d (msg_tenant_id kv.2) (msg_session_id kv.2) || run_gone t d (msg_tenant_id kv.2) (msg_run_id kv.2) = false)
       (messages d))
    (filter (λ kv, run_gone t d kv.1.1.1 kv.1.1.2 = false) (memory_jobs d))
    (filter (λ kv, session_gone t d (cc_tenant_id kv.2) (cc_session_id kv.2) = false) (compactions d))
    (filter (λ kv, run_gone t d (tp_tenant_id kv.2) (tp_run_id kv.2) = false) (task_plans d))
    (filter (λ kv, run_gone t d kv.1.1.1.1 kv.1.1.1.2 = false) (tool_calls d))
    (filter (λ kv, run_gone t d (ap_tenant_id kv.2) (ap_run_id kv.2) = false) (approvals d))
    (filter (λ kv, session_gone t d (mem_tenant_id kv.2) (mem_session_id kv.2) || run_gone t d (mem_tenant_id kv.2) (mem_source_run_id kv.2) = false)
       (memories d))
    (queue_admission d).

(** The same statement on the tables outside the control plane; the event counters
    are columns of the runs. *)
Definition delete_tenant_sessions (t : uuid) (x : TenantTables) : TenantTables :=
  let d := control x in
  mkTenantTables (delete_sessions t d)
    (mkEventTables (filter (λ kv, match runs d !! kv.1 with Some r => run_gone t d (rr_tenant_id r) kv.1 | None => false end = false)
                      (et_next (events x)))
       (filter (λ kv, run_gone t d (er_tenant_id kv.2) (er_run_id kv.2) = false) (et_rows (events x))))
    (filter (λ kv, run_gone t d (mr_tenant_id kv.2) (mr_run_id kv.2) = false) (model_calls x))
    (capacity_leases x) (rate_limits x) (gateway_requests x) (workspaces x)
    (filter (λ kv, match ar_run_id kv.2 with Some r => run_gone t d (ar_tenant_id kv.2) r | None => false end = false) (artifacts x))
    (source_snapshots x) (validation_jobs x).

(** DELETE FROM source_snapshots WHERE tenant_id = t, with the jobs that validate them *)
Definition delete_tenant_snapshots (t : uuid) (x : TenantTables) : TenantTables :=
  mkTenantTables (control x) (events x) (model_calls x) (capacity_leases x) (rate_limits x) (gateway_requests x)
    (workspaces x) (artifacts x) (filter (λ kv, sn_tenant_id kv.2 ≠ t) (source_snapshots x))
    (filter (λ kv, bool_decide (vj_tenant_id kv.2 = t)
                   && snapshot_exists x (vj_tenant_id kv.2) (vj_workspace_id kv.2) (vj_snapshot_id kv.2) = false) (validation_jobs x)).
Definition delete_tenant_artifacts (t : uuid) (x : TenantTables) : TenantTables :=
  set_artifacts x (filter (λ kv, ar_tenant_id kv.2 ≠ t) (artifacts x)).
Definition delete_writer_leases (t : uuid) (x : TenantTables) : TenantTables :=
  set_control x (set_workspace_leases (control x) (filter (λ kv, wl_tenant_id kv.2 ≠ t) (workspace_leases (control x)))).

(** DELETE FROM workspaces WHERE tenant_id = t, with the artifacts, snapshots and
    jobs that hang on them *)
Definition delete_tenant_workspaces (t : uuid) (x : TenantTables) : TenantTables :=
  let gone tenant workspace := bool_decide (tenant = t) && workspace_exists x tenant workspace in
  mkTenantTables (control x) (events x) (model_calls x) (capacity_leases x) (rate_limits x) (gateway_requests x)
    (filter (λ kv, ws_tenant_id kv.2 ≠ t) (workspaces x))
    (filter (λ kv, gone (ar_tenant_id kv.2) (ar_workspace_id kv.2) = false) (artifacts x))
    (filter (λ kv, gone (sn_tenant_id kv.2) (sn_workspace_id kv.2) = false) (source_snapshots x))
    (filter (λ kv, gone (vj_tenant_id kv.2) (vj_workspace_id kv.2)
                   && snapshot_exists x (vj_tenant_id kv.2) (vj_workspace_id kv.2) (vj_snapshot_id kv.2) = false) (validation_jobs x)).

Definition delete_gateway_rows (t : uuid) (x : TenantTables) (leases rates requests : bool) : TenantTables :=
  mkTenantTables (control x) (events x) (model_calls x)
    (if leases then filter (λ kv, DurableCapacity.gl_tenant_id kv.2 ≠ t) (capacity_leases x) else capacity_leases x)
    (if rates then filter (λ kv, kv.1.1 ≠ t) (rate_limits x) else rate_limits x)
    (if requests then filter (λ kv, kv.1.1 ≠ t) (gateway_requests x) else gateway_requests x)
    (workspaces x) (artifacts x) (source_snapshots x) (validation_jobs x).

(** DELETE FROM tenant_quotas WHERE tenant_id = t, with the capacity leases *)
Definition delete_quota (t : uuid) (x : TenantTables) : TenantTables :=
  let x := delete_gateway_rows t x (is_some (tenant_quotas (control x) !! t)) false false in
  set_control x (set_tenant_quotas (control x) (delete t (tenant_quotas (control x)))).

(** The three UPDATEs that break reference cycles *)
Definition clear_job_artifacts (t : uuid) (p : PlatformDb) : PlatformDb :=
  set_deletion_jobs p ((λ j, if bool_decide (dj_tenant_id j = t)
    then update_job j None (dj_status j) (dj_worker_id j) (dj_lease_token j) (dj_outcome_lease_token j) (dj_lease_generation j)
           (dj_attempt j) (dj_lease_expires_at j) (dj_error j) (dj_updated_at j) (dj_completed_at j)
    else j) <$> deletion_jobs p).
Definition clear_last_checkpoint (r : RunRecord) : RunRecord :=
  mkRunRecord (rr_id r) (rr_tenant_id r) (rr_session_id r) (rr_workspace_id r) (rr_status r) (rr_priority_class r)
    (rr_priority r) (rr_attempt r) (rr_execution_epoch r) (rr_lease_generation r) (rr_assigned_worker_id r)
    (rr_lease_expires_at r) (rr_retry_ready_at r) None (rr_cancellation_requested r) (rr_traceparent r) (rr_tracestate r)
    (rr_idempotency_key r) (rr_creation_hash r) (rr_created_at r) (rr_started_at r) (rr_completed_at r).
Definition clear_checkpoints (t : uuid) (x : TenantTables) : TenantTables :=
  set_control x (set_runs (control x)
    ((λ r, if bool_decide (rr_tenant_id r = t) then clear_last_checkpoint r else r) <$> runs (control x))).
Definition archive_workspaces (t : uuid) (occurred_at : timestamp) (x : TenantTables) : TenantTables :=
  set_workspaces x ((λ w, if bool_decide (ws_tenant_id w = t)
    then mkWorkspaceRecord (ws_id w) (ws_tenant_id w) WS_ARCHIVED (ws_display_name w) None (ws_version w) (ws_created_at w)
           occurred_at
    else w) <$> workspaces x).

(** The statements on tenant tables, in order *)
Definition erase_statements (t : uuid) (occurred_at : timestamp) : list (TenantTables → TenantTables) :=
  [clear_checkpoints t; archive_workspaces t occurred_at; delete_tenant_sessions t; delete_tenant_snapshots t;
   delete_tenant_artifacts t; delete_writer_leases t; delete_tenant_workspaces t;
   (λ x, delete_gateway_rows t x true false false); (λ x, delete_gateway_rows t x false true false);
   (λ x, delete_gateway_rows t x false false true); delete_quota t].
Definition erase (p : PlatformDb) (f : TenantTables → TenantTables) : result PlatformDb := statement (set_data p (f (data p))).

Definition finalize_tenant_deletion (p : PlatformDb) (tenant_id : uuid) (occurred_at : timestamp)
    : result (TenantLifecycle * PlatformDb) :=
  lifecycle ← require (tenant_lifecycles p !! tenant_id) (_conflict "tenant_deletion_not_started");
  match tl_status lifecycle with
  | DELETED => l ← _tenant_lifecycle lifecycle; Ok (l, p)
  | DELETING =>
      _ ← _require_no_hold p tenant_id occurred_at;
      _ ← _require_no_active_runs p tenant_id;
      _ ← _require_objects_deleted p tenant_id;
      p1 ← statement (clear_job_artifacts tenant_id p);
      p2 ← foldM erase p1 (erase_statements tenant_id occurred_at);
      let row := mkTenantLifecycle (tl_tenant_id lifecycle) DELETED (tl_request_id lifecycle) (tl_requested_by lifecycle)
                   (tl_requested_at lifecycle) (tl_delete_after lifecycle) (tl_audit_export_id lifecycle)
                   (tl_deletion_started_at lifecycle) (Some occurred_at) occurred_at in
      p3 ← statement (put_lifecycle p2 row);
      l ← _tenant_lifecycle row;
      Ok (l, p3)
  | _ => Err (_conflict "tenant_deletion_not_started")
  end.
End LifecycleRepository.
End LifecycleRepository.
