(* ===== verification/AuditExports.v ===== *)
(** * Audit entries and the audit-export file

    [AuditEntry] of [agent_core/audit.py], the paged reading of the audit log, the
    JSON-lines file of [_AuditWriter] and its check [verify_audit_export_file] of
    [agent_core/lifecycle_service.py].

    Bytes are numbers below 256.  What pydantic does with identifiers and times, the
    size of its JSON form, SHA-256 and the shortest text of a float are the
    operations of [Wire]; [WireLaws] has what is documented of them.  The nesting
    depth of JSON values is not limited as the interpreter limits it. *)

From stdpp Require Import base list sets gmap strings sorting pretty.
From Stdlib Require Import ZArith NArith Lia.
From S2P Require Import Prelude PyBase Domain Tables Contracts Execution Transcripts Recovery TaskPlans PyText JsonText PyFormats LifecycleTables DataLifecycle.

Definition MAX_AUDIT_ENTRY_BYTES : N := 1048576.
Definition MAX_AUDIT_DETAILS_BYTES : N := 1000000.
Definition MAX_AUDIT_EXPORT_BYTES : Z := 1073741824.
Definition _MAX_AUDIT_LINE_BYTES : N := MAX_AUDIT_ENTRY_BYTES + 1024.
Definition _AUDIT_EXPORT_CONTENT_TYPE : pystr := py "application/x-ndjson".
Definition _AUDIT_HEADER_TYPE : pystr := py "agent-audit-export-v1".
Definition _AUDIT_ENTRY_TYPE : pystr := py "audit-entry".
Definition _AUDIT_TRAILER_TYPE : pystr := py "audit-trailer".

(** An entry has the columns of its row. *)
Abbreviation AuditEntry := AuditRecord (only parsing).

Class Wire := {
  float_text : pystr → pystr;
  parse_uuid : pystr → option uuid;
  dump_datetime : timestamp → pystr;
  parse_datetime : json → option datetime;
  entry_size : AuditEntry → N;
  sha256 : list N → pystr;
}.

(** The years 1 to 9999 *)
Definition timestamp_ok (t : timestamp) : bool := (-62135596800000000 <=? t)%Z && (t <? 253402300800000000)%Z.

Class WireLaws `{Wire} : Prop := {
  parse_uuid_text u : uuid_ok u = true → parse_uuid (uuid_text u) = Some u;
  parse_dump_datetime t : timestamp_ok t = true → parse_datetime (JString (dump_datetime t)) = Some (utc t);
  dump_datetime_text t : timestamp_ok t = true → plain_text (dump_datetime t) = true ∧ length (dump_datetime t) ≤ 32;
}.

(** ** Entries *)

(** ^[a-z][a-z0-9_.:-]*$ *)
Definition action_char (c : N) : bool := lower_alnum c || bool_decide (c ∈ [95; 46; 58; 45]%N).
Definition action_ok (s : pystr) : bool :=
  (length s <=? 255)%nat && (match s with c :: rest => in_range 97 122 c && forallb action_char rest | [] => false end).
Definition chars_between (lo hi : N) (s : pystr) : bool := (lo <=? N.of_nat (length s))%N && (N.of_nat (length s) <=? hi)%N.

(** What [json.dumps(...).encode("utf-8")] and [FrozenJsonObject] accept: finite
    numbers, integers within the digit limit and text without surrogates *)
Fixpoint encodable (j : json) : bool :=
  match j with
  | JInt z => int_limit (py (pretty z))
  | JNumber s => negb (bool_decide (s ∈ [py "inf"; py "-inf"]))
  | JString s => scalar_text s
  | JArray l => forallb encodable l
  | JObject l => forallb (λ kv, scalar_text kv.1 && encodable kv.2) l
  | _ => true
  end.

Section Files.
Context `{Wire}.

Definition validate_audit_entry (e : AuditEntry) : result AuditEntry :=
  subject ← identifier_string (au_subject e);
  _ ← ensure (chars_between 1 4096 (au_resource e)) (ValidationError "resource");
  _ ← ensure (action_ok (au_action e)) (ValidationError "action");
  _ ← ensure (chars_between 1 255 (au_request_id e)) (ValidationError "request_id");
  _ ← ensure (scalar_text subject && scalar_text (au_resource e) && scalar_text (au_request_id e)) (ValidationError "string_unicode");
  _ ← ensure (is_json_object (au_details e) && encodable (au_details e)) (ValidationError "details");
  let e := mkAuditRecord (au_id e) (au_tenant_id e) subject (au_method e) (au_resource e) (au_action e) (au_request_id e)
             (au_details e) (au_occurred_at e) in
  _ ← ensure (utf8_len (_canonical_json (au_details e)) <=? MAX_AUDIT_DETAILS_BYTES)%N
        (ValidationError "serialized audit details exceed the 1000000-byte limit");
  _ ← ensure (entry_size e <=? MAX_AUDIT_ENTRY_BYTES)%N (ValidationError "serialized audit entry exceeds the 1 MiB limit");
  Ok e.

Definition _audit_entry (row : AuditRecord) : result AuditEntry := validate_audit_entry row.

Definition method_text (m : AuditMethod) : pystr :=
  match m with POST => py "POST" | PUT => py "PUT" | PATCH => py "PATCH" | DELETE => py "DELETE" end.
Definition parse_method (s : pystr) : option AuditMethod :=
  if bool_decide (s = py "POST") then Some POST else if bool_decide (s = py "PUT") then Some PUT
  else if bool_decide (s = py "PATCH") then Some PATCH else if bool_decide (s = py "DELETE") then Some DELETE else None.

(** [entry.model_dump(mode="json")] *)
Definition entry_json (e : AuditEntry) : json :=
  JObject [(py "action", JString (au_action e)); (py "details", au_details e); (py "id", JString (uuid_text (au_id e)));
           (py "method", JString (method_text (au_method e))); (py "occurred_at", JString (dump_datetime (au_occurred_at e)));
           (py "request_id", JString (au_request_id e)); (py "resource", JString (au_resource e));
           (py "subject", JString (au_subject e)); (py "tenant_id", JString (uuid_text (au_tenant_id e)))].

(** [AuditExportEntry.model_validate(value)] *)
Definition required_uuid (j : json) (key : string) : result uuid :=
  s ← required_string j key; require (parse_uuid s) (ValidationError key).
Definition entry_of_json (j : json) : result AuditEntry :=
  _ ← closed_object j [py "action"; py "details"; py "id"; py "method"; py "occurred_at"; py "request_id"; py "resource";
                       py "subject"; py "tenant_id"];
  id ← required_uuid j "id";
  tenant_id ← required_uuid j "tenant_id";
  subject ← required_string j "subject";
  method_ ← required_string j "method";
  method_ ← require (parse_method method_) (ValidationError "method");
  resource ← required_string j "resource";
  action ← required_string j "action";
  request_id ← required_string j "request_id";
  occurred_at ← require (json_get j (py "occurred_at") ≫= parse_datetime) (ValidationError "occurred_at");
  occurred_at ← normalize_timestamp occurred_at;
  validate_audit_entry (mkAuditRecord id tenant_id subject method_ resource action request_id
    (default (JObject []) (json_get j (py "details"))) occurred_at).

(** ** Lines *)

(** [_timestamp]: the offset +00:00 is written as Z. *)
Definition _timestamp (t : timestamp) : pystr := iso_local t ++ py "Z".
Definition optional_timestamp (t : option timestamp) : json :=
  match t with Some t => JString (_timestamp t) | None => JNull end.

Definition header_json (tenant_id export_id : uuid) (cutoff_at : timestamp) : json :=
  JObject [(py "cutoff_at", JString (_timestamp cutoff_at)); (py "export_id", JString (uuid_text export_id));
           (py "tenant_id", JString (uuid_text tenant_id)); (py "type", JString _AUDIT_HEADER_TYPE)].
Definition entry_line (e : AuditEntry) : json :=
  JObject [(py "entry", entry_json e); (py "type", JString _AUDIT_ENTRY_TYPE)].
Definition trailer_json (count : Z) (first last : option timestamp) : json :=
  JObject [(py "first_occurred_at", optional_timestamp first); (py "last_occurred_at", optional_timestamp last);
           (py "record_count", JInt count); (py "type", JString _AUDIT_TRAILER_TYPE)].

(** The order of the keys [(occurred_at, id)] *)
Definition key_le (a b : timestamp * uuid) : bool := (a.1 <? b.1)%Z || ((a.1 =? b.1)%Z && (a.2 <=? b.2)%N).
Definition entry_key (e : AuditEntry) : timestamp * uuid := (au_occurred_at e, au_id e).

(** ** Pages of the audit log *)

Definition after_cursor (cursor : option (timestamp * uuid)) (row : AuditRecord) : bool :=
  match cursor with Some c => negb (key_le (entry_key row) c) | None => true end.
Definition row_le (a b : AuditRecord) : Prop := key_le (entry_key a) (entry_key b) = true.
#[global] Instance row_le_dec : RelDecision row_le.
Proof. intros a b. unfold row_le. apply _. Defined.
Definition in_scope (tenant_id : uuid) (cutoff_at : timestamp) (row : AuditRecord) : bool :=
  bool_decide (au_tenant_id row = tenant_id) && (au_occurred_at row <=? cutoff_at)%Z.

(** One SELECT of [iter_audit_entries] *)
Definition audit_page (p : PlatformDb) (tenant_id : uuid) (cutoff_at : timestamp) (cursor : option (timestamp * uuid))
    (batch_size : Z) : list AuditRecord :=
  take (Z.to_nat batch_size) (merge_sort row_le
    (select_where (λ row, in_scope tenant_id cutoff_at row && after_cursor cursor row) (audit_log p))).

(** ** The writer *)

(** [_AuditWriter]; the bytes of the file stand for the descriptor. *)
Record AuditWriter := mkAuditWriter {
  aw_tenant_id : uuid;
  aw_export_id : uuid;
  aw_cutoff_at : timestamp;
  aw_maximum_bytes : Z;
  aw_maximum_records : Z;
  aw_file : list N;
  aw_written_bytes : Z;
  aw_last_key : option (timestamp * uuid);
  aw_record_count : Z;
  aw_first_occurred_at : option timestamp;
  aw_last_occurred_at : option timestamp;
  aw_finished : bool;
}.
Definition new_writer (tenant_id export_id : uuid) (cutoff_at : timestamp) (maximum_bytes maximum_records : Z) : AuditWriter :=
  mkAuditWriter tenant_id export_id cutoff_at maximum_bytes maximum_records [] 0 None 0 None None false.

Variable os_write : list N → list N → result Z.

(** [_write_all]: every round writes at least one byte, so the length is fuel
    enough. *)
Fixpoint _write_all (fuel : nat) (file payload : list N) : result (list N) :=
  match payload, fuel with
  | [], _ => Ok file
  | _, O => Err (RuntimeError "fuel")
  | _, S fuel =>
      written ← os_write file payload;
      _ ← ensure (0 <? written)%Z (ValueError "audit export write made no progress");
      _write_all fuel (file ++ take (Z.to_nat written) payload) (drop (Z.to_nat written) payload)
  end.

Definition _write_json (w : AuditWriter) (value : json) : result AuditWriter :=
  _ ← ensure (encodable value) (ValueError "the value cannot be encoded");
  let payload := utf8_encode (_canonical_json value) ++ [10%N] in
  let n := Z.of_nat (length payload) in
  _ ← ensure (aw_written_bytes w + n <=? aw_maximum_bytes w)%Z (DomainOperationError "audit_export_byte_limit" false);
  file ← _write_all (length payload) (aw_file w) payload;
  Ok (mkAuditWriter (aw_tenant_id w) (aw_export_id w) (aw_cutoff_at w) (aw_maximum_bytes w) (aw_maximum_records w) file
        (aw_written_bytes w + n) (aw_last_key w) (aw_record_count w) (aw_first_occurred_at w) (aw_last_occurred_at w)
        (aw_finished w)).

Definition write_header (w : AuditWriter) : result AuditWriter :=
  _write_json w (header_json (aw_tenant_id w) (aw_export_id w) (aw_cutoff_at w)).

Definition write_entry (w : AuditWriter) (entry : AuditEntry) : result AuditWriter :=
  _ ← ensure (bool_decide (au_tenant_id entry = aw_tenant_id w) && (au_occurred_at entry <=? aw_cutoff_at w)%Z)
        (DomainOperationError "audit_export_protocol_error" false);
  _ ← ensure (match aw_last_key w with Some k => negb (key_le (entry_key entry) k) | None => true end)
        (DomainOperationError "audit_export_protocol_error" false);
  _ ← ensure (aw_record_count w <? aw_maximum_records w)%Z (DomainOperationError "audit_export_record_limit" false);
  w ← _write_json w (entry_line entry);
  Ok (mkAuditWriter (aw_tenant_id w) (aw_export_id w) (aw_cutoff_at w) (aw_maximum_bytes w) (aw_maximum_records w) (aw_file w)
        (aw_written_bytes w) (Some (entry_key entry)) (aw_record_count w + 1)
        (match aw_first_occurred_at w with Some t => Some t | None => Some (au_occurred_at entry) end)
        (Some (au_occurred_at entry)) (aw_finished w)).
Definition write_entries (w : AuditWriter) (entries : list AuditEntry) : result AuditWriter := foldM write_entry w entries.

Definition finish (w : AuditWriter) : result AuditWriter :=
  _ ← ensure (negb (aw_finished w)) (RuntimeError "audit export writer is already finished");
  w ← _write_json w (trailer_json (aw_record_count w) (aw_first_occurred_at w) (aw_last_occurred_at w));
  Ok (mkAuditWriter (aw_tenant_id w) (aw_export_id w) (aw_cutoff_at w) (aw_maximum_bytes w) (aw_maximum_records w) (aw_file w)
        (aw_written_bytes w) (aw_last_key w) (aw_record_count w) (aw_first_occurred_at w) (aw_last_occurred_at w) true).

(** ** The check of a file *)

(** [source.readline(limit)]: up to and with the next line feed, at most [limit]
    bytes *)
Fixpoint readline (limit : N) (bs : list N) : list N * list N :=
  match bs with
  | [] => ([], [])
  | b :: rest =>
      if (limit =? 0)%N then ([], bs)
      else if (b =? 10)%N then ([b], rest)
      else let '(line, rest') := readline (limit - 1) rest in (b :: line, rest')
  end.

Definition _invalid_export : error := DomainOperationError "audit_export_invalid" false.

Definition _json_object (payload : list N) : result json :=
  value ← require (json_loads_bytes float_text payload) _invalid_export;
  _ ← ensure (is_json_object value) _invalid_export;
  Ok value.

(** [==] of a JSON value and an integer up to 10^7 or [None]: Python compares booleans
    and floats with integers by value *)
Definition equals_count (j : json) (count : option Z) : bool :=
  match j, count with
  | JNull, None => true
  | JInt z, Some n => (z =? n)%Z
  | JBool b, Some n => (Z.b2z b =? n)%Z
  | JNumber s, Some n => bool_decide (s = py (pretty n) ++ py ".0") || ((n =? 0)%Z && bool_decide (s = py "-0.0"))
  | _, _ => false
  end.
Definition trailer_matches (value : json) (count : option Z) (first last : option timestamp) : bool :=
  match value with
  | JObject [(k1, v1); (k2, v2); (k3, v3); (k4, v4)] =>
      bool_decide (k1 = py "first_occurred_at") && bool_decide (v1 = optional_timestamp first)
      && bool_decide (k2 = py "last_occurred_at") && bool_decide (v2 = optional_timestamp last)
      && bool_decide (k3 = py "record_count") && equals_count v3 count
      && bool_decide (k4 = py "type") && bool_decide (v4 = JString _AUDIT_TRAILER_TYPE)
  | _ => false
  end.
Definition has_keys (value : json) (keys : list pystr) : bool :=
  match value with JObject fields => bool_decide (fields.*1 = keys) | _ => false end.

(** The variables of the loop; the digest is the bytes it has seen. *)
Record VerifyState := mkVerifyState {
  vs_observed : Z;
  vs_digest : list N;
  vs_header_seen : bool;
  vs_trailer_seen : bool;
  vs_first : option timestamp;
  vs_last : option timestamp;
  vs_last_key : option (timestamp * uuid);
  vs_record_count : Z;
}.

Definition verify_entry (export : AuditExport) (s : VerifyState) (value : json) : result VerifyState :=
  _ ← ensure (bool_decide (json_get value (py "type") = Some (JString _AUDIT_ENTRY_TYPE)) && has_keys value [py "entry"; py "type"])
        _invalid_export;
  entry ← (match json_get value (py "entry") with
           | Some j => match entry_of_json j with Ok e => Ok e | Err _ => Err _invalid_export end
           | None => Err _invalid_export
           end);
  _ ← ensure (bool_decide (au_tenant_id entry = axp_tenant_id export) && (au_occurred_at entry <=? axp_cutoff_at export)%Z)
        _invalid_export;
  _ ← ensure (match vs_last_key s with Some k => negb (key_le (entry_key entry) k) | None => true end) _invalid_export;
  Ok (mkVerifyState (vs_observed s) (vs_digest s) (vs_header_seen s) (vs_trailer_seen s)
        (match vs_first s with Some t => Some t | None => Some (au_occurred_at entry) end) (Some (au_occurred_at entry))
        (Some (entry_key entry)) (vs_record_count s + 1)).

(** [observed += len(raw_line)] and [digest.update(raw_line)] *)
Definition observe_line (s : VerifyState) (raw_line : list N) : VerifyState :=
  mkVerifyState (vs_observed s + Z.of_nat (length raw_line)) (vs_digest s ++ raw_line) (vs_header_seen s) (vs_trailer_seen s)
    (vs_first s) (vs_last s) (vs_last_key s) (vs_record_count s).
Definition see_header (s : VerifyState) : VerifyState :=
  mkVerifyState (vs_observed s) (vs_digest s) true (vs_trailer_seen s) (vs_first s) (vs_last s) (vs_last_key s) (vs_record_count s).
Definition see_trailer (s : VerifyState) : VerifyState :=
  mkVerifyState (vs_observed s) (vs_digest s) (vs_header_seen s) true (vs_first s) (vs_last s) (vs_last_key s) (vs_record_count s).

Definition verify_line (export : AuditExport) (s : VerifyState) (raw_line : list N) : result VerifyState :=
  let s := observe_line s raw_line in
  _ ← ensure ((N.of_nat (length raw_line) <=? _MAX_AUDIT_LINE_BYTES)%N && (vs_observed s <=? MAX_AUDIT_EXPORT_BYTES)%Z
              && bool_decide (last raw_line = Some 10%N)) _invalid_export;
  value ← _json_object raw_line;
  if negb (vs_header_seen s) then
    _ ← ensure (bool_decide (value = header_json (axp_tenant_id export) (axp_id export) (axp_cutoff_at export))) _invalid_export;
    Ok (see_header s)
  else
    _ ← ensure (negb (vs_trailer_seen s)) _invalid_export;
    if bool_decide (json_get value (py "type") = Some (JString _AUDIT_TRAILER_TYPE)) then
      _ ← ensure (trailer_matches value (axp_record_count export) (axp_first_occurred_at export) (axp_last_occurred_at export))
            _invalid_export;
      Ok (see_trailer s)
    else verify_entry export s value.

(** Every line but the end of the file has a byte, so the length is fuel enough. *)
Fixpoint verify_lines (fuel : nat) (export : AuditExport) (s : VerifyState) (bs : list N) : result VerifyState :=
  match fuel with
  | O => Err (RuntimeError "fuel")
  | S fuel =>
      match readline (_MAX_AUDIT_LINE_BYTES + 1) bs with
      | ([], _) => Ok s
      | (raw_line, rest) => s ← verify_line export s raw_line; verify_lines fuel export s rest
      end
  end.

(** The file is a symbolic link or not, a regular file or not, with its content. *)
Definition verify_audit_export_file (is_symlink is_regular : bool) (content : list N) (export : AuditExport) : result unit :=
  object ← (match axp_status export, axp_object export with
            | EXPORT_COMPLETED, Some o => Ok o
            | _, _ => Err (ValueError "only completed audit exports can be verified")
            end);
  _ ← ensure (negb is_symlink) _invalid_export;
  let size := Z.of_nat (length content) in
  _ ← ensure (is_regular && (size =? so_size_bytes object)%Z) _invalid_export;
  s ← verify_lines (S (length content)) export (mkVerifyState 0 [] false false None None None 0) content;
  ensure (vs_header_seen s && vs_trailer_seen s && (vs_observed s =? size)%Z
          && bool_decide (sha256 (vs_digest s) = so_sha256 object)
          && bool_decide (Some (vs_record_count s) = axp_record_count export)
          && bool_decide (vs_first s = axp_first_occurred_at export)
          && bool_decide (vs_last s = axp_last_occurred_at export)) _invalid_export.
End Files.
