(* ===== verification/LifecycleService.v ===== *)
(** * The lifecycle coordinators

    [AuditExportService], [TenantDeletionService] and [ObjectDeletionWorker] of
    [agent_core/lifecycle_service.py], on a world of the database and the object
    store.  A call of the repository is one transaction; before and after it [pause]
    is what others do at an await: it may change the world and it may raise, a
    cancellation or the failure of a temporary file.  The temporary file itself is
    the writer's own bytes.  The object store is an interface; [clock],
    [database_now], the rows other claims hold locked and the fresh tokens are read
    off the world. *)

From stdpp Require Import base list sets gmap strings sorting.
From Stdlib Require Import ZArith NArith Lia.
From S2P Require Import Prelude PyBase Domain Tables Contracts Execution Transcripts Recovery TaskPlans PyText JsonText PyFormats PyEffects LifecycleTables DataLifecycle AuditExports.
Import LifecycleRepository.

Record World := mkWorld {
  wd_db : PlatformDb;
  wd_objects : gmap pystr (list N);
  wd_tick : nat;
}.
Definition set_db (w : World) (p : PlatformDb) : World := mkWorld p (wd_objects w) (wd_tick w).

(** The part of [ObjectStore] the coordinators use; an upload hands over the content
    of its file, a download the content it wrote. *)
Class ObjectStore := {
  upload_from_path : pystr → list N → pystr → Z → eff World StoredObject;
  download_to_path : pystr → Z → pystr → eff World (list N);
  delete_object : pystr → eff World unit;
}.

(** What the store promises: objects are immutable, an upload that returns has stored
    the content and describes it, a download that returns has the content with the
    expected checksum, and a deletion that returns has removed the object.  A call
    that raises may have had its effect. *)
Class ObjectStoreLaws `{ObjectStore} `{Wire} : Prop := {
  upload_stores k c ty m w o w' : upload_from_path k c ty m w = (Ret o, w') →
    wd_objects w' !! k = Some c ∧ so_object_key o = k ∧ so_sha256 o = sha256 c ∧ so_size_bytes o = Z.of_nat (length c);
  upload_keeps k c ty m w : let w' := (upload_from_path k c ty m w).2 in
    wd_db w' = wd_db w ∧ (∀ k', k' ≠ k → wd_objects w' !! k' = wd_objects w !! k');
  download_reads k m h w c w' : download_to_path k m h w = (Ret c, w') → wd_objects w !! k = Some c ∧ sha256 c = h;
  download_keeps k m h w : let w' := (download_to_path k m h w).2 in wd_db w' = wd_db w ∧ wd_objects w' = wd_objects w;
  delete_removes k w w' : delete_object k w = (Ret tt, w') → wd_objects w' !! k = None;
  delete_keeps k w : let w' := (delete_object k w).2 in
    wd_db w' = wd_db w ∧ (∀ k', k' ≠ k → wd_objects w' !! k' = wd_objects w !! k') ∧
    (wd_objects w !! k = None → wd_objects w' !! k = None);
}.

Record LifecycleServiceConfig := mkServiceConfig {
  audit_batch_size : Z;
  audit_max_records : Z;
  audit_max_bytes : Z;
  deletion_batch_size : Z;
  deletion_lease_seconds : Z;
  deletion_cooling_off_seconds : Z;
}.
Definition service_config_ok (c : LifecycleServiceConfig) : bool :=
  (1 <=? audit_batch_size c)%Z && (audit_batch_size c <=? 1000)%Z
  && (1 <=? audit_max_records c)%Z && (audit_max_records c <=? MAX_AUDIT_EXPORT_RECORDS)%Z
  && (1 <=? audit_max_bytes c)%Z && (audit_max_bytes c <=? MAX_AUDIT_EXPORT_BYTES)%Z
  && (1 <=? deletion_batch_size c)%Z && (deletion_batch_size c <=? 1000)%Z
  && (1 <=? deletion_lease_seconds c)%Z && (deletion_lease_seconds c <=? 300)%Z
  && (0 <=? deletion_cooling_off_seconds c)%Z && (deletion_cooling_off_seconds c <=? 31536000)%Z.

Definition tenant_audit_export_object_key (tenant_id export_id : uuid) : pystr :=
  py "compliance/tenants/" ++ uuid_hex tenant_id ++ py "/audit/" ++ uuid_hex export_id ++ py ".jsonl".

Record LifecycleBatchResult := mkBatchResult {
  br_claimed : Z;
  br_completed : Z;
  br_failed : Z;
}.
Definition validate_batch_result (r : LifecycleBatchResult) : result LifecycleBatchResult :=
  _ ← ensure ((0 <=? br_claimed r)%Z && (br_claimed r <=? MAX_LIFECYCLE_BATCH_SIZE)%Z
              && (0 <=? br_completed r)%Z && (br_completed r <=? MAX_LIFECYCLE_BATCH_SIZE)%Z
              && (0 <=? br_failed r)%Z && (br_failed r <=? MAX_LIFECYCLE_BATCH_SIZE)%Z) (ValidationError "count");
  _ ← ensure (br_completed r + br_failed r <=? br_claimed r)%Z (ValidationError "lifecycle outcomes may not exceed claimed jobs");
  Ok r.

Section Services.
Context `{Wire} `{ObjectStore}.
Variable message : string → pystr.
Variable pause : eff World unit.
Variable clock database_now : World → timestamp.
Variable locked : World → gset uuid.
Variable token : World → uuid → uuid.
Variable os_write : list N → list N → result Z.
Variable uuid5 : pystr → uuid.
Variable config : LifecycleServiceConfig.

Definition exn_of (e : error) : exn :=
  match e with
  | DomainOperationError code retryable => DomainExn (mkErrorDetail (py code) (message code) retryable (JObject []))
  | _ => OtherExn
  end.
Definition lift {A} (r : result A) : eff World A := λ w,
  match r with Ok a => (Ret a, w) | Err e => (Raise (exn_of e), w) end.
Definition commit_ {A} (f : World → PlatformDb → result (A * PlatformDb)) : eff World A := λ w,
  match f w (wd_db w) with
  | Ok (a, p) => (Ret a, set_db w p)
  | Err e => (Raise (exn_of e), w)
  end.
(** A repository call: one transaction between two awaits *)
Definition transaction {A} (f : World → PlatformDb → result (A * PlatformDb)) : eff World A :=
  _ ← pause; a ← commit_ f; _ ← pause; mret a.
Definition query {A} (f : PlatformDb → result A) : eff World A := transaction (λ _ p, a ← f p; Ok (a, p)).

(** ** Audit exports *)

(** [iter_audit_entries], with the body of the [async for] over its batches *)
Fixpoint iter_pages {S} (fuel : nat) (tenant_id : uuid) (cutoff_at : timestamp) (batch_size : Z)
    (consume : S → list AuditEntry → eff World S) (cursor : option (timestamp * uuid)) (s : S) : eff World S :=
  match fuel with
  | O => raise OtherExn
  | Datatypes.S fuel =>
      rows ← query (λ p, Ok (audit_page p tenant_id cutoff_at cursor batch_size));
      match last rows with
      | None => mret s
      | Some row =>
          entries ← lift (traverse _audit_entry rows);
          s ← consume s entries;
          iter_pages fuel tenant_id cutoff_at batch_size consume (Some (entry_key row)) s
      end
  end.
Definition iter_audit_entries {S} (fuel : nat) (tenant_id : uuid) (cutoff_at : timestamp) (batch_size : Z)
    (consume : S → list AuditEntry → eff World S) (s : S) : eff World S :=
  _ ← lift (_batch_size batch_size);
  iter_pages fuel tenant_id cutoff_at batch_size consume None s.

(** A call in a thread *)
Definition to_thread {A} (r : result A) : eff World A := _ ← pause; a ← lift r; _ ← pause; mret a.

(** Every page but the last adds a record, and the writer stops at its limit. *)
Definition export_fuel : nat := 2 + Z.to_nat (audit_max_records config).

Definition audit_export_failed : ErrorDetail :=
  mkErrorDetail (py "audit_export_failed") (py "the audit export could not be completed") true (JObject []).

(** The body of the [try] *)
Definition write_export (tenant_id export_id : uuid) (requested_by : pystr) (cutoff : timestamp) : eff World AuditExport :=
  _ ← pause;
  w ← to_thread (write_header os_write (new_writer tenant_id export_id cutoff (audit_max_bytes config) (audit_max_records config)));
  w ← iter_audit_entries export_fuel tenant_id cutoff (audit_batch_size config)
        (λ w batch, to_thread (write_entries os_write w batch)) w;
  w ← to_thread (finish os_write w);
  _ ← pause;
  stored ← upload_from_path (tenant_audit_export_object_key tenant_id export_id) (aw_file w) _AUDIT_EXPORT_CONTENT_TYPE
             (audit_max_bytes config);
  _ ← pause;
  now ← gets clock;
  completed ← lift (validate_audit_export (mkAuditExport export_id tenant_id EXPORT_COMPLETED requested_by cutoff cutoff
    (Some stored) (Some (aw_record_count w)) (aw_first_occurred_at w) (aw_last_occurred_at w) (Some now) None));
  transaction (λ _ p, complete_audit_export p completed).

Definition fail_export (tenant_id export_id : uuid) (x : exn) : eff World AuditExport :=
  match x with
  | CancelledExn => raise CancelledExn
  | DomainExn d =>
      _ ← (if detail_retryable d then mret tt
           else _ ← transaction (λ _ p, fail_audit_export p export_id tenant_id d); mret tt);
      raise (DomainExn d)
  | _ => raise (DomainExn audit_export_failed)
  end.

Definition audit_export_error (code : string) : exn := exn_of (DomainOperationError code false).

Definition export (tenant_id export_id : uuid) (requested_by : pystr) (cutoff_at : option timestamp) : eff World AuditExport :=
  existing ← query (λ p, get_audit_export p tenant_id export_id);
  found ← (match existing with
           | Some e =>
               if negb (bool_decide (axp_requested_by e = requested_by))
                  || (match cutoff_at with Some c => negb (axp_cutoff_at e =? c)%Z | None => false end)
               then raise (audit_export_error "audit_export_conflict")
               else match axp_status e with
                    | EXPORT_COMPLETED => mret (inl e)
                    | EXPORT_FAILED => raise (audit_export_error "audit_export_terminal")
                    | EXPORT_PENDING => mret (inr (axp_cutoff_at e))
                    end
           | None => match cutoff_at with Some c => mret (inr c) | None => now ← gets clock; mret (inr now) end
           end);
  match found with
  | inl e => mret e
  | inr cutoff =>
      pending ← lift (validate_audit_export (mkAuditExport export_id tenant_id EXPORT_PENDING requested_by cutoff cutoff
                        None None None None None None));
      current ← transaction (λ _ p, create_audit_export p pending);
      match axp_status current with
      | EXPORT_COMPLETED => mret current
      | EXPORT_FAILED => raise (audit_export_error "audit_export_terminal")
      | EXPORT_PENDING =>
          _ ← pause;
          catch (write_export tenant_id export_id requested_by cutoff) (fail_export tenant_id export_id)
      end
  end.

Definition verify (e : AuditExport) : eff World unit :=
  match axp_status e, axp_object e with
  | EXPORT_COMPLETED, Some o =>
      _ ← pause;
      content ← download_to_path (so_object_key o) (audit_max_bytes config) (so_sha256 o);
      to_thread (verify_audit_export_file false true content e)
  | _, _ => raise OtherExn
  end.

(** ** Tenant deletion *)

(** The request of a tenant that is active *)
Definition request_fresh (tenant_id request_id export_id : uuid) (requested_by : pystr) : eff World (TenantLifecycle * AuditExport) :=
  e ← export tenant_id export_id requested_by None;
  _ ← verify e;
  l ← transaction (λ _ p, request_tenant_deletion uuid5 uuid_text isoformat p tenant_id request_id requested_by
         (axp_cutoff_at e) (axp_cutoff_at e + seconds (deletion_cooling_off_seconds config)) export_id);
  mret (l, e).
Definition request (tenant_id request_id export_id : uuid) (requested_by : pystr) : eff World (TenantLifecycle * AuditExport) :=
  existing ← query (λ p, get_tenant_lifecycle p tenant_id);
  match existing with
  | Some l =>
      if bool_decide (tl_status l = TENANT_ACTIVE) then request_fresh tenant_id request_id export_id requested_by
      else if negb (bool_decide (tl_request_id l = Some request_id)) || negb (bool_decide (tl_audit_export_id l = Some export_id))
              || negb (bool_decide (tl_requested_by l = Some requested_by))
      then raise (audit_export_error "tenant_deletion_conflict")
      else
        found ← query (λ p, get_audit_export p tenant_id export_id);
        match found with
        | None => raise (audit_export_error "audit_export_required")
        | Some e => _ ← verify e; mret (l, e)
        end
  | None => request_fresh tenant_id request_id export_id requested_by
  end.

Definition prepare (tenant_id : uuid) : eff World (TenantLifecycle * Z) :=
  occurred_at ← gets clock;
  lifecycle ← transaction (λ _ p, begin_tenant_deletion p tenant_id occurred_at);
  enqueued ← transaction (λ w p, enqueue_tenant_objects uuid5 p tenant_id (deletion_batch_size config) (database_now w));
  mret (lifecycle, enqueued).

Definition finalize (tenant_id : uuid) : eff World TenantLifecycle :=
  occurred_at ← gets clock;
  transaction (λ _ p, finalize_tenant_deletion p tenant_id occurred_at).

(** ** The deletion worker *)

Definition object_deletion_failed : ErrorDetail :=
  mkErrorDetail (py "object_deletion_failed") (py "object storage deletion failed") true (JObject []).

(** [ObjectDeletionWorker.__init__] *)
Definition new_worker (worker_id : pystr) : result pystr := _ ← _worker_id worker_id; Ok worker_id.

(** The deletion of one object: [None], or the error to record *)
Definition delete_leased (lease : ObjectDeletionLease) : eff World (option ErrorDetail) :=
  catch (_ ← pause; _ ← delete_object (dl_object_key lease); _ ← pause; mret None)
    (λ x, match x with
          | CancelledExn => raise CancelledExn
          | DomainExn d => mret (Some d)
          | _ => mret (Some object_deletion_failed)
          end).

Fixpoint run_leases (leases : list ObjectDeletionLease) (completed failed : Z) : eff World (Z * Z) :=
  match leases with
  | [] => mret (completed, failed)
  | lease :: rest =>
      outcome ← delete_leased lease;
      match outcome with
      | Some d =>
          occurred_at ← gets clock;
          _ ← transaction (λ w p, fail_object_deletion p lease d occurred_at (database_now w));
          run_leases rest completed (failed + 1)
      | None =>
          _ ← transaction (λ w p, complete_object_deletion p lease (database_now w));
          run_leases rest (completed + 1) failed
      end
  end.

Definition run_batch (worker_id : pystr) : eff World LifecycleBatchResult :=
  occurred_at ← gets clock;
  leases ← transaction (λ w p, claim_object_deletions p worker_id occurred_at (deletion_lease_seconds config)
             (deletion_batch_size config) (locked w) (token w));
  '(completed, failed) ← run_leases leases 0 0;
  lift (validate_batch_result (mkBatchResult (Z.of_nat (length leases)) completed failed)).
End Services.
