(* ===== verification/GatewayClient.v ===== *)
(** * The gateway client

    [gateway_client/client.py]: one logical model request is claimed, admitted by the
    rate limiter, the local slots, the capacity store and the circuit breaker, executed
    with retries, committed, attributed and streamed to its consumer; a completed
    request is replayed instead.

    The generators are computations that keep what was yielded in the state.  A consumer
    may stop at any yield, and cancellation may arrive at any await: the environment says
    when ([ce_interrupted], or a [CancelledExn] of a call).  [GeneratorExit] and
    [CancelledError] are one exception here; the code treats them alike but for a lost
    capacity lease.  The heartbeat task is seen where the code looks at it: the
    environment says which lease it holds by then and how it fared.  Around a shielded
    operation the environment says how often the caller is cancelled ([ce_shield]).
    Telemetry is left out. *)

From stdpp Require Import base list sets gmap strings.
From Stdlib Require Import ZArith QArith Qminmax Lia.
From S2P Require Import Prelude PyBase Domain Tables Contracts Transcripts Execution Recovery TaskPlans PyText Gateway Redaction AgentEvents PyEffects ToolTurn ModelTurn RunRepository GatewayPolicies.

#[local] Open Scope nat_scope.

Abbreviation CapacityLease := CapacityStore.GatewayCapacityLease.
Abbreviation CapacityClaim := CapacityStore.GatewayCapacityClaim.
Abbreviation RequestClaim := (@RequestStore.Claim GatewayEvent ErrorDetail).

(** ** Configuration *)

Record GatewayClientConfig := mkClientConfig {
  cf_route_names : list pystr;
  cf_max_request_bytes : Z;
  cf_max_stream_events : Z;
  cf_max_stream_bytes : Z;
  cf_max_attempts : nat;
  cf_retry_base_delay : Q;
  cf_retry_max_delay : Q;
  cf_retry_jitter_ratio : Q;
  cf_output_token_reservation : Z;
  cf_capacity_lease : timedelta;
  cf_capacity_heartbeat : timedelta;
}.

(** The bounds of the fields used here, and [validate_configuration] *)
Definition client_config_ok (c : GatewayClientConfig) : bool :=
  (1 <=? length (cf_route_names c))%nat && (length (cf_route_names c) <=? 100)%nat
  && bool_decide (NoDup (cf_route_names c))
  && (1 <=? cf_max_attempts c)%nat && (cf_max_attempts c <=? 10)%nat
  && Qle_bool (cf_retry_base_delay c) (cf_retry_max_delay c)
  && Qle_bool 0 (cf_retry_jitter_ratio c) && Qle_bool (cf_retry_jitter_ratio c) 1
  && (cf_capacity_heartbeat c <? cf_capacity_lease c)%Z.

(** Prices in 10^-10 USD per million tokens *)
Record RoutePrice := mkPrice {
  pc_input : Z;
  pc_output : Z;
  pc_cached_input : Z;
}.

(** [ConfiguredCostCalculator.calculate], in 10^-16 USD *)
Definition calculate (price : RoutePrice) (event : GatewayResponseCompleted) : Z :=
  let uncached := Z.max 0 (rc_input_tokens event - rc_cached_tokens event) in
  (uncached * pc_input price + rc_cached_tokens event * pc_cached_input price + rc_output_tokens event * pc_output price)%Z.

(** The copy with the cost is validated: at most ten decimals. *)
Definition with_cost (event : GatewayResponseCompleted) (cost : Z) : result GatewayResponseCompleted :=
  _ ← ensure (cost mod 1000000 =? 0)%Z (ValidationError "estimated_cost_usd");
  validate_completed (mkCompleted (rc_finish_reason event) (rc_input_tokens event) (rc_output_tokens event)
    (rc_cached_tokens event) (Some (cost / 1000000)%Z) (rc_provider event) (rc_model event)).

(** ** Environment and state *)

(** What happens while a shielded operation is awaited: nothing, one cancellation, after
    which the code waits for the operation, or two, where the second one cancels the
    operation itself, which has taken effect by then or not. *)
Inductive Shield := Undisturbed | CancelledOnce | CancelledTwice (applied : bool).

(** The heartbeat task: it renews, it has lost the lease and cancelled the stream, it was
    stopped, or its sleep has raised *)
Inductive Heartbeat := HB_RUNNING | HB_LOST | HB_STOPPED | HB_CRASHED.

(** The attribution of a completed call ([ModelCall]) *)
Record ModelCallRecord := mkModelCallRecord {
  ml_request : GatewayRequest;
  ml_event : GatewayResponseCompleted;
  ml_retry_count : Z;
  ml_at : timestamp;
}.

Record ClientEnvironment (W : Type) := mkClientEnvironment {
  ce_requests : RequestStore.Operations (GatewayEvent := GatewayEvent) (ErrorValue := ErrorDetail) W;
  ce_rate : W → uuid → pystr → outcome (option timedelta) * W;
  ce_wait_slot : W → outcome unit * W;
  ce_acquire : W → uuid → pystr → pystr → Z → timedelta → outcome CapacityClaim * W;
  ce_release : W → CapacityLease → Z → outcome unit * W;
  ce_heartbeat : W → CapacityLease → (CapacityLease * Heartbeat) * W;
  ce_allow : W → pystr → outcome bool * W;
  ce_record_success : W → pystr → outcome unit * W;
  ce_record_failure : W → pystr → outcome unit * W;
  ce_gateway : W → GatewayRequest → model_stream * W;
  ce_close : W → outcome unit * W;
  ce_interrupted : W → bool * W;
  ce_shield : W → Shield * W;
  ce_sleep : W → Q → outcome unit * W;
  ce_random : W → Q * W;
  ce_prices : option (pystr → option RoutePrice);
  ce_model_calls : option (W → uuid → ModelCallRecord → outcome unit * W);
  ce_clock : W → timestamp * W;
  ce_close_gateway : option (W → outcome unit * W);
}.
Arguments ce_requests {W}. Arguments ce_rate {W}. Arguments ce_wait_slot {W}. Arguments ce_acquire {W}.
Arguments ce_release {W}. Arguments ce_heartbeat {W}. Arguments ce_allow {W}. Arguments ce_record_success {W}.
Arguments ce_record_failure {W}. Arguments ce_gateway {W}. Arguments ce_close {W}. Arguments ce_interrupted {W}.
Arguments ce_sleep {W}. Arguments ce_random {W}. Arguments ce_prices {W}. Arguments ce_model_calls {W}. Arguments ce_clock {W}.
Arguments ce_close_gateway {W}. Arguments ce_shield {W}.

(** The local variables of [_stream_internal] and [_execute_with_retries] *)
Record Execution := mkExecution {
  ex_provider_contacted : bool;
  ex_completed : bool;
  ex_local_slot : bool;
  ex_capacity : option (CapacityLease * Heartbeat);
  ex_durable_completion : bool;
  ex_stopped : bool;
  ex_attempt_events : list GatewayEvent;
  ex_retained_events : list GatewayEvent;
}.
Definition no_execution : Execution := mkExecution false false false None false false [] [].

Record ClientState (W : Type) := mkClientState {
  gs_world : W;
  gs_free_slots : Z;
  gs_closing : bool;
  gs_cleanup_required : bool;
  gs_closed : bool;
  gs_yielded : list GatewayEvent;
  gs_execution : Execution;
}.
Arguments mkClientState {W}. Arguments gs_world {W}. Arguments gs_free_slots {W}. Arguments gs_closing {W}.
Arguments gs_cleanup_required {W}. Arguments gs_closed {W}. Arguments gs_yielded {W}. Arguments gs_execution {W}.

Section GatewayClient.
Context {W : Type} (env : ClientEnvironment W) (config : GatewayClientConfig).
Variable request_size : GatewayRequest → Z.
Variable request_hash : GatewayRequest → pystr.
Variable event_size : GatewayEvent → Z.
Variable seconds_text : timedelta → pystr.
Variable request : GatewayRequest.

Abbreviation client := (eff (ClientState W)).

Definition call {A} (f : W → outcome A * W) : client A := λ s,
  let '(r, w) := f (gs_world s) in
  (r, mkClientState w (gs_free_slots s) (gs_closing s) (gs_cleanup_required s) (gs_closed s) (gs_yielded s) (gs_execution s)).
Definition read {A} (f : W → A * W) : client A := call (λ w, let '(a, w') := f w in (Ret a, w')).

Definition set_execution (f : Execution → Execution) : client unit := modify (λ s,
  mkClientState (gs_world s) (gs_free_slots s) (gs_closing s) (gs_cleanup_required s) (gs_closed s) (gs_yielded s)
    (f (gs_execution s))).
Definition set_contacted : client unit := set_execution (λ x, mkExecution true (ex_completed x) (ex_local_slot x)
  (ex_capacity x) (ex_durable_completion x) (ex_stopped x) (ex_attempt_events x) (ex_retained_events x)).
Definition set_completed : client unit := set_execution (λ x, mkExecution (ex_provider_contacted x) true (ex_local_slot x)
  (ex_capacity x) (ex_durable_completion x) (ex_stopped x) (ex_attempt_events x) (ex_retained_events x)).
Definition set_capacity (c : option (CapacityLease * Heartbeat)) : client unit := set_execution (λ x,
  mkExecution (ex_provider_contacted x) (ex_completed x) (ex_local_slot x) c (ex_durable_completion x) (ex_stopped x)
    (ex_attempt_events x) (ex_retained_events x)).
Definition set_durable : client unit := set_execution (λ x, mkExecution (ex_provider_contacted x) (ex_completed x)
  (ex_local_slot x) (ex_capacity x) true (ex_stopped x) (ex_attempt_events x) (ex_retained_events x)).
Definition set_stopped : client unit := set_execution (λ x, mkExecution (ex_provider_contacted x) (ex_completed x)
  (ex_local_slot x) (ex_capacity x) (ex_durable_completion x) true (ex_attempt_events x) (ex_retained_events x)).
Definition retain_event (e : GatewayEvent) : client unit := set_execution (λ x, mkExecution (ex_provider_contacted x)
  (ex_completed x) (ex_local_slot x) (ex_capacity x) (ex_durable_completion x) (ex_stopped x)
  (ex_attempt_events x ++ [e]) (ex_retained_events x ++ [e])).
Definition new_attempt : client unit := set_execution (λ x, mkExecution (ex_provider_contacted x)
  (ex_completed x) (ex_local_slot x) (ex_capacity x) (ex_durable_completion x) (ex_stopped x) [] (ex_retained_events x)).
Definition require_cleanup : client unit := modify (λ s,
  mkClientState (gs_world s) (gs_free_slots s) (gs_closing s) true (gs_closed s) (gs_yielded s) (gs_execution s)).

(** The local slot: [local_slot] is true while this stream holds one. *)
Definition slot_change (taken : bool) : client unit := modify (λ s,
  let x := gs_execution s in
  mkClientState (gs_world s) (if taken then gs_free_slots s - 1 else gs_free_slots s + 1)%Z (gs_closing s)
    (gs_cleanup_required s) (gs_closed s) (gs_yielded s)
    (mkExecution (ex_provider_contacted x) (ex_completed x) taken (ex_capacity x) (ex_durable_completion x) (ex_stopped x)
       (ex_attempt_events x) (ex_retained_events x))).
Definition release_slot : client unit :=
  held ← gets (λ s, ex_local_slot (gs_execution s));
  if held : bool then slot_change false else mret tt.

(** A yield: the consumer may stop there. *)
Definition yield_event (e : GatewayEvent) : client unit :=
  _ ← modify (λ s, mkClientState (gs_world s) (gs_free_slots s) (gs_closing s) (gs_cleanup_required s) (gs_closed s)
                     (gs_yielded s ++ [e]) (gs_execution s));
  stop ← read (ce_interrupted env);
  if stop : bool then _ ← set_stopped; raise CancelledExn else mret tt.

(** ** Errors *)

Definition request_details : list (pystr * json) := [(py "request_id", JString (gq_request_id request))].
Definition route_details : list (pystr * json) := [(py "route_name", JString (gq_route_name request))].
Definition gateway_error (code message : string) (retryable : bool) (more : list (pystr * json)) : exn :=
  DomainExn (loop_error code message retryable (JObject (request_details ++ more))).
Definition cleanup_failed : exn := gateway_error "gateway_cleanup_failed" "the gateway stream could not be closed" true [].
Definition invalid_stream (message : string) : exn := gateway_error "invalid_gateway_stream" message false [].
Definition opaque_failure (retryable : bool) : exn :=
  gateway_error "model_gateway_failure" "the model gateway stream failed" retryable [].

(** [except Exception as error: raise ... from error] *)
Definition wrapped {A} (m : client A) (e : exn) : client A :=
  catch m (λ x, match x with CancelledExn => raise CancelledExn | _ => raise e end).

(** [_require_available] *)
Definition _require_available : client unit :=
  closed ← gets gs_closed;
  if closed : bool then raise (gateway_error "gateway_closed" "the gateway client is closed" false []) else
  closing ← gets (λ s, gs_closing s || gs_cleanup_required s);
  if closing : bool
  then raise (gateway_error "gateway_cleanup_required" "the gateway client requires cleanup before reuse" true [])
  else mret tt.

(** [_aclose] *)
Definition _aclose : client unit :=
  closed ← gets gs_closed;
  if closed : bool then mret tt else
  let set_flags closing cleanup closed := modify (λ s,
    mkClientState (gs_world s) (gs_free_slots s) closing cleanup closed (gs_yielded s) (gs_execution s)) in
  cleanup ← gets gs_cleanup_required;
  _ ← set_flags true cleanup false;
  _ ← (match ce_close_gateway env with
       | None => mret tt
       | Some close =>
           catch (call close) (λ x, match x with
             | CancelledExn => raise CancelledExn
             | _ =>
                 _ ← set_flags false true false;
                 raise (DomainExn (loop_error "gateway_cleanup_failed" "the gateway client could not be closed" true (JObject [])))
             end)
       end);
  set_flags false false true.

(** [_validate_request] *)
Definition _validate_request : client unit :=
  if negb (bool_decide (gq_route_name request ∈ cf_route_names config))
  then raise (gateway_error "gateway_route_not_allowed" "the requested model route is not configured" false route_details)
  else if (cf_max_request_bytes config <? request_size request)%Z
  then raise (gateway_error "gateway_request_limit" "the gateway request exceeded its configured byte limit" false
                [(py "limit_bytes", JInt (cf_max_request_bytes config)); (py "request_bytes", JInt (request_size request))])
  else mret tt.

(** ** The request store *)

(** An awaited store call; [Err] is an exception of the store. *)
Definition store_call {A} (f : W → result A * W) : client (result A) := read f.

(** [operation = create_task(...)], [await shield(operation)] and, once cancelled,
    [await operation]: the answer, unless a second cancellation cancels the operation, and
    whether the caller was cancelled *)
Definition shielded {A} (f : W → A * W) : client (option A * bool) :=
  plan ← read (ce_shield env);
  match plan with
  | Undisturbed => a ← read f; mret (Some a, false)
  | CancelledOnce => a ← read f; mret (Some a, true)
  | CancelledTwice true => _ ← read f; mret (None, true)
  | CancelledTwice false => mret (None, true)
  end.

Abbreviation hash := (request_hash request).
Abbreviation tenant := (gq_tenant_id request).
Abbreviation request_id := (gq_request_id request).

(** [_claim_request]; a cancelled await loses the answer of the store. *)
Definition _claim_request : client RequestClaim :=
  r ← store_call (λ w, RequestStore.op_claim (ce_requests env) w tenant request_id hash);
  cancelled ← read (ce_interrupted env);
  if cancelled : bool then raise CancelledExn else
  match r with
  | Ok c => mret c
  | Err _ => raise (gateway_error "gateway_idempotency_unavailable" "the gateway request could not be claimed" true [])
  end.

(** [_complete_request] *)
Definition _complete_request (events : list GatewayEvent) : client unit :=
  '(r, cancelled) ← shielded (λ w, RequestStore.op_complete (ce_requests env) w tenant request_id hash events);
  match r with
  | None => raise CancelledExn
  | Some (Ok _) => _ ← set_durable; if cancelled : bool then raise CancelledExn else mret tt
  | Some (Err _) =>
      if cancelled : bool then _ ← require_cleanup; raise CancelledExn
      else raise (gateway_error "gateway_idempotency_commit_failed" "the gateway response could not be committed" true [])
  end.

(** [_fail_request] and [_release_request]: what the store raises is remembered only. *)
Definition settled_quietly (f : W → result unit * W) : client unit :=
  '(r, cancelled) ← shielded f;
  _ ← (match r with Some (Err _) => require_cleanup | _ => mret tt end);
  if cancelled : bool then raise CancelledExn else mret tt.
Definition aborted : ErrorDetail :=
  loop_error "gateway_request_aborted" "the gateway request did not complete" true (JObject []).
Definition _fail_request : client unit :=
  settled_quietly (λ w, RequestStore.op_fail (ce_requests env) w tenant request_id hash aborted).
Definition _release_request : client unit :=
  settled_quietly (λ w, RequestStore.op_release (ce_requests env) w tenant request_id hash).

(** [_stored_events_or_raise] *)
Definition _stored_events_or_raise (c : RequestClaim) : client (option (list GatewayEvent)) :=
  match RequestStore.cm_status c with
  | RequestStore.COMPLETED => mret (Some (RequestStore.cm_events c))
  | RequestStore.CONFLICT =>
      raise (gateway_error "gateway_request_conflict" "the gateway request ID belongs to a different payload" false [])
  | RequestStore.IN_PROGRESS =>
      raise (gateway_error "gateway_request_in_progress" "the gateway request is already running" true [])
  | RequestStore.FAILED =>
      match RequestStore.cm_error c with
      | None => raise (gateway_error "gateway_idempotency_corrupt" "the stored gateway request state is invalid" true [])
      | Some e => raise (gateway_error "gateway_request_failed" "the gateway request has a stored terminal failure"
                           (detail_retryable e) [])
      end
  | RequestStore.EXECUTE => mret None
  end.

(** ** Admission *)

Definition retry_after_details (t : timedelta) : list (pystr * json) :=
  [(py "retry_after_seconds", JNumber (seconds_text t))].

(** [_enforce_rate_limit] *)
Definition _enforce_rate_limit : client unit :=
  retry_after ← wrapped (call (λ w, ce_rate env w tenant (gq_route_name request)))
    (gateway_error "gateway_rate_limit_unavailable" "the gateway admission policy is unavailable" true []);
  match retry_after with
  | Some t => raise (gateway_error "gateway_rate_limited" "the tenant and model route exceeded their request limit" true
                       (retry_after_details t ++ route_details))
  | None => mret tt
  end.

Definition scope_text (s : CapacityStore.CapacityScope) : pystr :=
  match s with
  | CapacityStore.TENANT_GATEWAY_REQUESTS => py "tenant_gateway_requests"
  | CapacityStore.PROVIDER_REQUESTS => py "provider_requests"
  | CapacityStore.PROVIDER_TOKENS => py "provider_tokens"
  end.

(** [_acquire_capacity] *)
Definition _acquire_capacity : client CapacityLease :=
  claim ← wrapped (call (λ w, ce_acquire env w tenant (gq_route_name request) request_id
                             (request_size request + cf_output_token_reservation config)%Z (cf_capacity_lease config)))
    (gateway_error "gateway_capacity_unavailable" "the gateway capacity policy is unavailable" true []);
  match claim with
  | CapacityStore.Rejected scope t =>
      raise (gateway_error "gateway_capacity_exhausted" "gateway or provider capacity is exhausted" true
               (route_details ++ [(py "scope", JString (scope_text scope))] ++ retry_after_details t))
  | CapacityStore.Granted lease => mret lease
  end.

(** [_release_capacity] *)
Definition _release_capacity (lease : CapacityLease) (consumed_tokens : Z) : client unit :=
  '(r, cancelled) ← shielded (λ w, ce_release env w lease consumed_tokens);
  match r with
  | None => raise CancelledExn
  | Some (Ret _) => if cancelled : bool then raise CancelledExn else mret tt
  | Some (Raise CancelledExn) => raise CancelledExn
  | Some (Raise _) =>
      _ ← require_cleanup;
      if cancelled : bool then raise CancelledExn
      else raise (gateway_error "gateway_capacity_unavailable" "the gateway capacity lease could not be released" true [])
  end.

(** [_valid_capacity_renewal] *)
Definition _valid_capacity_renewal (previous renewed : CapacityLease) : bool :=
  bool_decide (CapacityStore.cl_id renewed = CapacityStore.cl_id previous)
  && bool_decide (CapacityStore.cl_tenant_id renewed = CapacityStore.cl_tenant_id previous)
  && bool_decide (CapacityStore.cl_route_name renewed = CapacityStore.cl_route_name previous)
  && bool_decide (CapacityStore.cl_request_id renewed = CapacityStore.cl_request_id previous)
  && (CapacityStore.cl_reserved_tokens renewed =? CapacityStore.cl_reserved_tokens previous)%Z
  && (CapacityStore.cl_acquired_at renewed =? CapacityStore.cl_acquired_at previous)%Z
  && (CapacityStore.cl_expires_at previous <? CapacityStore.cl_expires_at renewed)%Z.

(** One round of the heartbeat: its sleep raised, or the store answered *)
Inductive Beat := SleepRaised | Renewed (answer : outcome CapacityLease).

(** [_heartbeat_capacity]: the lease after the rounds, and how the task fared; a failed
    renewal cancels the stream *)
Fixpoint _heartbeat_capacity (beats : list Beat) (lease : CapacityLease) : CapacityLease * Heartbeat :=
  match beats with
  | [] => (lease, HB_RUNNING)
  | SleepRaised :: _ => (lease, HB_CRASHED)
  | Renewed (Ret renewed) :: rest =>
      if _valid_capacity_renewal lease renewed then _heartbeat_capacity rest renewed else (lease, HB_LOST)
  | Renewed (Raise CancelledExn) :: _ => (lease, HB_STOPPED)
  | Renewed (Raise _) :: _ => (lease, HB_LOST)
  end.

(** The lease and the heartbeat as they are now *)
Definition observe_heartbeat : client unit :=
  capacity ← gets (λ s, ex_capacity (gs_execution s));
  match capacity with
  | Some (lease, HB_RUNNING) =>
      now_ ← read (λ w, ce_heartbeat env w lease);
      set_capacity (Some now_)
  | _ => mret tt
  end.

(** [_stop_capacity_heartbeat]: awaiting the task raises what its sleep has raised *)
Definition _stop_capacity_heartbeat : client unit :=
  _ ← observe_heartbeat;
  capacity ← gets (λ s, ex_capacity (gs_execution s));
  match capacity with
  | Some (lease, HB_RUNNING) => set_capacity (Some (lease, HB_STOPPED))
  | Some (_, HB_CRASHED) => raise OtherExn
  | _ => mret tt
  end.

(** [_require_closed_circuit] and the records of an attempt *)
Definition circuit_unavailable : exn :=
  gateway_error "gateway_circuit_unavailable" "the gateway route health policy is unavailable" true [].
Definition _require_closed_circuit : client unit :=
  allowed ← wrapped (call (λ w, ce_allow env w (gq_route_name request))) circuit_unavailable;
  if allowed : bool then mret tt
  else raise (gateway_error "gateway_circuit_open" "the model route circuit is open" true route_details).
Definition _record_circuit_success : client unit :=
  wrapped (call (λ w, ce_record_success env w (gq_route_name request))) circuit_unavailable.
Definition _record_circuit_failure : client unit :=
  wrapped (call (λ w, ce_record_failure env w (gq_route_name request))) circuit_unavailable.

(** ** Attempts *)

Definition is_completed (e : GatewayEvent) : bool := match e with ResponseCompleted _ => true | _ => false end.

(** The loop of [_stream_attempt]; [emit] is what its consumer does with an event. *)
Fixpoint consume_stream (emit : GatewayEvent → client unit) (items : list (option GatewayEvent)) (ending : outcome unit)
    (terminal : bool) (event_count stream_bytes : Z) : client bool :=
  match items with
  | [] =>
      match ending with
      | Ret _ => mret terminal
      | Raise CancelledExn => raise CancelledExn
      | Raise (DomainExn d) => raise (opaque_failure (detail_retryable d))
      | Raise _ => raise (opaque_failure true)
      end
  | item :: rest =>
      if terminal then raise (invalid_stream "the gateway emitted data after its terminal event") else
      match parse_gateway_event item with
      | None => raise (invalid_stream "the gateway emitted an invalid normalized event")
      | Some e =>
          let event_count := (event_count + 1)%Z in
          let stream_bytes := (stream_bytes + event_size e)%Z in
          if (cf_max_stream_events config <? event_count)%Z || (cf_max_stream_bytes config <? stream_bytes)%Z
          then raise (gateway_error "gateway_stream_limit" "the gateway stream exceeded a configured limit" false
                        [(py "event_count", JInt event_count); (py "stream_bytes", JInt stream_bytes)])
          else
            _ ← emit e;
            consume_stream emit rest ending (is_completed e) event_count stream_bytes
      end
  end.

(** [_close_stream] of the delegate *)
Definition _close_stream : client unit := wrapped (call (ce_close env)) cleanup_failed.

(** [_stream_attempt] *)
Definition _stream_attempt (emit : GatewayEvent → client unit) : client unit :=
  stream ← read (λ w, ce_gateway env w request);
  terminal ← finally_ (consume_stream emit (msm_items stream) (msm_end stream) false 0 0) _close_stream;
  if terminal : bool then mret tt
  else raise (gateway_error "incomplete_gateway_stream" "the gateway stream ended without a terminal event" true []).

(** The cost of a terminal event without one *)
Definition priced (e : GatewayEvent) : client GatewayEvent :=
  match e, ce_prices env with
  | ResponseCompleted c, Some prices =>
      if is_some (rc_estimated_cost_usd c) then mret e else
      match prices (gq_route_name request) with
      | None => raise (DomainExn (loop_error "gateway_price_missing" "the selected route has no configured price" false
                         (JObject route_details)))
      | Some price => c' ← pure_result (with_cost c (calculate price c)); mret (ResponseCompleted c')
      end
  | _, _ => mret e
  end.

(** The body of the attempt loop for one event *)
Definition on_event (streamed : GatewayEvent) : client unit :=
  event ← priced streamed;
  _ ← retain_event event;
  if is_completed event then mret tt else yield_event event.

(** [_retry_delay] *)
Definition _retry_delay (attempt : nat) : client Q :=
  r ← read (ce_random env);
  if negb (Qle_bool 0 r && Qle_bool r 1)
  then raise (DomainExn (loop_error "gateway_retry_policy_invalid"
                "the gateway retry jitter source returned an invalid value" false (JObject [])))
  else
    let base := Qmin (cf_retry_max_delay config) (cf_retry_base_delay config * inject_Z (2 ^ (Z.of_nat attempt - 1))) in
    let jitter := ((r * 2 - 1) * cf_retry_jitter_ratio config)%Q in
    mret (Qmax 0 (base * (1 + jitter))).

(** [_require_terminal_event] *)
Definition _require_terminal_event (events : list GatewayEvent) : client GatewayResponseCompleted :=
  match last events with
  | Some (ResponseCompleted c) => mret c
  | _ => raise (gateway_error "invalid_gateway_stream" "the committed gateway response has no terminal event" true [])
  end.

(** [_attribute_model_call] *)
Definition _attribute_model_call (event : GatewayResponseCompleted) (retry_count : Z) : client unit :=
  match ce_model_calls env with
  | None => mret tt
  | Some save =>
      now ← read (ce_clock env);
      catch (call (λ w, save w tenant (mkModelCallRecord request event retry_count now)))
        (λ x, match x with
              | CancelledExn => raise CancelledExn
              | DomainExn d => raise (DomainExn d)
              | _ => raise (gateway_error "gateway_attribution_unavailable"
                              "the completed model call could not be attributed durably" true [])
              end)
  end.

(** What follows a successful attempt; [finish] is what the consumer does with the terminal event. *)
Definition commit_attempt (finish : GatewayResponseCompleted → client unit) (attempt : nat) : client unit :=
  retained ← gets (λ s, ex_retained_events (gs_execution s));
  terminal ← _require_terminal_event retained;
  _ ← _record_circuit_success;
  _ ← _complete_request retained;
  _ ← _attribute_model_call terminal (Z.of_nat attempt - 1);
  finish terminal.

(** [_can_retry] after a failed attempt; [true] continues with the next one. *)
Definition failed_attempt (attempt : nat) (d : ErrorDetail) : client unit :=
  _ ← (if detail_retryable d then _record_circuit_failure else mret tt);
  events ← gets (λ s, ex_attempt_events (gs_execution s));
  if is_nil events && detail_retryable d && (attempt <? cf_max_attempts config)%nat
  then delay ← _retry_delay attempt; call (λ w, ce_sleep env w delay)
  else raise (DomainExn d).

(** [_execute_with_retries]: [left_] attempts remain, of which this is number [attempt]. *)
Fixpoint _execute_with_retries (finish : GatewayResponseCompleted → client unit) (left_ attempt : nat) : client unit :=
  match left_ with
  | O => raise (gateway_error "gateway_retry_exhausted" "the gateway retry policy ended without a result" true [])
  | S left_ =>
      _ ← (if (1 <? attempt)%nat then _require_closed_circuit else mret tt);
      _ ← new_attempt;
      retry ← catch (_ ← _stream_attempt on_event; mret false)
        (λ x, match x with DomainExn d => _ ← failed_attempt attempt d; mret true | _ => raise x end);
      if retry : bool then _execute_with_retries finish left_ (S attempt) else commit_attempt finish attempt
  end.

(** ** The stream *)

(** The terminal event in [_stream_internal] *)
Definition finish_stream (event : GatewayResponseCompleted) : client unit :=
  _ ← set_completed;
  _ ← _stop_capacity_heartbeat;
  capacity ← gets (λ s, ex_capacity (gs_execution s));
  _ ← (match capacity with
       | Some (lease, _) => _release_capacity lease (rc_input_tokens event + rc_output_tokens event)
       | None => raise OtherExn
       end);
  _ ← set_capacity None;
  _ ← release_slot;
  yield_event (ResponseCompleted event).

(** Closing the execution after its consumer stopped hides what the closing raises. *)
Definition closing_execution (m : client unit) : client unit :=
  catch m (λ x, stopped ← gets (λ s, ex_stopped (gs_execution s));
                match x with
                | CancelledExn => raise CancelledExn
                | _ => if stopped : bool then raise cleanup_failed else raise x
                end).

(** The [try] block of [_stream_internal] *)
Definition execute_request : client unit :=
  _ ← _enforce_rate_limit;
  _ ← call (ce_wait_slot env);
  _ ← slot_change true;
  _ ← _require_available;
  lease ← _acquire_capacity;
  _ ← set_capacity (Some (lease, HB_RUNNING));
  _ ← _require_closed_circuit;
  _ ← set_contacted;
  _ ← closing_execution (_execute_with_retries finish_stream (cf_max_attempts config) 1);
  set_completed.

(** [except asyncio.CancelledError] *)
Definition lease_lost : exn :=
  gateway_error "gateway_capacity_lease_lost" "the live gateway request lost its distributed capacity lease" true [].
Definition on_cancelled (x : exn) : client unit :=
  match x with
  | CancelledExn =>
      _ ← observe_heartbeat;
      capacity ← gets (λ s, ex_capacity (gs_execution s));
      match capacity with
      | Some (_, HB_LOST) => raise lease_lost
      | _ => raise CancelledExn
      end
  | _ => raise x
  end.

(** The [finally] block *)
Definition release_held_capacity : client unit :=
  _ ← _stop_capacity_heartbeat;
  x ← gets gs_execution;
  match ex_capacity x with
  | Some (lease, _) =>
      _ ← _release_capacity lease (if ex_provider_contacted x then CapacityStore.cl_reserved_tokens lease else 0%Z);
      set_capacity None
  | None => mret tt
  end.
Definition settle_claim : client unit :=
  _ ← release_slot;
  x ← gets gs_execution;
  if ex_provider_contacted x then
    if negb (ex_completed x) && negb (ex_durable_completion x) then _fail_request else mret tt
  else _release_request.

(** What [_stream_internal] does once the store has handed out the execution *)
Definition execute_claimed : client unit :=
  finally_ (catch execute_request on_cancelled) (finally_ release_held_capacity settle_claim).

Fixpoint yield_all (events : list GatewayEvent) : client unit :=
  match events with
  | [] => mret tt
  | e :: rest => _ ← yield_event e; yield_all rest
  end.

(** [_stream_internal] *)
Definition stream : client unit :=
  _ ← _require_available;
  _ ← _validate_request;
  claim ← _claim_request;
  stored ← _stored_events_or_raise claim;
  match stored with
  | Some events =>
      terminal ← _require_terminal_event events;
      _ ← _attribute_model_call terminal 0;
      yield_all events
  | None => execute_claimed
  end.
End GatewayClient.
