(* ===== verification/AgentLoop.v ===== *)
(** * The agent loop

    [agent_core/loop.py] with [AgentLoopInput] of [agent_core/_loop_types.py]: bounded
    turns of model request and tool calls, from the first event to a terminal one.

    Identifiers, the gateway and the transcript journal act on the abstract world of
    the tool turns; [request_size] is the length of a request's [model_dump_json] and
    [sha256] the digest of long identifiers. *)

From stdpp Require Import base list sets gmap strings pretty.
From Stdlib Require Import ZArith Lia.
From S2P Require Import Prelude PyBase Domain Tables Contracts Transcripts Execution Recovery TaskPlans PyText Gateway AgentEvents PyEffects ToolTurn ModelTurn.

Definition _MAX_EXECUTION_IDENTIFIER_LENGTH : nat := 255.

(** ** Input *)

Record AgentLoopInput := mkLoopInput {
  li_tenant_id : uuid;
  li_session_id : uuid;
  li_run_id : uuid;
  li_attempt : Z;
  li_execution_epoch : Z;
  li_worker_id : pystr;
  li_route_name : pystr;
  li_messages : list GatewayMessage;
  li_checkpoint_id : option uuid;
  li_task_plan : json;
  li_context_summary : option pystr;
  li_prior_tool_outcomes : list DurableToolOutcome;
  li_approval_mode : ApprovalMode;
  li_pending_tool_calls : list DurablePendingToolCall;
}.

(** [validate_prior_outcomes] with the field constraints *)
Definition validate_loop_input (i : AgentLoopInput) : result AgentLoopInput :=
  let identifiers := out_tool_call_id <$> li_prior_tool_outcomes i in
  let pending := pend_tool_call_id <$> li_pending_tool_calls i in
  _ ← ensure ((1 <=? li_attempt i)%Z && (1 <=? li_execution_epoch i)%Z) (ValidationError "attempt");
  worker ← identifier_string (li_worker_id i);
  route ← identifier_string (li_route_name i);
  _ ← ensure (negb (is_nil (li_messages i))) (ValidationError "messages");
  _ ← ensure ((length identifiers <=? 100)%nat && (length pending <=? 100)%nat) (ValidationError "too many tool calls");
  _ ← ensure (bool_decide (NoDup identifiers)) (ValidationError "prior durable tool-call IDs must be unique");
  _ ← ensure (bool_decide (NoDup pending) && forallb (λ id, negb (bool_decide (id ∈ identifiers))) pending)
        (ValidationError "pending and terminal durable tool-call IDs must be disjoint and unique");
  _ ← ensure (match li_pending_tool_calls i with
              | [] => true
              | c :: rest => forallb (λ c', (pend_turn_number c' =? pend_turn_number c)%Z) rest
              end)
        (ValidationError "pending durable tool calls must belong to one atomic model turn");
  Ok (mkLoopInput (li_tenant_id i) (li_session_id i) (li_run_id i) (li_attempt i) (li_execution_epoch i) worker route
        (li_messages i) (li_checkpoint_id i) (li_task_plan i) (li_context_summary i) (li_prior_tool_outcomes i)
        (li_approval_mode i) (li_pending_tool_calls i)).

(** ** Helpers *)

(** [_ends_with_tool_calls] *)
Definition _ends_with_tool_calls (transcript : list GatewayMessage) (calls : list GatewayToolCall) : bool :=
  match last transcript with
  | Some m => bool_decide (gm_role m = ASSISTANT) && bool_decide (gm_tool_calls m = calls)
  | None => false
  end.

(** [_execution_identifier] *)
Definition _execution_identifier (sha256 : pystr → pystr) (value : pystr) (execution_epoch : Z) : pystr :=
  if (execution_epoch =? 1)%Z then value
  else
    let prefix := py "e" ++ py (pretty execution_epoch) ++ py "-" in
    let scoped := prefix ++ value in
    if (length scoped <=? _MAX_EXECUTION_IDENTIFIER_LENGTH)%nat then scoped else prefix ++ sha256 value.

(** [_redact_message] *)
Definition _redact_message (redact_text : pystr → pystr) (redact : json → json) (m : GatewayMessage)
    : result GatewayMessage :=
  calls ← traverse (λ c, arguments ← redact_json redact (gtc_arguments c);
                         validate_gateway_tool_call (mkGatewayToolCall (gtc_id c) (gtc_name c) arguments))
            (gm_tool_calls m);
  validate_gateway_message (mkGatewayMessage (gm_role m) (redact_text (gm_content m)) (gm_tool_call_id m) calls).

(** ** Environment and variables *)

Record LoopEnvironment (W : Type) := mkLoopEnvironment {
  le_tools : ToolEnvironment W;
  le_gateway : W → GatewayRequest → model_stream * W;
  le_new_id : W → pystr → pystr * W;
  (** [TranscriptJournal.append] *)
  le_journal : option (W → uuid → nat → list GatewayMessage → outcome unit * W);
}.
Arguments le_tools {W}.
Arguments le_gateway {W}.
Arguments le_new_id {W}.
Arguments le_journal {W}.

(** The variables of [AgentLoop.run] that change from turn to turn. *)
Record loop_vars := mkLoopVars {
  lv_journaled : nat;
  lv_tool_call_count : Z;
  lv_semantic_retry_count : Z;
  lv_last_checkpoint_id : option uuid;
  lv_task_plan : json;
}.

Definition is_received (e : AgentEvent) : bool :=
  match ev_payload e with ModelToolCallReceived _ _ _ _ _ _ => true | _ => false end.

(** A turn lets the loop go on, or ends the run. *)
Inductive turn_end := NextTurn (v : loop_vars) | RunOver.

Section Loop.
Context {W : Type}.
Variable env : LoopEnvironment W.
Variable config : AgentLoopConfig.
Variable redactor : StreamRedactor.
Variable redact_text : pystr → pystr.
Variable redact : json → json.
Variable error_size : ErrorDetail → Z.
Variable digest : json → pystr.
Variable payload_size : AgentPayload → Z.
Variable request_size : GatewayRequest → Z.
Variable sha256 : pystr → pystr.
Variable uuid_text : uuid → pystr.

Section Run.
Variable input : AgentLoopInput.

Definition loop_emit (payload : AgentPayload) : eff (LoopState W) unit :=
  emit (le_tools env) digest payload_size (li_run_id input) payload.
Definition loop_fail (error_ : ErrorDetail) : eff (LoopState W) turn_end :=
  _ ← loop_emit (RunFailed error_); mret RunOver.

Fixpoint yield_all (events : list AgentEvent) : eff (LoopState W) unit :=
  match events with
  | [] => mret tt
  | e :: rest => _ ← yield_ e; yield_all rest
  end.

(** [_journal_new]: the number of messages journaled. *)
Definition _journal_new (start_index : nat) : eff (LoopState W) nat :=
  transcript ← lift (gets ts_transcript);
  if (length transcript <=? start_index)%nat then mret start_index
  else
    _ ← (match le_journal env with
         | Some append => lift (with_world (λ w, append w (li_run_id input) start_index (drop start_index transcript)))
         | None => mret tt
         end);
    mret (length transcript).

Definition loop_message (m : GatewayMessage) : eff (LoopState W) unit :=
  m ← pure_result (validate_gateway_message m); lift (append_transcript m).

Definition turn_input (task_plan : json) (decisions : gmap pystr bool) (responses : gmap pystr pystr) : TurnInput :=
  mkTurnInput (li_run_id input) task_plan (li_context_summary input) (li_approval_mode input) decisions responses.

(** The tools of one turn, and what the loop keeps of their report; the resumed calls
    do not count as semantic failures. *)
Definition tool_turn (resumed : bool) (v : loop_vars) (decisions : gmap pystr bool) (responses : gmap pystr pystr)
    (calls : list GatewayToolCall) (invalid : list InvalidToolCall) : eff (LoopState W) turn_end :=
  report ← lift (execute (le_tools env) config redact_text redact error_size digest payload_size uuid_text
             (turn_input (lv_task_plan v) decisions responses) calls invalid (lv_semantic_retry_count v));
  journaled ← _journal_new (lv_journaled v);
  _ ← yield_all (rep_events report);
  if rep_terminal report then mret RunOver
  else mret (NextTurn (mkLoopVars journaled (lv_tool_call_count v)
               (lv_semantic_retry_count v + (if resumed then 0 else rep_semantic_failures report))
               (match rep_last_checkpoint_id report with Some c => Some c | None => lv_last_checkpoint_id v end)
               (default (lv_task_plan v) (rep_updated_task_plan report)))).

Definition with_journaled (v : loop_vars) (journaled : nat) : loop_vars :=
  mkLoopVars journaled (lv_tool_call_count v) (lv_semantic_retry_count v) (lv_last_checkpoint_id v) (lv_task_plan v).
Definition with_calls (v : loop_vars) (count : Z) : loop_vars :=
  mkLoopVars (lv_journaled v) (lv_tool_call_count v + count) (lv_semantic_retry_count v) (lv_last_checkpoint_id v)
    (lv_task_plan v).

(** *** Calls that wait from an earlier attempt *)

Fixpoint emit_received (calls : list GatewayToolCall) : eff (LoopState W) unit :=
  match calls with
  | [] => mret tt
  | c :: rest =>
      _ ← loop_emit (ModelToolCallReceived (py "approval-resume") (gtc_id c) (gtc_name c) (Some (gtc_arguments c))
                       (Some (digest (gtc_arguments c))) None);
      emit_received rest
  end.

Definition pending_decisions : gmap pystr bool :=
  list_to_map (omap (λ p, (λ b, (pend_tool_call_id p, b)) <$> pend_approval_approved p) (li_pending_tool_calls input)).
Definition pending_responses : gmap pystr pystr :=
  list_to_map (omap (λ p, (λ r, (pend_tool_call_id p, r)) <$> pend_approval_response p) (li_pending_tool_calls input)).

Definition resume_pending (v : loop_vars) : eff (LoopState W) turn_end :=
  if is_nil (li_pending_tool_calls input) then mret (NextTurn v)
  else
    calls ← pure_result (traverse validate_gateway_tool_call
              ((λ p, mkGatewayToolCall (pend_tool_call_id p) (pend_tool_name p) (pend_arguments p))
                 <$> li_pending_tool_calls input));
    transcript ← lift (gets ts_transcript);
    _ ← (if _ends_with_tool_calls transcript calls then mret tt
         else loop_message (mkGatewayMessage ASSISTANT [] None calls));
    journaled ← _journal_new (lv_journaled v);
    _ ← emit_received calls;
    tool_turn true (with_calls (with_journaled v journaled) (Z.of_nat (length calls))) pending_decisions pending_responses
      calls [].

(** *** One turn *)

Definition turn_error (code message : string) (turn_number : Z) : ErrorDetail :=
  loop_error code message false (JObject [(py "turn", JInt turn_number)]).

(** The request of a turn *)
Definition turn_request (turn_number : Z) : eff (LoopState W) GatewayRequest :=
  model_id ← lift (with_world (λ w, let '(id, w') := le_new_id env w (py "model-call") in (Ret id, w')));
  request_id ← lift (with_world (λ w, let '(id, w') := le_new_id env w (py "request") in (Ret id, w')));
  transcript ← lift (gets ts_transcript);
  pure_result (validate_gateway_request (mkGatewayRequest (li_tenant_id input) (li_session_id input) (li_run_id input)
    (li_execution_epoch input) turn_number (_execution_identifier sha256 model_id (li_execution_epoch input))
    (_execution_identifier sha256 request_id (li_execution_epoch input)) (li_route_name input) transcript
    (reg_definition <$> env_registry (le_tools env)))).

(** A final answer *)
Definition complete_run (v : loop_vars) (turn_number : Z) (text : pystr) : eff (LoopState W) turn_end :=
  _ ← loop_message (mkGatewayMessage ASSISTANT text None []);
  _ ← _journal_new (lv_journaled v);
  if (MAX_EVENT_PAYLOAD_BYTES <? payload_size (RunCompleted text (lv_last_checkpoint_id v)))%Z
  then loop_fail (turn_error "model_output_limit" "final model output exceeded the event payload limit" turn_number)
  else _ ← loop_emit (RunCompleted text (lv_last_checkpoint_id v)); mret RunOver.

(** A response with neither text nor tool calls *)
Definition retry_empty (v : loop_vars) : eff (LoopState W) turn_end :=
  let retries := (lv_semantic_retry_count v + 1)%Z in
  if (cfg_max_semantic_retries config <? retries)%Z
  then loop_fail (loop_error "semantic_retry_limit" "model exceeded the semantic retry budget" false
         (JObject [(py "limit", JInt (cfg_max_semantic_retries config)); (py "retries", JInt retries)]))
  else
    _ ← loop_message (mkGatewayMessage USER (py "The previous response contained neither text nor tool calls.") None []);
    journaled ← _journal_new (lv_journaled v);
    mret (NextTurn (mkLoopVars journaled (lv_tool_call_count v) retries (lv_last_checkpoint_id v) (lv_task_plan v))).

(** What a finished model turn leads to *)
Definition after_model (v : loop_vars) (turn_number : Z) (r : ModelTurnResult) : eff (LoopState W) turn_end :=
  let declares_tool_calls := bool_decide (rc_finish_reason (mtr_completion r) = FINISH_TOOL_CALLS) in
  if negb (eqb (has_tool_calls r) declares_tool_calls)
  then loop_fail (turn_error "invalid_model_stream" "gateway finish reason disagreed with emitted tool calls" turn_number)
  else if has_tool_calls r then
    _ ← (if is_nil (mtr_text r) && is_nil (mtr_tool_calls r) then mret tt
         else loop_message (mkGatewayMessage ASSISTANT (mtr_text r) None (mtr_tool_calls r)));
    journaled ← _journal_new (lv_journaled v);
    tool_turn false (with_journaled v journaled) ∅ ∅ (mtr_tool_calls r) (mtr_invalid_tool_calls r)
  else
    match rc_finish_reason (mtr_completion r) with
    | FINISH_LENGTH => loop_fail (turn_error "model_response_truncated"
        "model response ended because its provider length limit was reached" turn_number)
    | FINISH_CONTENT_FILTER => loop_fail (turn_error "model_response_blocked"
        "model response was blocked by a provider content filter" turn_number)
    | _ => if is_nil (mtr_text r) then retry_empty v else complete_run v turn_number (mtr_text r)
    end.

Definition model_turn (v : loop_vars) (turn_number : Z) (request : GatewayRequest) : eff (LoopState W) turn_end :=
  _ ← loop_emit (ModelRequestStarted (gq_model_call_id request) (gq_request_id request) (li_route_name input));
  before ← gets (length ∘ ls_yielded);
  r ← stream (le_tools env) config redactor redact error_size digest payload_size (li_run_id input)
        (gq_model_call_id request) turn_number (lv_tool_call_count v) (le_gateway env) request;
  received ← gets (λ s, length (filter (λ e, is_received e = true) (drop before (ls_yielded s))));
  match r with
  | inr error_ => loop_fail error_
  | inl result_ => after_model (with_calls v (Z.of_nat received)) turn_number result_
  end.

Definition one_turn (v : loop_vars) (turn_number : Z) : eff (LoopState W) turn_end :=
  transcript ← lift (gets ts_transcript);
  if (cfg_max_context_messages config <? Z.of_nat (length transcript))%Z
  then loop_fail (loop_error "context_limit" "agent context exceeded the configured message limit" false
         (JObject [(py "limit", JInt (cfg_max_context_messages config));
                   (py "message_count", JInt (Z.of_nat (length transcript)))]))
  else
    request ← turn_request turn_number;
    if (cfg_max_gateway_request_bytes config <? request_size request)%Z
    then loop_fail (loop_error "context_limit" "gateway request exceeded the configured byte limit" false
           (JObject [(py "limit_bytes", JInt (cfg_max_gateway_request_bytes config));
                     (py "request_bytes", JInt (request_size request))]))
    else model_turn v turn_number request.

(** [for turn_number in range(1, max_turns + 1)] *)
Fixpoint turns (v : loop_vars) (turn_number : Z) (left_ : nat) : eff (LoopState W) unit :=
  match left_ with
  | O => loop_emit (RunFailed (loop_error "turn_limit" "agent reached the maximum number of model turns" false
           (JObject [(py "limit", JInt (Z.of_nat (cfg_max_turns config)))])))
  | S left_ =>
      e ← one_turn v turn_number;
      match e with
      | RunOver => mret tt
      | NextTurn v => turns v (turn_number + 1) left_
      end
  end.

Definition prior_outcomes : gmap pystr ToolOutcome :=
  list_to_map (reverse ((λ o, (out_tool_call_id o, mkToolOutcome (out_tool_name o) (Some (out_argument_hash o))
    (out_status o) (out_result o) (out_error o))) <$> li_prior_tool_outcomes input)).

(** [AgentLoop.run] after the transcript is redacted *)
Definition run_loop : eff (LoopState W) unit :=
  transcript ← lift (gets ts_transcript);
  let v := mkLoopVars (length transcript) 0 0 (li_checkpoint_id input) (li_task_plan input) in
  _ ← loop_emit (RunStarted (li_attempt input) (li_worker_id input));
  _ ← loop_emit (ContextBuildStarted (Z.of_nat (length transcript)) (li_checkpoint_id input));
  e ← resume_pending v;
  match e with
  | RunOver => mret tt
  | NextTurn v => turns v 1 (cfg_max_turns config)
  end.

(** [AgentLoop.run] in a world: how it ends, and the events it yields. *)
Definition run (w : W) : outcome unit * LoopState W :=
  match traverse (_redact_message redact_text redact) (li_messages input) with
  | Err _ => (Raise OtherExn, mkLoopState (mkTurnState w 0 [] prior_outcomes) [])
  | Ok transcript => run_loop (mkLoopState (mkTurnState w 0 transcript prior_outcomes) [])
  end.
End Run.
End Loop.
