(* ===== verification/Executor.v ===== *)
(** * The run executor of the worker

    [apps/agent-worker/src/agent_worker/executor.py]: how [AgentLoopRunExecutor]
    turns the events of one attempt into durable tool-call state, approvals and the
    execution result.

    Each event is processed at its own database time, in order.  The event store is
    a parameter; building the loop, its context and its cleanup are not part of the
    model. *)

From stdpp Require Import base list sets gmap strings pretty.
From Stdlib Require Import ZArith Lia.
From S2P Require Import Prelude PyBase Domain Tables Contracts RunQueue Approvals Transcripts Execution Recovery TaskPlans PyText Gateway AgentEvents EventStore.

(** The tool calls of the attempt by identifier, as last saved. *)
Definition observed_tools : Type := gmap pystr ToolCall.

(** [_require_matching_writer] *)
Definition _require_matching_writer (lease : RunLease) (w : WorkspaceWriterLease) : result unit :=
  ensure (bool_decide (writer_tenant_id w = lease_tenant_id lease)
          && bool_decide (writer_workspace_id w = lease_workspace_id lease)
          && bool_decide (writer_run_id w = lease_run_id lease)
          && bool_decide (writer_worker_id w = lease_worker_id lease)
          && bool_decide (writer_run_lease_token w = lease_lease_token lease)
          && (writer_expires_at w <=? lease_expires_at lease)%Z)
    (DomainOperationError "workspace_lease_invalid" true).

(** [_delivery_key] *)
Definition _delivery_key (lease : RunLease) (e : AgentEvent) : pystr :=
  py "a" ++ py (pretty (lease_attempt lease)) ++ py ".g" ++ py (pretty (lease_generation lease))
  ++ py ".e" ++ py (pretty (ev_sequence e)).

(** The append of [_run_loop]: the event as a draft for the store *)
Definition append_worker_event (digest : json → pystr) (payload_size : AgentPayload → Z) (now : timestamp) (d : Db)
    (t : EventTables) (lease : RunLease) (key : pystr) (e : AgentEvent) : result EventTables :=
  draft ← make_draft digest payload_size (ev_payload e) (ev_created_at e);
  '(_, t') ← append_idempotent_fenced digest payload_size now d t lease key draft;
  Ok t'.

Section Executor.
Variable digest : json → pystr.

Definition with_status (c : ToolCall) (status : ToolCallStatus) : ToolCall :=
  mkToolCall (call_id c) (call_run_id c) (call_execution_epoch c) (call_turn_number c)
    (call_tool_name c) (call_arguments c) (call_argument_hash c) status (call_workspace_version c)
    (call_result c) (call_error c) (call_started_at c) (call_completed_at c).

(** [_persist_received] *)
Definition _persist_received (now : timestamp) (d : Db) (lease : RunLease) (observed : observed_tools)
    (turn_number : Z) (tool_call_id tool_name : pystr) (arguments : option json)
    (argument_hash : option pystr) (error_ : option ErrorDetail) : result (observed_tools * Db) :=
  match arguments, argument_hash, error_ with
  | Some arguments, Some argument_hash, None =>
      call ← validate_tool_call digest (mkToolCall tool_call_id (lease_run_id lease)
        (lease_execution_epoch lease) (Z.max 1 turn_number) tool_name arguments argument_hash
        TOOL_RECEIVED None None None None None);
      '(durable, d') ← save_tool_call_fenced digest now d lease call;
      Ok (<[call_id call := durable]> observed, d')
  | _, _, _ => Ok (observed, d)
  end.

(** [_persist_approval]; [has_approvals] says whether an approval store is
    configured. *)
Definition _persist_approval (has_approvals : bool) (now : timestamp) (d : Db) (lease : RunLease)
    (observed : observed_tools) (created_at : timestamp) (approval_id : uuid) (tool_call_id : pystr)
    (arguments : json) (reason : pystr) : result (observed_tools * Db) :=
  match observed !! tool_call_id with
  | None => Ok (observed, d)
  | Some item =>
      if negb (bool_decide (call_status item = TOOL_RECEIVED)) then Ok (observed, d)
      else
        call ← validate_tool_call digest (with_status item TOOL_WAITING_APPROVAL);
        '(durable, d1) ← save_tool_call_fenced digest now d lease call;
        let observed := <[tool_call_id := durable]> observed in
        _ ← ensure has_approvals (DomainOperationError "approval_store_unavailable" true);
        '(_, d2) ← create_approval_fenced now d1 lease (mkPersistedApproval approval_id
          (lease_run_id lease) (lease_execution_epoch lease) PENDING reason arguments None created_at
          None None) tool_call_id;
        Ok (observed, d2)
  end.

(** [_persist_started] *)
Definition _persist_started (now : timestamp) (d : Db) (lease : RunLease) (observed : observed_tools)
    (created_at : timestamp) (tool_call_id : pystr) : result (observed_tools * Db) :=
  match observed !! tool_call_id with
  | None => Ok (observed, d)
  | Some item =>
      if negb (bool_decide (call_status item ∈ [TOOL_RECEIVED; TOOL_WAITING_APPROVAL]))
      then Ok (observed, d)
      else
        call ← validate_tool_call digest (mkToolCall (call_id item) (call_run_id item)
          (call_execution_epoch item) (call_turn_number item) (call_tool_name item)
          (call_arguments item) (call_argument_hash item) TOOL_RUNNING (call_workspace_version item)
          (call_result item) (call_error item) (Some created_at) (call_completed_at item));
        '(durable, d') ← save_tool_call_fenced digest now d lease call;
        Ok (<[tool_call_id := durable]> observed, d')
  end.

(** The workspace revision a result reports. *)
Definition result_revision (result_ : option json) : option pystr :=
  match result_ ≫= (λ r, json_get r (py "workspace_revision")) with
  | Some (JString s) => Some s
  | _ => None
  end.

(** The observed call with the outcome of a completion event *)
Definition completed_call (item : ToolCall) (created_at : timestamp) (status : ToolCallStatus)
    (result_ : option json) (error_ : option ErrorDetail) : ToolCall :=
  mkToolCall (call_id item) (call_run_id item) (call_execution_epoch item) (call_turn_number item)
    (call_tool_name item) (call_arguments item) (call_argument_hash item) status
    (result_revision result_) result_ error_ (call_started_at item) (Some created_at).

(** [_persist_completed] *)
Definition _persist_completed (now : timestamp) (d : Db) (lease : RunLease) (observed : observed_tools)
    (created_at : timestamp) (tool_call_id : pystr) (status : ToolCallStatus) (result_ : option json)
    (error_ : option ErrorDetail) : result (observed_tools * Db) :=
  match observed !! tool_call_id with
  | None => Ok (observed, d)
  | Some item =>
      call ← validate_tool_call digest (completed_call item created_at status result_ error_);
      '(durable, d') ← save_tool_call_fenced digest now d lease call;
      Ok (<[tool_call_id := durable]> observed, d')
  end.

(** [_persist_tool_state] *)
Definition _persist_tool_state (has_approvals : bool) (now : timestamp) (d : Db) (lease : RunLease)
    (e : AgentEvent) (observed : observed_tools) (turn_number : Z) : result (observed_tools * Db) :=
  match ev_payload e with
  | ModelToolCallReceived _ id name arguments hash error_ =>
      _persist_received now d lease observed turn_number id name arguments hash error_
  | ToolApprovalRequired approval_id id _ arguments _ reason =>
      _persist_approval has_approvals now d lease observed (ev_created_at e) approval_id id arguments reason
  | ToolStarted id _ => _persist_started now d lease observed (ev_created_at e) id
  | ToolCompleted id status result_ error_ =>
      _persist_completed now d lease observed (ev_created_at e) id status result_ error_
  | _ => Ok (observed, d)
  end.

(** ** The loop over the events of an attempt *)

Context {E : Type}.
(** [append_idempotent_fenced] of the event store *)
Variable append_event : timestamp → Db → E → RunLease → pystr → AgentEvent → result E.

Record attempt_state := mkAttempt {
  at_db : Db;
  at_events : E;
  at_observed : observed_tools;
  at_turn_number : Z;
  at_last_checkpoint_id : option uuid;
  at_deferred : option RunStatus;
  at_retry_delay : option timedelta;
}.

(** One iteration: the state after the event, and the result when it ends the
    attempt. *)
Definition observe_event (has_approvals : bool) (now : timestamp) (lease : RunLease) (s : attempt_state)
    (e : AgentEvent) : result (attempt_state * option RunExecutionResult) :=
  let turn_number := match ev_payload e with
                     | ModelRequestStarted _ _ _ => (at_turn_number s + 1)%Z
                     | _ => at_turn_number s
                     end in
  '(observed, d) ← _persist_tool_state has_approvals now (at_db s) lease e (at_observed s) turn_number;
  events ← append_event now d (at_events s) lease (_delivery_key lease e) e;
  let next last deferred delay := mkAttempt d events observed turn_number last deferred delay in
  match ev_payload e with
  | CheckpointCreated checkpoint _ _ _ =>
      Ok (next (Some checkpoint) (at_deferred s) (at_retry_delay s), None)
  | ToolApprovalRequired _ _ _ _ _ _ =>
      Ok (next (at_last_checkpoint_id s) (Some WAITING_APPROVAL) (at_retry_delay s), None)
  | RunRetryScheduled _ delay _ =>
      Ok (next (at_last_checkpoint_id s) (Some RETRY_PENDING) (Some delay), None)
  | RunCompleted _ checkpoint =>
      r ← validate_run_execution_result (mkRunExecutionResult COMPLETED
            (match checkpoint with Some c => Some c | None => at_last_checkpoint_id s end) None None);
      Ok (next (at_last_checkpoint_id s) (at_deferred s) (at_retry_delay s), Some r)
  | RunFailed error_ =>
      r ← validate_run_execution_result (mkRunExecutionResult FAILED (at_last_checkpoint_id s)
            (Some error_) None);
      Ok (next (at_last_checkpoint_id s) (at_deferred s) (at_retry_delay s), Some r)
  | _ => Ok (next (at_last_checkpoint_id s) (at_deferred s) (at_retry_delay s), None)
  end.

Definition loop_incomplete : ErrorDetail :=
  loop_error "agent_loop_incomplete" "the agent loop ended without a terminal result" true (JObject []).

(** [_run_loop] after the input is built *)
Fixpoint run_events (has_approvals : bool) (lease : RunLease) (s : attempt_state)
    (events : list (timestamp * AgentEvent)) : result (RunExecutionResult * attempt_state) :=
  match events with
  | [] =>
      r ← validate_run_execution_result
            (match at_deferred s with
             | Some status => mkRunExecutionResult status (at_last_checkpoint_id s) None (at_retry_delay s)
             | None => mkRunExecutionResult FAILED (at_last_checkpoint_id s) (Some loop_incomplete) None
             end);
      Ok (r, s)
  | (now, e) :: rest =>
      '(s', finished) ← observe_event has_approvals now lease s e;
      match finished with
      | Some r => Ok (r, s')
      | None => run_events has_approvals lease s' rest
      end
  end.

Definition _run_loop (has_approvals : bool) (d : Db) (store : E) (lease : RunLease)
    (recovery : RunRecoveryState) (events : list (timestamp * AgentEvent))
    : result (RunExecutionResult * attempt_state) :=
  run_events has_approvals lease
    (mkAttempt d store ∅ 0 (chk_id <$> rs_checkpoint recovery) None None) events.
End Executor.
