(* ===== verification/QueueInvariant.v ===== *)
(** * Safety of the distributed queue

    The invariant that ties runs, run leases, workspace writer leases and worker
    slots together, with the lemmas on single rows that the preservation proofs of
    [QueueOperations] and [ControlOperations] share, and the fencing order. *)

From stdpp Require Import base list sets gmap strings sorting.
From Stdlib Require Import ZArith Lia.
From S2P Require Import Prelude PyBase Domain Tables Contracts RunQueue WorkspaceLeases RunRepository.

(** ** The invariant *)

(** A leased or running run has exactly one lease row, and the two agree on
    tenant, generation, worker and expiry. *)
Definition lease_agree (o : option RunRecord) (l : option RunLeaseRecord) : Prop :=
  match l with
  | Some l => ∃ r, o = Some r ∧ rr_tenant_id r = rl_tenant_id l ∧
      rr_lease_generation r = rl_generation l ∧
      rr_assigned_worker_id r = Some (rl_worker_id l) ∧
      rr_status r ∈ [LEASED; RUNNING] ∧
      rr_lease_expires_at r = Some (rl_expires_at l)
  | None => ∀ r, o = Some r → rr_status r ∉ [LEASED; RUNNING]
  end.

(** An owned workspace row is owned through a live run lease. *)
Definition writer_backed (leases : gmap uuid RunLeaseRecord) (w : WorkspaceLeaseRecord) : Prop :=
  ∀ t, wl_run_lease_token w = Some t →
    ∃ run l, wl_run_id w = Some run ∧ leases !! run = Some l ∧ rl_lease_token l = t ∧
      wl_worker_id w = Some (rl_worker_id l).

(** Keys, references and token uniqueness: the part of the constraints the
    operations rely on, which also holds between the statements of one
    transaction. *)
Record db_struct (d : Db) : Prop := {
  st_runs : ∀ k r, runs d !! k = Some r → rr_id r = k;
  st_workers : ∀ k w, workers d !! k = Some w → wk_worker_id w = k;
  st_leases : ∀ k l, run_leases d !! k = Some l → rl_run_id l = k ∧
    run_lease_references d l = true;
  st_workspaces : ∀ k w, workspace_leases d !! k = Some w →
    (wl_tenant_id w, wl_workspace_id w) = k ∧ workspace_lease_references d w = true;
  st_tokens : lease_tokens_unique (run_leases d);
}.

Lemma db_ok_struct d : db_ok d → db_struct d.
Proof.
  intros Hok. constructor.
  - intros k x Hx. by destruct (ok_runs _ Hok _ _ Hx).
  - intros k x Hx. by destruct (ok_workers _ Hok _ _ Hx).
  - intros k x Hx. by destruct (ok_run_leases _ Hok _ _ Hx) as (? & _ & ?).
  - intros k x Hx. by destruct (ok_workspace_leases _ Hok _ _ Hx) as (? & _ & ?).
  - apply (ok_lease_tokens _ Hok).
Qed.

Record queue_inv (d : Db) : Prop := {
  inv_struct : db_struct d;
  inv_agree : ∀ k, lease_agree (runs d !! k) (run_leases d !! k);
  inv_writer : ∀ k w, workspace_leases d !! k = Some w → writer_backed (run_leases d) w;
  inv_slots : ∀ k w, workers d !! k = Some w →
    (0 ≤ wk_available_slots w)%Z ∧ (wk_available_slots w + _active_worker_leases d k ≤ wk_total_slots w)%Z;
  inv_names : ∀ k w, workers d !! k = Some w → py_strip k = k;
}.

(** ** Consequences *)

Lemma worker_name_stripped k : py_strip k = k → strip_by is_white_space k = k.
Proof.
  intros Hk. rewrite <- Hk at 1. unfold py_strip. rewrite strip_weaken; [done|].
  intros c Hc. unfold py_isspace. by rewrite Hc.
Qed.

(** The worker of a lease row is registered under a stripped name. *)
Lemma lease_worker_registered d k l :
  queue_inv d → run_leases d !! k = Some l →
  (∃ w, workers d !! rl_worker_id l = Some w) ∧ py_strip (rl_worker_id l) = rl_worker_id l.
Proof.
  intros [Hok _ _ _ Hn] Hl. destruct (st_leases _ Hok _ _ Hl) as [_ Hr].
  unfold run_lease_references in Hr. bool_hyps.
  destruct (workers d !! rl_worker_id l) as [w|] eqn:Hw; [|done]. eauto.
Qed.

Lemma lease_row_key d k l : db_struct d → run_leases d !! k = Some l → rl_run_id l = k.
Proof. intros Hok Hl. by destruct (st_leases _ Hok _ _ Hl). Qed.

(** A lease token identifies its row. *)
Lemma lease_by_token_Some d t l :
  db_struct d → lease_by_token d t = Some l →
  rl_lease_token l = t ∧ run_leases d !! rl_run_id l = Some l.
Proof.
  intros Hok Hl. apply scalar_where_Some in Hl as [Ht [k Hk]]. bool_hyps.
  split; [done|]. by rewrite (lease_row_key _ _ _ Hok Hk).
Qed.

Lemma lease_by_token_lookup d k l :
  db_struct d → run_leases d !! k = Some l → lease_by_token d (rl_lease_token l) = Some l.
Proof.
  intros Hok Hl. apply (scalar_where_unique _ _ k); [done|by apply bool_decide_eq_true|].
  intros k' l' Hl' Ht. bool_hyps.
  pose proof (st_tokens _ Hok _ _ Hl' _ _ Hl Ht) as ->. congruence.
Qed.

(** Two workspace rows never share a run-lease token: the token identifies the
    run, the run its workspace. *)
Lemma writer_run_unique d k1 k2 w1 w2 t :
  queue_inv d → workspace_leases d !! k1 = Some w1 → workspace_leases d !! k2 = Some w2 →
  wl_run_lease_token w1 = Some t → wl_run_lease_token w2 = Some t → k1 = k2 ∧ w1 = w2.
Proof.
  intros Hinv H1 H2 Ht1 Ht2. pose proof (inv_struct _ Hinv) as Hok.
  destruct (inv_writer _ Hinv _ _ H1 _ Ht1) as (r1 & l1 & Hr1 & Hl1 & Htk1 & _).
  destruct (inv_writer _ Hinv _ _ H2 _ Ht2) as (r2 & l2 & Hr2 & Hl2 & Htk2 & _).
  assert (r1 = r2) as ->.
  { eapply (st_tokens _ Hok _ _ Hl1 _ _ Hl2). congruence. }
  destruct (st_workspaces _ Hok _ _ H1) as [Hk1 Hf1].
  destruct (st_workspaces _ Hok _ _ H2) as [Hk2 Hf2].
  unfold workspace_lease_references, run_exists in Hf1, Hf2. rewrite Hr1 in Hf1. rewrite Hr2 in Hf2.
  destruct (runs d !! r2) as [r|]; [|done]. bool_hyps.
  assert (k1 = k2) as -> by congruence. split; [done|congruence].
Qed.

(** ** Rows and their domain values *)

Lemma run_domain_inv row run :
  _run_domain row = Ok run →
  run_wf run ∧ run_status run = rr_status row ∧ run_attempt run = rr_attempt row ∧
  run_execution_epoch run = rr_execution_epoch row ∧
  run_assigned_worker_id run = strip_by is_white_space <$> rr_assigned_worker_id row ∧
  run_lease_expires_at run = rr_lease_expires_at row ∧
  run_cancellation_requested run = rr_cancellation_requested row ∧
  run_created_at run = rr_created_at row ∧ run_started_at run = rr_started_at row ∧
  run_id run = rr_id row.
Proof.
  unfold _run_domain. intros H. apply validate_run_Ok in H as [-> Hwf]. by split_and!.
Qed.

Lemma copy_with_checkpoint_inv run c run' :
  copy_with_checkpoint run c = Ok run' → run_wf run' ∧ run_status run' = run_status run ∧
  run_execution_epoch run' = run_execution_epoch run ∧ run_attempt run' = run_attempt run ∧
  run_last_checkpoint_id run' = Some c ∧
  run_cancellation_requested run' = run_cancellation_requested run.
Proof. intros H. apply validate_run_Ok in H as [-> Hwf]. by split_and!. Qed.

Lemma copy_with_cancellation_inv run run' :
  copy_with_cancellation run = Ok run' → run_wf run' ∧ run_status run' = run_status run ∧
  run_assigned_worker_id run' = strip_by is_white_space <$> run_assigned_worker_id run ∧
  run_lease_expires_at run' = run_lease_expires_at run ∧
  run_cancellation_requested run' = true.
Proof. intros H. apply validate_run_Ok in H as [-> Hwf]. by split_and!. Qed.

(** ** Frame conditions *)

(** [same_except k d d']: every other run and lease row is untouched. *)
Definition same_except (k : uuid) (d d' : Db) : Prop :=
  ∀ j, j ≠ k → runs d' !! j = runs d !! j ∧ run_leases d' !! j = run_leases d !! j.

Lemma agree_local k d d' :
  same_except k d d' → lease_agree (runs d' !! k) (run_leases d' !! k) →
  (∀ j, lease_agree (runs d !! j) (run_leases d !! j)) →
  ∀ j, lease_agree (runs d' !! j) (run_leases d' !! j).
Proof.
  intros Hs Hk Hall j. destruct (decide (j = k)) as [->|Hj]; [done|].
  destruct (Hs j Hj) as [-> ->]. apply Hall.
Qed.

(** Lease rows that keep the tokens and workers of the old ones. *)
Definition leases_extend (m m' : gmap uuid RunLeaseRecord) : Prop :=
  ∀ k l, m !! k = Some l → ∃ l', m' !! k = Some l' ∧
    rl_lease_token l' = rl_lease_token l ∧ rl_worker_id l' = rl_worker_id l.

Lemma writer_backed_extend m m' w :
  leases_extend m m' → writer_backed m w → writer_backed m' w.
Proof.
  intros He Hw t Ht. destruct (Hw t Ht) as (run & l & Hr & Hl & Htk & Hwk).
  destruct (He _ _ Hl) as (l' & Hl' & Htk' & Hwk').
  exists run, l'. split_and!; congruence.
Qed.

Lemma unowned_backed leases w : wl_run_lease_token w = None → writer_backed leases w.
Proof. intros Hn t Ht. congruence. Qed.

(** ** Elementary updates *)

(** The four tables the invariant speaks of. *)
Definition same_tables (d d' : Db) : Prop :=
  runs d' = runs d ∧ workers d' = workers d ∧ run_leases d' = run_leases d ∧
  workspace_leases d' = workspace_leases d.

Lemma queue_inv_same d d' : same_tables d d' → queue_inv d → queue_inv d'.
Proof.
  destruct d, d'. unfold same_tables. simpl. intros (-> & -> & -> & ->) [[] ? ? ? ?].
  by do 2 (constructor; try done).
Qed.

(** A reference to a run survives an update that keeps tenant and workspace. *)
Definition same_owner (r r' : RunRecord) : Prop :=
  rr_tenant_id r' = rr_tenant_id r ∧ rr_workspace_id r' = rr_workspace_id r.

Lemma run_exists_update d d' k r r' t j :
  runs d' = <[k := r']> (runs d) → runs d !! k = Some r → same_owner r r' →
  run_exists d' t j = run_exists d t j.
Proof.
  intros Hr Hk [Ht _]. unfold run_exists. rewrite Hr, lookup_insert.
  case_decide; subst; [|done]. by rewrite Hk, Ht.
Qed.

Lemma workspace_references_update d d' k r r' w :
  runs d' = <[k := r']> (runs d) → runs d !! k = Some r → same_owner r r' →
  workers d' = workers d → workspace_lease_references d' w = workspace_lease_references d w.
Proof.
  intros Hr Hk Hs Hw. unfold workspace_lease_references. rewrite Hw.
  destruct (wl_run_id w) as [j|]; [|done]. rewrite (run_exists_update d d' k r r') by done.
  rewrite Hr, lookup_insert. case_decide; subst; [|done].
  destruct Hs as [_ Hs]. by rewrite Hk, Hs.
Qed.

Lemma put_run_inv d r r' :
  queue_inv d → runs d !! rr_id r' = Some r → same_owner r r' →
  lease_agree (Some r') (run_leases d !! rr_id r') → queue_inv (put_run d r').
Proof.
  intros [[Hsr Hsw Hsl Hsk Hst] Ha Hw Hs Hn] Hk Ho Hag. constructor; try done.
  - constructor; try done; simpl.
    + intros j x. rewrite lookup_insert. case_decide; [intros [= <-]; done|eauto].
    + intros j l Hl. destruct (Hsl j l Hl) as [? Href]. split; [done|].
      unfold run_lease_references in *. simpl.
      by rewrite (run_exists_update d (put_run d r') (rr_id r') r r').
    + intros j w Hj. destruct (Hsk j w Hj) as [? Href]. split; [done|].
      by rewrite (workspace_references_update d (put_run d r') (rr_id r') r r').
  - intros j. simpl. rewrite lookup_insert. case_decide; subst; [done|apply Ha].
Qed.

Lemma put_worker_inv d w :
  queue_inv d → py_strip (wk_worker_id w) = wk_worker_id w →
  (0 ≤ wk_available_slots w)%Z ∧
  (wk_available_slots w + _active_worker_leases d (wk_worker_id w) ≤ wk_total_slots w)%Z →
  queue_inv (put_worker d w).
Proof.
  intros [[Hsr Hsw Hsl Hsk Hst] Ha Hwr Hs Hn] Hname Hslots.
  assert (∀ k, is_some (workers d !! k) = true →
    is_some (<[wk_worker_id w := w]> (workers d) !! k) = true) as Hmono.
  { intros k Hk. rewrite lookup_insert. by case_decide. }
  constructor; try done; simpl.
  - constructor; try done; simpl.
    + intros j x. rewrite lookup_insert. case_decide; [by intros [= <-]|eauto].
    + intros j l Hl. destruct (Hsl j l Hl) as [? Href]. split; [done|].
      unfold run_lease_references in *. apply andb_true_iff in Href as [Hr1 Href].
      apply andb_true_iff. split; [exact Hr1|by apply Hmono].
    + intros j x Hj. destruct (Hsk j x Hj) as [? Href]. split; [done|].
      unfold workspace_lease_references in *. apply andb_true_iff in Href as [Href1 Href2].
      apply andb_true_iff. split; [exact Href1|]. destruct (wl_worker_id x); [|done]. by apply Hmono.
  - intros k x. rewrite lookup_insert. case_decide; [intros [= <-]; by subst|eauto].
  - intros k x. rewrite lookup_insert. case_decide; [by subst|eauto].
Qed.

Lemma put_workspace_inv d w :
  queue_inv d → writer_backed (run_leases d) w → workspace_lease_references d w = true →
  queue_inv (put_workspace_lease d w).
Proof.
  intros [[Hsr Hsw Hsl Hsk Hst] Ha Hwr Hs Hn] Hb Href. constructor; try done; simpl.
  - constructor; try done; simpl. intros j x. rewrite lookup_insert.
    case_decide; [by intros [= <-]|]. intros Hx. by destruct (Hsk j x Hx).
  - intros j x. rewrite lookup_insert. case_decide; [by intros [= <-]|eauto].
Qed.

(** Renewal: the lease row and the mirrored run expiry move together. *)
Lemma renew_lease_inv d l l' r r' :
  queue_inv d → run_leases d !! rl_run_id l' = Some l → rl_lease_token l' = rl_lease_token l →
  rl_worker_id l' = rl_worker_id l → rl_tenant_id l' = rl_tenant_id l →
  runs d !! rl_run_id l' = Some r → rr_id r' = rl_run_id l' → same_owner r r' →
  lease_agree (Some r') (Some l') → queue_inv (put_run (put_run_lease d l') r').
Proof.
  intros [[Hsr Hsw Hsl Hsk Hst] Ha Hw Hs Hn] Hl Htok Hwk Hten Hr Hid Ho Hag.
  assert (∀ k x, <[rl_run_id l' := l']> (run_leases d) !! k = Some x →
    ∃ y, run_leases d !! k = Some y ∧ rl_lease_token x = rl_lease_token y ∧
      rl_worker_id x = rl_worker_id y ∧ rl_tenant_id x = rl_tenant_id y ∧ rl_run_id x = k) as Hold.
  { intros k x. rewrite lookup_insert. case_decide; subst.
    - intros [= <-]. eauto 10.
    - intros Hx. exists x. by destruct (Hsl _ _ Hx). }
  constructor; try done; simpl.
  - constructor; try done; simpl.
    + intros j x. rewrite lookup_insert. case_decide; [intros [= <-]; congruence|eauto].
    + intros j x Hx. destruct (Hold _ _ Hx) as (y & Hy & _ & Hyw & Hyt & Hyk).
      split; [done|]. destruct (Hsl _ _ Hy) as [Hky Href].
      unfold run_lease_references in *. simpl. rewrite Hyw, Hyt.
      rewrite (run_exists_update d _ (rr_id r') r r') by (try done; congruence).
      by rewrite Hyk, <- Hky.
    + intros j x Hx. destruct (Hsk _ _ Hx) as [? Href]. split; [done|].
      rewrite (workspace_references_update d _ (rr_id r') r r') by (try done; congruence). done.
    + intros k1 x1 H1 k2 x2 H2 Heq. simpl in *.
      destruct (Hold _ _ H1) as (y1 & Hy1 & Ht1 & _), (Hold _ _ H2) as (y2 & Hy2 & Ht2 & _).
      eapply (Hst _ _ Hy1 _ _ Hy2). congruence.
  - intros j. rewrite Hid, !lookup_insert. case_decide; [done|apply Ha].
  - intros j x Hx. apply (writer_backed_extend (run_leases d)); [|by eauto].
    intros k y Hy. rewrite lookup_insert. case_decide; subst; [|by eauto].
    exists l'. by simplify_eq.
  - intros k w Hk. unfold _active_worker_leases. simpl.
    pose proof (count_where_update (λ l, bool_decide (rl_worker_id l = k)) _ _ _ l' Hl) as Hc.
    cbv beta in Hc. rewrite Hwk in Hc. specialize (Hs k w Hk). unfold _active_worker_leases in Hs. lia.
Qed.

(** Granting a lease to a run without one, on a worker with a spare slot. *)
Lemma grant_lease_inv d l r r' w :
  queue_inv d → run_leases d !! rl_run_id l = None →
  (∀ k x, run_leases d !! k = Some x → rl_lease_token x ≠ rl_lease_token l) →
  runs d !! rl_run_id l = Some r → rr_id r' = rl_run_id l → same_owner r r' →
  rr_tenant_id r = rl_tenant_id l → workers d !! rl_worker_id l = Some w →
  (wk_available_slots w + _active_worker_leases d (rl_worker_id l) < wk_total_slots w)%Z →
  lease_agree (Some r') (Some l) → queue_inv (put_run_lease (put_run d r') l).
Proof.
  intros [[Hsr Hsw Hsl Hsk Hst] Ha Hw Hs Hn] Hnone Hfresh Hr Hid Ho Hten Hwk Hslot Hag.
  set (d' := put_run_lease (put_run d r') l).
  constructor; try done; simpl.
  - constructor; try done; simpl.
    + intros j x. rewrite lookup_insert. case_decide; [intros [= <-]; congruence|eauto].
    + intros j x. rewrite lookup_insert. unfold run_lease_references.
      rewrite (run_exists_update d d' (rr_id r') r r') by (try done; congruence).
      case_decide as Hj; [intros [= <-]; split; [done|]|].
      * unfold run_exists. rewrite Hr. simpl. rewrite Hten, Hwk, bool_decide_true by done. done.
      * intros Hx. destruct (Hsl _ _ Hx) as [? Href]. split; [done|exact Href].
    + intros j x Hx. destruct (Hsk _ _ Hx) as [? Href]. split; [done|].
      rewrite (workspace_references_update d d' (rr_id r') r r') by (try done; congruence). done.
    + intros k1 x1 H1 k2 x2 H2. rewrite lookup_insert in H1, H2.
      repeat case_decide; simplify_eq; intros Heq; try done.
      * exfalso. by eapply Hfresh.
      * exfalso. by eapply Hfresh.
      * by eapply (Hst _ _ H1 _ _ H2).
  - intros j. rewrite Hid, !lookup_insert. case_decide; [done|apply Ha].
  - intros j x Hx. apply (writer_backed_extend (run_leases d)); [|by eauto].
    intros k y Hy. rewrite lookup_insert_ne by congruence. eauto.
  - intros k x Hx. unfold _active_worker_leases. simpl.
    rewrite count_where_insert_new by done. specialize (Hs k x Hx).
    unfold _active_worker_leases in *. case_bool_decide; subst; simplify_eq; lia.
Qed.

(** The writer rows of a run lease after [_release_workspace_for_run]. *)
Lemma release_workspace_lookup d l k w :
  queue_inv d → run_leases d !! rl_run_id l = Some l →
  workspace_leases (_release_workspace_for_run d l) !! k = Some w →
  (workspace_leases d !! k = Some w ∧ wl_run_lease_token w ≠ Some (rl_lease_token l)) ∨
  ∃ w0, workspace_leases d !! k = Some w0 ∧ w = _clear_workspace_owner w0 ∧
    wl_run_lease_token w0 = Some (rl_lease_token l).
Proof.
  intros Hinv Hl. unfold _release_workspace_for_run.
  destruct (scalar_where _ (workspace_leases d)) as [w0|] eqn:Hs.
  - apply scalar_where_Some in Hs as [Ht [k0 Hk0]]. bool_hyps.
    destruct (st_workspaces _ (inv_struct _ Hinv) _ _ Hk0) as [Hkey _].
    simpl. rewrite Hkey, lookup_insert. case_decide as Hk; subst.
    + intros [= <-]. right. eauto.
    + intros Hw. left. split; [done|]. intros Ht'. apply Hk.
      by destruct (writer_run_unique _ _ _ _ _ _ Hinv Hk0 Hw Ht Ht').
  - intros Hw. left. split; [done|]. intros Ht.
    pose proof (scalar_where_None _ _ _ _ Hs Hw) as Hf. cbv beta in Hf. by bool_hyps.
Qed.

Lemma release_workspace_frame d l :
  runs (_release_workspace_for_run d l) = runs d ∧
  workers (_release_workspace_for_run d l) = workers d ∧
  run_leases (_release_workspace_for_run d l) = run_leases d.
Proof. unfold _release_workspace_for_run. by case_match. Qed.

Lemma return_slot_frame d k :
  runs (_return_worker_slot d k) = runs d ∧
  run_leases (_return_worker_slot d k) = run_leases d ∧
  workspace_leases (_return_worker_slot d k) = workspace_leases d.
Proof. unfold _return_worker_slot. by case_match. Qed.

Lemma release_workspace_ext d d' l :
  workspace_leases d' = workspace_leases d →
  workspace_leases (_release_workspace_for_run d' l) =
  workspace_leases (_release_workspace_for_run d l).
Proof.
  intros Hw. unfold _release_workspace_for_run. rewrite Hw.
  by destruct (scalar_where _ _); simpl; rewrite ?Hw.
Qed.

(** Retiring a lease: its run leaves the leased and running states, its writer
    row is cleared, its row deleted and its slot returned. *)
Lemma retire_lease_inv d d2 l r r' :
  queue_inv d → run_leases d !! rl_run_id l = Some l →
  runs d !! rl_run_id l = Some r → rr_id r' = rl_run_id l → same_owner r r' →
  rr_status r' ∉ [LEASED; RUNNING] →
  runs d2 = <[rl_run_id l := r']> (runs d) → workers d2 = workers d →
  run_leases d2 = run_leases d → workspace_leases d2 = workspace_leases d →
  queue_inv (_return_worker_slot (delete_run_lease (_release_workspace_for_run d2 l) l)
               (rl_worker_id l)).
Proof.
  intros Hinv Hl Hr Hid Ho Hst Er Ew El Ek.
  destruct (lease_worker_registered _ _ _ Hinv Hl) as [[w Hw] Hname].
  set (d3 := delete_run_lease (_release_workspace_for_run d2 l) l).
  destruct (release_workspace_frame d2 l) as (Fr & Fw & Fl).
  assert (runs d3 = <[rl_run_id l := r']> (runs d)) as Er3 by (simpl; congruence).
  assert (workers d3 = workers d) as Ew3 by (simpl; congruence).
  assert (run_leases d3 = delete (rl_run_id l) (run_leases d)) as El3 by (simpl; congruence).
  assert (∀ k x, workspace_leases d3 !! k = Some x →
    ∃ x0, workspace_leases d !! k = Some x0 ∧
      (x = x0 ∧ wl_run_lease_token x ≠ Some (rl_lease_token l) ∨
       x = _clear_workspace_owner x0)) as Hws.
  { intros k x Hx. change (workspace_leases d3)
      with (workspace_leases (_release_workspace_for_run d2 l)) in Hx.
    rewrite (release_workspace_ext d d2 l Ek) in Hx.
    destruct (release_workspace_lookup _ _ _ _ Hinv Hl Hx) as [[? ?]|(x0 & ? & ? & _)]; eauto. }
  assert (∀ k, _active_worker_leases d3 k =
    (_active_worker_leases d k - (if decide (k = rl_worker_id l) then 1 else 0))%Z) as Hact.
  { intros k. unfold _active_worker_leases. rewrite El3.
    rewrite (count_where_delete _ (run_leases d) _ _ Hl).
    case_bool_decide; case_decide; subst; try done; lia. }
  assert (queue_inv d3) as Hinv3.
  { destruct Hinv as [[Hsr Hsw Hsl Hsk Hstk] Ha Hwr Hs Hn]. constructor.
    - constructor.
      + rewrite Er3. intros j x. rewrite lookup_insert.
        case_decide; [intros [= <-]; congruence|eauto].
      + rewrite Ew3. apply Hsw.
      + rewrite El3. intros j x [Hj Hx]%lookup_delete_Some.
        destruct (Hsl _ _ Hx) as [? Href]. split; [done|].
        unfold run_lease_references in *. rewrite Ew3.
        by rewrite (run_exists_update d d3 (rl_run_id l) r r').
      + intros j x Hx. destruct (Hws _ _ Hx) as (x0 & Hx0 & [[-> _]| ->]);
          destruct (Hsk _ _ Hx0) as [? Href]; split; try done.
        by rewrite (workspace_references_update d d3 (rl_run_id l) r r').
      + rewrite El3. intros k1 x1 [_ H1]%lookup_delete_Some k2 x2 [_ H2]%lookup_delete_Some.
        by eapply (Hstk _ _ H1 _ _ H2).
    - rewrite Er3, El3. intros j. destruct (decide (rl_run_id l = j)) as [<-|Hj].
      + rewrite lookup_insert_eq, lookup_delete_eq. by intros x [= <-].
      + rewrite lookup_insert_ne, lookup_delete_ne by done. apply Ha.
    - rewrite El3. intros k x Hx. destruct (Hws _ _ Hx) as (x0 & Hx0 & [[-> Hne]| ->]);
        [|by apply unowned_backed].
      intros t Ht. destruct (Hwr _ _ Hx0 t Ht) as (run & y & ? & Hy & Hty & ?).
      exists run, y. split_and!; try done. rewrite lookup_delete_ne; [done|].
      intros <-. simplify_eq.
    - rewrite Ew3. intros k x Hx. rewrite Hact. specialize (Hs k x Hx).
      case_decide; lia.
    - rewrite Ew3. apply Hn. }
  unfold _return_worker_slot. fold d3. rewrite Ew3, Hw.
  pose proof (st_workers _ (inv_struct _ Hinv) _ _ Hw) as Hwk.
  apply put_worker_inv; [done|simpl; congruence|]. simpl. rewrite Hwk, Hact.
  rewrite decide_True by done. pose proof (inv_slots _ Hinv _ _ Hw).
  assert (0 ≤ _active_worker_leases d (rl_worker_id l))%Z by (unfold _active_worker_leases, count_where; lia). lia.
Qed.

(** ** Checking the invariant *)

Lemma worker_slots d k w : db_ok d → workers d !! k = Some w → (0 ≤ wk_available_slots w)%Z.
Proof.
  intros Hok Hw. destruct (ok_workers _ Hok _ _ Hw) as [_ Hc]. unfold worker_record_checks in Hc. bool_hyps. lia.
Qed.

Definition lease_agreeb (o : option RunRecord) (l : RunLeaseRecord) : bool :=
  match o with
  | Some r =>
      bool_decide (rr_tenant_id r = rl_tenant_id l)
      && bool_decide (rr_lease_generation r = rl_generation l)
      && bool_decide (rr_assigned_worker_id r = Some (rl_worker_id l))
      && bool_decide (rr_status r ∈ [LEASED; RUNNING])
      && bool_decide (rr_lease_expires_at r = Some (rl_expires_at l))
  | None => false
  end.

Definition writer_backedb (leases : gmap uuid RunLeaseRecord) (w : WorkspaceLeaseRecord) : bool :=
  match wl_run_lease_token w with
  | None => true
  | Some t =>
      match wl_run_id w with
      | Some run =>
          match leases !! run with
          | Some l => bool_decide (rl_lease_token l = t)
                      && bool_decide (wl_worker_id w = Some (rl_worker_id l))
          | None => false
          end
      | None => false
      end
  end.

(** An executable form of the invariant. *)
Definition queue_invb (d : Db) : bool :=
  db_okb d
  && bool_decide (map_Forall (λ k l, lease_agreeb (runs d !! k) l = true) (run_leases d))
  && bool_decide (map_Forall (λ k r, run_leases d !! k = None → rr_status r ∉ [LEASED; RUNNING])
       (runs d))
  && bool_decide (map_Forall (λ _ w, writer_backedb (run_leases d) w = true) (workspace_leases d))
  && bool_decide (map_Forall (λ k w,
       (wk_available_slots w + _active_worker_leases d k ≤ wk_total_slots w)%Z ∧ py_strip k = k)
       (workers d)).

Lemma queue_invb_sound d : queue_invb d = true → queue_inv d.
Proof.
  unfold queue_invb. intros H. bool_hyps.
  match goal with H : db_okb d = true |- _ => apply db_okb_iff in H as Hok end.
  constructor; [by apply db_ok_struct|..].
  - intros k. destruct (run_leases d !! k) as [l|] eqn:Hl.
    + match goal with H : map_Forall _ (run_leases d) |- _ => specialize (H _ _ Hl); unfold lease_agreeb in H end.
      destruct (runs d !! k) as [r|]; [|done]. bool_hyps. exists r. by split_and!.
    + intros r Hr. match goal with H : map_Forall _ (runs d) |- _ => by apply (H _ _ Hr) end.
  - intros k w Hw t Ht.
    match goal with H : map_Forall _ (workspace_leases d) |- _ =>
      specialize (H _ _ Hw); unfold writer_backedb in H; rewrite Ht in H end.
    destruct (wl_run_id w) as [run|]; [|done]. destruct (run_leases d !! run) as [l|] eqn:Hl; [|done].
    bool_hyps. exists run, l. by split_and!.
  - intros k w Hw. split; [by eapply worker_slots|].
    match goal with H : map_Forall _ (workers d) |- _ => by destruct (H _ _ Hw) end.
  - intros k w Hw. match goal with H : map_Forall _ (workers d) |- _ => by destruct (H _ _ Hw) end.
Qed.
