(* ===== verification/QueueOperations.v ===== *)
(** * Every queue operation preserves the invariant

    One lemma per operation of the run queue, the workspace-lease store and the
    cancellation endpoint: a committed call takes a database that satisfies
    [queue_inv] to another one. *)

From stdpp Require Import base list sets gmap strings sorting.
From Stdlib Require Import ZArith Lia.
From S2P Require Import Prelude PyBase Domain Tables Contracts RunQueue WorkspaceLeases RunRepository QueueInvariant.

(** ** What the fence checks establish *)

Lemma matching_lease_Ok o lease lr :
  _assert_matching_run_lease o lease = Ok lr ↔ o = Some lr ∧ lease_matches lr lease = true.
Proof.
  unfold _assert_matching_run_lease. destruct o as [r|].
  - destruct (lease_matches r lease) eqn:E; split.
    + by intros [= <-].
    + by intros [[= <-] _].
    + done.
    + intros [[= <-] ?]. congruence.
  - split; [done|by intros [? _]].
Qed.

Lemma matching_lease_Err o lease e :
  _assert_matching_run_lease o lease = Err e → e = run_lease_lost.
Proof.
  unfold _assert_matching_run_lease. destruct o as [r|]; [|by intros [= <-]].
  destruct (lease_matches r lease); [done|by intros [= <-]].
Qed.

Lemma locked_lease_state_Ok d lease lr row route :
  db_struct d → _locked_lease_state d lease = Ok (lr, row, route) →
  rl_run_id lr = lease_run_id lease ∧
  run_leases d !! rl_run_id lr = Some lr ∧ lease_matches lr lease = true ∧
  runs d !! rl_run_id lr = Some row ∧ run_fence_matches row lease = true ∧ rr_id row = rl_run_id lr.
Proof.
  intros Hst H. unfold _locked_lease_state in H. run_inv H.
  apply matching_lease_Ok in Hrun as [Ht Hm].
  apply (lease_by_token_Some _ _ _ Hst) in Ht as [_ Hl].
  assert (rl_run_id lr = lease_run_id lease) as Hid.
  { unfold lease_matches in Hm. by bool_hyps. }
  rewrite <- Hid in Hrun0. split_and!; try done. by apply (st_runs _ Hst).
Qed.

(** The lease row and the run row of a held lease agree. *)
Lemma held_lease_agree d l row :
  queue_inv d → run_leases d !! rl_run_id l = Some l → runs d !! rl_run_id l = Some row →
  rr_tenant_id row = rl_tenant_id l ∧ rr_lease_generation row = rl_generation l ∧
  rr_assigned_worker_id row = Some (rl_worker_id l) ∧ rr_status row ∈ [LEASED; RUNNING] ∧
  rr_lease_expires_at row = Some (rl_expires_at l).
Proof.
  intros Hinv Hl Hr. pose proof (inv_agree _ Hinv (rl_run_id l)) as Ha.
  rewrite Hl, Hr in Ha. destruct Ha as (r & [= <-] & ?). naive_solver.
Qed.

(** The assigned worker a validated copy of a held run carries. *)
Lemma held_worker_strip d l row :
  queue_inv d → run_leases d !! rl_run_id l = Some l → runs d !! rl_run_id l = Some row →
  strip_by is_white_space <$> rr_assigned_worker_id row = Some (rl_worker_id l).
Proof.
  intros Hinv Hl Hr. destruct (held_lease_agree _ _ _ Hinv Hl Hr) as (_ & _ & -> & _).
  simpl. f_equal. apply worker_name_stripped. by apply (lease_worker_registered _ _ _ Hinv Hl).
Qed.

(** ** Workers *)

Lemma worker_domain_name w reg :
  _worker_domain w = Ok reg → reg_worker_id reg = strip_by is_white_space (wk_worker_id w).
Proof.
  unfold _worker_domain, validate_worker_registration. intros H. run_inv H.
  by apply identifier_string_Ok in Hrun as [-> _].
Qed.

Lemma unregistered_no_leases d k :
  db_struct d → workers d !! k = None → _active_worker_leases d k = 0%Z.
Proof.
  intros Hst Hk. unfold _active_worker_leases.
  rewrite (proj2 (count_where_zero _ _)); [done|]. intros j l Hl.
  apply bool_decide_eq_false. intros <-. destruct (st_leases _ Hst _ _ Hl) as [_ Href].
  unfold run_lease_references in Href. rewrite Hk, andb_comm in Href. done.
Qed.

Lemma register_worker_inv d registration reg d' :
  queue_inv d → py_strip (reg_worker_id registration) = reg_worker_id registration →
  register_worker d registration = Ok (reg, d') → queue_inv d'.
Proof.
  intros Hinv Hname H. unfold register_worker in H. apply commit_Ok in H as [H Hok].
  run_inv H. destruct (workers d !! reg_worker_id registration) as [row|] eqn:Hw.
  - pose proof (st_workers _ (inv_struct _ Hinv) _ _ Hw) as Hk.
    run_inv Hrun. bool_hyps. apply put_worker_inv; simpl; [done|congruence|].
    split; [|lia]. by apply (worker_slots _ _ _ Hok (lookup_insert_eq _ _ _)).
  - injection Hrun as <-. apply put_worker_inv; simpl; [done|done|].
    split; [by apply (worker_slots _ _ _ Hok (lookup_insert_eq _ _ _))|].
    rewrite unregistered_no_leases by (done || apply Hinv).
    destruct (ok_workers _ Hok (reg_worker_id registration) _ (lookup_insert_eq _ _ _))
      as [_ Hc]. unfold worker_record_checks in Hc. bool_hyps. simpl in *. lia.
Qed.

Lemma heartbeat_worker_inv d k at_ n reg d' :
  queue_inv d → heartbeat_worker d k at_ n = Ok (reg, d') → queue_inv d'.
Proof.
  intros Hinv H. unfold heartbeat_worker in H. run_inv H.
  apply commit_Ok in H as [H Hok]. run_inv H. bool_hyps.
  pose proof (st_workers _ (inv_struct _ Hinv) _ _ Hrun0) as Hk.
  pose proof (inv_names _ Hinv _ _ Hrun0).
  apply put_worker_inv; simpl; [done|congruence|]. split; [|rewrite Hk; lia].
  by apply (worker_slots _ _ _ Hok (lookup_insert_eq _ _ _)).
Qed.

Lemma set_worker_draining_inv d k b at_ reg d' :
  queue_inv d → set_worker_draining d k b at_ = Ok (reg, d') → queue_inv d'.
Proof.
  intros Hinv H. unfold set_worker_draining in H. run_inv H.
  apply commit_Ok in H as [H Hok]. run_inv H.
  pose proof (st_workers _ (inv_struct _ Hinv) _ _ Hrun0) as Hk.
  pose proof (inv_names _ Hinv _ _ Hrun0).
  apply put_worker_inv; simpl; [done|congruence|]. rewrite Hk. by apply (inv_slots _ Hinv).
Qed.

(** ** Lease holders *)

Lemma start_inv d lease at_ lease' d' :
  queue_inv d → start d lease at_ = Ok (lease', d') → queue_inv d'.
Proof.
  intros Hinv H. unfold start in H. run_inv H. apply commit_Ok in H as [H _]. run_inv H.
  apply locked_lease_state_Ok in Hrun0 as (_ & Hl & _ & Hr & _ & Hid); [|apply Hinv].
  destruct (held_lease_agree _ _ _ Hinv Hl Hr) as (? & ? & ? & ? & ?).
  pose proof (held_worker_strip _ _ _ Hinv Hl Hr) as Hs.
  apply run_domain_inv in Hrun3 as (Hwf & ? & ? & ? & Hwk & Hex & _).
  pose proof (transition_run_data _ _ _ _ _ _ Hrun4) as (t & lw & le & _ & _ & _ & _ & Hv).
  apply validate_run_Ok in Hv as [-> Hwf'].
  eapply put_run_inv; [done|by simpl; rewrite Hid|done|].
  simpl. rewrite Hid, Hl. eexists. split; [done|]. simpl.
  rewrite Hwk, Hs. simpl. rewrite worker_name_stripped
    by apply (lease_worker_registered _ _ _ Hinv Hl).
  split_and!; try done; [set_solver|congruence].
Qed.

Lemma heartbeat_inv d lease at_ dur hb d' :
  queue_inv d → RunQueue.heartbeat d lease at_ dur = Ok (hb, d') → queue_inv d'.
Proof.
  intros Hinv H. unfold RunQueue.heartbeat in H. run_inv H.
  apply commit_Ok in H as [H _]. run_inv H.
  apply locked_lease_state_Ok in Hrun1 as (_ & Hl & _ & Hr & _ & Hid); [|apply Hinv].
  destruct (held_lease_agree _ _ _ Hinv Hl Hr) as (? & ? & ? & ? & ?).
  eapply renew_lease_inv; simpl; try done.
  eexists. split; [done|]. simpl. by split_and!.
Qed.

Lemma enqueue_memory_same d r t : same_tables d (_enqueue_memory_extraction d r t).
Proof. unfold _enqueue_memory_extraction. repeat case_match; by split_and!. Qed.

(** A validated transition to a state that releases the lease. *)
Lemma transition_releases run s at_ wk ex run' :
  s ∉ [LEASED; RUNNING] → transition_run run s at_ wk ex = Ok run' →
  run_status run' ∉ [LEASED; RUNNING].
Proof.
  intros Hs H. apply transition_run_data in H as (t & lw & le & _ & _ & _ & _ & Hv).
  by apply validate_run_Ok in Hv as [-> _].
Qed.

Lemma releasing_status s :
  s ∈ [COMPLETED; FAILED; CANCELLED; WAITING_APPROVAL; RETRY_PENDING] → s ∉ [LEASED; RUNNING].
Proof. set_solver. Qed.

Lemma waiting_status s :
  s ∈ [QUEUED; WAITING_APPROVAL; RETRY_PENDING; LOST] → s ∉ [LEASED; RUNNING].
Proof. set_solver. Qed.

Lemma cancelled_releases : CANCELLED ∉ [LEASED; RUNNING].
Proof. set_solver. Qed.

(** What a committed [finish] writes: the run row leaves the leased states, the
    lease row is gone, its writer row is cleared and its slot is returned. *)
Lemma finish_effect d lease res at_ run d' :
  queue_inv d → finish d lease res at_ = Ok (run, d') →
  ∃ lr row row', run_leases d !! rl_run_id lr = Some lr ∧ lease_matches lr lease = true ∧
    runs d !! rl_run_id lr = Some row ∧ rr_lease_generation row' = rr_lease_generation row ∧
    runs d' = <[rl_run_id lr := row']> (runs d) ∧
    run_leases d' = delete (rl_run_id lr) (run_leases d) ∧
    same_owner row row' ∧ rr_id row' = rl_run_id lr ∧
    rr_status row' = (if rr_cancellation_requested row then CANCELLED else res_status res) ∧
    run_status run = rr_status row' ∧ run_fence_matches row lease = true ∧
    (∃ d2, runs d2 = <[rl_run_id lr := row']> (runs d) ∧ workers d2 = workers d ∧
       run_leases d2 = run_leases d ∧ workspace_leases d2 = workspace_leases d ∧
       d' = _return_worker_slot (delete_run_lease (_release_workspace_for_run d2 lr) lr)
              (rl_worker_id lr)).
Proof.
  intros Hinv H. unfold finish in H. run_inv H. apply commit_Ok in H as [H _]. run_inv H.
  apply locked_lease_state_Ok in Hrun0 as (Hrid & Hl & Hm & Hr & Hf & Hid); [|apply Hinv].
  set (desired := if rr_cancellation_requested r0 then CANCELLED else res_status res) in *.
  assert (run_status v3 = desired) as Hv3.
  { apply transition_run_data in Hrun3 as (t & lw & le & _ & _ & _ & _ & Hv).
    apply validate_run_Ok in Hv as [-> _].
    destruct (res_last_checkpoint_id res); [|by injection Hrun4 as <-].
    by apply copy_with_checkpoint_inv in Hrun4 as (_ & -> & _). }
  assert (lease_worker_id lease = rl_worker_id r) as ->
    by (unfold lease_matches in Hm; bool_hyps; congruence).
  set (r' := set_retry_ready_at _ _) in *.
  set (d2 := if bool_decide (desired = COMPLETED) then _ else _).
  assert (same_tables (put_run d r') d2) as (E1 & E2 & E3 & E4).
  { unfold d2. destruct (bool_decide (desired = COMPLETED)); [apply enqueue_memory_same|by split_and!]. }
  assert (runs d2 = <[rl_run_id r := r']> (runs d)) as Er by (rewrite E1; simpl; by rewrite Hid).
  exists r, r0, r'. split_and!; try done.
  - match goal with |- runs ?x = _ => change x with
      (_return_worker_slot (delete_run_lease (_release_workspace_for_run d2 r) r) (rl_worker_id r)) end.
    destruct (return_slot_frame (delete_run_lease (_release_workspace_for_run d2 r) r) (rl_worker_id r))
      as (-> & _). simpl. by destruct (release_workspace_frame d2 r) as (-> & _).
  - match goal with |- run_leases ?x = _ => change x with
      (_return_worker_slot (delete_run_lease (_release_workspace_for_run d2 r) r) (rl_worker_id r)) end.
    destruct (return_slot_frame (delete_run_lease (_release_workspace_for_run d2 r) r) (rl_worker_id r))
      as (_ & -> & _). simpl. destruct (release_workspace_frame d2 r) as (_ & _ & ->). by rewrite E3.
  - by apply run_domain_inv in Hrun5 as (_ & -> & _).
  - exists d2. by split_and!.
Qed.

Lemma finish_inv d lease res at_ run d' :
  queue_inv d → validate_run_execution_result res = Ok res →
  finish d lease res at_ = Ok (run, d') → queue_inv d'.
Proof.
  intros Hinv Hres H. destruct (finish_effect _ _ _ _ _ _ Hinv H)
    as (lr & row & row' & Hl & _ & Hr & _ & _ & _ & Ho & Hid & Hs & _ & _ & d2 & E1 & E2 & E3 & E4 & ->).
  eapply (retire_lease_inv d d2 lr row row'); try done. rewrite Hs.
  unfold validate_run_execution_result in Hres. run_inv Hres. bool_hyps.
  destruct (rr_cancellation_requested row); [apply cancelled_releases|by apply releasing_status].
Qed.

(** ** Recovery *)

Lemma requeue_retry_inv now d row run d' :
  queue_inv d → runs d !! rr_id row = Some row → rr_status row = RETRY_PENDING →
  requeue_retry now d row = Ok (run, d') → queue_inv d' ∧ run_status run = QUEUED.
Proof.
  intros Hinv Hr Hs H. unfold requeue_retry in H. run_inv H.
  assert (run_status run = QUEUED) as Hq.
  { apply transition_run_data in Hrun0 as (t & lw & le & _ & _ & _ & _ & Hv).
    by apply validate_run_Ok in Hv as [-> _]. }
  split; [|done]. eapply put_run_inv; simpl; try done.
  pose proof (inv_agree _ Hinv (rr_id row)) as Ha. rewrite Hr in Ha.
  destruct (run_leases d !! rr_id row) as [l|].
  - destruct Ha as (r & [= <-] & _ & _ & _ & Hin & _). rewrite Hs in Hin.
    by apply elem_of_cons in Hin as [?|[?|?%elem_of_nil]%elem_of_cons].
  - intros r [= <-]. simpl. rewrite Hq. set_solver.
Qed.

(** The rows a retry pass still has to visit are untouched by the earlier ones. *)
Lemma requeue_retries_inv now rows d runs' d' :
  queue_inv d → NoDup (map rr_id rows) →
  (∀ r, r ∈ rows → runs d !! rr_id r = Some r ∧ rr_status r = RETRY_PENDING) →
  requeue_retries now d rows = Ok (runs', d') → queue_inv d'.
Proof.
  revert d runs'. induction rows as [|row rows IH]; simpl; intros d runs' Hinv Hnd Hrows H.
  { by injection H as <- <-. }
  run_inv H. destruct (Hrows row) as [Hr Hs]; [by left|].
  apply NoDup_cons in Hnd as [Hnin Hnd].
  eapply IH; [|done| |done].
  - by eapply requeue_retry_inv.
  - intros x Hx. destruct (Hrows x) as [Hrx Hsx]; [by right|]. split; [|done].
    unfold requeue_retry in Hrun. run_inv Hrun. simpl.
    rewrite lookup_insert_ne; [done|]. intros Heq. apply Hnin.
    rewrite Heq. apply list_elem_of_fmap. eauto.
Qed.

Lemma recover_lease_inv now d l o d' :
  queue_inv d → run_leases d !! rl_run_id l = Some l →
  recover_lease now d l = Ok (o, d') →
  queue_inv d' ∧ run_leases d' = delete (rl_run_id l) (run_leases d).
Proof.
  intros Hinv Hl H. unfold recover_lease in H. run_inv H.
  pose proof (inv_agree _ Hinv (rl_run_id l)) as Ha. rewrite Hl in Ha.
  destruct Ha as (row & Hr & Ht & Hg & Hw & Hs & _). rewrite Hr in Hrun.
  assert (lease_owns_run l row = true) as Howns.
  { unfold lease_owns_run. by rewrite !bool_decide_true by done. }
  rewrite Howns in Hrun. run_inv Hrun.
  pose proof (st_runs _ (inv_struct _ Hinv) _ _ Hr) as Hid.
  split.
  - apply (retire_lease_inv d (put_run d (_apply_run row v)) l row (_apply_run row v)); try done.
    + simpl. unfold recover_run in Hrun0. run_inv Hrun0.
      destruct (run_cancellation_requested v0).
      * eapply transition_releases; [|done]. set_solver.
      * run_inv Hrun0. eapply transition_releases; [|done]. set_solver.
    + simpl. by rewrite Hid.
  - destruct (return_slot_frame (delete_run_lease (_release_workspace_for_run
      (put_run d (_apply_run row v)) l) l) (rl_worker_id l)) as (_ & -> & _).
    simpl. destruct (release_workspace_frame (put_run d (_apply_run row v)) l) as (_ & _ & ->).
    done.
Qed.

Lemma recover_leases_inv now ls d rs d' :
  queue_inv d → NoDup (map rl_run_id ls) →
  (∀ l, l ∈ ls → run_leases d !! rl_run_id l = Some l) →
  recover_leases now d ls = Ok (rs, d') →
  queue_inv d' ∧ ∀ k, run_leases d' !! k =
    if decide (k ∈ map rl_run_id ls) then None else run_leases d !! k.
Proof.
  revert d rs. induction ls as [|l ls IH]; intros d rs Hinv Hnd Hls H; simpl in H.
  { injection H as <- <-. split; [done|]. intros k.
    case_decide as Hk; [by apply elem_of_nil in Hk|done]. }
  run_inv H. simpl in Hnd. apply NoDup_cons in Hnd as [Hnin Hnd].
  destruct (recover_lease_inv _ _ _ _ _ Hinv (Hls l (list_elem_of_here _ _)) Hrun)
    as [Hinv1 Hdel].
  assert (∀ x, x ∈ ls → run_leases d0 !! rl_run_id x = Some x) as Hrest.
  { intros x Hx. rewrite Hdel, lookup_delete_ne; [apply Hls; by right|].
    intros Heq. apply Hnin. rewrite Heq. apply list_elem_of_fmap. eauto. }
  destruct (IH _ _ Hinv1 Hnd Hrest Hrun0) as [Hinv2 Hlk]. split; [done|].
  intros k. rewrite Hlk, Hdel, lookup_delete.
  destruct (decide (k = rl_run_id l)) as [->|Hk].
  - rewrite (decide_True (P := rl_run_id l ∈ map rl_run_id (l :: ls))) by (by left).
    by repeat case_decide.
  - rewrite (decide_False (P := rl_run_id l = k)) by done.
    destruct (decide (k ∈ map rl_run_id ls)) as [Hin|Hin].
    + rewrite decide_True; [done|]. by right.
    + rewrite decide_False; [done|]. by intros [?|?]%elem_of_cons.
Qed.

(** A projection that determines the key makes a query's rows distinct. *)
Lemma select_keys_nodup {V} (key : V → uuid) (m : gmap uuid V) P :
  (∀ k v, m !! k = Some v → key v = k) → NoDup (map key (select_where P m)).
Proof.
  intros Hkey. unfold select_where.
  assert (NoDup (map key (map_to_list m).*2)) as Hnd.
  { replace (map key (map_to_list m).*2) with (map_to_list m).*1.
    - apply NoDup_fst_map_to_list.
    - change (map key (map_to_list m).*2) with (key <$> (map_to_list m).*2).
      rewrite <- list_fmap_compose. apply list_fmap_ext. intros i [k v] Hi.
      apply list_elem_of_lookup_2, elem_of_map_to_list in Hi. simpl. by rewrite (Hkey k v). }
  eapply sublist_NoDup; [exact Hnd|]. apply (fmap_sublist key), sublist_filter.
Qed.

Lemma sorted_prefix_elem {V} (R : relation V) `{!RelDecision R} n (l : list V) x :
  x ∈ take n (merge_sort R l) → x ∈ l.
Proof.
  intros Hx. apply (elem_of_Permutation_proper x _ _ (merge_sort_Permutation R l)).
  eapply elem_of_take in Hx as (i & Hi & _). by eapply list_elem_of_lookup_2.
Qed.

Lemma sorted_prefix_nodup {V} (R : relation V) `{!RelDecision R} (key : V → uuid) n l :
  NoDup (map key l) → NoDup (map key (take n (merge_sort R l))).
Proof.
  intros Hnd. eapply sublist_NoDup.
  - rewrite <- (merge_sort_Permutation R l) in Hnd. exact Hnd.
  - apply (fmap_sublist key), sublist_take.
Qed.

Lemma due_retries_rows d locks now n r :
  db_struct d → r ∈ due_retries d locks now n →
  runs d !! rr_id r = Some r ∧ rr_status r = RETRY_PENDING.
Proof.
  intros Hst Hr. apply sorted_prefix_elem, elem_of_select in Hr as [Hd [k Hk]].
  unfold retry_due in Hd. bool_hyps. by rewrite (st_runs _ Hst _ _ Hk).
Qed.

Lemma expired_leases_rows d locks now n l :
  db_struct d → l ∈ expired_leases d locks now n →
  run_leases d !! rl_run_id l = Some l ∧ (rl_expires_at l ≤ now)%Z.
Proof.
  intros Hst Hl. apply sorted_prefix_elem, elem_of_select in Hl as [Hd [k Hk]].
  bool_hyps. by rewrite (lease_row_key _ _ _ Hst Hk).
Qed.

Lemma due_retries_nodup d locks now n :
  db_struct d → NoDup (map rr_id (due_retries d locks now n)).
Proof. intros Hst. apply sorted_prefix_nodup, select_keys_nodup, (st_runs _ Hst). Qed.

Lemma expired_leases_nodup d locks now n :
  db_struct d → NoDup (map rl_run_id (expired_leases d locks now n)).
Proof.
  intros Hst. apply sorted_prefix_nodup, select_keys_nodup. intros k x Hx.
  by apply (lease_row_key _ _ _ Hst).
Qed.

(** The two phases of a recovery transaction, each from a state that satisfies
    the invariant. *)
Lemma recover_expired_phases locks d at_ n rs ws d' :
  queue_inv d → recover_expired locks d at_ n = Ok (rs, ws, d') →
  ∃ now retried lost d1, queue_inv d1 ∧
    requeue_retries now d (due_retries d locks now n) = Ok (retried, d1) ∧
    recover_leases now d1 (expired_leases d1 locks now (n - length retried)) = Ok (lost, d') ∧
    normalize_timestamp at_ = Ok now ∧ rs = retried ++ lost ∧
    ws = map run_id (filter (λ r, run_status r = QUEUED) rs) ∧ (1 ≤ n ≤ MAX_RECOVERY_RUNS) ∧ db_ok d'.
Proof.
  intros Hinv H. unfold recover_expired in H. run_inv H. apply operation_timestamp_Ok in Hrun.
  apply commit_Ok in Hrun1 as [H Hok]. run_inv H.
  apply andb_prop in Hrun0 as [Hn1 Hn2]. apply Nat.leb_le in Hn1, Hn2.
  exists v, l, l0, d0. split_and!; try done.
  eapply (requeue_retries_inv v); [exact Hinv|by apply due_retries_nodup, inv_struct| |done].
  intros r Hr. by apply (due_retries_rows _ _ _ _ _ (inv_struct _ Hinv)) in Hr.
Qed.

Lemma recover_expired_inv locks d at_ n rs ws d' :
  queue_inv d → recover_expired locks d at_ n = Ok (rs, ws, d') → queue_inv d'.
Proof.
  intros Hinv H. destruct (recover_expired_phases _ _ _ _ _ _ _ Hinv H)
    as (now & retried & lost & d1 & Hinv1 & _ & Hlost & _).
  eapply (recover_leases_inv now); [exact Hinv1|by apply expired_leases_nodup, inv_struct| |done].
  intros x Hx. by apply (expired_leases_rows _ _ _ _ _ (inv_struct _ Hinv1)) in Hx as [? _].
Qed.

(** ** Claiming *)

(** The candidate loop only adds default quota rows and unowned workspace rows. *)
Record search_frame (d d1 : Db) : Prop := {
  sf_sessions : sessions d1 = sessions d;
  sf_runs : runs d1 = runs d;
  sf_workers : workers d1 = workers d;
  sf_run_leases : run_leases d1 = run_leases d;
  sf_quotas : ∀ t q, tenant_quotas d !! t = Some q → tenant_quotas d1 !! t = Some q;
  sf_workspaces : ∀ k w, workspace_leases d !! k = Some w → workspace_leases d1 !! k = Some w;
  sf_new_workspaces : ∀ k w, workspace_leases d1 !! k = Some w →
    workspace_leases d !! k = Some w ∨
    (workspace_leases d !! k = None ∧ (wl_tenant_id w, wl_workspace_id w) = k ∧
     wl_run_id w = None ∧ wl_worker_id w = None ∧ wl_run_lease_token w = None ∧
     wl_lease_token w = None);
}.

Lemma search_frame_refl d : search_frame d d.
Proof. constructor; eauto. Qed.

Lemma search_frame_trans d1 d2 d3 :
  search_frame d1 d2 → search_frame d2 d3 → search_frame d1 d3.
Proof.
  intros [A1 A2 A3 A4 A5 A6 A7] [B1 B2 B3 B4 B5 B6 B7].
  constructor; try congruence; eauto. intros k w Hw.
  destruct (B7 k w Hw) as [H2|(Hn & H2)]; [by apply A7|].
  right. split; [|done]. destruct (workspace_leases d1 !! k) eqn:E; [|done].
  apply A6 in E. congruence.
Qed.

Lemma ensure_quota_frame d t q at_ d1 row :
  ensure_tenant_quota d t q at_ = (d1, row) →
  search_frame d d1 ∧ tenant_quotas d1 !! t = Some row.
Proof.
  unfold ensure_tenant_quota. destruct (tenant_quotas d !! t) as [x|] eqn:E; intros [= <- <-].
  - by split; [apply search_frame_refl|].
  - split; [|apply lookup_insert_eq]. constructor; simpl; eauto.
    intros t' x Hx. rewrite lookup_insert_ne; [done|]. congruence.
Qed.

Lemma ensure_workspace_frame d t k d1 row :
  db_struct d → ensure_workspace_row d t k = (d1, row) →
  search_frame d d1 ∧ workspace_leases d1 !! (t, k) = Some row ∧
  tenant_quotas d1 = tenant_quotas d ∧
  is_none (wl_lease_token row) = workspace_unowned d t k.
Proof.
  intros Hst. unfold ensure_workspace_row, workspace_unowned.
  destruct (workspace_leases d !! (t, k)) as [w|] eqn:E; intros [= <- <-].
  - by split_and!; [apply search_frame_refl| | |].
  - split_and!; [|apply lookup_insert_eq|done|done]. constructor; simpl; eauto.
    + intros j x Hx. rewrite lookup_insert_ne; [done|]. congruence.
    + intros j x. rewrite lookup_insert. case_decide as Hj; [intros [= <-]|by left].
      right. by subst.
Qed.

Lemma search_frame_inv d d1 : search_frame d d1 → queue_inv d → queue_inv d1.
Proof.
  intros [F1 F2 F3 F4 _ _ F7] [[Hsr Hsw Hsl Hsk Hst] Ha Hw Hs Hn]. constructor.
  - constructor; rewrite ?F2, ?F3, ?F4; try done.
    + intros k l Hl. destruct (Hsl k l Hl) as [? Href]. split; [done|].
      unfold run_lease_references, run_exists in *. by rewrite F2, F3.
    + intros k w Hk. destruct (F7 k w Hk) as [Hold|(_ & Hkey & Hr & Hwk & _)].
      * destruct (Hsk k w Hold) as [? Href]. split; [done|].
        unfold workspace_lease_references, run_exists in *. by rewrite F2, F3.
      * split; [done|]. unfold workspace_lease_references. by rewrite Hr, Hwk.
  - intros k. rewrite F2, F4. apply Ha.
  - intros k w Hk. rewrite F4. destruct (F7 k w Hk) as [Hold|(_ & _ & _ & _ & Hr & _)]; [eauto|].
    by apply unowned_backed.
  - intros k w. rewrite F3. unfold _active_worker_leases. rewrite F4. apply Hs.
  - rewrite F3. apply Hn.
Qed.

Lemma claimable_frame d d1 r : search_frame d d1 → claimable d1 r = claimable d r.
Proof.
  intros [F1 F2 F3 F4 _ F6 F7]. unfold claimable, joined_session, workspace_unowned.
  rewrite F1. f_equal.
  destruct (workspace_leases d !! (rr_tenant_id r, rr_workspace_id r)) as [w|] eqn:E.
  - by rewrite (F6 _ _ E).
  - destruct (workspace_leases d1 !! _) as [w|] eqn:E1; [|done].
    destruct (F7 _ _ E1) as [?|(_ & _ & _ & _ & _ & ->)]; [congruence|done].
Qed.

(** Why a candidate was passed over: its tenant is at its active-run quota, or
    its workspace row is locked by another transaction. *)
Definition passed_over (d : Db) (locks : Locks) (r : RunRecord) : Prop :=
  (∃ q, tenant_quotas d !! rr_tenant_id r = Some q ∧
     (tq_max_active_runs q ≤ tenant_active_runs d (rr_tenant_id r))%Z) ∨
  (rr_tenant_id r, rr_workspace_id r) ∈ locked_workspaces locks.

Lemma passed_over_frame d d1 locks r :
  search_frame d d1 → passed_over d locks r → passed_over d1 locks r.
Proof.
  intros F [(q & Hq & Hle)|Hl]; [left|by right]. exists q. split; [by apply (sf_quotas _ _ F)|].
  unfold tenant_active_runs in *. by rewrite (sf_run_leases _ _ F).
Qed.

(** What the loop finds: a claimable run whose tenant is under quota, with its
    unowned workspace row, and no better candidate that was not passed over. *)
Definition search_found (cfg : QueueConfig) (locks : Locks) (now : timestamp) (d d1 : Db)
    (found : RunRecord * pystr * WorkspaceLeaseRecord) : Prop :=
  let '(r, route, w) := found in
  runs d !! rr_id r = Some r ∧ claimable d r = true ∧ (rr_id r ∉ locked_runs locks) ∧
  workspace_leases d1 !! (rr_tenant_id r, rr_workspace_id r) = Some w ∧
  wl_lease_token w = None ∧
  (∃ q, tenant_quotas d1 !! rr_tenant_id r = Some q ∧
     (tenant_active_runs d (rr_tenant_id r) < tq_max_active_runs q)%Z) ∧
  (∀ r', runs d !! rr_id r' = Some r' → claimable d r' = true → (rr_id r' ∉ locked_runs locks) →
     claim_before (admission_policy cfg) now r' r = true → passed_over d1 locks r').

(** The claim order is the lexicographic order of (effective rank descending,
    priority descending, creation time, id). *)
Lemma claim_before_iff p now a b :
  claim_before p now a b = true ↔
  (effective_rank p now b < effective_rank p now a ∨
   effective_rank p now a = effective_rank p now b ∧
   (rr_priority b < rr_priority a ∨
    rr_priority a = rr_priority b ∧
    (rr_created_at a < rr_created_at b ∨
     rr_created_at a = rr_created_at b ∧ (rr_id a < rr_id b)%N)))%Z.
Proof.
  unfold claim_before. cbv zeta.
  rewrite !orb_true_iff, !andb_true_iff, !orb_true_iff, !andb_true_iff, !orb_true_iff,
    !andb_true_iff, !Z.ltb_lt, !Z.eqb_eq, N.ltb_lt. done.
Qed.

Lemma claim_before_irrefl p now a : claim_before p now a a = false.
Proof. apply not_true_iff_false. rewrite claim_before_iff. lia. Qed.

Lemma claim_before_asym p now a b :
  claim_before p now a b = true → claim_before p now b a = false.
Proof. rewrite <- not_true_iff_false, !claim_before_iff. lia. Qed.

Lemma claim_before_negtrans p now a b c :
  claim_before p now a b = false → claim_before p now b c = false →
  claim_before p now a c = false.
Proof. rewrite <- !not_true_iff_false, !claim_before_iff. lia. Qed.

Lemma candidate_elem d locks skipped r :
  db_struct d →
  (r ∈ claim_candidates d locks skipped) ↔
  runs d !! rr_id r = Some r ∧ claimable d r = true ∧ (rr_id r ∉ locked_runs locks) ∧
  rr_id r ∉ skipped.
Proof.
  intros Hst. unfold claim_candidates. rewrite elem_of_select. split.
  - intros [Hc [k Hk]]. pose proof (st_runs _ Hst _ _ Hk) as <-. bool_hyps. by split_and!.
  - intros (Hr & -> & Hl & Hs). split; [|eauto].
    rewrite !bool_decide_false by done. done.
Qed.

Lemma claim_search_spec cfg locks now fuel d0 d skipped d1 o :
  queue_inv d0 → search_frame d0 d →
  (∀ r, runs d0 !! rr_id r = Some r → rr_id r ∈ skipped → passed_over d locks r) →
  claim_search cfg locks now fuel d skipped = (d1, o) →
  search_frame d0 d1 ∧ ∀ found, o = Some found → search_found cfg locks now d0 d1 found.
Proof.
  intros Hinv. revert d skipped. induction fuel as [|fuel IH]; intros d skipped F Hsk H; simpl in H.
  { injection H as <- <-. by split. }
  destruct (first_by _ _) as [c|] eqn:Hc; [|injection H as <- <-; by split].
  pose proof (inv_struct _ (search_frame_inv _ _ F Hinv)) as Hst.
  pose proof (first_by_least _ _ _ (claim_before_irrefl _ _) (claim_before_negtrans _ _)
    (claim_before_asym _ _) Hc) as Hleast.
  apply first_by_elem, (candidate_elem _ _ _ _ Hst) in Hc as (Hr & Hcl & Hnl & Hns).
  rewrite (sf_runs _ _ F) in Hr. rewrite (claimable_frame _ _ _ F) in Hcl.
  destruct (ensure_tenant_quota _ _ _ _) as [d2 q] eqn:Eq.
  destruct (ensure_quota_frame _ _ _ _ _ _ Eq) as [F2 Hq].
  pose proof (search_frame_trans _ _ _ F F2) as F02.
  assert (∀ d', search_frame d2 d' → ∀ P : Prop, passed_over d' locks c →
    ((∀ r, runs d0 !! rr_id r = Some r → rr_id r ∈ rr_id c :: skipped →
       passed_over d' locks r) → P) → P) as Hskip.
  { intros d' F' P Hover HP. apply HP. intros r Hrr [Heq|Hin]%elem_of_cons.
    - rewrite Heq, Hr in Hrr. by injection Hrr as <-.
    - eapply passed_over_frame; [exact F'|]. eapply passed_over_frame; [exact F2|]. eauto. }
  destruct (Z.leb (tq_max_active_runs q) _) eqn:Hle.
  { eapply (Hskip d2 (search_frame_refl _)); [|intros Hs'; by eapply (IH d2)].
    left. exists q. split; [done|]. by bool_hyps. }
  destruct (ensure_workspace_row _ _ _) as [d3 w] eqn:Ew.
  destruct (ensure_workspace_frame _ _ _ _ _
    (inv_struct _ (search_frame_inv _ _ F02 Hinv)) Ew) as (F3 & Hw & Hqs & Hun).
  pose proof (search_frame_trans _ _ _ F02 F3) as F03.
  assert (wl_lease_token w = None) as Hnone.
  { rewrite <- (claimable_frame _ _ _ F02) in Hcl. unfold claimable in Hcl. bool_hyps.
    apply is_none_eq. congruence. }
  rewrite Hnone, orb_false_r in H.
  destruct (bool_decide _) eqn:Hlock.
  { eapply (Hskip d3 F3); [|intros Hs'; by eapply (IH d3)]. right. by bool_hyps. }
  destruct (joined_session d c) as [s|] eqn:Hses; [|injection H as <- <-; by split].
  injection H as <- <-. split; [done|]. intros found [= <-]. bool_hyps.
  unfold tenant_active_runs in *. rewrite (sf_run_leases _ _ F02) in Hle.
  split_and!; try done.
  - exists q. split; [congruence|]. unfold tenant_active_runs. lia.
  - intros r' Hr' Hcl' Hnl' Hbefore. destruct (decide (rr_id r' ∈ skipped)) as [Hin|Hin].
    + eapply passed_over_frame; [exact F3|]. eapply passed_over_frame; [exact F2|]. eauto.
    + assert (r' ∈ claim_candidates d locks skipped) as Hcand.
      { apply candidate_elem; [done|]. rewrite (sf_runs _ _ F), (claimable_frame _ _ _ F). done. }
      apply Hleast in Hcand. congruence.
Qed.

(** What the candidate loop writes: default quota rows of tenants and unowned
    generation-0 rows of workspaces that had none. *)
Definition added_rows {K V} `{Countable K} (new : K → V) (m m1 : gmap K V) : Prop :=
  ∀ k, m1 !! k = m !! k ∨ (m !! k = None ∧ m1 !! k = Some (new k)).
Definition default_quota_row (cfg : QueueConfig) (now : timestamp) (_ : uuid) : TenantQuotaRecord :=
  let q := default_quota cfg in
  mkTenantQuotaRecord (quota_max_active_runs q) (quota_max_queued_runs q) (quota_max_gateway_requests q)
    (quota_memory_enabled q) now now.
Definition unowned_row (k : uuid * uuid) : WorkspaceLeaseRecord :=
  mkWorkspaceLeaseRecord k.1 k.2 None None None None 0 None None.
Record search_rows (cfg : QueueConfig) (now : timestamp) (d d1 : Db) : Prop := {
  sr_tables : d1 = set_workspace_leases (set_tenant_quotas d (tenant_quotas d1)) (workspace_leases d1);
  sr_quotas : added_rows (default_quota_row cfg now) (tenant_quotas d) (tenant_quotas d1);
  sr_workspaces : added_rows unowned_row (workspace_leases d) (workspace_leases d1);
}.

Lemma added_rows_trans {K V} `{Countable K} (new : K → V) m1 m2 m3 :
  added_rows new m1 m2 → added_rows new m2 m3 → added_rows new m1 m3.
Proof.
  intros H1 H2 k. destruct (H2 k) as [E|[E1 E2]]; [rewrite E; apply H1|].
  destruct (H1 k) as [E|[_ E]]; [right; split; congruence|congruence].
Qed.
Lemma added_rows_insert {K V} `{Countable K} (new : K → V) m k : m !! k = None → added_rows new m (<[k := new k]> m).
Proof. intros Hk j. rewrite lookup_insert. case_decide; [subst; by right|by left]. Qed.

Lemma search_rows_refl cfg now d : search_rows cfg now d d.
Proof. constructor; [by destruct d|by left..]. Qed.
Lemma search_rows_trans cfg now d1 d2 d3 :
  search_rows cfg now d1 d2 → search_rows cfg now d2 d3 → search_rows cfg now d1 d3.
Proof.
  intros [A1 A2 A3] [B1 B2 B3]. constructor; [|by eapply added_rows_trans..].
  rewrite B1 at 1. rewrite A1. done.
Qed.

Lemma claim_search_rows cfg locks now fuel d skipped d1 o :
  claim_search cfg locks now fuel d skipped = (d1, o) → search_rows cfg now d d1.
Proof.
  revert d skipped. induction fuel as [|fuel IH]; intros d skipped H; simpl in H.
  { injection H as <- <-. apply search_rows_refl. }
  destruct (first_by _ _) as [c|]; [|injection H as <- <-; apply search_rows_refl].
  destruct (ensure_tenant_quota _ _ _ _) as [d2 q] eqn:Eq.
  assert (search_rows cfg now d d2) as F2.
  { unfold ensure_tenant_quota in Eq. destruct (tenant_quotas d !! _) eqn:E; injection Eq as <- _; [apply search_rows_refl|].
    constructor; [by destruct d| |by left]. by apply (added_rows_insert (default_quota_row cfg now)). }
  destruct (Z.leb _ _); [eapply search_rows_trans; [exact F2|by eapply IH]|].
  destruct (ensure_workspace_row _ _ _) as [d3 w] eqn:Ew.
  assert (search_rows cfg now d2 d3) as F3.
  { unfold ensure_workspace_row in Ew. destruct (workspace_leases d2 !! _) eqn:E; injection Ew as <- _; [apply search_rows_refl|].
    constructor; [by destruct d2|by left|]. by apply (added_rows_insert unowned_row). }
  pose proof (search_rows_trans _ _ _ _ _ F2 F3) as F23.
  destruct (bool_decide _ || _); [eapply search_rows_trans; [exact F23|by eapply IH]|].
  by destruct (joined_session d c); injection H as <- <-.
Qed.

(** The committed effect of a successful claim. *)
Record claim_effect (cfg : QueueConfig) (d d' : Db) (worker : pystr) (now expires : timestamp) (token wtoken : uuid)
    (row row' : RunRecord) : Prop := {
  ce_row : runs d !! rr_id row = Some row;
  ce_runs : runs d' = <[rr_id row := row']> (runs d);
  ce_row_id : rr_id row' = rr_id row;
  ce_owner : same_owner row row';
  ce_generation : rr_lease_generation row' = (rr_lease_generation row + 1)%Z;
  ce_status : rr_status row' = LEASED;
  ce_unleased : run_leases d !! rr_id row = None;
  ce_leases : run_leases d' = <[rr_id row := mkRunLeaseRecord (rr_id row) (rr_tenant_id row)
    worker token (rr_lease_generation row + 1) now now expires]> (run_leases d);
  ce_writer : ∃ w, workspace_leases d' !! (rr_tenant_id row, rr_workspace_id row) = Some w ∧
    wl_run_id w = Some (rr_id row) ∧ wl_lease_token w = Some wtoken ∧
    wl_run_lease_token w = Some token;
  ce_worker : ∃ w, workers d !! worker = Some w ∧ wk_status w = ACTIVE ∧
    (0 < wk_available_slots w)%Z ∧
    workers d' = <[worker := set_available_slots w (wk_available_slots w - 1)]> (workers d);
  ce_exact : ∃ d1 run leased wk ws, search_rows cfg now d d1 ∧ _run_domain row = Ok run ∧
    transition_run run LEASED (utc now) (Some worker) (Some (utc expires)) = Ok leased ∧
    row' = set_lease_generation (_apply_run row leased) (rr_lease_generation row + 1) ∧
    workers d !! worker = Some wk ∧
    workspace_leases d1 !! (rr_tenant_id row, rr_workspace_id row) = Some ws ∧ wl_lease_token ws = None ∧
    d' = put_worker (put_workspace_lease
           (put_run_lease (put_run d1 row') (mkRunLeaseRecord (rr_id row) (rr_tenant_id row) worker token
              (rr_lease_generation row + 1) now now expires))
           (mkWorkspaceLeaseRecord (rr_tenant_id row) (rr_workspace_id row) (Some (rr_id row)) (Some worker)
              (Some token) (Some wtoken) (wl_generation ws + 1) (Some now) (Some expires)))
           (set_available_slots wk (wk_available_slots wk - 1));
}.

(** The writes of a claim, on a database whose final state passes the
    constraints. *)
Lemma claim_writes_inv d l row row' w' worker n :
  queue_inv d → run_leases d !! rl_run_id l = None → runs d !! rl_run_id l = Some row →
  rr_id row' = rl_run_id l → same_owner row row' → rr_tenant_id row = rl_tenant_id l →
  workers d !! rl_worker_id l = Some worker → n = (wk_available_slots worker - 1)%Z →
  wl_run_id w' = Some (rl_run_id l) → wl_worker_id w' = Some (rl_worker_id l) →
  wl_run_lease_token w' = Some (rl_lease_token l) →
  lease_agree (Some row') (Some l) →
  db_ok (put_worker (put_workspace_lease (put_run_lease (put_run d row') l) w')
           (set_available_slots worker n)) →
  queue_inv (put_worker (put_workspace_lease (put_run_lease (put_run d row') l) w')
           (set_available_slots worker n)).
Proof.
  intros Hinv Hn Hr Hid Ho Ht Hw -> Hwr Hww Hwt Hag Hok.
  pose proof (st_workers _ (inv_struct _ Hinv) _ _ Hw) as Hk.
  set (wk' := set_available_slots worker _) in *.
  set (base := put_worker d wk').
  assert (queue_inv base) as Hb.
  { apply put_worker_inv; [done| |].
    - simpl. rewrite Hk. by apply (inv_names _ Hinv _ _ Hw).
    - simpl. split; [by apply (worker_slots _ _ _ Hok (lookup_insert_eq _ _ _))|].
      rewrite Hk. pose proof (inv_slots _ Hinv _ _ Hw). lia. }
  pose proof (db_ok_struct _ Hok) as [_ _ _ Hsk Hst].
  assert (queue_inv (put_run_lease (put_run base row') l)) as Hg.
  { eapply (grant_lease_inv base l row row' wk'); try done; simpl.
    - intros k x Hx Heq. assert (rl_run_id l ≠ k) as Hne by congruence. apply Hne.
      apply (Hst (rl_run_id l) l (lookup_insert_eq _ _ _) k x); [|done].
      simpl. by rewrite lookup_insert_ne.
    - simpl. rewrite Hk. apply lookup_insert_eq.
    - pose proof (inv_slots _ Hinv _ _ Hw).
      change (_active_worker_leases base (rl_worker_id l))
        with (_active_worker_leases d (rl_worker_id l)). lia. }
  apply (put_workspace_inv _ w' Hg).
  - intros t' Ht'. exists (rl_run_id l), l. simpl. rewrite lookup_insert_eq.
    split_and!; try done. congruence.
  - apply (Hsk (wl_tenant_id w', wl_workspace_id w') w'). apply lookup_insert_eq.
Qed.

Lemma claim_Some cfg locks d worker at_ dur token wtoken lease d' :
  queue_inv d → claim cfg locks d worker at_ dur token wtoken = Ok (Some lease, d') →
  ∃ now expires d1 row row' route w,
    normalize_timestamp at_ = Ok now ∧ expires = (now + dur)%Z ∧ (0 < dur ≤ MAX_LEASE)%Z ∧
    claim_search cfg locks now MAX_CLAIM_CANDIDATES d [] = (d1, Some (row, route, w)) ∧
    search_found cfg locks now d d1 (row, route, w) ∧
    claim_effect cfg d d' worker now expires token wtoken row row' ∧
    lease_run_id lease = rr_id row ∧ lease_lease_token lease = token ∧
    lease_generation lease = (rr_lease_generation row + 1)%Z ∧
    queue_inv d' ∧ db_ok d'.
Proof.
  intros Hinv H. unfold claim in H. run_inv H.
  apply operation_timestamp_Ok in Hrun. unfold _expiry in Hrun0. run_inv Hrun0. bool_hyps.
  apply commit_Ok in H as [H Hok]. run_inv H.
  destruct (negb _ || _)%bool eqn:Hact; [by run_inv H|]. bool_hyps.
  destruct (claim_search _ _ _ _ _ _) as [d1 [[[row route] w]|]] eqn:Hs; [|by run_inv H].
  destruct (claim_search_spec _ _ _ _ d _ _ _ _ Hinv (search_frame_refl d)
    (λ r _ Hin, False_ind _ (not_elem_of_nil _ Hin)) Hs) as [F Hf].
  specialize (Hf _ eq_refl). pose proof Hf as (Hr & Hcl & _ & Hw & Hnone & _).
  run_inv H. apply is_none_eq in Hrun3.
  pose proof (run_domain_inv _ _ Hrun1) as (Hwf & _).
  pose proof (transition_run_data _ _ _ _ _ _ Hrun2) as (t & lw & le & Ht & _ & _ & Hl & Hv).
  rewrite normalize_utc in Ht. injection Ht as <-.
  destruct (Hl eq_refl) as (x & y & Ha & -> & ->).
  apply lease_arguments_Ok in Ha as (_ & (? & [= <-] & ->) & (? & [= <-] & Hy) & _).
  rewrite normalize_utc in Hy. injection Hy as <-.
  apply validate_run_Ok in Hv as [-> Hwf'].
  pose proof (inv_names _ Hinv _ _ Hrun0) as Hname.
  pose proof (search_frame_inv _ _ F Hinv) as Hinv1.
  pose proof (st_workers _ (inv_struct _ Hinv) _ _ Hrun0) as Hwk.
  destruct (st_workspaces _ (inv_struct _ Hinv1) _ _ Hw) as [Hkey _].
  rewrite <- (sf_runs _ _ F) in Hr. rewrite (sf_run_leases _ _ F) in Hrun3.
  assert (rr_tenant_id row = wl_tenant_id w ∧ rr_workspace_id row = wl_workspace_id w) as [Kt Kw]
    by (split; congruence).
  match type of Hok with db_ok (put_worker (put_workspace_lease (put_run_lease (put_run _ ?r') ?l)
    ?w') (set_available_slots _ ?n)) => set (row' := r') in *; set (lrow := l) in *; set (wrow := w') in * end.
  assert (queue_inv (put_worker (put_workspace_lease (put_run_lease (put_run d1 row') lrow) wrow)
    (set_available_slots v0 (wk_available_slots v0 - 1)))) as Hfinal.
  { eapply (claim_writes_inv d1 lrow row row' wrow v0); try done; simpl.
    - by rewrite (sf_run_leases _ _ F).
    - by rewrite (sf_workers _ _ F).
    - eexists. split; [done|]. simpl. rewrite Hname, worker_name_stripped by done.
      split_and!; try done. apply list_elem_of_here. }
  exists v, (v + dur)%Z, d1, row, row', route, w. split_and!; try done.
  - constructor; simpl; try done.
    + by rewrite <- (sf_runs _ _ F).
    + by rewrite (sf_runs _ _ F).
    + by rewrite (sf_run_leases _ _ F).
    + eexists. rewrite <- Kt, <- Kw, lookup_insert_eq. by split_and!.
    + exists v0. rewrite Hwk, (sf_workers _ _ F). split_and!; try done; lia.
    + eexists d1, _, _, v0, w. split_and!; try done; [by eapply claim_search_rows|].
      unfold wrow. by rewrite <- Kt, <- Kw.
  - unfold _run_lease_domain, validate_run_lease in Hrun4. by run_inv Hrun4.
  - unfold _run_lease_domain, validate_run_lease in Hrun4. by run_inv Hrun4.
  - unfold _run_lease_domain, validate_run_lease in Hrun4. by run_inv Hrun4.
Qed.

(** A claim that finds nothing changes no run, worker or lease. *)
Lemma claim_None cfg locks d worker at_ dur token wtoken d' :
  queue_inv d → claim cfg locks d worker at_ dur token wtoken = Ok (None, d') →
  search_frame d d'.
Proof.
  intros Hinv H. unfold claim in H. run_inv H. apply commit_Ok in H as [H _]. run_inv H.
  destruct (negb _ || _)%bool; [run_inv H; apply search_frame_refl|].
  destruct (claim_search _ _ _ _ _ _) as [d1 [[[row route] w]|]] eqn:Hs; run_inv H.
  by destruct (claim_search_spec _ _ _ _ d _ _ _ _ Hinv (search_frame_refl d)
    (λ r _ Hin, False_ind _ (not_elem_of_nil _ Hin)) Hs) as [F _].
Qed.

Lemma claim_inv cfg locks d worker at_ dur token wtoken o d' :
  queue_inv d → claim cfg locks d worker at_ dur token wtoken = Ok (o, d') → queue_inv d'.
Proof.
  intros Hinv H. destruct o as [lease|].
  - by apply claim_Some in H as (? & ? & ? & ? & ? & ? & ? & ? & ? & ? & ? & ? & ? & ? & ? & ? & ? & ?).
  - apply claim_None in H; [|done]. by eapply search_frame_inv.
Qed.

(** ** Workspace writer leases *)

(** A validated writer row built for the caller's run lease is backed by it. *)
Lemma acquire_inv d lease at_ dur token o d' :
  queue_inv d → acquire d lease at_ dur token = Ok (o, d') → queue_inv d'.
Proof.
  intros Hinv H. unfold acquire in H. run_inv H. apply commit_Ok in H as [H Hok]. run_inv H.
  apply matching_lease_Ok in Hrun1 as [Hl Hm].
  apply (lease_by_token_Some _ _ _ (inv_struct _ Hinv)) in Hl as [Htok Hl].
  destruct (ensure_workspace_frame _ _ _ _ _ (inv_struct _ Hinv) Epair) as (F & Hw & _ & _).
  pose proof (search_frame_inv _ _ F Hinv) as Hinv1.
  pose proof (db_ok_struct _ Hok) as [_ _ _ Hsk _].
  unfold lease_matches in Hm. bool_hyps.
  destruct (is_some (wl_lease_token w)).
  - destruct (owned_by_run_lease w lease) eqn:Hown; run_inv H; [|done].
    apply put_workspace_inv; [done| |].
    + intros t Ht. by apply (inv_writer _ Hinv1 _ _ Hw).
    + eapply (Hsk (wl_tenant_id w, wl_workspace_id w)), lookup_insert_eq.
  - run_inv H. apply put_workspace_inv; [done| |].
    + intros t [= <-]. exists (lease_run_id lease), v1.
      rewrite (sf_run_leases _ _ F). split_and!; simpl; congruence.
    + eapply (Hsk (wl_tenant_id w, wl_workspace_id w)), lookup_insert_eq.
Qed.

Lemma workspace_heartbeat_inv d lease at_ dur lease' d' :
  queue_inv d → WorkspaceLeases.heartbeat d lease at_ dur = Ok (lease', d') → queue_inv d'.
Proof.
  intros Hinv H. unfold WorkspaceLeases.heartbeat in H. run_inv H.
  apply commit_Ok in H as [H Hok]. run_inv H.
  apply put_workspace_inv; [done| |].
  - intros t Ht. by apply (inv_writer _ Hinv _ _ Hrun3).
  - pose proof (db_ok_struct _ Hok) as [_ _ _ Hsk _].
    eapply (Hsk (wl_tenant_id v3, wl_workspace_id v3)), lookup_insert_eq.
Qed.

Lemma release_inv d lease u d' :
  queue_inv d → release d lease = Ok (u, d') → queue_inv d'.
Proof.
  intros Hinv H. unfold release in H. apply commit_Ok in H as [H _]. run_inv H.
  destruct (is_none (wl_lease_token v)); run_inv H; [done|].
  apply put_workspace_inv; [done|by apply unowned_backed|done].
Qed.

(** ** Cancellation and administrative transitions *)

Lemma tenant_run_lookup d t k r :
  db_struct d → tenant_run d t k = Some r → runs d !! rr_id r = Some r ∧ rr_id r = k ∧
  rr_tenant_id r = t.
Proof.
  intros Hst H. unfold tenant_run in H. destruct (runs d !! k) as [x|] eqn:Hx; [|done].
  destruct (bool_decide _) eqn:Hb; [|done]. injection H as <-. bool_hyps.
  by rewrite (st_runs _ Hst _ _ Hx).
Qed.

Lemma request_cancel_inv d t k at_ o d' :
  queue_inv d → request_cancel d t k at_ = Ok (o, d') → queue_inv d'.
Proof.
  intros Hinv H. unfold request_cancel in H. apply commit_Ok in H as [H _].
  destruct (tenant_run d t k) as [row|] eqn:Hr; [|by run_inv H].
  apply (tenant_run_lookup _ _ _ _ (inv_struct _ Hinv)) in Hr as (Hr & _ & _).
  run_inv H. pose proof (run_domain_inv _ _ Hrun) as (Hwf & Hs & _ & _ & Hwk & Hex & _).
  destruct (bool_decide (run_status v ∈ [COMPLETED; FAILED; CANCELLED])); [by run_inv H|].
  run_inv H. eapply put_run_inv; simpl; try done.
  pose proof (inv_agree _ Hinv (rr_id row)) as Ha. rewrite Hr in Ha.
  destruct (bool_decide (run_status v ∈ [QUEUED; _; _; _])) eqn:Hb; bool_hyps.
  - assert (run_leases d !! rr_id row = None) as Hnone.
    { destruct (run_leases d !! rr_id row) as [l|]; [|done].
      destruct Ha as (r & [= <-] & _ & _ & _ & Hin & _). rewrite <- Hs in Hin.
      by apply waiting_status in Hin. }
    rewrite Hnone. intros r [= <-]. simpl.
    eapply transition_releases; [apply cancelled_releases|done].
  - apply copy_with_cancellation_inv in Hrun0 as (_ & Hst & Hw' & He' & _).
    destruct (run_leases d !! rr_id row) as [l|] eqn:Hl.
    + assert (rl_run_id l = rr_id row) as Hlk by (by apply (lease_row_key d _ _ (inv_struct _ Hinv))).
      rewrite <- Hlk in Hl, Hr.
      pose proof (held_worker_strip _ _ _ Hinv Hl Hr) as Hstrip.
      destruct Ha as (r & [= <-] & ? & ? & ? & ? & ?).
      eexists. split; [done|]. simpl. rewrite Hw', Hwk, Hstrip, Hst, Hs, He', Hex. simpl.
      rewrite worker_name_stripped by apply (lease_worker_registered _ _ _ Hinv Hl).
      by split_and!.
    + intros r [= <-]. simpl. rewrite Hst, Hs. by apply Ha.
Qed.

Lemma unleased_row d row :
  queue_inv d → runs d !! rr_id row = Some row → rr_status row ∉ [LEASED; RUNNING] → run_leases d !! rr_id row = None.
Proof.
  intros Hinv Hr Hs. pose proof (inv_agree _ Hinv (rr_id row)) as Ha. rewrite Hr in Ha.
  destruct (run_leases d !! rr_id row) as [l|]; [|done]. destruct Ha as (r & [= <-] & _ & _ & _ & Hin & _). by destruct Hs.
Qed.

(** A transition between statuses without a lease *)
Lemma transition_inv d t k from to at_ wk ex b d' :
  queue_inv d → from ∉ [LEASED; RUNNING] → to ∉ [LEASED; RUNNING] →
  transition d t k from to at_ wk ex = Ok (b, d') → queue_inv d'.
Proof.
  intros Hinv Hf Ht H. unfold transition in H. apply commit_Ok in H as [H _].
  destruct (tenant_run d t k) as [row|] eqn:Hr; [|by run_inv H].
  apply (tenant_run_lookup _ _ _ _ (inv_struct _ Hinv)) in Hr as (Hr & _ & _).
  case_bool_decide as Hs; [|by run_inv H]. run_inv H. eapply put_run_inv; simpl; try done.
  rewrite (unleased_row _ _ Hinv Hr) by done.
  intros r [= <-]. simpl. by eapply transition_releases.
Qed.

(** A transition to LEASED makes a leased run without a lease row: only [claim] leases
    runs consistently. *)
Lemma transition_leased_breaks d t k at_ wk ex d' :
  queue_inv d → transition d t k QUEUED LEASED at_ wk ex = Ok (true, d') → ~ queue_inv d'.
Proof.
  intros Hinv H Hinv'. unfold transition in H. apply commit_Ok in H as [H _].
  destruct (tenant_run d t k) as [row|] eqn:Hr; [|by run_inv H].
  apply (tenant_run_lookup _ _ _ _ (inv_struct _ Hinv)) in Hr as (Hr & _ & _).
  case_bool_decide as Hs; [|by run_inv H]. run_inv H.
  pose proof (inv_agree _ Hinv' (rr_id row)) as Ha. simpl in Ha.
  rewrite lookup_insert_eq, (unleased_row _ _ Hinv Hr) in Ha by (rewrite Hs; set_solver).
  apply (Ha _ eq_refl). simpl. apply transition_run_data in Hrun0 as (? & lw & le & _ & _ & _ & _ & Hv).
  apply validate_run_Ok in Hv as [-> _]. simpl. set_solver.
Qed.
