(* ===== verification/ControlOperations.v ===== *)
(** * Control-plane operations preserve the queue invariant

    Creation, rewinding and approvals act on the same run rows as the queue; this
    file shows what each commits and that none of them disturbs the leases. *)

From stdpp Require Import base list sets gmap strings sorting.
From Stdlib Require Import ZArith Lia.
From S2P Require Import Prelude PyBase Domain Tables Contracts RunQueue WorkspaceLeases RunRepository Approvals QueueInvariant QueueOperations.

(** ** Creation *)

Lemma creation_record_Some d t s key r :
  db_struct d → _creation_record d t s key = Some r →
  runs d !! rr_id r = Some r ∧ rr_tenant_id r = t ∧ rr_session_id r = s ∧
  rr_idempotency_key r = key.
Proof.
  intros Hst H. apply scalar_where_Some in H as [Hb [k Hk]]. bool_hyps.
  by rewrite (st_runs _ Hst _ _ Hk).
Qed.

Lemma creation_record_None d t s key k r :
  _creation_record d t s key = None → runs d !! k = Some r →
  rr_tenant_id r = t → rr_session_id r = s → rr_idempotency_key r ≠ key.
Proof.
  intros H Hk Ht Hs Hkey. pose proof (scalar_where_None _ _ _ _ H Hk) as Hb. cbv beta in Hb.
  by rewrite !bool_decide_true in Hb by done.
Qed.

(** The run table decides which creation record a key has. *)
Lemma creation_record_runs d d' t s key :
  runs d' = runs d → _creation_record d' t s key = _creation_record d t s key.
Proof. unfold _creation_record. by intros ->. Qed.

Lemma ensure_quota_tables d t q at_ d1 row :
  ensure_tenant_quota d t q at_ = (d1, row) →
  same_tables d d1 ∧ queue_admission d1 = queue_admission d ∧
  row = match tenant_quotas d !! t with
        | Some q => q
        | None => mkTenantQuotaRecord (quota_max_active_runs q) (quota_max_queued_runs q)
                    (quota_max_gateway_requests q) (quota_memory_enabled q) at_ at_
        end.
Proof.
  unfold ensure_tenant_quota. destruct (tenant_quotas d !! t); intros [= <- <-]; by split_and!.
Qed.

(** After the admission check the stored limit is the configured one. *)
Lemma queue_admission_Ok d policy at_ d1 row :
  _queue_admission d policy at_ = Ok (d1, row) →
  same_tables d d1 ∧ qa_global_queue_limit row = policy_global_queue_limit policy ∧
  queue_admission d1 = Some row.
Proof.
  unfold _queue_admission. cbv zeta. set (cur := match queue_admission d with Some _ => _ | None => _ end).
  destruct (_ || _) eqn:E; intros H; run_inv H; split_and!; try done.
  apply orb_false_elim in E as [E _]. by bool_hyps.
Qed.

Lemma insert_message_tables d m d1 : insert_message d m = Ok d1 → same_tables d d1.
Proof. unfold insert_message. intros H. run_inv H. by split_and!. Qed.

Lemma insert_plan_tables d k p d1 : insert_plan d k p = Ok d1 → same_tables d d1.
Proof. unfold insert_plan. intros H. run_inv H. by split_and!. Qed.

Lemma same_tables_refl d : same_tables d d.
Proof. by split_and!. Qed.

Lemma same_tables_trans d1 d2 d3 : same_tables d1 d2 → same_tables d2 d3 → same_tables d1 d3.
Proof. intros (A1 & A2 & A3 & A4) (B1 & B2 & B3 & B4). split_and!; congruence. Qed.

Lemma initial_state_tables d t s m p d1 :
  _insert_initial_state d t s m p = Ok d1 → same_tables d d1.
Proof.
  unfold _insert_initial_state. intros H. run_inv H.
  eapply same_tables_trans; [by eapply insert_message_tables|by eapply insert_plan_tables].
Qed.

(** A new unleased run disturbs no lease. *)
Lemma new_run_inv d r :
  queue_inv d → runs d !! rr_id r = None → rr_status r ∉ [LEASED; RUNNING] →
  queue_inv (put_run d r).
Proof.
  intros [[Hsr Hsw Hsl Hsk Hst] Ha Hw Hs Hn] Hnone Hstat.
  assert (∀ t k, run_exists d t k = true → run_exists (put_run d r) t k = true) as Hmono.
  { intros t k. unfold run_exists. simpl. rewrite lookup_insert. case_decide; [|done].
    subst. by rewrite Hnone. }
  constructor; try done; simpl.
  - constructor; try done; simpl.
    + intros k x. rewrite lookup_insert. case_decide; [intros [= <-]; done|eauto].
    + intros k l Hl. destruct (Hsl k l Hl) as [? Href]. split; [done|].
      unfold run_lease_references in *. apply andb_true_iff in Href as [H1 H2].
      by rewrite (Hmono _ _ H1).
    + intros k w Hk. destruct (Hsk k w Hk) as [? Href]. split; [done|].
      unfold workspace_lease_references in *. apply andb_true_iff in Href as [H1 H2].
      apply andb_true_intro. split; [|done]. destruct (wl_run_id w) as [j|]; [|done].
      apply andb_true_iff in H1 as [H1 H3]. rewrite (Hmono _ _ H1). simpl.
      rewrite lookup_insert. case_decide; [subst; by rewrite Hnone in H3|done].
  - intros k. rewrite lookup_insert. case_decide as Hk; [subst|apply Ha].
    destruct (run_leases d !! rr_id r) as [l|] eqn:Hl; [|by intros x [= <-]].
    destruct (Hsl _ _ Hl) as [Hid Href]. unfold run_lease_references, run_exists in Href.
    by rewrite Hid, Hnone in Href.
Qed.

(** What a committed creation did: nothing but default rows for a known key, or
    one new run row for a fresh one, within both queue limits. *)
Lemma create_effect cfg digest d tenant run key hash sub mid pid res d' :
  db_struct d → _create cfg digest d tenant run key hash sub mid pid = Ok (res, d') →
  db_ok d' ∧ hash = run_creation_hash digest (run_priority run) (run_priority_class run) sub ∧
  match _creation_record d tenant (run_session_id run) key with
  | Some existing => d' = d ∧ creation_created res = false ∧ rr_creation_hash existing = hash ∧
      _run_domain existing = Ok (creation_run res)
  | None => res = mkRunCreationResult run true ∧ runs d !! run_id run = None ∧
      (∃ d2, same_tables d d2 ∧
         same_tables (put_run d2 (_run_values tenant run key hash)) d') ∧
      (tenant_queued_runs d tenant <
         match tenant_quotas d !! tenant with
         | Some q => tq_max_queued_runs q
         | None => quota_max_queued_runs (default_quota cfg)
         end)%Z ∧
      (global_queued_runs d < policy_global_queue_limit (admission_policy cfg))%Z
  end.
Proof.
  intros Hst H. unfold _create in H. run_inv H. bool_hyps. apply commit_Ok in H as [H Hok].
  split_and!; [done|done|].
  destruct (_creation_record d tenant (run_session_id run) key) as [existing|] eqn:Ec.
  { unfold _existing_creation in H. run_inv H. bool_hyps. by split_and!. }
  run_inv H. destruct (ensure_quota_tables _ _ _ _ _ _ Epair) as (F1 & _ & ->).
  pose proof F1 as (Er1 & _). rewrite (creation_record_runs d d0), Ec in H by done.
  run_inv H. destruct (queue_admission_Ok _ _ _ _ _ Hrun2) as (F2 & Hlim & _).
  pose proof (same_tables_trans _ _ _ F1 F2) as F12. pose proof F12 as (Er2 & _).
  rewrite (creation_record_runs d d1), Ec in H by done. run_inv H. bool_hyps.
  unfold insert_run in Hrun5. run_inv Hrun5.
  match goal with H : is_none _ = true |- _ => apply is_none_eq in H; rewrite Er2 in H end.
  unfold tenant_queued_runs, global_queued_runs in *. rewrite Er2 in *. rewrite <- Hlim.
  split_and!; try done.
  - exists d1. split; [done|]. destruct sub as [s|]; [by eapply initial_state_tables|].
    injection Hrun6 as <-. apply same_tables_refl.
  - by destruct (tenant_quotas d !! tenant).
Qed.

Lemma create_inv cfg digest d tenant run key hash sub mid pid res d' :
  queue_inv d → run_status run ∉ [LEASED; RUNNING] →
  _create cfg digest d tenant run key hash sub mid pid = Ok (res, d') → queue_inv d'.
Proof.
  intros Hinv Hs H. apply create_effect in H as (_ & _ & H); [|apply Hinv].
  destruct (_creation_record _ _ _ _); [by destruct H as [-> _]|].
  destruct H as (_ & Hn & (d2 & F1 & F2) & _). eapply queue_inv_same; [exact F2|].
  apply new_run_inv; simpl; [by eapply queue_inv_same|by destruct F1 as (-> & _)|done].
Qed.

(** ** Rewind *)

Section Rewind.
Context (message_uuid : uuid → Z → uuid → uuid) (plan_uuid : uuid → Z → uuid).

Lemma copy_messages_tables now row t e n ms d d1 :
  copy_messages message_uuid now row t e n ms d = Ok d1 → same_tables d d1.
Proof.
  revert n d. induction ms as [|m ms IH]; intros n d H; simpl in H.
  { injection H as <-. apply same_tables_refl. }
  run_inv H. eapply same_tables_trans; [by eapply insert_message_tables|by eapply IH].
Qed.

Lemma seed_branch_tables now d t row cid c e d1 :
  _seed_rewind_branch message_uuid plan_uuid now d t row cid c e = Ok d1 → same_tables d d1.
Proof.
  unfold _seed_rewind_branch. intros H. run_inv H.
  eapply same_tables_trans; [by eapply copy_messages_tables|by eapply insert_plan_tables].
Qed.

Lemma rewind_run_status run c run' :
  rewind_run run c = Ok run' →
  is_rewindable_run_status (run_status run) = true ∧ run_wf run' ∧ run_status run' = QUEUED ∧
  run_execution_epoch run' = (run_execution_epoch run + 1)%Z ∧
  run_attempt run' = (run_attempt run + 1)%Z ∧ run_last_checkpoint_id run' = Some c ∧
  run_cancellation_requested run' = false ∧ run_assigned_worker_id run' = None.
Proof.
  unfold rewind_run. intros H. run_inv H. by apply validate_run_Ok in H as [-> Hwf].
Qed.

(** A committed rewind rewrites the run row of a suspended or finished run and
    touches no other queue table. *)
Lemma rewind_effect now d t k c run d' :
  db_struct d → rewind message_uuid plan_uuid now d t k c = Ok (Some run, d') →
  ∃ row row', runs d !! k = Some row ∧ rr_tenant_id row = t ∧
    is_rewindable_run_status (rr_status row) = true ∧ same_owner row row' ∧ rr_id row' = k ∧
    rr_lease_generation row' = rr_lease_generation row ∧ rr_status row' = QUEUED ∧
    rr_execution_epoch row' = (rr_execution_epoch row + 1)%Z ∧
    rr_attempt row' = (rr_attempt row + 1)%Z ∧ rr_last_checkpoint_id row' = Some c ∧
    rr_cancellation_requested row' = false ∧
    (∃ d4, same_tables d d4 ∧ d' = put_run d4 row').
Proof.
  intros Hst H. unfold rewind in H. apply commit_Ok in H as [H _].
  destruct (tenant_run d t k) as [row|] eqn:Hr; [|run_inv H].
  destruct (run_checkpoint d t k c); [|run_inv H].
  apply (tenant_run_lookup _ _ _ _ Hst) in Hr as (Hr & Hid & Ht).
  run_inv H. apply run_domain_inv in Hrun0 as (_ & Hs & Hat & He & _).
  apply rewind_run_status in Hrun1 as (Hrw & _ & Hs' & He' & Hat' & Hc' & Hcan & _).
  apply seed_branch_tables in Hrun2.
  exists row, (set_retry_ready_at (_apply_run row run) None).
  simpl. rewrite <- Hs, <- He, <- Hat. split_and!; try done.
  eexists. split; [|done]. eapply same_tables_trans; [exact Hrun2|by split_and!].
Qed.

Lemma rewind_None now d t k c d' :
  rewind message_uuid plan_uuid now d t k c = Ok (None, d') → d' = d.
Proof.
  unfold rewind. intros H. apply commit_Ok in H as [H _].
  destruct (tenant_run d t k); [|by run_inv H].
  destruct (run_checkpoint d t k c); by run_inv H.
Qed.

Lemma rewind_inv now d t k c o d' :
  queue_inv d → rewind message_uuid plan_uuid now d t k c = Ok (o, d') → queue_inv d'.
Proof.
  intros Hinv H. destruct o as [run|]; [|by apply rewind_None in H as ->].
  apply rewind_effect in H as (row & row' & Hr & _ & Hrw & Ho & Hid & _ & Hs & _ & _ & _ & _ &
    d4 & F & ->); [|apply Hinv].
  pose proof F as (Er & _ & El & _).
  apply (put_run_inv d4 row); [by eapply queue_inv_same|by rewrite Er, Hid|done|].
  rewrite Hid, El. pose proof (inv_agree _ Hinv k) as Ha. rewrite Hr in Ha.
  destruct (run_leases d !! k) as [l|].
  - destruct Ha as (r & [= <-] & _ & _ & _ & Hin & _). exfalso.
    unfold is_rewindable_run_status in Hrw. bool_hyps.
    destruct (rr_status row); set_solver.
  - intros r [= <-]. rewrite Hs. set_solver.
Qed.
End Rewind.

(** ** Approvals *)

(** A committed [create_approval_fenced] writes at most an approval row. *)
Lemma create_approval_tables now d lease a t res d' :
  create_approval_fenced now d lease a t = Ok (res, d') → same_tables d d'.
Proof.
  unfold create_approval_fenced. intros H. run_inv H. apply commit_Ok in H as [H _]. run_inv H.
  match type of H with context [match ?f with Some _ => _ | None => _ end] => destruct f end;
    run_inv H; by split_and!.
Qed.

Lemma create_approval_unfenced_tables d tenant a t res d' :
  create_approval d tenant a t = Ok (res, d') → same_tables d d'.
Proof. unfold create_approval. intros H. apply commit_Ok in H as [H _]. run_inv H. by split_and!. Qed.

(** The two outcomes of a decision on a pending approval: the run row is requeued
    or the run table is untouched. *)
Lemma decide_effect d t k aid dec res woken d' :
  db_struct d → ApprovalRepository.decide d t k aid dec = Ok (res, woken, d') →
  if woken then
    ∃ a row run, current_approval d t k aid = Some a ∧ ap_status a = PENDING ∧
      runs d !! k = Some row ∧ rr_id row = k ∧ rr_status row = WAITING_APPROVAL ∧
      run_status run = QUEUED ∧
      pending_approvals d' t k (ap_execution_epoch a) = 0 ∧
      ∃ d1, same_tables d d1 ∧ d' = put_run d1 (_apply_run row run)
  else same_tables d d'.
Proof.
  intros Hst H. unfold ApprovalRepository.decide in H. cbv zeta in H. run_inv H.
  apply commit_Ok in Hrun as [H _].
  destruct (current_approval d t k aid) as [a|] eqn:Ea; [|run_inv H; apply same_tables_refl].
  run_inv H. destruct (negb (bool_decide (ap_status a = PENDING))) eqn:Hp.
  { run_inv H. apply same_tables_refl. }
  run_inv H. bool_hyps.
  apply (tenant_run_lookup _ _ _ _ Hst) in Hrun0 as (Hr & Hid & Ht).
  destruct (bool_decide (rr_status v0 = WAITING_APPROVAL) && _) eqn:Hw; run_inv Hrun1.
  - bool_hyps. subst. exists a, v0, v3. split_and!; try done.
    + apply transition_run_data in Hrun3 as (x & lw & le & _ & _ & _ & _ & Hv).
      by apply validate_run_Ok in Hv as [-> _].
    + by apply Nat.eqb_eq.
    + eexists. split; [|done]. by split_and!.
  - by split_and!.
Qed.

Lemma decide_inv d t k aid dec res woken d' :
  queue_inv d → ApprovalRepository.decide d t k aid dec = Ok (res, woken, d') → queue_inv d'.
Proof.
  intros Hinv H. apply decide_effect in H; [|apply Hinv].
  destruct woken; [|by eapply queue_inv_same].
  destruct H as (a & row & run & _ & _ & Hr & Hid & Hs & Hq & _ & d1 & F & ->).
  pose proof F as (Er & _ & El & _).
  apply (put_run_inv d1 row); simpl; [by eapply queue_inv_same|by rewrite Er, Hid|done|].
  rewrite El, Hid. pose proof (inv_agree _ Hinv k) as Ha. rewrite Hr in Ha.
  destruct (run_leases d !! k) as [l|].
  - destruct Ha as (r & [= <-] & _ & _ & _ & Hin & _). rewrite Hs in Hin. set_solver.
  - intros r [= <-]. simpl. rewrite Hq. set_solver.
Qed.
