(* ===== verification/TranscriptProperties.v ===== *)
(** * The durable transcript

    Appending to the journal is fenced, idempotent and exactly extends what a
    recovery from the checkpoint reads back. *)

From stdpp Require Import base list sets gmap strings sorting.
From Stdlib Require Import ZArith Lia.
From S2P Require Import Prelude PyBase Domain Tables Contracts RunQueue RunRepository Transcripts Execution Recovery MessageCodecs QueueInvariant ControlOperations.

#[export] Instance sequence_le_trans : Transitive sequence_le.
Proof. intros a b c. unfold sequence_le. lia. Qed.
#[export] Instance sequence_le_total : Total sequence_le.
Proof. intros a b. unfold sequence_le. lia. Qed.

(** Rows of the leased branch. *)
Definition on_branch (lease : RunLease) (m : MessageRecord) : bool :=
  bool_decide (msg_tenant_id m = lease_tenant_id lease)
  && bool_decide (msg_session_id m = lease_session_id lease)
  && bool_decide (msg_run_id m = lease_run_id lease)
  && (msg_execution_epoch m =? lease_execution_epoch lease)%Z.

Lemma max_sequence_bound d t s m k :
  messages d !! k = Some m → msg_tenant_id m = t → msg_session_id m = s →
  (msg_sequence m ≤ max_sequence d t s)%Z.
Proof.
  intros Hk Ht Hs. unfold max_sequence.
  assert (m ∈ select_where (λ m, bool_decide (msg_tenant_id m = t)
    && bool_decide (msg_session_id m = s)) (messages d)) as Hin.
  { apply elem_of_select. rewrite !bool_decide_true by done. eauto. }
  revert Hin. generalize (select_where (λ m, bool_decide (msg_tenant_id m = t)
    && bool_decide (msg_session_id m = s)) (messages d)). clear.
  induction l as [|x l IH]; simpl; intros Hin; [by apply elem_of_nil in Hin|].
  apply elem_of_cons in Hin as [->|Hin]; [lia|]. specialize (IH Hin). lia.
Qed.

Section Transcript.
Variable encoded_size : GatewayMessage → Z.
Variable message_id : uuid → Z → Z → uuid.

(** The rows a suffix adds. *)
Fixpoint new_rows (lease : RunLease) (t : timestamp) (i n : Z) (ms : list GatewayMessage)
    : list MessageRecord :=
  match ms with
  | [] => []
  | m :: ms => transcript_row message_id lease t m i n :: new_rows lease t (i + 1) (n + 1) ms
  end.

Lemma append_fresh before lease t i n ms d d' :
  (∀ j row m, (i ≤ j)%Z →
     tenant_message before (lease_tenant_id lease)
       (message_id (lease_run_id lease) (lease_execution_epoch lease) j) = Some row →
     same_transcript_row row lease m j = false) →
  append_messages message_id before lease t i n ms d = Ok d' →
  same_tables d d' ∧ checkpoints d' = checkpoints d ∧
  ∀ P, select_where P (messages d') ≡ₚ
       select_where P (messages d) ++ filter (λ r, P r = true) (new_rows lease t i n ms).
Proof.
  revert i n d. induction ms as [|m ms IH]; intros i n d Hno H; simpl in H.
  { injection H as <-. split_and!; [apply same_tables_refl|done|]. intros P.
    simpl. by rewrite app_nil_r. }
  destruct (tenant_message _ _ _) as [row|] eqn:Hrow.
  { run_inv H. rewrite (Hno i row m) in Hrun; [done|lia|done]. }
  run_inv H. pose proof (insert_message_tables _ _ _ Hrun) as Hs.
  unfold insert_message in Hrun. run_inv Hrun.
  apply IH in H as (Hs' & Hc & Hp); [|intros j row m' Hj; apply Hno; lia].
  split_and!; [by eapply same_tables_trans|by rewrite Hc|]. intros P. rewrite Hp. simpl.
  match goal with H : is_none _ = true |- _ => apply is_none_eq in H; rename H into Hnone end.
  rewrite (select_where_insert_new P _ _ _ Hnone), filter_cons.
  destruct (P _) eqn:HP; case_decide; try done; simpl.
  by rewrite Permutation_middle.
Qed.

Lemma new_rows_elem lease t i n ms r :
  r ∈ new_rows lease t i n ms →
  ∃ j m, (0 ≤ j)%Z ∧ r = transcript_row message_id lease t m (i + j) (n + j).
Proof.
  revert i n. induction ms as [|m ms IH]; intros i n Hr; simpl in Hr; [by apply elem_of_nil in Hr|].
  apply elem_of_cons in Hr as [->|Hr].
  - exists 0%Z, m. split; [done|]. by rewrite !Z.add_0_r.
  - destruct (IH _ _ Hr) as (j & m' & Hj & ->). exists (1 + j)%Z, m'. split; [lia|].
    f_equal; lia.
Qed.

Lemma new_rows_on_branch lease t i n ms r : r ∈ new_rows lease t i n ms → on_branch lease r = true.
Proof.
  intros (j & m & _ & ->)%new_rows_elem. unfold on_branch. simpl.
  by rewrite !bool_decide_true, Z.eqb_refl.
Qed.

Lemma new_rows_filter lease t i n ms :
  filter (λ r, on_branch lease r = true) (new_rows lease t i n ms) = new_rows lease t i n ms.
Proof.
  apply filter_all. intros r Hr. by eapply new_rows_on_branch.
Qed.

Lemma new_rows_sorted lease t i n ms : StronglySorted sequence_le (new_rows lease t i n ms).
Proof.
  revert i n. induction ms as [|m ms IH]; intros i n; simpl; constructor; [done|].
  apply Forall_forall. intros r (j & m' & Hj & ->)%new_rows_elem. unfold sequence_le. simpl. lia.
Qed.

(** All rows of the branch, in order. *)
Definition full_journal (d : Db) (lease : RunLease) : list MessageRecord :=
  merge_sort sequence_le (select_where (on_branch lease) (messages d)).

Lemma journal_take d lease : branch_journal d lease = take (MAX_RECOVERY_MESSAGES + 1) (full_journal d lease).
Proof. done. Qed.

(** The journal grows at its end. *)
Lemma journal_extends d d' lease t i ms :
  message_sequences_unique (messages d') →
  (∀ P, select_where P (messages d') ≡ₚ select_where P (messages d) ++ filter (λ r, P r = true)
     (new_rows lease t i (max_sequence d (lease_tenant_id lease) (lease_session_id lease) + 1) ms)) →
  full_journal d' lease = full_journal d lease ++
    new_rows lease t i (max_sequence d (lease_tenant_id lease) (lease_session_id lease) + 1) ms.
Proof.
  intros Hu Hp. unfold full_journal. apply (merge_sort_extend sequence_le).
  - specialize (Hp (on_branch lease)). by rewrite new_rows_filter in Hp.
  - apply new_rows_sorted.
  - intros x y [Hx [k Hk]]%elem_of_select (j & m & Hj & ->)%new_rows_elem.
    unfold on_branch in Hx. bool_hyps. unfold sequence_le. simpl.
    assert (msg_sequence x ≤ max_sequence d (lease_tenant_id lease) (lease_session_id lease))%Z
      by (by eapply max_sequence_bound). lia.
  - intros x y [Hx [kx Hkx]]%elem_of_select [Hy [ky Hky]]%elem_of_select H1 H2.
    unfold sequence_le, on_branch in *. bool_hyps.
    assert (kx = ky) as ->; [|congruence].
    apply (Hu kx x Hkx ky y Hky); [congruence|congruence|lia].
Qed.

(** ** The positions after the checkpoint *)

Lemma collect_suffix_app s n suf l1 l2 :
  collect_suffix s n suf (l1 ++ l2) =
  (suf' ← collect_suffix s n suf l1; collect_suffix s (n + length l1) suf' l2).
Proof.
  revert n suf. induction l1 as [|r l1 IH]; intros n suf.
  { cbn [app collect_suffix length]. by rewrite Nat.add_0_r. }
  cbn [app collect_suffix]. cbv zeta.
  replace (n + length (r :: l1)) with (S n + length l1) by (simpl; lia).
  destruct (ensure (S n <=? MAX_RECOVERY_MESSAGES)%nat _) as [[]|]; [|done].
  destruct (ensure (is_json_object _) _) as [[]|]; [|done]. cbn [mbind result_bind].
  destruct (json_get _ _) as [[| |p| | | |]|]; try done; try apply IH.
  destruct (ensure (1 <=? p)%Z _) as [[]|]; [|done]. cbn [mbind result_bind].
  destruct (p <=? s)%Z; [apply IH|].
  destruct (ensure (is_none _) _) as [[]|]; [|done]. cbn [mbind result_bind].
  destruct (_gateway_message r); [apply IH|done].
Qed.

Lemma collect_suffix_count s n suf l suf' :
  collect_suffix s n suf l = Ok suf' → l = [] ∨ n + length l ≤ MAX_RECOVERY_MESSAGES.
Proof.
  revert n suf. induction l as [|r l IH]; intros n suf H; [by left|right].
  cbn [collect_suffix] in H. cbv zeta in H. run_inv H. apply Nat.leb_le in Hrun.
  assert (∃ suf1, collect_suffix s (S n) suf1 l = Ok suf') as [suf1 H1].
  { destruct (json_get _ _) as [[| |p| | | |]|]; try done; eauto.
    run_inv H. destruct (p <=? s)%Z; [eauto|]. run_inv H. eauto. }
  apply IH in H1 as [->|H1]; simpl; lia.
Qed.

(** Every later position of a collected row is in the result. *)
Lemma collect_suffix_keeps s n suf l suf' :
  collect_suffix s n suf l = Ok suf' →
  (∀ p, is_Some (suf !! p) → is_Some (suf' !! p)) ∧
  ∀ r p, r ∈ l → json_get (msg_metadata r) (py "transcript_index") = Some (JInt p) →
    (s < p)%Z → is_Some (suf' !! p).
Proof.
  revert n suf. induction l as [|r l IH]; intros n suf H.
  { cbn in H. injection H as <-. split; [done|]. intros r p Hr. by apply elem_of_nil in Hr. }
  cbn [collect_suffix] in H. cbv zeta in H. run_inv H.
  destruct (json_get (msg_metadata r) (py "transcript_index")) as [[| |p| | | |]|] eqn:Ej;
    try done; try (apply IH in H as [Hk Hin]; split; [done|]; intros r' p' Hr' Hj Hp;
      apply elem_of_cons in Hr' as [->|Hr']; [congruence|by eapply Hin]).
  run_inv H. destruct (p <=? s)%Z eqn:Hps; bool_hyps.
  - apply IH in H as [Hk Hin]. split; [done|]. intros r' p' Hr' Hj Hp.
    apply elem_of_cons in Hr' as [->|Hr']; [|by eapply Hin]. rewrite Ej in Hj. injection Hj as ->. lia.
  - run_inv H. apply IH in H as [Hk Hin]. split.
    + intros q Hq. apply Hk. rewrite lookup_insert. by case_decide.
    + intros r' p' Hr' Hj Hp. apply elem_of_cons in Hr' as [->|Hr']; [|by eapply Hin].
      rewrite Ej in Hj. injection Hj as ->. apply Hk. by rewrite lookup_insert_eq.
Qed.

(** The suffix map after new messages. *)
Fixpoint add_positions (i : Z) (ms : list GatewayMessage) (suf : gmap Z GatewayMessage)
    : gmap Z GatewayMessage :=
  match ms with
  | [] => suf
  | m :: ms => add_positions (i + 1) ms (<[i := m]> suf)
  end.

Lemma add_positions_spec i ms suf :
  (∀ p, (i ≤ p)%Z → suf !! p = None) →
  size (add_positions i ms suf) = size suf + length ms ∧
  (∀ p, (p < i)%Z → add_positions i ms suf !! p = suf !! p) ∧
  ∀ j m, ms !! j = Some m → add_positions i ms suf !! (i + Z.of_nat j)%Z = Some m.
Proof.
  revert i suf. induction ms as [|m ms IH]; intros i suf Hn; simpl.
  { split_and!; [lia|done|]. intros j m Hj. by rewrite lookup_nil in Hj. }
  destruct (IH (i + 1)%Z (<[i:=m]> suf)) as (Hs & Hold & Hnew).
  { intros p Hp. rewrite lookup_insert_ne by lia. apply Hn. lia. }
  split_and!.
  - rewrite Hs, map_size_insert_None by (apply Hn; lia). lia.
  - intros p Hp. rewrite Hold by lia. by rewrite lookup_insert_ne by lia.
  - intros [|j] m' Hj; simpl in Hj.
    + injection Hj as <-. rewrite Hold by lia. by rewrite Z.add_0_r, lookup_insert_eq.
    + rewrite <- (Hnew j m' Hj). f_equal. lia.
Qed.

Lemma collect_new_rows s c suf lease t i n ms :
  (s < i)%Z → (1 ≤ i)%Z → c + length ms ≤ MAX_RECOVERY_MESSAGES →
  (∀ m, m ∈ ms → validate_gateway_message m = Ok m) → (∀ p, (i ≤ p)%Z → suf !! p = None) →
  collect_suffix s c suf (new_rows lease t i n ms) = Ok (add_positions i ms suf).
Proof.
  revert c suf i n. induction ms as [|m ms IH]; intros c suf i n Hs Hi Hc Hv Hn; [done|].
  cbn [new_rows collect_suffix]. cbv zeta. cbn [length] in Hc.
  rewrite (proj2 (Nat.leb_le (S c) MAX_RECOVERY_MESSAGES)) by lia. cbn [ensure mbind result_bind].
  change (json_get (msg_metadata (transcript_row message_id lease t m i n)) (py "transcript_index"))
    with (Some (JInt i)).
  change (is_json_object (msg_metadata (transcript_row message_id lease t m i n))) with true.
  cbn [ensure mbind result_bind].
  rewrite (proj2 (Z.leb_le 1 i)) by lia. cbn [ensure mbind result_bind].
  rewrite (proj2 (Z.leb_gt i s)) by lia. rewrite (Hn i) by lia. cbn [is_none is_some negb ensure mbind result_bind].
  rewrite (journal_roundtrip _ m i) by (done || apply Hv; by left). cbn [mbind result_bind add_positions].
  apply IH; [lia|lia|lia| |].
  - intros m' Hm'. apply Hv. by right.
  - intros p Hp. rewrite lookup_insert_ne by lia. apply Hn. lia.
Qed.

Lemma contiguous_Ok start n suf tail :
  contiguous start n suf = Ok tail ↔
  length tail = n ∧ ∀ j m, tail !! j = Some m → suf !! (start + Z.of_nat j)%Z = Some m.
Proof.
  revert start tail. induction n as [|n IH]; intros start tail; cbn [contiguous].
  - split; [intros [= <-]; split; [done|]; intros j m Hj; by rewrite lookup_nil in Hj|].
    intros [Hl _]. by destruct tail.
  - rewrite bind_Ok. setoid_rewrite bind_Ok. setoid_rewrite require_Ok. setoid_rewrite IH. split.
    + intros (m & Hm & rest & [Hl Hr] & [= <-]). split; [simpl; lia|].
      intros [|j] m' Hj; simpl in Hj; [injection Hj as <-; by rewrite Z.add_0_r|].
      rewrite <- (Hr j m' Hj). f_equal. lia.
    + intros [Hl Hr]. destruct tail as [|m rest]; [done|]. exists m. split.
      { specialize (Hr 0 m eq_refl). by rewrite Z.add_0_r in Hr. }
      exists rest. split; [split; [simpl in Hl; lia|]|done].
      intros j m' Hj. rewrite <- (Hr (S j) m' Hj). f_equal. lia.
Qed.

(** A contiguous suffix has no other positions. *)
Lemma contiguous_bound start suf tail p :
  contiguous start (size suf) suf = Ok tail → is_Some (suf !! p) →
  (start ≤ p < start + Z.of_nat (size suf))%Z.
Proof.
  rewrite contiguous_Ok. intros [Hl Hr] Hp.
  set (S := list_to_set (C := gset Z) (seqZ start (Z.of_nat (size suf)))).
  assert (S ⊆ dom suf) as Hsub.
  { intros q Hq. apply elem_of_list_to_set, elem_of_seqZ in Hq.
    destruct (lookup_lt_is_Some_2 tail (Z.to_nat (q - start))) as [m Hm]; [lia|].
    apply elem_of_dom. exists m. rewrite <- (Hr _ _ Hm). f_equal. lia. }
  assert (S = dom suf) as ES.
  { apply set_subseteq_size_eq; [done|]. rewrite size_dom. unfold S.
    rewrite size_list_to_set by apply NoDup_seqZ. rewrite length_seqZ. lia. }
  apply elem_of_dom in Hp. rewrite <- ES in Hp. apply elem_of_list_to_set, elem_of_seqZ in Hp. lia.
Qed.

Lemma length_new_rows lease t i n ms : length (new_rows lease t i n ms) = length ms.
Proof. revert i n. induction ms as [|m ms IH]; intros i n; [done|]. simpl. by rewrite IH. Qed.

(** ** What a successful recovery from a checkpoint has read *)

Lemma suffix_recovery_inv d lease values s ms :
  _checkpoint_messages_with_suffix encoded_size d lease values s = Ok ms →
  ∃ base suf tail, _checkpoint_messages values = Ok base ∧ s = Z.of_nat (length base) ∧
    length (full_journal d lease) ≤ MAX_RECOVERY_MESSAGES ∧
    collect_suffix s 0 ∅ (full_journal d lease) = Ok suf ∧
    contiguous (s + 1) (size suf) suf = Ok tail ∧ ms = base ++ tail.
Proof.
  unfold _checkpoint_messages_with_suffix. intros H. run_inv H. bool_hyps.
  match goal with H : collect_suffix _ _ _ _ = Ok _ |- _ => rename H into Hc end.
  assert (length (full_journal d lease) ≤ MAX_RECOVERY_MESSAGES) as Hl.
  { pose proof (collect_suffix_count _ _ _ _ _ Hc) as Hn. rewrite journal_take in Hn.
    destruct Hn as [Hn|Hn].
    - apply (f_equal length) in Hn. rewrite length_take in Hn. cbn [length] in Hn. lia.
    - rewrite length_take in Hn. lia. }
  rewrite journal_take, take_ge in Hc by lia. eauto 10.
Qed.

(** Every journaled position of the branch is one the recovery replays. *)
Lemma recovered_positions d lease values s ms row k j :
  _checkpoint_messages_with_suffix encoded_size d lease values s = Ok ms →
  messages d !! k = Some row → on_branch lease row = true →
  json_get (msg_metadata row) (py "transcript_index") = Some (JInt j) →
  (j ≤ Z.of_nat (length ms))%Z.
Proof.
  intros H Hk Hb Hj.
  apply suffix_recovery_inv in H as (base & suf & tail & _ & -> & _ & Hc & Ht & ->).
  destruct (decide (Z.of_nat (length base) < j)%Z) as [Hlt|]; [|rewrite length_app; lia].
  apply collect_suffix_keeps in Hc as [_ Hc].
  assert (row ∈ full_journal d lease) as Hin.
  { unfold full_journal. rewrite merge_sort_Permutation. apply elem_of_select. eauto. }
  specialize (Hc _ _ Hin Hj Hlt). pose proof (contiguous_bound _ _ _ _ Ht Hc).
  apply contiguous_Ok in Ht as [Ht _]. rewrite length_app. lia.
Qed.

Lemma tenant_message_Some d t k row :
  tenant_message d t k = Some row → messages d !! k = Some row ∧ msg_tenant_id row = t.
Proof.
  unfold tenant_message. destruct (messages d !! k); [|done]. case_bool_decide; [|done].
  by intros [= <-].
Qed.

Lemma same_row_position d lease row k m i :
  tenant_message d (lease_tenant_id lease) k = Some row → same_transcript_row row lease m i = true →
  messages d !! k = Some row ∧ on_branch lease row = true ∧
  json_get (msg_metadata row) (py "transcript_index") = Some (JInt i).
Proof.
  intros [Hk Ht]%tenant_message_Some Hs. unfold same_transcript_row in Hs. bool_hyps.
  split_and!; [done| |].
  - unfold on_branch. by rewrite !bool_decide_true, (proj2 (Z.eqb_eq _ _)) by done.
  - by match goal with H : msg_metadata row = _ |- _ => rewrite H end.
Qed.

(** Appending at the recovered length adds every message of the suffix as a new
    row at the end of the journal. *)
Lemma append_at_end now d lease values s ms suffix t d' :
  _checkpoint_messages_with_suffix encoded_size d lease values s = Ok ms →
  append_transcript_fenced encoded_size message_id now d lease (Z.of_nat (length ms)) suffix t
    = Ok (tt, d') →
  full_journal d' lease = full_journal d lease ++ new_rows lease t (Z.of_nat (length ms) + 1)
    (max_sequence d (lease_tenant_id lease) (lease_session_id lease) + 1) suffix.
Proof.
  intros Hrec H. unfold append_transcript_fenced in H. run_inv H.
  apply commit_Ok in H as [H Hok]. run_inv H.
  match goal with H : append_messages _ _ _ _ _ _ _ _ = Ok _ |- _ => apply append_fresh in H end.
  - match goal with H : _ ∧ _ ∧ _ |- _ => destruct H as (_ & _ & Hp) end.
    apply journal_extends; [apply (ok_message_sequences _ (ok_children _ Hok))|done].
  - intros j row m Hj Hrow. destruct (same_transcript_row row lease m j) eqn:Hs; [|done].
    destruct (same_row_position _ _ _ _ _ _ Hrow Hs) as (Hk & Hb & Hi).
    pose proof (recovered_positions _ _ _ _ _ _ _ _ Hrec Hk Hb Hi). lia.
Qed.

(** Recovery after the append. *)
Lemma suffix_recovery_extends now d lease values s ms suffix t d' :
  _checkpoint_messages_with_suffix encoded_size d lease values s = Ok ms →
  append_transcript_fenced encoded_size message_id now d lease (Z.of_nat (length ms)) suffix t
    = Ok (tt, d') →
  (∀ m, m ∈ suffix → validate_gateway_message m = Ok m) →
  length (full_journal d lease) + length suffix ≤ MAX_RECOVERY_MESSAGES →
  length (ms ++ suffix) ≤ MAX_RECOVERY_MESSAGES →
  (encoded_bytes encoded_size (ms ++ suffix) ≤ MAX_RECOVERY_CONTEXT_BYTES)%Z →
  _checkpoint_messages_with_suffix encoded_size d' lease values s = Ok (ms ++ suffix).
Proof.
  intros Hrec Happ Hval Hcount Hlen Hbytes. pose proof (append_at_end _ _ _ _ _ _ _ _ _ Hrec Happ) as Hj.
  apply suffix_recovery_inv in Hrec as (base & suf & tail & Hb & -> & Hl & Hc & Ht & ->).
  assert (∀ p, is_Some (suf !! p) → (p < Z.of_nat (length base) + 1 + Z.of_nat (size suf))%Z) as Hbound
    by (intros p Hp; by apply (contiguous_bound _ _ _ _ Ht)).
  apply contiguous_Ok in Ht as [Htl Htv]. rewrite !length_app in Hlen. rewrite length_app in *.
  assert (∀ p, (Z.of_nat (length base + length tail) + 1 ≤ p)%Z → suf !! p = None) as Hnone.
  { intros p Hp. destruct (suf !! p) eqn:E; [|done]. specialize (Hbound p). rewrite E in Hbound.
    specialize (Hbound ltac:(by eexists)). lia. }
  destruct (add_positions_spec _ suffix suf Hnone) as (Hsz & Hold & Hnew).
  unfold _checkpoint_messages_with_suffix. rewrite Hb. cbn [mbind result_bind].
  rewrite Z.eqb_refl. cbn [ensure mbind result_bind].
  rewrite journal_take, Hj, take_ge, collect_suffix_app, Hc.
  - cbn [mbind result_bind].
    rewrite (collect_new_rows _ _ _ _ _ _ _ suffix) by (done || lia). cbn [mbind result_bind].
    rewrite (proj2 (contiguous_Ok _ _ _ (tail ++ suffix))); cbn [mbind result_bind].
    + rewrite !(app_assoc base), length_app, length_app, (proj2 (Nat.leb_le _ _)) by lia.
      cbn [ensure mbind result_bind]. by rewrite (proj2 (Z.leb_le _ _)).
    + split; [rewrite length_app, Hsz; lia|]. intros j m [Hm|[Hm1 Hm2]]%lookup_app_Some.
      * pose proof (lookup_lt_Some _ _ _ Hm). rewrite Hold by lia. by apply Htv.
      * rewrite <- (Hnew _ _ Hm2). f_equal. lia.
  - rewrite length_app, length_new_rows. lia.
Qed.

(** ** Replaying an append *)

Lemma tenant_message_mono d d' t k row :
  messages d ⊆ messages d' → tenant_message d t k = Some row → tenant_message d' t k = Some row.
Proof.
  intros Hs [Hk Ht]%tenant_message_Some. unfold tenant_message.
  by rewrite (lookup_weaken _ _ _ _ Hk Hs), bool_decide_true.
Qed.

Lemma append_messages_frame before lease t i n ms d d' :
  append_messages message_id before lease t i n ms d = Ok d' → d' = set_messages d (messages d').
Proof.
  revert i n d. induction ms as [|m ms IH]; intros i n d H; simpl in H.
  { injection H as <-. by destruct d. }
  destruct (tenant_message _ _ _); run_inv H; [by eapply IH|].
  unfold insert_message in Hrun. run_inv Hrun. by apply IH in H.
Qed.

Lemma append_messages_stored before lease t i n ms d d' :
  messages before ⊆ messages d → append_messages message_id before lease t i n ms d = Ok d' →
  messages d ⊆ messages d' ∧ ∀ j m, ms !! j = Some m → ∃ row,
    tenant_message d' (lease_tenant_id lease)
      (message_id (lease_run_id lease) (lease_execution_epoch lease) (i + Z.of_nat j)) = Some row ∧
    same_transcript_row row lease m (i + Z.of_nat j) = true.
Proof.
  revert i n d. induction ms as [|m ms IH]; intros i n d Hsub H; simpl in H.
  { injection H as <-. split; [done|]. intros j m Hj. by rewrite lookup_nil in Hj. }
  assert (∃ n' d1 row, messages d ⊆ messages d1 ∧
    append_messages message_id before lease t (i + 1) n' ms d1 = Ok d' ∧
    tenant_message d1 (lease_tenant_id lease)
      (message_id (lease_run_id lease) (lease_execution_epoch lease) i) = Some row ∧
    same_transcript_row row lease m i = true) as (n' & d1 & row & Hd & Happ & Hrow & Hsame).
  { destruct (tenant_message before _ _) as [row|] eqn:Hrow; run_inv H.
    - exists n, d, row. split_and!; try done. apply (tenant_message_mono before); done.
    - unfold insert_message in Hrun. run_inv Hrun.
      match goal with H : is_none _ = true |- _ => apply is_none_eq in H; rename H into Hnone end.
      eexists _, _, (transcript_row message_id lease t m i n). split_and!; [|exact H| |].
      + simpl. by apply insert_subseteq.
      + unfold tenant_message. simpl. rewrite lookup_insert_eq. by rewrite bool_decide_true.
      + unfold same_transcript_row. simpl. by rewrite !bool_decide_true, Z.eqb_refl. }
  apply IH in Happ as [Hd1 Hst]; [|by etrans]. split; [by etrans|].
  intros [|j] m' Hj; simpl in Hj.
  - injection Hj as <-. exists row. rewrite Z.add_0_r. split; [|done].
    by apply (tenant_message_mono d1).
  - destruct (Hst j m' Hj) as (row' & Hr & Hs). exists row'.
    replace (i + Z.of_nat (S j))%Z with (i + 1 + Z.of_nat j)%Z by lia. done.
Qed.

Lemma append_messages_replay before lease t i n ms d :
  (∀ j m, ms !! j = Some m → ∃ row,
    tenant_message before (lease_tenant_id lease)
      (message_id (lease_run_id lease) (lease_execution_epoch lease) (i + Z.of_nat j)) = Some row ∧
    same_transcript_row row lease m (i + Z.of_nat j) = true) →
  append_messages message_id before lease t i n ms d = Ok d.
Proof.
  revert i n. induction ms as [|m ms IH]; intros i n Hst; [done|]. cbn [append_messages]. cbv zeta.
  destruct (Hst 0 m eq_refl) as (row & Hr & Hs). rewrite Z.add_0_r in Hr, Hs. rewrite Hr, Hs.
  cbn [ensure mbind result_bind]. apply IH. intros j m' Hj.
  destruct (Hst (S j) m' Hj) as (row' & Hr' & Hs'). exists row'.
  replace (i + 1 + Z.of_nat j)%Z with (i + Z.of_nat (S j))%Z by lia. done.
Qed.

(** What a committed append did. *)
Lemma append_effect now d lease start suffix t d' :
  append_transcript_fenced encoded_size message_id now d lease start suffix t = Ok (tt, d') →
  db_ok d' ∧ (∃ r, assert_active_run_lease d now lease = Ok r) ∧ d' = set_messages d (messages d') ∧
  append_messages message_id d lease t (start + 1)
    (max_sequence d (lease_tenant_id lease) (lease_session_id lease) + 1) suffix d = Ok d'.
Proof.
  unfold append_transcript_fenced. intros H. run_inv H. apply commit_Ok in H as [H Hok].
  run_inv H. split_and!; [done|by eexists| |done]. by eapply append_messages_frame.
Qed.

(** ** Claims *)

(** C27: recovery reads back exactly what was journaled.  When a recovery from a
    checkpoint of the leased branch yields the messages [ms] and the lease holder
    appends a valid suffix at that length, a recovery from the same checkpoint
    afterwards yields [ms ++ suffix]: same messages, same order, nothing lost,
    duplicated or renumbered, while the recovery limits are respected. *)
Theorem append_extends_recovery jsonb_text_size now d lease cp ms suffix t d' :
  cp_execution_epoch cp = lease_execution_epoch lease → cp_messages cp ≠ [] →
  recovery_messages encoded_size jsonb_text_size d lease (Some cp) = Ok ms →
  append_transcript_fenced encoded_size message_id now d lease (Z.of_nat (length ms)) suffix t
    = Ok (tt, d') →
  (∀ m, m ∈ suffix → validate_gateway_message m = Ok m) →
  length (branch_journal d lease) + length suffix ≤ MAX_RECOVERY_MESSAGES →
  length (ms ++ suffix) ≤ MAX_RECOVERY_MESSAGES →
  (encoded_bytes encoded_size (ms ++ suffix) ≤ MAX_RECOVERY_CONTEXT_BYTES)%Z →
  recovery_messages encoded_size jsonb_text_size d' lease (Some cp) = Ok (ms ++ suffix).
Proof.
  intros He Hne Hrec Happ Hval Hcount Hlen Hbytes. unfold recovery_messages in *.
  rewrite (proj2 (Z.eqb_eq _ _) He) in *.
  destruct (cp_messages cp) as [|v values]; [done|]. cbn [is_nil] in *.
  eapply suffix_recovery_extends; try done.
  rewrite journal_take, length_take in Hcount. lia.
Qed.

(** Appending is idempotent and only ever adds.  A committed append keeps
    every journaled message and every other table, and repeating it while the
    lease is live, at whatever later time, succeeds and changes nothing: a worker
    that lost the answer to its request can retry. *)
Theorem append_replay_idempotent now now' d lease start suffix t t' d' r :
  append_transcript_fenced encoded_size message_id now d lease start suffix t = Ok (tt, d') →
  assert_active_run_lease d now' lease = Ok r →
  messages d ⊆ messages d' ∧ d' = set_messages d (messages d') ∧
  append_transcript_fenced encoded_size message_id now' d' lease start suffix t' = Ok (tt, d').
Proof.
  intros H Hlive. pose proof (append_effect _ _ _ _ _ _ _ H) as (Hok & _ & Hframe & Happ).
  apply append_messages_stored in Happ as [Hsub Hst]; [|done]. split_and!; try done.
  unfold append_transcript_fenced in *. run_inv H.
  repeat match goal with E : _ = true |- _ => rewrite E; clear E end. cbn [ensure mbind result_bind].
  apply commit_Ok in H as [H _]. run_inv H. rewrite append_messages_replay by done.
  assert (assert_active_run_lease d' now' lease = Ok r) as -> by (by rewrite Hframe).
  match goal with E : _ = Some _ |- _ =>
    rewrite Hframe; cbn [sessions set_messages]; rewrite E; cbn [require mbind result_bind] end.
  rewrite <- Hframe. by apply commit_Ok.
Qed.
End Transcript.

(** Durable messages survive their wire forms.  A valid gateway message is
    read back unchanged from its JSON dump (the checkpoint form) and from the
    columns and metadata of its journal row at any position, and two valid
    messages with the same dump are equal. *)
Theorem durable_message_roundtrip message_id lease t m m' i n :
  validate_gateway_message m = Ok m →
  message_of_json (message_json m) = Ok m ∧
  _gateway_message (transcript_row message_id lease t m i n) = Ok m ∧
  (validate_gateway_message m' = Ok m' → message_json m = message_json m' → m = m').
Proof.
  intros Hv. split_and!; [by apply message_roundtrip|by eapply journal_roundtrip|].
  intros Hv' E. exact (to_json_inj (H := message_codec) m m' Hv Hv' E).
Qed.
