(* ===== verification/ExecutionProperties.v ===== *)
(** * Durable tool calls and checkpoints

    Saved tool calls only move forward, a terminal outcome is final, and every
    write of a worker can be replayed after an unknown amount of progress. *)

From stdpp Require Import base list sets gmap strings.
From Stdlib Require Import ZArith Lia.
From S2P Require Import Prelude PyBase Domain Tables Contracts RunQueue RunRepository Transcripts Execution MessageCodecs QueueInvariant.

(** ** Entities and rows *)

Section ToolCallProperties.
Variable digest : json → pystr.

Lemma valid_call_error c e :
  validate_tool_call digest c = Ok c → call_error c = Some e → validate_error_detail e = Ok e.
Proof.
  unfold validate_tool_call. intros H He. run_inv H.
  match goal with H : validate_optional validate_error_detail _ = Ok ?v |- _ =>
    rename H into Hv; rename v into err end.
  match goal with H : mkToolCall _ _ _ _ _ _ _ _ _ _ _ _ _ = c |- _ => rename H into Ec end.
  assert (err = call_error c) as -> by (by rewrite <- Ec).
  rewrite He in Hv. simpl in Hv. run_inv Hv. congruence.
Qed.

(** The stored row of a valid call reads back as that call. *)
Lemma tool_call_row_domain tenant c :
  validate_tool_call digest c = Ok c →
  _tool_call_domain digest (tool_call_key tenant c) (tool_call_row c) = Ok c.
Proof.
  intros Hv. unfold _tool_call_domain, tool_call_key, tool_call_row. cbn.
  assert ((match error_json <$> call_error c with
           | Some e => e ← error_of_json e; Ok (Some e)
           | None => Ok None
           end) = Ok (call_error c)) as ->.
  { destruct (call_error c) as [e|] eqn:He; [|done]. cbn [fmap option_fmap option_map].
    by rewrite (error_detail_roundtrip e) by (by eapply valid_call_error). }
  cbn [mbind result_bind]. by destruct c.
Qed.

(** Every stored row reads back as a valid call under its own identifier. *)
Definition stored_calls_valid (d : Db) : Prop :=
  ∀ k r, tool_calls d !! k = Some r → ∃ c, _tool_call_domain digest k r = Ok c ∧ call_id c = k.2.

(** The identity of a call never changes. *)
Definition same_call (r : ToolCallRecord) (c : ToolCall) : bool :=
  bool_decide (tc_argument_hash r = call_argument_hash c)
  && bool_decide (tc_tool_name r = call_tool_name c)
  && (tc_turn_number r =? call_turn_number c)%Z
  && bool_decide (tc_arguments r = call_arguments c).

(** [row'] is [row], or its call one allowed transition later. *)
Definition row_step (row row' : ToolCallRecord) : Prop :=
  row' = row ∨
  (tc_status row' ∈ _tool_call_transitions (tc_status row) ∧
   tc_argument_hash row' = tc_argument_hash row ∧ tc_tool_name row' = tc_tool_name row ∧
   tc_turn_number row' = tc_turn_number row ∧ tc_arguments row' = tc_arguments row).

(** What one save does to the table. *)
Lemma save_effect d tenant c s d' :
  _save_tool_call digest d tenant c = Ok (s, d') →
  let key := tool_call_key tenant c in
  d' = set_tool_calls d (tool_calls d') ∧
  (∀ k, k ≠ key → tool_calls d' !! k = tool_calls d !! k) ∧
  match tool_calls d !! key with
  | None => s = c ∧ tool_calls d' !! key = Some (tool_call_row c)
  | Some row => same_call row c = true ∧
      ((d' = d ∧ _tool_call_domain digest key row = Ok s ∧
          (_tool_call_row_matches row c = true ∨ call_status c ∈ _tool_call_predecessors (tc_status row)))
       ∨ (s = c ∧ tool_calls d' !! key = Some (tool_call_row c) ∧ row_step row (tool_call_row c)))
  end.
Proof.
  unfold _save_tool_call. cbv zeta. fold (same_call).
  destruct (tool_calls d !! tool_call_key tenant c) as [row|] eqn:Hrow.
  - change (bool_decide (tc_argument_hash row = call_argument_hash c) && _ && _ && _)
      with (same_call row c).
    destruct (same_call row c) eqn:Hs; [|done]. cbn [negb].
    destruct (_tool_call_row_matches row c) eqn:Hm.
    { intros H. run_inv H. split_and!; [by destruct d'|done|done|left; eauto]. }
    case_bool_decide as Hp.
    { intros H. run_inv H. split_and!; [by destruct d'|done|done|left; eauto]. }
    case_bool_decide as Ht; [|done]. intros H. run_inv H.
    pose proof Hs as Hs'. unfold same_call in Hs'. bool_hyps.
    assert (mkToolCallRecord (tc_turn_number row) (tc_tool_name row) (tc_arguments row)
      (tc_argument_hash row) (call_status s) (call_workspace_version s) (call_result s)
      (error_json <$> call_error s) (call_started_at s) (call_completed_at s) = tool_call_row s) as ->.
    { unfold tool_call_row. congruence. }
    split_and!; [done| |done|].
    + intros k Hk. simpl. by rewrite lookup_insert_ne.
    + right. simpl. rewrite lookup_insert_eq. split_and!; [done|done|].
      right. simpl. by split_and!.
  - intros H. run_inv H. split_and!; [done| |done|by simpl; rewrite lookup_insert_eq].
    intros k Hk. simpl. by rewrite lookup_insert_ne.
Qed.

Lemma save_rows_step d tenant c s d' k row :
  _save_tool_call digest d tenant c = Ok (s, d') → tool_calls d !! k = Some row →
  ∃ row', tool_calls d' !! k = Some row' ∧ row_step row row'.
Proof.
  intros H Hk. apply save_effect in H as (_ & Hother & Hkey).
  destruct (decide (k = tool_call_key tenant c)) as [->|Hne].
  - rewrite Hk in Hkey. destruct Hkey as [_ [(-> & _ & _)|(_ & Hnew & Hst)]]; [|by eauto].
    exists row. split; [done|by left].
  - rewrite (Hother k Hne). exists row. split; [done|by left].
Qed.

Lemma save_valid d tenant c s d' :
  stored_calls_valid d → validate_tool_call digest c = Ok c →
  _save_tool_call digest d tenant c = Ok (s, d') → stored_calls_valid d'.
Proof.
  intros Hall Hv H k r Hk. apply save_effect in H as (_ & Hother & Hkey).
  destruct (decide (k = tool_call_key tenant c)) as [->|Hne]; [|by rewrite (Hother k Hne) in Hk; eauto].
  destruct (tool_calls d !! _) as [row|].
  - destruct Hkey as [_ [(-> & _ & _)|(_ & Hnew & _)]]; [by eauto|].
    rewrite Hnew in Hk. injection Hk as <-. exists c. split; [by apply tool_call_row_domain|done].
  - destruct Hkey as [_ Hnew]. rewrite Hnew in Hk. injection Hk as <-. exists c. split; [by apply tool_call_row_domain|done].
Qed.

(** ** Histories *)

(** A transaction of the platform as the tool-call table sees it: a validated
    call is saved, with or without the fence, or the table is left alone. *)
Inductive call_step : Db → Db → Prop :=
| step_save d tenant c s d' :
    validate_tool_call digest c = Ok c →
    save_tool_call digest d tenant c = Ok (s, d') → call_step d d'
| step_save_fenced now d lease c s d' :
    validate_tool_call digest c = Ok c →
    save_tool_call_fenced digest now d lease c = Ok (s, d') → call_step d d'
| step_other d d' : db_ok d' → tool_calls d' = tool_calls d → call_step d d'.

Lemma save_fenced_inv now d lease c s d' :
  save_tool_call_fenced digest now d lease c = Ok (s, d') →
  db_ok d' ∧ (∃ r, assert_active_run_lease d now lease = Ok r) ∧
  call_run_id c = lease_run_id lease ∧ call_execution_epoch c = lease_execution_epoch lease ∧
  _save_tool_call digest d (lease_tenant_id lease) c = Ok (s, d').
Proof.
  unfold save_tool_call_fenced. intros H. run_inv H. bool_hyps. apply commit_Ok in H as [H Hok].
  run_inv H. split_and!; eauto.
Qed.

Lemma call_step_inv d d' :
  call_step d d' → db_ok d' ∧
  (tool_calls d' = tool_calls d ∨
   ∃ tenant c s, validate_tool_call digest c = Ok c ∧ _save_tool_call digest d tenant c = Ok (s, d')).
Proof.
  intros [??????[H Hok]%commit_Ok|???????(Hok & _ & _ & _ & H)%save_fenced_inv|]; split; eauto 10.
Qed.

Lemma call_step_rows d d' k row :
  call_step d d' → tool_calls d !! k = Some row →
  ∃ row', tool_calls d' !! k = Some row' ∧ row_step row row'.
Proof.
  intros [_ [E|(tenant & c & s & _ & H)]]%call_step_inv Hk; [|by eapply save_rows_step].
  rewrite E. exists row. split; [done|by left].
Qed.

Lemma call_step_valid d d' : call_step d d' → stored_calls_valid d → stored_calls_valid d'.
Proof.
  intros [_ [E|(tenant & c & s & Hv & H)]]%call_step_inv Hall; [|by eapply save_valid].
  intros k r. rewrite E. apply Hall.
Qed.

(** The row already accounts for the call: same identity, and the call's state
    is the stored one or one the stored one has passed. *)
Definition absorbs (row : ToolCallRecord) (c : ToolCall) : Prop :=
  same_call row c = true ∧
  (_tool_call_row_matches row c = true ∨ call_status c ∈ _tool_call_predecessors (tc_status row)).

Lemma predecessors_advance s t u :
  s = t ∨ s ∈ _tool_call_predecessors t → u ∈ _tool_call_transitions t →
  s ∈ _tool_call_predecessors u.
Proof.
  destruct t; simpl; intros [->|Hs] Hu;
    repeat (apply elem_of_cons in Hu as [->|Hu]; [set_solver|]); by apply elem_of_nil in Hu.
Qed.

Lemma absorbs_step row row' c : row_step row row' → absorbs row c → absorbs row' c.
Proof.
  intros [->|(Ht & Hh & Hn & Hu & Ha)]; [done|]. intros [Hs Hm]. split.
  - unfold same_call in *. by rewrite Hh, Hn, Hu, Ha.
  - right. eapply predecessors_advance; [|done]. destruct Hm as [Hm|Hm]; [left|by right].
    unfold _tool_call_row_matches in Hm. by bool_hyps.
Qed.

Lemma save_absorbs d tenant c s d' :
  _save_tool_call digest d tenant c = Ok (s, d') →
  ∃ row, tool_calls d' !! tool_call_key tenant c = Some row ∧ absorbs row c.
Proof.
  assert (absorbs (tool_call_row c) c) as Hself.
  { unfold absorbs, same_call, _tool_call_row_matches, tool_call_row. simpl.
    rewrite !bool_decide_true, Z.eqb_refl by done. auto. }
  intros (_ & _ & H)%save_effect. destruct (tool_calls d !! _) as [row|] eqn:Hrow.
  - destruct H as [Hs [(-> & _ & Hm)|(_ & Hnew & _)]]; [|by eauto]. by exists row.
  - destruct H as [_ Hnew]. eauto.
Qed.

Lemma absorbed_replay d tenant c row :
  stored_calls_valid d → tool_calls d !! tool_call_key tenant c = Some row → absorbs row c →
  ∃ s, _tool_call_domain digest (tool_call_key tenant c) row = Ok s ∧
    _save_tool_call digest d tenant c = Ok (s, d).
Proof.
  intros Hall Hrow [Hs Hm]. destruct (Hall _ _ Hrow) as (s & Hd & _). exists s. split; [done|].
  unfold _save_tool_call. cbv zeta. rewrite Hrow. unfold same_call in Hs. rewrite Hs. cbn [negb].
  destruct (_tool_call_row_matches row c); [by rewrite Hd|].
  destruct Hm as [?|Hm]; [done|]. by rewrite bool_decide_true, Hd.
Qed.

Lemma history_rows d d' k row :
  star call_step d d' → tool_calls d !! k = Some row → ∀ c, absorbs row c →
  ∃ row', tool_calls d' !! k = Some row' ∧ absorbs row' c.
Proof.
  intros Hstar. revert row. induction Hstar as [|d1 d2 d3 Hstep _ IH]; intros row Hk c Hc; [by eauto|].
  destruct (call_step_rows _ _ _ _ Hstep Hk) as (row2 & Hk2 & Hst).
  eapply IH; [done|]. by eapply absorbs_step.
Qed.

Lemma history_ok d d' : star call_step d d' → db_ok d → db_ok d'.
Proof.
  intros Hstar. induction Hstar as [|d1 d2 d3 Hstep _ IH]; [done|]. intros _. apply IH.
  by apply call_step_inv in Hstep as [? _].
Qed.

(** ** Claims *)

(** A tool outcome is final.  Along any history of saves (with or without
    the fence) and other transactions, a stored call keeps its identity — name,
    arguments, hash and turn — and once it is completed, failed or cancelled its
    row never changes again. *)
Theorem tool_outcome_final d d' k row :
  star call_step d d' → tool_calls d !! k = Some row →
  ∃ row', tool_calls d' !! k = Some row' ∧
    tc_argument_hash row' = tc_argument_hash row ∧ tc_tool_name row' = tc_tool_name row ∧
    tc_turn_number row' = tc_turn_number row ∧ tc_arguments row' = tc_arguments row ∧
    (is_terminal_tool_status (tc_status row) = true → row' = row) ∧
    (row' = row ∨ tc_status row ∈ _tool_call_predecessors (tc_status row')).
Proof.
  intros Hstar. revert row. induction Hstar as [|d1 d2 d3 Hstep _ IH]; intros row Hk.
  { exists row. split_and!; auto. }
  destruct (call_step_rows _ _ _ _ Hstep Hk) as (row2 & Hk2 & Hst).
  destruct (IH _ Hk2) as (row3 & Hk3 & Hh & Hn & Hu & Ha & Hterm & Hprec).
  exists row3. split; [done|].
  destruct Hst as [->|(Ht & Hh2 & Hn2 & Hu2 & Ha2)]; [by split_and!|]. split_and!; try congruence.
  - intros Hfinal. destruct (tc_status row); try done; simpl in Ht; by apply elem_of_nil in Ht.
  - right. destruct Hprec as [->|Hprec]; [by eapply predecessors_advance; [by left|]|].
    clear -Ht Hprec. destruct (tc_status row), (tc_status row2), (tc_status row3); simpl in *; set_solver.
Qed.

(** Saving a tool call can be replayed.  After a valid call was saved and any
    history of further saves and other transactions has passed, saving it again
    succeeds, changes nothing, and returns the durable state of the call. *)
Theorem tool_call_replay_safe d tenant c s1 d1 d2 :
  stored_calls_valid d → validate_tool_call digest c = Ok c →
  save_tool_call digest d tenant c = Ok (s1, d1) → star call_step d1 d2 →
  ∃ s2 row, tool_calls d2 !! tool_call_key tenant c = Some row ∧
    _tool_call_domain digest (tool_call_key tenant c) row = Ok s2 ∧
    save_tool_call digest d2 tenant c = Ok (s2, d2).
Proof.
  intros Hall Hv [H Hok]%commit_Ok Hstar.
  destruct (save_absorbs _ _ _ _ _ H) as (row1 & Hr1 & Ha1).
  destruct (history_rows _ _ _ _ Hstar Hr1 _ Ha1) as (row2 & Hr2 & Ha2).
  destruct (absorbed_replay d2 tenant c row2) as (s2 & Hd & Hs); [|done|done|].
  { eapply (star_invariant call_step stored_calls_valid); [|done|by eapply save_valid].
    intros a b Ha Hab. by eapply call_step_valid. }
  exists s2, row2. split_and!; [done|done|]. apply commit_Ok. split; [done|]. by eapply history_ok.
Qed.
End ToolCallProperties.

(** ** Checkpoints *)

Lemma checkpoint_row_domain tenant c :
  validate_checkpoint c = Ok c →
  row_checkpoint (checkpoint_row tenant c) (chk_workspace_snapshot_uri c) (chk_workspace_revision c)
  = Ok c.
Proof. intros Hv. unfold row_checkpoint, checkpoint_row. simpl. by destruct c. Qed.

Lemma leased_checkpoint_Some d lease id r :
  leased_checkpoint d lease id = Some r ↔
  checkpoints d !! id = Some r ∧ cp_tenant_id r = lease_tenant_id lease ∧
  cp_run_id r = lease_run_id lease ∧ cp_execution_epoch r = lease_execution_epoch lease.
Proof.
  unfold leased_checkpoint. destruct (checkpoints d !! id) as [x|]; [|naive_solver].
  destruct (_ && _) eqn:E; split; try done.
  - intros [= <-]. by bool_hyps.
  - by intros ([= <-] & _).
  - intros ([= <-] & Ht & Hr & He). exfalso.
    by rewrite !bool_decide_true, (proj2 (Z.eqb_eq _ _) He) in E by done.
Qed.

(** The fence only reads runs and leases. *)
Lemma lease_live_put_checkpoint d r now lease :
  assert_active_run_lease (put_checkpoint d r) now lease = assert_active_run_lease d now lease.
Proof. done. Qed.

(** What creating a checkpoint does: the row is the new one, or the stored row
    already reads back as this checkpoint. *)
Lemma create_checkpoint_effect now d lease c c' d' :
  validate_checkpoint c = Ok c → create_checkpoint_fenced now d lease c = Ok (c', d') →
  c' = c ∧ db_ok d' ∧ (∃ r, assert_active_run_lease d now lease = Ok r) ∧
  ∃ row, leased_checkpoint d' lease (chk_id c) = Some row ∧
    row_checkpoint row (cp_workspace_snapshot_uri row) (cp_workspace_revision row) = Ok c ∧
    (d' = d ∨ (checkpoints d !! chk_id c = None ∧ d' = put_checkpoint d row)).
Proof.
  intros Hv H. unfold create_checkpoint_fenced in H. run_inv H. bool_hyps.
  apply commit_Ok in H as [H Hok]. run_inv H.
  destruct (leased_checkpoint d lease (chk_id c)) as [row|] eqn:Hrow; run_inv H; bool_hyps.
  - subst. split_and!; eauto.
  - split_and!; try done; [by eexists|]. exists (checkpoint_row (lease_tenant_id lease) c').
    split_and!; [|by apply checkpoint_row_domain|].
    + apply leased_checkpoint_Some. simpl. rewrite lookup_insert_eq. by split_and!.
    + right. split; [|done]. by apply is_none_eq.
Qed.

Lemma complete_checkpoint_effect now d lease id uri rev d' :
  (∀ k r, checkpoints d !! k = Some r → cp_id r = k) →
  complete_checkpoint_fenced now d lease id uri rev = Ok (tt, d') →
  ∃ row, leased_checkpoint d lease id = Some row ∧ db_ok d' ∧
    (∃ r, assert_active_run_lease d now lease = Ok r) ∧
    d' = put_checkpoint d (set_completed row uri rev) ∧
    leased_checkpoint d' lease id = Some (set_completed row uri rev).
Proof.
  intros Hkeys H. unfold complete_checkpoint_fenced in H. apply commit_Ok in H as [H Hok]. run_inv H.
  match goal with H : leased_checkpoint _ _ _ = Some ?v |- _ => rename H into Hrow; rename v into row end.
  exists row. split_and!; try done; [by eexists|].
  apply leased_checkpoint_Some in Hrow as (Hk & Ht & Hr & He).
  apply leased_checkpoint_Some. simpl. by rewrite (Hkeys _ _ Hk), lookup_insert_eq.
Qed.

(** A completed checkpoint refuses another workspace state. *)
Lemma complete_again d lease id row uri rev now r uri' rev' :
  db_ok d → checkpoints d !! cp_id row = Some (set_completed row uri rev) → cp_id row = id →
  leased_checkpoint d lease id = Some (set_completed row uri rev) →
  assert_active_run_lease d now lease = Ok r →
  complete_checkpoint_fenced now d lease id uri' rev' =
  if bool_decide ((uri', rev') = (uri, rev)) then Ok (tt, d)
  else Err (DomainOperationError "checkpoint_state_conflict" false).
Proof.
  intros Hok Hk Hid Hrow Hlive. unfold complete_checkpoint_fenced.
  rewrite Hlive, Hrow. cbn [require mbind result_bind].
  assert (put_checkpoint d (set_completed (set_completed row uri rev) uri rev) = d) as Hsame.
  { unfold put_checkpoint. simpl. change (set_completed (set_completed row uri rev) uri rev)
      with (set_completed row uri rev). rewrite insert_id by done. by destruct d. }
  destruct (decide ((uri', rev') = (uri, rev))) as [E|E].
  - injection E as -> ->. rewrite !bool_decide_true by (done || simpl; set_solver).
    cbn [ensure mbind result_bind]. rewrite Hsame. by apply commit_Ok.
  - rewrite (bool_decide_false (_ = _)), bool_decide_false; [done| |done].
    simpl. set_solver.
Qed.

(** A checkpoint is written once and completed once.  After a worker created a
    checkpoint and completed it with a workspace state, replaying the completion
    changes nothing, completing it with a different state is refused, and
    replaying the creation still returns the original checkpoint: the state
    before the tool call is never overwritten by the state after it. *)
Theorem checkpoint_written_once now1 now2 now3 d lease c c' d1 uri rev d2 r uri' rev' :
  validate_checkpoint c = Ok c →
  create_checkpoint_fenced now1 d lease c = Ok (c', d1) →
  complete_checkpoint_fenced now2 d1 lease (chk_id c) uri rev = Ok (tt, d2) →
  assert_active_run_lease d now3 lease = Ok r →
  c' = c ∧ create_checkpoint_fenced now3 d2 lease c = Ok (c, d2) ∧
  complete_checkpoint_fenced now3 d2 lease (chk_id c) uri' rev' =
    if bool_decide ((uri', rev') = (uri, rev)) then Ok (tt, d2)
    else Err (DomainOperationError "checkpoint_state_conflict" false).
Proof.
  intros Hv H1 H2 Hlive. pose proof H1 as H0.
  apply create_checkpoint_effect in H1 as (-> & Hok1 & _ & row & Hrow & Hdom & Hd1); [|done].
  apply complete_checkpoint_effect in H2 as (row2 & Hrow2 & Hok2 & _ & -> & Hrow3).
  2:{ intros k x Hx. by destruct (ok_checkpoints _ (ok_children _ Hok1) _ _ Hx). }
  assert (row2 = row) as -> by congruence.
  assert (assert_active_run_lease (put_checkpoint d1 (set_completed row uri rev)) now3 lease = Ok r)
    as Hlive2 by (destruct Hd1 as [->|[_ ->]]; done).
  assert (cp_id row = chk_id c) as Hid.
  { apply leased_checkpoint_Some in Hrow as [Hk _]. by destruct (ok_checkpoints _ (ok_children _ Hok1) _ _ Hk). }
  split_and!; [done| |].
  - unfold create_checkpoint_fenced in *. apply bind_Ok in H0 as ([] & Hm & _). rewrite Hm. cbn [ensure mbind result_bind].
    apply commit_Ok. split; [|done]. rewrite Hlive2. cbn [mbind result_bind]. rewrite Hrow3. simpl.
    change (row_checkpoint (set_completed row uri rev) (cp_workspace_snapshot_uri row)
      (cp_workspace_revision row)) with
      (row_checkpoint row (cp_workspace_snapshot_uri row) (cp_workspace_revision row)).
    rewrite Hdom. cbn [mbind result_bind]. by rewrite bool_decide_true.
  - eapply complete_again; try done. simpl. by rewrite lookup_insert_eq.
Qed.
