(* ===== verification/RecoveryProperties.v ===== *)
(** * What a recovery restores

    The worker that takes a run over sees the durable state of its branch: no tool
    call is invented, none that has to be resumed or replayed is lost. *)

From stdpp Require Import base list sets gmap strings sorting.
From Stdlib Require Import ZArith Lia.
From S2P Require Import Prelude PyBase Domain Tables Contracts RunQueue RunRepository Transcripts Execution Recovery MessageCodecs QueueInvariant ExecutionProperties.

Section RecoveryProperties.
Variable digest : json → pystr.
Variable encoded_size : GatewayMessage → Z.
Variable state_size : RunRecoveryState → Z.
Variable jsonb_text_size : json → Z.
Variable text_le : relation pystr.
Context `{!RelDecision text_le}.

(** The rows of a truncated, sorted query that turned out not to be truncated. *)
Lemma truncated_all {A} (R : relation A) `{!RelDecision R} n (l : list A) :
  length (take (n + 1) (merge_sort R l)) ≤ n → take (n + 1) (merge_sort R l) ≡ₚ l.
Proof.
  rewrite length_take. intros Hl. rewrite take_ge by lia. apply merge_sort_Permutation.
Qed.

Lemma collect_outcomes_Ok n rows os :
  collect_outcomes n rows = Ok os →
  Forall2 (λ e o, entry_outcome e = Ok o) rows os ∧ (rows = [] ∨ n + length rows ≤ MAX_RECOVERY_TOOL_OUTCOMES).
Proof.
  revert n os. induction rows as [|e rows IH]; intros n os H; cbn [collect_outcomes] in H; run_inv H.
  { auto. }
  match goal with H : (_ <? _) = true |- _ => apply Nat.ltb_lt in H end.
  match goal with H : collect_outcomes _ _ = Ok _ |- _ => apply IH in H as [Hall Hlen] end.
  split; [by constructor|right]. destruct Hlen as [->|?]; cbn [length] in *; lia.
Qed.

Lemma branch_call_elem d lease statuses k row :
  (k, row) ∈ branch_tool_calls d lease statuses ↔
  k.1 = (lease_tenant_id lease, lease_run_id lease, lease_execution_epoch lease) ∧
  tc_status row ∈ statuses ∧ tool_calls d !! k = Some row.
Proof.
  unfold branch_tool_calls. rewrite list_elem_of_filter, elem_of_map_to_list. simpl. tauto.
Qed.

(** The key of a stored call is stripped. *)
Lemma stored_call_id d k row :
  stored_calls_valid digest d → tool_calls d !! k = Some row → strip_by is_white_space k.2 = k.2.
Proof.
  intros Hall Hk. destruct (Hall _ _ Hk) as (c & Hc & Hid). destruct k as [[[t r] e] i].
  unfold _tool_call_domain, validate_tool_call in Hc. cbn [snd call_id] in *. run_inv Hc.
  match goal with H : identifier_string _ = Ok _ |- _ => apply identifier_string_Ok in H as [E _] end.
  simpl in *. congruence.
Qed.

Lemma entry_outcome_inv e o :
  entry_outcome e = Ok o → out_tool_call_id o = strip_by is_white_space e.1.2 ∧
  out_turn_number o = tc_turn_number e.2 ∧ out_argument_hash o = tc_argument_hash e.2 ∧
  out_status o = tc_status e.2 ∧ out_result o = tc_result e.2.
Proof.
  unfold entry_outcome, validate_outcome. intros H. run_inv H.
  match goal with H : identifier_string _ = Ok _ |- _ => apply identifier_string_Ok in H as [-> _] end.
  by split_and!.
Qed.

Lemma entry_pending_inv d e p :
  entry_pending digest d e = Ok p → pend_tool_call_id p = strip_by is_white_space e.1.2 ∧
  pend_turn_number p = tc_turn_number e.2 ∧ pend_arguments p = tc_arguments e.2 ∧
  if bool_decide (tc_status e.2 = TOOL_WAITING_APPROVAL)
  then ∃ a, call_approval d e.1 = Some a ∧ ap_status a ≠ PENDING ∧ pend_approval_id p = Some (ap_id a) ∧
         pend_approval_approved p = Some (bool_decide (ap_status a = APPROVED)) ∧
         pend_approval_response p = ap_response a
  else call_approval d e.1 = None ∧ pend_approval_id p = None ∧ pend_approval_approved p = None.
Proof.
  unfold entry_pending. cbv zeta. intros H. apply bind_Ok in H as ([aid ok] & Hap & H).
  unfold validate_pending in H. run_inv H.
  match goal with H : identifier_string _ = Ok _ |- _ => apply identifier_string_Ok in H as [-> _] end.
  split_and!; [done..|]. cbn [pend_approval_id pend_approval_approved pend_approval_response].
  destruct (bool_decide (tc_status e.2 = TOOL_WAITING_APPROVAL)).
  - destruct (call_approval d e.1) as [a|]; [|done]. destruct (bool_decide (ap_status a = PENDING)) eqn:Hs; [done|]. bool_hyps.
    injection Hap as <- <-. by exists a.
  - destruct (call_approval d e.1); [done|]. by injection Hap as <- <-.
Qed.

(** ** The two queries *)

Lemma tool_outcomes_spec d lease since os :
  stored_calls_valid digest d → _tool_outcomes jsonb_text_size text_le d lease since = Ok os →
  (∀ o, o ∈ os → ∃ row, tool_calls d !! (lease_tenant_id lease, lease_run_id lease,
      lease_execution_epoch lease, out_tool_call_id o) = Some row ∧
    is_terminal_tool_status (tc_status row) = true ∧ out_status o = tc_status row ∧
    out_result o = tc_result row ∧ out_argument_hash o = tc_argument_hash row) ∧
  ∀ id row, tool_calls d !! (lease_tenant_id lease, lease_run_id lease,
      lease_execution_epoch lease, id) = Some row →
    is_terminal_tool_status (tc_status row) = true → completed_since since row = true →
    id ∈ out_tool_call_id <$> os.
Proof.
  intros Hval H. unfold _tool_outcomes in H. cbv zeta in H. run_inv H.
  apply collect_outcomes_Ok in H as [Hall Hlen].
  assert (length os ≤ MAX_RECOVERY_TOOL_OUTCOMES) as Hos.
  { rewrite <- (Forall2_length _ _ _ Hall). destruct Hlen as [->|Hlen]; cbn [length]; lia. }
  set (rows := filter _ _) in *.
  assert (take (MAX_RECOVERY_TOOL_OUTCOMES + 1) (merge_sort (outcome_le text_le) rows) ≡ₚ rows) as Hperm.
  { apply truncated_all. by rewrite (Forall2_length _ _ _ Hall). }
  split.
  - intros o Ho. destruct (Forall2_elem_of_r _ _ _ _ Hall Ho) as ([k row] & Hin & Ho').
    rewrite Hperm in Hin. unfold rows in Hin. apply list_elem_of_filter in Hin as [_ Hin].
    apply branch_call_elem in Hin as (Hkey & Hst & Hk).
    apply entry_outcome_inv in Ho' as (Hid & _ & Hh & Hs & Hr). simpl in *.
    rewrite (stored_call_id _ _ _ Hval Hk) in Hid. exists row. destruct k as [k i]. simpl in *. subst.
    split_and!; try done. by apply bool_decide_eq_true.
  - intros id row Hk Hterm Hsince.
    assert (((lease_tenant_id lease, lease_run_id lease, lease_execution_epoch lease, id), row) ∈ rows) as Hin.
    { apply list_elem_of_filter. split; [done|]. apply branch_call_elem. split_and!; try done.
      by apply bool_decide_eq_true in Hterm. }
    rewrite <- Hperm in Hin. destruct (Forall2_elem_of_l _ _ _ _ Hall Hin) as (o & Ho & Ho').
    apply list_elem_of_fmap. exists o. split; [|done].
    apply entry_outcome_inv in Ho' as [Hid _]. pose proof (stored_call_id _ _ _ Hval Hk). simpl in *. congruence.
Qed.

Lemma pending_calls_spec d lease ps :
  stored_calls_valid digest d → _pending_tool_calls digest text_le d lease = Ok ps →
  (∀ p, p ∈ ps → ∃ row, tool_calls d !! (lease_tenant_id lease, lease_run_id lease,
      lease_execution_epoch lease, pend_tool_call_id p) = Some row ∧
    pend_arguments p = tc_arguments row ∧
    ((tc_status row = TOOL_RECEIVED ∧ pend_approval_id p = None) ∨
     (tc_status row = TOOL_WAITING_APPROVAL ∧ ∃ a, call_approval d (lease_tenant_id lease,
        lease_run_id lease, lease_execution_epoch lease, pend_tool_call_id p) = Some a ∧
        ap_status a ≠ PENDING ∧ pend_approval_id p = Some (ap_id a) ∧
        pend_approval_approved p = Some (bool_decide (ap_status a = APPROVED))))) ∧
  ∀ id row, tool_calls d !! (lease_tenant_id lease, lease_run_id lease,
      lease_execution_epoch lease, id) = Some row →
    tc_status row ∈ [TOOL_RECEIVED; TOOL_WAITING_APPROVAL] → id ∈ pend_tool_call_id <$> ps.
Proof.
  intros Hval H. unfold _pending_tool_calls in H. cbv zeta in H. run_inv H.
  apply traverse_Ok in H as Hall. set (rows := branch_tool_calls _ _ _) in *.
  assert (take (MAX_RECOVERY_TOOL_OUTCOMES + 1) (merge_sort (pending_le text_le) rows) ≡ₚ rows) as Hperm.
  { apply truncated_all. by apply Nat.leb_le. }
  split.
  - intros p Hp. destruct (Forall2_elem_of_r _ _ _ _ Hall Hp) as ([k row] & Hin & Hp').
    rewrite Hperm in Hin. apply branch_call_elem in Hin as (Hkey & Hst & Hk).
    apply entry_pending_inv in Hp' as (Hid & _ & Ha & Happ). simpl in *.
    rewrite (stored_call_id _ _ _ Hval Hk) in Hid. exists row. destruct k as [k i]. simpl in *. subst.
    split_and!; [done..|]. destruct (tc_status row) eqn:Es; try (exfalso; set_solver).
    + left. cbn in Happ. by destruct Happ as (_ & ? & _).
    + right. split; [done|]. cbn in Happ. destruct Happ as (a & ? & ? & ? & ? & _). by exists a.
  - intros id row Hk Hst.
    assert (((lease_tenant_id lease, lease_run_id lease, lease_execution_epoch lease, id), row) ∈ rows) as Hin.
    { apply branch_call_elem. by split_and!. }
    rewrite <- Hperm in Hin. destruct (Forall2_elem_of_l _ _ _ _ Hall Hin) as (p & Hp & Hp').
    apply list_elem_of_fmap. exists p. split; [|done].
    apply entry_pending_inv in Hp' as [Hid _]. pose proof (stored_call_id _ _ _ Hval Hk). simpl in *. congruence.
Qed.

(** ** Claims *)

(** The tool calls are replayed unless the checkpoint of this branch still waits
    for its completion. *)
Definition replays_tools (d : Db) (lease : RunLease) : bool :=
  match _checkpoint d lease with
  | None => true
  | Some r => negb (cp_execution_epoch r =? lease_execution_epoch lease)%Z
              || is_some (cp_completed_snapshot_uri r)
  end.

Lemma load_inv now d lease s :
  load digest encoded_size state_size jsonb_text_size text_le now d lease = Ok s →
  (∃ r, assert_active_run_lease d now lease = Ok r) ∧ rs_messages s ≠ [] ∧ ∃ os ps,
    (if replays_tools d lease
     then _tool_outcomes jsonb_text_size text_le d lease (chk_created_at <$> rs_checkpoint s)
     else Ok []) = Ok os ∧
    (if replays_tools d lease then _pending_tool_calls digest text_le d lease else Ok []) = Ok ps ∧
    rs_prior_tool_outcomes s = os ∧ rs_pending_tool_calls s = ps.
Proof.
  unfold load, replays_tools. intros H. cbv zeta in H. run_inv H.
  unfold validate_recovery_state in H. run_inv H. simpl.
  split; [by eexists|]. split.
  { by match goal with H : negb (is_nil ?m) = true |- ?m ≠ [] => destruct m end. }
  destruct (_checkpoint d lease) as [r|].
  - match goal with H : (_ ← _checkpoint_domain _ _; _) = Ok _ |- _ => run_inv H end.
    cbn [is_none is_some negb orb] in *. rewrite orb_false_r in *. eauto 10.
  - match goal with H : Ok None = Ok _ |- _ => injection H as <- end. cbn in *. eauto 10.
Qed.

(** C28: a recovery restores what the branch holds.  When a recovery succeeds, its
    lease is live and it has messages to replay; every outcome it reports is a
    terminal row of the leased branch with that status, result and argument hash;
    every pending call is a received row without approval, or a row waiting for
    an approval that has been decided, with exactly that decision.  Conversely,
    when it replays tools, no finished call since the checkpoint and no received
    or waiting call of the branch is left out. *)
Theorem recovery_restores_branch now d lease s :
  stored_calls_valid digest d →
  load digest encoded_size state_size jsonb_text_size text_le now d lease = Ok s →
  (∃ r, assert_active_run_lease d now lease = Ok r) ∧ rs_messages s ≠ [] ∧
  (∀ o, o ∈ rs_prior_tool_outcomes s → ∃ row,
     tool_calls d !! (lease_tenant_id lease, lease_run_id lease, lease_execution_epoch lease,
       out_tool_call_id o) = Some row ∧
     is_terminal_tool_status (tc_status row) = true ∧ out_status o = tc_status row ∧
     out_result o = tc_result row ∧ out_argument_hash o = tc_argument_hash row) ∧
  (∀ p, p ∈ rs_pending_tool_calls s → ∃ row,
     tool_calls d !! (lease_tenant_id lease, lease_run_id lease, lease_execution_epoch lease,
       pend_tool_call_id p) = Some row ∧ pend_arguments p = tc_arguments row ∧
     ((tc_status row = TOOL_RECEIVED ∧ pend_approval_id p = None) ∨
      (tc_status row = TOOL_WAITING_APPROVAL ∧ ∃ a, call_approval d (lease_tenant_id lease,
         lease_run_id lease, lease_execution_epoch lease, pend_tool_call_id p) = Some a ∧
         ap_status a ≠ PENDING ∧ pend_approval_id p = Some (ap_id a) ∧
         pend_approval_approved p = Some (bool_decide (ap_status a = APPROVED))))) ∧
  (replays_tools d lease = true → ∀ id row,
     tool_calls d !! (lease_tenant_id lease, lease_run_id lease, lease_execution_epoch lease, id)
       = Some row →
     (is_terminal_tool_status (tc_status row) = true →
      completed_since (chk_created_at <$> rs_checkpoint s) row = true →
      id ∈ out_tool_call_id <$> rs_prior_tool_outcomes s) ∧
     (tc_status row ∈ [TOOL_RECEIVED; TOOL_WAITING_APPROVAL] →
      id ∈ pend_tool_call_id <$> rs_pending_tool_calls s)).
Proof.
  intros Hval H. apply load_inv in H as (Hlive & Hne & os & ps & Hos & Hps & Ho & Hp).
  rewrite Ho, Hp. destruct (replays_tools d lease).
  - destruct (tool_outcomes_spec _ _ _ _ Hval Hos) as [Ho1 Ho2].
    destruct (pending_calls_spec _ _ _ Hval Hps) as [Hp1 Hp2]. split_and!; eauto.
  - injection Hos as <-. injection Hps as <-. split_and!; try done; intros x Hx; by apply elem_of_nil in Hx.
Qed.
End RecoveryProperties.
