(* ===== verification/TaskPlanProperties.v ===== *)
(** * Task plans: acyclicity, termination and optimistic updates *)

From stdpp Require Import base list sets gmap strings relations.
From Stdlib Require Import ZArith Lia.
From S2P Require Import Prelude PyBase Domain Tables Contracts RunQueue RunRepository Transcripts MessageCodecs TaskPlans QueueInvariant ControlOperations.

(** ** The depth-first search *)

Section Search.
Variable dependencies : gmap pystr (list pystr).

(** [a] depends on [b]. *)
Definition depends (a b : pystr) : Prop := ∃ ds, dependencies !! a = Some ds ∧ b ∈ ds.

(** Every dependency is a task. *)
Definition closed_graph : Prop := ∀ a b, depends a b → is_Some (dependencies !! b).

(** A search leaves the path it came along unchanged. *)
Lemma visit_path fuel s i s' : visit fuel dependencies s i = Ok s' → visiting s' = visiting s.
Proof.
  revert s i s'. induction fuel as [|fuel IH]; intros s i s' H; [done|]. cbn [visit] in H.
  case_bool_decide as Hi; [done|]. case_bool_decide; [by injection H as <-|]. run_inv H. simpl.
  assert (∀ l a b, foldM (visit fuel dependencies) a l = Ok b → visiting b = visiting a) as Hfold.
  { induction l as [|x l IHl]; intros a b Hl; simpl in Hl; run_inv Hl; [done|].
    apply IH in Hrun1. by rewrite (IHl _ _ Hl), Hrun1. }
  match goal with H : foldM _ _ _ = Ok _ |- _ => rewrite (Hfold _ _ _ H) end. simpl. set_solver.
Qed.

(** Finished identifiers have no infinite chain of dependencies. *)
Definition settled (s : Marks) : Prop := ∀ a, a ∈ visited s → Acc (flip depends) a.

(** One more identifier is finished, and everything finished is settled. *)
Definition settles (f : Marks → pystr → result Marks) : Prop :=
  ∀ s i s', f s i = Ok s' → settled s → settled s' ∧ visited s ⊆ visited s' ∧ i ∈ visited s'.

Lemma foldM_settles f l a b :
  settles f → foldM f a l = Ok b → settled a →
  settled b ∧ visited a ⊆ visited b ∧ ∀ x, x ∈ l → x ∈ visited b.
Proof.
  intros Hf. revert a. induction l as [|x l IH]; intros a H Ha; simpl in H; run_inv H.
  { split_and!; [done|done|]. intros x Hx. by apply elem_of_nil in Hx. }
  destruct (Hf _ _ _ Hrun Ha) as (H1 & H2 & H3). destruct (IH _ H H1) as (H4 & H5 & H6).
  split_and!; [done|set_solver|]. intros y [->|Hy]%elem_of_cons; [set_solver|by apply H6].
Qed.

Lemma visit_settles fuel : settles (visit fuel dependencies).
Proof.
  induction fuel as [|fuel IH]; intros s i s' H Hs; [done|]. cbn [visit] in H.
  case_bool_decide as Hi; [done|]. case_bool_decide as Hv; [by injection H as <-|]. run_inv H.
  match goal with H : foldM _ _ _ = Ok _ |- _ =>
    destruct (foldM_settles _ _ _ _ IH H Hs) as (H1 & H2 & H3) end.
  simpl in *. split_and!; [|set_solver|set_solver].
  intros a [->%elem_of_singleton|Ha]%elem_of_union; [|by apply H1].
  constructor. intros b (ds & Hds & Hb). apply H1, H3. unfold flip in *. congruence.
Qed.

(** With one unit of fuel for every task off the current path the search
    returns; it refuses only a graph with a cycle. *)
Lemma visit_returns fuel s i :
  closed_graph → is_Some (dependencies !! i) → visiting s ⊆ dom dependencies →
  size (dom dependencies) < fuel + size (visiting s) →
  (∀ v, v ∈ visiting s → tc depends v i) →
  (∃ s', visit fuel dependencies s i = Ok s') ∨
  (visit fuel dependencies s i = Err cyclic_error ∧ ∃ a, tc depends a a).
Proof.
  intros Hclosed. revert s i. induction fuel as [|fuel IH]; intros s i [ds Hds] Hsub Hfuel Hpath.
  { pose proof (subseteq_size _ _ Hsub). lia. }
  cbn [visit]. case_bool_decide as Hi; [right; eauto|]. case_bool_decide as Hv; [eauto|].
  rewrite Hds. cbn [require mbind result_bind].
  assert (∀ l a, (∀ x, x ∈ l → x ∈ ds) → visiting a = {[i]} ∪ visiting s →
    (∃ b, foldM (visit fuel dependencies) a l = Ok b) ∨
    (foldM (visit fuel dependencies) a l = Err cyclic_error ∧ ∃ a, tc depends a a)) as Hfold.
  { induction l as [|x l IHl]; intros a Hl Ha; simpl; [eauto|].
    assert (depends i x) as Hix by (exists ds; split; [done|]; apply Hl; by left).
    destruct (IH a x) as [[b Hb]|[He Hc]].
    - by eapply Hclosed.
    - rewrite Ha. apply union_subseteq. split; [|done]. apply singleton_subseteq_l, elem_of_dom. eauto.
    - rewrite Ha, size_union, size_singleton by set_solver. lia.
    - intros v. rewrite Ha. intros [->%elem_of_singleton|Hv']%elem_of_union.
      + by apply tc_once.
      + eapply tc_r; [by apply Hpath|done].
    - rewrite Hb. cbn [mbind result_bind]. apply IHl; [intros y Hy; apply Hl; by right|].
      by rewrite (visit_path _ _ _ _ Hb).
    - rewrite He. right. eauto. }
  destruct (Hfold ds (mkMarks ({[i]} ∪ visiting s) (visited s))) as [[b Hb]|[He Hc]]; [done|done| |].
  - rewrite Hb. cbn. eauto.
  - rewrite He. right. eauto.
Qed.

(** No chain of dependencies returns to its start. *)
Definition acyclic : Prop := ∀ a, ¬ tc depends a a.

Lemma acc_acyclic a : Acc (flip depends) a → ¬ tc depends a a.
Proof.
  induction 1 as [a _ IH]. intros Ht. inversion Ht as [x y Hxy|x y z Hxy Hyz]; subst.
  - by apply (IH a).
  - apply (IH y); [done|]. by eapply tc_r.
Qed.

(** The search over all tasks. *)
Definition search (identifiers : list pystr) : result Marks :=
  foldM (visit (S (size (dom dependencies))) dependencies) (mkMarks ∅ ∅) identifiers.

Lemma search_returns identifiers :
  closed_graph → (∀ i, i ∈ identifiers → is_Some (dependencies !! i)) →
  (∃ s, search identifiers = Ok s) ∨ (search identifiers = Err cyclic_error ∧ ∃ a, tc depends a a).
Proof.
  intros Hclosed Hids. unfold search.
  assert (∀ l a, (∀ i, i ∈ l → i ∈ identifiers) → visiting a = ∅ →
    (∃ b, foldM (visit (S (size (dom dependencies))) dependencies) a l = Ok b) ∨
    (foldM (visit (S (size (dom dependencies))) dependencies) a l = Err cyclic_error ∧
     ∃ a, tc depends a a)) as Hfold; [|by apply Hfold].
  induction l as [|x l IHl]; intros a Hl Ha; [left; by eexists|].
  change (foldM ?f ?a (x :: l)) with (s' ← f a x; foldM f s' l).
  destruct (visit_returns (S (size (dom dependencies))) a x) as [[b Hb]|[He Hc]].
  - done.
  - apply Hids, Hl. by left.
  - rewrite Ha. set_solver.
  - rewrite Ha, size_empty. lia.
  - intros v. rewrite Ha. set_solver.
  - rewrite Hb. cbn [mbind result_bind]. apply IHl; [intros y Hy; apply Hl; by right|].
    by rewrite (visit_path _ _ _ _ Hb).
  - rewrite He. right. eauto.
Qed.

Lemma search_acyclic identifiers s :
  search identifiers = Ok s → ∀ i, i ∈ identifiers → Acc (flip depends) i.
Proof.
  unfold search. intros H.
  destruct (foldM_settles _ _ _ _ (visit_settles _) H) as (H1 & _ & H3);
    [unfold settled; simpl; set_solver|].
  intros i Hi. by apply H1, H3.
Qed.

(** The search succeeds exactly on acyclic graphs. *)
Lemma search_iff identifiers :
  closed_graph → (∀ i, i ∈ identifiers ↔ is_Some (dependencies !! i)) →
  (∃ s, search identifiers = Ok s) ↔ acyclic.
Proof.
  intros Hclosed Hids. split.
  - intros [s Hs] a Ha. apply (acc_acyclic a); [|done]. eapply search_acyclic; [done|].
    apply Hids. inversion Ha as [? ? (ds & Hds & _)|? ? ? (ds & Hds & _) _]; subst; eauto.
  - intros Hac. destruct (search_returns identifiers) as [?|[_ [a Ha]]]; [done| |done|].
    + intros i Hi. by apply Hids.
    + by apply Hac in Ha.
Qed.
End Search.

(** ** Plans as graphs *)

(** The dependency relation of a plan, as its tasks state it. *)
Definition task_depends (tasks : list TrackedTask) (a b : pystr) : Prop :=
  ∃ t, t ∈ tasks ∧ task_id t = a ∧ b ∈ task_depends_on t.

(** A dictionary keyed by task ID holds what the task with that ID says. *)
Lemma task_map_lookup {V} (f : TrackedTask → V) tasks i v :
  NoDup (task_id <$> tasks) →
  (list_to_map ((λ t, (task_id t, f t)) <$> tasks) : gmap pystr V) !! i = Some v ↔
  ∃ t, t ∈ tasks ∧ task_id t = i ∧ f t = v.
Proof.
  intros Hnd. rewrite <- elem_of_list_to_map.
  - rewrite list_elem_of_fmap. split.
    + intros (t & [= -> ->] & Ht). eauto.
    + intros (t & Ht & <- & <-). eauto.
  - by rewrite <- list_fmap_compose.
Qed.

Lemma dependency_map_depends tasks a b :
  NoDup (task_id <$> tasks) → depends (dependency_map tasks) a b ↔ task_depends tasks a b.
Proof.
  intros Hnd. unfold depends, task_depends, dependency_map. split.
  - intros (ds & Hds & Hb). apply task_map_lookup in Hds as (t & Ht & <- & <-); [|done]. eauto.
  - intros (t & Ht & <- & Hb). exists (task_depends_on t). split; [|done].
    apply task_map_lookup; [done|]. eauto.
Qed.

Lemma dependency_map_dom tasks i :
  NoDup (task_id <$> tasks) → is_Some (dependency_map tasks !! i) ↔ i ∈ task_id <$> tasks.
Proof.
  intros Hnd. rewrite list_elem_of_fmap. split.
  - intros [ds Hds]. apply task_map_lookup in Hds as (t & Ht & <- & _); [|done]. eauto.
  - intros (t & -> & Ht). exists (task_depends_on t). apply task_map_lookup; [done|]. eauto.
Qed.

Lemma dependency_map_size tasks :
  NoDup (task_id <$> tasks) → size (dom (dependency_map tasks)) = length tasks.
Proof.
  intros Hnd. unfold dependency_map. rewrite dom_list_to_map_L, <- list_fmap_compose.
  rewrite size_list_to_set by done. apply length_fmap.
Qed.

Lemma statuses_complete tasks :
  NoDup (task_id <$> tasks) →
  (∀ t b, t ∈ tasks → b ∈ task_depends_on t → b ∈ task_id <$> tasks) →
  forallb (dependencies_complete (status_map tasks)) tasks = true ↔
  ∀ t u, t ∈ tasks → u ∈ tasks → task_status t ∈ [TASK_IN_PROGRESS; TASK_COMPLETED] →
    task_id u ∈ task_depends_on t → task_status u = TASK_COMPLETED.
Proof.
  intros Hnd Hclosed. rewrite forallb_forall. setoid_rewrite <- list_elem_of_In.
  unfold dependencies_complete. setoid_rewrite orb_true_iff. setoid_rewrite negb_true_iff.
  setoid_rewrite bool_decide_eq_false. setoid_rewrite forallb_forall.
  setoid_rewrite <- list_elem_of_In. setoid_rewrite bool_decide_eq_true. split.
  - intros H t u Ht Hu Hs Hd. destruct (H t Ht) as [?|Hall]; [done|].
    apply Hall in Hd. apply task_map_lookup in Hd as (u' & Hu' & Hid & Hst); [|done].
    by rewrite (NoDup_fmap_elem _ _ _ _ Hnd Hu' Hu Hid) in Hst.
  - intros H t Ht. destruct (decide (task_status t ∈ [TASK_IN_PROGRESS; TASK_COMPLETED])); [right|by left].
    intros b Hb. apply task_map_lookup; [done|].
    apply (Hclosed t) in Hb as Hk; [|done]. apply list_elem_of_fmap in Hk as (u & -> & Hu).
    exists u. split_and!; eauto.
Qed.

Lemma known_dependencies tasks :
  forallb (λ t, forallb (λ d, bool_decide (d ∈ task_id <$> tasks)) (task_depends_on t)) tasks = true ↔
  ∀ t b, t ∈ tasks → b ∈ task_depends_on t → b ∈ task_id <$> tasks.
Proof.
  rewrite forallb_forall. setoid_rewrite <- list_elem_of_In. setoid_rewrite forallb_forall.
  setoid_rewrite <- list_elem_of_In. setoid_rewrite bool_decide_eq_true. naive_solver.
Qed.

(** The search of a plan whose identifiers are unique and known. *)
Lemma plan_search tasks :
  NoDup (task_id <$> tasks) →
  (∀ t b, t ∈ tasks → b ∈ task_depends_on t → b ∈ task_id <$> tasks) →
  let found := foldM (visit (S (length tasks)) (dependency_map tasks)) (mkMarks ∅ ∅) (task_id <$> tasks) in
  ((∃ s, found = Ok s) ↔ ∀ i, ¬ tc (task_depends tasks) i i) ∧
  ((∃ s, found = Ok s) ∨ found = Err cyclic_error).
Proof.
  intros Hnd Hclosed found.
  assert (found = search (dependency_map tasks) (task_id <$> tasks)) as ->.
  { unfold found, search. by rewrite dependency_map_size. }
  assert (closed_graph (dependency_map tasks)) as Hc.
  { intros a b (t & Ht & _ & Hb)%(dependency_map_depends _ _ _ Hnd). apply dependency_map_dom; eauto. }
  split.
  - rewrite search_iff; [|done|]; last (intros i; by rewrite dependency_map_dom).
    unfold acyclic. split; intros H i Hi; apply (H i); revert Hi;
      apply (tc_congruence id); intros a b; by rewrite dependency_map_depends.
  - destruct (search_returns (dependency_map tasks) (task_id <$> tasks)) as [?|[? _]]; auto.
    intros i Hi. by apply dependency_map_dom.
Qed.

(** ** Claims *)

(** C29: the plan validator decides exactly the well-formed plans.  A list of tasks
    is accepted if and only if the identifiers are unique, every dependency names
    a task of the plan, no chain of dependencies returns to its start, and every
    dependency of a task that is in progress or completed is completed. *)
Theorem plan_validation_decides tasks :
  validate_graph tasks = Ok tt ↔
  NoDup (task_id <$> tasks) ∧
  (∀ t b, t ∈ tasks → b ∈ task_depends_on t → b ∈ task_id <$> tasks) ∧
  (∀ i, ¬ tc (task_depends tasks) i i) ∧
  (∀ t u, t ∈ tasks → u ∈ tasks → task_status t ∈ [TASK_IN_PROGRESS; TASK_COMPLETED] →
     task_id u ∈ task_depends_on t → task_status u = TASK_COMPLETED).
Proof.
  unfold validate_graph. cbv zeta. split.
  - intros H. run_inv H. bool_hyps.
    pose proof (proj1 (known_dependencies tasks) Hrun0) as Hk. split_and!; try done.
    + apply (plan_search tasks Hrun Hk). eauto.
    + by apply statuses_complete.
  - intros (Hnd & Hk & Hac & Hst). rewrite bool_decide_true by done. cbn [ensure mbind result_bind].
    rewrite (proj2 (known_dependencies tasks) Hk). cbn [ensure mbind result_bind].
    apply (plan_search tasks Hnd Hk) in Hac as [s Hs]. rewrite Hs. cbn [mbind result_bind].
    by rewrite (proj2 (statuses_complete tasks Hnd Hk) Hst).
Qed.

(** Validating a plan always terminates with its verdict.  The depth-first
    search never exhausts its fuel of one unit more than the number of tasks and
    never looks up an unknown task, whatever the tasks are. *)
Theorem plan_validation_returns tasks :
  validate_graph tasks = Ok tt ∨ ∃ what, validate_graph tasks = Err (ValidationError what).
Proof.
  unfold validate_graph. cbv zeta. case_bool_decide as Hnd; [|right; by eexists].
  cbn [ensure mbind result_bind]. 
  destruct (forallb (λ t, forallb (λ d, bool_decide (d ∈ task_id <$> tasks)) (task_depends_on t)) tasks)
    eqn:Hk; [|right; by eexists].
  pose proof (proj1 (known_dependencies tasks) Hk) as Hkn. cbn [ensure mbind result_bind].
  destruct (plan_search tasks Hnd Hkn) as [_ [[s Hs]|He]].
  - rewrite Hs. cbn [mbind result_bind]. destruct (forallb (dependencies_complete _) tasks); [by left|right; by eexists].
  - rewrite He. right. by eexists.
Qed.

(** ** Durable form *)

Lemma task_status_roundtrip s : task_status_of_value (task_status_value s) = Ok s.
Proof. by destruct s. Qed.

Lemma task_roundtrip t : validate_tracked_task t = Ok t → task_of_json (task_json t) = Ok t.
Proof.
  intros Hv. unfold task_of_json, required_string, task_json. simpl.
  rewrite task_status_roundtrip. cbn [mbind result_bind].
  rewrite (traverse_map string_of_json JString) by done. cbn [mbind result_bind]. by destruct t.
Qed.

#[export] Instance task_codec : JsonCodec TrackedTask := {|
  to_json := task_json; of_json := task_of_json; validate := validate_tracked_task;
  of_to_json := task_roundtrip;
|}.

Lemma validated_task_idem t t' : validate_tracked_task t = Ok t' → validate_tracked_task t' = Ok t'.
Proof.
  unfold validate_tracked_task. intros H. cbv zeta in H. run_inv H. cbn [task_id task_title task_details task_depends_on task_status].
  match goal with H : identifier_string _ = Ok _ |- _ => rewrite (identifier_string_idem _ _ H) end.
  rewrite strip_idem. cbn [mbind result_bind].
  match goal with H : traverse identifier_string _ = Ok _ |- _ =>
    rewrite (traverse_idem _ _ _ identifier_string_idem H) end.
  cbn [mbind result_bind].
  repeat match goal with H : _ = true |- _ => rewrite H; clear H end. done.
Qed.

Lemma validated_update_idem u u' : validate_update u = Ok u' → validate_update u' = Ok u'.
Proof.
  unfold validate_update. intros H. run_inv H. cbn [upd_expected_version upd_tasks].
  match goal with H : traverse validate_tracked_task _ = Ok _ |- _ =>
    rewrite (traverse_idem _ _ _ validated_task_idem H) end.
  cbn [mbind result_bind].
  repeat match goal with H : _ = true |- _ => rewrite H; clear H end. cbn [ensure mbind result_bind].
  match goal with H : validate_graph _ = Ok _ |- _ => by rewrite H end.
Qed.

(** A stored plan reads back as the state it was written from. *)
Lemma task_state_roundtrip list_repr s s' tenant :
  validate_task_state s = Ok s' →
  _task_state_domain list_repr (ts_id s') (mkTaskPlanRecord tenant (ts_run_id s') (ts_execution_epoch s')
    (ts_version s') (plan_json (ts_tasks s')) (ts_created_at s')) = Ok s'.
Proof.
  unfold validate_task_state. intros H. run_inv H.
  match goal with H : validate_update _ = Ok ?v |- _ => rename H into Hu; rename v into u end.
  pose proof (validated_update_idem _ _ Hu) as Hi.
  assert (upd_expected_version u = 0%Z) as E0 by (unfold validate_update in Hu; by run_inv Hu).
  destruct u as [n ts]. simpl in E0. subst n. unfold _task_state_domain. simpl.
  rewrite (traverse_map task_of_json task_json).
  - cbn [mbind result_bind]. rewrite Hi. cbn [mbind result_bind upd_tasks as_state_conflict].
    unfold validate_task_state. cbn [ts_execution_epoch ts_version ts_tasks].
    rewrite Hrun, Hrun0. cbn [ensure mbind result_bind]. by rewrite Hi.
  - intros t Ht. apply task_roundtrip. unfold validate_update in Hi. run_inv Hi. simpl in *.
    by eapply traverse_fixed.
Qed.

(** ** Optimistic updates *)

Definition branch_plans (d : Db) (tenant run : uuid) (epoch : Z) : list (uuid * TaskPlanRecord) :=
  filter (λ e, (tp_tenant_id e.2, tp_run_id e.2, tp_execution_epoch e.2) = (tenant, run, epoch))
    (map_to_list (task_plans d)).

Definition current_version (d : Db) (tenant run : uuid) (epoch : Z) : Z :=
  match TaskRepository.latest_plan_entry d tenant run epoch with
  | Some (_, row) => tp_version row
  | None => 0
  end.

Lemma latest_entry_elem d tenant run epoch e :
  TaskRepository.latest_plan_entry d tenant run epoch = Some e → e ∈ branch_plans d tenant run epoch.
Proof. apply first_by_elem. Qed.

Lemma latest_entry_least d tenant run epoch e e' :
  TaskRepository.latest_plan_entry d tenant run epoch = Some e → e' ∈ branch_plans d tenant run epoch →
  (tp_version e'.2 ≤ tp_version e.2)%Z.
Proof.
  intros He He'. apply Z.ltb_ge.
  refine (first_by_least (λ a b, (tp_version b.2 <? tp_version a.2)%Z) _ _ _ _ _ He _ He').
  - intros a. apply Z.ltb_irrefl.
  - intros a b c. rewrite !Z.ltb_ge. lia.
  - intros a b. rewrite Z.ltb_lt, Z.ltb_ge. lia.
Qed.

Lemma current_version_max d tenant run epoch e :
  e ∈ branch_plans d tenant run epoch → (tp_version e.2 ≤ current_version d tenant run epoch)%Z.
Proof.
  intros He. unfold current_version.
  destruct (TaskRepository.latest_plan_entry d tenant run epoch) as [[id row]|] eqn:El.
  - by apply (latest_entry_least _ _ _ _ _ _ El).
  - apply first_by_None in El. fold (branch_plans d tenant run epoch) in El.
    rewrite El in He. by apply elem_of_nil in He.
Qed.

(** A row with a higher version than the current one is the latest. *)
Lemma latest_after_insert d d' id p :
  task_plans d !! id = None → task_plans d' = <[id := p]> (task_plans d) →
  (current_version d (tp_tenant_id p) (tp_run_id p) (tp_execution_epoch p) < tp_version p)%Z →
  TaskRepository.latest_plan_entry d' (tp_tenant_id p) (tp_run_id p) (tp_execution_epoch p) = Some (id, p).
Proof.
  intros Hid Hd Hv.
  assert ((id, p) ∈ branch_plans d' (tp_tenant_id p) (tp_run_id p) (tp_execution_epoch p)) as Hin.
  { apply list_elem_of_filter. split; [done|]. apply elem_of_map_to_list. by rewrite Hd, lookup_insert_eq. }
  destruct (TaskRepository.latest_plan_entry d' _ _ _) as [[id' row]|] eqn:El.
  - pose proof (latest_entry_least _ _ _ _ _ _ El Hin) as Hle. apply latest_entry_elem in El.
    apply list_elem_of_filter in El as [Hb El]. apply elem_of_map_to_list in El.
    rewrite Hd, lookup_insert in El. case_decide; [subst; congruence|]. exfalso.
    assert ((id', row) ∈ branch_plans d (tp_tenant_id p) (tp_run_id p) (tp_execution_epoch p)) as He.
    { apply list_elem_of_filter. split; [done|]. by apply elem_of_map_to_list. }
    apply current_version_max in He. simpl in *. lia.
  - apply first_by_None in El. unfold branch_plans in Hin. rewrite El in Hin. by apply elem_of_nil in Hin.
Qed.

Lemma update_effect d tenant run u id t s d' :
  TaskRepository.update d tenant run u id t = Ok (Some s, d') →
  ∃ row p, db_ok d' ∧ tenant_run d tenant run = Some row ∧
    upd_expected_version u = current_version d tenant run (rr_execution_epoch row) ∧
    ts_version s = (upd_expected_version u + 1)%Z ∧
    validate_task_state (mkTaskState id run (rr_execution_epoch row) (upd_expected_version u + 1)
      (upd_tasks u) t) = Ok s ∧
    task_plans d !! id = None ∧ d' = set_task_plans d (<[id := p]> (task_plans d)) ∧
    p = mkTaskPlanRecord tenant (ts_run_id s) (ts_execution_epoch s) (ts_version s)
          (plan_json (ts_tasks s)) (ts_created_at s) ∧
    ts_id s = id ∧ ts_run_id s = run ∧ ts_execution_epoch s = rr_execution_epoch row.
Proof.
  unfold TaskRepository.update. intros [H Hok]%commit_Ok.
  destruct (tenant_run d tenant run) as [row|]; [|run_inv H].
  fold (current_version d tenant run (rr_execution_epoch row)) in H. cbv zeta in H. run_inv H. bool_hyps.
  unfold insert_plan in *.
  match goal with H : (_ ← ensure (is_none _) _; _) = Ok _ |- _ => run_inv H end.
  match goal with H : is_none _ = true |- _ => apply is_none_eq in H end.
  match goal with H : validate_task_state _ = Ok s |- _ => rename H into Hs end.
  assert (ts_id s = id ∧ ts_run_id s = run ∧ ts_execution_epoch s = rr_execution_epoch row ∧
    ts_version s = (current_version d tenant run (rr_execution_epoch row) + 1)%Z) as (E1 & E2 & E3 & E4)
    by (unfold validate_task_state in Hs; by run_inv Hs).
  exists row. eexists. rewrite <- E2, <- E3 in *. split_and!; try done; congruence.
Qed.

(** Plan updates are compare-and-set.  A committed update was computed from
    the current version, is the plan every reader sees next, exactly as it was
    written, and any other update made from the same version is refused: no
    update is lost. *)
Theorem plan_update_compare_and_set list_repr d tenant run u id t s d' u' id' t' :
  TaskRepository.update d tenant run u id t = Ok (Some s, d') →
  upd_expected_version u' = upd_expected_version u →
  ts_version s = (upd_expected_version u + 1)%Z ∧
  TaskRepository.get list_repr d' tenant run = Ok (Some s) ∧
  TaskRepository.update d' tenant run u' id' t' = Err TaskRepository.task_plan_version_conflict.
Proof.
  intros H Hu. apply update_effect in H as
    (row & p & Hok & Hrun & Hcur & Hver & Hval & Hid & -> & Hp & E1 & E2 & E3).
  assert (TaskRepository.latest_plan_entry (set_task_plans d (<[id := p]> (task_plans d))) tenant run
    (rr_execution_epoch row) = Some (id, p)) as Hlatest.
  { assert (tp_tenant_id p = tenant ∧ tp_run_id p = run ∧ tp_execution_epoch p = rr_execution_epoch row ∧
      tp_version p = ts_version s) as (F1 & F2 & F3 & F4) by (by rewrite Hp).
    rewrite <- F1, <- F2, <- F3. apply (latest_after_insert d); [done|done|].
    rewrite F1, F2, F3, F4. lia. }
  split_and!; [done| |].
  - unfold TaskRepository.get.
    change (tenant_run (set_task_plans _ _) tenant run) with (tenant_run d tenant run).
    rewrite Hrun, Hlatest, Hp, <- E1. by rewrite (task_state_roundtrip _ _ _ _ Hval).
  - unfold TaskRepository.update.
    change (tenant_run (set_task_plans _ _) tenant run) with (tenant_run d tenant run).
    rewrite Hrun, Hlatest, Hp. cbv zeta. simpl. rewrite (proj2 (Z.eqb_neq _ _)) by lia. done.
Qed.
