(* ===== verification/ContextProperties.v ===== *)
(** * Compaction and memory extraction

    A compaction has one final outcome; the lease of a memory-extraction job is
    fenced by its generation; the source of a job respects its byte limit. *)

From stdpp Require Import base list sets gmap strings sorting.
From Stdlib Require Import ZArith Lia.
From S2P Require Import Prelude PyBase WorkspaceAccess Domain Tables Contracts RunQueue RunRepository Transcripts Execution Recovery TaskPlans ContextStore MemoryJobs QueueInvariant ControlOperations.

(** ** Compactions *)

Import ContextRepository.

(** Rows with an outcome stay as they are. *)
Definition outcomes_kept (d d' : Db) : Prop :=
  ∀ k c, compactions d !! k = Some c → cc_status c ≠ COMPACTION_PENDING →
    compactions d' !! k = Some c.

Lemma outcomes_kept_same d d' : compactions d' = compactions d → outcomes_kept d d'.
Proof. intros E k c. by rewrite E. Qed.

Lemma outcomes_kept_refl d : outcomes_kept d d.
Proof. by apply outcomes_kept_same. Qed.
#[local] Hint Resolve outcomes_kept_refl : core.

(** A transaction of the platform as the compaction table sees it. *)
Inductive compaction_step : Db → Db → Prop :=
| step_request d t s id key route at_ o d' :
    request_compaction d t s id key route at_ = Ok (o, d') → compaction_step d d'
| step_request_if_needed auto_id d t s after n route at_ o d' :
    request_compaction_if_needed auto_id d t s after n route at_ = Ok (o, d') → compaction_step d d'
| step_finish d t id oc at_ o d' : _finish d t id oc at_ = Ok (o, d') → compaction_step d d'
| step_rewind mu pu now d t k c o d' : rewind mu pu now d t k c = Ok (o, d') → compaction_step d d'
| step_elsewhere d d' : db_ok d' → compactions d' = compactions d → compaction_step d d'.

Lemma insert_compaction_kept d t s id key src route at_ d' :
  insert_compaction d t s id key src route at_ = Ok d' → outcomes_kept d d'.
Proof.
  unfold insert_compaction. destruct (_by_idempotency_key _ _ _ _); intros H; run_inv H; [done|].
  match goal with H : is_none _ = true |- _ => apply is_none_eq in H; rename H into Hn end.
  intros k c Hk _. simpl. rewrite lookup_insert_ne; [done|congruence].
Qed.

Lemma finish_kept d t id oc at_ o d' : _finish d t id oc at_ = Ok (o, d') → outcomes_kept d d'.
Proof.
  unfold _finish. intros [H _]%commit_Ok. destruct (compactions d !! id) as [row|] eqn:Hrow; [|by run_inv H].
  destruct (negb (bool_decide (cc_tenant_id row = t))); [by run_inv H|].
  destruct (negb (bool_decide (cc_status row = COMPACTION_PENDING))) eqn:Hs; [by run_inv H|].
  run_inv H. bool_hyps. intros k c Hk Hc. simpl. rewrite lookup_insert_ne; [done|]. congruence.
Qed.

Lemma copy_messages_compactions mu now row t e n ms d d1 :
  copy_messages mu now row t e n ms d = Ok d1 → compactions d1 = compactions d.
Proof.
  revert n d. induction ms as [|m ms IH]; intros n d H; simpl in H; run_inv H; [done|].
  unfold insert_message in Hrun. run_inv Hrun. by apply IH in H.
Qed.

Lemma rewind_kept mu pu now d t k c o d' : rewind mu pu now d t k c = Ok (o, d') → outcomes_kept d d'.
Proof.
  unfold rewind. intros [H _]%commit_Ok. destruct (tenant_run d t k) as [row|]; [|by run_inv H].
  destruct (run_checkpoint d t k c); [|by run_inv H]. run_inv H.
  match goal with H : _seed_rewind_branch _ _ _ _ _ _ _ _ _ = Ok _ |- _ =>
    unfold _seed_rewind_branch in H; run_inv H end.
  match goal with H : copy_messages _ _ _ _ _ _ _ _ = Ok _ |- _ => apply copy_messages_compactions in H as Hc end.
  unfold insert_plan in *. match goal with H : (_ ← ensure (is_none (task_plans _ !! _)) _; _) = Ok _ |- _ => run_inv H end.
  intros j x Hj Hx. simpl. rewrite lookup_fmap, Hc, Hj. simpl. f_equal. unfold supersede_compaction.
  by rewrite (bool_decide_false (cc_status x = COMPACTION_PENDING)), andb_false_r.
Qed.

Lemma compaction_step_kept d d' : compaction_step d d' → db_ok d' ∧ outcomes_kept d d'.
Proof.
  intros [d0 t s id key route at_ o d1 H|auto d0 t s after n route at_ o d1 H|d0 t id oc at_ o d1 H|
    mu pu now d0 t k c o d1 H|d0 d1 Hok E].
  - unfold request_compaction in H. apply commit_Ok in H as [H Hok]. split; [done|].
    destruct (tenant_session _ _ _); [|by run_inv H].
    destruct (_by_idempotency_key _ _ _ _); run_inv H; [done|]. by eapply insert_compaction_kept.
  - unfold request_compaction_if_needed in H. run_inv H. apply commit_Ok in H as [H Hok]. split; [done|].
    destruct (tenant_session _ _ _); [|by run_inv H]. cbv zeta in H.
    destruct (first_in_status _ _ _ _ _ _); [by run_inv H|].
    match type of H with (if ?b then _ else _) = _ => destruct b; [by run_inv H|] end.
    destruct (_by_idempotency_key _ _ _ _); run_inv H; [done|]. by eapply insert_compaction_kept.
  - split; [by unfold _finish in H; apply commit_Ok in H as [_ ?]|by eapply finish_kept].
  - split; [by unfold rewind in H; apply commit_Ok in H as [_ ?]|by eapply rewind_kept].
  - split; [done|by apply outcomes_kept_same].
Qed.

Lemma compaction_history d d' :
  star compaction_step d d' → db_ok d → db_ok d' ∧ outcomes_kept d d'.
Proof.
  intros Hstar. induction Hstar as [d|d1 d2 d3 Hstep _ IH]; intros Hok; [by split|].
  apply compaction_step_kept in Hstep as [Hok2 Hk2]. destruct (IH Hok2) as [Hok3 Hk3].
  split; [done|]. intros k c Hk Hc. by apply Hk3; [apply Hk2|].
Qed.

(** After a finish the row holds an outcome that reads back as the result. *)
Lemma compaction_finish_effect d t id oc at_ c d' :
  _finish d t id oc at_ = Ok (Some c, d') →
  db_ok d' ∧ ∃ row, compactions d' !! id = Some row ∧ cc_tenant_id row = t ∧
    cc_status row ≠ COMPACTION_PENDING ∧ _compaction_domain row = Ok c ∧ same_outcome c oc = true.
Proof.
  unfold _finish. intros [H Hok]%commit_Ok. split; [done|].
  destruct (compactions d !! id) as [row|] eqn:Hrow; [|run_inv H].
  destruct (bool_decide (cc_tenant_id row = t)) eqn:Ht; cbn [negb] in H; [|run_inv H]. bool_hyps.
  destruct (negb (bool_decide (cc_status row = COMPACTION_PENDING))) eqn:Hs.
  - run_inv H. bool_hyps. by exists row.
  - cbv zeta in H. run_inv H.
    match goal with H : _compaction_domain ?r = Ok c |- _ => exists r; rename H into Hd end.
    simpl. rewrite lookup_insert_eq. split_and!; try done.
    + unfold requested_status. by destruct (oc_error oc).
    + unfold _compaction_domain, validate_compaction in Hd. simpl in Hd. cbv zeta in Hd. run_inv Hd.
      unfold same_outcome. simpl. by rewrite !bool_decide_true.
Qed.

(** A compaction has one final outcome.  Once a compaction was completed or
    failed, after any history of further requests, completions and rewinds the
    same outcome is acknowledged again with the stored result and no change, and
    a different outcome is refused. *)
Theorem compaction_outcome_final d t id oc at_ c d1 d2 oc' at_' :
  _finish d t id oc at_ = Ok (Some c, d1) → star compaction_step d1 d2 →
  same_outcome c oc = true ∧
  _finish d2 t id oc' at_' =
    if same_outcome c oc' then Ok (Some c, d2)
    else Err (DomainOperationError "context_compaction_conflict" false).
Proof.
  intros H Hstar. apply compaction_finish_effect in H as (Hok & row & Hrow & Ht & Hs & Hd & Hsame).
  destruct (compaction_history _ _ Hstar Hok) as [Hok2 Hkept]. split; [done|].
  unfold _finish. rewrite (Hkept _ _ Hrow Hs), bool_decide_true by done. cbn [negb].
  rewrite (bool_decide_false (cc_status row = COMPACTION_PENDING)) by done. cbn [negb].
  rewrite Hd. cbn [mbind result_bind]. destruct (same_outcome c oc'); [|done]. by apply commit_Ok.
Qed.
