(* ===== verification/MemoryProperties.v ===== *)
(** * Memory extraction: fencing and bounds *)

From stdpp Require Import base list sets gmap strings sorting.
From Stdlib Require Import ZArith Lia.
From S2P Require Import Prelude PyBase Domain Tables Contracts RunQueue RunRepository Transcripts Execution Recovery TaskPlans ContextStore MemoryJobs QueueInvariant.

(** ** The byte limit of a source *)

Lemma utf8_tail_size s limit : (utf8_len (_utf8_tail s limit) <= limit)%N.
Proof.
  induction s as [|c s IH]; cbn [_utf8_tail].
  - destruct (_ <=? _)%N eqn:E; [by apply N.leb_le|]. simpl. lia.
  - destruct (_ <=? _)%N eqn:E; [by apply N.leb_le|done].
Qed.

(** What is kept is the end of the text, whole characters. *)
Lemma utf8_tail_suffix s limit : ∃ t, s = t ++ _utf8_tail s limit.
Proof.
  induction s as [|c s [t IH]]; cbn [_utf8_tail]; destruct (_ <=? _)%N; try (by exists []).
  exists (c :: t). simpl. by rewrite <- IH.
Qed.

Lemma join_lines_cons s l :
  utf8_len (join_lines (s :: l)) = (utf8_len s + (if is_nil l then 0 else 1) + utf8_len (join_lines l))%N.
Proof.
  destruct l as [|s' l]; [simpl; lia|].
  change (join_lines (s :: s' :: l)) with (s ++ 10%N :: join_lines (s' :: l)).
  rewrite utf8_len_app. change (utf8_len (10%N :: ?x)) with (1 + utf8_len x)%N. cbn [is_nil]. lia.
Qed.

Lemma select_source_size max_bytes selected retained rows :
  utf8_len (join_lines selected) = retained → (retained <= max_bytes)%N →
  (utf8_len (join_lines (select_source max_bytes selected retained rows)) <= max_bytes)%N.
Proof.
  revert selected retained. induction rows as [|m rows IH]; intros selected retained Hs Hm;
    cbn [select_source]; [lia|]. cbv zeta.
  destruct (_ <? _)%N eqn:E.
  - destruct selected as [|x l]; cbn [is_nil]; [|lia]. apply IH.
    + simpl in *. lia.
    + pose proof (utf8_tail_size (render_message m) max_bytes). simpl in Hs. lia.
  - apply N.ltb_ge in E. apply IH; [|lia]. rewrite join_lines_cons. lia.
Qed.

(** ** Generations *)

Section Fencing.
Variable job_id : job_key → uuid.

Import MemoryRepository.

(** No job disappears and no lease generation goes back. *)
Definition generations_grow (d d' : Db) : Prop :=
  ∀ k r, memory_jobs d !! k = Some r →
    ∃ r', memory_jobs d' !! k = Some r' ∧ (mj_lease_generation r ≤ mj_lease_generation r')%Z.

Lemma generations_grow_refl d : generations_grow d d.
Proof. intros k r Hk. by exists r. Qed.
#[local] Hint Resolve generations_grow_refl : core.

Lemma put_job_grows d d1 k r r' :
  memory_jobs d1 = memory_jobs d → memory_jobs d !! k = Some r →
  (mj_lease_generation r ≤ mj_lease_generation r')%Z → generations_grow d (put_job d1 k r').
Proof.
  intros E Hk Hg j x Hj. unfold put_job. simpl. rewrite E, lookup_insert. case_decide; [|by exists x].
  subst. exists r'. split; [done|]. assert (x = r) as -> by congruence. done.
Qed.

(** A transaction of the platform as the extraction queue sees it. *)
Inductive memory_step : Db → Db → Prop :=
| step_claim locked d w t dur tok o d' :
    claim_pending job_id locked d w t dur tok = Ok (o, d') → memory_step d d'
| step_complete d j ms t v d' : complete job_id d j ms t = Ok (v, d') → memory_step d d'
| step_fail d j e t v d' : fail job_id d j e t = Ok (v, d') → memory_step d d'
| step_elsewhere d d' : generations_grow d d' → memory_step d d'.

Lemma claimed_row_spec d key r w t dur tok r' :
  claimed_row d key r w t dur tok = Ok r' →
  (mj_lease_generation r ≤ mj_lease_generation r')%Z ∧
  (mj_status r' = JOB_RUNNING →
   mj_lease_generation r' = (mj_lease_generation r + 1)%Z ∧ mj_worker_id r' = Some w).
Proof.
  unfold claimed_row. cbv zeta. intros H.
  match type of H with (if ?b then _ else _) = _ => destruct b; [run_inv H; simpl; split; [lia|done]|] end.
  match type of H with (if ?b then _ else _) = _ => destruct b; [run_inv H; simpl; split; [lia|done]|] end.
  run_inv H. simpl. split; [lia|done].
Qed.

(** The row a claim leaves behind: an executing job has the next generation. *)
Lemma claim_effect locked d w t dur tok j d' :
  claim_pending job_id locked d w t dur tok = Ok (Some j, d') →
  ∃ r r', memory_jobs d !! job_row_key j = Some r ∧ memory_jobs d' !! job_row_key j = Some r' ∧
    d' = put_job d (job_row_key j) r' ∧ (mj_lease_generation r ≤ mj_lease_generation r')%Z ∧
    job_lease_generation j = mj_lease_generation r' ∧
    (job_status j = JOB_RUNNING → mj_lease_generation r' = (mj_lease_generation r + 1)%Z).
Proof.
  unfold claim_pending. intros H. run_inv H. apply commit_Ok in H as [H _].
  destruct (first_by _ _) as [[key r]|] eqn:Ef; [|run_inv H]. run_inv H.
  match goal with H : claimed_row _ _ _ _ _ _ _ = Ok ?x |- _ => rename H into Hc; rename x into r' end.
  match goal with H : _memory_job_domain _ _ _ = Ok _ |- _ => rename H into Hd end.
  apply first_by_elem, list_elem_of_filter in Ef as [_ Ef]. apply elem_of_map_to_list in Ef.
  assert (job_row_key j = key ∧ job_lease_generation j = mj_lease_generation r' ∧
    job_status j = mj_status r') as (Hk & Hg & Hs).
  { destruct key as [[te ru] ep]. unfold _memory_job_domain, validate_job in Hd. cbv zeta in Hd. by run_inv Hd. }
  apply claimed_row_spec in Hc as [Hle Hnext].
  exists r, r'. rewrite Hk, Hs. split_and!; try done; [by simpl; rewrite lookup_insert_eq|].
  intros Hst. by apply Hnext.
Qed.

Lemma store_memory_jobs j d m d' : store_memory j d m = Ok d' → memory_jobs d' = memory_jobs d.
Proof.
  unfold store_memory, insert_memory. intros H. run_inv H. destruct (scalar_where _ _); run_inv H; done.
Qed.

Lemma store_memories_jobs j d ms d' : foldM (store_memory j) d ms = Ok d' → memory_jobs d' = memory_jobs d.
Proof.
  revert d. induction ms as [|m ms IH]; intros d H; simpl in H; run_inv H; [done|].
  rewrite (IH _ H). by eapply store_memory_jobs.
Qed.

Lemma locked_job_row d j r :
  _locked_job job_id d j = Ok r → memory_jobs d !! job_row_key j = Some r.
Proof.
  unfold _locked_job. intros H. run_inv H.
  destruct (memory_jobs d !! job_row_key j) as [x|]; [|done]. by destruct (_ && _); simplify_eq.
Qed.

(** Finishing a job needs the generation of its row. *)
Lemma complete_effect d j ms t v d' :
  complete job_id d j ms t = Ok (v, d') →
  ∃ r, memory_jobs d !! job_row_key j = Some r ∧ mj_lease_generation r = job_lease_generation j ∧
    generations_grow d d'.
Proof.
  unfold complete. intros H. run_inv H. apply commit_Ok in H as [H _]. run_inv H.
  match goal with H : _locked_job _ _ _ = Ok ?x |- _ => apply locked_job_row in H as Hr; rename x into r end.
  exists r. split; [done|]. destruct (bool_decide (mj_status r = JOB_COMPLETED)).
  - run_inv H. unfold _assert_terminal_generation in *.
    match goal with H : ensure (_ =? _)%Z _ = Ok _ |- _ => run_inv H end. bool_hyps. done.
  - run_inv H. unfold _assert_memory_job_lease in *.
    match goal with H : ensure (_ && _ && _ && _ && _ && _) _ = Ok _ |- _ => run_inv H end. bool_hyps.
    split; [done|]. eapply put_job_grows; [|done|done].
    match goal with H : (if _memory_enabled _ _ _ then _ else _) = Ok _ |- _ => rename H into Hm end.
    destruct (_memory_enabled _ _ _); [by eapply store_memories_jobs|by injection Hm as ->].
Qed.

Lemma fail_effect d j e t v d' :
  fail job_id d j e t = Ok (v, d') →
  ∃ r, memory_jobs d !! job_row_key j = Some r ∧ mj_lease_generation r = job_lease_generation j ∧
    generations_grow d d'.
Proof.
  unfold fail. intros [H _]%commit_Ok. run_inv H.
  match goal with H : _locked_job _ _ _ = Ok ?x |- _ => apply locked_job_row in H as Hr; rename x into r end.
  exists r. split; [done|]. destruct (bool_decide (mj_status r = JOB_FAILED)).
  - run_inv H. unfold _assert_terminal_generation in *.
    match goal with H : ensure (_ =? _)%Z _ = Ok _ |- _ => run_inv H end. bool_hyps. done.
  - run_inv H. unfold _assert_memory_job_lease in *.
    match goal with H : ensure (_ && _ && _ && _ && _ && _) _ = Ok _ |- _ => run_inv H end. bool_hyps.
    split; [done|]. by eapply put_job_grows.
Qed.

Lemma memory_step_grows d d' : memory_step d d' → generations_grow d d'.
Proof.
  intros [locked d0 w t dur tok o d1 H|d0 j ms t v d1 H|d0 j e t v d1 H|]; [| | |done].
  - destruct o as [j|].
    + apply claim_effect in H as (r & r' & Hr & _ & -> & Hg & _). by eapply put_job_grows.
    + unfold claim_pending in H. run_inv H. apply commit_Ok in H as [H _].
      destruct (first_by _ _) as [[key r]|]; run_inv H. done.
  - by apply complete_effect in H as (_ & _ & _ & ?).
  - by apply fail_effect in H as (_ & _ & _ & ?).
Qed.

Lemma memory_history_grows d d' : star memory_step d d' → generations_grow d d'.
Proof.
  intros Hstar. induction Hstar as [|d1 d2 d3 Hstep _ IH]; [done|]. intros k r Hk.
  apply memory_step_grows in Hstep. destruct (Hstep _ _ Hk) as (r2 & Hk2 & Hle).
  destruct (IH _ _ Hk2) as (r3 & Hk3 & Hle3). exists r3. split; [done|lia].
Qed.

(** ** Claims *)

(** A memory-extraction lease is fenced.  Once a job that a worker held was
    claimed again for execution, whatever else happened before and after, the
    first worker can neither complete it nor fail it, now or at any later time. *)
Theorem memory_lease_fenced locked d w t dur tok j d1 d2 locked' w' t' dur' tok' j' d3 d4 ms e at_ :
  claim_pending job_id locked d w t dur tok = Ok (Some j, d1) → star memory_step d1 d2 →
  claim_pending job_id locked' d2 w' t' dur' tok' = Ok (Some j', d3) → job_status j' = JOB_RUNNING →
  job_row_key j' = job_row_key j → star memory_step d3 d4 →
  is_ok (complete job_id d4 j ms at_) = false ∧ is_ok (fail job_id d4 j e at_) = false.
Proof.
  intros H1 S1 H2 Hrun Hkey S2.
  apply claim_effect in H1 as (_ & r1 & _ & Hr1 & _ & _ & Hg1 & _).
  destruct (memory_history_grows _ _ S1 _ _ Hr1) as (r2 & Hr2 & Hle2).
  apply claim_effect in H2 as (r2' & r3 & Hr2' & Hr3 & _ & _ & _ & Hg3). rewrite Hkey in *.
  destruct (memory_history_grows _ _ S2 _ _ Hr3) as (r4 & Hr4 & Hle4).
  specialize (Hg3 Hrun). assert (r2' = r2) as -> by congruence. split.
  - destruct (complete job_id d4 j ms at_) as [[v d5]|] eqn:E; [|done]. exfalso.
    apply complete_effect in E as (r & Hr & Hg & _). assert (r = r4) as -> by congruence. lia.
  - destruct (fail job_id d4 j e at_) as [[v d5]|] eqn:E; [|done]. exfalso.
    apply fail_effect in E as (r & Hr & Hg & _). assert (r = r4) as -> by congruence. lia.
Qed.

(** The text sent to memory extraction never exceeds its limit.  Whatever the
    messages, the source of a job has at most [max_bytes] bytes of UTF-8,
    separators included, also when a single message had to be cut. *)
Theorem memory_source_bounded d j max_bytes at_ s :
  source_for_job job_id d j max_bytes at_ = Ok s → (utf8_len s <= max_bytes)%N.
Proof.
  unfold source_for_job. intros H. run_inv H. apply select_source_size; [done|lia].
Qed.

(** A worker name with surrounding blanks is accepted by the claim, but the job it
    returns carries the stripped name, which no row holds. *)
Lemma padded_worker_locked_out locked d w t dur tok j d1 ms at_ :
  claim_pending job_id locked d w t dur tok = Ok (Some j, d1) → job_status j = JOB_RUNNING →
  strip_by is_white_space w ≠ w → is_ok (complete job_id d1 j ms at_) = false.
Proof.
  intros H Hs Hw. unfold claim_pending in H. run_inv H. apply commit_Ok in H as [H _].
  destruct (first_by _ _) as [[key r]|] eqn:Ef; [|run_inv H]. run_inv H.
  match goal with H : claimed_row _ _ _ _ _ _ _ = Ok ?x |- _ => rename H into Hc; rename x into r' end.
  match goal with H : _memory_job_domain _ _ _ = Ok _ |- _ => rename H into Hd end.
  assert (job_row_key j = key ∧ job_status j = mj_status r' ∧
    ∀ x, mj_worker_id r' = Some x → job_worker_id j = Some (strip_by is_white_space x)) as (Hk & Hst & Hwk).
  { destruct key as [[te ru] ep]. unfold _memory_job_domain, validate_job in Hd. cbv zeta in Hd. run_inv Hd.
    split_and!; try done. intros x Hx. simpl.
    match goal with H : validate_optional _ _ = Ok _ |- _ => rename H into Hv end.
    cbn [job_worker_id] in Hv. rewrite Hx in Hv. simpl in Hv. run_inv Hv.
    match goal with H : identifier_string _ = Ok _ |- _ => apply identifier_string_Ok in H as [-> _] end. done. }
  rewrite Hst in Hs. apply claimed_row_spec in Hc as [_ Hc]. destruct (Hc Hs) as [_ Hr].
  destruct (complete _ _ _ _ _) as [[? d5]|] eqn:E; [|done]. exfalso.
  unfold complete in E. run_inv E. apply commit_Ok in E as [E _]. run_inv E.
  match goal with H : _locked_job _ _ _ = Ok ?x |- _ => apply locked_job_row in H as Hl; rename x into q end.
  rewrite Hk in Hl. simpl in Hl. rewrite lookup_insert_eq in Hl. injection Hl as <-.
  rewrite (bool_decide_false (mj_status r' = JOB_COMPLETED)) in E by congruence. run_inv E.
  match goal with H : _assert_memory_job_lease _ _ _ = Ok _ |- _ =>
    unfold _assert_memory_job_lease in H; run_inv H end. bool_hyps.
  rewrite (Hwk w Hr), Hr in *. congruence.
Qed.
End Fencing.
