(* ===== verification/ContextPipelineProperties.v ===== *)
(** * Properties of the context pipeline

    Chunking loses no text, the search for a summary prefix terminates with the
    longest prefix that fits, a built context respects its budget and keeps every
    critical fragment, and compaction never separates a tool result from the
    message that proposed the call. *)

From stdpp Require Import base list sets gmap strings sorting pretty.
From Stdlib Require Import ZArith Lia.
From S2P Require Import Prelude PyBase Domain Tables Transcripts TaskPlans PyText Gateway ContextPipeline.

(** ** Chunks *)

Lemma chunk_at_step fuel segment :
  segment ≠ [] → 0 < fuel → chunk_at fuel segment =
    match utf8_decode 0 segment with
    | inl chunk => Ok (chunk, length segment)
    | inr start => chunk_at (pred fuel) (take start segment)
    end.
Proof. destruct segment, fuel; (done || lia). Qed.

(** The first chunk is the longest prefix within the limit. *)
Lemma chunk_at_fit limit s :
  scalar_text s = true → s ≠ [] → 4 ≤ limit →
  let segment := take limit (utf8_encode s) in
  ∃ t rest, s = t ++ rest ∧ t ≠ [] ∧ length (utf8_encode t) ≤ limit ∧
    chunk_at (length segment) segment = Ok (t, length (utf8_encode t)).
Proof.
  intros Hs Hn Hl. cbv zeta.
  set (enc := utf8_encode s). set (k := length (take limit enc)).
  assert (Hk : k = min limit (length enc)) by (unfold k; by rewrite length_take).
  assert (take limit enc = take k enc) as Eseg.
  { unfold k. rewrite length_take. destruct (Nat.le_ge_cases limit (length enc)).
    - by rewrite Nat.min_l.
    - rewrite Nat.min_r by done. rewrite !take_ge; [done|lia..]. }
  assert (1 ≤ length enc) as He.
  { unfold enc. destruct s as [|c s]; [done|]. rewrite encode_cons, length_app.
    pose proof (encode_char_length c). lia. }
  destruct (utf8_fit_prefix k s) as [rest Hrest].
  set (t := utf8_fit k s) in *.
  assert (1 ≤ length (utf8_encode t)) as Ht.
  { destruct t as [|c t'] eqn:Et.
    - destruct s as [|c s]; [done|]. unfold t in Et. cbn in Et.
      destruct (Nat.leb_spec (length (encode_char c)) k); [done|].
      unfold enc in *. rewrite encode_cons, length_app in *.
      pose proof (encode_char_length c). lia.
    - rewrite encode_cons, length_app. pose proof (encode_char_length c). lia. }
  assert (length (utf8_encode t) ≤ k) by apply utf8_fit_size.
  exists t, rest. repeat split; [done|intros E; rewrite E in Ht; cbn in Ht; lia|lia|].
  assert (0 < k) as Hpos by lia.
  assert (take k enc ≠ []) as Hne by (intros E%(f_equal length); rewrite length_take in E; cbn in E; lia).
  rewrite Eseg, chunk_at_step by done.
  unfold enc at 1. rewrite decode_take by (done || unfold enc in *; lia). fold t.
  destruct (Nat.eqb_spec (length (utf8_encode t)) k) as [Eq|Ne].
  - rewrite Eq. f_equal. f_equal. rewrite length_take. lia.
  - rewrite take_take, Nat.min_l by lia.
    assert (take (0 + length (utf8_encode t)) enc = utf8_encode t) as ->.
    { unfold enc. rewrite Hrest at 1. rewrite encode_app. cbn. by rewrite take_app_length. }
    assert (utf8_encode t ≠ []) by (intros E; rewrite E in Ht; cbn in Ht; lia).
    rewrite chunk_at_step by (done || lia).
    rewrite decode_encode; [done|]. rewrite Hrest, scalar_text_app in Hs. by apply andb_prop in Hs as [? _].
Qed.

(** The chunks of an encoded text, whatever is left of the fuel. *)
Lemma chunk_loop_reassembles limit fuel s :
  scalar_text s = true → 4 ≤ limit → length (utf8_encode s) ≤ fuel →
  ∃ chunks, chunk_loop fuel limit (utf8_encode s) = Ok chunks ∧ mjoin chunks = s ∧
    Forall (λ c, c ≠ [] ∧ (utf8_len c <= N.of_nat limit)%N) chunks.
Proof.
  intros Hs Hl. revert s Hs. induction fuel as [|fuel IH]; intros s Hs Hf.
  { destruct s as [|c s]; [by exists []|]. rewrite encode_cons, length_app in Hf.
    pose proof (encode_char_length c). lia. }
  destruct (decide (s = [])) as [->|Hn]; [by exists []|].
  destruct (chunk_at_fit limit s Hs Hn Hl) as (t & rest & -> & Ht & Hlen & Hat).
  rewrite scalar_text_app in Hs. apply andb_prop in Hs as [Hst Hsr].
  assert (1 ≤ length (utf8_encode t)) as Hpos.
  { destruct t as [|c t]; [done|]. rewrite encode_cons, length_app. pose proof (encode_char_length c). lia. }
  rewrite encode_app, length_app in *. destruct (IH rest Hsr) as (chunks & Hc & Hj & Hall); [lia|].
  exists (t :: chunks). split_and!.
  - cbn [chunk_loop]. destruct (utf8_encode t ++ utf8_encode rest) as [|b bs] eqn:E.
    { apply (f_equal length) in E. rewrite length_app in E. cbn in E. lia. }
    cbv zeta. rewrite Hat. cbn. rewrite <- E, drop_app_length, Hc. done.
  - change (mjoin (t :: chunks)) with (t ++ mjoin chunks). by rewrite Hj.
  - constructor; [|done]. split; [done|]. rewrite <- length_encode. lia.
Qed.

(** Chunking a text for the task-plan fragments always succeeds when the limit
    holds at least one character (four bytes), and loses nothing: the chunks, each
    within the byte limit, concatenate to the original text. *)
Theorem utf8_chunks_reassemble s limit :
  scalar_text s = true → 4 ≤ limit →
  ∃ chunks, _utf8_chunks s limit = Ok chunks ∧ mjoin chunks = s ∧ chunks ≠ [] ∧
    Forall (λ c, (utf8_len c <= N.of_nat limit)%N) chunks ∧
    (s ≠ [] → Forall (λ c, c ≠ []) chunks).
Proof.
  intros Hs Hl. unfold _utf8_chunks.
  destruct (chunk_loop_reassembles limit (length (utf8_encode s)) s Hs Hl) as (chunks & Hc & Hj & Hall); [lia|].
  destruct (utf8_encode s) as [|b bs] eqn:E.
  - assert (s = []) as ->.
    { destruct s as [|c s]; [done|]. rewrite encode_cons in E. apply (f_equal length) in E.
      rewrite length_app in E. pose proof (encode_char_length c). cbn in E. lia. }
    exists [[]]. split_and!; [done..| |done]. repeat constructor. cbn. lia.
  - exists chunks. split_and!; [done|done| | |].
    + intros ->. cbn in Hj. subst s. done.
    + eapply Forall_impl; [exact Hall|]. naive_solver.
    + intros _. eapply Forall_impl; [exact Hall|]. naive_solver.
Qed.

(** ** The search for a summary prefix *)

Section Fit.
Variable encoded_size : GatewayMessage → Z.
Variables (p : ContextPipeline) (summary : pystr) (critical : list ContextFragment) (available : Z).

Abbreviation probe := (probe_summary encoded_size p summary critical).
Abbreviation len := (length summary).

(** Binary search over a nondecreasing estimate. *)
Lemma fit_loop_spec (tok : nat → Z) fuel low high best :
  (∀ n, n ≤ len → probe n = Ok (tok n)) →
  (∀ m n, m ≤ n → n ≤ len → (tok m <= tok n)%Z) →
  (0 <= low)%Z → (high <= Z.of_nat len)%Z → (low <= high + 1)%Z → (high - low + 1 <= Z.of_nat fuel)%Z →
  best = take (Z.to_nat (low - 1)) summary →
  (∀ n, (Z.of_nat n < low)%Z → (tok n <= available)%Z) →
  (∀ n, n ≤ len → (high < Z.of_nat n)%Z → (available < tok n)%Z) →
  ∃ r, (-1 <= r <= Z.of_nat len)%Z ∧
    fit_loop encoded_size fuel p summary critical available low high best
      = Ok (take (Z.to_nat r) summary) ∧
    (∀ n, (Z.of_nat n <= r)%Z → (tok n <= available)%Z) ∧
    (∀ n, n ≤ len → (r < Z.of_nat n)%Z → (available < tok n)%Z).
Proof.
  intros Hp Hm. revert low high best.
  induction fuel as [|fuel IH]; intros low high best H0 Hh Hlh Hf Hb Hlow Hhigh; cbn [fit_loop].
  - destruct (Z.leb_spec low high); [lia|]. exists (low - 1)%Z.
    split_and!; [lia|lia|by rewrite Hb| |]; intros n **; [apply Hlow|apply Hhigh]; lia.
  - destruct (Z.leb_spec low high) as [Hle|Hgt]; cycle 1.
    { exists (low - 1)%Z.
      split_and!; [lia|lia|by rewrite Hb| |]; intros n **; [apply Hlow|apply Hhigh]; lia. }
    cbv zeta. set (mid := ((low + high) / 2)%Z).
    assert (low <= mid <= high)%Z as Hmid.
    { unfold mid. split; [apply Z.div_le_lower_bound|apply Z.div_le_upper_bound]; lia. }
    rewrite Hp by lia. cbn [mbind result_bind].
    destruct (Z.leb_spec (tok (Z.to_nat mid)) available) as [Hfit|Hover].
    + apply IH; [lia..| | |done].
      * unfold _utf8_prefix. f_equal. lia.
      * intros n Hn. etrans; [apply (Hm n (Z.to_nat mid)); lia|done].
    + apply IH; [lia..|done|done|].
      intros n Hn1 Hn2. eapply Z.lt_le_trans; [exact Hover|]. apply Hm; lia.
Qed.
End Fit.

(** ** Sizes of estimated messages *)

Lemma quoted_app s t :
  utf8_len (quoted (s ++ t)) = (utf8_len (quoted s) + utf8_len (t ≫= escape_char))%N.
Proof. unfold quoted. rewrite bind_app. cbn. rewrite !utf8_len_app. cbn. lia. Qed.

Lemma quoted_insert_le s u t : (utf8_len (quoted (s ++ t)) <= utf8_len (quoted (s ++ u ++ t)))%N.
Proof. rewrite !quoted_app, bind_app, utf8_len_app. lia. Qed.

Lemma canonical_array_head l :
  ∃ post, ∀ j, _canonical_json (JArray (j :: l)) = py "[" ++ _canonical_json j ++ post.
Proof.
  destruct l as [|x l]; [by exists (py "]")|].
  eexists. intros j. cbn [_canonical_json]. rewrite <- !app_assoc. reflexivity.
Qed.

Lemma canonical_object_head k l :
  ∃ post, ∀ j, _canonical_json (JObject ((k, j) :: l)) = py "{" ++ quoted k ++ py ":" ++ _canonical_json j ++ post.
Proof.
  destruct l as [|x l].
  - exists (py "}"). intros j. cbn [_canonical_json]. by rewrite <- !app_assoc.
  - eexists. intros j. cbn [_canonical_json]. rewrite <- !app_assoc. reflexivity.
Qed.

Definition system_fields : list (pystr * json) :=
  [(py "role", JString (py "system")); (py "tool_call_id", JNull); (py "tool_calls", JArray [])].

Lemma system_message_json a :
  message_json (mkGatewayMessage SYSTEM a None []) = JObject ((py "content", JString a) :: system_fields).
Proof. done. Qed.

(** A longer system text has a larger estimate. *)
Lemma estimate_content_le a b conv :
  (utf8_len (quoted a) <= utf8_len (quoted b))%N →
  (utf8_estimate (mkGatewayMessage SYSTEM a None [] :: conv)
   <= utf8_estimate (mkGatewayMessage SYSTEM b None [] :: conv))%Z.
Proof.
  intros Hab. unfold utf8_estimate. rewrite !fmap_cons.
  destruct (canonical_array_head (message_json <$> conv)) as [post Hpost]. rewrite !Hpost, !system_message_json.
  destruct (canonical_object_head (py "content") system_fields) as [rest Hrest]. rewrite !Hrest.
  rewrite !utf8_len_app. cbn [_canonical_json]. lia.
Qed.

(** ** Fragments and their assembly *)

Lemma system_message_Ok c m :
  system_message c = Ok m ↔ c ≠ [] ∧ m = mkGatewayMessage SYSTEM c None [].
Proof.
  unfold system_message, validate_gateway_message. cbn. rewrite bind_Ok. split.
  - intros ([] & H & [= <-]). by destruct c.
  - intros [Hc ->]. exists tt. by destruct c.
Qed.

Lemma make_fragment_Ok encoded_size id source m critical priority ordinal f :
  make_fragment encoded_size id source m critical priority ordinal = Ok f →
  identifier_string id = Ok (fr_id f) ∧
  f = mkFragment (fr_id f) source m critical priority ordinal.
Proof. unfold make_fragment. intros H. run_inv H. done. Qed.

Lemma system_text_fragment_Ok encoded_size id source c critical priority ordinal f :
  system_text_fragment encoded_size id source c critical priority ordinal = Ok f →
  identifier_string id = Ok (fr_id f) ∧
  f = mkFragment (fr_id f) source (mkGatewayMessage SYSTEM c None []) critical priority ordinal.
Proof.
  unfold system_text_fragment. rewrite bind_Ok. intros (m & Hm & Hf).
  apply system_message_Ok in Hm as [_ ->]. by apply make_fragment_Ok in Hf.
Qed.

(** The two parts an assembly is made of. *)
Definition system_texts (fragments : list ContextFragment) : list pystr :=
  gm_content <$> filter (λ m, is_system m = true) (fr_message <$> fragments).
Definition conversation_of (fragments : list ContextFragment) : list GatewayMessage :=
  filter (λ m, is_system m = false) (fr_message <$> fragments).
Definition merged_system (fragments : list ContextFragment) : list GatewayMessage :=
  match system_texts fragments with
  | [] => []
  | texts => [mkGatewayMessage SYSTEM (str_join (newline ++ newline) texts) None []]
  end.

Lemma assemble_Ok fragments messages :
  _assemble_messages fragments = Ok messages →
  messages = merged_system fragments ++ conversation_of fragments ∧ messages ≠ [] ∧
  (Z.of_nat (length messages) <= MAX_CONTEXT_MESSAGES)%Z.
Proof.
  unfold _assemble_messages, merged_system, system_texts, conversation_of. cbv zeta. intros H. run_inv H.
  bool_hyps. split; [|split; [|done]].
  - f_equal. match goal with H : match ?l with [] => _ | _ => _ end = Ok _ |- _ => destruct l; run_inv H end; [done|].
    match goal with H : system_message _ = Ok _ |- _ => apply system_message_Ok in H as [_ ->] end. done.
  - intros E. rewrite E in *. done.
Qed.

Lemma estimate_Ok p messages z :
  _estimate p messages = Ok z → z = Z.max 1 (pl_estimator p messages) ∧ (0 <= pl_estimator p messages)%Z.
Proof. unfold _estimate. cbv zeta. intros H. run_inv H. bool_hyps. done. Qed.

Lemma str_join_cons sep x l :
  str_join sep (x :: l) = x ++ match l with [] => [] | _ => sep ++ str_join sep l end.
Proof. destruct l; cbn; [by rewrite app_nil_r|done]. Qed.

(** What a successful probe measures. *)
Lemma probe_estimate encoded_size p summary critical n z :
  probe_summary encoded_size p summary critical n = Ok z →
  pl_estimator p = utf8_estimate →
  z = Z.max 1 (utf8_estimate
        (mkGatewayMessage SYSTEM (summary_text (take n summary) ++
           (match system_texts critical with
            | [] => [] | texts => (newline ++ newline) ++ str_join (newline ++ newline) texts
            end)) None [] :: conversation_of critical)).
Proof.
  intros H Hest. unfold probe_summary, estimate_fragments in H. run_inv H.
  match goal with H : system_text_fragment _ _ _ _ _ _ _ = Ok ?v |- _ =>
    apply system_text_fragment_Ok in H as [_ Hf]; rename v into f end.
  match goal with H : _assemble_messages _ = Ok ?v |- _ => apply assemble_Ok in H as [-> _] end.
  apply estimate_Ok in H as [-> _]. rewrite Hest, Hf. unfold merged_system, system_texts, conversation_of.
  rewrite fmap_cons. cbn [fr_message]. rewrite !filter_cons_True, filter_cons_False by done.
  rewrite (fmap_cons gm_content). cbn [gm_content app]. rewrite str_join_cons.
  by destruct (gm_content <$> _).
Qed.

(** Estimates grow with the prefix. *)
Lemma probe_monotone encoded_size p summary critical m n z w :
  pl_estimator p = utf8_estimate → m ≤ n →
  probe_summary encoded_size p summary critical m = Ok z →
  probe_summary encoded_size p summary critical n = Ok w → (z <= w)%Z.
Proof.
  intros Hest Hmn Hz Hw. apply probe_estimate in Hz, Hw; [|done..]. subst.
  apply Z.max_le_compat_l, estimate_content_le.
  replace n with (m + (n - m)) by lia. rewrite <- take_take_drop.
  set (t := match _ with [] => _ | _ => _ end). unfold summary_text.
  replace (_ ++ t) with (((py "Compacted prior context:" ++ newline) ++ take m summary) ++ t)
    by (by rewrite <- !app_assoc).
  replace ((_ ++ _ ++ _ ++ _) ++ t) with (((py "Compacted prior context:" ++ newline) ++ take m summary)
    ++ take (n - m) (drop m summary) ++ t) by (by rewrite <- !app_assoc).
  apply quoted_insert_le.
Qed.

(** With the default byte estimator the search for a summary prefix always
    returns, and returns the best answer: the longest nonempty prefix of the summary
    whose context fits the budget, or none exactly when no nonempty prefix fits. *)
Theorem fit_summary_longest encoded_size p summary critical available :
  pl_estimator p = utf8_estimate →
  (∀ n, n ≤ length summary → is_ok (probe_summary encoded_size p summary critical n) = true) →
  ∃ r, _fit_summary encoded_size p summary critical available = Ok r ∧
    match r with
    | Some s =>
        ∃ n z, s = take n summary ∧ s ≠ [] ∧ n ≤ length summary ∧
          probe_summary encoded_size p summary critical n = Ok z ∧ (z <= available)%Z ∧
          ∀ n' z', n < n' → n' ≤ length summary →
            probe_summary encoded_size p summary critical n' = Ok z' → (available < z')%Z
    | None =>
        ∀ n z, 1 ≤ n → n ≤ length summary →
          probe_summary encoded_size p summary critical n = Ok z → (available < z)%Z
    end.
Proof.
  intros Hest Hok.
  set (tok n := match probe_summary encoded_size p summary critical n with Ok z => z | Err _ => 0%Z end).
  assert (∀ n, n ≤ length summary → probe_summary encoded_size p summary critical n = Ok (tok n)) as Htok.
  { intros n Hn. specialize (Hok n Hn). unfold tok. by destruct (probe_summary _ _ _ _ n). }
  assert (∀ m n, m ≤ n → n ≤ length summary → (tok m <= tok n)%Z) as Hmono.
  { intros m n Hmn Hn. eapply (probe_monotone encoded_size p summary critical m n); [done|done|apply Htok; lia..]. }
  unfold _fit_summary.
  destruct (fit_loop_spec encoded_size p summary critical available tok (S (length summary)) 0
    (Z.of_nat (length summary)) []) as (r & Hr & -> & Hfit & Hover); [done|done|lia..|done|lia|lia|].
  cbn [mbind result_bind]. eexists. split; [done|].
  destruct (take (Z.to_nat r) summary) as [|c s] eqn:Et; cbn [is_nil].
  - intros n z Hn1 Hn2 Hz. rewrite Htok in Hz by done. injection Hz as <-. apply Hover; [done|].
    destruct (Z.lt_ge_cases r (Z.of_nat n)); [done|]. exfalso.
    apply (f_equal length) in Et. rewrite length_take in Et. cbn in Et. lia.
  - assert (0 <= r)%Z by (destruct (Z.le_gt_cases 0 r); [done|]; by replace (Z.to_nat r) with 0 in Et by lia).
    exists (Z.to_nat r), (tok (Z.to_nat r)). split_and!; [done|done|lia|apply Htok; lia|apply Hfit; lia|].
    intros n' z' Hn1 Hn2 Hz. rewrite Htok in Hz by done. injection Hz as <-. apply Hover; lia.
Qed.

(** ** The recent window *)

Lemma walk_to_call_le messages id start : walk_to_call messages id start ≤ start.
Proof. induction start as [|start IH]; cbn [walk_to_call]; [lia|]. repeat case_match; lia. Qed.

Lemma window_start_le fuel messages start : window_start fuel messages start ≤ start.
Proof.
  revert start. induction fuel as [|fuel IH]; intros [|start]; cbn [window_start]; try lia.
  case_match; [|lia]. case_bool_decide; [|lia]. etrans; [apply IH|].
  etrans; [apply walk_to_call_le|lia].
Qed.

(** The walk ends at the first message or at one that is not a tool result. *)
Lemma window_start_stops fuel messages start :
  start ≤ fuel →
  let s := window_start fuel messages start in
  s = 0 ∨ ∀ m, messages !! s = Some m → gm_role m ≠ TOOL.
Proof.
  cbv zeta. revert start. induction fuel as [|fuel IH]; intros [|start] Hf; cbn [window_start]; try lia; [by left..|].
  destruct (messages !! S start) as [m|] eqn:Em; [|right; congruence].
  case_bool_decide as Hr; [|right; congruence].
  apply IH. pose proof (walk_to_call_le messages (gm_tool_call_id m) start). lia.
Qed.

(** A transcript in the order the loop writes it: each tool result follows the
    message that proposed its call, with only other tool results in between. *)
Definition results_follow_calls (messages : list GatewayMessage) : Prop :=
  ∀ i m, messages !! i = Some m → gm_role m = TOOL →
    ∃ j a, j < i ∧ messages !! j = Some a ∧ proposes (gm_tool_call_id m) a = true ∧
      ∀ k b, j < k → k < i → messages !! k = Some b → gm_role b = TOOL.

Lemma window_closed messages recent :
  results_follow_calls messages →
  let start := _recent_conversation_start messages recent in
  start ≤ length messages - recent ∧
  ∀ i m, start ≤ i → messages !! i = Some m → gm_role m = TOOL →
    ∃ j a, start ≤ j ∧ j < i ∧ messages !! j = Some a ∧ proposes (gm_tool_call_id m) a = true.
Proof.
  intros Hwf. cbv zeta. unfold _recent_conversation_start. cbv zeta.
  set (s0 := length messages - recent). split; [apply window_start_le|].
  intros i m Hi Hm Hrole. destruct (Hwf i m Hm Hrole) as (j & a & Hj & Ha & Hp & Hbetween).
  exists j, a. split_and!; [|done..]. set (s := window_start s0 messages s0) in *.
  destruct (window_start_stops s0 messages s0) as [E|Hs]; [lia|fold s in E; lia|]. fold s in Hs.
  destruct (Nat.le_gt_cases s j) as [|Hlt]; [done|]. exfalso.
  destruct (decide (s = i)) as [->|Hne]; [by eapply Hs|].
  assert (s < length messages) as Hb by (apply lookup_lt_Some in Hm; lia).
  destruct (lookup_lt_is_Some_2 _ _ Hb) as [b Hb']. eapply (Hs b Hb'), (Hbetween s b); (done || lia).
Qed.

(** ** Builds *)

Lemma filter_noncritical (ids : list pystr) l :
  (∀ f, f ∈ l → (fr_id f ∉ ids ↔ is_critical f = false)) →
  filter (λ id, id ∉ ids) (fr_id <$> l) = fr_id <$> noncritical_of l.
Proof.
  unfold noncritical_of. induction l as [|f l IH]; intros H; [done|]. rewrite fmap_cons, !filter_cons.
  specialize (IH (λ g Hg, H g (list_elem_of_further _ _ _ Hg))).
  assert (fr_id f ∉ ids ↔ is_critical f = false) as Hf by (apply H; by left).
  destruct (decide (fr_id f ∉ ids)) as [H1|H1], (decide (is_critical f = false)) as [H2|H2];
    rewrite ?fmap_cons, ?IH; (done || tauto).
Qed.

(** Fragments are named by validated identifiers. *)
Definition fragment_named (f : ContextFragment) : Prop := identifier_string (fr_id f) = Ok (fr_id f).

Lemma named_ids l : Forall fragment_named l → traverse identifier_string (fr_id <$> l) = Ok (fr_id <$> l).
Proof.
  intros H. apply traverse_Ok. induction H as [|f l Hf _ IH]; cbn; constructor; [exact Hf|exact IH].
Qed.

Lemma named_filter (P : ContextFragment → Prop) `{∀ f, Decision (P f)} l :
  Forall fragment_named l → Forall fragment_named (filter P l).
Proof. rewrite !Forall_forall. intros Hl f [_ Hf]%list_elem_of_filter. by apply Hl. Qed.

Lemma str_join_elem sep x l : x ∈ l → ∃ before after, str_join sep l = before ++ x ++ after.
Proof.
  induction 1 as [x l|x y l Hin (before & after & IH)]; rewrite str_join_cons; [by eexists [], _|].
  exists (y ++ sep ++ before), after. destruct l as [|z l]; [by apply elem_of_nil in Hin|].
  rewrite IH, <- !app_assoc. done.
Qed.

(** An assembly holds every system text and the other messages unchanged. *)
Lemma assemble_system_text fragments messages f :
  _assemble_messages fragments = Ok messages → f ∈ fragments → is_system (fr_message f) = true →
  ∃ m before after, head messages = Some m ∧ is_system m = true ∧
    gm_content m = before ++ gm_content (fr_message f) ++ after.
Proof.
  intros (-> & _ & _)%assemble_Ok Hf Hs.
  assert (gm_content (fr_message f) ∈ system_texts fragments) as Hin.
  { apply list_elem_of_fmap_2, list_elem_of_filter. split; [done|]. by apply list_elem_of_fmap_2. }
  destruct (str_join_elem (newline ++ newline) _ _ Hin) as (before & after & E).
  unfold merged_system. destruct (system_texts fragments) as [|t ts]; [by apply elem_of_nil in Hin|].
  eexists _, before, after. split; [done|]. split; [done|]. exact E.
Qed.

Lemma assemble_conversation fragments messages :
  _assemble_messages fragments = Ok messages →
  filter (λ m, is_system m = false) messages = conversation_of fragments.
Proof.
  intros (-> & _ & _)%assemble_Ok. rewrite filter_app.
  replace (filter _ (merged_system fragments)) with (@nil GatewayMessage).
  - unfold conversation_of. cbn. rewrite list_filter_filter. apply list_filter_iff. naive_solver.
  - unfold merged_system. by destruct (system_texts fragments).
Qed.

Section Build.
Variable encoded_size : GatewayMessage → Z.
Variable compress : ContextCompressionRequest → result ContextCompressionResult.

(** What the contributors of a pipeline return. *)
Definition contributors_named (p : ContextPipeline) (request : ContextBuildRequest) : Prop :=
  ∀ c fs, c ∈ pl_contributors p → c request = Ok fs → Forall fragment_named fs.

Lemma gather_named request fragments cs out :
  (∀ c fs, c ∈ cs → c request = Ok fs → Forall fragment_named fs) →
  Forall fragment_named fragments → gather request fragments cs = Ok out → Forall fragment_named out.
Proof.
  revert fragments. induction cs as [|c cs IH]; intros fragments Hc Hf H; cbn [gather] in H; [by injection H as <-|].
  run_inv H. eapply IH; [|by apply Forall_app_2; [|eapply Hc; [left|]]|done].
  intros c' fs Hin. apply Hc. by right.
Qed.

Lemma text_fragment_named id source c critical priority ordinal f :
  system_text_fragment encoded_size id source c critical priority ordinal = Ok f → fragment_named f.
Proof. intros [H _]%system_text_fragment_Ok. by eapply identifier_string_idem. Qed.

Lemma collect_fragments_named p request fragments :
  contributors_named p request → collect_fragments encoded_size p request = Ok fragments →
  Forall fragment_named fragments ∧ NoDup (fr_id <$> fragments).
Proof.
  intros Hc H. unfold collect_fragments in H. cbv zeta in H. apply bind_Ok in H as (base & Hbase & H).
  assert (Forall fragment_named base) as Hn by (by eapply gather_named in Hbase).
  apply bind_Ok in H as ([] & Hnd%ensure_Ok & H). bool_hyps.
  destruct (cbr_previous_summary request) as [[|c previous]|]; [by injection H as <-| |by injection H as <-].
  run_inv H. bool_hyps.
  match goal with H : system_text_fragment _ _ _ _ _ _ _ = Ok ?f |- _ =>
    pose proof (text_fragment_named _ _ _ _ _ _ _ H); apply system_text_fragment_Ok in H as [Hid _] end.
  split; [by constructor|]. rewrite fmap_cons. constructor; [|done].
  replace (fr_id _) with (py "previous-compacted-summary"); [done|].
  assert (identifier_string (py "previous-compacted-summary") = Ok (py "previous-compacted-summary")) as E by done.
  congruence.
Qed.

(** The compressor returns nonempty summaries, as its result model demands. *)
Definition summaries_nonempty : Prop := ∀ q c, compress q = Ok c → cr_summary c ≠ [].

Lemma retain_cases p critical available compression summary retained :
  (∀ c, compression = Some c → cr_summary c ≠ []) →
  retain encoded_size p critical available compression = Ok (summary, retained) →
  (summary = None ∧ retained = critical) ∨
  ∃ s f, summary = Some s ∧ retained = f :: critical ∧ fragment_named f ∧
    is_some compression = true ∧ fr_message f = mkGatewayMessage SYSTEM (summary_text s) None [].
Proof.
  unfold retain. intros Hne H. destruct compression as [c|]; cbn [fmap option_fmap option_map] in H;
    [|left; naive_solver].
  destruct (cr_summary c) as [|x xs] eqn:Es; [by destruct (Hne c eq_refl)|].
  apply bind_Ok in H as ([s|] & _ & H); [|left; naive_solver].
  apply bind_Ok in H as (f & Hf & [= <- <-]). right. exists s, f. split_and!; [done|done| |done|].
  - by eapply text_fragment_named.
  - apply system_text_fragment_Ok in Hf as [_ ->]. done.
Qed.

Lemma validate_build_result_Ok r r' :
  validate_build_result r = Ok r' →
  br_messages r' = br_messages r ∧ br_estimated_tokens r' = br_estimated_tokens r ∧
  br_budget_tokens r' = br_budget_tokens r ∧ br_summary r' = br_summary r ∧
  br_compressed r' = br_compressed r ∧
  traverse identifier_string (br_retained_fragment_ids r) = Ok (br_retained_fragment_ids r') ∧
  traverse identifier_string (br_dropped_fragment_ids r) = Ok (br_dropped_fragment_ids r') ∧
  (br_estimated_tokens r <= br_budget_tokens r)%Z.
Proof.
  unfold validate_build_result. intros H. run_inv H. cbn. bool_hyps. done.
Qed.

(** The two outcomes of a successful build. *)
Definition build_outcome (fragments retained : list ContextFragment) (r : ContextBuildResult) : Prop :=
  (br_compressed r = false ∧ retained = fragments ∧ br_summary r = None ∧ br_dropped_fragment_ids r = [])
  ∨ (br_dropped_fragment_ids r = fr_id <$> noncritical_of fragments ∧
     ((br_summary r = None ∧ retained = critical_of fragments) ∨
      ∃ s f, br_summary r = Some s ∧ retained = f :: critical_of fragments ∧
        fr_message f = mkGatewayMessage SYSTEM (summary_text s) None [])).

Lemma dropped_ids fragments :
  NoDup (fr_id <$> fragments) →
  filter (λ id, id ∉ fr_id <$> critical_of fragments) (fr_id <$> fragments) = fr_id <$> noncritical_of fragments.
Proof.
  intros Hnd. apply filter_noncritical. intros f Hf. rewrite list_elem_of_fmap. split.
  - intros H. destruct (is_critical f) eqn:E; [|done]. destruct H. exists f.
    split; [done|]. by apply list_elem_of_filter.
  - intros Hc (g & E & [Hg Hin]%list_elem_of_filter).
    assert (f = g) as -> by (by eapply NoDup_fmap_elem). congruence.
Qed.

Lemma build_shape p request r :
  contributors_named p request → summaries_nonempty →
  build encoded_size compress p request = Ok r →
  ∃ budget fragments retained,
    budget_get (pl_budgets p) (cbr_route_name request) = Ok budget ∧
    collect_fragments encoded_size p request = Ok fragments ∧
    _assemble_messages retained = Ok (br_messages r) ∧
    br_budget_tokens r = available_input_tokens budget ∧
    br_estimated_tokens r = Z.max 1 (pl_estimator p (br_messages r)) ∧
    (br_estimated_tokens r <= br_budget_tokens r)%Z ∧
    br_retained_fragment_ids r = fr_id <$> retained ∧
    build_outcome fragments retained r.
Proof.
  intros Hnamed Hsum H. unfold build in H.
  apply bind_Ok in H as (budget & Hb & H). apply bind_Ok in H as (fragments & Hf & H).
  destruct (collect_fragments_named _ _ _ Hnamed Hf) as [Hn Hnd].
  apply bind_Ok in H as (all & Hall & H). apply bind_Ok in H as (tokens & Ht & H). cbv zeta in H.
  destruct ((tokens <=? available_input_tokens budget)%Z && negb (cbr_force_compaction request)).
  - apply validate_build_result_Ok in H as (Em & Ee & Ebu & Es & Ec & Er & Ed & Hle). cbn in *.
    apply estimate_Ok in Ht as [Ht _]. rewrite (named_ids fragments) in Er by done.
    exists budget, fragments, fragments. rewrite Em, Ee, Ebu. split_and!; try done; [congruence|].
    left. rewrite Es, Ec. split_and!; congruence.
  - apply bind_Ok in H as (ct & _ & H). apply bind_Ok in H as (u & _ & H).
    apply bind_Ok in H as (compression & Hcomp & H). apply bind_Ok in H as ([summary retained] & Hret & H).
    apply bind_Ok in H as (messages & Hm & H). apply bind_Ok in H as (estimated & He & H).
    apply validate_build_result_Ok in H as (Em & Ee & Ebu & Es & Ec & Er & Ed & Hle).
    cbn [br_messages br_estimated_tokens br_budget_tokens br_summary br_compressed
         br_retained_fragment_ids br_dropped_fragment_ids] in *.
    apply estimate_Ok in He as [He _]. rewrite dropped_ids in Ed by done.
    assert (Forall fragment_named (noncritical_of fragments)) as Hnn by (by apply named_filter).
    assert (Forall fragment_named (critical_of fragments)) as Hnc by (by apply named_filter).
    rewrite named_ids in Ed by done. injection Ed as Ed.
    apply retain_cases in Hret; cycle 1.
    { intros c ->. unfold compress_noncritical in Hcomp.
      destruct (is_nil _); [done|]. run_inv Hcomp. by eapply Hsum. }
    assert (br_retained_fragment_ids r = fr_id <$> retained) as Eret.
    { rewrite named_ids in Er; [congruence|].
      destruct Hret as [[_ ->]|(s & f & _ & -> & Hfn & _)]; [done|by constructor]. }
    exists budget, fragments, retained. rewrite Em, Ee, Ebu. split_and!; try done.
    right. split; [done|]. rewrite Es.
    destruct Hret as [?|(s & f & ? & ? & _ & _ & ?)]; [by left|right]. by exists s, f.
Qed.

(** C31: a context that is built fits the input budget of its route, carries every
    critical fragment, and accounts for every source: a fragment is retained or
    listed as dropped, and only noncritical ones are dropped.  The text
    of each retained system fragment is contained in the one system message, the
    other retained messages follow it unchanged and in order. *)
Theorem build_keeps_critical_within_budget p request r :
  contributors_named p request → summaries_nonempty →
  build encoded_size compress p request = Ok r →
  ∃ budget fragments retained,
    budget_get (pl_budgets p) (cbr_route_name request) = Ok budget ∧
    collect_fragments encoded_size p request = Ok fragments ∧
    (pl_estimator p (br_messages r) <= available_input_tokens budget)%Z ∧
    br_retained_fragment_ids r = fr_id <$> retained ∧
    (∀ f, f ∈ fragments → fr_critical f = true → f ∈ retained) ∧
    (∀ f, f ∈ fragments → f ∈ retained ∨ fr_id f ∈ br_dropped_fragment_ids r) ∧
    (∀ f, f ∈ fragments → fr_id f ∈ br_dropped_fragment_ids r → fr_critical f = false) ∧
    (∀ f, f ∈ retained → is_system (fr_message f) = true →
       ∃ m before after, head (br_messages r) = Some m ∧ is_system m = true ∧
         gm_content m = before ++ gm_content (fr_message f) ++ after) ∧
    filter (λ m, is_system m = false) (br_messages r)
      = filter (λ m, is_system m = false) (fr_message <$> retained).
Proof.
  intros Hnamed Hsum H. destruct (build_shape _ _ _ Hnamed Hsum H)
    as (budget & fragments & retained & Hb & Hf & Ha & Ebu & Ee & Hle & Er & Hout).
  exists budget, fragments, retained. destruct (collect_fragments_named _ _ _ Hnamed Hf) as [_ Hnd].
  assert (∀ f, f ∈ fragments → fr_critical f = true → f ∈ retained) as Hcrit.
  { intros f Hin Hc. assert (f ∈ critical_of fragments) by (by apply list_elem_of_filter).
    destruct Hout as [(_ & -> & _)|[_ [[_ ->]|(s & g & _ & -> & _)]]]; [done..|by right]. }
  split_and!; [done|done|lia|done|done| | | |].
  - intros f Hin. destruct (fr_critical f) eqn:Hc; [left; by apply Hcrit|].
    destruct Hout as [(_ & -> & _)|[-> _]]; [by left|right].
    by apply list_elem_of_fmap_2, list_elem_of_filter.
  - intros f Hin Hd. destruct Hout as [(_ & _ & _ & E)|[E _]]; rewrite E in Hd; [by apply elem_of_nil in Hd|].
    apply list_elem_of_fmap in Hd as (g & Eg & [Hg Hgin]%list_elem_of_filter).
    by assert (f = g) as -> by (by eapply NoDup_fmap_elem).
  - intros f. by apply assemble_system_text.
  - by apply assemble_conversation.
Qed.
End Build.

(** ** The default contributors *)

Definition system_fragments (fs : list ContextFragment) : Prop :=
  Forall (λ f, fragment_named f ∧ is_system (fr_message f) = true) fs.

Lemma filter_earlier {A} (P : A → Prop) `{∀ x, Decision (P x)} (l : list A) n m :
  filter P l !! n = Some m →
  ∃ i, l !! i = Some m ∧ ∀ j a, j < i → l !! j = Some a → P a → ∃ n', n' < n ∧ filter P l !! n' = Some a.
Proof.
  revert n. induction l as [|x l IH]; intros n; [done|]. rewrite filter_cons.
  destruct (decide (P x)) as [Hx|Hx].
  - destruct n as [|n]; cbn.
    + intros [= ->]. exists 0. split; [done|]. intros j a Hj. lia.
    + intros (i & Hi & Hearlier)%IH. exists (S i). split; [done|].
      intros [|j] a Hj Ha HP; cbn in Ha.
      * injection Ha as ->. exists 0. split; [lia|done].
      * destruct (Hearlier j a) as (n' & Hn & Hl); [lia|done|done|]. exists (S n'). split; [lia|done].
  - intros (i & Hi & Hearlier)%IH. exists (S i). split; [done|].
    intros [|j] a Hj Ha HP; cbn in Ha; [by injection Ha as ->|]. apply (Hearlier j a); (done || lia).
Qed.

Lemma enumerate_drop {A} (l : list A) start :
  snd <$> filter (λ im, start ≤ im.1) (enumerate l) = drop start l.
Proof.
  unfold enumerate.
  enough (∀ k, snd <$> filter (λ im : nat * A, start ≤ im.1) (imap (λ i x, (k + i, x)) l) = drop (start - k) l) as E.
  { specialize (E 0). cbn in E. by rewrite Nat.sub_0_r in E. }
  induction l as [|x l IH]; intros k; cbn [imap]; [by rewrite drop_nil|].
  rewrite filter_cons. cbn [fst].
  replace (imap ((λ i y, (k + i, y)) ∘ S) l) with (imap (λ i y, (S k + i, y)) l).
  2:{ apply imap_ext. intros i y _. cbn. f_equal. lia. }
  destruct (decide (start ≤ k + 0)) as [Hle|Hgt].
  - rewrite fmap_cons, IH. replace (start - k) with 0 by lia. replace (start - S k) with 0 by lia. done.
  - rewrite IH. replace (start - k) with (S (start - S k)) by lia. done.
Qed.

Lemma enumerate_snd {A} (l : list A) : snd <$> enumerate l = l.
Proof. apply list_eq. intros i. unfold enumerate. rewrite list_lookup_fmap, list_lookup_imap. by destruct (l !! i). Qed.

Section Default.
Variable casefold : pystr → pystr.
Variable encoded_size : GatewayMessage → Z.

Lemma text_fragment_system id source c critical priority ordinal f :
  system_text_fragment encoded_size id source c critical priority ordinal = Ok f →
  fragment_named f ∧ is_system (fr_message f) = true.
Proof.
  intros H. split; [by eapply text_fragment_named|]. by apply system_text_fragment_Ok in H as [_ ->].
Qed.

Lemma traverse_text_fragments {A} (g : A → result ContextFragment) l fs :
  (∀ a f, g a = Ok f → fragment_named f ∧ is_system (fr_message f) = true) →
  traverse g l = Ok fs → system_fragments fs.
Proof.
  intros Hg. rewrite traverse_Ok. induction 1 as [|a f l fs Hf _ IH]; constructor; [by eapply Hg|done].
Qed.

Lemma system_fragment_system id source c critical priority ordinal fs :
  _system_fragment encoded_size id source c critical priority ordinal = Ok fs → system_fragments fs.
Proof.
  unfold _system_fragment. destruct (is_nil c); intros H; run_inv H; [constructor|].
  constructor; [by eapply text_fragment_system|constructor].
Qed.

Lemma chunked_system c critical priority start prefix label fs :
  _chunked_task_fragment encoded_size c critical priority start prefix label = Ok fs → system_fragments fs.
Proof.
  unfold _chunked_task_fragment. rewrite bind_Ok. intros (chunks & _ & H).
  eapply traverse_text_fragments; [|exact H]. intros [i chunk] f. apply text_fragment_system.
Qed.

Lemma plan_items_system index fragments items fs :
  system_fragments fragments →
  plan_item_fragments casefold encoded_size index fragments items = Ok fs → system_fragments fs.
Proof.
  revert index fragments. induction items as [|item items IH]; intros index fragments Hf H;
    cbn [plan_item_fragments] in H; [by injection H as <-|].
  apply bind_Ok in H as (more & Hm%chunked_system & H). eapply IH; [|exact H]. by apply Forall_app_2.
Qed.

Lemma task_plan_system plan fs :
  _task_plan_fragments casefold encoded_size plan = Ok fs → system_fragments fs.
Proof.
  unfold _task_plan_fragments. destruct (plan_collection plan) as [[name items]|]; [|apply chunked_system].
  cbv zeta. rewrite bind_Ok. intros (hd & Hh & H). apply bind_Ok in H as (fragments & Hf & H).
  assert (system_fragments hd).
  { destruct (is_nil _); [injection Hh as <-; constructor|by eapply chunked_system]. }
  destruct (is_nil fragments); [by eapply chunked_system|]. injection H as <-. by eapply plan_items_system.
Qed.

(** Every contributor but the history one returns system fragments. *)
Definition system_contributors_front : list contributor :=
  [SystemInstructionsContributor encoded_size; ProjectInstructionsContributor encoded_size].
Definition system_contributors_back : list contributor :=
  [ReferencedFilesContributor encoded_size; ActiveTaskPlanContributor casefold encoded_size;
   RecentToolResultsContributor encoded_size; LongTermMemoryContributor encoded_size;
   CurrentGitDiffContributor encoded_size].

Lemma default_contributor_system c request fs :
  c ∈ system_contributors_front ++ system_contributors_back →
  c request = Ok fs → system_fragments fs.
Proof.
  intros Hc. cbn [app system_contributors_front system_contributors_back] in Hc.
  repeat (apply elem_of_cons in Hc as [->|Hc]); [..|by apply elem_of_nil in Hc].
  - apply system_fragment_system.
  - apply system_fragment_system.
  - apply traverse_text_fragments. intros [i x] f. apply text_fragment_system.
  - unfold ActiveTaskPlanContributor. destruct (is_empty_object _); [intros [= <-]; constructor|apply task_plan_system].
  - apply traverse_text_fragments. intros [i x] f. apply text_fragment_system.
  - apply traverse_text_fragments. intros [i x] f. apply text_fragment_system.
  - apply system_fragment_system.
Qed.

Lemma gather_split request acc cs out :
  gather request acc cs = Ok out →
  ∃ parts, Forall2 (λ c fs, c request = Ok fs) cs parts ∧ out = acc ++ mjoin parts.
Proof.
  revert acc. induction cs as [|c cs IH]; intros acc H; cbn [gather] in H.
  - injection H as <-. exists []. split; [constructor|]. by rewrite app_nil_r.
  - apply bind_Ok in H as (values & Hv & H). cbv zeta in H. apply bind_Ok in H as (u & _ & H).
    destruct (IH _ H) as (parts & Hp & ->). exists (values :: parts). split; [by constructor|].
    change (mjoin (values :: parts)) with (values ++ mjoin parts). by rewrite app_assoc.
Qed.

Lemma conversation_app l k : conversation_of (l ++ k) = conversation_of l ++ conversation_of k.
Proof. unfold conversation_of. by rewrite fmap_app, filter_app. Qed.

Lemma critical_app l k : critical_of (l ++ k) = critical_of l ++ critical_of k.
Proof. apply filter_app. Qed.

Lemma system_no_conversation fs : system_fragments fs → conversation_of fs = [].
Proof.
  unfold conversation_of. induction 1 as [|f fs [_ Hf] _ IH]; [done|].
  rewrite fmap_cons, filter_cons_False by congruence. done.
Qed.

Lemma system_critical fs : system_fragments fs → system_fragments (critical_of fs).
Proof. unfold system_fragments. rewrite !Forall_forall. intros H f [_ Hf]%list_elem_of_filter. by apply H. Qed.

(** What the history contributor marks. *)
Lemma history_fragments recent request fs :
  ConversationHistoryContributor encoded_size recent request = Ok fs →
  Forall fragment_named fs ∧ fr_message <$> fs = cbr_conversation request ∧
  conversation_of (critical_of fs) =
    filter (λ m, is_system m = false)
      (drop (_recent_conversation_start (cbr_conversation request) recent) (cbr_conversation request)).
Proof.
  unfold ConversationHistoryContributor. cbv zeta.
  set (start := _recent_conversation_start _ _). set (conv := cbr_conversation request).
  rewrite traverse_Ok, <- (enumerate_drop conv start). intros H.
  enough (Forall fragment_named fs ∧ fr_message <$> fs = snd <$> enumerate conv ∧
    conversation_of (critical_of fs) =
      filter (λ m, is_system m = false) (snd <$> filter (λ im, start ≤ im.1) (enumerate conv))) as (? & E & ?).
  { split_and!; [done| |done]. rewrite E. apply enumerate_snd. }
  induction H as [|[i m] f l fs Hf _ (IHn & IHm & IHc)]; [done|].
  apply make_fragment_Ok in Hf as [Hid Ef]. rewrite !fmap_cons, IHm. cbn [snd].
  split; [constructor; [by eapply identifier_string_idem|done]|]. split; [by rewrite Ef|].
  unfold critical_of, conversation_of in *. rewrite !filter_cons. cbn [fst].
  replace (is_critical f) with ((start <=? i)%nat || is_system m) by (by rewrite Ef).
  destruct (Nat.leb_spec start i) as [Hle|Hgt]; cbn [orb].
  - rewrite decide_True, (decide_True (P := start ≤ i)) by done. rewrite !fmap_cons, !filter_cons, IHc.
    cbn [snd]. by replace (fr_message f) with m by (by rewrite Ef).
  - rewrite (decide_False (P := start ≤ i)) by lia. case_decide as Hs; [|exact IHc].
    rewrite fmap_cons, filter_cons_False; [exact IHc|]. rewrite Ef. cbn. congruence.
Qed.

Lemma default_split :
  default_contributors casefold encoded_size =
    system_contributors_front ++ [ConversationHistoryContributor encoded_size 12] ++ system_contributors_back.
Proof. done. Qed.

Lemma default_contributors_named p request :
  pl_contributors p = default_contributors casefold encoded_size → contributors_named p request.
Proof.
  intros Hp c fs Hc Hfs. rewrite Hp, default_split, !elem_of_app, list_elem_of_singleton in Hc.
  assert (c = ConversationHistoryContributor encoded_size 12 ∨
          c ∈ system_contributors_front ++ system_contributors_back) as [->|Hs]
    by (rewrite elem_of_app; tauto).
  - by apply history_fragments in Hfs as [? _].
  - eapply Forall_impl; [by eapply default_contributor_system|]. naive_solver.
Qed.

Lemma system_parts request cs parts :
  cs ⊆ system_contributors_front ++ system_contributors_back →
  Forall2 (λ c fs, c request = Ok fs) cs parts → system_fragments (mjoin parts).
Proof.
  intros Hcs. induction 1 as [|c fs cs parts Hc _ IH]; [constructor|].
  change (mjoin (fs :: parts)) with (fs ++ mjoin parts). apply Forall_app_2.
  - eapply default_contributor_system; [|exact Hc]. apply Hcs. by left.
  - apply IH. intros c' Hc'. apply Hcs. by right.
Qed.

(** The conversation a default build starts from, and what its critical part keeps. *)
Lemma default_fragments p request fragments :
  pl_contributors p = default_contributors casefold encoded_size →
  collect_fragments encoded_size p request = Ok fragments →
  conversation_of fragments = filter (λ m, is_system m = false) (cbr_conversation request) ∧
  conversation_of (critical_of fragments) =
    filter (λ m, is_system m = false)
      (drop (_recent_conversation_start (cbr_conversation request) 12) (cbr_conversation request)).
Proof.
  intros Hp H. unfold collect_fragments in H. apply bind_Ok in H as (base & Hg & H). cbv zeta in H.
  apply bind_Ok in H as (u & _ & H).
  assert (∃ pre, fragments = pre ++ base ∧ system_fragments pre) as (pre & -> & Hpre).
  { destruct (cbr_previous_summary request) as [[|c previous]|];
      [injection H as <-; exists []; split; [done|constructor]| |injection H as <-; exists []; split; [done|constructor]].
    run_inv H. eexists [_]. split; [done|]. constructor; [by eapply text_fragment_system|constructor]. }
  rewrite Hp, default_split in Hg. apply gather_split in Hg as (parts & Hparts & ->).
  apply Forall2_app_inv_l in Hparts as (front & rest & Hfront & Hrest & ->).
  apply Forall2_app_inv_l in Hrest as (mid & back & Hmid & Hback & ->).
  apply Forall2_cons_inv_l in Hmid as (h & nil & Hh & Hnil & ->). apply Forall2_nil_inv_l in Hnil as ->.
  apply system_parts in Hfront; [|set_solver]. apply system_parts in Hback; [|set_solver].
  apply history_fragments in Hh as (_ & Em & Ec).
  rewrite !join_app. change (mjoin [h]) with (h ++ []). rewrite app_nil_r, app_nil_l.
  rewrite !critical_app, !conversation_app, Ec.
  repeat (rewrite (system_no_conversation pre) || rewrite (system_no_conversation (mjoin _))
    || rewrite (system_no_conversation (critical_of pre)) || rewrite (system_no_conversation (critical_of (mjoin _))));
    try (done || by apply system_critical).
  rewrite !app_nil_l, !app_nil_r. split; [|done]. unfold conversation_of. by rewrite Em.
Qed.
End Default.

(** C30: compaction never orphans a tool result.  Whatever a build with the default
    contributors drops, the conversation it sends is a suffix of the transcript that
    holds at least its twelve most recent messages (system messages apart, which
    are merged), and every tool result in it is preceded by the assistant message
    that proposed the call.  In the transcript each tool result follows the message
    that proposed its call with only tool results in between, as the loop writes it. *)
Theorem build_keeps_tool_calls casefold encoded_size compress p request r :
  pl_contributors p = default_contributors casefold encoded_size →
  summaries_nonempty compress →
  results_follow_calls (cbr_conversation request) →
  build encoded_size compress p request = Ok r →
  (∃ start, start ≤ length (cbr_conversation request) - 12 ∧
     filter (λ m, is_system m = false) (br_messages r)
     = filter (λ m, is_system m = false) (drop start (cbr_conversation request))) ∧
  ∀ i m, br_messages r !! i = Some m → gm_role m = TOOL →
    ∃ j a, j < i ∧ br_messages r !! j = Some a ∧ proposes (gm_tool_call_id m) a = true.
Proof.
  intros Hp Hsum Hwf H.
  destruct (build_shape _ _ _ _ _ (default_contributors_named casefold encoded_size p request Hp) Hsum H)
    as (budget & fragments & retained & _ & Hf & Ha & _ & _ & _ & _ & Hout).
  destruct (default_fragments _ _ _ _ _ Hp Hf) as [Hall Hcrit].
  set (conv := cbr_conversation request) in *.
  assert (∃ start, (start = 0 ∨ start = _recent_conversation_start conv 12) ∧
    conversation_of retained = filter (λ m, is_system m = false) (drop start conv)) as (start & Hstart & Hconv).
  { destruct Hout as [(_ & -> & _)|[_ [[_ ->]|(s & f & _ & -> & Ef)]]].
    - exists 0. split; [by left|]. by rewrite drop_0.
    - eexists. split; [by right|done].
    - exists (_recent_conversation_start conv 12). split; [by right|]. rewrite <- Hcrit.
      unfold conversation_of. rewrite fmap_cons, filter_cons_False; [done|]. by rewrite Ef. }
  destruct (window_closed conv 12 Hwf) as [Hle Hclosed].
  split. { exists start. split; [destruct Hstart as [->| ->]; lia|]. by rewrite (assemble_conversation _ _ Ha). }
  intros i m Hi Hrole. apply assemble_Ok in Ha as (Em & _ & _). rewrite Em, Hconv in Hi |- *.
  apply lookup_app_Some in Hi as [Hi|[Hge Hi]].
  { exfalso. unfold merged_system in Hi. destruct (system_texts retained), i as [|[|i]]; naive_solver. }
  destruct (filter_earlier _ _ _ _ Hi) as (k & Hk & Hearlier). rewrite lookup_drop in Hk.
  assert (∃ j a, start ≤ j ∧ j < start + k ∧ conv !! j = Some a ∧ proposes (gm_tool_call_id m) a = true)
    as (j & a & Hj1 & Hj2 & Hja & Hprop).
  { destruct Hstart as [->| ->].
    - destruct (Hwf _ _ Hk Hrole) as (j & a & ? & ? & ? & _). exists j, a. split_and!; (done || lia).
    - by apply (Hclosed _ m); [lia|..]. }
  destruct (Hearlier (j - start) a) as (n & Hn & Hna).
  - lia.
  - rewrite lookup_drop. by replace (start + (j - start)) with j by lia.
  - unfold proposes in Hprop. apply andb_prop in Hprop as [Hr%bool_decide_eq_true _].
    unfold is_system. rewrite Hr. done.
  - exists (length (merged_system retained) + n), a. split_and!; [lia| |done].
    rewrite lookup_app_r by lia. by replace (length (merged_system retained) + n - length (merged_system retained)) with n by lia.
Qed.

(** ** Compression input and output *)

Lemma str_join_snoc_len sep l x :
  utf8_len (str_join sep (l ++ [x]))
  = (utf8_len (str_join sep l) + (if is_nil l then 0 else utf8_len sep) + utf8_len x)%N.
Proof.
  induction l as [|y l IH].
  { change (str_join sep ([] ++ [x])) with x. change (utf8_len (str_join sep [])) with 0%N. cbn [is_nil]. lia. }
  rewrite <- app_comm_cons, !str_join_cons, !utf8_len_app. cbn [is_nil].
  destruct l as [|z l]; cbn [app is_nil] in *.
  - rewrite utf8_len_app. change (str_join sep [x]) with x. change (utf8_len []) with 0%N. lia.
  - rewrite !utf8_len_app, IH. lia.
Qed.

Lemma select_rendered_size limit selected size fragments :
  utf8_len (str_join (newline ++ newline) selected) = size → (size <= limit)%N →
  (utf8_len (str_join (newline ++ newline) (select_rendered limit selected size fragments)) <= limit)%N.
Proof.
  revert selected size. induction fragments as [|f fragments IH]; intros selected size Hs Hle; cbn [select_rendered].
  - by rewrite Hs.
  - cbv zeta. set (extra := (utf8_len (rendered_fragment f) + _)%N).
    destruct (N.ltb_spec limit (size + extra)); [by apply IH|]. apply IH; [|done].
    rewrite str_join_snoc_len, Hs. unfold extra. destruct (is_nil selected); [lia|].
    change (utf8_len (newline ++ newline)) with 2%N. lia.
Qed.

(** The source handed to the compressor respects its byte limit. *)
Lemma compression_source_bounded fragments limit source :
  _bounded_compression_source fragments limit = Ok source → (utf8_len source <= limit)%N.
Proof.
  unfold _bounded_compression_source. cbv zeta. intros H. run_inv H. apply select_rendered_size; cbn; lia.
Qed.

Lemma read_summary_size limit chunks size terminal events finish chunks' terminal' :
  utf8_len (mjoin chunks) = size → (size <= limit)%N →
  read_summary limit chunks size terminal events finish = Ok (chunks', terminal') →
  (utf8_len (mjoin chunks') <= limit)%N.
Proof.
  revert chunks size terminal. induction events as [|e events IH]; intros chunks size terminal Hs Hle H;
    cbn [read_summary] in H.
  - destruct finish; [|done]. injection H as <- <-. by rewrite Hs.
  - apply bind_Ok in H as ([] & _ & H). destruct e as [delta| | |c]; [|done|done|by eapply IH].
    cbv zeta in H. apply bind_Ok in H as ([] & Hb%ensure_Ok & H). apply N.leb_le in Hb.
    eapply IH; [|exact Hb|exact H]. rewrite join_app, utf8_len_app, Hs. cbn. by rewrite app_nil_r.
Qed.

(** The gateway compressor keeps the promise the pipeline relies on. *)
Lemma gateway_summaries_nonempty redact_text new_id gateway route_name :
  summaries_nonempty (gateway_compress redact_text new_id gateway route_name).
Proof.
  intros q c H. unfold gateway_compress in H. apply bind_Ok in H as (g & _ & H). cbv zeta in H.
  apply bind_Ok in H as ([chunks terminal] & _ & H). run_inv H.
  unfold validate_compression_result in H. run_inv H. bool_hyps.
  match goal with H : is_nil _ = false |- _ => intros E; rewrite E in H; done end.
Qed.
