(* ===== verification/WorkerContextProperties.v ===== *)
(** * Properties of the worker's run context

    A context build settles the compaction request it serves; a tool call whose
    identifier is near its length limit cannot be put into a context. *)

From stdpp Require Import base list sets gmap strings pretty.
From Stdlib Require Import ZArith Lia.
From S2P Require Import Prelude PyBase WorkspaceAccess Domain Tables Contracts RunQueue Transcripts Execution Recovery TaskPlans PyText Gateway ContextPipeline ContextStore MemoryJobs WorkerContext ContextProperties ContextPipelineProperties.

Section Settle.
Variables (casefold redact_text sha256_hex : pystr → pystr) (redact : json → json).
Variable request_size : ContextBuildRequest → Z.
Variable encoded_size : GatewayMessage → Z.
Variable compress : ContextCompressionRequest → result ContextCompressionResult.
Variable auto_id : uuid → pystr → uuid.

(** A build with a summary reports the usage of the compression. *)
Lemma build_summary_usage p request r s :
  build encoded_size compress p request = Ok r → br_summary r = Some s →
  is_some (br_compression_input_tokens r) = true ∧ is_some (br_compression_output_tokens r) = true.
Proof.
  intros H Hs. unfold build in H.
  apply bind_Ok in H as (budget & _ & H). apply bind_Ok in H as (fragments & _ & H).
  apply bind_Ok in H as (all & _ & H). apply bind_Ok in H as (tokens & _ & H). cbv zeta in H.
  destruct ((tokens <=? available_input_tokens budget)%Z && negb (cbr_force_compaction request)).
  { apply validate_build_result_Ok in H as (_ & _ & _ & Es & _). cbn in Es. congruence. }
  apply bind_Ok in H as (ct & _ & H). apply bind_Ok in H as (u & _ & H).
  apply bind_Ok in H as (compression & Hcomp & H). apply bind_Ok in H as ([summary retained] & Hret & H).
  apply bind_Ok in H as (messages & _ & H). apply bind_Ok in H as (estimated & _ & H).
  unfold validate_build_result in H. run_inv H. cbn [br_summary br_compression_input_tokens br_compression_output_tokens] in *.
  subst summary. unfold retain in Hret. cbn [is_some].
  destruct compression as [c|]; [done|]. cbn in Hret. congruence.
Qed.

Lemma compaction_domain_fields row c :
  _compaction_domain row = Ok c →
  comp_status c = cc_status row ∧ comp_summary c = cc_summary row ∧ comp_input_tokens c = cc_input_tokens row.
Proof. unfold _compaction_domain, validate_compaction. intros H. run_inv H. done. Qed.

(** Finishing a request of the tenant leaves the demanded outcome. *)
Lemma finish_outcome d t id oc at_ o row d' :
  compactions d !! id = Some row → cc_tenant_id row = t →
  ContextRepository._finish d t id oc at_ = Ok (o, d') →
  ∃ row', compactions d' !! id = Some row' ∧ cc_status row' = ContextRepository.requested_status oc ∧
    cc_summary row' = ContextRepository.oc_summary oc ∧
    cc_input_tokens row' = ContextRepository.oc_input_tokens oc.
Proof.
  intros Hrow Ht H. destruct o as [c|]; cycle 1.
  { unfold ContextRepository._finish in H. apply commit_Ok in H as [H _].
    rewrite Hrow, bool_decide_true in H by done. cbn [negb] in H. case_match; run_inv H. }
  apply compaction_finish_effect in H as (_ & row' & Hrow' & _ & _ & Hd & Hsame).
  apply compaction_domain_fields in Hd as (E1 & E2 & E3). exists row'.
  unfold ContextRepository.same_outcome in Hsame. bool_hyps. split_and!; [done|congruence..].
Qed.

(** A context build settles the compaction request it serves.  When a pending
    request exists (or is created because the history passed the threshold) and the
    build succeeds, the request is completed with exactly the summary that the
    context carries, or failed when there was nothing to compact; it never stays
    pending. *)
Theorem run_context_settles_compaction b now d lease w recovery latest c d1 row r d' :
  ContextRepository.latest_completed d (lease_tenant_id lease) (lease_session_id lease) = Ok latest →
  pending_compaction auto_id b now d lease latest = Ok (Some c, d1) →
  compactions d1 !! comp_id c = Some row → cc_tenant_id row = lease_tenant_id lease →
  build_run_context casefold request_size redact_text redact sha256_hex encoded_size compress auto_id
    b now d lease w recovery = (Ok r, d') →
  ∃ row', compactions d' !! comp_id c = Some row' ∧
    match br_summary r with
    | Some s => cc_status row' = COMPACTION_COMPLETED ∧ cc_summary row' = Some s ∧
                cc_input_tokens row' = br_compression_input_tokens r
    | None => cc_status row' = COMPACTION_FAILED ∧ cc_summary row' = None
    end.
Proof.
  intros Hlatest Hpending Hrow Ht H. unfold build_run_context in H. rewrite Hlatest in H.
  cbn [mbind result_bind] in H. rewrite Hpending in H. cbn [mbind result_bind] in H.
  match type of H with match ?p with Ok _ => _ | Err _ => _ end = _ => destruct p as [request|]; [|done] end.
  destruct (build encoded_size compress (dcb_pipeline b) request) as [r0|] eqn:Hb; cycle 1.
  { match type of H with match ?p with Ok _ => _ | Err _ => _ end = _ => destruct p as [[]|]; done end. }
  destruct (settle_compaction now d1 lease c r0) as [d2|] eqn:Hs; [|done]. injection H as -> ->.
  unfold settle_compaction in Hs. destruct (br_summary r) as [s|] eqn:Es; cycle 1.
  { run_inv Hs. match goal with H : ContextRepository.fail _ _ _ _ _ = Ok _ |- _ =>
      eapply finish_outcome in H as (row' & ? & ? & ? & ?); [|done|done] end. by exists row'. }
  destruct (build_summary_usage _ _ _ _ Hb Es) as [Hi Ho].
  destruct (br_compression_input_tokens r) as [i|]; [|done].
  destruct (br_compression_output_tokens r) as [o|]; [|done]. run_inv Hs.
  match goal with H : ContextRepository.complete _ _ _ _ _ _ _ = Ok _ |- _ =>
    eapply finish_outcome in H as (row' & ? & ? & ? & ?); [|done|done] end. by exists row'.
Qed.
End Settle.

(** ** Long tool-call identifiers *)

Lemma strip_prefixed (prefix id : pystr) :
  prefix ≠ [] → (∀ c t, prefix = c :: t → is_white_space c = false) →
  strip_by is_white_space id = id → id ≠ [] →
  strip_by is_white_space (prefix ++ id) = prefix ++ id.
Proof.
  intros Hp Hhead Hid Hne. unfold strip_by.
  rewrite (drop_while_fix _ (prefix ++ id)); cycle 1.
  { intros c t E. destruct prefix as [|c' prefix]; [done|]. injection E as <- _. by eapply Hhead. }
  rewrite drop_while_fix; [apply rev_involutive|]. intros c t E. rewrite rev_app_distr in E.
  destruct (rev id) as [|c' u] eqn:Er.
  { apply (f_equal (@rev N)) in Er. rewrite rev_involutive in Er. done. }
  injection E as <- _. apply (strip_last is_white_space id c' u). by rewrite Hid.
Qed.

(** A tool call with an identifier of more than 243 characters, which every
    durable model accepts (the limit is 255), can never be part of a context: the
    fragment it would become is named by the identifier with a twelve-character
    prefix and breaks the limit, so that every context build of the run fails. *)
Theorem long_tool_call_id_breaks_context casefold encoded_size compress p request t r :
  pl_contributors p = default_contributors casefold encoded_size →
  t ∈ cbr_recent_tool_results request →
  validate_context_tool_result t = Ok t →
  243 < length (ctr_tool_call_id t) →
  build encoded_size compress p request ≠ Ok r.
Proof.
  intros Hp Hin Hv Hlong H. unfold build in H. apply bind_Ok in H as (budget & _ & H).
  apply bind_Ok in H as (fragments & Hf & _). unfold collect_fragments in Hf.
  apply bind_Ok in Hf as (base & Hg & _). rewrite Hp in Hg. apply gather_split in Hg as (parts & Hparts & _).
  destruct (Forall2_elem_of_l _ _ _ (RecentToolResultsContributor encoded_size) Hparts) as (fs & _ & Hfs).
  { unfold default_contributors. do 5 right. left. }
  unfold RecentToolResultsContributor in Hfs. apply traverse_Ok in Hfs.
  apply list_elem_of_lookup in Hin as [i Hi].
  destruct (Forall2_elem_of_l _ _ _ (i, t) Hfs) as (f & _ & Hfrag).
  { apply list_elem_of_lookup. exists i. unfold enumerate. by rewrite list_lookup_imap, Hi. }
  apply system_text_fragment_Ok in Hfrag as [Hid _]. apply identifier_string_Ok in Hid as [Eid Hlen].
  unfold validate_context_tool_result in Hv. apply bind_Ok in Hv as (id & Hid & Hv). run_inv Hv.
  assert (id = ctr_tool_call_id t) as -> by (match goal with H : _ = t |- _ => by rewrite <- H end).
  apply identifier_string_Ok in Hid as [Hstrip _].
  rewrite strip_prefixed in Eid; [|done| |by symmetry|].
  - rewrite Eid, length_app in Hlen. change (length (py "tool-result-")) with 12 in Hlen. lia.
  - intros c u [= <- _]. done.
  - intros E. rewrite E in Hlong. cbn in Hlong. lia.
Qed.
