(* ===== verification/ExecutorProperties.v ===== *)
(** * Properties of the run executor

    The result of an attempt is determined by its events; a completion event leaves
    its outcome in the database; and two completions the executor can never store. *)

From stdpp Require Import base list sets gmap strings pretty.
From Stdlib Require Import ZArith Lia.
From S2P Require Import Prelude PyBase Domain Tables Contracts RunQueue Approvals Transcripts Execution Recovery TaskPlans PyText Gateway AgentEvents Executor MessageCodecs ExecutionProperties.

(** ** Durable outcomes *)

Section ExecutorProperties.
Variable digest : json → pystr.

Lemma validate_tool_call_fields c c' :
  validate_tool_call digest c = Ok c' →
  call_run_id c' = call_run_id c ∧ call_execution_epoch c' = call_execution_epoch c ∧
  call_turn_number c' = call_turn_number c ∧ call_status c' = call_status c ∧
  call_result c' = call_result c ∧ call_started_at c' = call_started_at c ∧
  identifier_string (call_id c) = Ok (call_id c') ∧ validate_execution digest c' = Ok tt.
Proof.
  unfold validate_tool_call. intros H. run_inv H.
  match goal with H : validate_execution _ _ = Ok ?u |- _ => destruct u end. done.
Qed.

(** Saving a terminal call leaves a row with that outcome. *)
Lemma save_terminal_outcome now d lease c c' d' :
  is_terminal_tool_status (call_status c) = true →
  save_tool_call_fenced digest now d lease c = Ok (c', d') →
  ∃ row, tool_calls d' !! tool_call_key (lease_tenant_id lease) c = Some row ∧
    tc_status row = call_status c ∧ tc_result row = call_result c.
Proof.
  intros Hterm H. unfold save_tool_call_fenced in H. apply bind_Ok in H as (u & _ & H).
  apply commit_Ok in H as [H _]. apply bind_Ok in H as (v & _ & H). unfold _save_tool_call in H. cbv zeta in H.
  destruct (tool_calls d !! tool_call_key (lease_tenant_id lease) c) as [row|] eqn:Hrow; cycle 1.
  { injection H as <- <-. eexists. unfold put_tool_call. simpl. by rewrite lookup_insert_eq. }
  match type of H with (if ?b then _ else _) = _ => destruct b; [done|] end.
  destruct (_tool_call_row_matches row c) eqn:Hm.
  { run_inv H. exists row. split; [done|]. unfold _tool_call_row_matches in Hm. by bool_hyps. }
  destruct (bool_decide (call_status c ∈ _tool_call_predecessors (tc_status row))) eqn:Hp.
  { exfalso. apply bool_decide_eq_true in Hp. destruct (call_status c), (tc_status row); try done;
      cbn in Hp; set_solver. }
  match type of H with (if ?b then _ else _) = _ => destruct b; [|done] end.
  injection H as <- <-. eexists. unfold put_tool_call. simpl. by rewrite lookup_insert_eq.
Qed.

(** ** Events of an attempt *)

Context {E : Type}.
Variable append_event : timestamp → Db → E → RunLease → pystr → AgentEvent → result E.

Lemma observe_event_persists has now lease (s : attempt_state) e s' fin :
  observe_event digest append_event has now lease s e = Ok (s', fin) →
  _persist_tool_state digest has now (at_db s) lease e (at_observed s)
    (match ev_payload e with ModelRequestStarted _ _ _ => (at_turn_number s + 1)%Z | _ => at_turn_number s end)
  = Ok (at_observed s', at_db s').
Proof.
  unfold observe_event. cbv zeta. intros H. apply bind_Ok in H as ([observed d] & Hp & H).
  apply bind_Ok in H as (events & _ & H). rewrite Hp.
  destruct (ev_payload e); run_inv H; done.
Qed.

(** An outcome is durable before it is reported.  When the executor has
    processed a completion event of a call it observes, the tool-call row of the
    leased execution holds exactly the status and result of the event. *)
Theorem reported_outcome_durable has now lease (s s' : attempt_state) e id status result_ error_ item fin :
  ev_payload e = ToolCompleted id status result_ error_ →
  is_terminal_tool_status status = true →
  at_observed s !! id = Some item →
  observe_event digest append_event has now lease s e = Ok (s', fin) →
  ∃ row cid, identifier_string (call_id item) = Ok cid ∧
    tool_calls (at_db s') !! (lease_tenant_id lease, call_run_id item, call_execution_epoch item, cid) = Some row ∧
    tc_status row = status ∧ tc_result row = result_.
Proof.
  intros Hp Hterm Hitem H. apply observe_event_persists in H. unfold _persist_tool_state in H. rewrite Hp in H.
  unfold _persist_completed in H. rewrite Hitem in H. apply bind_Ok in H as (call & Hc & H).
  apply bind_Ok in H as ([durable d] & Hs & [= _ <-]).
  apply validate_tool_call_fields in Hc as (Er & Ee & _ & Est & Eres & _ & Hid & _). cbn in *.
  apply save_terminal_outcome in Hs as (row & Hrow & Hst & Hres); [|by rewrite Est].
  exists row, (call_id call). unfold tool_call_key in Hrow. rewrite Er, Ee in Hrow.
  split_and!; [done|done|congruence..].
Qed.

(** A tool call of a later turn cannot be resumed.  After an approval the loop
    announces the pending calls again before its first model request, when the
    executor's turn counter is still zero and recorded as turn one; the stored call
    carries its real turn, and for every turn but the first the save is refused, so
    that no attempt can ever get past the announcement. *)
Theorem later_turn_call_not_resumable has now lease (s : attempt_state) e model id name arguments hash row s' fin :
  ev_payload e = ModelToolCallReceived model id name (Some arguments) (Some hash) None →
  at_turn_number s = 0%Z →
  identifier_string id = Ok id →
  tool_calls (at_db s) !! (lease_tenant_id lease, lease_run_id lease, lease_execution_epoch lease, id) = Some row →
  (2 <= tc_turn_number row)%Z →
  observe_event digest append_event has now lease s e ≠ Ok (s', fin).
Proof.
  intros Hp Ht Hid Hrow Hturn H. apply observe_event_persists in H. unfold _persist_tool_state in H.
  rewrite Hp, Ht in H. unfold _persist_received in H. apply bind_Ok in H as (call & Hc & H).
  apply bind_Ok in H as ([durable d] & Hs & _).
  apply validate_tool_call_fields in Hc as (Er & Ee & Eturn & _ & _ & _ & Hcid & _). cbn in *.
  assert (call_id call = id) as Eid by congruence. assert (call_turn_number call = 1%Z) as E1 by (by rewrite Eturn).
  unfold save_tool_call_fenced in Hs. apply bind_Ok in Hs as (u & _ & Hs). apply commit_Ok in Hs as [Hs _].
  apply bind_Ok in Hs as (v & _ & Hs). unfold _save_tool_call, tool_call_key in Hs. cbv zeta in Hs.
  rewrite Er, Ee, Eid, Hrow, E1 in Hs.
  rewrite (proj2 (Z.eqb_neq (tc_turn_number row) 1)), andb_false_r, andb_false_l in Hs by lia. done.
Qed.

(** An answered user interaction cannot be stored.  The loop completes an
    interaction without a start event, so the observed call has no start time; the
    call model refuses a completed call without one, and the attempt raises. *)
Theorem interaction_completion_refused has now lease (s : attempt_state) e id result_ error_ item s' fin :
  ev_payload e = ToolCompleted id TOOL_COMPLETED result_ error_ →
  at_observed s !! id = Some item → call_started_at item = None →
  observe_event digest append_event has now lease s e ≠ Ok (s', fin).
Proof.
  intros Hp Hitem Hstart H. apply observe_event_persists in H. unfold _persist_tool_state in H. rewrite Hp in H.
  unfold _persist_completed in H. rewrite Hitem in H. apply bind_Ok in H as (call & Hc & _).
  apply validate_tool_call_fields in Hc as (_ & _ & _ & Est & _ & Es & _ & Hv). cbn in *.
  unfold validate_execution in Hv. rewrite Est, Es, Hstart in Hv. run_inv Hv. done.
Qed.
End ExecutorProperties.
