(* ===== verification/RedactionProperties.v ===== *)
(** * Properties of redaction

    The streaming redactor loses no text and never releases a boundary inside a
    configured secret, however the text is cut into fragments. *)

From stdpp Require Import base list sets gmap strings sorting.
From Stdlib Require Import ZArith Lia.
From S2P Require Import Prelude PyBase Domain Tables Contracts Transcripts Execution Recovery TaskPlans PyText Redaction.

(** ** Searching *)

Definition occurs (needle hay : pystr) (pos : nat) : Prop := starts_with needle (drop pos hay) = true.

Lemma starts_with_app needle hay more : starts_with needle hay = true → starts_with needle (hay ++ more) = true.
Proof.
  revert hay. induction needle as [|a needle IH]; intros [|b hay]; cbn; [done..|].
  rewrite !andb_true_iff. intros [? ?]. split; [done|]. by apply IH.
Qed.
Lemma starts_with_length needle hay : starts_with needle hay = true → length needle ≤ length hay.
Proof.
  revert hay. induction needle as [|a needle IH]; intros [|b hay]; cbn; [lia|lia|done|].
  rewrite andb_true_iff. intros [_ H%IH]. lia.
Qed.
Lemma starts_with_within needle hay more :
  starts_with needle (hay ++ more) = true → length needle ≤ length hay → starts_with needle hay = true.
Proof.
  revert hay. induction needle as [|a needle IH]; intros [|b hay]; cbn; [done|done|lia|].
  rewrite !andb_true_iff. intros [? H] Hl. split; [done|]. apply IH; [done|lia].
Qed.
Lemma occurs_length needle hay pos : occurs needle hay pos → needle ≠ [] → pos + length needle ≤ length hay.
Proof.
  intros H%starts_with_length Hn. rewrite length_drop in H. destruct needle; [done|]. cbn [length] in *. lia.
Qed.

Lemma find_from_spec needle hay pos :
  needle ≠ [] →
  match find_from needle hay pos with
  | Some p => ∃ k, p = pos + k ∧ occurs needle hay k ∧ ∀ j, j < k → ¬ occurs needle hay j
  | None => ∀ j, ¬ occurs needle hay j
  end.
Proof.
  intros Hn. revert pos. induction hay as [|c hay IH]; intros pos; cbn [find_from].
  - destruct needle as [|a needle]; [done|]. cbn [starts_with]. intros j. unfold occurs. by rewrite drop_nil.
  - destruct (starts_with needle (c :: hay)) eqn:E.
    + exists 0. split_and!; [lia|exact E|lia].
    + specialize (IH (S pos)). destruct (find_from needle hay (S pos)) as [p|].
      * destruct IH as (k & -> & Hk & Hmin). exists (S k). split_and!; [lia|exact Hk|].
        intros [|j] Hj; [unfold occurs; cbn [drop]; congruence|]. apply Hmin. lia.
      * intros [|j]; [unfold occurs; cbn [drop]; congruence|]. apply IH.
Qed.
Lemma find_spec needle hay start :
  needle ≠ [] →
  match find needle hay start with
  | Some p => start ≤ p ∧ occurs needle hay p ∧ ∀ j, start ≤ j < p → ¬ occurs needle hay j
  | None => ∀ j, start ≤ j → ¬ occurs needle hay j
  end.
Proof.
  intros Hn. unfold find. pose proof (find_from_spec needle (drop start hay) start Hn) as H.
  assert (∀ j, occurs needle (drop start hay) j ↔ occurs needle hay (start + j)) as Hd.
  { intros j. unfold occurs. by rewrite drop_drop. }
  destruct (find_from _ _ _) as [p|].
  - destruct H as (k & -> & Hk & Hmin). split_and!; [lia|by apply Hd|]. intros j Hj Ho. apply (Hmin (j - start)); [lia|].
    apply Hd. by replace (start + (j - start)) with j by lia.
  - intros j Hj Ho. apply (H (j - start)), Hd. by replace (start + (j - start)) with j by lia.
Qed.

(** ** The boundary *)

Section Boundary.
Variable is_word : N → bool.
Variable known_secrets : list pystr.
Hypothesis secrets_nonempty : Forall (λ s, s ≠ []) known_secrets.

Lemma cross_loop_ok fuel value secret boundary start :
  secret ≠ [] → length value < fuel + start →
  cross_loop fuel value secret boundary (find secret value start) ≤ boundary ∧
  (cross_loop fuel value secret boundary (find secret value start) = boundary →
   ∀ pos, start ≤ pos → occurs secret value pos → pos < boundary → pos + length secret ≤ boundary).
Proof.
  intros Hs. revert start. induction fuel as [|fuel IH]; intros start Hfuel.
  { cbn [cross_loop]. split; [done|]. intros _ pos Hp Ho. apply occurs_length in Ho; [|done]. lia. }
  pose proof (find_spec secret value start Hs) as Hf. cbn [cross_loop]. destruct (find secret value start) as [p|].
  - destruct Hf as (Hp & Hocc & Hmin). destruct (Nat.ltb_spec p boundary) as [Hlt|Hge].
    + destruct (Nat.ltb_spec boundary (p + length secret)).
      * split; [lia|]. lia.
      * destruct (IH (S p)) as [H1 H2]; [lia|]. split; [done|]. intros E pos Hpos Ho Hb.
        destruct (Nat.lt_trichotomy pos p) as [?|[->|?]]; [|lia|by apply H2].
        exfalso. eapply (Hmin pos); [lia|done].
    + split; [done|]. intros _ pos Hpos Ho Hb. exfalso. eapply (Hmin pos); [lia|done].
  - split; [done|]. intros _ pos Hpos Ho. exfalso. by eapply Hf.
Qed.

Lemma cross_secret_ok value secret boundary :
  secret ≠ [] →
  cross_secret value secret boundary ≤ boundary ∧
  (cross_secret value secret boundary = boundary →
   ∀ pos, occurs secret value pos → pos < boundary → pos + length secret ≤ boundary).
Proof.
  intros Hs. unfold cross_secret.
  destruct (cross_loop_ok (S (length value)) value secret boundary (boundary + 1 - length secret) Hs) as [H1 H2]; [lia|].
  split; [done|]. intros E pos Ho Hb. destruct (Nat.le_gt_cases (boundary + 1 - length secret) pos); [by apply H2|lia].
Qed.

Lemma cross_matches_le boundary spans : cross_matches boundary spans ≤ boundary.
Proof.
  induction spans as [|[a b] spans IH]; cbn [cross_matches]; [done|].
  destruct (Nat.ltb_spec a boundary), (boundary <? b)%nat; cbn [andb]; lia.
Qed.

(** A fold of steps that never raise the boundary *)
Lemma fold_lowers {A} (step : nat → A → nat) l b :
  (∀ b a, a ∈ l → step b a ≤ b) → foldl step b l ≤ b ∧ (foldl step b l = b → ∀ a, a ∈ l → step b a = b).
Proof.
  revert b. induction l as [|a l IH]; intros b Hstep; cbn [foldl]; [split; [done|by intros _ a ?%elem_of_nil]|].
  pose proof (Hstep b a (list_elem_of_here a l)) as Ha.
  destruct (IH (step b a)) as [H1 H2]; [intros; apply Hstep; by right|]. split; [lia|]. intros E.
  assert (step b a = b) as Eb by lia. rewrite Eb in H2, E. intros x [->|Hx]%elem_of_cons; [done|]. by apply H2.
Qed.

Lemma cross_round_ok value boundary :
  cross_round is_word known_secrets value boundary ≤ boundary ∧
  (cross_round is_word known_secrets value boundary = boundary →
   ∀ secret pos, secret ∈ known_secrets → occurs secret value pos → pos < boundary → pos + length secret ≤ boundary).
Proof.
  unfold cross_round. rewrite Forall_forall in secrets_nonempty.
  destruct (fold_lowers (λ b secret, cross_secret value secret b) known_secrets boundary) as [H1 H2].
  { intros b secret Hin. by apply cross_secret_ok, secrets_nonempty. }
  set (b1 := foldl _ boundary known_secrets) in *.
  destruct (fold_lowers (λ b p, cross_matches b (finditer is_word (pat_pieces p) value)) _BUILTIN_PATTERNS b1) as [H3 _].
  { intros b p _. apply cross_matches_le. }
  split; [lia|]. intros E secret pos Hin. apply cross_secret_ok; [by apply secrets_nonempty|]. apply H2; [lia|done].
Qed.

Lemma avoid_split_ok fuel value boundary :
  let b := avoid_split is_word known_secrets fuel value boundary in
  b ≤ boundary ∧
  ∀ secret pos, secret ∈ known_secrets → occurs secret value pos → pos < b → pos + length secret ≤ b.
Proof.
  revert boundary. induction fuel as [|fuel IH]; intros boundary; cbn [avoid_split]; [split; lia|].
  destruct (Nat.eqb_spec boundary 0); [split; lia|]. destruct (cross_round_ok value boundary) as [H1 H2].
  destruct (Nat.eqb_spec (cross_round is_word known_secrets value boundary) boundary) as [E|Hne].
  - split; [done|]. by apply H2.
  - destruct (IH (cross_round is_word known_secrets value boundary)) as [H3 H4]. split; [lia|done].
Qed.

(** The loop of the code runs until the boundary is stable; one unit of fuel per
    position is enough. *)
Lemma avoid_split_stable fuel value boundary :
  boundary < fuel →
  let b := avoid_split is_word known_secrets fuel value boundary in
  b = 0 ∨ cross_round is_word known_secrets value b = b.
Proof.
  revert boundary. induction fuel as [|fuel IH]; intros boundary Hf; [lia|]. cbn [avoid_split].
  destruct (Nat.eqb_spec boundary 0); [by left|]. destruct (cross_round_ok value boundary) as [H1 _].
  destruct (Nat.eqb_spec (cross_round is_word known_secrets value boundary) boundary) as [E|Hne]; [by right|].
  apply IH. lia.
Qed.

Lemma literal_overlap_le secret : secret ∈ known_secrets → length secret - 1 ≤ literal_overlap known_secrets.
Proof.
  unfold literal_overlap. clear secrets_nonempty. induction known_secrets as [|s l IH]; [by intros ?%elem_of_nil|].
  cbn [foldr]. intros [->|H%IH]%elem_of_cons; lia.
Qed.

(** ** The stream *)

(** What the consumer of a stream gets: the release of every fragment, and the rest. *)
Fixpoint redact_stream (s : StreamingRedactor) (values : list pystr) : result (list pystr) :=
  match values with
  | [] => '(_, text) ← finish is_word known_secrets s; Ok [text]
  | v :: rest =>
      '(s', text) ← feed is_word known_secrets s v;
      more ← redact_stream s' rest;
      Ok (text :: more)
  end.

Lemma redact_text_nil : redact_text is_word known_secrets [] = [].
Proof.
  unfold redact_text. assert (foldl (λ redacted secret, replace secret _REDACTED redacted) [] known_secrets = []) as ->.
  { clear. by induction known_secrets. }
  reflexivity.
Qed.

(** A secret that occurs in the text lies within one of the pieces. *)
Definition within_piece (pieces : list pystr) (pos len : nat) : Prop :=
  ∃ before piece after, pieces = before ++ piece :: after ∧ length (mjoin before) ≤ pos ∧
    pos + len ≤ length (mjoin before) + length piece.

Lemma redact_stream_ok values s :
  str_finished s = false →
  ∃ pieces, redact_stream s values = Ok (redact_text is_word known_secrets <$> pieces) ∧
    mjoin pieces = str_pending s ++ mjoin values ∧
    ∀ secret pos, secret ∈ known_secrets → occurs secret (str_pending s ++ mjoin values) pos →
      within_piece pieces pos (length secret).
Proof.
  revert s. induction values as [|v values IH]; intros [pending fin] Hfin; cbn [str_finished str_pending] in *; subst fin;
    cbn [redact_stream].
  - exists [pending]. unfold finish. cbn [str_finished str_pending]. split_and!; [done|done|].
    intros secret pos Hin Ho. exists [], pending, []. split_and!; [done|cbn; lia|]. cbn.
    apply occurs_length in Ho; [|rewrite Forall_forall in secrets_nonempty; by apply secrets_nonempty].
    by rewrite app_nil_r in Ho.
  - assert (∃ b, feed_raw is_word known_secrets (mkStreaming pending false) v
        = Ok (mkStreaming (drop b (pending ++ v)) false, take b (pending ++ v)) ∧
        ∀ secret pos, secret ∈ known_secrets → occurs secret ((pending ++ v) ++ mjoin values) pos → pos < b →
          pos + length secret ≤ b ∧ b ≤ length (pending ++ v)) as (b & Hraw & Hsafe).
    { unfold feed_raw. cbn [str_finished str_pending]. destruct v as [|c v]; cbn [is_nil].
      { exists 0. rewrite app_nil_r. split; [done|lia]. }
      destruct (negb (existsb py_isspace (c :: v))).
      { exists 0. split; [done|lia]. }
      set (all := pending ++ c :: v). set (limit := Nat.min _ _).
      pose proof (avoid_split_ok (S limit) all limit) as [Hle Hcross].
      fold (_avoid_redaction_match_split is_word known_secrets all limit) in Hle, Hcross.
      exists (_avoid_redaction_match_split is_word known_secrets all limit). split; [done|].
      set (b := _avoid_redaction_match_split is_word known_secrets all limit) in *.
      intros secret pos Hin Ho Hb. assert (limit ≤ length all - literal_overlap known_secrets) as Hl by (unfold limit; lia).
      pose proof (literal_overlap_le secret Hin). rewrite Forall_forall in secrets_nonempty.
      pose proof (secrets_nonempty secret Hin) as Hne. assert (1 ≤ length secret) by (destruct secret; [done|cbn; lia]).
      split; [|lia]. destruct (Nat.le_gt_cases (pos + length secret) (length all)); [|lia].
      apply Hcross; [done| |done]. unfold occurs in *. rewrite drop_app_le in Ho by lia.
      eapply starts_with_within; [exact Ho|]. rewrite length_drop. lia. }
    unfold feed. rewrite Hraw. cbn [mbind result_bind].
    destruct (IH (mkStreaming (drop b (pending ++ v)) false) eq_refl) as (pieces & Hs & Hj & Hin). cbn [str_pending] in *.
    rewrite Hs. cbn [mbind result_bind]. exists (take b (pending ++ v) :: pieces).
    assert (pending ++ mjoin (v :: values) = take b (pending ++ v) ++ drop b (pending ++ v) ++ mjoin values) as Etext.
    { change (mjoin (v :: values)) with (v ++ mjoin values). by rewrite !app_assoc, take_drop. }
    split_and!.
    + rewrite fmap_cons. destruct (take b (pending ++ v)) eqn:Et; cbn [is_nil]; [by rewrite redact_text_nil|done].
    + change (take b (pending ++ v) ++ mjoin pieces = pending ++ mjoin (v :: values)). by rewrite Hj, Etext.
    + intros secret pos Hk Ho. set (a := take b (pending ++ v)) in *.
      destruct (Nat.le_gt_cases (length a) pos) as [Hge|Hlt].
      * destruct (Hin secret (pos - length a) Hk) as (before & piece & after & -> & H1 & H2).
        { rewrite Etext in Ho. unfold occurs in *. rewrite drop_app_ge in Ho by lia. exact Ho. }
        exists (a :: before), piece, after. split_and!; [done| |];
          change (mjoin (a :: before)) with (a ++ mjoin before); rewrite length_app; lia.
      * exists [], a, pieces. split_and!; [done|cbn; lia|]. cbn [mjoin length Nat.add].
        assert (pos < b) as Hb by (unfold a in Hlt; rewrite length_take in Hlt; lia).
        destruct (Hsafe secret pos Hk) as [H1 H2]; [by rewrite <- app_assoc|done|]. unfold a. rewrite length_take. cbn. lia.
Qed.
End Boundary.

(** C26: streaming redaction: however a text is cut into fragments, the stream releases the redaction of pieces that
    together are the text, and every occurrence of a configured secret lies within one piece: no
    secret escapes by being split across two releases. *)
Theorem stream_splits_no_secret is_word known values :
  let secrets := make_secrets known in
  ∃ pieces, redact_stream is_word secrets (mkStreaming [] false) values = Ok (redact_text is_word secrets <$> pieces) ∧
    mjoin pieces = mjoin values ∧
    ∀ secret pos, secret ∈ secrets → occurs secret (mjoin values) pos → within_piece pieces pos (length secret).
Proof.
  intros secrets. apply (redact_stream_ok is_word secrets); [|done]. apply Forall_forall. intros secret Hin ->.
  unfold secrets, make_secrets in Hin. rewrite merge_sort_Permutation, elem_of_remove_dups, list_elem_of_filter in Hin.
  unfold _MIN_SECRET_LENGTH in Hin. cbn in Hin. lia.
Qed.
