(* ===== verification/ToolTurnProperties.v ===== *)
(** * Properties of tool turns

    A turn that is refused or waits for approval runs nothing; a replayed call never
    runs again; a side-effecting call that fails leaves the workspace as its
    checkpoint found it; output stays within its byte limit; and the transcript gets
    one answer per call. *)

From stdpp Require Import base list sets gmap strings.
From Stdlib Require Import ZArith Lia.
From S2P Require Import Prelude PyBase Domain Tables Contracts Transcripts Execution Recovery TaskPlans PyText Gateway AgentEvents PyEffects ToolTurn MessageCodecs.

(** ** Output *)

Definition output_size (output : list BufferedOutput) : N :=
  foldr (λ b n, (utf8_len (bo_chunk b) + n)%N) 0%N output.

Lemma output_size_app l k : output_size (l ++ k) = (output_size l + output_size k)%N.
Proof.
  unfold output_size. induction l as [|b l IH]; cbn [app foldr]; [lia|]. rewrite IH. lia.
Qed.
Lemma output_size_one b : output_size [b] = utf8_len (bo_chunk b).
Proof. unfold output_size. cbn [foldr]. lia. Qed.

Lemma truncate_last_size output : output_size (truncate_last output) = output_size output.
Proof.
  unfold truncate_last. destruct (rev output) as [|b before] eqn:E.
  - apply (f_equal (@rev _)) in E. rewrite rev_involutive in E. by subst.
  - apply (f_equal (@rev _)) in E. rewrite rev_involutive in E. subst. cbn [rev]. by rewrite !output_size_app, !output_size_one.
Qed.

Lemma utf8_fit_len k s : (utf8_len (utf8_fit k s) <= N.of_nat k)%N.
Proof. rewrite <- length_encode. pose proof (utf8_fit_size k s). lia. Qed.

Lemma append_bounded_size output stderr chunk remaining output' remaining' overflow :
  _append_bounded_output output stderr chunk remaining = (output', remaining', overflow) →
  (output_size output' + remaining' <= output_size output + remaining)%N.
Proof.
  unfold _append_bounded_output. destruct (N.leb_spec (utf8_len chunk) remaining).
  - intros [= <- <- <-]. rewrite output_size_app, output_size_one. cbn [bo_chunk]. lia.
  - intros [= <- <- <-]. pose proof (utf8_fit_len (N.to_nat remaining) chunk) as Hl.
    rewrite N2Nat.id in Hl. unfold utf8_byte_prefix. destruct (is_nil _).
    + rewrite truncate_last_size. lia.
    + rewrite output_size_app, output_size_one. cbn [bo_chunk]. lia.
Qed.

(** Whatever a tool prints and however redaction lengthens it, the output of
    one call that is reported stays within the configured number of bytes. *)
Theorem reported_output_bounded redact_text output limit :
  (output_size (_coalesce_and_redact_output redact_text output limit) <= limit)%N.
Proof.
  unfold _coalesce_and_redact_output.
  enough (∀ items bounded remaining,
    (output_size (bound_redacted redact_text bounded remaining items) <= output_size bounded + remaining)%N) as H.
  { specialize (H (coalesce [] output) [] limit). rewrite N.add_0_l in H. exact H. }
  induction items as [|item items IH]; intros bounded remaining; cbn [bound_redacted]; [lia|].
  destruct (_append_bounded_output _ _ _ _) as [[bounded' remaining'] overflow] eqn:E.
  apply append_bounded_size in E.
  assert (output_size (if bo_truncated item then truncate_last bounded' else bounded') = output_size bounded') as Ht
    by (destruct (bo_truncated item); [apply truncate_last_size|done]).
  destruct overflow; [lia|]. etrans; [apply IH|]. lia.
Qed.

(** ** What a turn leaves of the world *)

(** [eff_inv H] inverts [H : m s = (Ret _, _)] through the binds of [m]. *)
Ltac eff_inv H :=
  cbv beta zeta in H;
  lazymatch type of H with
  | (_ ≫= _) _ = (Ret _, _) =>
      let a := fresh "a" in let s := fresh "s" in let H1 := fresh "Hm" in
      apply eff_bind_Ret in H as (a & s & H1 & H); eff_inv H1; eff_inv H
  | mret _ _ = (Ret _, _) => injection H as H; subst
  | (Ret _, _) = (Ret _, _) => injection H as H; subst
  | (Raise _, _) = (Ret _, _) => discriminate H
  | raise _ _ = (Ret _, _) => discriminate H
  | gets _ _ = (Ret _, _) => unfold gets in H; injection H as H; subst
  | _ => idtac
  end.

Section World.
Context {W : Type}.
Variable env : ToolEnvironment W.
Variable config : AgentLoopConfig.
Variable redact_text : pystr → pystr.
Variable redact : json → json.
Variable error_size : ErrorDetail → Z.
Variable digest : json → pystr.
Variable payload_size : AgentPayload → Z.
Variable uuid_text : uuid → pystr.

(** The part of the world that tools change. *)
Context {Workspace : Type}.
Variable workspace : W → Workspace.

Definition keeps (s s' : TurnState W) : Prop := workspace (ts_world s') = workspace (ts_world s).

Lemma keeps_refl s : keeps s s.
Proof. done. Qed.
Lemma keeps_trans s1 s2 s3 : keeps s1 s2 → keeps s2 s3 → keeps s1 s3.
Proof. unfold keeps. congruence. Qed.

(** A computation that leaves the workspace alone on every path. *)
Definition quiet {A} (m : eff (TurnState W) A) : Prop := ∀ s, keeps s (m s).2.

Lemma quiet_bind {A B} (m : eff (TurnState W) A) (f : A → eff (TurnState W) B) :
  quiet m → (∀ a, quiet (f a)) → quiet (m ≫= f).
Proof.
  intros Hm Hf s. apply (eff_bind_preserves keeps); [apply keeps_trans|apply Hm|]. intros a s1 _. apply Hf.
Qed.
Lemma quiet_ret {A} (a : A) : quiet (mret a).
Proof. intros s. done. Qed.
Lemma quiet_gets {A} (f : TurnState W → A) : quiet (gets f).
Proof. intros s. done. Qed.
Lemma quiet_pure {A} (r : result A) : quiet (pure_result r).
Proof. intros s. unfold pure_result. by destruct r. Qed.
Lemma quiet_raise {A} e : quiet (raise e : eff (TurnState W) A).
Proof. intros s. done. Qed.
Lemma quiet_event run_id payload : quiet (make_event env digest payload_size run_id payload).
Proof. intros s. unfold make_event. by destruct (validate_event _ _ _). Qed.
Lemma quiet_transcript m : quiet (append_transcript m).
Proof. intros s. done. Qed.
Lemma quiet_outcome id o : quiet (set_outcome id o).
Proof. intros s. done. Qed.
Lemma quiet_default id o : quiet (default_outcome id o).
Proof. intros s. done. Qed.

Ltac quiet_auto :=
  repeat (first [apply quiet_bind | apply quiet_ret | apply quiet_gets | apply quiet_pure | apply quiet_raise
    | apply quiet_event | apply quiet_transcript | apply quiet_outcome | apply quiet_default
    | progress intros | progress cbv zeta | case_match]); auto.

Lemma quiet_message id r e : quiet (append_tool_message id r e : eff (TurnState W) unit).
Proof. unfold append_tool_message. quiet_auto. Qed.
Lemma quiet_failed run_id id e : quiet (failed_event env digest payload_size run_id id e).
Proof. apply quiet_event. Qed.
Lemma quiet_feedback invalid : quiet (feedback_invalid invalid : eff (TurnState W) unit).
Proof. unfold feedback_invalid. quiet_auto. Qed.
Lemma quiet_fail_call input call e emitted last :
  quiet (fail_call env digest payload_size input call e emitted last).
Proof. unfold fail_call. quiet_auto. Qed.
Lemma quiet_finish_call input item o emitted c plan :
  quiet (finish_call env digest payload_size input item o emitted c plan).
Proof. unfold finish_call, completion_event. quiet_auto. Qed.
Lemma quiet_replay input item o : quiet (replay_call env digest payload_size input item o).
Proof. unfold replay_call, completion_event. quiet_auto. Qed.

Lemma quiet_reject_calls run_id verdict ids : quiet (reject_calls env digest payload_size run_id verdict ids).
Proof.
  induction ids as [|id ids IH]; cbn [reject_calls]; quiet_auto.
Qed.
Lemma quiet_fail_invalid run_id verdict keep invalid :
  quiet (fail_invalid env digest payload_size run_id verdict keep invalid).
Proof. induction invalid as [|c invalid IH]; cbn [fail_invalid]; quiet_auto. Qed.
Lemma quiet_reject_prepared run_id rejected items :
  quiet (reject_prepared env digest payload_size run_id rejected items).
Proof.
  induction items as [|item items IH]; cbn [reject_prepared]; quiet_auto.
Qed.
Lemma quiet_prepare outcomes pending calls :
  quiet (_prepare_calls env redact error_size digest outcomes pending calls).
Proof. revert pending. induction calls as [|c calls IH]; intros pending; cbn [_prepare_calls]; quiet_auto. Qed.
Lemma quiet_reject_conflicting input calls invalid conflict :
  quiet (_reject_conflicting_turn env digest payload_size input calls invalid conflict).
Proof.
  unfold _reject_conflicting_turn. quiet_auto; eauto using quiet_reject_calls, quiet_fail_invalid, quiet_feedback.
Qed.
Lemma quiet_reject_invalid input items invalid n :
  quiet (_reject_invalid_turn env config digest payload_size input items invalid n).
Proof.
  unfold _reject_invalid_turn. quiet_auto; eauto using quiet_reject_prepared, quiet_fail_invalid, quiet_feedback.
Qed.

(** *** Turns that run nothing *)

(** The first call of the turn with an identifier that has no outcome yet. *)
Definition fresh_call (outcomes : gmap pystr ToolOutcome) (calls : list GatewayToolCall) (call : GatewayToolCall) : Prop :=
  outcomes !! gtc_id call = None ∧ ∃ before after, calls = before ++ call :: after ∧ gtc_id call ∉ gtc_id <$> before.

(** Some new call is refused by its registration, or still needs an approval. *)
Definition blocked_turn (input : TurnInput) (outcomes : gmap pystr ToolOutcome) (calls : list GatewayToolCall)
    (invalid : list InvalidToolCall) : Prop :=
  is_Some (_find_id_conflict digest calls invalid outcomes) ∨ invalid ≠ [] ∨
  ∃ call, fresh_call outcomes calls call ∧
    match prepare (env_registry env) (gtc_name call) (gtc_arguments call) with
    | inr _ => True
    | inl effect => _requires_approval (ti_approval_mode input) effect = true ∧
                    ti_approval_decisions input !! gtc_id call = None
    end.

Lemma prepare_calls_fresh outcomes pending calls call before after items s s' :
  calls = before ++ call :: after → outcomes !! gtc_id call = None →
  gtc_id call ∉ gtc_id <$> before → gtc_id call ∉ pending →
  _prepare_calls env redact error_size digest outcomes pending calls s = (Ret items, s') →
  ∃ item, item ∈ items ∧ pc_tool_call item = call ∧
    match prepare (env_registry env) (gtc_name call) (gtc_arguments call) with
    | inl effect => pc_prepared item = Some effect
    | inr _ => is_some (pc_validation_error item) = true
    end.
Proof.
  revert pending calls items s s'. induction before as [|b before IH]; intros pending calls items s s' -> Ho Hb Hp H.
  - cbn [app _prepare_calls] in H. rewrite Ho, bool_decide_eq_false_2 in H by done. cbn [is_some orb] in H.
    eff_inv H. destruct (prepare _ _ _) as [effect|e]; eff_inv Hm; eexists; (split; [left|]); done.
  - cbn [app _prepare_calls] in H. rewrite fmap_cons, not_elem_of_cons in Hb. destruct Hb as [Hne Hb].
    destruct (is_some (outcomes !! gtc_id b) || bool_decide (gtc_id b ∈ pending)); eff_inv H.
    + edestruct IH as (item & Hi & Hc); [done|done|exact Hb|exact Hp|exact Hm|]. exists item. by split; [right|].
    + edestruct (IH (gtc_id b :: pending)) as (item & Hi & Hc); [done|done|exact Hb|set_solver|eassumption|].
      exists item. by split; [right|].
Qed.

Lemma quiet_approvals input items :
  (∀ w, workspace (env_approval_id env w).2 = workspace w) →
  quiet (request_approvals env digest payload_size input items).
Proof.
  intros Hid. induction items as [|item items IH]; cbn [request_approvals]; quiet_auto.
  intros s. unfold keeps, with_world. specialize (Hid (ts_world s)). by destruct (env_approval_id env (ts_world s)).
Qed.

(** Refused turn: a turn that reuses an identifier, contains an invalid call or a
    call its tool rejects, or still waits for an approval, changes nothing in the
    workspace, whichever way it ends. *)
Theorem blocked_turn_runs_nothing input calls invalid retries s :
  (∀ w, workspace (env_approval_id env w).2 = workspace w) →
  blocked_turn input (ts_outcomes s) calls invalid →
  workspace (ts_world (execute env config redact_text redact error_size digest payload_size uuid_text
                         input calls invalid retries s).2) = workspace (ts_world s).
Proof.
  intros Hid Hblocked. change (keeps s (execute env config redact_text redact error_size digest payload_size uuid_text
    input calls invalid retries s).2). unfold execute.
  apply (eff_bind_preserves keeps); [apply keeps_trans|done|]. intros outcomes s1 [= <- <-].
  destruct (_find_id_conflict _ _ _ _) as [conflict|] eqn:Hconflict; [apply quiet_reject_conflicting|].
  apply (eff_bind_preserves keeps); [apply keeps_trans|apply quiet_prepare|]. intros items s1 Hitems.
  destruct (negb (is_nil invalid) || _) eqn:Hinvalid; [apply quiet_reject_invalid|].
  apply orb_false_iff in Hinvalid as [Hnil Hvalid]. destruct invalid as [|]; [|done].
  destruct Hblocked as [[? ?]|[?|(call & (Ho & before & after & Hcalls & Hb) & Hcall)]]; [congruence|congruence|].
  destruct (prepare_calls_fresh _ _ _ _ _ _ _ _ _ Hcalls Ho Hb (not_elem_of_nil _) Hitems) as (item & Hi & <- & Hp).
  destruct (prepare _ _ _) as [effect|e].
  - set (awaiting := filter _ _). assert (is_nil awaiting = false) as ->.
    { assert (item ∈ awaiting) as Ha; [|by destruct awaiting; [apply elem_of_nil in Ha|]].
      apply list_elem_of_filter. split; [|done]. unfold awaits_approval. destruct Hcall as [Hreq Hd].
      by rewrite Ho, Hp, Hreq, Hd. }
    cbn [negb]. apply (quiet_bind _ _ (quiet_approvals _ _ Hid)). intros. apply quiet_ret.
  - exfalso. enough (existsb (λ i, is_some (pc_validation_error i)) items = true) by congruence.
    apply existsb_exists. exists item. split; [by apply list_elem_of_In|done].
Qed.

(** *** Checkpointed calls *)

(** What the turn needs of a coordinator: taking a checkpoint leaves the workspace
    alone and remembers it, and a successful rollback brings it back. *)
Class RestoresWorkspace (coordinator : CheckpointCoordinator W) (snapshot : Checkpoint → Workspace) := {
  create_keeps w run_id id transcript plan summary :
    workspace (create_before_tool coordinator w run_id id transcript plan summary).2 = workspace w;
  create_snapshots w run_id id transcript plan summary c w' :
    create_before_tool coordinator w run_id id transcript plan summary = (Ret c, w') → snapshot c = workspace w;
  rollback_restores w c u w' : rollback coordinator w c = (Ret u, w') → workspace w' = snapshot c;
}.

Definition at_workspace (v : Workspace) (s : TurnState W) : Prop := workspace (ts_world s) = v.

Lemma quiet_spec {A} (m : eff (TurnState W) A) v :
  quiet m → spec (at_workspace v) m (λ _, at_workspace v) (λ _, at_workspace v).
Proof.
  intros Hm s Hs. specialize (Hm s). unfold keeps, at_workspace in *. destruct (m s) as [[a|e] s']; cbn in Hm; congruence.
Qed.

(** The turn stops with this error. *)
Definition fails_with (code : pystr) (p : call_progress) : Prop :=
  ∃ events before e d, p = TurnOver events before ∧ last events = Some e ∧ ev_payload e = RunFailed d ∧
    detail_code d = code.

Lemma validate_run_failed run_id sequence e at_ ev :
  validate_event digest payload_size (mkAgentEvent run_id sequence (RunFailed e) at_) = Ok ev →
  name_string (detail_code e) = Ok (detail_code e) →
  ∃ d, ev_payload ev = RunFailed d ∧ detail_code d = detail_code e.
Proof.
  unfold validate_event, validate_payload, validate_error_detail. cbn [ev_payload ev_sequence]. intros H Hc.
  rewrite Hc in H. run_inv H. eexists. split; reflexivity.
Qed.

Lemma fail_call_spec input call error_ emitted before v :
  spec (at_workspace v) (fail_call env digest payload_size input call error_ emitted before)
    (λ p s, at_workspace v s ∧ (name_string (detail_code error_) = Ok (detail_code error_) →
                                 fails_with (detail_code error_) p)
            ∧ ∃ events last, p = TurnOver events last)
    (λ _ _, True).
Proof.
  intros s Hs. pose proof (quiet_fail_call input call error_ emitted before s) as Hq.
  destruct (fail_call _ _ _ _ _ _ _ _ s) as [[p|e] s'] eqn:E; [|done]. cbn in Hq.
  split; [unfold keeps, at_workspace in *; congruence|].
  unfold fail_call in E. eff_inv E. split; [|eauto]. intros Hname.
  unfold make_event in Hm0. destruct (validate_event _ _ _) as [ev|] eqn:Hev; [|done]. injection Hm0 as -> <-.
  destruct (validate_run_failed _ _ _ _ _ Hev Hname) as (d & Hd & Hcode).
  exists (emitted ++ [a; a0]), before, a0, d. split_and!; try done.
  change (last (emitted ++ [a] ++ [a0]) = Some a0). by rewrite app_assoc, last_snoc.
Qed.

Lemma finish_call_spec input item o emitted checkpoint_id plan P :
  spec P (finish_call env digest payload_size input item o emitted checkpoint_id plan)
    (λ p s, (∃ events, p = CallDone events checkpoint_id plan) ∧ ts_outcomes s !! gtc_id (pc_tool_call item) = Some o)
    (λ _ _, True).
Proof.
  intros s _. destruct (finish_call _ _ _ _ _ _ _ _ _ s) as [[p|e] s'] eqn:E; [|done].
  unfold finish_call, completion_event, append_tool_message in E. eff_inv E. split; [eauto|].
  unfold set_outcome, modify in Hm. injection Hm as _ <-.
  unfold make_event in Hm0. destruct (validate_event _ _ _) as [ev|]; [|done]. injection Hm0 as -> <-.
  unfold pure_result in Hm2. destruct (tool_message _ _ _) as [m|]; [|done]. injection Hm2 as -> <-.
  unfold append_transcript, modify in Hm1. injection Hm1 as _ <-. cbn [ts_outcomes]. apply lookup_insert_eq.
Qed.

Section Checkpointed.
Variable coordinator : CheckpointCoordinator W.
Variable snapshot : Checkpoint → Workspace.
Context `{!RestoresWorkspace coordinator snapshot}.
Hypothesis has_coordinator : env_checkpoints env = Some coordinator.

Definition restore_failed : pystr := py "checkpoint_restore_failed".

Lemma fail_taken input call error_ v :
  spec (at_workspace v)
    (p ← fail_call env digest payload_size input call error_ [] None; mret (inr p))
    (λ (r : Checkpoint * AgentEvent + call_progress) s, at_workspace v s ∧
       match r with inl (c, _) => snapshot c = v | inr p => ∃ events last, p = TurnOver events last end)
    (λ _ _, True).
Proof.
  eapply spec_bind; [apply fail_call_spec|]. intros p. apply spec_ret. intros s (Hs & _ & Hp). by split.
Qed.

Lemma take_checkpoint_spec input call v :
  spec (at_workspace v) (take_checkpoint env redact error_size digest payload_size input call)
    (λ r s, at_workspace v s ∧
       match r with inl (c, _) => snapshot c = v | inr p => ∃ events last, p = TurnOver events last end)
    (λ _ _, True).
Proof.
  unfold take_checkpoint. rewrite has_coordinator.
  apply (spec_bind _ _ _ (λ _, at_workspace v)); [intros s Hs; exact Hs|]. intros transcript.
  apply (spec_bind _ _ _ (λ r s, at_workspace v s ∧
    match r with inl c => snapshot c = v | inr p => ∃ events last, p = TurnOver events last end)).
  - apply (spec_catch _ _ _ _ (λ _, at_workspace v)).
    + apply (spec_bind _ _ _ (λ c s, at_workspace v s ∧ snapshot c = v)); [|intros c; apply spec_ret; done].
      intros s Hs. unfold with_world, at_workspace in *.
      pose proof (create_keeps (ts_world s) (ti_run_id input) (gtc_id call) transcript (ti_task_plan input)
                    (ti_context_summary input)) as Hk.
      destruct (create_before_tool _ _ _ _ _ _ _) as [[c|e] w] eqn:E; cbn [snd ts_world] in *; [|congruence].
      apply create_snapshots in E. split; congruence.
    + intros e. assert (∀ d, spec (at_workspace v)
        (p ← fail_call env digest payload_size input call d [] None; mret (inr p))
        (λ (r : Checkpoint + call_progress) s, at_workspace v s ∧
           match r with inl c => snapshot c = v | inr p => ∃ events last, p = TurnOver events last end)
        (λ _ _, True)) as Hfail.
      { intros d. eapply spec_bind; [apply fail_call_spec|]. intros p. apply spec_ret. intros s (Hs & _ & Hp). by split. }
      destruct e; [|apply Hfail|by apply spec_raise|apply Hfail].
      eapply spec_bind; [by apply spec_pure|]. intros d. apply spec_assume. intros _. apply Hfail.
  - intros [c|p]; [|apply spec_ret; done]. destruct (negb _).
    + eapply spec_weaken; [apply (fail_taken _ _ _ v)| |done|done]. by intros s [].
    + apply (spec_bind _ _ _ (λ _ s, at_workspace v s ∧ snapshot c = v)); [|intros e; apply spec_ret; done].
      intros s [Hs Hc]. pose proof (quiet_spec _ v (quiet_event (ti_run_id input) (CheckpointCreated (chk_id c)
        (chk_tool_call_id c) (chk_message_sequence c) (chk_workspace_revision c))) s Hs) as He.
      destruct (make_event _ _ _ _ _ s) as [[e|e] s']; [by split|done].
Qed.

Lemma try_rollback_spec c P :
  spec P (try_rollback coordinator c) (λ restored s, restored = true → at_workspace (snapshot c) s) (λ _ _, True).
Proof.
  intros s _. unfold try_rollback, catch, mbind, eff_bind, with_world, mret, eff_ret.
  destruct (rollback coordinator (ts_world s) c) as [[u|e] w] eqn:E.
  - intros _. by eapply rollback_restores.
  - by destruct e.
Qed.

Lemma finalize_call_spec call c result_ P :
  spec P (finalize_call config uuid_text coordinator call c result_)
    (λ r s, match r with
            | inl _ => True
            | inr e => (at_workspace (snapshot c) s ∨ detail_code e = restore_failed) ∧
                       name_string (detail_code e) = Ok (detail_code e)
            end)
    (λ _ _, True).
Proof.
  unfold finalize_call. apply (spec_bind _ _ _ (λ _ _, True)).
  - intros s _. unfold catch, mbind, eff_bind, with_world, mret, eff_ret.
    destruct (complete_tool _ _ _ _) as [[r|e] w]; [done|by destruct e].
  - assert (∀ restored e code message details, name_string (detail_code e) = Ok (detail_code e) → code = restore_failed →
      spec (λ s, restored = true → at_workspace (snapshot c) s)
        (mret (inr (if restored : bool then e else mkErrorDetail code message false details)))
        (λ (r : json + ErrorDetail) s, match r with
            | inl _ => True
            | inr e => (at_workspace (snapshot c) s ∨ detail_code e = restore_failed) ∧
                       name_string (detail_code e) = Ok (detail_code e)
            end) (λ _ _, True)) as Hret.
    { intros restored e code message details He ->. apply spec_ret. intros s Hs. destruct restored; [|by split; [right|]].
      split; [left; by apply Hs|done]. }
    intros [revision|].
    + cbv zeta. case_match eqn:Herror; [|apply spec_ret; done].
      eapply spec_bind; [apply try_rollback_spec|]. intros restored. apply Hret; [|done].
      destruct (negb _) in Herror; [by injection Herror as <-|].
      destruct (_ <? _)%N in Herror; [by injection Herror as <-|done].
    + eapply spec_bind; [apply try_rollback_spec|]. intros restored. by apply Hret.
Qed.

Definition settled (v : Workspace) (id : pystr) (p : call_progress) (s : TurnState W) : Prop :=
  at_workspace v s ∨ fails_with restore_failed p ∨
  ∃ events c plan o, p = CallDone events c plan ∧ ts_outcomes s !! id = Some o ∧ to_status o = TOOL_COMPLETED.

Lemma finish_failed_settled input item error_ emitted before plan v :
  spec (at_workspace v)
    (finish_call env digest payload_size input item (call_outcome item TOOL_FAILED None (Some error_)) emitted before plan)
    (settled v (gtc_id (pc_tool_call item))) (λ _ _, True).
Proof.
  eapply spec_weaken; [apply (quiet_spec _ v), quiet_finish_call|done| |done]. intros p s Hs. by left.
Qed.
Lemma finish_completed_settled input item result_ emitted before plan v P :
  spec P
    (finish_call env digest payload_size input item (call_outcome item TOOL_COMPLETED (Some result_) None) emitted before plan)
    (settled v (gtc_id (pc_tool_call item))) (λ _ _, True).
Proof.
  eapply spec_weaken; [apply finish_call_spec|done| |done]. intros p s ([events ->] & Ho). right. right.
  eexists _, _, _, _. by split_and!.
Qed.
Lemma fail_call_settled input item error_ emitted before v :
  name_string (detail_code error_) = Ok (detail_code error_) →
  spec (λ s, at_workspace v s ∨ detail_code error_ = restore_failed)
    (fail_call env digest payload_size input (pc_tool_call item) error_ emitted before)
    (settled v (gtc_id (pc_tool_call item))) (λ _ _, True).
Proof.
  intros Hname s Hs.
  pose proof (fail_call_spec input (pc_tool_call item) error_ emitted before (workspace (ts_world s)) s eq_refl) as H.
  destruct (fail_call _ _ _ _ _ _ _ _ s) as [[p|e] s']; [|done]. destruct H as (Hw & Hf & _).
  destruct Hs as [Hs|Hs]; [left; unfold at_workspace in *; congruence|]. right. left. rewrite <- Hs. by apply Hf.
Qed.

Lemma execute_call_settles input item effect v :
  side_effecting effect = true →
  spec (at_workspace v) (execute_call env config redact_text redact error_size digest payload_size uuid_text
    input item effect) (settled v (gtc_id (pc_tool_call item))) (λ _ _, True).
Proof.
  intros Heff. unfold execute_call. rewrite Heff.
  apply (spec_bind _ _ _ (λ r s, at_workspace v s ∧
    match r with inl (c, _) => (∃ c', c = Some c' ∧ snapshot c' = v) | inr p => ∃ events last, p = TurnOver events last end)).
  { eapply spec_bind; [apply (take_checkpoint_spec input _ v)|]. intros [[c e]|q]; apply spec_ret; intros s1 [Hs Hr]; eauto. }
  intros [[checkpoint emitted]|q]; [|apply spec_ret; intros s1 [Hs _]; by left].
  apply spec_assume. intros (c & -> & Hc).
  eapply spec_bind; [eapply spec_weaken; [apply (quiet_spec _ v), quiet_event|done|intros a s1 Hs; exact Hs|done]|].
  intros started. eapply (spec_bind _ _ _ (λ _ _, True)); [intros s1 _; by destruct (run_checkpointed _ _ _ _ _ _ _ _ _ s1) as [[]]|].
  intros run. eapply (spec_bind _ _ _ (λ _ _, True)); [intros s1 _; by destruct (output_events _ _ _ _ _ _ s1) as [[]]|].
  intros outputs. cbv zeta. rewrite has_coordinator.
  destruct (trr_error run) as [error_|].
  - eapply spec_bind; [apply (try_rollback_spec c)|]. intros [|].
    + eapply spec_weaken; [apply finish_failed_settled| |done|done]. intros s1 Hs. rewrite <- Hc. by apply Hs.
    + eapply spec_weaken; [by apply fail_call_settled| |done|done]. intros s1 _. by right.
  - destruct (trr_result run) as [result_|]; [|by apply spec_raise].
    eapply spec_bind; [apply (finalize_call_spec _ c)|]. intros [completed|error_].
    + apply finish_completed_settled.
    + apply spec_assume. intros Hname.
      eapply spec_weaken; [by apply fail_call_settled| |done|done]. intros s1 Hs. by rewrite <- Hc.
Qed.

(** *** Cancelled calls *)

(** No cancellation reaches the coordinator's own restore and finalization. *)
Definition uninterrupted : Prop :=
  (∀ w c w', rollback coordinator w c ≠ (Raise CancelledExn, w')) ∧
  (∀ w c id w', complete_tool coordinator w c id ≠ (Raise CancelledExn, w')).

Lemma calm_event run_id p : calm (make_event env digest payload_size run_id p).
Proof. intros s s'. unfold make_event. by destruct (validate_event _ _ _). Qed.
Lemma calm_fail_call input call e emitted before : calm (fail_call env digest payload_size input call e emitted before).
Proof. unfold fail_call, failed_event. repeat first [apply calm_event|apply calm_ret|apply calm_bind; [|intros ?]]. Qed.
Lemma calm_finish_call input item o emitted c plan : calm (finish_call env digest payload_size input item o emitted c plan).
Proof.
  unfold finish_call, completion_event, append_tool_message.
  repeat first [apply calm_event|apply calm_ret|apply calm_modify|apply calm_pure|apply calm_bind; [|intros ?]].
Qed.
Lemma calm_output_events input call output : calm (output_events env digest payload_size input call output).
Proof.
  induction output as [|b output IH]; cbn [output_events]; [apply calm_ret|].
  apply calm_bind; [apply calm_event|]. intros e. apply calm_bind; [done|]. intros more. apply calm_ret.
Qed.
Lemma calm_try_rollback c : uninterrupted → calm (try_rollback coordinator c).
Proof.
  intros [Hr _] s s'. unfold try_rollback, catch, mbind, eff_bind, with_world.
  destruct (rollback coordinator (ts_world s) c) as [[u|x] w] eqn:E; [done|]. destruct x; try done. by apply Hr in E.
Qed.
Lemma calm_finalize_call call c r : uninterrupted → calm (finalize_call config uuid_text coordinator call c r).
Proof.
  intros Hu. unfold finalize_call. apply calm_bind.
  - intros s s'. unfold catch, mbind, eff_bind, with_world. destruct Hu as [_ Hc].
    destruct (complete_tool _ _ _ _) as [[u|x] w] eqn:E; [done|]. destruct x; try done. by apply Hc in E.
  - intros [revision|]; cbv zeta; [case_match; [|apply calm_ret]|];
      (apply calm_bind; [by apply calm_try_rollback|]; intros ?; apply calm_ret).
Qed.

Lemma take_checkpoint_cancelled input call s s' :
  take_checkpoint env redact error_size digest payload_size input call s = (Raise CancelledExn, s') →
  at_workspace (workspace (ts_world s)) s'.
Proof.
  unfold take_checkpoint. rewrite has_coordinator. intros [H|(t & s1 & [= <- <-] & H)]%eff_bind_Raise; [done|].
  assert (∀ e (r : call_progress → Checkpoint + call_progress),
    calm (p ← fail_call env digest payload_size input call e [] None; mret (r p))) as Hfail.
  { intros e r. apply calm_bind; [apply calm_fail_call|]. intros p. apply calm_ret. }
  apply eff_bind_Raise in H as [H|(created & s1 & _ & H)].
  - unfold catch, mbind at 1, eff_bind at 1, with_world in H.
    pose proof (create_keeps (ts_world s) (ti_run_id input) (gtc_id call) (ts_transcript s) (ti_task_plan input)
                  (ti_context_summary input)) as Hk.
    destruct (create_before_tool _ _ _ _ _ _ _) as [[c|x] w]; [done|]. cbn [snd] in Hk.
    destruct x; [|by apply Hfail in H|by injection H as <-|by apply Hfail in H].
    apply eff_bind_Raise in H as [H|(d & s1 & _ & H)]; [by apply calm_pure in H|by apply Hfail in H].
  - exfalso. destruct created as [c|p]; [|done]. destruct (negb _).
    + revert H. apply calm_bind; [apply calm_fail_call|]. intros p. apply calm_ret.
    + revert H. apply calm_bind; [apply calm_event|]. intros e. apply calm_ret.
Qed.

(** The tool was cancelled: the restore ran before the cancellation went on. *)
Lemma run_checkpointed_cancelled input call c s s' :
  uninterrupted →
  run_checkpointed env config redact_text redact error_size uuid_text input call (Some c) s = (Raise CancelledExn, s') →
  at_workspace (snapshot c) s'.
Proof.
  intros [Hr _] H. unfold run_checkpointed, catch in H. rewrite has_coordinator in H.
  destruct (_run_tool _ _ _ _ _ _ _ _ s) as [[r|x] s1]; [done|]. destruct x; try done.
  unfold cancel_with_rollback in H. apply eff_bind_Raise in H as [H|(b & s2 & [= <- <-] & H)]; [done|].
  apply eff_bind_Raise in H as [H|(u & s2 & H & [= <-])].
  - unfold catch, with_world in H. destruct (rollback coordinator (ts_world s1) c) as [[u|x] w] eqn:E; [done|].
    destruct x; [by destruct (env_interrupted _ _)..| |by destruct (env_interrupted _ _)]. by apply Hr in E.
  - unfold catch, with_world in H. destruct (rollback coordinator (ts_world s1) c) as [[u'|x] w] eqn:E.
    + injection H as _ <-. by eapply rollback_restores.
    + destruct x; try done; by destruct (env_interrupted _ _).
Qed.

Lemma execute_call_cancelled input item effect s s' :
  side_effecting effect = true → uninterrupted →
  execute_call env config redact_text redact error_size digest payload_size uuid_text input item effect s
    = (Raise CancelledExn, s') →
  workspace (ts_world s') = workspace (ts_world s).
Proof.
  intros Heff Hu H. set (v := workspace (ts_world s)). unfold execute_call in H. rewrite Heff in H.
  apply eff_bind_Raise in H as [H|(taken & s1 & Ht & H)].
  { apply eff_bind_Raise in H as [H|(t & s1 & _ & [=])]. by apply take_checkpoint_cancelled in H. }
  apply eff_bind_Ret in Ht as (t & s2 & Ht & [= <- <-]).
  pose proof (take_checkpoint_spec input (pc_tool_call item) v s eq_refl) as Hc. rewrite Ht in Hc.
  destruct t as [[c e]|q]; [|done]. destruct Hc as [_ Hc].
  apply eff_bind_Raise in H as [H|(started & s3 & _ & H)]; [by apply calm_event in H|].
  apply eff_bind_Raise in H as [H|(run & s4 & _ & H)]; [apply run_checkpointed_cancelled in H; [congruence|done]|].
  exfalso. revert H. apply calm_bind; [apply calm_output_events|]. intros outputs. cbv zeta. rewrite has_coordinator.
  destruct (trr_error run) as [error_|].
  - apply calm_bind; [by apply calm_try_rollback|]. intros [|]; [apply calm_finish_call|apply calm_fail_call].
  - destruct (trr_result run) as [result_|]; [|done]. apply calm_bind; [by apply calm_finalize_call|].
    intros [completed|error_]; [apply calm_finish_call|apply calm_fail_call].
Qed.

(** C21: failed call: when a call that changes files or runs a command returns without
    completing, the workspace is what it was before the call, unless the run itself
    fails with checkpoint_restore_failed; when it is cancelled, the workspace is what it
    was before the call too, as long as no further cancellation reaches the
    coordinator's own restore or finalization. *)
Theorem failed_call_restores_workspace input item effect s r s' :
  side_effecting effect = true →
  execute_call env config redact_text redact error_size digest payload_size uuid_text input item effect s = (r, s') →
  match r with
  | Ret p =>
      workspace (ts_world s') = workspace (ts_world s) ∨ fails_with restore_failed p ∨
      ∃ events c plan o, p = CallDone events c plan ∧ ts_outcomes s' !! gtc_id (pc_tool_call item) = Some o ∧
        to_status o = TOOL_COMPLETED
  | Raise CancelledExn => uninterrupted → workspace (ts_world s') = workspace (ts_world s)
  | Raise _ => True
  end.
Proof.
  intros Heff H. destruct r as [p|x].
  - pose proof (execute_call_settles input item effect _ Heff s eq_refl) as Hspec. by rewrite H in Hspec.
  - destruct x; try done. intros Hu. by eapply execute_call_cancelled.
Qed.
End Checkpointed.

End World.
