(* ===== verification/ToolTurnHistory.v ===== *)
(** * The record a tool turn leaves

    The transcript gets one answer per call, in the order of the calls, and a call
    identifier is executed at most once: a call that has an outcome is answered from
    it. *)

From stdpp Require Import base list sets gmap strings.
From Stdlib Require Import ZArith Lia.
From S2P Require Import Prelude PyBase Domain Tables Contracts Transcripts Execution Recovery TaskPlans PyText Gateway AgentEvents PyEffects ToolTurn.

(** The end of an executed call: it finishes, fails the run, raises, or first goes
    through a step [keep] proves harmless. *)
Ltac turn_step finish fail keep stop :=
  lazymatch goal with
  | |- spec _ (finish_call _ _ _ _ _ _ _ _ _) _ _ => apply finish
  | |- spec _ (fail_call _ _ _ _ _ _ _ _) _ _ => apply fail
  | |- spec _ (raise _) _ _ => stop
  | |- spec _ (_ ≫= _) _ _ =>
      eapply spec_bind; [keep|]; let a := fresh in intros a; destruct a; turn_step finish fail keep stop
  end.

Section History.
Context {W : Type}.
Variable env : ToolEnvironment W.
Variable config : AgentLoopConfig.
Variable redact_text : pystr → pystr.
Variable redact : json → json.
Variable error_size : ErrorDetail → Z.
Variable digest : json → pystr.
Variable payload_size : AgentPayload → Z.
Variable uuid_text : uuid → pystr.

(** ** Answers *)

Lemma make_event_transcript run_id payload :
  frames ts_transcript (make_event env digest payload_size run_id payload).
Proof. intros s. unfold make_event. by destruct (validate_event _ _ _). Qed.
Lemma with_world_transcript {A} (g : W → outcome A * W) : frames ts_transcript (with_world g).
Proof. intros s. unfold with_world. by destruct (g (ts_world s)). Qed.
Lemma set_outcome_transcript id o : frames (ts_transcript (W := W)) (set_outcome id o).
Proof. done. Qed.
Lemma default_outcome_transcript id o : frames (ts_transcript (W := W)) (default_outcome id o).
Proof. done. Qed.
Lemma run_tool_transcript call run_id c :
  frames ts_transcript (_run_tool env config redact_text redact error_size call run_id c).
Proof. intros s. unfold _run_tool. by destruct (env_stream _ _ _ _). Qed.
Hint Resolve make_event_transcript with_world_transcript set_outcome_transcript default_outcome_transcript
  run_tool_transcript : frames.

Lemma fail_call_transcript input call e emitted last :
  frames ts_transcript (fail_call env digest payload_size input call e emitted last).
Proof. unfold fail_call, failed_event. frames_auto. Qed.
Hint Resolve fail_call_transcript : frames.
Lemma take_checkpoint_transcript input call :
  frames ts_transcript (take_checkpoint env redact error_size digest payload_size input call).
Proof. unfold take_checkpoint. frames_auto. Qed.
Lemma run_checkpointed_transcript input call c :
  frames ts_transcript (run_checkpointed env config redact_text redact error_size uuid_text input call c).
Proof. unfold run_checkpointed, cancel_with_rollback. frames_auto. Qed.
Lemma output_events_transcript input call output :
  frames ts_transcript (output_events env digest payload_size input call output).
Proof. induction output as [|b output IH]; cbn [output_events]; frames_auto. Qed.
Lemma try_rollback_transcript coordinator c : frames (ts_transcript (W := W)) (try_rollback coordinator c).
Proof. unfold try_rollback. frames_auto. Qed.
Hint Resolve take_checkpoint_transcript run_checkpointed_transcript output_events_transcript try_rollback_transcript : frames.
Lemma finalize_call_transcript coordinator call c r :
  frames (ts_transcript (W := W)) (finalize_call config uuid_text coordinator call c r).
Proof. unfold finalize_call. frames_auto. Qed.
Lemma prepare_calls_transcript outcomes pending calls :
  frames ts_transcript (_prepare_calls env redact error_size digest outcomes pending calls).
Proof. revert pending. induction calls as [|c calls IH]; intros pending; cbn [_prepare_calls]; frames_auto. Qed.
Lemma fail_invalid_transcript run_id verdict keep invalid :
  frames ts_transcript (fail_invalid env digest payload_size run_id verdict keep invalid).
Proof. induction invalid as [|c invalid IH]; cbn [fail_invalid]; unfold failed_event; frames_auto. Qed.
Hint Resolve finalize_call_transcript prepare_calls_transcript fail_invalid_transcript : frames.

(** The message that answers a call. *)
Definition answers (call : GatewayToolCall) (m : GatewayMessage) : Prop :=
  gm_role m = TOOL ∧ gm_tool_calls m = [] ∧
  ∃ id, identifier_string (gtc_id call) = Ok id ∧ gm_tool_call_id m = Some id.

Definition at_transcript (t : list GatewayMessage) (s : TurnState W) : Prop := ts_transcript s = t.

Lemma transcript_kept {A} (m : eff (TurnState W) A) t :
  frames ts_transcript m → spec (at_transcript t) m (λ _, at_transcript t) (λ _ _, True).
Proof. intros Hm. eapply spec_weaken; [exact (frames_spec _ m (λ x, x = t) Hm)|done..]. Qed.

Lemma append_tool_message_spec call r e t :
  spec (at_transcript t) (append_tool_message (gtc_id call) r e : eff (TurnState W) unit)
    (λ _ s, ∃ m, at_transcript (t ++ [m]) s ∧ answers call m) (λ _ _, True).
Proof.
  unfold append_tool_message. eapply spec_bind; [by apply spec_pure|]. intros m. apply spec_assume. intros Hm s Hs.
  unfold append_transcript, modify, at_transcript in *. cbn. exists m. rewrite Hs. split; [done|].
  revert Hm. unfold tool_message, validate_gateway_message. cbv zeta.
  generalize dependent (_canonical_json
    (match e with
     | Some e => JObject [(py "error", error_json e); (py "ok", JBool false)]
     | None => JObject [(py "ok", JBool true); (py "result", default (JObject []) r)]
     end)).
  intros content. cbn [gm_tool_call_id validate_optional gm_tool_calls gm_role gm_content traverse].
  intros Hm. run_inv Hm. split_and!; [done|done|eauto].
Qed.

(** A call that lets the turn go on has been answered. *)
Definition call_answered (call : GatewayToolCall) (t : list GatewayMessage) (p : call_progress) (s : TurnState W) : Prop :=
  match p with
  | CallDone _ _ _ => ∃ m, at_transcript (t ++ [m]) s ∧ answers call m
  | TurnOver _ _ => True
  end.

Lemma answer_then_done call r e t emitted c plan :
  spec (at_transcript t) (_ ← append_tool_message (gtc_id call) r e; mret (CallDone emitted c plan))
    (call_answered call t) (λ _ _, True).
Proof. eapply spec_bind; [apply append_tool_message_spec|]. intros []. by apply spec_ret. Qed.

Lemma finish_call_answers input item o emitted c plan t :
  spec (at_transcript t) (finish_call env digest payload_size input item o emitted c plan)
    (call_answered (pc_tool_call item) t) (λ _ _, True).
Proof.
  unfold finish_call, completion_event. cbv zeta.
  eapply spec_bind; [apply transcript_kept; auto with frames|]. intros [].
  eapply spec_bind; [apply transcript_kept; auto with frames|]. intros e. apply answer_then_done.
Qed.

Lemma turn_over_answers {A} (m : eff (TurnState W) A) P call t (k : A → call_progress) :
  (∀ a, ∃ events last, k a = TurnOver events last) →
  spec P (a ← m; mret (k a)) (call_answered call t) (λ _ _, True).
Proof.
  intros Hk s _. unfold mbind, eff_bind. destruct (m s) as [[a|e] s']; [|done]. destruct (Hk a) as (? & ? & E).
  cbn. by rewrite E.
Qed.
Lemma fail_call_answers input item call e emitted last t P :
  spec P (fail_call env digest payload_size input call e emitted last) (call_answered (pc_tool_call item) t) (λ _ _, True).
Proof.
  unfold fail_call, failed_event. apply (spec_bind _ _ _ (λ _ _, True)).
  - intros s _. by destruct (make_event _ _ _ _ _ s) as [[]].
  - intros e1. apply turn_over_answers. eauto.
Qed.

Lemma take_checkpoint_over input call q s s' :
  take_checkpoint env redact error_size digest payload_size input call s = (Ret (inr q), s') →
  match q with CallDone _ _ _ => False | TurnOver _ _ => True end.
Proof.
  assert (∀ (d : ErrorDetail) A s1 s2 r,
    (p ← fail_call env digest payload_size input call d [] None; mret (inr p)) s1 = (Ret (inr r : A + call_progress), s2) →
    match r with CallDone _ _ _ => False | TurnOver _ _ => True end) as Hfail.
  { intros d A s1 s2 r H. unfold fail_call, failed_event in H. apply eff_bind_Ret in H as (p & s3 & H & [= <- <-]).
    apply eff_bind_Ret in H as (e1 & s4 & _ & H). by apply eff_bind_Ret in H as (e2 & s5 & _ & [= <- <-]). }
  unfold take_checkpoint. destruct (env_checkpoints env) as [coordinator|]; [|apply Hfail].
  intros H. apply eff_bind_Ret in H as (transcript & s1 & _ & H).
  apply eff_bind_Ret in H as (created & s2 & Hc & H). destruct created as [c|p].
  - destruct (negb _); [by eapply Hfail|]. by apply eff_bind_Ret in H as (e & s3 & _ & [=]).
  - injection H as <- <-. unfold catch in Hc.
    match type of Hc with match ?m with _ => _ end = _ => destruct m as [[r|e] s3] eqn:E end.
    + injection Hc as -> <-. by apply eff_bind_Ret in E as (c & s4 & _ & [=]).
    + destruct e; [|by eapply Hfail|done|by eapply Hfail].
      apply eff_bind_Ret in Hc as (d & s4 & _ & Hc). by eapply Hfail.
Qed.

Lemma execute_call_answers input item effect t :
  spec (at_transcript t)
    (execute_call env config redact_text redact error_size digest payload_size uuid_text input item effect)
    (call_answered (pc_tool_call item) t) (λ _ _, True).
Proof.
  unfold execute_call. cbv zeta.
  apply (spec_bind _ _ _ (λ r s, at_transcript t s ∧ match r with inr (CallDone _ _ _) => False | _ => True end)).
  { destruct (side_effecting effect); [|apply spec_ret; done].
    intros s Hs. pose proof (take_checkpoint_transcript input (pc_tool_call item) s) as Ht.
    unfold mbind at 1, eff_bind.
    destruct (take_checkpoint _ _ _ _ _ _ _ s) as [[[[c e]|q]|e] s'] eqn:E; cbn [snd] in Ht;
      [split; [unfold at_transcript in *; congruence|done]| |done].
    split; [unfold at_transcript in *; congruence|]. by eapply take_checkpoint_over. }
  intros [[checkpoint emitted]|q]; [|apply spec_ret; intros s [Hs Hq]; by destruct q].
  apply spec_assume. intros _.
  do 3 (eapply spec_bind; [apply transcript_kept; auto with frames|]; intros ?).
  destruct checkpoint as [c|], (env_checkpoints env) as [coordinator|], (trr_error a0) as [error_|], (trr_result a0);
    turn_step finish_call_answers fail_call_answers ltac:(apply transcript_kept; auto with frames)
      ltac:(by apply spec_raise).
Qed.

Lemma run_call_answers input item t :
  spec (at_transcript t)
    (run_call env config redact_text redact error_size digest payload_size uuid_text input item)
    (call_answered (pc_tool_call item) t) (λ _ _, True).
Proof.
  unfold run_call. eapply spec_bind; [apply transcript_kept; auto with frames|]. intros outcomes. cbv zeta.
  assert (∀ prior, spec (at_transcript t) (replay_call env digest payload_size input item prior)
    (call_answered (pc_tool_call item) t) (λ _ _, True)) as Hreplay.
  { intros prior. unfold replay_call, completion_event. cbv zeta.
    eapply spec_bind; [apply transcript_kept; auto with frames|]. intros e. apply answer_then_done. }
  repeat case_match; try apply Hreplay; try (by apply spec_raise); try apply execute_call_answers;
    unfold deny_call, answer_call; cbv zeta; apply finish_call_answers.
Qed.

(** The transcript grew by one answer per call. *)
Definition calls_answered (t : list GatewayMessage) (calls : list GatewayToolCall) (s : TurnState W) : Prop :=
  ∃ ms, at_transcript (t ++ ms) s ∧ Forall2 answers calls ms.

Lemma run_calls_answers input items t emitted last plan :
  spec (at_transcript t)
    (run_calls env config redact_text redact error_size digest payload_size uuid_text input emitted last plan items)
    (λ r s, rep_terminal r = false → calls_answered t (pc_tool_call <$> items) s) (λ _ _, True).
Proof.
  revert t emitted last plan. induction items as [|item items IH]; intros t emitted last plan; cbn [run_calls].
  { apply spec_ret. intros s Hs _. exists []. rewrite app_nil_r. by split. }
  eapply spec_bind; [apply run_call_answers|]. intros [events c p|events c]; [|by apply spec_ret].
  intros s (m & Hm & Ha). specialize (IH (t ++ [m]) (emitted ++ events)
    (match c with Some c => Some c | None => last end) (match p with Some p => Some p | None => plan end) s Hm).
  destruct (run_calls _ _ _ _ _ _ _ _ _ _ _ _ _ s) as [[r|e] s']; [|done]. intros Hr.
  destruct (IH Hr) as (ms & Hms & Hall). exists (m :: ms). rewrite <- app_assoc in Hms. split; [exact Hms|].
  rewrite fmap_cons. by constructor.
Qed.

Lemma prepare_calls_items outcomes pending calls P :
  spec P (_prepare_calls env redact error_size digest outcomes pending calls)
    (λ items _, pc_tool_call <$> items = calls) (λ _ _, True).
Proof.
  revert P pending. induction calls as [|c calls IH]; intros P pending; cbn [_prepare_calls]; [by apply spec_ret|].
  case_match; [eapply spec_bind; [apply IH|]; intros items; apply spec_ret; intros s E; by rewrite fmap_cons, E|].
  eapply (spec_bind _ _ _ (λ item _, pc_tool_call item = c)).
  { case_match; [by apply spec_ret|]. eapply spec_bind; [by apply spec_pure|]. intros ?. by apply spec_ret. }
  intros item s Hitem. specialize (IH (λ _, True) (gtc_id c :: pending) s I). unfold mbind, eff_bind.
  destruct (_prepare_calls _ _ _ _ _ _ _ s) as [[items|?] s']; [|done]. cbn. by rewrite Hitem, IH.
Qed.

Lemma reject_prepared_answers run_id rejected items t :
  spec (at_transcript t) (reject_prepared env digest payload_size run_id rejected items)
    (λ _, calls_answered t (pc_tool_call <$> items)) (λ _ _, True).
Proof.
  revert t. induction items as [|item items IH]; intros t; cbn [reject_prepared]; cbv zeta.
  { apply spec_ret. intros s Hs. exists []. rewrite app_nil_r. by split. }
  eapply spec_bind; [apply transcript_kept; auto with frames|]. intros [].
  eapply spec_bind; [apply transcript_kept; unfold failed_event; auto with frames|]. intros e.
  eapply spec_bind; [apply append_tool_message_spec|]. intros [] s (m & Hm & Ha). specialize (IH (t ++ [m]) s Hm).
  unfold mbind, eff_bind. destruct (reject_prepared _ _ _ _ _ _ s) as [[r|e1] s']; [|done]. cbn.
  destruct IH as (ms & Hms & Hall). exists (m :: ms). rewrite <- app_assoc in Hms. split; [exact Hms|].
  by constructor.
Qed.

(** The turn has answered its calls, and told the model about invalid ones. *)
Definition turn_answered (t : list GatewayMessage) (calls : list GatewayToolCall) (invalid : list InvalidToolCall)
    (t' : list GatewayMessage) : Prop :=
  ∃ ms feedback, t' = t ++ ms ++ feedback ∧ Forall2 answers calls ms ∧
    Forall (λ m, gm_role m = USER ∧ gm_tool_calls m = []) feedback ∧
    length feedback = (if is_nil invalid then 0 else 1).

Lemma feedback_answers t calls invalid :
  spec (calls_answered t calls) (feedback_invalid invalid : eff (TurnState W) unit)
    (λ _ s, turn_answered t calls invalid (ts_transcript s)) (λ _ _, True).
Proof.
  intros s (ms & Hs & Hall). unfold feedback_invalid. destruct (is_nil invalid) eqn:Enil.
  { exists ms, []. rewrite Enil, app_nil_r. by split_and!. }
  unfold mbind, eff_bind, pure_result. destruct (invalid_call_feedback invalid) as [m|] eqn:Em; [|done].
  cbn. exists ms, [m]. rewrite Hs, app_assoc. split_and!; [done|done| |by rewrite Enil].
  constructor; [|done]. unfold invalid_call_feedback, validate_gateway_message in Em.
  cbn [gm_tool_call_id validate_optional gm_tool_calls gm_role gm_content traverse] in Em. run_inv Em. done.
Qed.

(** Answered turn: a turn the run goes on after has added to the transcript exactly one tool
    message per call, in the order of the calls and under their identifiers, and after them
    at most one message for the model about calls that could not be read. *)
Theorem turn_answers_every_call input calls invalid retries s r s' :
  execute env config redact_text redact error_size digest payload_size uuid_text input calls invalid retries s
    = (Ret r, s') →
  rep_terminal r = false → turn_answered (ts_transcript s) calls invalid (ts_transcript s').
Proof.
  intros H. set (t := ts_transcript s).
  enough (spec (at_transcript t) (execute env config redact_text redact error_size digest payload_size uuid_text
    input calls invalid retries) (λ r s, rep_terminal r = false → turn_answered t calls invalid (ts_transcript s))
    (λ _ _, True)) as Hspec.
  { specialize (Hspec s eq_refl). by rewrite H in Hspec. }
  clear H. unfold execute. eapply spec_bind; [apply transcript_kept; auto with frames|]. intros outcomes.
  destruct (_find_id_conflict _ _ _ _) as [conflict|].
  { intros s1 _. unfold _reject_conflicting_turn. cbv zeta.
    match goal with |- match ?m with _ => _ end => destruct m as [[r1|e'] s2] eqn:E; [|done] end.
    intros Hr. repeat (apply eff_bind_Ret in E as (? & ? & _ & E)). by injection E as <- <-. }
  eapply (spec_bind _ _ _ (λ items s, at_transcript t s ∧ pc_tool_call <$> items = calls)).
  { intros s1 Hs. pose proof (prepare_calls_transcript outcomes [] calls s1) as Ht.
    pose proof (prepare_calls_items outcomes [] calls (λ _, True) s1 I) as Hi.
    destruct (_prepare_calls _ _ _ _ _ _ _ s1) as [[items|e] s2]; [|done]. cbn in Ht.
    split; [unfold at_transcript in *; congruence|done]. }
  intros items. apply spec_assume. intros <-. destruct (negb (is_nil invalid) || _) eqn:Einvalid.
  - unfold _reject_invalid_turn. cbv zeta. eapply spec_bind; [apply reject_prepared_answers|]. intros e1.
    eapply (spec_bind _ _ _ (λ _, calls_answered t (pc_tool_call <$> items))).
    { eapply spec_weaken; [exact (frames_spec ts_transcript _
        (λ x, ∃ ms, x = t ++ ms ∧ Forall2 answers (pc_tool_call <$> items) ms) (fail_invalid_transcript _ _ _ _))|done..]. }
    intros e2. eapply spec_bind; [apply feedback_answers|]. intros []. destruct (_ <? _)%Z.
    + intros s1 _. match goal with |- match ?m with _ => _ end => destruct m as [[r1|e'] s2] eqn:E; [|done] end.
      intros Hr. repeat (apply eff_bind_Ret in E as (? & ? & _ & E)). by injection E as <- <-.
    + apply spec_ret. intros s1 Hs _. exact Hs.
  - apply orb_false_iff in Einvalid as [Enil _]. apply negb_false_iff in Enil. case_match.
    + intros s1 _. match goal with |- match ?m with _ => _ end => destruct m as [[r1|e'] s2] eqn:E; [|done] end.
      intros Hr. repeat (apply eff_bind_Ret in E as (? & ? & _ & E)). by injection E as <- <-.
    + eapply spec_weaken; [apply run_calls_answers|done| |done]. intros r1 s1 Hr Hterm.
      destruct (Hr Hterm) as (ms & Hms & Hall). exists ms, []. rewrite Enil, app_nil_r. by split_and!.
Qed.

(** ** Executions

    [runs w] counts the executions of each call identifier in a world; only running a
    tool adds to it. *)

Class CountsRuns (runs : W → gmap pystr nat) := {
  runs_stream w call context :
    runs (env_stream env w call context).2 = <[gtc_id call := S (runs w !!! gtc_id call)]> (runs w);
  runs_approval w : runs (env_approval_id env w).2 = runs w;
  runs_create coordinator w run_id id t plan summary : env_checkpoints env = Some coordinator →
    runs (create_before_tool coordinator w run_id id t plan summary).2 = runs w;
  runs_complete coordinator w c id : env_checkpoints env = Some coordinator →
    runs (complete_tool coordinator w c id).2 = runs w;
  runs_rollback coordinator w c : env_checkpoints env = Some coordinator →
    runs (rollback coordinator w c).2 = runs w;
}.

Section Executions.
Context (runs : W → gmap pystr nat) `{!CountsRuns runs}.
Variable base : gmap pystr nat.
Variable prior : gmap pystr ToolOutcome.

Definition record (s : TurnState W) : gmap pystr nat * gmap pystr ToolOutcome := (runs (ts_world s), ts_outcomes s).

(** Every identifier has run at most once more than at the start, and not at all when
    it had an outcome then; between turns only an identifier with an outcome, or the
    one being executed, may have run. *)
Definition ledger (extra : option pystr) (x : gmap pystr nat * gmap pystr ToolOutcome) : Prop :=
  (∀ id, is_Some (prior !! id) → is_Some (x.2 !! id)) ∧
  ∀ id, x.1 !!! id ≤ base !!! id +
    (if is_some (prior !! id) then 0 else if is_some (x.2 !! id) || bool_decide (extra = Some id) then 1 else 0).
Definition once (x : gmap pystr nat * gmap pystr ToolOutcome) : Prop :=
  ∀ id, x.1 !!! id ≤ base !!! id + (if is_some (prior !! id) then 0 else 1).

Lemma ledger_once extra x : ledger extra x → once x.
Proof. intros [_ H] id. specialize (H id). repeat case_match; lia. Qed.
Lemma ledger_extra id x : ledger None x → ledger (Some id) x.
Proof.
  intros [Hp H]. split; [done|]. intros j. specialize (H j). rewrite bool_decide_eq_false_2, orb_false_r in H by done.
  destruct (is_some (prior !! j)); [done|]. destruct (is_some (x.2 !! j)); [done|]. cbn [orb]. case_match; lia.
Qed.
Lemma ledger_insert id o x : ledger (Some id) x → ledger None (x.1, <[id := o]> x.2).
Proof.
  intros [Hp H]. cbn. split.
  - intros j Hj. cbn [snd]. destruct (decide (j = id)) as [->|]; [by rewrite lookup_insert_eq|].
    rewrite lookup_insert_ne by done. by apply Hp.
  - intros j. cbn [fst snd]. specialize (H j). rewrite (bool_decide_eq_false_2 (None = Some j)), orb_false_r by done.
    destruct (decide (j = id)) as [->|Hne].
    + rewrite lookup_insert_eq. cbn [is_some]. repeat case_match; lia.
    + rewrite lookup_insert_ne by done. rewrite bool_decide_eq_false_2, orb_false_r in H by congruence. exact H.
Qed.
Lemma ledger_stream id x : ledger None x → x.2 !! id = None → ledger (Some id) (<[id := S (x.1 !!! id)]> x.1, x.2).
Proof.
  intros [Hp H] Hid. split; [done|]. intros j. cbn [fst snd]. destruct (decide (j = id)) as [->|Hne].
  - rewrite lookup_total_insert_eq, bool_decide_eq_true_2, orb_true_r by done. specialize (H id).
    rewrite Hid in H. cbn [is_some orb] in H. rewrite bool_decide_eq_false_2 in H by done.
    destruct (prior !! id) eqn:Ep; [|cbn [is_some] in *; lia]. destruct (Hp id) as [? Ho]; [by rewrite Ep|]. congruence.
  - rewrite lookup_total_insert_ne by done. specialize (H j). rewrite bool_decide_eq_false_2, orb_false_r in H by done.
    rewrite bool_decide_eq_false_2, orb_false_r by congruence. exact H.
Qed.

Lemma record_kept {A} (m : eff (TurnState W) A) (φ : gmap pystr nat * gmap pystr ToolOutcome → Prop) :
  frames record m → spec (λ s, φ (record s)) m (λ _ s, φ (record s)) (λ _ s, φ (record s)).
Proof. apply frames_spec. Qed.

Lemma make_event_record run_id payload : frames record (make_event env digest payload_size run_id payload).
Proof. intros s. unfold make_event. by destruct (validate_event _ _ _). Qed.
Lemma append_transcript_record m : frames record (append_transcript m).
Proof. done. Qed.
Lemma with_world_record {A} (g : W → outcome A * W) : (∀ w, runs (g w).2 = runs w) → frames record (with_world g).
Proof. intros Hg s. unfold with_world, record. specialize (Hg (ts_world s)). destruct (g (ts_world s)). cbn in *. by rewrite Hg. Qed.
Hint Resolve make_event_record append_transcript_record : frames.
Hint Extern 3 (frames record (with_world _)) =>
  apply with_world_record; intros; first [by apply runs_create | by apply runs_complete | by apply runs_rollback] : frames.

Lemma append_tool_message_record id r e : frames record (append_tool_message id r e).
Proof. unfold append_tool_message. frames_auto. Qed.
Lemma fail_call_record input call e emitted last :
  frames record (fail_call env digest payload_size input call e emitted last).
Proof. unfold fail_call, failed_event. frames_auto. Qed.
Hint Resolve append_tool_message_record fail_call_record : frames.
Lemma take_checkpoint_record input call :
  frames record (take_checkpoint env redact error_size digest payload_size input call).
Proof. unfold take_checkpoint. frames_auto. Qed.
Lemma output_events_record input call output :
  frames record (output_events env digest payload_size input call output).
Proof. induction output as [|b output IH]; cbn [output_events]; frames_auto. Qed.
Lemma try_rollback_record coordinator c :
  env_checkpoints env = Some coordinator → frames record (try_rollback coordinator c).
Proof. intros. unfold try_rollback. frames_auto. Qed.
Hint Resolve take_checkpoint_record output_events_record try_rollback_record : frames.
Lemma finalize_call_record coordinator call c r :
  env_checkpoints env = Some coordinator → frames record (finalize_call config uuid_text coordinator call c r).
Proof. intros. unfold finalize_call. frames_auto. Qed.
Lemma replay_call_record input item o : frames record (replay_call env digest payload_size input item o).
Proof. unfold replay_call, completion_event. frames_auto. Qed.
Lemma prepare_calls_record outcomes pending calls :
  frames record (_prepare_calls env redact error_size digest outcomes pending calls).
Proof. revert pending. induction calls as [|c calls IH]; intros pending; cbn [_prepare_calls]; frames_auto. Qed.
Lemma reject_calls_record run_id verdict ids : frames record (reject_calls env digest payload_size run_id verdict ids).
Proof. induction ids as [|id ids IH]; cbn [reject_calls]; unfold failed_event; frames_auto. Qed.
Lemma feedback_record invalid : frames record (feedback_invalid invalid).
Proof. unfold feedback_invalid. frames_auto. Qed.
Hint Resolve finalize_call_record replay_call_record prepare_calls_record reject_calls_record feedback_record : frames.
Lemma request_approvals_record input items : frames record (request_approvals env digest payload_size input items).
Proof.
  induction items as [|item items IH]; cbn [request_approvals]; [frames_auto|]. cbv zeta.
  apply frames_bind; [|frames_auto]. apply with_world_record. intros w. rewrite <- (runs_approval w).
  by destruct (env_approval_id env w).
Qed.
Hint Resolve request_approvals_record : frames.

Definition on_ledger (extra : option pystr) (s : TurnState W) : Prop := ledger extra (record s).

(** A call that lets the turn go on has its run on record. *)
Definition call_counted (p : call_progress) (s : TurnState W) : Prop :=
  match p with CallDone _ _ _ => on_ledger None s | TurnOver _ _ => once (record s) end.

Lemma ledger_kept {A} (m : eff (TurnState W) A) extra :
  frames record m → spec (on_ledger extra) m (λ _, on_ledger extra) (λ _ s, once (record s)).
Proof.
  intros Hm. eapply spec_weaken; [apply (record_kept m (ledger extra) Hm)|done|done|]. intros e s. apply ledger_once.
Qed.

Lemma finish_call_counted input item o emitted c plan :
  spec (on_ledger (Some (gtc_id (pc_tool_call item)))) (finish_call env digest payload_size input item o emitted c plan)
    call_counted (λ _ s, once (record s)).
Proof.
  unfold finish_call, completion_event. cbv zeta. apply (spec_bind _ _ _ (λ _, on_ledger None)).
  { intros s Hs. exact (ledger_insert _ o _ Hs). }
  intros []. do 2 (eapply spec_bind; [apply ledger_kept; auto with frames|]; intros ?). by apply spec_ret.
Qed.
Lemma over_counted {A} (m : eff (TurnState W) A) (k : A → call_progress) extra :
  frames record m → (∀ a, match k a with CallDone _ _ _ => False | _ => True end) →
  spec (on_ledger extra) (a ← m; mret (k a)) call_counted (λ _ s, once (record s)).
Proof.
  intros Hm Hk. eapply spec_bind; [by apply ledger_kept|]. intros a. apply spec_ret. intros s Hs. specialize (Hk a).
  unfold call_counted. destruct (k a); [done|]. by eapply ledger_once.
Qed.
Lemma fail_call_counted input call e emitted last extra :
  spec (on_ledger extra) (fail_call env digest payload_size input call e emitted last) call_counted (λ _ s, once (record s)).
Proof.
  unfold fail_call, failed_event. eapply spec_bind; [apply ledger_kept; auto with frames|]. intros e1.
  by apply over_counted; [auto with frames|].
Qed.

Lemma run_tool_counted call run_id c :
  spec (λ s, on_ledger None s ∧ ts_outcomes s !! gtc_id call = None)
    (_run_tool env config redact_text redact error_size call run_id c)
    (λ _, on_ledger (Some (gtc_id call))) (λ _, on_ledger (Some (gtc_id call))).
Proof.
  intros s [Hs Hid]. unfold _run_tool. cbv zeta.
  match goal with |- context [env_stream env ?w call ?context] =>
    pose proof (runs_stream w call context) as Hr; destruct (env_stream env w call context) as [stream w'] end.
  cbn [snd] in Hr. pose proof (ledger_stream (gtc_id call) (record s) Hs Hid) as Hl.
  unfold on_ledger, record. cbn [ts_world ts_outcomes]. rewrite Hr. case_match; exact Hl.
Qed.

Lemma run_checkpointed_counted input call c :
  spec (λ s, on_ledger None s ∧ ts_outcomes s !! gtc_id call = None)
    (run_checkpointed env config redact_text redact error_size uuid_text input call c)
    (λ _, on_ledger (Some (gtc_id call))) (λ _ s, once (record s)).
Proof.
  unfold run_checkpointed. eapply spec_catch; [apply run_tool_counted|]. intros e.
  destruct (env_checkpoints env) as [coordinator|] eqn:Hc.
  - repeat case_match; try (apply spec_raise; intros s; apply ledger_once).
    apply ledger_kept. unfold cancel_with_rollback. frames_auto.
  - repeat case_match; apply spec_raise; intros s; apply ledger_once.
Qed.

Lemma execute_call_counted input item effect :
  spec (λ s, on_ledger None s ∧ ts_outcomes s !! gtc_id (pc_tool_call item) = None)
    (execute_call env config redact_text redact error_size digest payload_size uuid_text input item effect)
    call_counted (λ _ s, once (record s)).
Proof.
  unfold execute_call. cbv zeta. set (id := gtc_id (pc_tool_call item)).
  assert (∀ A (m : eff (TurnState W) A), frames record m →
    spec (λ s, on_ledger None s ∧ ts_outcomes s !! id = None) m
      (λ _ s, on_ledger None s ∧ ts_outcomes s !! id = None) (λ _ s, once (record s))) as Hkeep.
  { intros A m Hm. eapply spec_weaken; [apply (record_kept m (λ x, ledger None x ∧ x.2 !! id = None) Hm)|done|done|].
    intros e s []. by eapply ledger_once. }
  apply (spec_bind _ _ _ (λ r s, (on_ledger None s ∧ ts_outcomes s !! id = None) ∧
                                 match r with inr (CallDone _ _ _) => False | _ => True end)).
  { destruct (side_effecting effect); [|by apply spec_ret].
    intros s Hs. pose proof (Hkeep _ _ (take_checkpoint_record input (pc_tool_call item)) s Hs) as Ht.
    unfold mbind at 1, eff_bind. destruct (take_checkpoint _ _ _ _ _ _ _ s) as [[[[c e]|q]|e] s'] eqn:E; [done| |done].
    split; [done|]. by eapply take_checkpoint_over. }
  intros [[checkpoint emitted]|q]; [|apply spec_ret; intros s [[Hs _] Hq]; destruct q; [done|by eapply ledger_once]].
  apply spec_assume. intros _.
  eapply spec_bind; [apply Hkeep; auto with frames|]. intros started.
  eapply spec_bind; [apply run_checkpointed_counted|]. intros run.
  eapply spec_bind; [apply ledger_kept; auto with frames|]. intros outputs.
  destruct (env_checkpoints env) as [coordinator|] eqn:Hc.
  - destruct checkpoint as [c|], (trr_error run) as [error_|], (trr_result run);
      turn_step finish_call_counted fail_call_counted ltac:(apply ledger_kept; auto with frames)
        ltac:(apply spec_raise; intros s; apply ledger_once).
  - destruct checkpoint as [c|], (trr_error run) as [error_|], (trr_result run);
      turn_step finish_call_counted fail_call_counted ltac:(apply ledger_kept; auto with frames)
        ltac:(apply spec_raise; intros s; apply ledger_once).
Qed.

Lemma run_call_counted input item :
  spec (on_ledger None)
    (run_call env config redact_text redact error_size digest payload_size uuid_text input item)
    call_counted (λ _ s, once (record s)).
Proof.
  unfold run_call. eapply spec_bind; [apply spec_gets|]. intros outcomes. cbv zeta.
  destruct (outcomes !! gtc_id (pc_tool_call item)) as [prior_|] eqn:Ho.
  { eapply spec_weaken; [apply (ledger_kept _ None), replay_call_record|by intros s []| |done].
    intros p s Hs. unfold call_counted. destruct p; [done|]. by eapply ledger_once. }
  eapply (spec_weaken _ (λ s, on_ledger None s ∧ ts_outcomes s !! gtc_id (pc_tool_call item) = None));
    [|intros s [Hs ->]; by split|intros p s H; exact H|intros e s H; exact H].
  repeat case_match; try apply execute_call_counted; try (apply spec_raise; intros s []; by eapply ledger_once);
    unfold deny_call, answer_call; cbv zeta;
    (eapply spec_weaken; [apply finish_call_counted|intros s [Hs _]; by apply ledger_extra|done|done]).
Qed.

(** A turn after which the run goes on has all its runs on record. *)
Definition turn_counted (r : ToolTurnReport) (s : TurnState W) : Prop :=
  once (record s) ∧ (rep_terminal r = false → on_ledger None s).

Lemma turn_counted_ledger r s : on_ledger None s → turn_counted r s.
Proof. intros Hs. split; [by eapply ledger_once|done]. Qed.

Lemma run_calls_counted input items emitted last plan :
  spec (on_ledger None)
    (run_calls env config redact_text redact error_size digest payload_size uuid_text input emitted last plan items)
    turn_counted (λ _ s, once (record s)).
Proof.
  revert emitted last plan. induction items as [|item items IH]; intros emitted last plan; cbn [run_calls].
  { apply spec_ret. intros s. apply turn_counted_ledger. }
  eapply spec_bind; [apply run_call_counted|]. intros [events c p|events c]; [apply IH|]. by apply spec_ret.
Qed.

Lemma default_outcome_ledger id o :
  spec (on_ledger None) (default_outcome id o) (λ _, on_ledger None) (λ _ s, once (record s)).
Proof.
  intros s Hs. unfold default_outcome, modify, on_ledger, record. cbn [ts_world ts_outcomes].
  destruct (ts_outcomes s !! id); [exact Hs|]. by apply (ledger_insert id o (record s)), ledger_extra.
Qed.
Lemma fail_invalid_ledger run_id verdict keep invalid :
  spec (on_ledger None) (fail_invalid env digest payload_size run_id verdict keep invalid)
    (λ _, on_ledger None) (λ _ s, once (record s)).
Proof.
  induction invalid as [|c invalid IH]; cbn [fail_invalid]; [by apply spec_ret|].
  eapply spec_bind; [apply ledger_kept; unfold failed_event; auto with frames|]. intros e.
  eapply (spec_bind _ _ _ (λ _, on_ledger None)); [destruct keep; [apply default_outcome_ledger|by apply spec_ret]|].
  intros []. eapply spec_bind; [apply IH|]. intros more. by apply spec_ret.
Qed.
Lemma reject_prepared_ledger run_id rejected items :
  spec (on_ledger None) (reject_prepared env digest payload_size run_id rejected items)
    (λ _, on_ledger None) (λ _ s, once (record s)).
Proof.
  induction items as [|item items IH]; cbn [reject_prepared]; [by apply spec_ret|]. cbv zeta.
  eapply spec_bind; [apply default_outcome_ledger|]. intros [].
  eapply spec_bind; [apply ledger_kept; unfold failed_event; auto with frames|]. intros e.
  eapply spec_bind; [apply ledger_kept; auto with frames|]. intros [].
  eapply spec_bind; [apply IH|]. intros more. by apply spec_ret.
Qed.

Lemma execute_counted input calls invalid retries :
  spec (on_ledger None)
    (execute env config redact_text redact error_size digest payload_size uuid_text input calls invalid retries)
    turn_counted (λ _ s, once (record s)).
Proof.
  unfold execute. eapply spec_bind; [apply ledger_kept; auto with frames|]. intros outcomes.
  destruct (_find_id_conflict _ _ _ _) as [conflict|].
  { unfold _reject_conflicting_turn. cbv zeta. eapply spec_bind; [apply ledger_kept; auto with frames|]. intros e1.
    eapply spec_bind; [apply fail_invalid_ledger|]. intros e2.
    do 2 (eapply spec_bind; [apply ledger_kept; auto with frames|]; intros ?). apply spec_ret.
    intros s. apply turn_counted_ledger. }
  eapply spec_bind; [apply ledger_kept; auto with frames|]. intros items. destruct (negb (is_nil invalid) || _).
  - unfold _reject_invalid_turn. cbv zeta. eapply spec_bind; [apply reject_prepared_ledger|]. intros e1.
    eapply spec_bind; [apply fail_invalid_ledger|]. intros e2.
    eapply spec_bind; [apply ledger_kept; auto with frames|]. intros [].
    eapply spec_bind; [apply ledger_kept; frames_auto|]. intros e3. apply spec_ret. intros s. apply turn_counted_ledger.
  - case_match; [|apply run_calls_counted]. eapply spec_bind; [apply ledger_kept; auto with frames|]. intros events.
    apply spec_ret. intros s. apply turn_counted_ledger.
Qed.
End Executions.

End History.
