(* ===== verification/ToolTurnEvents.v ===== *)
(** * The events of a tool turn

    A turn reports its events in the order it made them, under increasing sequence
    numbers, and a turn that ends the run ends with the event that says so. *)

From stdpp Require Import base list sets gmap strings.
From Stdlib Require Import ZArith Lia.
From S2P Require Import Prelude PyBase Domain Tables Contracts Transcripts Execution Recovery TaskPlans PyText Gateway AgentEvents PyEffects ToolTurn.

(** ** Numbered events *)

(** Sequence numbers grow strictly, from above [n] up to [m]. *)
Fixpoint numbered (n : Z) (events : list AgentEvent) (m : Z) : Prop :=
  match events with
  | [] => (n <= m)%Z
  | e :: rest => (n < ev_sequence e)%Z ∧ numbered (ev_sequence e) rest m
  end.

Lemma numbered_le n events m : numbered n events m → (n <= m)%Z.
Proof. revert n. induction events as [|e events IH]; intros n; cbn; [done|]. intros [? H%IH]. lia. Qed.
Lemma numbered_app n l k l' m : numbered n l k → numbered k l' m → numbered n (l ++ l') m.
Proof.
  revert n. induction l as [|e l IH]; intros n; cbn [app numbered].
  - intros Hn. destruct l' as [|e' l']; cbn [numbered]; [lia|]. intros [? ?]. split; [lia|done].
  - intros [? ?] ?. split; [done|]. by apply IH.
Qed.
Lemma numbered_weaken n events m m' : numbered n events m → (m <= m')%Z → numbered n events m'.
Proof. intros H Hm. rewrite <- (app_nil_r events). by eapply numbered_app. Qed.
Lemma numbered_bounds n events m e : numbered n events m → e ∈ events → (n < ev_sequence e <= m)%Z.
Proof.
  revert n. induction events as [|e' events IH]; intros n; cbn [numbered]; [by intros _ ?%elem_of_nil|].
  intros [Hn H]. pose proof (numbered_le _ _ _ H). intros [->|He]%elem_of_cons; [lia|]. specialize (IH _ H He). lia.
Qed.
Lemma numbered_NoDup n events m : numbered n events m → NoDup (ev_sequence <$> events).
Proof.
  revert n. induction events as [|e events IH]; intros n; cbn [numbered]; [constructor|].
  intros [_ H]. rewrite fmap_cons. constructor; [|by eapply IH].
  rewrite list_elem_of_fmap. intros (e' & E & He). pose proof (numbered_bounds _ _ _ _ H He). lia.
Qed.

(** ** How events end a run *)

Definition ends_run (p : AgentPayload) : bool :=
  match p with RunCompleted _ _ | RunFailed _ => true | _ => false end.
(** A tool turn stops the run by a failure or by asking for an approval. *)
Definition stops (p : AgentPayload) : bool :=
  match p with RunFailed _ | ToolApprovalRequired _ _ _ _ _ _ => true | _ => false end.

(** No event of the list ends the run. *)
Definition open_events (events : list AgentEvent) : Prop := Forall (λ e, ends_run (ev_payload e) = false) events.
(** The last event is one of [P], and none before it ends the run. *)
Definition closed_by (P : AgentPayload → bool) (events : list AgentEvent) : Prop :=
  ∃ before e, events = before ++ [e] ∧ open_events before ∧ P (ev_payload e) = true.

Lemma open_app l l' : open_events (l ++ l') ↔ open_events l ∧ open_events l'.
Proof. apply Forall_app. Qed.
Lemma closed_app P l l' : open_events l → closed_by P l' → closed_by P (l ++ l').
Proof.
  intros Hl (before & e & -> & Hb & He). exists (l ++ before), e. split_and!; [by rewrite app_assoc| |done].
  apply open_app. by split.
Qed.
Lemma closed_weaken (P P' : AgentPayload → bool) l : (∀ p, P p = true → P' p = true) → closed_by P l → closed_by P' l.
Proof. intros HP (before & e & -> & Hb & He). exists before, e. auto. Qed.

Lemma validate_payload_kind digest p p' :
  validate_payload digest p = Ok p' → ends_run p' = ends_run p ∧ stops p' = stops p.
Proof. intros H. destruct p; cbn [validate_payload] in H; run_inv H; done. Qed.

Section Events.
Context {W : Type}.
Variable env : ToolEnvironment W.
Variable config : AgentLoopConfig.
Variable redact_text : pystr → pystr.
Variable redact : json → json.
Variable error_size : ErrorDetail → Z.
Variable digest : json → pystr.
Variable payload_size : AgentPayload → Z.
Variable uuid_text : uuid → pystr.

(** [reports before m h Q]: after the events [before], a return of [m] reports the
    events [h], numbered in order, with [Q]. *)
Definition reports {A} (before : list AgentEvent) (m : eff (TurnState W) A) (h : A → list AgentEvent) (Q : A → Prop)
    : Prop :=
  ∀ n s a s', numbered n before (ts_sequence s) → m s = (Ret a, s') → numbered n (h a) (ts_sequence s') ∧ Q a.

Lemma reports_ret {A} before (a : A) h (Q : A → Prop) : h a = before → Q a → reports before (mret a) h Q.
Proof. intros <- HQ n s b s' Hn [= <- <-]. by split. Qed.
Lemma reports_raise {A} before e h (Q : A → Prop) : reports before (raise e) h Q.
Proof. intros n s b s' Hn [=]. Qed.
Lemma reports_silent {A B} before (m : eff (TurnState W) A) (k : A → eff (TurnState W) B) h Q :
  frames ts_sequence m → (∀ a, reports before (k a) h Q) → reports before (m ≫= k) h Q.
Proof.
  intros Hm Hk n s b s' Hn H. apply eff_bind_Ret in H as (a & s1 & H1 & H). specialize (Hm s). rewrite H1 in Hm.
  cbn in Hm. eapply Hk; [|done]. by rewrite Hm.
Qed.
Lemma reports_sub {A B} before (m : eff (TurnState W) A) (k : A → eff (TurnState W) B) f Q' h Q :
  reports [] m f Q' → (∀ a, Q' a → reports (before ++ f a) (k a) h Q) → reports before (m ≫= k) h Q.
Proof.
  intros Hm Hk n s b s' Hn H. apply eff_bind_Ret in H as (a & s1 & H1 & H).
  destruct (Hm (ts_sequence s) s a s1 (Z.le_refl _) H1) as [Ha HQ]. eapply Hk; [done| |done]. by eapply numbered_app.
Qed.
Lemma reports_weaken {A} before (m : eff (TurnState W) A) h (Q Q' : A → Prop) :
  reports before m h Q' → (∀ a, Q' a → Q a) → reports before m h Q.
Proof. intros Hm HQ n s a s' Hn H. destruct (Hm n s a s' Hn H). auto. Qed.

Definition same_kind (p : AgentPayload) (e : AgentEvent) : Prop :=
  ends_run (ev_payload e) = ends_run p ∧ stops (ev_payload e) = stops p.

Lemma make_event_reports run_id p :
  reports [] (make_event env digest payload_size run_id p) (λ e, [e]) (same_kind p).
Proof.
  intros n s e s' Hn H. cbn in Hn. unfold make_event in H. destruct (validate_event _ _ _) as [e'|] eqn:E; [|done].
  injection H as -> <-. unfold validate_event in E. apply bind_Ok in E as (? & _ & E). apply bind_Ok in E as (p' & Hp & E).
  apply bind_Ok in E as (? & _ & [= <-]). apply validate_payload_kind in Hp. cbn. split; [lia|done].
Qed.
Lemma reports_event {B} before run_id p (k : AgentEvent → eff (TurnState W) B) h Q :
  (∀ e, same_kind p e → reports (before ++ [e]) (k e) h Q) →
  reports before (make_event env digest payload_size run_id p ≫= k) h Q.
Proof. intros Hk. eapply reports_sub; [apply make_event_reports|done]. Qed.

Lemma modify_sequence g : (∀ s : TurnState W, ts_sequence (g s) = ts_sequence s) → frames ts_sequence (modify g).
Proof. intros Hg s. apply Hg. Qed.
Lemma with_world_sequence {A} (g : W → outcome A * W) : frames ts_sequence (with_world g).
Proof. intros s. unfold with_world. by destruct (g (ts_world s)). Qed.
Lemma run_tool_sequence call run_id c :
  frames ts_sequence (_run_tool env config redact_text redact error_size call run_id c).
Proof. intros s. unfold _run_tool. by destruct (env_stream _ _ _ _). Qed.
Hint Resolve with_world_sequence run_tool_sequence : frames.
Hint Extern 1 (frames ts_sequence (append_transcript _)) => by apply modify_sequence : frames.
Hint Extern 1 (frames ts_sequence (set_outcome _ _)) => by apply modify_sequence : frames.
Hint Extern 1 (frames ts_sequence (default_outcome _ _)) => by apply modify_sequence : frames.

Lemma append_tool_message_sequence id r e : frames (ts_sequence (W := W)) (append_tool_message id r e).
Proof. unfold append_tool_message. frames_auto. Qed.
Lemma run_checkpointed_sequence input call c :
  frames ts_sequence (run_checkpointed env config redact_text redact error_size uuid_text input call c).
Proof. unfold run_checkpointed, cancel_with_rollback. frames_auto. Qed.
Lemma try_rollback_sequence coordinator c : frames (ts_sequence (W := W)) (try_rollback coordinator c).
Proof. unfold try_rollback. frames_auto. Qed.
Hint Resolve append_tool_message_sequence run_checkpointed_sequence try_rollback_sequence : frames.
Lemma finalize_call_sequence coordinator call c r :
  frames (ts_sequence (W := W)) (finalize_call config uuid_text coordinator call c r).
Proof. unfold finalize_call. frames_auto. Qed.
Lemma prepare_calls_sequence outcomes pending calls :
  frames ts_sequence (_prepare_calls env redact error_size digest outcomes pending calls).
Proof. revert pending. induction calls as [|c calls IH]; intros pending; cbn [_prepare_calls]; frames_auto. Qed.
Lemma feedback_sequence invalid : frames (ts_sequence (W := W)) (feedback_invalid invalid).
Proof. unfold feedback_invalid. frames_auto. Qed.
Hint Resolve finalize_call_sequence prepare_calls_sequence feedback_sequence : frames.

Lemma reports_catch {A} before (m : eff (TurnState W) A) handler h (Q : A → Prop) :
  frames ts_sequence m → (∀ s a s', m s = (Ret a, s') → h a = before ∧ Q a) →
  (∀ e, reports before (handler e) h Q) → reports before (catch m handler) h Q.
Proof.
  intros Hm Hret Hh n s a s' Hn H. specialize (Hm s). unfold catch in H. destruct (m s) as [[b|e] s1] eqn:E; cbn in Hm.
  - injection H as -> <-. destruct (Hret _ _ _ E) as [-> HQ]. by rewrite Hm.
  - eapply Hh; [|done]. by rewrite Hm.
Qed.

(** ** Calls *)

Definition progress_events (p : call_progress) : list AgentEvent :=
  match p with CallDone events _ _ => events | TurnOver events _ => events end.
Definition progress_ok (p : call_progress) : Prop :=
  match p with CallDone events _ _ => open_events events | TurnOver events _ => closed_by stops events end.

Lemma fail_call_reports input call error_ emitted before :
  open_events emitted →
  reports emitted (fail_call env digest payload_size input call error_ emitted before) progress_events
    (λ p, progress_ok p ∧ ∃ events last, p = TurnOver events last).
Proof.
  intros Hopen. unfold fail_call, failed_event. apply reports_event. intros e1 [H1 _]. apply reports_event. intros e2 [_ H2].
  apply reports_ret; cbn [progress_events]; [by rewrite <- app_assoc|]. split; [|eauto].
  exists (emitted ++ [e1]), e2. split_and!; [by rewrite <- app_assoc| |done].
  apply open_app. split; [done|]. by constructor.
Qed.
Lemma finish_call_reports input item o emitted c plan :
  open_events emitted →
  reports emitted (finish_call env digest payload_size input item o emitted c plan) progress_events progress_ok.
Proof.
  intros Hopen. unfold finish_call, completion_event. cbv zeta. apply reports_silent; [auto with frames|]. intros [].
  apply reports_event. intros e [He _]. apply reports_silent; [auto with frames|]. intros []. apply reports_ret; [done|].
  apply open_app. split; [done|]. by constructor.
Qed.
Lemma replay_call_reports input item o :
  reports [] (replay_call env digest payload_size input item o) progress_events progress_ok.
Proof.
  unfold replay_call, completion_event. cbv zeta. apply reports_event. intros e [He _].
  apply reports_silent; [auto with frames|]. intros []. apply reports_ret; [done|]. by constructor.
Qed.
Lemma output_events_reports input call output :
  reports [] (output_events env digest payload_size input call output) id open_events.
Proof.
  induction output as [|b output IH]; cbn [output_events]; [apply reports_ret; [done|constructor]|].
  apply reports_event. intros e [He _]. eapply reports_sub; [apply IH|]. intros more Hmore. apply reports_ret; [done|].
  by constructor.
Qed.

(** The events of a checkpoint step *)
Definition taken_events {A} (f : A → list AgentEvent) (r : A + call_progress) : list AgentEvent :=
  match r with inl a => f a | inr p => progress_events p end.
Definition taken_ok {A} (f : A → list AgentEvent) (r : A + call_progress) : Prop :=
  match r with inl a => open_events (f a) | inr p => closed_by stops (progress_events p) ∧ ∃ ev l, p = TurnOver ev l end.

Lemma fail_call_taken {A} input call d (f : A → list AgentEvent) :
  reports [] (p ← fail_call env digest payload_size input call d [] None; mret (inr p)) (taken_events f) (taken_ok f).
Proof.
  eapply reports_sub; [apply fail_call_reports; constructor|]. intros p [Hp (events & last & ->)].
  apply reports_ret; [done|]. split; [exact Hp|eauto].
Qed.

Lemma take_checkpoint_reports input call :
  reports [] (take_checkpoint env redact error_size digest payload_size input call)
    (taken_events (λ x, [x.2])) (taken_ok (λ x, [x.2])).
Proof.
  unfold take_checkpoint. destruct (env_checkpoints env) as [coordinator|]; [|apply fail_call_taken].
  apply reports_silent; [auto with frames|]. intros transcript.
  eapply (reports_sub _ _ _ (taken_events (λ _ : Checkpoint, [])) (taken_ok (λ _ : Checkpoint, []))).
  - apply reports_catch; [frames_auto| |].
    + intros s a s' H. apply eff_bind_Ret in H as (c & s1 & _ & [= <- <-]). split; [done|constructor].
    + intros [d| | |]; [|apply fail_call_taken|apply reports_raise|apply fail_call_taken].
      apply reports_silent; [auto with frames|]. intros safe. apply fail_call_taken.
  - intros [c|p]; cbn [taken_events taken_ok].
    + intros _. destruct (negb _); [apply fail_call_taken|]. apply reports_event. intros e [He _].
      apply reports_ret; [done|]. by constructor.
    + intros Hp. by apply reports_ret.
Qed.

Lemma execute_call_reports input item effect :
  reports [] (execute_call env config redact_text redact error_size digest payload_size uuid_text input item effect)
    progress_events progress_ok.
Proof.
  unfold execute_call. cbv zeta.
  eapply (reports_sub _ _ _ (taken_events snd) (taken_ok (snd : option Checkpoint * list AgentEvent → _))).
  { destruct (side_effecting effect); [|apply reports_ret; [done|constructor]].
    eapply reports_sub; [apply take_checkpoint_reports|]. intros [[c e]|p] H; by apply reports_ret. }
  intros [[checkpoint emitted]|p]; cbn [taken_events taken_ok snd app]; [|intros [H (? & ? & ->)]; by apply reports_ret].
  intros Hopen. apply reports_event. intros started [Hs _]. apply reports_silent; [auto with frames|]. intros run.
  eapply reports_sub; [apply output_events_reports|]. intros outputs Ho. rewrite <- app_assoc. cbn [id app].
  assert (open_events (emitted ++ started :: outputs)) as Hemitted by (apply open_app; split; [done|by constructor]).
  generalize dependent (emitted ++ started :: outputs). intros all Hall.
  assert (∀ error_ last, reports all (fail_call env digest payload_size input (pc_tool_call item) error_ all last)
    progress_events progress_ok) as Hfail.
  { intros error_ before. eapply reports_weaken; [by apply fail_call_reports|]. by intros p []. }
  destruct checkpoint as [c|], (env_checkpoints env) as [coordinator|], (trr_error run) as [error_|], (trr_result run);
    lazymatch goal with
    | |- reports _ (finish_call _ _ _ _ _ _ _ _ _) _ _ => by apply finish_call_reports
    | |- reports _ (raise _) _ _ => apply reports_raise
    | |- _ => idtac
    end;
    (apply reports_silent; [auto with frames|]; intros a; destruct a; first [apply Hfail|by apply finish_call_reports]).
Qed.

Lemma run_call_reports input item :
  reports [] (run_call env config redact_text redact error_size digest payload_size uuid_text input item)
    progress_events progress_ok.
Proof.
  unfold run_call. apply reports_silent; [auto with frames|]. intros outcomes. cbv zeta.
  assert (∀ o, reports [] (finish_call env digest payload_size input item o [] None None) progress_events progress_ok)
    as Hfinish by (intros o; apply finish_call_reports; constructor).
  destruct (outcomes !! _); [apply replay_call_reports|].
  destruct (ti_approval_decisions input !! _) as [[|]|];
    [|apply Hfinish|]; (destruct (pc_prepared item) as [[]|]; [..|apply reports_raise];
    lazymatch goal with |- reports _ (answer_call _ _ _ _ _) _ _ => apply Hfinish | |- _ => apply execute_call_reports end).
Qed.

(** ** Turns *)

Definition report_ok (r : ToolTurnReport) : Prop :=
  if rep_terminal r then closed_by stops (rep_events r) else open_events (rep_events r).

Lemma run_calls_reports input items emitted last plan :
  open_events emitted →
  reports emitted
    (run_calls env config redact_text redact error_size digest payload_size uuid_text input emitted last plan items)
    rep_events report_ok.
Proof.
  revert emitted last plan. induction items as [|item items IH]; intros emitted last plan Hopen; cbn [run_calls].
  { by apply reports_ret. }
  eapply reports_sub; [apply run_call_reports|]. intros [events c p|events c] Hp; cbn [progress_events progress_ok] in *.
  - apply IH. by apply open_app.
  - apply reports_ret; [done|]. by apply closed_app.
Qed.

Lemma reject_calls_reports run_id verdict ids :
  reports [] (reject_calls env digest payload_size run_id verdict ids) id open_events.
Proof.
  induction ids as [|i ids IH]; cbn [reject_calls]; [apply reports_ret; [done|constructor]|]. unfold failed_event.
  apply reports_event. intros e [He _]. apply reports_silent; [auto with frames|]. intros [].
  eapply reports_sub; [apply IH|]. intros more Hm. apply reports_ret; [done|]. by constructor.
Qed.
Lemma fail_invalid_reports run_id verdict keep invalid :
  reports [] (fail_invalid env digest payload_size run_id verdict keep invalid) id open_events.
Proof.
  induction invalid as [|c invalid IH]; cbn [fail_invalid]; [apply reports_ret; [done|constructor]|]. unfold failed_event.
  apply reports_event. intros e [He _]. apply reports_silent; [destruct keep; auto with frames|]. intros [].
  eapply reports_sub; [apply IH|]. intros more Hm. apply reports_ret; [done|]. by constructor.
Qed.
Lemma reject_prepared_reports run_id rejected items :
  reports [] (reject_prepared env digest payload_size run_id rejected items) id open_events.
Proof.
  induction items as [|item items IH]; cbn [reject_prepared]; [apply reports_ret; [done|constructor]|]. cbv zeta.
  apply reports_silent; [auto with frames|]. intros []. unfold failed_event.
  apply reports_event. intros e [He _]. apply reports_silent; [auto with frames|]. intros [].
  eapply reports_sub; [apply IH|]. intros more Hm. apply reports_ret; [done|]. by constructor.
Qed.
Lemma request_approvals_reports input items :
  reports [] (request_approvals env digest payload_size input items) id
    (λ events, length events = length items ∧ open_events events ∧
               Forall (λ e, stops (ev_payload e) = true) events).
Proof.
  induction items as [|item items IH]; cbn [request_approvals]; [apply reports_ret; [done|by split_and!; constructor]|].
  cbv zeta. apply reports_silent; [auto with frames|]. intros approval_id. apply reports_event. intros e [H1 H2].
  eapply reports_sub; [apply IH|]. intros more (Hl & Ho & Ha). apply reports_ret; [done|].
  split_and!; [cbn; by rewrite Hl|by constructor|by constructor].
Qed.

Lemma approvals_close events :
  events ≠ [] → open_events events → Forall (λ e, stops (ev_payload e) = true) events → closed_by stops events.
Proof.
  intros Hne Ho Ha. destruct (exists_last Hne) as (before & e & ->). exists before, e.
  apply open_app in Ho as [Hb _]. apply Forall_app in Ha as [_ Ha]. split_and!; [done|done|].
  by apply Forall_inv in Ha.
Qed.

(** Every report of a turn is numbered, and says whether it ends the run. *)
Lemma execute_reports input calls invalid retries :
  reports [] (execute env config redact_text redact error_size digest payload_size uuid_text input calls invalid retries)
    rep_events report_ok.
Proof.
  unfold execute. apply reports_silent; [auto with frames|]. intros outcomes.
  destruct (_find_id_conflict _ _ _ _) as [conflict|].
  { unfold _reject_conflicting_turn. cbv zeta. eapply reports_sub; [apply reject_calls_reports|]. intros e1 H1.
    eapply reports_sub; [apply fail_invalid_reports|]. intros e2 H2. apply reports_silent; [auto with frames|]. intros [].
    apply reports_event. intros e3 [_ H3]. apply reports_ret; [cbn [id app rep_events]; by rewrite <- app_assoc|].
    exists (e1 ++ e2), e3. split_and!; [cbn [rep_events]; by rewrite <- app_assoc|by apply open_app|done]. }
  apply reports_silent; [auto with frames|]. intros items. destruct (negb (is_nil invalid) || _).
  - unfold _reject_invalid_turn. cbv zeta. eapply reports_sub; [apply reject_prepared_reports|]. intros e1 H1.
    eapply reports_sub; [apply fail_invalid_reports|]. intros e2 H2. apply reports_silent; [auto with frames|]. intros [].
    cbn [id app]. destruct (_ <? _)%Z.
    + eapply (reports_sub _ _ _ id (λ l, ∃ e, l = [e] ∧ stops (ev_payload e) = true)).
      { apply reports_event. intros e [_ He]. apply reports_ret; [done|]. by exists e. }
      intros e3 (e & -> & He). apply reports_ret; [cbn [id rep_events]; by rewrite <- app_assoc|].
      exists (e1 ++ e2), e. split_and!; [cbn [rep_events]; by rewrite <- app_assoc|by apply open_app|done].
    + eapply (reports_sub _ _ _ id (λ l, l = [])); [by apply reports_ret|]. intros e3 ->.
      apply reports_ret; [cbn [id rep_events]; by rewrite !app_nil_r|].
      unfold report_ok. cbn [rep_terminal rep_events]. rewrite app_nil_r. by apply open_app.
  - destruct (negb (is_nil _)) eqn:Hawait; [|apply run_calls_reports; constructor].
    eapply reports_sub; [apply request_approvals_reports|]. intros events (Hl & Ho & Ha). apply reports_ret; [done|].
    apply approvals_close; [|done|done]. cbn [rep_events]. intros ->. destruct (filter _ _) in Hl, Hawait; done.
Qed.

End Events.
