(* ===== verification/ModelTurnProperties.v ===== *)
(** * Properties of model turns

    Text is cut into the longest pieces that fit an event, and nothing is lost; a turn
    that ends well kept its text and its calls within the limits. *)

From stdpp Require Import base list sets gmap strings.
From Stdlib Require Import ZArith Lia.
From S2P Require Import Prelude PyBase Domain Tables Contracts Transcripts Execution Recovery TaskPlans PyText Gateway AgentEvents PyEffects ToolTurn ModelTurn.

(** ** Cutting text *)

Section Chunks.
Variable fits : pystr → bool.
(** One character always fits. *)
Hypothesis fits_one : ∀ c, fits [c] = true.

Lemma search_prefix_best fuel t lower upper :
  t ≠ [] → 1 ≤ lower → lower ≤ S upper → upper < length t → S upper - lower ≤ fuel →
  fits (take (pred lower) t) = true ∨ lower = 1 → fits (take (S upper) t) = false →
  let best := search_prefix fuel fits t lower upper (pred lower) in
  best < length t ∧ (fits (take best t) = true ∨ best = 0) ∧ fits (take (S best) t) = false.
Proof.
  intros Ht. revert lower upper. induction fuel as [|fuel IH]; intros lower upper H1 H2 H3 Hfuel Hlow Hup; cbn [search_prefix].
  - assert (S upper = lower) as <- by lia. cbn. split_and!; [lia|destruct Hlow; [by left|right; lia]|done].
  - destruct (Nat.leb_spec lower upper).
    + pose proof (Nat.div2_odd (lower + upper)) as Hm. set (middle := Nat.div2 (lower + upper)) in *.
      assert (lower ≤ middle ≤ upper) as [Hl Hu] by (destruct (Nat.odd (lower + upper)); cbn [Nat.b2n] in Hm; lia).
      destruct (fits (take middle t)) eqn:E.
      * change middle with (pred (S middle)) at 2. apply IH; try lia; [by left|done].
      * apply IH; try lia; [done|]. by rewrite Nat.succ_pred by lia.
    + assert (S upper = lower) as <- by lia. cbn. split_and!; [lia|destruct Hlow; [by left|right; lia]|done].
Qed.

Definition maximal (chunks : list pystr) : Prop :=
  ∀ i c x d, chunks !! i = Some c → chunks !! S i = Some (x :: d) → fits (c ++ [x]) = false.

Lemma model_text_chunks_ok fuel t :
  length t ≤ fuel →
  ∃ chunks, model_text_chunks fuel fits t = (chunks, true) ∧ mjoin chunks = t ∧
    Forall (λ c, c ≠ [] ∧ fits c = true) chunks ∧ maximal chunks.
Proof.
  revert t. induction fuel as [|fuel IH]; intros t Hlen.
  { destruct t; [|cbn in Hlen; lia]. exists []. by split_and!; [..|constructor|]. }
  destruct t as [|c t]; [exists []; by split_and!; [..|constructor|]|]. cbn [model_text_chunks]. set (v := c :: t) in *.
  destruct (fits v) eqn:Ev.
  { exists [v]. split_and!; [done|apply app_nil_r|by repeat constructor|]. by intros [|i] ? ? ?. }
  assert (2 ≤ length v) as H2.
  { destruct t; [|cbn; lia]. unfold v in Ev. by rewrite fits_one in Ev. }
  destruct (search_prefix_best (length v) v 1 (length v - 1)) as (Hb & Hf & Hnext); try lia; [done| |].
  { by rewrite take_ge by lia. }
  cbn [pred] in *. set (best := search_prefix _ _ _ _ _ _) in *.
  destruct (Nat.eqb_spec best 0) as [E0|Hne].
  { exfalso. rewrite E0 in Hnext. unfold v in Hnext. cbn [take] in Hnext. by rewrite fits_one in Hnext. }
  destruct (IH (drop best v)) as (chunks & Hc & Hj & Hall & Hmax).
  { rewrite length_drop. lia. }
  rewrite Hc. exists (take best v :: chunks). split_and!; [done| | |].
  - change (take best v ++ mjoin chunks = v). by rewrite Hj, take_drop.
  - constructor; [|done]. destruct Hf as [Hf|]; [|done]. split; [|done]. intros E. apply (f_equal length) in E.
    rewrite length_take in E. cbn [length] in E. lia.
  - intros [|i] c' x d; cbn [lookup list_lookup]; [|apply Hmax]. intros [= <-] Hx.
    destruct chunks as [|c1 chunks]; [done|]. injection Hx as ->.
    assert (drop best v = x :: (d ++ mjoin chunks)) as Hd by (by rewrite <- Hj).
    assert (take (S best) v = take best v ++ [x]) as <-; [|done].
    rewrite <- (take_drop best v) at 1. rewrite take_app_ge, Hd by (rewrite length_take; lia).
    rewrite length_take, Nat.min_l by lia. by replace (S best - best) with 1 by lia.
Qed.
End Chunks.

(** Text chunks: when one character fits an event, the streamed text is cut into non-empty pieces that fit, the pieces in order are the text, no
    piece could have held one character more, and the generator ends without its assertion. *)
Theorem text_chunks_reassemble payload_size model_call_id value :
  (∀ c, (payload_size (ModelTextDelta model_call_id [c]) <= MAX_EVENT_PAYLOAD_BYTES)%Z) →
  ∃ chunks, _model_text_chunks (_model_text_payload_fits payload_size model_call_id) value = (chunks, true) ∧
    mjoin chunks = value ∧
    Forall (λ c, c ≠ [] ∧ (payload_size (ModelTextDelta model_call_id c) <= MAX_EVENT_PAYLOAD_BYTES)%Z) chunks ∧
    maximal (_model_text_payload_fits payload_size model_call_id) chunks.
Proof.
  intros Hone. set (fits := _model_text_payload_fits payload_size model_call_id).
  assert (∀ c, fits [c] = true) as H1 by (intros c; apply Z.leb_le, Hone).
  destruct (model_text_chunks_ok fits H1 (length value) value (Nat.le_refl _)) as (chunks & Hc & Hj & Hall & Hmax).
  exists chunks. split_and!; [done|done| |done]. eapply Forall_impl; [exact Hall|]. intros c [Hne Hf].
  split; [done|]. by apply Z.leb_le.
Qed.
