(* ===== verification/AgentLoopProperties.v ===== *)
(** * Properties of the agent loop

    Whatever the model and the tools do, a run that returns has yielded numbered
    events of which exactly the last ends it or waits for an approval; no call
    identifier is executed twice; and success is reported only after the whole
    transcript is journaled. *)

From stdpp Require Import base list sets gmap strings.
From Stdlib Require Import ZArith Lia.
From S2P Require Import Prelude PyBase Domain Tables Contracts Transcripts Execution Recovery TaskPlans PyText Gateway AgentEvents PyEffects ToolTurn ModelTurn AgentLoop ToolTurnHistory ToolTurnEvents.

Lemma lift_spec {W A} (m : eff (TurnState W) A) P Q E :
  spec P m Q E → spec (λ s, P (ls_turn s)) (lift m) (λ a s, Q a (ls_turn s)) (λ e s, E e (ls_turn s)).
Proof. intros Hm s HP. specialize (Hm _ HP). unfold lift. by destruct (m (ls_turn s)) as [[a|e] t]. Qed.
Lemma lift_frames {W A B C} (m : eff (TurnState W) A) (f : TurnState W → B) (g : list AgentEvent → C) :
  frames f m → frames (λ s, (f (ls_turn s), g (ls_yielded s))) (lift m).
Proof. intros Hm s. specialize (Hm (ls_turn s)). unfold lift. destruct (m (ls_turn s)). cbn in *. by rewrite Hm. Qed.

Section Loop.
Context {W : Type}.
Variable env : LoopEnvironment W.
Variable config : AgentLoopConfig.
Variable redactor : StreamRedactor.
Variable redact_text : pystr → pystr.
Variable redact : json → json.
Variable error_size : ErrorDetail → Z.
Variable digest : json → pystr.
Variable payload_size : AgentPayload → Z.
Variable request_size : GatewayRequest → Z.
Variable sha256 : pystr → pystr.
Variable uuid_text : uuid → pystr.
Variable input : AgentLoopInput.

(** ** Events *)

(** How the events of a run end. *)
Definition settles (p : AgentPayload) : bool := ends_run p || stops p.
Definition stamped (s : LoopState W) : Prop := numbered 0 (ls_yielded s) (ts_sequence (ls_turn s)).
Definition loop_open (s : LoopState W) : Prop := stamped s ∧ open_events (ls_yielded s).
Definition loop_closed (s : LoopState W) : Prop := stamped s ∧ closed_by settles (ls_yielded s).
Definition turn_end_ok (r : turn_end) (s : LoopState W) : Prop :=
  match r with NextTurn _ => loop_open s | RunOver => loop_closed s end.

Definition event_view (s : LoopState W) : Z * list AgentEvent := (ts_sequence (ls_turn s), ls_yielded s).

Lemma open_kept {A} (m : eff (LoopState W) A) : frames event_view m → spec loop_open m (λ _, loop_open) (λ _, loop_open).
Proof.
  intros Hm. exact (frames_spec event_view m (λ x, numbered 0 x.2 x.1 ∧ open_events x.2) Hm).
Qed.
Lemma lift_view {A} (m : eff (TurnState W) A) : frames ts_sequence m → frames event_view (lift m).
Proof. intros Hm. apply (lift_frames m ts_sequence id Hm). Qed.
Hint Resolve lift_view with_world_sequence : frames.
Hint Extern 1 (frames ts_sequence (append_transcript _)) => by apply modify_sequence : frames.

Lemma emit_spec p :
  spec loop_open (emit (le_tools env) digest payload_size (li_run_id input) p)
    (λ _ s, if ends_run p then loop_closed s else loop_open s) (λ _, loop_open).
Proof.
  intros s [Hn Ho]. unfold emit, mbind, eff_bind, lift.
  destruct (make_event _ _ _ _ _ (ls_turn s)) as [[e|e] t] eqn:E.
  - destruct (make_event_reports _ _ _ _ _ (ts_sequence (ls_turn s)) _ _ _ (Z.le_refl _) E) as [He [Hk _]].
    cbn [yield_ modify ls_turn ls_yielded].
    assert (numbered 0 (ls_yielded s ++ [e]) (ts_sequence t)) as Hn' by (by eapply numbered_app).
    destruct (ends_run p); (split; [exact Hn'|]); cbn [ls_yielded].
    + exists (ls_yielded s), e. split_and!; [done|done|unfold settles; by rewrite Hk].
    + apply open_app. split; [done|]. by constructor.
  - unfold make_event in E. destruct (validate_event _ _ _); [done|]. injection E as _ <-.
    split; [|done]. eapply numbered_weaken; [exact Hn|]. cbn. lia.
Qed.
Lemma emit_open p : ends_run p = false →
  spec loop_open (emit (le_tools env) digest payload_size (li_run_id input) p) (λ _, loop_open) (λ _, loop_open).
Proof. intros Hp. pose proof (emit_spec p) as H. by rewrite Hp in H. Qed.
Lemma loop_fail_spec e :
  spec loop_open (loop_fail env digest payload_size input e) turn_end_ok (λ _ _, True).
Proof.
  unfold loop_fail. eapply spec_bind; [eapply spec_weaken; [apply (emit_spec (RunFailed e))|done|done|done]|].
  intros []. by apply spec_ret.
Qed.

Section Stream.
Variable model_call_id : pystr.
Variable turn_number : Z.
Variable prior_count : Z.

Lemma emit_chunks_open chunks :
  spec loop_open (emit_chunks (le_tools env) digest payload_size (li_run_id input) model_call_id chunks)
    (λ _, loop_open) (λ _, loop_open).
Proof.
  induction chunks as [|c chunks IH]; cbn [emit_chunks]; [by apply spec_ret|].
  eapply spec_bind; [by apply emit_open|]. intros []. apply IH.
Qed.
Lemma emit_text_open text :
  spec loop_open (emit_text (le_tools env) digest payload_size (li_run_id input) model_call_id text)
    (λ _, loop_open) (λ _, loop_open).
Proof.
  unfold emit_text. destruct (_model_text_chunks _ _) as [chunks ended].
  eapply spec_bind; [apply emit_chunks_open|]. intros []. destruct ended; [by apply spec_ret|by apply spec_raise].
Qed.

Lemma model_event_open (p : model_progress redactor) event :
  spec loop_open (model_event (le_tools env) config redactor redact error_size digest payload_size (li_run_id input)
    model_call_id turn_number prior_count p event) (λ _, loop_open) (λ _, loop_open).
Proof.
  unfold model_event. cbv zeta. destruct (is_some _); [by apply spec_ret|].
  destruct event as [delta|call|id name e|completion]; [| | |by apply spec_ret].
  - unfold text_delta. cbv zeta. destruct (_ <? _)%N; [by apply spec_ret|].
    destruct (sr_feed redactor _ _) as [r' safe]. destruct (_ <? _)%N; [by apply spec_ret|].
    eapply spec_bind; [apply emit_text_open|]. intros []. by apply spec_ret.
  - eapply (spec_bind _ _ _ (λ _, loop_open)); [|intros r; by apply spec_ret]. unfold tool_call_event. cbv zeta.
    destruct (_ <? _)%N; [|destruct (contains_secret _ _)]; (eapply spec_bind; [by apply emit_open|]); intros [];
      by apply spec_ret.
  - eapply spec_bind; [apply open_kept; auto with frames|]. intros safe.
    eapply spec_bind; [by apply emit_open|]. intros []. by apply spec_ret.
Qed.

Lemma stream_open request :
  spec loop_open (stream (le_tools env) config redactor redact error_size digest payload_size (li_run_id input)
    model_call_id turn_number prior_count (le_gateway env) request) (λ _, loop_open) (λ _, loop_open).
Proof.
  unfold stream. eapply spec_bind; [apply open_kept; auto with frames|]. intros opened.
  eapply (spec_bind _ _ _ (λ _, loop_open)).
  - apply (spec_catch _ _ _ _ (λ _, loop_open)).
    + generalize (start_progress redactor). induction (msm_items opened) as [|item items IH]; intros p; cbn [consume_model].
      { destruct (msm_end opened); [by apply spec_ret|by apply spec_raise]. }
      destruct (parse_gateway_event item) as [event|]; [|by apply spec_ret].
      eapply spec_bind; [apply model_event_open|]. intros [p'|e]; [apply IH|by apply spec_ret].
    + intros [d| | |]; cbn [stream_failure]; [|by apply spec_ret|by apply spec_raise|by apply spec_ret].
      eapply spec_bind; [apply open_kept; auto with frames|]. intros safe. by apply spec_ret.
  - intros [p|e]; [|by apply spec_ret]. unfold finish_turn. destruct (mp_completion redactor p); [|by apply spec_ret].
    cbv zeta. destruct (_ <? _)%N; [by apply spec_ret|].
    eapply spec_bind; [apply emit_text_open|]. intros []. by apply spec_ret.
Qed.
End Stream.

Lemma journal_new_view start : frames event_view (_journal_new env input start).
Proof. unfold _journal_new. frames_auto. Qed.
Lemma loop_message_view m : frames event_view (loop_message m).
Proof. unfold loop_message. frames_auto. Qed.
Lemma turn_request_view n : frames event_view (turn_request env sha256 input n).
Proof. unfold turn_request. frames_auto. Qed.
Hint Resolve journal_new_view loop_message_view turn_request_view : frames.

Lemma yield_all_run events (s : LoopState W) :
  yield_all events s = (Ret tt, mkLoopState (ls_turn s) (ls_yielded s ++ events)).
Proof.
  revert s. induction events as [|e events IH]; intros s; cbn [yield_all].
  - rewrite app_nil_r. by destruct s.
  - unfold mbind, eff_bind. cbn [yield_ modify]. rewrite IH. cbn [ls_turn ls_yielded]. by rewrite <- app_assoc.
Qed.

Lemma tool_turn_ok resumed v decisions responses calls invalid :
  spec loop_open (tool_turn env config redact_text redact error_size digest payload_size uuid_text input resumed v
    decisions responses calls invalid) turn_end_ok (λ _ _, True).
Proof.
  unfold tool_turn.
  apply (spec_bind _ _ _ (λ r s, (∃ n, numbered 0 (ls_yielded s) n ∧ numbered n (rep_events r) (ts_sequence (ls_turn s)))
                                 ∧ open_events (ls_yielded s) ∧ report_ok r)).
  { intros s [Hn Ho]. unfold lift. destruct (execute _ _ _ _ _ _ _ _ _ _ _ _ (ls_turn s)) as [[r|e] t] eqn:E; [|done].
    destruct (execute_reports _ _ _ _ _ _ _ _ _ _ _ _ (ts_sequence (ls_turn s)) _ _ _ (Z.le_refl _) E) as [Hr Hok].
    cbn [ls_turn ls_yielded]. split_and!; [by exists (ts_sequence (ls_turn s))|done|done]. }
  intros r. eapply spec_bind.
  { eapply spec_weaken; [exact (frames_spec event_view _ (λ x, (∃ n, numbered 0 x.2 n ∧ numbered n (rep_events r) x.1)
      ∧ open_events x.2 ∧ report_ok r) (journal_new_view (lv_journaled v)))|done|intros j s H; exact H|done]. }
  intros journaled s ((n & H1 & H2) & Ho & Hok). unfold mbind, eff_bind. rewrite yield_all_run.
  assert (stamped (mkLoopState (ls_turn s) (ls_yielded s ++ rep_events r))) as Hst by (by eapply numbered_app).
  unfold report_ok in Hok. destruct (rep_terminal r); cbn [mret eff_ret turn_end_ok].
  - split; [exact Hst|]. apply closed_app; [done|]. eapply closed_weaken; [|exact Hok]. intros p Hp.
    unfold settles. by rewrite Hp, orb_true_r.
  - split; [exact Hst|]. by apply open_app.
Qed.

Lemma view_then {A B} (m : eff (LoopState W) A) (k : A → eff (LoopState W) B) Q :
  frames event_view m → (∀ a, spec loop_open (k a) Q (λ _ _, True)) → spec loop_open (m ≫= k) Q (λ _ _, True).
Proof.
  intros Hm Hk. eapply spec_bind; [eapply spec_weaken; [by apply open_kept|done|intros a s H; exact H|done]|]. apply Hk.
Qed.
Lemma emit_then {B} p (k : unit → eff (LoopState W) B) Q :
  ends_run p = false → (∀ u, spec loop_open (k u) Q (λ _ _, True)) →
  spec loop_open (loop_emit env digest payload_size input p ≫= k) Q (λ _ _, True).
Proof.
  intros Hp Hk. eapply spec_bind; [eapply spec_weaken; [by apply emit_open|done|intros a s H; exact H|done]|]. apply Hk.
Qed.

Lemma resume_pending_ok v :
  spec loop_open (resume_pending env config redact_text redact error_size digest payload_size uuid_text input v)
    turn_end_ok (λ _ _, True).
Proof.
  unfold resume_pending. destruct (is_nil _); [by apply spec_ret|].
  apply view_then; [auto with frames|]. intros calls. apply view_then; [frames_auto|]. intros transcript.
  apply view_then; [frames_auto|]. intros []. apply view_then; [auto with frames|]. intros journaled.
  eapply (spec_bind _ _ _ (λ _, loop_open)); [|intros []; apply tool_turn_ok]. generalize dependent calls.
  intros calls. induction calls as [|c calls IH]; cbn [emit_received]; [by apply spec_ret|].
  apply emit_then; [done|]. by intros [].
Qed.

Lemma after_model_ok v n r :
  spec loop_open (after_model env config redact_text redact error_size digest payload_size uuid_text input v n r)
    turn_end_ok (λ _ _, True).
Proof.
  unfold after_model. cbv zeta. destruct (negb _); [apply loop_fail_spec|]. destruct (has_tool_calls r).
  - apply view_then; [frames_auto|]. intros []. apply view_then; [auto with frames|]. intros j. apply tool_turn_ok.
  - assert (spec loop_open (if is_nil (mtr_text r) then retry_empty env config digest payload_size input v
      else complete_run env digest payload_size input v n (mtr_text r)) turn_end_ok (λ _ _, True)) as Hend.
    { destruct (is_nil (mtr_text r)).
      - unfold retry_empty. cbv zeta. destruct (_ <? _)%Z; [apply loop_fail_spec|].
        apply view_then; [auto with frames|]. intros []. apply view_then; [auto with frames|]. intros j. by apply spec_ret.
      - unfold complete_run. apply view_then; [auto with frames|]. intros []. apply view_then; [auto with frames|].
        intros j. destruct (_ <? _)%Z; [apply loop_fail_spec|].
        eapply spec_bind; [eapply spec_weaken; [apply (emit_spec (RunCompleted _ _))|done|done|done]|].
        intros []. by apply spec_ret. }
    destruct (rc_finish_reason _); first [apply loop_fail_spec | exact Hend].
Qed.

Lemma one_turn_ok v n :
  spec loop_open (one_turn env config redactor redact_text redact error_size digest payload_size request_size sha256
    uuid_text input v n) turn_end_ok (λ _ _, True).
Proof.
  unfold one_turn. apply view_then; [auto with frames|]. intros transcript. destruct (_ <? _)%Z; [apply loop_fail_spec|].
  apply view_then; [auto with frames|]. intros request. destruct (_ <? _)%Z; [apply loop_fail_spec|].
  unfold model_turn. apply emit_then; [done|]. intros []. apply view_then; [auto with frames|]. intros before.
  eapply spec_bind; [eapply spec_weaken; [apply stream_open|done|intros r s H; exact H|done]|]. intros r.
  apply view_then; [auto with frames|]. intros received. destruct r; [apply after_model_ok|apply loop_fail_spec].
Qed.

Lemma run_yields_closed w s :
  run env config redactor redact_text redact error_size digest payload_size request_size sha256 uuid_text input w
    = (Ret tt, s) →
  loop_closed s.
Proof.
  unfold run. destruct (traverse _ _) as [transcript|]; [|done]. intros H.
  enough (spec loop_open (run_loop env config redactor redact_text redact error_size digest payload_size request_size
    sha256 uuid_text input) (λ _, loop_closed) (λ _ _, True)) as Hspec.
  { specialize (Hspec (mkLoopState (mkTurnState w 0 transcript (prior_outcomes input)) [])). rewrite H in Hspec.
    apply Hspec. split; [apply Z.le_refl|constructor]. }
  clear H. unfold run_loop. apply view_then; [auto with frames|]. intros t. cbv zeta.
  apply emit_then; [done|]. intros []. apply emit_then; [done|]. intros [].
  eapply spec_bind; [apply resume_pending_ok|]. intros [v|]; [|by apply spec_ret]. cbn [turn_end_ok].
  generalize 1%Z. revert v. induction (cfg_max_turns config) as [|left_ IH]; intros v n; cbn [turns].
  - eapply spec_weaken; [apply (emit_spec (RunFailed _))|done|done|done].
  - eapply spec_bind; [apply one_turn_ok|]. intros [v'|]; [apply IH|by apply spec_ret].
Qed.

(** C18: run events: whatever the model, the tools and the stores do, a run that returns has yielded
    events with strictly increasing sequence numbers, of which the last reports success,
    failure or a pending approval, and no earlier one reports success or failure. *)
Theorem run_reports_one_end w s :
  run env config redactor redact_text redact error_size digest payload_size request_size sha256 uuid_text input w
    = (Ret tt, s) →
  numbered 0 (ls_yielded s) (ts_sequence (ls_turn s)) ∧ closed_by settles (ls_yielded s).
Proof. apply run_yields_closed. Qed.

(** ** Executions *)

(** The parts of the environment outside the tools leave [f] of the world alone. *)
Class LoopKeeps {X} (f : W → X) := {
  gateway_keeps w request : f (le_gateway env w request).2 = f w;
  new_id_keeps w prefix : f (le_new_id env w prefix).2 = f w;
  journal_keeps append w run_id start ms : le_journal env = Some append → f (append w run_id start ms).2 = f w;
}.

Section Executions.
Context (runs : W → gmap pystr nat) `{!CountsRuns (le_tools env) runs, !LoopKeeps runs}.
Variable base : gmap pystr nat.
Let prior := prior_outcomes input.

Definition loop_record (s : LoopState W) : gmap pystr nat * gmap pystr ToolOutcome := record runs (ls_turn s).
Definition loop_ledger (s : LoopState W) : Prop := on_ledger runs base prior None (ls_turn s).
Definition loop_once (s : LoopState W) : Prop := once base prior (loop_record s).
Definition turn_end_counted (r : turn_end) (s : LoopState W) : Prop :=
  match r with NextTurn _ => loop_ledger s | RunOver => loop_once s end.

Lemma lift_record {A} (m : eff (TurnState W) A) : frames (record runs) m → frames loop_record (lift m).
Proof. intros Hm s. specialize (Hm (ls_turn s)). unfold lift, loop_record. by destruct (m (ls_turn s)). Qed.
Lemma yield_record e : frames loop_record (yield_ e).
Proof. done. Qed.
Hint Resolve lift_record yield_record make_event_record append_transcript_record : frames.

Lemma emit_record p : frames loop_record (emit (le_tools env) digest payload_size (li_run_id input) p).
Proof. unfold emit. frames_auto. Qed.
Hint Resolve emit_record : frames.
Lemma new_id_record prefix :
  frames loop_record (lift (with_world (λ w, let '(id, w') := le_new_id env w prefix in (Ret id, w')))).
Proof.
  apply lift_record, (with_world_record runs). intros w. pose proof (new_id_keeps (f := runs) w prefix). by destruct (le_new_id env w prefix).
Qed.
Lemma journal_new_record start : frames loop_record (_journal_new env input start).
Proof.
  unfold _journal_new. apply frames_bind; [frames_auto|]. intros t. destruct (_ <=? _)%nat; [frames_auto|].
  apply frames_bind; [|frames_auto]. destruct (le_journal env) as [append|] eqn:Hj; [|frames_auto].
  apply lift_record, (with_world_record runs). intros w. by apply (journal_keeps (f := runs)).
Qed.
Lemma loop_message_record m : frames loop_record (loop_message m).
Proof. unfold loop_message. frames_auto. Qed.
Lemma loop_fail_record e : frames loop_record (loop_fail env digest payload_size input e).
Proof. unfold loop_fail, loop_emit. frames_auto. Qed.
Hint Resolve new_id_record journal_new_record loop_message_record loop_fail_record : frames.

Lemma emit_text_record call text :
  frames loop_record (emit_text (le_tools env) digest payload_size (li_run_id input) call text).
Proof.
  unfold emit_text. destruct (_model_text_chunks _ _) as [chunks ended]. apply frames_bind; [|frames_auto].
  induction chunks as [|c chunks IH]; cbn [emit_chunks]; frames_auto.
Qed.
Hint Resolve emit_text_record : frames.
Lemma stream_record call n count request :
  frames loop_record (stream (le_tools env) config redactor redact error_size digest payload_size (li_run_id input)
    call n count (le_gateway env) request).
Proof.
  unfold stream. apply frames_bind.
  { apply lift_record, (with_world_record runs). intros w. pose proof (gateway_keeps (f := runs) w request).
    by destruct (le_gateway env w request). }
  intros opened. apply frames_bind.
  - apply frames_catch; [|unfold stream_failure; frames_auto].
    generalize (start_progress redactor). induction (msm_items opened) as [|item items IH]; intros p; cbn [consume_model];
      [frames_auto|].
    destruct (parse_gateway_event item) as [event|]; [|frames_auto]. apply frames_bind; [|frames_auto].
    unfold model_event, text_delta, tool_call_event. frames_auto.
  - unfold finish_turn. frames_auto.
Qed.
Hint Resolve stream_record : frames.

Lemma record_then {A B} (m : eff (LoopState W) A) (k : A → eff (LoopState W) B) Q :
  frames loop_record m → (∀ a, spec loop_ledger (k a) Q (λ _, loop_once)) →
  spec loop_ledger (m ≫= k) Q (λ _, loop_once).
Proof.
  intros Hm Hk. eapply spec_bind; [|apply Hk].
  eapply spec_weaken; [exact (frames_spec loop_record m (ledger base prior None) Hm)|done|intros a s H; exact H|].
  intros e s. apply ledger_once.
Qed.
Lemma record_over (m : eff (LoopState W) turn_end) :
  frames loop_record m → spec loop_ledger m turn_end_counted (λ _, loop_once).
Proof.
  intros Hm. eapply spec_weaken; [exact (frames_spec loop_record m (ledger base prior None) Hm)|done| |].
  - intros [v|] s H; [exact H|]. by eapply ledger_once.
  - intros e s. apply ledger_once.
Qed.

Lemma tool_turn_counted resumed v decisions responses calls invalid :
  spec loop_ledger (tool_turn env config redact_text redact error_size digest payload_size uuid_text input resumed v
    decisions responses calls invalid) turn_end_counted (λ _, loop_once).
Proof.
  unfold tool_turn. eapply spec_bind; [exact (lift_spec _ _ _ _ (execute_counted _ _ _ _ _ _ _ _ runs base prior _ _ _ _))|].
  intros r. eapply spec_bind.
  { eapply spec_weaken; [exact (frames_spec loop_record _ (λ x, once base prior x ∧
      (rep_terminal r = false → ledger base prior None x)) (journal_new_record (lv_journaled v)))|done|intros j s H; exact H|].
    by intros e s []. }
  intros j s [H1 H2]. unfold mbind, eff_bind. rewrite yield_all_run. destruct (rep_terminal r); [exact H1|exact (H2 eq_refl)].
Qed.

Lemma one_turn_counted v n :
  spec loop_ledger (one_turn env config redactor redact_text redact error_size digest payload_size request_size sha256
    uuid_text input v n) turn_end_counted (λ _, loop_once).
Proof.
  unfold one_turn. apply record_then; [auto with frames|]. intros t.
  destruct (_ <? _)%Z; [apply record_over; auto with frames|].
  apply record_then; [unfold turn_request; frames_auto|]. intros request.
  destruct (_ <? _)%Z; [apply record_over; auto with frames|].
  unfold model_turn, loop_emit. apply record_then; [auto with frames|]. intros []. apply record_then; [auto with frames|].
  intros before. apply record_then; [auto with frames|]. intros r. apply record_then; [auto with frames|]. intros received.
  destruct r as [r|e]; [|apply record_over; auto with frames]. unfold after_model. cbv zeta.
  destruct (negb _); [apply record_over; auto with frames|]. destruct (has_tool_calls r).
  - apply record_then; [frames_auto|]. intros []. apply record_then; [auto with frames|]. intros j. apply tool_turn_counted.
  - apply record_over. unfold retry_empty, complete_run, loop_emit. frames_auto.
Qed.
End Executions.

(** C19: at most once: however an attempt ends, a call identifier has been executed at most once in it, and
    not at all when its outcome was already durable. *)
Theorem call_runs_at_most_once (runs : W → gmap pystr nat) `{!CountsRuns (le_tools env) runs, !LoopKeeps runs} w r s id :
  run env config redactor redact_text redact error_size digest payload_size request_size sha256 uuid_text input w
    = (r, s) →
  runs (ts_world (ls_turn s)) !!! id ≤
    runs w !!! id + (if is_some (prior_outcomes input !! id) then 0 else 1).
Proof.
  unfold run. destruct (traverse _ _) as [transcript|]; [|intros [= <- <-]; cbn; lia]. intros H.
  enough (spec (loop_ledger runs (runs w)) (run_loop env config redactor redact_text redact error_size digest payload_size
    request_size sha256 uuid_text input) (λ _, loop_once runs (runs w)) (λ _, loop_once runs (runs w))) as Hspec.
  { specialize (Hspec (mkLoopState (mkTurnState w 0 transcript (prior_outcomes input)) [])). rewrite H in Hspec.
    assert (loop_once runs (runs w) s) as Hs; [|exact (Hs id)]. destruct r; apply Hspec;
      (split; [done|]; intros j; cbn; lia). }
  clear H. unfold run_loop. apply (record_then runs (runs w)); [apply lift_record, frames_gets|]. intros t. cbv zeta.
  apply (record_then runs (runs w)); [by apply emit_record|]. intros []. apply (record_then runs (runs w)); [by apply emit_record|].
  intros []. eapply (spec_bind _ _ _ (turn_end_counted runs (runs w))).
  - unfold resume_pending. destruct (is_nil _); [by apply spec_ret|].
    apply (record_then runs (runs w)); [auto with frames|]. intros calls.
    apply (record_then runs (runs w)); [apply lift_record, frames_gets|]. intros t'.
    apply (record_then runs (runs w)); [destruct (_ends_with_tool_calls _ _); [auto with frames|apply loop_message_record]|].
    intros []. apply (record_then runs (runs w)); [by apply journal_new_record|]. intros j.
    apply (record_then runs (runs w)); [|intros []; by apply tool_turn_counted].
    induction calls as [|c calls IH]; cbn [emit_received]; [auto with frames|].
    apply frames_bind; [by apply emit_record|]. by intros [].
  - intros [v|]; [|by apply spec_ret]. cbn [turn_end_counted]. generalize 1%Z. revert v.
    induction (cfg_max_turns config) as [|left_ IH]; intros v n; cbn [turns].
    + eapply spec_weaken; [exact (frames_spec (loop_record runs) _ (ledger (runs w) (prior_outcomes input) None)
        (emit_record runs _))|done|intros a s1; apply ledger_once|intros e s1; apply ledger_once].
    + eapply spec_bind; [by apply one_turn_counted|]. intros [v'|]; [apply IH|by apply spec_ret].
Qed.

End Loop.
