(* ===== verification/AgentLoopJournal.v ===== *)
(** * The transcript journal of the agent loop

    Every message a run produces is handed to the journal, in order and once, before
    the run reports success. *)

From stdpp Require Import base list sets gmap strings.
From Stdlib Require Import ZArith Lia.
From S2P Require Import Prelude PyBase Domain Tables Contracts Transcripts Execution Recovery TaskPlans PyText Gateway AgentEvents PyEffects ToolTurn ModelTurn AgentLoop ToolTurnHistory ToolTurnEvents AgentLoopProperties.

(** ** What the tools leave alone *)

Section World.
Context {W X : Type}.
Variable env : ToolEnvironment W.
Variable config : AgentLoopConfig.
Variable redact_text : pystr → pystr.
Variable redact : json → json.
Variable error_size : ErrorDetail → Z.
Variable digest : json → pystr.
Variable payload_size : AgentPayload → Z.
Variable uuid_text : uuid → pystr.

(** Tools, approvals and checkpoints do not touch [f] of the world. *)
Class ToolsKeep (f : W → X) := {
  stream_keeps w call context : f (env_stream env w call context).2 = f w;
  approval_keeps w : f (env_approval_id env w).2 = f w;
  create_before_tool_keeps c w run_id id t plan summary :
    env_checkpoints env = Some c → f (create_before_tool c w run_id id t plan summary).2 = f w;
  complete_tool_keeps c w k id : env_checkpoints env = Some c → f (complete_tool c w k id).2 = f w;
  rollback_keeps c w k : env_checkpoints env = Some c → f (rollback c w k).2 = f w;
}.

Context (f : W → X) `{!ToolsKeep f}.
Definition of_world (s : TurnState W) : X := f (ts_world s).

Lemma make_event_world run_id p : frames of_world (make_event env digest payload_size run_id p).
Proof. intros s. unfold make_event. by destruct (validate_event _ _ _). Qed.
Lemma modify_world g : (∀ s : TurnState W, ts_world (g s) = ts_world s) → frames of_world (modify g).
Proof. intros Hg s. unfold of_world. cbn. by rewrite Hg. Qed.
Lemma with_world_of {A} (g : W → outcome A * W) : (∀ w, f (g w).2 = f w) → frames of_world (with_world g).
Proof. intros Hg s. unfold with_world, of_world. specialize (Hg (ts_world s)). by destruct (g (ts_world s)). Qed.
Lemma run_tool_world call run_id c :
  frames of_world (_run_tool env config redact_text redact error_size call run_id c).
Proof.
  intros s. unfold _run_tool, of_world. cbv zeta.
  match goal with |- context [env_stream env ?w call ?context] =>
    pose proof (stream_keeps w call context) as Hr; destruct (env_stream env w call context) as [stream w'] end.
  exact Hr.
Qed.
Hint Resolve make_event_world run_tool_world : frames.
Hint Extern 1 (frames of_world (append_transcript _)) => by apply modify_world : frames.
Hint Extern 1 (frames of_world (set_outcome _ _)) => by apply modify_world : frames.
Hint Extern 1 (frames of_world (default_outcome _ _)) => by apply modify_world : frames.
Hint Extern 3 (frames of_world (with_world _)) =>
  apply with_world_of; intros;
  first [by apply create_before_tool_keeps | by apply complete_tool_keeps | by apply rollback_keeps] : frames.

Lemma append_tool_message_world id r e : frames of_world (append_tool_message id r e).
Proof. unfold append_tool_message. frames_auto. Qed.
Lemma fail_call_world input call e emitted last :
  frames of_world (fail_call env digest payload_size input call e emitted last).
Proof. unfold fail_call, failed_event. frames_auto. Qed.
Hint Resolve append_tool_message_world fail_call_world : frames.
Lemma finish_call_world input item o emitted c plan :
  frames of_world (finish_call env digest payload_size input item o emitted c plan).
Proof. unfold finish_call, completion_event. frames_auto. Qed.
Lemma take_checkpoint_world input call :
  frames of_world (take_checkpoint env redact error_size digest payload_size input call).
Proof. unfold take_checkpoint. frames_auto. Qed.
Lemma run_checkpointed_world input call c :
  frames of_world (run_checkpointed env config redact_text redact error_size uuid_text input call c).
Proof. unfold run_checkpointed, cancel_with_rollback. frames_auto. Qed.
Lemma output_events_world input call output :
  frames of_world (output_events env digest payload_size input call output).
Proof. induction output as [|b output IH]; cbn [output_events]; frames_auto. Qed.
Lemma try_rollback_world coordinator c :
  env_checkpoints env = Some coordinator → frames of_world (try_rollback coordinator c).
Proof. intros. unfold try_rollback. frames_auto. Qed.
Hint Resolve finish_call_world take_checkpoint_world run_checkpointed_world output_events_world try_rollback_world : frames.
Lemma finalize_call_world coordinator call c r :
  env_checkpoints env = Some coordinator → frames of_world (finalize_call config uuid_text coordinator call c r).
Proof. intros. unfold finalize_call. frames_auto. Qed.
Hint Resolve finalize_call_world : frames.

Lemma execute_call_world input item effect :
  frames of_world (execute_call env config redact_text redact error_size digest payload_size uuid_text input item effect).
Proof.
  unfold execute_call. cbv zeta. apply frames_bind; [frames_auto|]. intros [[checkpoint emitted]|q]; [|auto with frames].
  apply frames_bind; [auto with frames|]. intros started. apply frames_bind; [auto with frames|]. intros run.
  apply frames_bind; [auto with frames|]. intros outputs.
  destruct checkpoint as [c|], (env_checkpoints env) as [coordinator|] eqn:Hc, (trr_error run), (trr_result run);
    auto with frames; (apply frames_bind; [auto with frames|]; intros a; destruct a; auto with frames).
Qed.
Lemma run_calls_world input items emitted last plan :
  frames of_world (run_calls env config redact_text redact error_size digest payload_size uuid_text input emitted last
    plan items).
Proof.
  revert emitted last plan. induction items as [|item items IH]; intros emitted last plan; cbn [run_calls]; [auto with frames|].
  apply frames_bind; [|intros p; destruct p; auto with frames]. unfold run_call. apply frames_bind; [auto with frames|].
  intros outcomes. cbv zeta.
  assert (∀ o, frames of_world (replay_call env digest payload_size input item o)) as Hreplay
    by (intros o; unfold replay_call, completion_event; frames_auto).
  destruct (outcomes !! _); [apply Hreplay|].
  destruct (ti_approval_decisions input !! _) as [[|]|];
    [|unfold deny_call; cbv zeta; auto with frames|]; (destruct (pc_prepared item) as [[]|]; [..|auto with frames];
    first [apply execute_call_world | unfold answer_call; cbv zeta; auto with frames]).
Qed.
Lemma prepare_calls_world outcomes pending calls :
  frames of_world (_prepare_calls env redact error_size digest outcomes pending calls).
Proof. revert pending. induction calls as [|c calls IH]; intros pending; cbn [_prepare_calls]; frames_auto. Qed.
Lemma reject_calls_world run_id verdict ids : frames of_world (reject_calls env digest payload_size run_id verdict ids).
Proof. induction ids as [|id ids IH]; cbn [reject_calls]; unfold failed_event; frames_auto. Qed.
Lemma fail_invalid_world run_id verdict keep invalid :
  frames of_world (fail_invalid env digest payload_size run_id verdict keep invalid).
Proof. induction invalid as [|c invalid IH]; cbn [fail_invalid]; unfold failed_event; frames_auto. Qed.
Lemma reject_prepared_world run_id rejected items :
  frames of_world (reject_prepared env digest payload_size run_id rejected items).
Proof. induction items as [|item items IH]; cbn [reject_prepared]; unfold failed_event; frames_auto. Qed.
Lemma feedback_world invalid : frames of_world (feedback_invalid invalid).
Proof. unfold feedback_invalid. frames_auto. Qed.
Lemma request_approvals_world input items : frames of_world (request_approvals env digest payload_size input items).
Proof.
  induction items as [|item items IH]; cbn [request_approvals]; [auto with frames|]. cbv zeta.
  apply frames_bind; [|frames_auto]. apply with_world_of. intros w. pose proof (approval_keeps w).
  by destruct (env_approval_id env w).
Qed.
Hint Resolve run_calls_world prepare_calls_world reject_calls_world fail_invalid_world reject_prepared_world
  feedback_world request_approvals_world : frames.

Lemma execute_world input calls invalid retries :
  frames of_world (execute env config redact_text redact error_size digest payload_size uuid_text input calls invalid retries).
Proof. unfold execute, _reject_conflicting_turn, _reject_invalid_turn. frames_auto. Qed.
End World.

(** ** Journaling *)

(** An accepted [append]: the run, the index of the first message, the messages *)
Abbreviation JournalCall := (uuid * nat * list GatewayMessage)%type (only parsing).

(** A world that remembers which [append] calls its journal accepted; nothing is said
    about which ones it accepts. *)
Class Journals {W} (env : LoopEnvironment W) (journal : W → list JournalCall) := {
  journal_tools :: ToolsKeep (le_tools env) journal;
  journal_gateway w request : journal (le_gateway env w request).2 = journal w;
  journal_new_id w prefix : journal (le_new_id env w prefix).2 = journal w;
  journal_append : W → uuid → nat → list GatewayMessage → outcome unit * W;
  journal_configured : le_journal env = Some journal_append;
  journal_appends w run_id start ms u w' :
    journal_append w run_id start ms = (Ret u, w') → journal w' = journal w ++ [(run_id, start, ms)];
}.

(** The calls hand over the messages of a run from an index on: in order, each once,
    at consecutive indices. *)
Fixpoint hands_over (run_id : uuid) (index : nat) (calls : list JournalCall) (ms : list GatewayMessage) : Prop :=
  match calls with
  | [] => ms = []
  | (r, i, batch) :: rest => r = run_id ∧ i = index ∧
      ∃ ms', ms = batch ++ ms' ∧ hands_over run_id (index + length batch) rest ms'
  end.
Lemma hands_over_snoc run_id index calls ms batch :
  hands_over run_id index calls ms →
  hands_over run_id index (calls ++ [(run_id, index + length ms, batch)]) (ms ++ batch).
Proof.
  revert index ms. induction calls as [|[[r i] b] calls IH]; intros index ms; cbn [hands_over app].
  - intros ->. cbn. split_and!; [done|lia|]. exists []. by rewrite app_nil_r.
  - intros (-> & -> & ms' & -> & H). split_and!; [done|done|]. exists (ms' ++ batch). rewrite <- app_assoc. split; [done|].
    rewrite length_app, Nat.add_assoc. by apply IH.
Qed.

Section Journal.
Context {W : Type}.
Variable env : LoopEnvironment W.
Variable config : AgentLoopConfig.
Variable redactor : StreamRedactor.
Variable redact_text : pystr → pystr.
Variable redact : json → json.
Variable error_size : ErrorDetail → Z.
Variable digest : json → pystr.
Variable payload_size : AgentPayload → Z.
Variable request_size : GatewayRequest → Z.
Variable sha256 : pystr → pystr.
Variable uuid_text : uuid → pystr.
Variable input : AgentLoopInput.
Context (journal : W → list JournalCall) `{!Journals env journal}.

(** The journal before the run, and the number of messages the run starts from. *)
Variable journal0 : list JournalCall.
Variable start : nat.

Definition pages (s : LoopState W) : list GatewayMessage * list JournalCall :=
  (ts_transcript (ls_turn s), of_world journal (ls_turn s)).

(** The first [n] messages of the transcript are journaled. *)
Definition journaled_to (n : nat) (x : list GatewayMessage * list JournalCall) : Prop :=
  start ≤ n ≤ length x.1 ∧
  ∃ calls, x.2 = journal0 ++ calls ∧ hands_over (li_run_id input) start calls (drop start (take n x.1)).
Definition journaled (n : nat) (s : LoopState W) : Prop := journaled_to n (pages s).
(** Everything is journaled. *)
Definition all_journaled (n : nat) (s : LoopState W) : Prop := journaled n s ∧ n = length (ts_transcript (ls_turn s)).

Lemma journaled_app n t more j : journaled_to n (t, j) → journaled_to n (t ++ more, j).
Proof.
  intros [[H1 H2] E]. cbn in *. split; [cbn; rewrite length_app; lia|]. cbn. by rewrite take_app_le by lia.
Qed.

Lemma journal_new_spec n :
  spec (journaled n) (_journal_new env input n) all_journaled (λ _ _, True).
Proof.
  intros s [[H1 H2] (calls & E & Hc)]. unfold pages in *. cbn [fst snd] in *. unfold _journal_new, mbind, eff_bind, lift, gets. cbn.
  destruct (Nat.leb_spec (length (ts_transcript (ls_turn s))) n) as [Hle|Hlt].
  - destruct s as [t y]. cbn in *. split; [|cbn; lia]. split; [done|]. by exists calls.
  - rewrite journal_configured. cbn. unfold with_world.
    destruct (journal_append _ _ _ _) as [[u|e] w'] eqn:Ea; [|done]. apply journal_appends in Ea.
    split; [|done]. split; [cbn; lia|]. cbn [pages fst snd ts_world ts_transcript ls_turn].
    set (t := ts_transcript (ls_turn s)) in *.
    exists (calls ++ [(li_run_id input, n, drop n t)]). split.
    { unfold of_world. cbn [ts_world]. rewrite Ea, app_assoc. f_equal. exact E. }
    rewrite (take_ge t) by lia. assert (drop start t = drop start (take n t) ++ drop n t) as ->.
    { rewrite <- drop_app_le by (rewrite length_take; lia). by rewrite take_drop. }
    replace n with (start + length (drop start (take n t))) at 1 by (rewrite length_drop, length_take; lia).
    by apply hands_over_snoc.
Qed.

Lemma lift_pages {A} (m : eff (TurnState W) A) :
  frames ts_transcript m → frames (of_world journal) m → frames pages (lift m).
Proof.
  intros Ht Hw s. specialize (Ht (ls_turn s)). specialize (Hw (ls_turn s)). unfold lift, pages.
  destruct (m (ls_turn s)). cbn in *. by rewrite Ht, Hw.
Qed.
Hint Extern 3 (frames pages (lift (make_event _ _ _ _ _))) =>
  apply lift_pages; [apply make_event_transcript|apply make_event_world] : frames.
Hint Extern 3 (frames pages (lift (gets _))) => apply lift_pages; apply frames_gets : frames.
Lemma yield_pages e : frames pages (yield_ e).
Proof. done. Qed.
Hint Resolve yield_pages : frames.
Lemma emit_pages p : frames pages (emit (le_tools env) digest payload_size (li_run_id input) p).
Proof. unfold emit. frames_auto. Qed.
Hint Resolve emit_pages : frames.
Lemma new_id_pages prefix :
  frames pages (lift (with_world (λ w, let '(id, w') := le_new_id env w prefix in (Ret id, w')))).
Proof.
  apply lift_pages; [apply with_world_transcript|]. apply with_world_of. intros w.
  pose proof (journal_new_id w prefix). by destruct (le_new_id env w prefix).
Qed.
Lemma emit_text_pages call text :
  frames pages (emit_text (le_tools env) digest payload_size (li_run_id input) call text).
Proof.
  unfold emit_text. destruct (_model_text_chunks _ _) as [chunks ended]. apply frames_bind; [|frames_auto].
  induction chunks as [|c chunks IH]; cbn [emit_chunks]; frames_auto.
Qed.
Hint Resolve new_id_pages emit_text_pages : frames.
Lemma stream_pages call n count request :
  frames pages (stream (le_tools env) config redactor redact error_size digest payload_size (li_run_id input)
    call n count (le_gateway env) request).
Proof.
  unfold stream. apply frames_bind.
  { apply lift_pages; [apply with_world_transcript|]. apply with_world_of. intros w.
    pose proof (journal_gateway w request). by destruct (le_gateway env w request). }
  intros opened. apply frames_bind.
  - apply frames_catch; [|unfold stream_failure; frames_auto].
    generalize (start_progress redactor). induction (msm_items opened) as [|item items IH]; intros p; cbn [consume_model];
      [frames_auto|].
    destruct (parse_gateway_event item) as [event|]; [|frames_auto]. apply frames_bind; [|frames_auto].
    unfold model_event, text_delta, tool_call_event. frames_auto.
  - unfold finish_turn. frames_auto.
Qed.
Hint Resolve stream_pages : frames.

Lemma pages_kept {A} (m : eff (LoopState W) A) n :
  frames pages m → spec (journaled n) m (λ _, journaled n) (λ _ _, True).
Proof. intros Hm. eapply spec_weaken; [exact (frames_spec pages m (journaled_to n) Hm)|done|done|done]. Qed.
Lemma all_pages_kept {A} (m : eff (LoopState W) A) n :
  frames pages m → spec (all_journaled n) m (λ _, all_journaled n) (λ _ _, True).
Proof.
  intros Hm. eapply spec_weaken; [exact (frames_spec pages m (λ x, journaled_to n x ∧ n = length x.1) Hm)|done|done|done].
Qed.
(** How a run may be over: without success, or with the reported text as the last of
    the journaled messages. *)
Definition stopped (s : LoopState W) : Prop := ∃ before e, ls_yielded s = before ++ [e] ∧ stops (ev_payload e) = true.
Definition succeeded (s : LoopState W) : Prop :=
  ∃ n before e text c m, all_journaled n s ∧ start < n ∧ ls_yielded s = before ++ [e] ∧ ev_payload e = RunCompleted text c ∧
    last (ts_transcript (ls_turn s)) = Some m ∧ gm_role m = ASSISTANT ∧ gm_content m = text.
Definition over_ok (r : turn_end) (s : LoopState W) : Prop :=
  match r with NextTurn v => all_journaled (lv_journaled v) s | RunOver => stopped s ∨ succeeded s end.

Lemma emit_last p (s : LoopState W) u s' :
  emit (le_tools env) digest payload_size (li_run_id input) p s = (Ret u, s') →
  ∃ e, ls_yielded s' = ls_yielded s ++ [e] ∧ same_kind p e ∧
    match p with RunCompleted _ _ => ev_payload e = p | _ => True end.
Proof.
  intros H. unfold emit in H. apply eff_bind_Ret in H as (e & s1 & H1 & [= _ <-]). unfold lift in H1.
  destruct (make_event _ _ _ _ _ (ls_turn s)) as [[e'|] t] eqn:E; [|done]. injection H1 as -> <-. cbn.
  exists e. split; [done|].
  destruct (make_event_reports _ _ _ _ _ (ts_sequence (ls_turn s)) _ _ _ (Z.le_refl _) E) as [_ Hk]. split; [done|].
  unfold make_event in E. destruct (validate_event _ _ _) as [e'|] eqn:Ev; [|done]. injection E as -> _.
  unfold validate_event in Ev. apply bind_Ok in Ev as (? & _ & Ev). apply bind_Ok in Ev as (p' & Hp & Ev).
  apply bind_Ok in Ev as (? & _ & [= <-]). destruct p; try done. cbn [ev_payload validate_payload] in Hp. run_inv Hp. done.
Qed.

Lemma loop_fail_over e P : spec P (loop_fail env digest payload_size input e) over_ok (λ _ _, True).
Proof.
  intros s _. destruct (loop_fail _ _ _ _ _ s) as [[r|x] s'] eqn:E; [|done]. unfold loop_fail, loop_emit in E.
  apply eff_bind_Ret in E as (u & s1 & H1 & [= <- <-]). apply emit_last in H1 as (ev & Hy & [_ Hk] & _).
  left. by exists (ls_yielded s), ev.
Qed.

Lemma loop_message_journaled n m :
  spec (all_journaled n) (loop_message m)
    (λ _ s, journaled n s ∧ n < length (ts_transcript (ls_turn s)) ∧
            ∃ m', validate_gateway_message m = Ok m' ∧ last (ts_transcript (ls_turn s)) = Some m')
    (λ _ _, True).
Proof.
  intros s [Hj Hn]. unfold loop_message, mbind, eff_bind, pure_result. destruct (validate_gateway_message m) as [m'|]; [|done].
  cbn. split; [exact (journaled_app _ _ [m'] _ Hj)|]. split; [rewrite length_app; cbn; lia|]. exists m'. split; [done|]. apply last_snoc.
Qed.

Lemma tool_turn_over resumed v decisions responses calls invalid :
  spec (all_journaled (lv_journaled v)) (tool_turn env config redact_text redact error_size digest payload_size uuid_text
    input resumed v decisions responses calls invalid) over_ok (λ _ _, True).
Proof.
  unfold tool_turn. apply (spec_bind _ _ _ (λ r s, report_ok r ∧ (rep_terminal r = false → journaled (lv_journaled v) s))).
  { intros s [Hj Hn]. unfold lift.
    pose proof (execute_world (le_tools env) config redact_text redact error_size digest payload_size uuid_text journal
      (turn_input input (lv_task_plan v) decisions responses) calls invalid (lv_semantic_retry_count v) (ls_turn s)) as Hw.
    destruct (execute _ _ _ _ _ _ _ _ _ _ _ _ (ls_turn s)) as [[r|e] t] eqn:E; [|done]. cbn [snd] in Hw.
    split; [by eapply execute_reports in E as [_ E]; [|apply Z.le_refl]|]. intros Hr.
    apply turn_answers_every_call in E as (ms & fb & Et & _); [|done].
    unfold journaled, pages in *. cbn [ls_turn]. rewrite Et, Hw. by apply journaled_app. }
  intros r. destruct (rep_terminal r) eqn:Hterm.
  - intros s [Hok _]. unfold report_ok in Hok. rewrite Hterm in Hok. destruct Hok as (before & e & Ee & _ & He).
    unfold mbind, eff_bind. destruct (_journal_new _ _ _ s) as [[j|x] s1]; [|done]. rewrite yield_all_run. cbn.
    left. exists (ls_yielded s1 ++ before), e. rewrite Ee, app_assoc. by split.
  - intros s [_ Hj]. specialize (Hj eq_refl). pose proof (journal_new_spec _ s Hj) as Hn.
    unfold mbind, eff_bind. destruct (_journal_new _ _ _ s) as [[j|x] s1]; [|done]. rewrite yield_all_run. exact Hn.
Qed.

Lemma kept_then {A B} (m : eff (LoopState W) A) (k : A → eff (LoopState W) B) n Q :
  frames pages m → (∀ a, spec (all_journaled n) (k a) Q (λ _ _, True)) → spec (all_journaled n) (m ≫= k) Q (λ _ _, True).
Proof. intros Hm Hk. eapply spec_bind; [by apply all_pages_kept|]. apply Hk. Qed.

Lemma complete_run_over v n text :
  spec (all_journaled (lv_journaled v)) (complete_run env digest payload_size input v n text) over_ok (λ _ _, True).
Proof.
  unfold complete_run. eapply spec_bind; [apply loop_message_journaled|]. intros [].
  apply (spec_bind _ _ _ (λ j s, all_journaled j s ∧ start < j ∧ ∃ m', last (ts_transcript (ls_turn s)) = Some m' ∧
    gm_role m' = ASSISTANT ∧ gm_content m' = text)).
  - intros s (Hj & Hlt & m' & Hv & Hl). pose proof (journal_new_spec _ s Hj) as Hn.
    assert (∀ j, frames (λ s : LoopState W, ts_transcript (ls_turn s)) (_journal_new env input j)) as Hf.
    { intros j. unfold _journal_new. apply frames_bind; [by intros [] |]. intros t. destruct (_ <=? _)%nat; [done|].
      apply frames_bind; [|done]. destruct (le_journal env); [|done]. intros x. unfold lift.
      match goal with |- context [with_world ?g (ls_turn x)] =>
        pose proof (with_world_transcript g (ls_turn x)) as Hx; by destruct (with_world g (ls_turn x)) end. }
    specialize (Hf (lv_journaled v) s). destruct (_journal_new _ _ _ s) as [[j|x] s1]; [|done]. cbn in Hf.
    destruct Hj as [[Hstart _] _]. split; [done|]. destruct Hn as [_ ->]. rewrite Hf. split; [lia|]. exists m'. unfold validate_gateway_message in Hv.
    cbn [gm_tool_call_id validate_optional gm_tool_calls gm_role gm_content traverse] in Hv. by run_inv Hv.
  - intros j. destruct (_ <? _)%Z; [apply loop_fail_over|]. intros s (Hj & Hlt & m' & Hl & Hr & Hc). unfold loop_emit.
    pose proof (all_pages_kept _ j (emit_pages (RunCompleted text (lv_last_checkpoint_id v))) s Hj) as Hk.
    unfold mbind, eff_bind. destruct (emit _ _ _ _ _ s) as [[u|x] s1] eqn:E; [|done].
    pose proof (emit_pages (RunCompleted text (lv_last_checkpoint_id v)) s) as Hp. rewrite E in Hp. cbn [snd] in Hp.
    apply emit_last in E as (e & Hy & _ & He). right. injection Hp as Ht _.
    exists j, (ls_yielded s), e, text, (lv_last_checkpoint_id v), m'. by rewrite Ht.
Qed.

Lemma one_turn_over v n :
  spec (all_journaled (lv_journaled v)) (one_turn env config redactor redact_text redact error_size digest payload_size
    request_size sha256 uuid_text input v n) over_ok (λ _ _, True).
Proof.
  unfold one_turn. apply kept_then; [auto with frames|]. intros t. destruct (_ <? _)%Z; [apply loop_fail_over|].
  apply kept_then; [unfold turn_request; frames_auto|]. intros request. destruct (_ <? _)%Z; [apply loop_fail_over|].
  unfold model_turn, loop_emit. apply kept_then; [auto with frames|]. intros []. apply kept_then; [auto with frames|].
  intros before. apply kept_then; [auto with frames|]. intros r. apply kept_then; [auto with frames|]. intros received.
  destruct r as [r|e]; [|apply loop_fail_over]. unfold after_model. cbv zeta.
  change (lv_journaled v) with (lv_journaled (with_calls v (Z.of_nat received))).
  generalize (with_calls v (Z.of_nat received)). intros v'. destruct (negb _); [apply loop_fail_over|].
  destruct (has_tool_calls r).
  - eapply (spec_bind _ _ _ (λ _, journaled (lv_journaled v'))).
    { destruct (_ && _); [apply spec_ret; by intros s []|].
      eapply spec_weaken; [apply loop_message_journaled|done|by intros u s []|done]. }
    intros []. eapply spec_bind; [apply journal_new_spec|]. intros j. apply (tool_turn_over _ (with_journaled v' j)).
  - assert (spec (all_journaled (lv_journaled v')) (if is_nil (mtr_text r)
      then retry_empty env config digest payload_size input v'
      else complete_run env digest payload_size input v' n (mtr_text r)) over_ok (λ _ _, True)) as Hend.
    { destruct (is_nil (mtr_text r)); [|apply complete_run_over]. unfold retry_empty. cbv zeta.
      destruct (_ <? _)%Z; [apply loop_fail_over|].
      eapply spec_bind; [eapply spec_weaken; [apply loop_message_journaled|done|intros u s [Hj _]; exact Hj|done]|].
      intros []. eapply spec_bind; [apply journal_new_spec|]. intros j. by apply spec_ret. }
    destruct (rc_finish_reason _); first [apply loop_fail_over | exact Hend].
Qed.

Lemma run_loop_over :
  spec (λ s, pages s = (ts_transcript (ls_turn s), journal0) ∧ length (ts_transcript (ls_turn s)) = start)
    (run_loop env config redactor redact_text redact error_size digest payload_size request_size sha256 uuid_text input)
    (λ _ s, stopped s ∨ succeeded s) (λ _ _, True).
Proof.
  unfold run_loop. apply (spec_bind _ _ _ (λ t s, all_journaled (length t) s)).
  { intros s [Hp Hl]. unfold lift, gets. destruct s as [t y]. injection Hp as Hw. cbn in *. split; [|done].
    split; [cbn; lia|]. exists []. cbn. rewrite take_ge, drop_ge, app_nil_r by lia. by split. }
  intros t. cbv zeta. unfold loop_emit. apply kept_then; [auto with frames|]. intros [].
  apply kept_then; [auto with frames|]. intros [].
  eapply (spec_bind _ _ _ over_ok).
  - unfold resume_pending. set (v := mkLoopVars _ _ _ _ _). change (length t) with (lv_journaled v). clearbody v.
    destruct (is_nil _); [by apply spec_ret|]. apply kept_then; [auto with frames|]. intros calls.
    apply kept_then; [auto with frames|]. intros t'. eapply (spec_bind _ _ _ (λ _, journaled (lv_journaled v))).
    { destruct (_ends_with_tool_calls _ _); [apply spec_ret; by intros s []|].
      eapply spec_weaken; [apply loop_message_journaled|done|by intros u s []|done]. }
    intros []. eapply spec_bind; [apply journal_new_spec|]. intros j. apply kept_then.
    + induction calls as [|c calls IH]; cbn [emit_received]; unfold loop_emit; frames_auto.
    + intros []. exact (tool_turn_over true (with_calls (with_journaled v j) (Z.of_nat (length calls))) _ _ _ _).
  - intros [v|]; [|by apply spec_ret]. cbn [over_ok]. generalize 1%Z. revert v.
    induction (cfg_max_turns config) as [|left_ IH]; intros v n; cbn [turns].
    + intros s _. unfold loop_emit. destruct (emit _ _ _ _ _ s) as [[u|x] s1] eqn:E; [|done].
      apply emit_last in E as (e & Hy & [_ Hk] & _). left. by exists (ls_yielded s), e.
    + eapply spec_bind; [apply one_turn_over|]. intros [v'|]; [apply IH|by apply spec_ret].
Qed.
End Journal.

(** C20: journaled success: when a run reports success, the journal has accepted, in
    calls of this run at consecutive indices from the number of its input messages on,
    every message the run added to the transcript, in order and each once, and no
    other; the last of them is the assistant message with the reported text. *)
Theorem success_reported_after_journal {W} (env : LoopEnvironment W) config redactor redact_text redact error_size digest
    payload_size request_size sha256 uuid_text input (journal : W → list JournalCall) `{!Journals env journal}
    w s e text c :
  run env config redactor redact_text redact error_size digest payload_size request_size sha256 uuid_text input w
    = (Ret tt, s) →
  last (ls_yielded s) = Some e → ev_payload e = RunCompleted text c →
  (∃ calls, journal (ts_world (ls_turn s)) = journal w ++ calls ∧
     hands_over (li_run_id input) (length (li_messages input)) calls
       (drop (length (li_messages input)) (ts_transcript (ls_turn s)))) ∧
  ∃ m, last (drop (length (li_messages input)) (ts_transcript (ls_turn s))) = Some m ∧ gm_role m = ASSISTANT ∧ gm_content m = text.
Proof.
  intros H Hlast He. unfold run in H. destruct (traverse _ _) as [transcript|] eqn:Ht; [|done].
  apply traverse_Ok, Forall2_length in Ht.
  pose proof (run_loop_over env config redactor redact_text redact error_size digest payload_size request_size sha256
    uuid_text input journal (journal w) (length (li_messages input)) (mkLoopState (mkTurnState w 0 transcript (prior_outcomes input)) [])) as Hs.
  rewrite H in Hs. destruct Hs as [(before & e' & Hy & Hk)|(n & before & e' & text' & c' & m & [[_ Hj] Hn] & Hlt & Hy & He' & Hl & Hr & Hc)].
  - split; [done|symmetry; exact Ht].
  - rewrite Hy, last_snoc in Hlast. injection Hlast as ->. by rewrite He in Hk.
  - rewrite Hy, last_snoc in Hlast. injection Hlast as ->. rewrite He in He'. injection He' as <- <-.
    unfold pages in Hj. cbn [fst snd] in Hj. rewrite Hn, take_ge in Hj by done. split; [exact Hj|].
    exists m. split_and!; [|done|done].
    rewrite <- (take_drop (length (li_messages input)) (ts_transcript (ls_turn s))), last_app in Hl.
    destruct (last (drop _ _)) as [x|] eqn:Ex; [exact Hl|]. apply last_None in Ex.
    apply (f_equal length) in Ex. rewrite length_drop in Ex. cbn in Ex. lia.
Qed.
