(* ===== verification/EventStoreProperties.v ===== *)
(** * Properties of the durable event store

    The log of a run is contiguous and append-only along every history of appends,
    readers see exactly the log, and a delivery key is stored once. *)

From stdpp Require Import base list sets gmap strings sorting.
From Stdlib Require Import ZArith Lia.
From S2P Require Import Prelude PyBase Domain Tables Contracts RunQueue Transcripts Execution Recovery TaskPlans PyText Gateway AgentEvents EventStore.

#[local] Open Scope Z_scope.

(** ** Specification: the log of a run *)

Definition latest (t : EventTables) (run_id : uuid) : Z := next_event_sequence t run_id - 1.
Definition log_rows (t : EventTables) (run_id : uuid) (after : Z) : list AgentEventRecord :=
  omap (λ s, et_rows t !! (run_id, s)) (seqZ (after + 1) (latest t run_id - after)).
Definition event_log (t : EventTables) (run_id : uuid) (after : Z) : list StoredEvent :=
  of_record <$> log_rows t run_id after.
Definition no_events : EventTables := mkEventTables ∅ ∅.

Lemma same_delivery_true run_id epoch key row :
  same_delivery run_id epoch key row = true ↔
  er_run_id row = run_id ∧ er_execution_epoch row = epoch ∧ er_delivery_key row = Some key.
Proof. unfold same_delivery. rewrite !andb_true_iff, !bool_decide_eq_true, Z.eqb_eq. tauto. Qed.

Section Store.
Context (digest : json → pystr) (payload_size : AgentPayload → Z).
Context (event_size : StoredEvent → Z) (page_size : EventPage → Z).
(** A run belongs to one tenant for ever. *)
Context (tenant_of : uuid → uuid).

Definition owned (d : Db) : Prop := ∀ run_id r, runs d !! run_id = Some r → rr_tenant_id r = tenant_of run_id.
Definition valid_draft (draft : EventDraft) : Prop :=
  make_draft digest payload_size (dr_payload draft) (dr_created_at draft) = Ok draft.

(** The committed operations, by any caller against any state of the other tables. *)
Inductive event_step : EventTables → EventTables → Prop :=
| step_append d t t' tenant_id run_id draft e :
    owned d → valid_draft draft → append digest payload_size d t tenant_id run_id draft = Ok (e, t') → event_step t t'
| step_append_idempotent d t t' tenant_id run_id key draft e :
    owned d → valid_draft draft →
    append_idempotent digest payload_size d t tenant_id run_id key draft = Ok (e, t') → event_step t t'
| step_append_fenced now d t t' lease key draft e :
    owned d → valid_draft draft →
    append_idempotent_fenced digest payload_size now d t lease key draft = Ok (e, t') → event_step t t'.

(** ** Invariant *)

Record row_inv (t : EventTables) (run_id : uuid) (s : Z) (row : AgentEventRecord) : Prop := {
  row_run : er_run_id row = run_id;
  row_sequence : er_sequence row = s;
  row_range : 1 ≤ s < next_event_sequence t run_id;
  row_tenant : er_tenant_id row = tenant_of run_id;
  row_valid : _stored_event digest payload_size row = Ok (of_record row);
}.

Record events_inv (t : EventTables) : Prop := {
  inv_rows : ∀ run_id s row, et_rows t !! (run_id, s) = Some row → row_inv t run_id s row;
  inv_full : ∀ run_id s, 1 ≤ s < next_event_sequence t run_id → is_Some (et_rows t !! (run_id, s));
  inv_next : ∀ run_id, 1 ≤ next_event_sequence t run_id;
  inv_delivery : ∀ k k' row row' run_id epoch key, et_rows t !! k = Some row → et_rows t !! k' = Some row' →
    same_delivery run_id epoch key row = true → same_delivery run_id epoch key row' = true → row = row';
}.

Lemma no_events_inv : events_inv no_events.
Proof.
  split; unfold next_event_sequence; cbn [no_events et_next et_rows]; intros *; rewrite ?lookup_empty; cbn [default]; try done.
  lia.
Qed.

Lemma next_advance t run_id run_id' :
  next_event_sequence (advance t run_id) run_id' =
  if bool_decide (run_id' = run_id) then next_event_sequence t run_id + 1 else next_event_sequence t run_id'.
Proof.
  unfold next_event_sequence at 1, advance. cbn [et_next]. case_bool_decide; subst.
  - by rewrite lookup_insert_eq.
  - by rewrite lookup_insert_ne by done.
Qed.

Lemma draft_stored draft row :
  valid_draft draft → er_payload row = dr_payload draft → 1 ≤ er_sequence row → 1 ≤ er_execution_epoch row →
  _stored_event digest payload_size row = Ok (of_record row).
Proof.
  intros Hd Hp Hs He. unfold valid_draft, make_draft, validate_event in Hd. cbn [ev_payload ev_sequence] in Hd. run_inv Hd.
  unfold _stored_event, validate_stored, validate_event. cbn [of_record ev_payload ev_sequence se_execution_epoch se_sequence se_payload].
  rewrite Hp. assert ((1 <=? er_execution_epoch row) = true) as -> by lia.
  assert ((1 <=? er_sequence row) = true) as -> by lia. cbn [ensure mbind result_bind].
  match goal with H : validate_payload _ _ = _ |- _ => rewrite H end. cbn [mbind result_bind].
  match goal with H : (payload_size _ <=? _) = true |- _ => rewrite H end. done.
Qed.

(** What a committed append does: the row of the next sequence number, and nothing else. *)
Record appended (t t' : EventTables) (row : AgentEventRecord) : Prop := {
  app_next : et_next t' = et_next (advance t (er_run_id row));
  app_rows : et_rows t' = <[(er_run_id row, er_sequence row) := row]> (et_rows t);
  app_sequence : er_sequence row = next_event_sequence t (er_run_id row);
  app_epoch : 1 ≤ er_execution_epoch row;
  app_delivery : ∀ key, er_delivery_key row = Some key → ∀ k r, et_rows t !! k = Some r →
    same_delivery (er_run_id row) (er_execution_epoch row) key r = false;
}.

Lemma insert_event_appended t t' row :
  insert_event (advance t (er_run_id row)) row = Ok t' → er_sequence row = next_event_sequence t (er_run_id row) →
  appended t t' row.
Proof.
  unfold insert_event. intros H Hs. run_inv H. bool_hyps. split; [done|done|done|done|].
  intros key Hk k r Hr. rewrite Hk in *.
  match goal with H : is_none ?o = true |- _ => destruct o eqn:Hsc in H; [done|] end.
  by eapply scalar_where_None.
Qed.

Lemma appended_next t t' row run_id : appended t t' row →
  next_event_sequence t' run_id =
  if bool_decide (run_id = er_run_id row) then next_event_sequence t run_id + 1 else next_event_sequence t run_id.
Proof.
  intros [Hn _ _ _ _]. transitivity (next_event_sequence (advance t (er_run_id row)) run_id).
  - unfold next_event_sequence. by rewrite Hn.
  - rewrite next_advance. by case_bool_decide; subst.
Qed.

Lemma appended_inv t t' row :
  events_inv t → appended t t' row → er_tenant_id row = tenant_of (er_run_id row) →
  _stored_event digest payload_size row = Ok (of_record row) → events_inv t'.
Proof.
  intros [Hr Hf Hn Hu] Happ Ht Hv. pose proof (λ r, appended_next t t' row r Happ) as Hnext.
  destruct Happ as [_ Hrows Hs _ Hd]. split.
  - intros run_id s r. rewrite Hrows, lookup_insert. case_decide as E.
    + injection E as <- <-. intros [= <-]. specialize (Hn (er_run_id row)).
      split; [done|done| |done|done]. rewrite Hnext, bool_decide_true by done. lia.
    + intros H%Hr. destruct H. split; [done|done| |done|done]. rewrite Hnext. case_bool_decide; lia.
  - intros run_id s Hrange. rewrite Hnext in Hrange. rewrite Hrows, lookup_insert. destruct (decide (_ = (run_id, s))) as [|Hne]; [by eexists|].
    apply Hf. case_bool_decide; [subst run_id|done]. assert (s ≠ er_sequence row) by congruence. lia.
  - intros run_id. rewrite Hnext. specialize (Hn run_id). case_bool_decide; lia.
  - intros k k' r r' run_id epoch key. rewrite Hrows, !lookup_insert.
    assert (∀ k r, et_rows t !! k = Some r → same_delivery run_id epoch key row = true → same_delivery run_id epoch key r = true →
      False) as Hnew.
    { intros k0 r0 Hr0 (E1 & E2 & E3)%same_delivery_true H2. subst run_id epoch. rewrite (Hd key E3 k0 r0 Hr0) in H2. done. }
    repeat case_decide; intros; simplify_eq; eauto; exfalso; eauto.
Qed.

Lemma _append_idempotent_spec t run_row tenant_id run_id key draft e t' :
  valid_draft draft → (∀ r, 1 ≤ next_event_sequence t r) →
  _append_idempotent digest payload_size t run_row tenant_id run_id key draft = Ok (e, t') →
  (t' = t ∧ ∃ k row, et_rows t !! k = Some row ∧ er_tenant_id row = tenant_id ∧
     same_delivery run_id (rr_execution_epoch run_row) key row = true ∧ er_payload row = dr_payload draft ∧ e = of_record row) ∨
  (∃ row, appended t t' row ∧ er_tenant_id row = tenant_id ∧ er_run_id row = run_id ∧
     same_delivery run_id (rr_execution_epoch run_row) key row = true ∧ er_payload row = dr_payload draft ∧ e = of_record row ∧
     _stored_event digest payload_size row = Ok (of_record row)).
Proof.
  intros Hd Hn H. unfold _append_idempotent in H. destruct (find_delivery _ _ _ _ _) as [row|] eqn:Hfind.
  - left. run_inv H. bool_hyps. split; [done|]. unfold find_delivery in Hfind.
    apply scalar_where_Some in Hfind as [HP [k Hk]]. apply andb_true_iff in HP as [HP1 HP2]. bool_hyps.
    exists k, row. split_and!; [done|done|done|done|].
    match goal with H : _stored_event _ _ _ = Ok _ |- _ => unfold _stored_event, validate_stored in H; run_inv H end. done.
  - right. run_inv H.
    match goal with H : insert_event _ ?r = Ok _ |- _ => rename H into Hi; set (row := r) in * end.
    pose proof (insert_event_appended t _ row Hi eq_refl) as Happ.
    pose proof (app_epoch _ _ _ Happ). exists row.
    assert (_stored_event digest payload_size row = Ok (of_record row)) as Hv
      by (eapply draft_stored; [done|done|apply Hn|done]).
    split_and!; [done|done|done|apply same_delivery_true; done|done| |done]. congruence.
Qed.

Lemma append_spec d t tenant_id run_id draft e t' :
  valid_draft draft → owned d → (∀ r, 1 ≤ next_event_sequence t r) →
  append digest payload_size d t tenant_id run_id draft = Ok (e, t') →
  ∃ row, appended t t' row ∧ er_tenant_id row = tenant_of (er_run_id row) ∧ e = of_record row ∧
    _stored_event digest payload_size row = Ok (of_record row).
Proof.
  intros Hd Ho Hn H. unfold append in H. run_inv H.
  match goal with H : insert_event _ ?r = Ok _ |- _ => rename H into Hi; set (row := r) in * end.
  pose proof (insert_event_appended t _ row Hi eq_refl) as Happ. pose proof (app_epoch _ _ _ Happ). exists row.
  assert (_stored_event digest payload_size row = Ok (of_record row)) as Hv
    by (eapply draft_stored; [done|done|apply Hn|done]).
  split_and!; [done| |congruence|done]. unfold tenant_run in *.
  destruct (runs d !! run_id) as [r|] eqn:Er; [|done]. case_bool_decide; simplify_eq. cbn. by apply Ho.
Qed.

Lemma event_step_appended t t' :
  events_inv t → event_step t t' →
  t' = t ∨ ∃ row, appended t t' row ∧ er_tenant_id row = tenant_of (er_run_id row) ∧
    _stored_event digest payload_size row = Ok (of_record row).
Proof.
  intros Hinv Hstep. pose proof (inv_next t Hinv) as Hn. destruct Hstep as [d t t' tenant_id run_id draft e Ho Hd H
    |d t t' tenant_id run_id key draft e Ho Hd H|now d t t' lease key draft e Ho Hd H].
  - right. destruct (append_spec _ _ _ _ _ _ _ Hd Ho Hn H) as (row & ? & ? & ? & ?). eauto.
  - unfold append_idempotent in H. run_inv H.
    destruct (_append_idempotent_spec _ _ _ _ _ _ _ _ Hd Hn H) as [[-> _]|(row & ? & Et & Er & ? & ? & ? & ?)]; [by left|].
    right. exists row. split_and!; [done| |done]. unfold tenant_run in *.
    destruct (runs d !! run_id) as [r|] eqn:Hr; [|done]. pose proof (Ho _ _ Hr). case_bool_decide; [|done]. congruence.
  - unfold append_idempotent_fenced in H. run_inv H.
    destruct (_append_idempotent_spec _ _ _ _ _ _ _ _ Hd Hn H) as [[-> _]|(row & ? & Et & Er & ? & ? & ? & ?)]; [by left|].
    right. exists row. split_and!; [done| |done]. unfold assert_active_run_lease in *.
    match goal with H : _ ≫= _ = Ok ?v |- _ => run_inv H end. bool_hyps.
    match goal with H : runs d !! _ = Some _ |- _ => pose proof (Ho _ _ H) end. congruence.
Qed.

Lemma event_step_inv t t' : events_inv t → event_step t t' → events_inv t'.
Proof.
  intros Hinv Hstep. destruct (event_step_appended t t' Hinv Hstep) as [->|(row & ? & ? & ?)]; [done|].
  by eapply appended_inv.
Qed.

Lemma event_history_inv t t' : star event_step t t' → events_inv t → events_inv t'.
Proof. apply star_invariant. exact event_step_inv. Qed.

(** ** The log *)

Lemma log_rows_nil t run_id after : latest t run_id ≤ after → log_rows t run_id after = [].
Proof. intros H. unfold log_rows. by rewrite seqZ_nil by lia. Qed.

Lemma log_rows_cons t run_id after : events_inv t → 0 ≤ after < latest t run_id →
  ∃ row, row_inv t run_id (after + 1) row ∧ log_rows t run_id after = row :: log_rows t run_id (after + 1).
Proof.
  intros Hinv H. unfold latest in H. destruct (inv_full t Hinv run_id (after + 1)) as [row Hrow]; [lia|].
  exists row. split; [by eapply inv_rows|]. unfold log_rows. rewrite seqZ_cons by (unfold latest; lia). cbn [omap list_omap].
  rewrite Hrow. repeat f_equal; lia.
Qed.

(** Rule induction on what is left of the log after a cursor. *)
Lemma log_ind t run_id (P : Z → list AgentEventRecord → Prop) : events_inv t →
  (∀ after, 0 ≤ after → latest t run_id ≤ after → P after []) →
  (∀ after row rows, 0 ≤ after < latest t run_id → row_inv t run_id (after + 1) row → P (after + 1) rows →
    P after (row :: rows)) →
  ∀ after, 0 ≤ after → P after (log_rows t run_id after).
Proof.
  intros Hinv Hnil Hcons after Hpos. remember (Z.to_nat (latest t run_id - after)) as n eqn:Hn. revert after Hpos Hn.
  induction n as [|n IH]; intros after Hpos Hn.
  - rewrite log_rows_nil by lia. apply Hnil; lia.
  - destruct (log_rows_cons t run_id after Hinv) as (row & Hrow & ->); [lia|]. apply Hcons; [lia|done|]. apply IH; lia.
Qed.

Lemma log_row_inv t run_id after : events_inv t → 0 ≤ after →
  Forall (λ row, row_inv t run_id (er_sequence row) row ∧ after < er_sequence row) (log_rows t run_id after).
Proof.
  intros Hinv. apply (log_ind t run_id (λ after rows, Forall (λ row, row_inv t run_id (er_sequence row) row ∧
    after < er_sequence row) rows)); [done|by constructor|].
  intros a row rows Ha Hrow IH. pose proof (row_sequence _ _ _ _ Hrow) as Es. constructor; [rewrite Es; split; [done|lia]|].
  eapply Forall_impl; [exact IH|]. cbv beta. intros r [? ?]. split; [done|lia].
Qed.

Lemma log_sequences t run_id after : events_inv t → 0 ≤ after →
  er_sequence <$> log_rows t run_id after = seqZ (after + 1) (latest t run_id - after).
Proof.
  intros Hinv. apply (log_ind t run_id (λ after rows, er_sequence <$> rows = seqZ (after + 1) (latest t run_id - after)));
    [done| |].
  - intros a _ Ha. by rewrite seqZ_nil by lia.
  - intros a row rows Ha Hrow IH. rewrite fmap_cons, IH, (row_sequence _ _ _ _ Hrow), (seqZ_cons (a + 1)) by lia.
    repeat f_equal; lia.
Qed.

Lemma log_length t run_id after : events_inv t → 0 ≤ after →
  length (log_rows t run_id after) = Z.to_nat (latest t run_id - after).
Proof. intros. by rewrite <- (length_fmap er_sequence), log_sequences, length_seqZ. Qed.

Lemma log_rows_drop t run_id n after : events_inv t → 0 ≤ after → (n ≤ length (log_rows t run_id after))%nat →
  drop n (log_rows t run_id after) = log_rows t run_id (after + Z.of_nat n).
Proof.
  intros Hinv. revert after. induction n as [|n IH]; intros after Hpos Hle.
  - rewrite drop_0. f_equal. lia.
  - rewrite log_length in Hle by done.
    destruct (log_rows_cons t run_id after Hinv) as (row & _ & E); [lia|]. rewrite E. cbn [drop].
    rewrite IH; [f_equal; lia|lia|]. rewrite log_length by (done || lia). lia.
Qed.

(** ** Rows selected by the readers *)

#[local] Instance earlier_trans : Transitive earlier.
Proof. unfold earlier. intros a b c. lia. Qed.
#[local] Instance earlier_total : Total earlier.
Proof. unfold earlier. intros a b. lia. Qed.

Lemma select_NoDup t P : events_inv t → NoDup (select_where P (et_rows t)).
Proof.
  intros Hinv. unfold select_where. apply NoDup_filter, NoDup_fmap_2_strong; [|apply NoDup_map_to_list].
  intros [[r s] row] [[r' s'] row'] H1%elem_of_map_to_list H2%elem_of_map_to_list E. cbn in E. subst row'.
  destruct (inv_rows t Hinv _ _ _ H1), (inv_rows t Hinv _ _ _ H2). congruence.
Qed.

Lemma log_sorted t run_id after : events_inv t → 0 ≤ after → StronglySorted earlier (log_rows t run_id after).
Proof.
  intros Hinv Hpos. pose proof (log_sequences t run_id after Hinv Hpos) as Hs.
  assert (∀ l m n, er_sequence <$> l = seqZ m n → StronglySorted earlier l) as Hgen; [|by eapply Hgen].
  induction l as [|row l IH]; intros m n E; constructor.
  - destruct (Z.le_gt_cases n 0); [by rewrite seqZ_nil in E|]. rewrite seqZ_cons in E by lia. injection E as _ E. by eapply IH.
  - destruct (Z.le_gt_cases n 0); [by rewrite seqZ_nil in E|]. rewrite seqZ_cons in E by lia. injection E as E1 E.
    apply Forall_forall. intros r Hr. apply (list_elem_of_fmap_2 er_sequence) in Hr. change (er_sequence r ∈ list_fmap _ _ er_sequence l) in Hr. rewrite E in Hr.
    apply elem_of_seqZ in Hr. unfold earlier. lia.
Qed.

Lemma rows_after_log t run_id after : events_inv t → 0 ≤ after →
  rows_after t (tenant_of run_id) run_id after = log_rows t run_id after.
Proof.
  intros Hinv Hpos. pose proof (log_row_inv t run_id after Hinv Hpos) as Hl. rewrite Forall_forall in Hl.
  unfold rows_after. set (sel := select_where _ _).
  assert (∀ row, row ∈ sel ↔ row ∈ log_rows t run_id after) as Hmem.
  { intros row. unfold sel. rewrite elem_of_select, !andb_true_iff, !bool_decide_eq_true, Z.ltb_lt. split.
    - intros [[[_ Er] Ha] [[r s] Hk]]. destruct (inv_rows t Hinv _ _ _ Hk) as [E1 E2 Hrange _ _]. subst s.
      rewrite Er in E1. subst r. unfold log_rows. apply list_elem_of_omap. exists (er_sequence row). split; [|done].
      apply elem_of_seqZ. unfold latest. lia.
    - intros Hr. destruct (Hl row Hr) as [[E1 E2 Hrange Et _] Ha]. split_and!; [by rewrite Et|done|done|].
      unfold log_rows in Hr. apply list_elem_of_omap in Hr as (s & _ & Hk). eauto. }
  apply (StronglySorted_unique_strong earlier).
  - intros r1 r2 H1 H2 L1 L2. rewrite merge_sort_Permutation, Hmem in H1.
    unfold log_rows in H1, H2. apply list_elem_of_omap in H1 as (s1 & _ & K1). apply list_elem_of_omap in H2 as (s2 & _ & K2).
    destruct (inv_rows t Hinv _ _ _ K1), (inv_rows t Hinv _ _ _ K2). unfold earlier in *.
    assert (s1 = s2) by lia. congruence.
  - apply (StronglySorted_merge_sort _).
  - by apply log_sorted.
  - rewrite merge_sort_Permutation. apply NoDup_Permutation; [by apply select_NoDup| |done].
    apply (NoDup_fmap_1 er_sequence). rewrite log_sequences by done. apply NoDup_seqZ.
Qed.

(** ** Pages *)

Lemma contiguous_seqZ m n : contiguous (seqZ m n) = true.
Proof.
  remember (Z.to_nat n) as k eqn:Hk. revert m n Hk. induction k as [|k IH]; intros m n Hk; [by rewrite seqZ_nil by lia|].
  rewrite seqZ_cons by lia. destruct k; [by rewrite (seqZ_nil (Z.succ m)) by lia|]. specialize (IH (Z.succ m) (Z.pred n)).
  rewrite (seqZ_cons (Z.succ m)) in * by lia. cbn [contiguous] in *. rewrite IH by lia.
  by rewrite (proj2 (Z.eqb_eq _ _)) by lia.
Qed.

Lemma take_seqZ m n len : (n ≤ Z.to_nat len)%nat → take n (seqZ m len) = seqZ m (Z.of_nat n).
Proof.
  intros H. destruct (Z.le_gt_cases 0 len); [|by replace n with 0%nat by lia]. replace len with (Z.of_nat n + (len - Z.of_nat n)) by lia. rewrite seqZ_app by lia.
  apply take_app_length'. rewrite length_seqZ. lia.
Qed.

Lemma seqZ_max m n : seqZ m n = seqZ m (Z.of_nat (Z.to_nat n)).
Proof. unfold seqZ. by rewrite Nat2Z.id. Qed.

Definition bytes (rows : list AgentEventRecord) : Z :=
  foldr Z.add 0 ((λ row, event_size (of_record row) + 1) <$> rows).

(** Each event fits a page of its own. *)
Definition fits (max_page_bytes : Z) (row : AgentEventRecord) : Prop :=
  EVENT_PAGE_ENVELOPE_RESERVE_BYTES + (event_size (of_record row) + 1) ≤ max_page_bytes.

Lemma fill_page_spec max_page_bytes limit t run_id rows : ∀ retained retained_bytes expected,
  Forall (λ row, row_inv t run_id (er_sequence row) row) rows →
  er_sequence <$> rows = seqZ expected (Z.of_nat (length rows)) →
  (length retained ≤ limit)%nat → retained_bytes ≤ max_page_bytes →
  ∃ n, fill_page digest payload_size event_size max_page_bytes limit retained retained_bytes expected rows =
    Ok (retained ++ (of_record <$> take n rows), n <? length rows)%nat ∧ (n ≤ length rows)%nat ∧
    (length retained + n ≤ limit)%nat ∧ retained_bytes + bytes (take n rows) ≤ max_page_bytes ∧
    (∀ row rest, rows = row :: rest → (length retained < limit)%nat →
      retained_bytes + (event_size (of_record row) + 1) ≤ max_page_bytes → (1 ≤ n)%nat).
Proof.
  induction rows as [|row rows IH]; intros retained rb expected Hinv Hseq Hlen Hrb.
  - exists 0%nat. cbn. rewrite app_nil_r. split_and!; [done|lia|lia|lia|done].
  - apply Forall_cons in Hinv as [Hrow Hinv]. cbn [length] in Hseq. rewrite fmap_cons, seqZ_cons in Hseq by lia.
    injection Hseq as Es Hseq. cbn [fill_page]. rewrite (row_valid _ _ _ _ Hrow). cbn [mbind result_bind].
    change (se_sequence (of_record row)) with (er_sequence row). rewrite Es, Z.eqb_refl. cbn [ensure mbind result_bind].
    destruct ((limit <=? length retained)%nat || (max_page_bytes <? rb + (event_size (of_record row) + 1))) eqn:Hfull.
    + exists 0%nat. cbn [take fmap list_fmap]. rewrite app_nil_r. split_and!; [done|lia|lia|cbn; lia|].
      intros ? ? [= <- <-] Hl Hb. apply orb_true_iff in Hfull as [Hf|Hf]; [apply Nat.leb_le in Hf; lia|bool_hyps; lia].
    + apply orb_false_iff in Hfull as [Hf1%Nat.leb_gt Hf2%Z.ltb_ge].
      destruct (IH (retained ++ [of_record row]) (rb + (event_size (of_record row) + 1)) (expected + 1)) as
        (n & E & Hn & Hl & Hb & _); [done| |rewrite length_app; cbn; lia|done|].
      { etransitivity; [exact Hseq|]. f_equal; lia. }
      exists (S n). rewrite length_app in Hl. cbn [length] in Hl.
      split_and!; [|cbn [length]; lia|lia|cbn [take]; unfold bytes in *; rewrite fmap_cons; cbn [foldr]; lia|lia].
      rewrite E. cbn [take length]. rewrite fmap_cons, <- app_assoc. done.
Qed.

Lemma log_lookup t run_id after n row : events_inv t → 0 ≤ after → log_rows t run_id after !! n = Some row →
  er_sequence row = after + 1 + Z.of_nat n.
Proof.
  intros Hinv Hpos Hn. pose proof (log_sequences t run_id after Hinv Hpos) as Hs. apply (f_equal (.!! n)) in Hs.
  rewrite list_lookup_fmap, Hn in Hs. symmetry in Hs. by apply lookup_seqZ in Hs as [-> _].
Qed.

(** The cursor after the first [n] events of the log. *)
Definition cursor_of (events : list StoredEvent) (after : Z) : Z :=
  match last events with Some e => se_sequence e | None => after end.

Lemma cursor_take t run_id after n : events_inv t → 0 ≤ after → (n ≤ length (log_rows t run_id after))%nat →
  cursor_of (of_record <$> take n (log_rows t run_id after)) after = after + Z.of_nat n.
Proof.
  intros Hinv Hpos Hn. unfold cursor_of. destruct n as [|n]; [rewrite take_0; cbn; lia|].
  rewrite last_lookup, length_fmap, length_take_le, list_lookup_fmap by done. cbn [Nat.pred]. rewrite lookup_take_lt by lia.
  destruct (log_rows t run_id after !! n) as [row|] eqn:Hr; [|apply lookup_ge_None in Hr; lia].
  cbn. rewrite (log_lookup _ _ _ _ _ Hinv Hpos Hr). lia.
Qed.

(** ** Growth *)

Lemma log_appended t t' row run_id after : events_inv t → 0 ≤ after → appended t t' row →
  log_rows t' run_id after = log_rows t run_id after ++
    (if bool_decide (run_id = er_run_id row) && (after <? er_sequence row) then [row] else []).
Proof.
  intros Hinv Hpos Happ. pose proof (appended_next t t' row run_id Happ) as Hn. destruct Happ as [_ Hrows Hs _ _].
  assert (omap (λ s, et_rows t' !! (run_id, s)) (seqZ (after + 1) (latest t run_id - after)) = log_rows t run_id after) as Hold.
  { unfold log_rows. apply list_omap_ext, Forall_Forall2_diag, Forall_seqZ. intros s Hr. rewrite Hrows.
    apply lookup_insert_ne. intros [= <- <-]. unfold latest in Hr. lia. }
  rewrite <- Hold. unfold log_rows, latest. rewrite Hn. case_bool_decide as Er; [subst run_id|by rewrite app_nil_r].
  destruct (Z.ltb_spec after (er_sequence row)); cbn [andb].
  - replace (next_event_sequence t (er_run_id row) + 1 - 1 - after) with
      (next_event_sequence t (er_run_id row) - 1 - after + 1) by lia.
    rewrite seqZ_app, omap_app by lia. f_equal. rewrite (seqZ_cons _ 1), seqZ_nil by lia. cbn.
    rewrite Hrows. replace (after + 1 + (next_event_sequence t (er_run_id row) - 1 - after)) with (er_sequence row) by lia.
    by rewrite lookup_insert_eq.
  - by rewrite app_nil_r, !seqZ_nil by lia.
Qed.

Lemma log_prefix run_id after t t' : 0 ≤ after → star event_step t t' → events_inv t →
  log_rows t run_id after `prefix_of` log_rows t' run_id after.
Proof.
  intros Hpos Hstar. induction Hstar as [t|t1 t2 t3 Hstep _ IH]; intros Hinv; [done|].
  etransitivity; [|apply IH; by eapply event_step_inv].
  destruct (event_step_appended t1 t2 Hinv Hstep) as [->|(row & Happ & _)]; [done|].
  rewrite (log_appended t1 t2 row run_id after Hinv Hpos Happ). apply prefix_app_r. done.
Qed.
Section Readers.
Context (max_page_bytes : Z) (page_limit : nat).
(** The JSON of a page is its events and commas within the reserved envelope. *)
Context (page_bytes : ∀ p, page_size p ≤
  EVENT_PAGE_ENVELOPE_RESERVE_BYTES + foldr Z.add 0 ((λ e, event_size e + 1) <$> pg_events p)).
Context (max_bytes : EVENT_PAGE_ENVELOPE_RESERVE_BYTES ≤ max_page_bytes ≤ MAX_EVENT_PAGE_BYTES).
Context (limit_ok : ((1 <=? page_limit)%nat && (page_limit <=? MAX_EVENT_PAGE_SIZE)%nat) = true).

Lemma one_run_page run_id rows n : Forall (λ row, er_run_id row = run_id) rows → (rows ≠ [] → 1 ≤ n)%nat →
  match of_record <$> take n rows with
  | [] => negb (n <? length rows)%nat
  | e :: rest => forallb (λ e', bool_decide (se_run_id e' = se_run_id e)) rest
  end = true.
Proof.
  intros Hrows Hn. destruct rows as [|r rows]; [by destruct n|]. destruct n as [|n]; [by specialize (Hn ltac:(done)); lia|].
  apply Forall_cons in Hrows as [Hr Hrows]. apply forallb_forall. intros e He%list_elem_of_In.
  apply list_elem_of_fmap in He as (r' & -> & Hr'). apply bool_decide_eq_true. cbn. rewrite Hr.
  rewrite Forall_forall in Hrows. apply Hrows. apply (elem_of_take r' n rows) in Hr' as (i & Hi & _). by eapply list_elem_of_lookup_2.
Qed.

Lemma validate_page_ok t run_id after n : events_inv t → 0 ≤ after →
  let rows := log_rows t run_id after in
  (n ≤ length rows)%nat → (n ≤ page_limit)%nat → (rows ≠ [] → 1 ≤ n)%nat →
  EVENT_PAGE_ENVELOPE_RESERVE_BYTES + bytes (take n rows) ≤ max_page_bytes →
  let p := mkEventPage (of_record <$> take n rows) (after + Z.of_nat n) (n <? length rows)%nat in
  validate_page page_size p = Ok p.
Proof.
  intros Hinv Hpos rows Hn Hl Hne Hb p. unfold validate_page. subst p. cbn [pg_events pg_next_after pg_has_more].
  apply andb_true_iff in limit_ok as [H1 H2].
  assert (se_sequence <$> (of_record <$> take n rows) = seqZ (after + 1) (Z.of_nat n)) as Eseq.
  { rewrite <- list_fmap_compose, (list_fmap_ext _ er_sequence) by done. rewrite fmap_take. unfold rows.
    unfold rows in Hn. rewrite log_length in Hn by done. rewrite log_sequences by done. apply take_seqZ. lia. }
  rewrite Eseq, contiguous_seqZ, length_fmap, length_take_le by done.
  rewrite (proj2 (Nat.leb_le n MAX_EVENT_PAGE_SIZE)) by (etransitivity; [exact Hl|by apply Nat.leb_le]).
  rewrite (proj2 (Z.leb_le 0 _)) by lia. cbn [ensure mbind result_bind].
  rewrite (one_run_page run_id rows n); [|eapply Forall_impl; [by apply log_row_inv|]; intros ? [Hr _]; apply Hr|done].
  assert (match last (seqZ (after + 1) (Z.of_nat n)) with Some s => after + Z.of_nat n =? s | None => true end = true) as ->.
  { destruct n as [|n]; [done|]. rewrite seqZ_S, last_snoc. apply Z.eqb_eq. lia. }
  cbn [ensure mbind result_bind]. rewrite (proj2 (Z.leb_le _ MAX_EVENT_PAGE_BYTES)); [done|].
  etransitivity; [apply page_bytes|]. cbn [pg_events]. unfold bytes in Hb. rewrite <- list_fmap_compose. unfold compose. lia.
Qed.

Lemma read_page_spec t run_id after : events_inv t → 0 ≤ after →
  let rows := log_rows t run_id after in Forall (fits max_page_bytes) rows →
  ∃ n, read_page digest payload_size event_size page_size max_page_bytes t (tenant_of run_id) run_id after page_limit =
      Ok (mkEventPage (of_record <$> take n rows) (after + Z.of_nat n) (n <? length rows)%nat) ∧
    (n ≤ length rows)%nat ∧ (rows ≠ [] → 1 ≤ n)%nat.
Proof.
  intros Hinv Hpos rows Hfits. unfold read_page. rewrite rows_after_log, limit_ok, (proj2 (Z.leb_le 0 after)) by done.
  cbn [ensure mbind result_bind]. fold rows. pose proof (andb_prop _ _ limit_ok) as [Hl1%Nat.leb_le _].
  destruct (fill_page_spec max_page_bytes page_limit t run_id (take (S page_limit) rows) []
    EVENT_PAGE_ENVELOPE_RESERVE_BYTES (after + 1)) as (n & E & Hn & Hl & Hb & H1).
  { apply Forall_take. eapply Forall_impl; [by apply log_row_inv|]. by intros ? [? _]. }
  { rewrite fmap_take. unfold rows. rewrite length_take, log_length, log_sequences by done.
    destruct (Nat.le_ge_cases (S page_limit) (Z.to_nat (latest t run_id - after))).
    - rewrite take_seqZ by lia. f_equal. lia.
    - rewrite take_ge by (rewrite length_seqZ; lia). rewrite Nat.min_r by done. apply seqZ_max. }
  { cbn. lia. }
  { lia. }
  cbn [length Nat.add app] in *. rewrite length_take in *. rewrite take_take, Nat.min_l in * by lia.
  assert ((n <? S page_limit `min` length rows) = (n <? length rows))%nat as Emore
    by (apply eq_bool_prop_intro; rewrite !Is_true_true, !Nat.ltb_lt; lia).
  rewrite E, Emore. cbn [mbind result_bind].
  assert (rows ≠ [] → 1 ≤ n)%nat as Hne.
  { intros Hne. destruct rows as [|row rest] eqn:Er; [done|]. apply Forall_cons in Hfits as [Hfit _].
    exact (H1 row _ eq_refl Hl1 Hfit). }
  exists n. split_and!; [|lia|done].
  change (match last (of_record <$> take n rows) with Some e => se_sequence e | None => after end)
    with (cursor_of (of_record <$> take n rows) after). pose proof (cursor_take t run_id after n Hinv Hpos) as Hc.
  fold rows in Hc. rewrite Hc by lia.
  apply (validate_page_ok t run_id after n Hinv Hpos); [fold rows; lia|lia|done|done].
Qed.

(** Replaying: the pages cover the log. *)
Lemma iter_pages_log t run_id fuel : ∀ after, events_inv t → 0 ≤ after →
  Forall (fits max_page_bytes) (log_rows t run_id after) → (length (log_rows t run_id after) < fuel)%nat →
  iter_pages digest payload_size event_size page_size fuel max_page_bytes t (tenant_of run_id) run_id after page_limit =
  Ok (event_log t run_id after).
Proof.
  induction fuel as [|fuel IH]; intros after Hinv Hpos Hfits Hfuel; [lia|]. cbn [iter_pages].
  destruct (read_page_spec t run_id after Hinv Hpos Hfits) as (n & -> & Hn & Hne). cbn [mbind result_bind pg_events pg_has_more].
  destruct (n <? length (log_rows t run_id after))%nat eqn:Hmore.
  - apply Nat.ltb_lt in Hmore. fold (cursor_of (of_record <$> take n (log_rows t run_id after)) after).
    rewrite cursor_take by done. assert (log_rows t run_id after ≠ []) as Hnn by (by intros E; rewrite E in Hmore; cbn in *; lia).
    specialize (Hne Hnn). pose proof (log_rows_drop t run_id n after Hinv Hpos Hn) as Hdrop.
    rewrite IH; [|done|lia|rewrite <- Hdrop; by apply Forall_drop|rewrite <- Hdrop, length_drop; lia].
    cbn [mbind result_bind]. unfold event_log. by rewrite <- Hdrop, <- fmap_app, take_drop.
  - apply Nat.ltb_ge in Hmore. rewrite take_ge by done. done.
Qed.

(** Following the log while it grows: the events read are the next ones of the log. *)
Lemma reads_last t reads : Sorted (star event_step) (t :: reads) → star event_step t (default t (last reads)).
Proof.
  revert t. induction reads as [|t' reads IH]; intros t Hs; [constructor|]. inversion Hs as [|? ? Hs' Hhd]; subst.
  inversion Hhd; subst. rewrite last_cons. eapply star_trans; [done|]. specialize (IH t' Hs'). by destruct (last reads).
Qed.

Lemma stream_log run_id reads : ∀ after t,
  events_inv t → 0 ≤ after → Sorted (star event_step) (t :: reads) →
  let final := default t (last reads) in
  Forall (fits max_page_bytes) (log_rows final run_id after) →
  ∃ n, stream digest payload_size event_size page_size max_page_bytes (t :: reads) (tenant_of run_id) run_id after page_limit =
      Ok (take n (event_log final run_id after)).
Proof.
  induction reads as [|t' reads IH]; intros after t Hinv Hpos Hsorted final Hfits; cbn [stream].
  - destruct (read_page_spec t run_id after Hinv Hpos Hfits) as (n & -> & Hn & _).
    exists n. cbn. by rewrite app_nil_r, fmap_take.
  - pose proof (reads_last _ _ Hsorted) as Hstar. fold final in Hstar.
    pose proof (event_history_inv _ _ Hstar Hinv) as Hfinal.
    destruct (log_prefix run_id after t final Hpos Hstar Hinv) as [more Hmore].
    assert (Forall (fits max_page_bytes) (log_rows t run_id after)) as Hfits' by (by rewrite Hmore in Hfits; apply Forall_app in Hfits as [? _]).
    destruct (read_page_spec t run_id after Hinv Hpos Hfits') as (n & -> & Hn & _). cbn [mbind result_bind pg_events].
    fold (cursor_of (of_record <$> take n (log_rows t run_id after)) after). rewrite cursor_take by done.
    inversion Hsorted as [|? ? Hs' Hhd]; subst. inversion Hhd; subst.
    assert (default t' (last reads) = final) as Efin by (unfold final; rewrite last_cons; by destruct (last reads)).
    assert (n ≤ length (log_rows final run_id after))%nat as Hn' by (rewrite Hmore, length_app; lia).
    pose proof (log_rows_drop final run_id n after Hfinal Hpos Hn') as Hdrop.
    destruct (IH (after + Z.of_nat n) t') as [m E]; [by eapply event_history_inv|lia|done| |].
    { rewrite Efin, <- Hdrop. by apply Forall_drop. }
    cbn [stream] in E. rewrite E, Efin. cbn [mbind result_bind]. exists (n + m)%nat. unfold event_log. rewrite <- Hdrop, <- !fmap_take, <- fmap_app.
    replace (take n (log_rows t run_id after)) with (take n (log_rows final run_id after))
      by (rewrite Hmore; apply take_app_le; lia).
    by rewrite take_take_drop.
Qed.
End Readers.

(** Along every history of appends, by any callers, the log of a run is numbered 1, 2, 3, ... without a gap, and
    what was in the log stays at its place. *)
Theorem event_log_append_only t t' run_id :
  star event_step no_events t → star event_step t t' →
  se_sequence <$> event_log t run_id 0 = seqZ 1 (latest t run_id) ∧
  event_log t run_id 0 `prefix_of` event_log t' run_id 0.
Proof.
  intros H1 H2. pose proof (event_history_inv _ _ H1 no_events_inv) as Hinv. split.
  - unfold event_log. rewrite <- list_fmap_compose, (list_fmap_ext _ er_sequence) by done.
    rewrite log_sequences by done. f_equal. lia.
  - destruct (log_prefix run_id 0 t t' ltac:(done) H2 Hinv) as [more E]. exists (of_record <$> more).
    unfold event_log. by rewrite E, fmap_app.
Qed.

Lemma log_size t run_id after : events_inv t → 0 ≤ after → (length (log_rows t run_id after) ≤ size (et_rows t))%nat.
Proof.
  intros Hinv Hpos. rewrite <- length_map_to_list, <- (length_fmap snd). apply submseteq_length, NoDup_submseteq.
  - apply (NoDup_fmap_1 er_sequence). rewrite log_sequences by done. apply NoDup_seqZ.
  - intros row Hrow. unfold log_rows in Hrow. apply list_elem_of_omap in Hrow as (s & _ & Hs).
    apply list_elem_of_fmap. exists ((run_id, s), row). split; [done|]. by apply elem_of_map_to_list.
Qed.

(** C25: A replay terminates and yields exactly the events after its cursor, in order, when each event fits a page. *)
Theorem replay_yields_log max_page_bytes page_limit t run_id after :
  star event_step no_events t → 0 ≤ after →
  (∀ p, page_size p ≤ EVENT_PAGE_ENVELOPE_RESERVE_BYTES + foldr Z.add 0 ((λ e, event_size e + 1) <$> pg_events p)) →
  EVENT_PAGE_ENVELOPE_RESERVE_BYTES ≤ max_page_bytes ≤ MAX_EVENT_PAGE_BYTES →
  ((1 <=? page_limit) && (page_limit <=? MAX_EVENT_PAGE_SIZE))%nat = true →
  Forall (fits max_page_bytes) (log_rows t run_id after) →
  iter_after digest payload_size event_size page_size max_page_bytes t (tenant_of run_id) run_id after page_limit =
  Ok (event_log t run_id after).
Proof.
  intros H1 Hpos Hpage Hmax Hlimit Hfits. pose proof (event_history_inv _ _ H1 no_events_inv) as Hinv.
  unfold iter_after. apply iter_pages_log; [done|done|done|done|done|done|]. pose proof (log_size t run_id after Hinv Hpos). lia.
Qed.

(** A reader that follows a growing log sees the events after its cursor in order, none skipped and none twice. *)
Theorem stream_follows_log max_page_bytes page_limit t reads run_id after :
  let final := default t (last reads) in
  star event_step no_events t → Sorted (star event_step) (t :: reads) → 0 ≤ after →
  (∀ p, page_size p ≤ EVENT_PAGE_ENVELOPE_RESERVE_BYTES + foldr Z.add 0 ((λ e, event_size e + 1) <$> pg_events p)) →
  EVENT_PAGE_ENVELOPE_RESERVE_BYTES ≤ max_page_bytes ≤ MAX_EVENT_PAGE_BYTES →
  ((1 <=? page_limit) && (page_limit <=? MAX_EVENT_PAGE_SIZE))%nat = true →
  Forall (fits max_page_bytes) (log_rows final run_id after) →
  ∃ n, stream digest payload_size event_size page_size max_page_bytes (t :: reads) (tenant_of run_id) run_id after page_limit =
    Ok (take n (event_log final run_id after)).
Proof.
  intros final H1 Hsorted Hpos Hpage Hmax Hlimit Hfits. pose proof (event_history_inv _ _ H1 no_events_inv) as Hinv.
  by apply stream_log.
Qed.

(** A row once stored is found again. *)
Lemma row_kept t t' k row : star event_step t t' → events_inv t → et_rows t !! k = Some row → et_rows t' !! k = Some row.
Proof.
  induction 1 as [|t1 t2 t3 Hstep _ IH]; intros Hinv Hk; [done|]. apply IH; [by eapply event_step_inv|].
  destruct (event_step_appended t1 t2 Hinv Hstep) as [->|(new & [_ Hrows Hs _ _] & _)]; [done|].
  rewrite Hrows, lookup_insert_ne; [done|]. intros <-. destruct (inv_rows _ Hinv _ _ _ Hk). lia.
Qed.

Lemma active_lease_run d now lease r : owned d → assert_active_run_lease d now lease = Ok r →
  rr_execution_epoch r = lease_execution_epoch lease ∧ lease_tenant_id lease = tenant_of (lease_run_id lease).
Proof.
  intros Ho H. unfold assert_active_run_lease in H. run_inv H. bool_hyps.
  match goal with H : runs d !! _ = Some _ |- _ => pose proof (Ho _ _ H) end. split; congruence.
Qed.

(** The row behind an acknowledged delivery. *)
Lemma delivery_row now d t lease key draft e t' : events_inv t → owned d → valid_draft draft →
  append_idempotent_fenced digest payload_size now d t lease key draft = Ok (e, t') →
  request_identifier_ok key = true ∧ ∃ k row, et_rows t' !! k = Some row ∧ er_payload row = dr_payload draft ∧ e = of_record row ∧
    same_delivery (lease_run_id lease) (lease_execution_epoch lease) key row = true.
Proof.
  intros Hinv Ho Hd H. unfold append_idempotent_fenced, _validate_delivery_key in H. run_inv H.
  match goal with H : assert_active_run_lease _ _ _ = Ok _ |- _ => destruct (active_lease_run _ _ _ _ Ho H) as [<- _] end.
  split; [done|].
  destruct (_append_idempotent_spec _ _ _ _ _ _ _ _ Hd (inv_next t Hinv) H)
    as [(-> & k & row & Hk & _ & Hs & Hp & He)|(row & [_ Hrows _ _ _] & _ & _ & Hs & Hp & He & _)].
  - by exists k, row.
  - exists (er_run_id row, er_sequence row), row. rewrite Hrows, lookup_insert_eq. done.
Qed.

Lemma find_delivery_row t k row run_id epoch key : events_inv t → et_rows t !! k = Some row →
  same_delivery run_id epoch key row = true → find_delivery t (tenant_of run_id) run_id epoch key = Some row.
Proof.
  intros Hinv Hk Hs. destruct k as [r s]. pose proof (inv_rows _ Hinv _ _ _ Hk) as Hrow.
  pose proof (proj1 (same_delivery_true _ _ _ _) Hs) as (Er & _ & _).
  unfold find_delivery. eapply scalar_where_unique; [exact Hk| |].
  - rewrite Hs, andb_true_r. apply bool_decide_eq_true. rewrite (row_tenant _ _ _ _ Hrow). f_equal.
    rewrite <- Er. symmetry. apply Hrow.
  - intros k' row' Hk' HP. apply andb_true_iff in HP as [_ HP]. by eapply (inv_delivery t Hinv).
Qed.

(** C24: Delivery exactly once: after a worker's event was acknowledged under a delivery key, the same delivery in the same
    execution epoch (by this or a later lease, after any other appends) returns the stored event and
    changes nothing, and another event under the key is refused. *)
Theorem delivery_exactly_once now d lease key draft t e t1 t2 now' d' lease' draft' :
  star event_step no_events t → owned d → owned d' → valid_draft draft →
  append_idempotent_fenced digest payload_size now d t lease key draft = Ok (e, t1) → star event_step t1 t2 →
  lease_run_id lease' = lease_run_id lease → lease_execution_epoch lease' = lease_execution_epoch lease →
  is_ok (assert_active_run_lease d' now' lease') = true →
  se_payload e = dr_payload draft ∧
  append_idempotent_fenced digest payload_size now' d' t2 lease' key draft' =
  if bool_decide (dr_payload draft' = dr_payload draft) then Ok (e, t2)
  else Err (DomainOperationError "event_delivery_conflict" false).
Proof.
  intros H0 Ho Ho' Hd H Hstar Erun Eepoch Hactive. pose proof (event_history_inv _ _ H0 no_events_inv) as Hinv.
  assert (event_step t t1) as Hstep by exact (step_append_fenced _ _ _ _ _ _ _ _ Ho Hd H).
  pose proof (event_step_inv _ _ Hinv Hstep) as Hinv1. pose proof (event_history_inv _ _ Hstar Hinv1) as Hinv2.
  destruct (delivery_row _ _ _ _ _ _ _ _ Hinv Ho Hd H) as (Hkey & k & row & Hk & Hp & -> & Hs). split; [exact Hp|].
  apply (row_kept _ _ _ _ Hstar Hinv1) in Hk.
  unfold append_idempotent_fenced, _validate_delivery_key. rewrite Hkey. cbn [ensure mbind result_bind].
  destruct (assert_active_run_lease d' now' lease') as [r|] eqn:Ha; [|done]. cbn [mbind result_bind].
  destruct (active_lease_run _ _ _ _ Ho' Ha) as [He Ht].
  unfold _append_idempotent. rewrite He, Ht, Erun, Eepoch, (find_delivery_row t2 k row _ _ _ Hinv2 Hk Hs), Hp.
  destruct k as [r0 s]. pose proof (row_valid _ _ _ _ (inv_rows _ Hinv2 _ _ _ Hk)) as Hv.
  destruct (decide (dr_payload draft' = dr_payload draft)) as [E|E].
  - rewrite !bool_decide_true by congruence. cbn [ensure mbind result_bind]. by rewrite Hv.
  - by rewrite !bool_decide_false by congruence.
Qed.
End Store.
