(* ===== verification/AgentDelivery.v ===== *)
(** * An attempt: the loop under its executor

    The executor of the worker turns the events of one loop into the result that
    settles the lease: every attempt whose loop returns ends in the status its last
    event announces.  It delivers the events to the durable log: when the attempt
    settles, the log of the run has grown by exactly the events of the loop. *)

From stdpp Require Import base list sets gmap strings pretty.
From Stdlib Require Import ZArith Lia.
From S2P Require Import Prelude PyBase Domain Tables Contracts RunQueue Approvals Transcripts Execution Recovery TaskPlans PyText Gateway AgentEvents EventStore PyEffects ToolTurn ModelTurn AgentLoop Executor ToolTurnHistory ToolTurnEvents AgentLoopProperties EventStoreProperties.

(** ** The result *)

(** The result the last event of a loop stands for *)
Definition announces (p : AgentPayload) (r : RunExecutionResult) : Prop :=
  match p with
  | RunCompleted _ _ => res_status r = COMPLETED
  | RunFailed d => res_status r = FAILED ∧ res_error r = Some d
  | _ => res_status r = WAITING_APPROVAL
  end.

Lemma validate_result_id r r' : validate_run_execution_result r = Ok r' → r' = r.
Proof. unfold validate_run_execution_result. intros H. by run_inv H. Qed.

Section Attempt.
Variable digest : json → pystr.
Context {E : Type}.
Variable append_event : timestamp → Db → E → RunLease → pystr → AgentEvent → result E.

Lemma observe_open has now lease (s : attempt_state) e s' fin :
  ends_run (ev_payload e) = false →
  observe_event digest append_event has now lease s e = Ok (s', fin) →
  fin = None ∧ (stops (ev_payload e) = true → at_deferred s' = Some WAITING_APPROVAL).
Proof.
  intros He H. unfold observe_event in H. apply bind_Ok in H as ([observed d] & _ & H). apply bind_Ok in H as (ev & _ & H).
  destruct (ev_payload e); try done; injection H as <- <-; done.
Qed.

Lemma observe_end has now lease (s : attempt_state) e s' fin :
  ends_run (ev_payload e) = true →
  observe_event digest append_event has now lease s e = Ok (s', fin) → ∃ r, fin = Some r ∧ announces (ev_payload e) r.
Proof.
  intros He H. unfold observe_event in H. apply bind_Ok in H as ([observed d] & _ & H). apply bind_Ok in H as (ev & _ & H).
  destruct (ev_payload e); try done; apply bind_Ok in H as (r & Hr & [= <- <-]); apply validate_result_id in Hr as ->;
    by eexists.
Qed.

Lemma run_events_end has lease (s : attempt_state) events before e r s' :
  events.*2 = before ++ [e] → open_events before → settles (ev_payload e) = true →
  run_events digest append_event has lease s events = Ok (r, s') → announces (ev_payload e) r.
Proof.
  revert s before. induction events as [|[now ev] events IH]; intros s before Hev Ho He H.
  { by destruct before. }
  cbn [run_events] in H. apply bind_Ok in H as ([s1 fin] & H1 & H).
  destruct before as [|b before]; rewrite fmap_cons in Hev; injection Hev as Hb Hrest; cbn [snd] in Hb; subst ev.
  - destruct events as [|? ?]; [|done]. unfold settles in He. destruct (ends_run (ev_payload e)) eqn:Hends.
    + destruct (observe_end _ _ _ _ _ _ _ Hends H1) as (r' & -> & Ha). by injection H as <- <-.
    + destruct (observe_open _ _ _ _ _ _ _ Hends H1) as [-> Hd]. cbn [orb] in He. cbn [run_events] in H.
      rewrite (Hd He) in H. apply bind_Ok in H as (r' & Hr & [= <- <-]). apply validate_result_id in Hr as ->.
      destruct (ev_payload e); done.
  - apply Forall_cons in Ho as [Hb Ho]. destruct (observe_open _ _ _ _ _ _ _ Hb H1) as [-> _]. by eapply IH.
Qed.

(** C22: attempt result: when the loop returns and the executor has persisted all its events, the attempt is
    settled with what the last event announces: completed, failed with the same error, or waiting for
    approval; the executor's own verdict that the loop ended without a result is never reached. *)
Theorem attempt_result_follows_loop {W} (env : LoopEnvironment W) config redactor redact_text redact error_size
    payload_size request_size sha256 uuid_text input w ls has lease (s : attempt_state) events r s' :
  run env config redactor redact_text redact error_size digest payload_size request_size sha256 uuid_text input w
    = (Ret tt, ls) →
  events.*2 = ls_yielded ls →
  run_events digest append_event has lease s events = Ok (r, s') →
  ∃ e, last (ls_yielded ls) = Some e ∧ announces (ev_payload e) r.
Proof.
  intros Hrun Hev H. apply run_yields_closed in Hrun as [_ (before & e & Ey & Ho & He)]. exists e.
  rewrite Ey, last_snoc. split; [done|]. rewrite Ey in Hev. by eapply run_events_end.
Qed.
End Attempt.

(** ** The events *)

#[local] Open Scope Z_scope.

Lemma delivery_key_inj lease e e' : _delivery_key lease e = _delivery_key lease e' → ev_sequence e = ev_sequence e'.
Proof.
  unfold _delivery_key. intros H. do 5 apply app_inv_head in H. by apply (inj (py ∘ pretty)).
Qed.

Section Delivery.
Context (digest : json → pystr) (payload_size : AgentPayload → Z) (tenant_of : uuid → uuid).

(** No event of this attempt has been delivered. *)
Definition undelivered (t : EventTables) (lease : RunLease) (e : AgentEvent) : Prop :=
  ∀ k row, et_rows t !! k = Some row →
    same_delivery (lease_run_id lease) (lease_execution_epoch lease) (_delivery_key lease e) row = false.

Lemma append_worker_event_new now d t lease e t' :
  events_inv digest payload_size tenant_of t → lease_tenant_id lease = tenant_of (lease_run_id lease) → undelivered t lease e →
  append_worker_event digest payload_size now d t lease (_delivery_key lease e) e = Ok t' →
  ∃ row, appended t t' row ∧ er_run_id row = lease_run_id lease ∧ er_payload row = ev_payload e ∧
    er_delivery_key row = Some (_delivery_key lease e) ∧ events_inv digest payload_size tenant_of t'.
Proof.
  intros Hinv Ht Hnew H. unfold append_worker_event in H. apply bind_Ok in H as (draft & Hd & H).
  apply bind_Ok in H as ([ev t1] & H & [= ->]). 
  assert (dr_payload draft = ev_payload e ∧ valid_draft digest payload_size draft) as [Hp Hvalid].
  { unfold valid_draft, make_draft in *. run_inv Hd. cbn [dr_payload dr_created_at]. split; [done|]. by rewrite Hrun. }
  unfold append_idempotent_fenced, _validate_delivery_key in H. apply bind_Ok in H as (key & Hk & H). run_inv Hk.
  apply bind_Ok in H as (r & Hr & H).
  assert (rr_execution_epoch r = lease_execution_epoch lease) as Er.
  { unfold assert_active_run_lease in Hr. run_inv Hr. by bool_hyps. }
  destruct (_append_idempotent_spec digest payload_size _ _ _ _ _ _ _ _ Hvalid (inv_next _ _ _ t Hinv) H)
    as [(_ & k & row & Hrow & _ & Hs & _)|(row & Happ & Etenant & Erun & Hs & Epay & _ & Hv)].
  - rewrite Er, (Hnew k row Hrow) in Hs. done.
  - exists row. apply same_delivery_true in Hs as (_ & _ & Hkey). split_and!; [done|done|congruence|done|].
    eapply appended_inv; [done|done|congruence|done].
Qed.

Lemma undelivered_appended t t' row lease e e' : appended t t' row → er_delivery_key row = Some (_delivery_key lease e) →
  ev_sequence e ≠ ev_sequence e' → undelivered t lease e' → undelivered t' lease e'.
Proof.
  intros [_ Hrows _ _ _] Hkey Hne Hnew k r. rewrite Hrows, lookup_insert.
  destruct (decide _); [intros [= <-]|apply Hnew]. apply not_true_is_false. intros (_ & _ & E)%same_delivery_true.
  apply Hne, (delivery_key_inj lease). congruence.
Qed.

Lemma observe_event_append has now lease (s : attempt_state (E := EventTables)) e s' fin :
  observe_event digest (append_worker_event digest payload_size) has now lease s e = Ok (s', fin) →
  ∃ d, append_worker_event digest payload_size now d (at_events s) lease (_delivery_key lease e) e = Ok (at_events s').
Proof.
  unfold observe_event. intros H. apply bind_Ok in H as ([observed d] & _ & H). apply bind_Ok in H as (ev & Hev & H).
  exists d. rewrite Hev. f_equal.
  destruct (ev_payload e); first [by injection H as <- <- | by apply bind_Ok in H as (r & _ & [= <- <-])].
Qed.

(** The log after the executor has handled a closed sequence of events *)
Lemma run_events_logged has lease events : ∀ (s : attempt_state (E := EventTables)) before e r s',
  events.*2 = before ++ [e] → open_events before → NoDup (ev_sequence <$> events.*2) →
  events_inv digest payload_size tenant_of (at_events s) → lease_tenant_id lease = tenant_of (lease_run_id lease) →
  (∀ ev, ev ∈ events.*2 → undelivered (at_events s) lease ev) →
  run_events digest (append_worker_event digest payload_size) has lease s events = Ok (r, s') →
  ∃ rows, log_rows (at_events s') (lease_run_id lease) 0 = log_rows (at_events s) (lease_run_id lease) 0 ++ rows ∧
    er_payload <$> rows = ev_payload <$> events.*2.
Proof.
  induction events as [|[now ev] events IH]; intros s before e r s' Hev Ho Hnd Hinv Ht Hnew H; [by destruct before|].
  cbn [run_events] in H. apply bind_Ok in H as ([s1 fin] & H1 & H).
  destruct (observe_event_append _ _ _ _ _ _ _ H1) as [d Happend].
  rewrite fmap_cons in *. apply NoDup_cons in Hnd as [Hnotin Hnd].
  destruct (append_worker_event_new _ _ _ _ _ _ Hinv Ht (Hnew ev ltac:(by left)) Happend)
    as (row & Happ & Erun & Epay & Hkey & Hinv1).
  pose proof (log_appended digest payload_size tenant_of _ _ row (lease_run_id lease) 0 Hinv (Z.le_refl 0) Happ) as Hlog.
  rewrite bool_decide_true, (proj2 (Z.ltb_lt _ _)) in Hlog;
    [|pose proof (inv_next _ _ _ _ Hinv (er_run_id row)); pose proof (app_sequence _ _ _ Happ); lia|done].
  cbn [andb] in Hlog.
  destruct before as [|b before]; injection Hev as Hb Hrest; cbn [snd] in Hb; subst ev.
  - destruct events as [|? ?]; [|done]. exists [row]. cbn [fmap list_fmap]. rewrite Epay. split; [|done].
    rewrite <- Hlog. destruct fin; [by injection H as <- <-|]. cbn [run_events] in H.
    destruct (at_deferred s1); [by apply bind_Ok in H as (? & _ & [= <- <-])|]. by apply bind_Ok in H as (? & _ & [= <- <-]).
  - apply Forall_cons in Ho as [Hb Ho]. destruct (observe_open _ _ _ _ _ _ _ _ _ Hb H1) as [-> _].
    destruct (IH s1 before e r s') as (rows & Hrows & Hpay); [done|done|done|done|done| |done|].
    + intros ev Hin. eapply undelivered_appended; [done|done| |by apply Hnew; right].
      intros E. apply Hnotin. change (ev_sequence b ∈ ev_sequence <$> events.*2). rewrite E. by apply list_elem_of_fmap_2.
    + exists (row :: rows). rewrite Hrows, Hlog, <- app_assoc. by rewrite fmap_cons, Hpay, Epay.
Qed.

(** C23: events of an attempt: when the loop returns and the executor settles the attempt, the durable log of the run
    is the log before the attempt followed by exactly the events the loop yielded, in their order. *)
Theorem attempt_events_durable {W} (env : LoopEnvironment W) config redactor redact_text redact error_size
    request_size sha256 uuid_text input w ls has lease (s : attempt_state (E := EventTables)) events r s' :
  run env config redactor redact_text redact error_size digest payload_size request_size sha256 uuid_text input w
    = (Ret tt, ls) →
  events.*2 = ls_yielded ls →
  star (event_step digest payload_size tenant_of) no_events (at_events s) →
  lease_tenant_id lease = tenant_of (lease_run_id lease) →
  (∀ e, e ∈ ls_yielded ls → undelivered (at_events s) lease e) →
  run_events digest (append_worker_event digest payload_size) has lease s events = Ok (r, s') →
  ∃ added, event_log (at_events s') (lease_run_id lease) 0 = event_log (at_events s) (lease_run_id lease) 0 ++ added ∧
    se_payload <$> added = ev_payload <$> ls_yielded ls.
Proof.
  intros Hrun Hev Hstar Ht Hnew H. apply run_yields_closed in Hrun as [Hnum (before & e & Ey & Ho & _)].
  pose proof (event_history_inv _ _ _ _ _ Hstar (no_events_inv _ _ _)) as Hinv. rewrite <- Hev in *.
  destruct (run_events_logged has lease events s before e r s') as (rows & Hrows & Hpay); [done|done| |done|done|done|done|].
  - rewrite Hev. exact (numbered_NoDup _ _ _ Hnum).
  - exists (of_record <$> rows). unfold event_log. rewrite Hrows, fmap_app. split; [done|].
    rewrite <- Hpay, <- list_fmap_compose. done.
Qed.
End Delivery.
