(* ===== verification/QueueSafety.v ===== *)
(** * Safety theorems of the distributed queue

    Histories of queue operations, the invariant along them, exclusive workspace
    ownership, and the fencing of stale leases. *)

From stdpp Require Import base list sets gmap strings sorting.
From Stdlib Require Import ZArith Lia.
From S2P Require Import Prelude PyBase Domain Tables Contracts RunQueue WorkspaceLeases RunRepository Approvals QueueInvariant QueueOperations ControlOperations.

(** ** Histories *)

(** One committed transaction.  Worker names are free of leading and trailing
    blanks in the sense of [str.strip]; neither a submitted run nor an administrative
    [transition] is in, enters or leaves a leased status, since only the queue leases
    runs consistently ([transition_leased_breaks]).  Everything else is unconstrained:
    arbitrary clocks, tokens, lock sets and callers. *)
Inductive queue_step (cfg : QueueConfig) : Db → Db → Prop :=
| step_register d reg reg' d' :
    py_strip (reg_worker_id reg) = reg_worker_id reg →
    register_worker d reg = Ok (reg', d') → queue_step cfg d d'
| step_heartbeat_worker d k at_ n reg d' :
    heartbeat_worker d k at_ n = Ok (reg, d') → queue_step cfg d d'
| step_drain d k b at_ reg d' :
    set_worker_draining d k b at_ = Ok (reg, d') → queue_step cfg d d'
| step_claim locks d k at_ dur token wtoken o d' :
    claim cfg locks d k at_ dur token wtoken = Ok (o, d') → queue_step cfg d d'
| step_start d lease at_ lease' d' :
    start d lease at_ = Ok (lease', d') → queue_step cfg d d'
| step_heartbeat d lease at_ dur hb d' :
    RunQueue.heartbeat d lease at_ dur = Ok (hb, d') → queue_step cfg d d'
| step_finish d lease res at_ run d' :
    validate_run_execution_result res = Ok res →
    finish d lease res at_ = Ok (run, d') → queue_step cfg d d'
| step_recover locks d at_ n rs ws d' :
    recover_expired locks d at_ n = Ok (rs, ws, d') → queue_step cfg d d'
| step_acquire d lease at_ dur token o d' :
    acquire d lease at_ dur token = Ok (o, d') → queue_step cfg d d'
| step_workspace_heartbeat d lease at_ dur lease' d' :
    WorkspaceLeases.heartbeat d lease at_ dur = Ok (lease', d') → queue_step cfg d d'
| step_release d lease u d' :
    release d lease = Ok (u, d') → queue_step cfg d d'
| step_cancel d t k at_ o d' :
    request_cancel d t k at_ = Ok (o, d') → queue_step cfg d d'
| step_create digest d t run key hash sub mid pid res d' :
    run_status run ∉ [LEASED; RUNNING] →
    _create cfg digest d t run key hash sub mid pid = Ok (res, d') → queue_step cfg d d'
| step_rewind_run message_uuid plan_uuid now d t k c o d' :
    rewind message_uuid plan_uuid now d t k c = Ok (o, d') → queue_step cfg d d'
| step_run_transition d t k from to at_ wk ex b d' :
    from ∉ [LEASED; RUNNING] → to ∉ [LEASED; RUNNING] →
    transition d t k from to at_ wk ex = Ok (b, d') → queue_step cfg d d'
| step_create_approval_unfenced d t a call res d' :
    create_approval d t a call = Ok (res, d') → queue_step cfg d d'
| step_create_approval now d lease a call res d' :
    create_approval_fenced now d lease a call = Ok (res, d') → queue_step cfg d d'
| step_decide d t k a dec res woken d' :
    ApprovalRepository.decide d t k a dec = Ok (res, woken, d') → queue_step cfg d d'.

Lemma queue_step_inv cfg d d' : queue_inv d → queue_step cfg d d' → queue_inv d'.
Proof.
  intros Hinv Hstep. destruct Hstep.
  - by eapply register_worker_inv.
  - by eapply heartbeat_worker_inv.
  - by eapply set_worker_draining_inv.
  - by eapply claim_inv.
  - by eapply start_inv.
  - by eapply heartbeat_inv.
  - by eapply finish_inv.
  - by eapply recover_expired_inv.
  - by eapply acquire_inv.
  - by eapply workspace_heartbeat_inv.
  - by eapply release_inv.
  - by eapply request_cancel_inv.
  - by eapply create_inv.
  - by eapply rewind_inv.
  - by eapply (transition_inv d t k from to).
  - eapply queue_inv_same; [by eapply create_approval_unfenced_tables|done].
  - eapply queue_inv_same; [by eapply create_approval_tables|done].
  - by eapply decide_inv.
Qed.

(** ** Fencing order *)

Definition lease_fence (l : RunLeaseRecord) : uuid * pystr * uuid * Z :=
  (rl_tenant_id l, rl_worker_id l, rl_lease_token l, rl_generation l).

(** Lease generations never decrease, and a lease row that was not there before
    carries a generation above every earlier one of its run. *)
Definition fence_progress (d d' : Db) : Prop :=
  ∀ k r, runs d !! k = Some r → ∃ r', runs d' !! k = Some r' ∧
    (rr_lease_generation r ≤ rr_lease_generation r')%Z ∧
    ∀ l', run_leases d' !! k = Some l' →
      (∃ l, run_leases d !! k = Some l ∧ lease_fence l' = lease_fence l) ∨
      (rr_lease_generation r < rl_generation l')%Z.

Lemma fence_progress_refl d : fence_progress d d.
Proof. intros k r Hr. exists r. split_and!; [done|lia|eauto]. Qed.

Lemma fence_progress_trans d1 d2 d3 :
  fence_progress d1 d2 → fence_progress d2 d3 → fence_progress d1 d3.
Proof.
  intros H1 H2 k r Hr. destruct (H1 k r Hr) as (r2 & Hr2 & Hg & Hl).
  destruct (H2 k r2 Hr2) as (r3 & Hr3 & Hg' & Hl'). exists r3. split_and!; [done|lia|].
  intros l3 Hl3. destruct (Hl' l3 Hl3) as [(l2 & Hl2 & Heq)|Hlt]; [|right; lia].
  destruct (Hl l2 Hl2) as [(l1 & Hl1 & Heq')|Hlt].
  - left. exists l1. split; [done|congruence].
  - right. unfold lease_fence in Heq. by injection Heq as _ _ _ ->.
Qed.

(** Steps that keep the run generations and add no lease row. *)
Lemma fence_progress_keep d d' :
  (∀ k r, runs d !! k = Some r → ∃ r', runs d' !! k = Some r' ∧
     rr_lease_generation r' = rr_lease_generation r) →
  (∀ k l', run_leases d' !! k = Some l' →
     ∃ l, run_leases d !! k = Some l ∧ lease_fence l' = lease_fence l) →
  fence_progress d d'.
Proof.
  intros Hr Hl k r Hk. destruct (Hr k r Hk) as (r' & Hr' & Hg).
  exists r'. split_and!; [done|lia|]. intros l' Hl'. left. eauto.
Qed.

Lemma fence_progress_frame d d' :
  runs d' = runs d → run_leases d' = run_leases d → fence_progress d d'.
Proof. intros Hr Hl. apply fence_progress_keep; rewrite ?Hr, ?Hl; eauto. Qed.

(** Rewriting one run row and keeping or dropping lease rows. *)
Lemma fence_progress_put d d' k r r' :
  runs d !! k = Some r → runs d' = <[k := r']> (runs d) →
  rr_lease_generation r' = rr_lease_generation r →
  (∀ j l', run_leases d' !! j = Some l' →
     ∃ l, run_leases d !! j = Some l ∧ lease_fence l' = lease_fence l) →
  fence_progress d d'.
Proof.
  intros Hk Hr Hg Hl. apply fence_progress_keep; [|done]. intros j x Hx.
  rewrite Hr, lookup_insert. case_decide; subst; [|by eauto]. simplify_eq. eauto.
Qed.

Lemma retire_frame d l w :
  runs (_return_worker_slot (delete_run_lease (_release_workspace_for_run d l) l) w) = runs d ∧
  run_leases (_return_worker_slot (delete_run_lease (_release_workspace_for_run d l) l) w) =
    delete (rl_run_id l) (run_leases d).
Proof.
  destruct (return_slot_frame (delete_run_lease (_release_workspace_for_run d l) l) w)
    as (-> & -> & _). simpl.
  by destruct (release_workspace_frame d l) as (-> & _ & ->).
Qed.

Lemma recover_lease_fence now d l o d' :
  db_struct d → recover_lease now d l = Ok (o, d') → fence_progress d d'.
Proof.
  intros Hst H. unfold recover_lease in H. run_inv H.
  destruct (retire_frame d0 l (rl_worker_id l)) as [Er El].
  assert (∀ dd, run_leases dd = run_leases d → ∀ j l', delete (rl_run_id l) (run_leases dd) !! j
    = Some l' → ∃ l0, run_leases d !! j = Some l0 ∧ lease_fence l' = lease_fence l0) as Hsub.
  { intros dd Hd j l' Hj. rewrite Hd in Hj. apply lookup_delete_Some in Hj as [_ ?]. eauto. }
  destruct (runs d !! rl_run_id l) as [row|] eqn:Hr.
  - pose proof (st_runs _ Hst _ _ Hr) as Hid.
    destruct (lease_owns_run l row); run_inv Hrun.
    + eapply (fence_progress_put d _ (rl_run_id l) row); [done| | |rewrite El; by apply Hsub].
      * rewrite Er. simpl. by rewrite Hid.
      * done.
    + apply fence_progress_keep; rewrite ?Er, ?El; eauto.
  - run_inv Hrun. apply fence_progress_keep; rewrite ?Er, ?El; eauto.
Qed.

Lemma recover_leases_fence now ls d rs d' :
  queue_inv d → NoDup (map rl_run_id ls) →
  (∀ l, l ∈ ls → run_leases d !! rl_run_id l = Some l) →
  recover_leases now d ls = Ok (rs, d') → fence_progress d d'.
Proof.
  revert d rs. induction ls as [|l ls IH]; intros d rs Hinv Hnd Hls H; simpl in H.
  { injection H as <- <-. apply fence_progress_refl. }
  run_inv H. simpl in Hnd. apply NoDup_cons in Hnd as [Hnin Hnd].
  destruct (recover_lease_inv _ _ _ _ _ Hinv (Hls l (list_elem_of_here _ _)) Hrun)
    as [Hinv1 Hdel].
  eapply fence_progress_trans; [by eapply recover_lease_fence, Hrun; apply Hinv|].
  eapply (IH d0); try done. intros x Hx. rewrite Hdel, lookup_delete_ne.
  - apply Hls. by right.
  - intros Heq. apply Hnin. rewrite Heq. apply list_elem_of_fmap. eauto.
Qed.

Lemma requeue_retries_fence now rows d rs d' :
  NoDup (map rr_id rows) → (∀ r, r ∈ rows → runs d !! rr_id r = Some r) →
  requeue_retries now d rows = Ok (rs, d') → fence_progress d d'.
Proof.
  revert d rs. induction rows as [|row rows IH]; intros d rs Hnd Hrows H; simpl in H.
  { injection H as <- <-. apply fence_progress_refl. }
  run_inv H. simpl in Hnd. apply NoDup_cons in Hnd as [Hnin Hnd].
  unfold requeue_retry in Hrun. run_inv Hrun.
  eapply fence_progress_trans; [|eapply IH; [done| |exact Hrun0]].
  - eapply (fence_progress_put d _ (rr_id row) row); simpl; eauto.
    apply Hrows. by left.
  - intros x Hx. simpl. rewrite lookup_insert_ne; [apply Hrows; by right|].
    intros Heq. apply Hnin. rewrite Heq. apply list_elem_of_fmap. eauto.
Qed.

Lemma recover_expired_fence locks d at_ n rs ws d' :
  queue_inv d → recover_expired locks d at_ n = Ok (rs, ws, d') → fence_progress d d'.
Proof.
  intros Hinv H. destruct (recover_expired_phases _ _ _ _ _ _ _ Hinv H)
    as (now & retried & lost & d1 & Hinv1 & Hret & Hlost & _).
  eapply fence_progress_trans.
  - eapply (requeue_retries_fence now); [| |exact Hret].
    + by apply due_retries_nodup, inv_struct.
    + intros r Hr. by apply (due_retries_rows _ _ _ _ _ (inv_struct _ Hinv)) in Hr as [? _].
  - eapply (recover_leases_fence now); [done| | |exact Hlost].
    + by apply expired_leases_nodup, inv_struct.
    + intros l Hl. by apply (expired_leases_rows _ _ _ _ _ (inv_struct _ Hinv1)) in Hl as [? _].
Qed.

Lemma search_frame_fence d d' : search_frame d d' → fence_progress d d'.
Proof. intros F. apply fence_progress_frame; apply F. Qed.

Lemma claim_fence cfg locks d worker at_ dur token wtoken o d' :
  queue_inv d → claim cfg locks d worker at_ dur token wtoken = Ok (o, d') →
  fence_progress d d'.
Proof.
  intros Hinv H. destruct o as [lease|]; [|apply claim_None in H; [|done]; by apply search_frame_fence].
  apply claim_Some in H as (now & ex & d1 & row & row' & route & w & _ & _ & _ & _ & _ & E & _); [|done].
  intros k r Hr. rewrite (ce_runs _ _ _ _ _ _ _ _ _ _ E), (ce_leases _ _ _ _ _ _ _ _ _ _ E).
  rewrite !lookup_insert. case_decide as Hk; subst.
  - rewrite (ce_row _ _ _ _ _ _ _ _ _ _ E) in Hr. injection Hr as <-.
    pose proof (ce_generation _ _ _ _ _ _ _ _ _ _ E) as Hg.
    exists row'. split_and!; [done|lia|]. intros l' [= <-]. right. simpl. lia.
  - exists r. split_and!; [done|lia|eauto].
Qed.

Lemma start_fence d lease at_ lease' d' :
  queue_inv d → start d lease at_ = Ok (lease', d') → fence_progress d d'.
Proof.
  intros Hinv H. unfold start in H. run_inv H. apply commit_Ok in H as [H _]. run_inv H.
  apply locked_lease_state_Ok in Hrun0 as (_ & _ & _ & Hr & _ & Hid); [|apply Hinv].
  eapply (fence_progress_put d _ (rr_id r0) r0); simpl; eauto. by rewrite Hid.
Qed.

Lemma heartbeat_fence d lease at_ dur hb d' :
  queue_inv d → RunQueue.heartbeat d lease at_ dur = Ok (hb, d') → fence_progress d d'.
Proof.
  intros Hinv H. unfold RunQueue.heartbeat in H. run_inv H.
  apply commit_Ok in H as [H _]. run_inv H.
  apply locked_lease_state_Ok in Hrun1 as (_ & Hl & _ & Hr & _ & Hid); [|apply Hinv].
  eapply (fence_progress_put d _ (rr_id r0) r0); simpl; [by rewrite Hid|done|done|].
  intros j l'. rewrite lookup_insert.
  destruct (decide (rl_run_id r = j)) as [<-|_]; [intros [= <-]|]; eauto.
Qed.

Lemma finish_fence d lease res at_ run d' :
  queue_inv d → finish d lease res at_ = Ok (run, d') → fence_progress d d'.
Proof.
  intros Hinv H. destruct (finish_effect _ _ _ _ _ _ Hinv H)
    as (lr & row & row' & Hl & _ & Hr & Hg & Hruns & Hleases & _).
  eapply (fence_progress_put d _ (rl_run_id lr) row); try done.
  rewrite Hleases. intros j l' [_ Hj]%lookup_delete_Some. eauto.
Qed.

Lemma request_cancel_fence d t k at_ o d' :
  queue_inv d → request_cancel d t k at_ = Ok (o, d') → fence_progress d d'.
Proof.
  intros Hinv H. unfold request_cancel in H. apply commit_Ok in H as [H _].
  destruct (tenant_run d t k) as [row|] eqn:Hr; [|run_inv H; apply fence_progress_refl].
  apply (tenant_run_lookup _ _ _ _ (inv_struct _ Hinv)) in Hr as (Hr & _ & _). run_inv H.
  destruct (bool_decide (run_status v ∈ [COMPLETED; FAILED; CANCELLED]));
    [run_inv H; apply fence_progress_refl|].
  run_inv H. eapply (fence_progress_put d _ (rr_id row) row); simpl; eauto.
Qed.

Lemma transition_fence d t k from to at_ wk ex b d' :
  queue_inv d → transition d t k from to at_ wk ex = Ok (b, d') → fence_progress d d'.
Proof.
  intros Hinv H. unfold transition in H. apply commit_Ok in H as [H _].
  destruct (tenant_run d t k) as [row|] eqn:Hr; [|run_inv H; apply fence_progress_refl].
  apply (tenant_run_lookup _ _ _ _ (inv_struct _ Hinv)) in Hr as (Hr & _ & _).
  case_bool_decide; [|run_inv H; apply fence_progress_refl].
  run_inv H. eapply (fence_progress_put d _ (rr_id row) row); simpl; eauto.
Qed.

(** Operations that touch neither a run row nor a lease row. *)
Lemma worker_operations_frame d d' :
  (∃ reg r, register_worker d reg = Ok (r, d')) ∨
  (∃ k at_ n r, heartbeat_worker d k at_ n = Ok (r, d')) ∨
  (∃ k b at_ r, set_worker_draining d k b at_ = Ok (r, d')) →
  fence_progress d d'.
Proof.
  intros [(reg & r & H)|[(k & at_ & n & r & H)|(k & b & at_ & r & H)]].
  - unfold register_worker in H. apply commit_Ok in H as [H _]. run_inv H.
    by apply fence_progress_frame.
  - unfold heartbeat_worker in H. run_inv H. apply commit_Ok in H as [H _]. run_inv H.
    by apply fence_progress_frame.
  - unfold set_worker_draining in H. run_inv H. apply commit_Ok in H as [H _]. run_inv H.
    by apply fence_progress_frame.
Qed.

Lemma writer_operations_frame d d' :
  db_struct d →
  (∃ lease at_ dur token o, acquire d lease at_ dur token = Ok (o, d')) ∨
  (∃ lease at_ dur r, WorkspaceLeases.heartbeat d lease at_ dur = Ok (r, d')) ∨
  (∃ lease u, release d lease = Ok (u, d')) →
  fence_progress d d'.
Proof.
  intros Hst [(lease & at_ & dur & token & o & H)|[(lease & at_ & dur & r & H)|(lease & u & H)]].
  - unfold acquire in H. run_inv H. apply commit_Ok in H as [H _]. run_inv H.
    destruct (ensure_workspace_frame _ _ _ _ _ Hst Epair) as [F _].
    destruct (is_some (wl_lease_token w)); [destruct (owned_by_run_lease w lease)|];
      run_inv H; apply fence_progress_frame; simpl; apply F.
  - unfold WorkspaceLeases.heartbeat in H. run_inv H. apply commit_Ok in H as [H _]. run_inv H.
    by apply fence_progress_frame.
  - unfold release in H. apply commit_Ok in H as [H _]. run_inv H.
    destruct (is_none (wl_lease_token v)); run_inv H; by apply fence_progress_frame.
Qed.

Lemma same_tables_fence d d' : same_tables d d' → fence_progress d d'.
Proof. intros (Er & _ & El & _). by apply fence_progress_frame. Qed.

Lemma create_fence cfg digest d t run key hash sub mid pid res d' :
  queue_inv d → _create cfg digest d t run key hash sub mid pid = Ok (res, d') →
  fence_progress d d'.
Proof.
  intros Hinv H. apply create_effect in H as (_ & _ & H); [|apply Hinv].
  destruct (_creation_record _ _ _ _); [destruct H as [-> _]; apply fence_progress_refl|].
  destruct H as (_ & Hn & (d2 & F1 & F2) & _).
  eapply fence_progress_trans; [by apply same_tables_fence|].
  eapply fence_progress_trans; [|by apply same_tables_fence].
  destruct F1 as (Er & _). apply fence_progress_keep; simpl; [|by eauto].
  intros k r Hr. rewrite lookup_insert. case_decide; [|by eauto]. subst.
  rewrite Er, Hn in Hr. done.
Qed.

Lemma rewind_fence message_uuid plan_uuid now d t k c o d' :
  queue_inv d → rewind message_uuid plan_uuid now d t k c = Ok (o, d') → fence_progress d d'.
Proof.
  intros Hinv H. destruct o as [run|].
  - apply rewind_effect in H as (row & row' & Hr & _ & _ & _ & Hid & Hg & _ & _ & _ & _ & _ &
      d4 & (Er & _ & El & _) & ->); [|apply Hinv].
    eapply (fence_progress_put d _ k row row'); simpl; rewrite ?Hid, ?Er, ?El; eauto.
  - apply rewind_None in H as ->. apply fence_progress_refl.
Qed.

Lemma decide_fence d t k a dec res woken d' :
  queue_inv d → ApprovalRepository.decide d t k a dec = Ok (res, woken, d') → fence_progress d d'.
Proof.
  intros Hinv H. apply decide_effect in H; [|apply Hinv].
  destruct woken; [|by apply same_tables_fence].
  destruct H as (ap & row & run & _ & _ & Hr & Hid & _ & _ & _ & d1 & (Er & _ & El & _) & ->).
  eapply (fence_progress_put d _ k row (_apply_run row run)); simpl; rewrite ?Hid, ?Er, ?El; eauto.
Qed.

Lemma queue_step_fence cfg d d' : queue_inv d → queue_step cfg d d' → fence_progress d d'.
Proof.
  intros Hinv Hstep. destruct Hstep.
  - apply worker_operations_frame. eauto.
  - apply worker_operations_frame. eauto 10.
  - apply worker_operations_frame. eauto 10.
  - by eapply claim_fence.
  - by eapply start_fence.
  - by eapply heartbeat_fence.
  - by eapply finish_fence.
  - by eapply recover_expired_fence.
  - apply writer_operations_frame; [apply Hinv|]. eauto 10.
  - apply writer_operations_frame; [apply Hinv|]. eauto 10.
  - apply writer_operations_frame; [apply Hinv|]. eauto 10.
  - by eapply request_cancel_fence.
  - by eapply create_fence.
  - by eapply rewind_fence.
  - by eapply transition_fence.
  - by eapply same_tables_fence, create_approval_unfenced_tables.
  - by eapply same_tables_fence, create_approval_tables.
  - by eapply decide_fence.
Qed.

(** ** Stale leases *)

(** The fence a worker holds is the one of the lease row. *)
Definition lease_live (d : Db) (lease : RunLease) : bool :=
  match run_leases d !! lease_run_id lease with
  | Some l => lease_matches l lease
  | None => false
  end.

(** The generation of the lease was handed out for the run: the run's counter
    has reached it. *)
Definition lease_issued (d : Db) (lease : RunLease) : Prop :=
  ∃ r, runs d !! lease_run_id lease = Some r ∧ (lease_generation lease ≤ rr_lease_generation r)%Z.

Lemma lease_matches_fence l l' lease :
  rl_run_id l = rl_run_id l' → lease_fence l = lease_fence l' →
  lease_matches l lease = lease_matches l' lease.
Proof. unfold lease_fence, lease_matches. intros -> [= -> -> -> ->]. done. Qed.

(** Once dead, an issued lease stays dead. *)
Lemma fence_progress_stale d d' lease :
  db_struct d → db_struct d' → fence_progress d d' → lease_issued d lease →
  lease_live d lease = false → lease_issued d' lease ∧ lease_live d' lease = false.
Proof.
  intros Hst Hst' Hp (r & Hr & Hg) Hdead. destruct (Hp _ _ Hr) as (r' & Hr' & Hle & Hl).
  split; [exists r'; split; [done|lia]|]. unfold lease_live in *.
  destruct (run_leases d' !! lease_run_id lease) as [l'|] eqn:El'; [|done].
  destruct (Hl l' eq_refl) as [(l & El & Hf)|Hlt].
  - rewrite El in Hdead. rewrite (lease_matches_fence l' l lease); [done| |done].
    by rewrite (lease_row_key _ _ _ Hst El), (lease_row_key _ _ _ Hst' El').
  - destruct (lease_matches l' lease) eqn:Hm; [|done]. unfold lease_matches in Hm. bool_hyps. lia.
Qed.

Lemma history_stale cfg d d' lease :
  queue_inv d → star (queue_step cfg) d d' → lease_issued d lease → lease_live d lease = false →
  queue_inv d' ∧ lease_live d' lease = false.
Proof.
  intros Hinv Hs Hi Hd. cut (queue_inv d' ∧ lease_issued d' lease ∧ lease_live d' lease = false).
  { naive_solver. }
  apply (star_invariant (queue_step cfg) (λ x, queue_inv x ∧ lease_issued x lease ∧
    lease_live x lease = false)) with d; [|done|done].
  intros s s' (Hi1 & Hi2 & Hi3) Hstep. pose proof (queue_step_inv _ _ _ Hi1 Hstep) as Hi'.
  split; [done|]. eapply (fence_progress_stale s s'); try done.
  - apply Hi1.
  - apply Hi'.
  - by eapply queue_step_fence.
Qed.

(** A dead lease fails every fence check. *)
Lemma dead_no_match d lease :
  db_struct d → lease_live d lease = false →
  _assert_matching_run_lease (lease_by_token d (lease_lease_token lease)) lease =
  Err run_lease_lost.
Proof.
  intros Hst Hd. destruct (_assert_matching_run_lease _ lease) as [l|e] eqn:E.
  - apply matching_lease_Ok in E as [Ht Hm].
    apply (lease_by_token_Some _ _ _ Hst) in Ht as [_ Hl]. unfold lease_live in Hd.
    pose proof Hm as Hm'. unfold lease_matches in Hm'. bool_hyps.
    replace (lease_run_id lease) with (rl_run_id l) in Hd. by rewrite Hl, Hm in Hd.
  - apply matching_lease_Err in E. by subst.
Qed.

(** ** Properties *)

(** C1: every history of committed transactions ([queue_step]) keeps the queue
    consistent: each leased or running run has exactly one lease row that agrees
    with it on tenant, worker, generation and expiry, every owned workspace is owned
    through a live run lease, and no worker holds more leases than its slots.  Worker
    names have no surrounding blanks, and runs are created and set by [transition]
    outside the leased statuses only: a [transition] to LEASED breaks the invariant
    ([transition_leased_breaks]). *)
Theorem queue_history_invariant cfg d d' :
  queue_inv d → star (queue_step cfg) d d' → queue_inv d'.
Proof. intros Hinv Hs. by eapply star_invariant; [apply queue_step_inv|..]. Qed.

(** C2: at most one execution is authorized to write a workspace.  Whatever two
    (run, session, worker, token, generation, epoch) tuples the sandbox fence
    accepts for one tenant workspace, at whatever clock readings, they are the
    same one; the run is then RUNNING under a lease row with this very fence. *)
Theorem sandbox_single_writer d tenant ws run1 run2 sess1 sess2 w1 w2 tok1 tok2 g1 g2 at1 at2 e1 e2 :
  queue_inv d →
  authorize_sandbox_lease d tenant run1 sess1 ws w1 tok1 g1 at1 e1 = Ok tt →
  authorize_sandbox_lease d tenant run2 sess2 ws w2 tok2 g2 at2 e2 = Ok tt →
  (run1, sess1, w1, tok1, g1, e1) = (run2, sess2, w2, tok2, g2, e2) ∧
  ∃ r, runs d !! run1 = Some r ∧ rr_status r = RUNNING ∧ rr_lease_generation r = g1 ∧
    ∀ k l, run_leases d !! k = Some l → rl_lease_token l = tok1 → k = run1.
Proof.
  intros Hinv H1 H2. unfold authorize_sandbox_lease, sandbox_authorized in H1, H2.
  run_inv H1. run_inv H2.
  destruct (run_leases d !! run1) as [l1|] eqn:El1; [|done].
  destruct (runs d !! run1) as [r1|] eqn:Er1; [|done].
  destruct (workspace_leases d !! (tenant, ws)) as [w|] eqn:Ew; [|done].
  destruct (run_leases d !! run2) as [l2|] eqn:El2; [|done].
  destruct (runs d !! run2) as [r2|] eqn:Er2; [|done]. bool_hyps.
  assert (run1 = run2) as <- by congruence. split; [congruence|].
  exists r1. split_and!; try done.
  - pose proof (inv_agree _ Hinv run1) as Ha. rewrite El1, Er1 in Ha.
    destruct Ha as (? & [= <-] & _ & -> & _). congruence.
  - intros k l Hl Ht. apply (st_tokens _ (inv_struct _ Hinv) _ _ Hl _ _ El1). congruence.
Qed.

(** C3: a lease that was lost never comes back.  Once the lease row no longer
    carries the fence of an issued lease, along every later history each call a
    worker can make with it is refused: start, heartbeat, finish and workspace
    acquisition raise [run_lease_lost], the database fence raises it too, and no
    sandbox command is authorized. *)
Theorem stale_lease_fenced cfg d d' lease t dur token res db_now tenant sess ws epoch :
  queue_inv d → lease_issued d lease → lease_live d lease = false →
  star (queue_step cfg) d d' → (0 < dur ≤ MAX_LEASE)%Z →
  start d' lease (utc t) = Err run_lease_lost ∧
  RunQueue.heartbeat d' lease (utc t) dur = Err run_lease_lost ∧
  finish d' lease res (utc t) = Err run_lease_lost ∧
  acquire d' lease (utc t) dur token = Err run_lease_lost ∧
  assert_active_run_lease d' db_now lease = Err run_lease_lost ∧
  (tenant = lease_tenant_id lease →
   authorize_sandbox_lease d' tenant (lease_run_id lease) sess ws (lease_worker_id lease)
     (lease_lease_token lease) (lease_generation lease) (utc t) epoch =
   Err sandbox_lease_unauthorized).
Proof.
  intros Hinv Hi Hd Hs Hdur.
  destruct (history_stale _ _ _ _ Hinv Hs Hi Hd) as [Hinv' Hd'].
  pose proof (dead_no_match _ _ (inv_struct _ Hinv') Hd') as Hm.
  assert (_locked_lease_state d' lease = Err run_lease_lost) as Hlk
    by (unfold _locked_lease_state; by rewrite Hm).
  assert (∀ code, _expiry t dur code = Ok (t + dur)%Z) as Hex.
  { intros code. unfold _expiry. rewrite (proj2 (Z.ltb_lt _ _)), (proj2 (Z.leb_le _ _)) by lia. done. }
  assert (∀ code, _operation_time (utc t) code = Ok t) as Hop.
  { intros code. unfold _operation_time. by rewrite normalize_utc. }
  unfold start, RunQueue.heartbeat, finish, acquire, authorize_sandbox_lease,
    assert_active_run_lease, sandbox_authorized.
  rewrite !Hop. simpl. rewrite !Hex. simpl. rewrite Hlk, Hm. unfold lease_live in Hd'.
  destruct (run_leases d' !! lease_run_id lease) as [l|] eqn:El; simpl; [|done].
  rewrite Hd'. split_and!; try done. intros ->.
  pose proof (lease_row_key _ _ _ (inv_struct _ Hinv') El) as Hk.
  destruct (runs d' !! lease_run_id lease) as [r|]; [|done].
  destruct (workspace_leases d' !! (lease_tenant_id lease, ws)) as [w|]; [|done].
  apply ensure_Err. split; [|done]. apply not_true_iff_false. intros Hb. bool_hyps.
  unfold lease_matches in Hd'. rewrite !bool_decide_true in Hd' by done. done.
Qed.
