(* ===== verification/QueueProgress.v ===== *)
(** * Progress of the distributed queue

    The claim loop overlooks no eligible run, completion retires the lease
    together with everything it holds, and recovery always succeeds and leaves
    no expired lease and no due retry behind. *)

From stdpp Require Import base list sets gmap strings sorting.
From Stdlib Require Import ZArith Lia.
From S2P Require Import Prelude PyBase Domain Tables Contracts RunQueue WorkspaceLeases RunRepository QueueInvariant QueueOperations QueueSafety.

(** ** Quotas *)

(** The active-run limit of a tenant: its quota row, or the default one that is
    written on first use. *)
Definition effective_quota (cfg : QueueConfig) (d : Db) (tenant : uuid) : Z :=
  match tenant_quotas d !! tenant with
  | Some q => tq_max_active_runs q
  | None => quota_max_active_runs (default_quota cfg)
  end.

Lemma ensure_quota_effective cfg d t now d1 q :
  ensure_tenant_quota d t (default_quota cfg) now = (d1, q) →
  tq_max_active_runs q = effective_quota cfg d t ∧
  (∀ t', effective_quota cfg d1 t' = effective_quota cfg d t') ∧ run_leases d1 = run_leases d ∧
  runs d1 = runs d ∧ ∀ l s, claim_candidates d1 l s = claim_candidates d l s.
Proof.
  unfold ensure_tenant_quota, effective_quota.
  destruct (tenant_quotas d !! t) as [x|] eqn:E; intros [= <- <-]; [done|].
  split_and!; try done. intros t'. simpl. rewrite lookup_insert.
  case_decide; subst; by rewrite ?E.
Qed.

(** A run is out of reach of a claim: its tenant is at its limit or its
    workspace row is locked by another transaction. *)
Definition out_of_reach (cfg : QueueConfig) (locks : Locks) (d : Db) (r : RunRecord) : Prop :=
  (effective_quota cfg d (rr_tenant_id r) ≤ tenant_active_runs d (rr_tenant_id r))%Z ∨
  (rr_tenant_id r, rr_workspace_id r) ∈ locked_workspaces locks.

(** The facts the candidate loop keeps while it adds quota and workspace rows. *)
Record search_same (cfg : QueueConfig) (d d1 : Db) : Prop := {
  ss_frame : search_frame d d1;
  ss_quota : ∀ t, effective_quota cfg d1 t = effective_quota cfg d t;
}.

Lemma search_same_refl cfg d : search_same cfg d d.
Proof. constructor; [apply search_frame_refl|done]. Qed.

Lemma search_same_trans cfg d1 d2 d3 :
  search_same cfg d1 d2 → search_same cfg d2 d3 → search_same cfg d1 d3.
Proof.
  intros [A1 A2] [B1 B2]. constructor; [by eapply search_frame_trans|]. intros t. by rewrite B2.
Qed.

Lemma ensure_quota_same cfg d t now d1 q :
  ensure_tenant_quota d t (default_quota cfg) now = (d1, q) →
  search_same cfg d d1 ∧ tq_max_active_runs q = effective_quota cfg d t.
Proof.
  intros H. destruct (ensure_quota_effective _ _ _ _ _ _ H) as (? & ? & _).
  apply ensure_quota_frame in H as [? _]. by split.
Qed.

Lemma ensure_workspace_same cfg d t k d1 w :
  db_struct d → ensure_workspace_row d t k = (d1, w) → search_same cfg d d1.
Proof.
  intros Hst H. apply (ensure_workspace_frame _ _ _ _ _ Hst) in H as (F & _ & Hq & _).
  constructor; [done|]. intros t'. unfold effective_quota. by rewrite Hq.
Qed.

Lemma out_of_reach_same cfg locks d d1 r :
  search_same cfg d d1 → out_of_reach cfg locks d1 r ↔ out_of_reach cfg locks d r.
Proof.
  intros [F Hq]. unfold out_of_reach, tenant_active_runs. by rewrite Hq, (sf_run_leases _ _ F).
Qed.

(** ** The claim loop overlooks nothing *)

Lemma candidates_same d d1 locks skipped :
  search_frame d d1 → claim_candidates d1 locks skipped = claim_candidates d locks skipped.
Proof.
  intros F. unfold claim_candidates, select_where. rewrite (sf_runs _ _ F).
  apply list_filter_iff. intros r. by rewrite (claimable_frame _ _ _ F).
Qed.

(** Skipping a candidate leaves strictly fewer. *)
Lemma candidates_shrink d locks skipped c :
  c ∈ claim_candidates d locks skipped →
  length (claim_candidates d locks (rr_id c :: skipped)) < length (claim_candidates d locks skipped).
Proof.
  unfold claim_candidates, select_where. generalize ((map_to_list (runs d)).*2). intros rows Hc.
  set (P := λ r, _ = true) in Hc |- *. set (Q := λ r, claimable d r && _ && _ = true) at 1.
  assert (filter Q rows = filter (λ r, rr_id r ≠ rr_id c) (filter P rows)) as ->.
  { rewrite list_filter_filter. apply list_filter_iff. intros r. unfold P, Q.
    rewrite !andb_true_iff, !negb_true_iff, !bool_decide_eq_false, not_elem_of_cons. tauto. }
  apply (length_filter_lt _ _ c); [done|]. naive_solver.
Qed.

Lemma claim_search_exhaustive cfg locks now fuel d0 d skipped d1 :
  queue_inv d0 → search_same cfg d0 d →
  length (claim_candidates d0 locks skipped) ≤ fuel →
  claim_search cfg locks now fuel d skipped = (d1, None) →
  ∀ r, r ∈ claim_candidates d0 locks skipped → out_of_reach cfg locks d0 r.
Proof.
  intros Hinv. revert d skipped. induction fuel as [|fuel IH]; intros d skipped F Hlen H r Hr; simpl in H.
  { destruct (claim_candidates d0 locks skipped); [by apply elem_of_nil in Hr|simpl in Hlen; lia]. }
  destruct (first_by _ _) as [c|] eqn:Hc.
  2: { apply first_by_None in Hc. rewrite (candidates_same d0) in Hc by apply F.
       rewrite Hc in Hr. by apply elem_of_nil in Hr. }
  apply first_by_elem in Hc. rewrite (candidates_same d0) in Hc by apply F.
  pose proof (candidates_shrink _ _ _ _ Hc) as Hlt.
  assert (∀ d', search_same cfg d0 d' → out_of_reach cfg locks d0 c →
    claim_search cfg locks now fuel d' (rr_id c :: skipped) = (d1, None) →
    out_of_reach cfg locks d0 r) as Hnext.
  { intros d' F' Hover H'. destruct (decide (rr_id r = rr_id c)) as [Heq|Hne].
    - apply (candidate_elem _ _ _ _ (inv_struct _ Hinv)) in Hr as (Hr & _), Hc as (Hc & _).
      rewrite Heq, Hc in Hr. by injection Hr as <-.
    - eapply (IH d'); [done| |done|]; [lia|].
      apply (candidate_elem _ _ _ _ (inv_struct _ Hinv)) in Hr as (? & ? & ? & ?).
      apply (candidate_elem _ _ _ _ (inv_struct _ Hinv)). rewrite not_elem_of_cons. done. }
  destruct (ensure_tenant_quota _ _ _ _) as [d2 q] eqn:Eq.
  destruct (ensure_quota_same _ _ _ _ _ _ Eq) as [F2 Hq].
  pose proof (search_same_trans _ _ _ _ F F2) as F02.
  destruct (Z.leb (tq_max_active_runs q) _) eqn:Hle.
  { apply (Hnext d2 F02); [|done]. apply (out_of_reach_same _ _ _ _ _ F). left. bool_hyps.
    unfold tenant_active_runs in *. by rewrite (sf_run_leases _ _ (ss_frame _ _ _ F2)), Hq in Hle. }
  destruct (ensure_workspace_row _ _ _) as [d3 w] eqn:Ew.
  pose proof (search_frame_inv _ _ (ss_frame _ _ _ F02) Hinv) as Hinv2.
  pose proof (search_same_trans _ _ _ _ F02
    (ensure_workspace_same cfg _ _ _ _ _ (inv_struct _ Hinv2) Ew)) as F03.
  apply (candidate_elem _ _ _ _ (inv_struct _ Hinv)) in Hc as (_ & Hcl & _).
  pose proof Hcl as Hcl2. rewrite <- (claimable_frame _ _ _ (ss_frame _ _ _ F02)) in Hcl2.
  rewrite <- (claimable_frame _ _ _ (ss_frame _ _ _ F)) in Hcl.
  unfold claimable in Hcl, Hcl2. bool_hyps.
  destruct (ensure_workspace_frame _ _ _ _ _ (inv_struct _ Hinv2) Ew) as (_ & _ & _ & Hun).
  replace (is_some (wl_lease_token w)) with false in H.
  2: { rewrite <- Hun in *. unfold is_none in *. by bool_hyps. }
  rewrite orb_false_r in H. destruct (bool_decide _) eqn:Hlock.
  { apply (Hnext d3 F03); [|done]. right. by bool_hyps. }
  by destruct (joined_session d c).
Qed.

Lemma claim_search_same cfg locks now fuel d skipped d1 o :
  queue_inv d → claim_search cfg locks now fuel d skipped = (d1, o) → search_same cfg d d1.
Proof.
  revert d skipped. induction fuel as [|fuel IH]; intros d skipped Hinv H; simpl in H.
  { injection H as <- <-. apply search_same_refl. }
  destruct (first_by _ _) as [c|]; [|injection H as <- <-; apply search_same_refl].
  destruct (ensure_tenant_quota _ _ _ _) as [d2 q] eqn:Eq.
  destruct (ensure_quota_same _ _ _ _ _ _ Eq) as [F2 _].
  pose proof (search_frame_inv _ _ (ss_frame _ _ _ F2) Hinv) as Hinv2.
  destruct (Z.leb (tq_max_active_runs q) _).
  { eapply search_same_trans; [exact F2|]. by eapply IH. }
  destruct (ensure_workspace_row _ _ _) as [d3 w] eqn:Ew.
  pose proof (ensure_workspace_same cfg _ _ _ _ _ (inv_struct _ Hinv2) Ew) as F3.
  pose proof (search_same_trans _ _ _ _ F2 F3) as F23.
  destruct (bool_decide _ || _).
  { eapply search_same_trans; [exact F23|]. eapply IH; [|done].
    eapply search_frame_inv; [apply F23|done]. }
  by destruct (joined_session d c); injection H as <- <-.
Qed.

Lemma passed_over_out_of_reach cfg locks d d1 r :
  search_same cfg d d1 → passed_over d1 locks r → out_of_reach cfg locks d r.
Proof.
  intros F Hp. apply (out_of_reach_same _ _ _ _ _ F). destruct Hp as [(q & Hq & Hle)|Hl]; [left|by right].
  unfold effective_quota. by rewrite Hq.
Qed.

(** The candidate set of a claim as a predicate on the committed database. *)
Definition eligible (locks : Locks) (d : Db) (r : RunRecord) : Prop :=
  runs d !! rr_id r = Some r ∧ claimable d r = true ∧ rr_id r ∉ locked_runs locks.

Lemma eligible_candidate locks d r :
  db_struct d → r ∈ claim_candidates d locks [] ↔ eligible locks d r.
Proof. intros Hst. rewrite candidate_elem by done. unfold eligible. rewrite elem_of_nil. tauto. Qed.

(** C5: what a successful claim takes and writes.  The claimed run was eligible
    (queued, not cancelled, workspace without writer) and its tenant under its
    quota; every eligible run that the scheduling order puts before it was out
    of reach.  The run row becomes LEASED one generation later, the lease row
    carries the caller's worker and token and the requested expiry, the
    workspace row is owned through that token one generation later and one worker
    slot is consumed.  Apart from these rows the claim adds default quota rows of
    examined tenants and unowned generation-0 rows of examined workspaces that had
    none, and nothing else ([claim_effect], whose last field is the new database).
    The returned lease carries the token and the new generation. *)
Theorem claim_takes_best_run cfg locks d worker at_ dur token wtoken lease d' :
  queue_inv d → claim cfg locks d worker at_ dur token wtoken = Ok (Some lease, d') →
  ∃ now row row', normalize_timestamp at_ = Ok now ∧ (0 < dur ≤ MAX_LEASE)%Z ∧
    eligible locks d row ∧
    (tenant_active_runs d (rr_tenant_id row) < effective_quota cfg d (rr_tenant_id row))%Z ∧
    (∀ r, eligible locks d r → claim_before (admission_policy cfg) now r row = true →
       out_of_reach cfg locks d r) ∧
    claim_effect cfg d d' worker now (now + dur) token wtoken row row' ∧
    lease_run_id lease = rr_id row ∧ lease_lease_token lease = token ∧
    lease_generation lease = (rr_lease_generation row + 1)%Z ∧
    queue_inv d'.
Proof.
  intros Hinv H.
  apply claim_Some in H as (now & ex & d1 & row & row' & route & w & Ht & -> & Hd & Hs & Hf & E &
    Hid & Htok & Hgen & Hinv' & _); [|done].
  apply claim_search_same in Hs; [|done].
  exists now, row, row'. destruct Hf as (Hr & Hcl & Hl & Hw & Hn & (q & Hq & Hlt) & Hbest).
  split_and!; try (done || lia).
  - rewrite <- (ss_quota _ _ _ Hs). unfold effective_quota. by rewrite Hq.
  - intros r (Hrr & Hrc & Hrl) Hb. eapply passed_over_out_of_reach; [done|]. by apply Hbest.
Qed.

(** C6: a claim comes back empty only when there is nothing to take.  For an
    active worker with a free slot, and no more eligible runs than the loop
    examines, an empty answer means every eligible run has its tenant at the
    active-run limit or its workspace row locked by another transaction; no run
    and no lease was changed. *)
Theorem claim_empty_means_none cfg locks d worker w at_ dur token wtoken d' :
  queue_inv d → workers d !! worker = Some w → wk_status w = ACTIVE → (0 < wk_available_slots w)%Z →
  length (claim_candidates d locks []) ≤ MAX_CLAIM_CANDIDATES →
  claim cfg locks d worker at_ dur token wtoken = Ok (None, d') →
  runs d' = runs d ∧ run_leases d' = run_leases d ∧ workers d' = workers d ∧
  ∀ r, eligible locks d r → out_of_reach cfg locks d r.
Proof.
  intros Hinv Hw Hact Hslots Hlen H. pose proof (claim_None _ _ _ _ _ _ _ _ _ Hinv H) as F.
  split_and!; [apply F..|]. unfold claim in H. run_inv H. apply commit_Ok in H as [H _]. run_inv H.
  simplify_eq. destruct (negb _ || _)%bool eqn:Hb.
  { exfalso. apply orb_true_iff in Hb as [Hb|Hb]; bool_hyps; [done|lia]. }
  destruct (claim_search _ _ _ _ _ _) as [d1 [[[row route] wr]|]] eqn:Hs; [by run_inv H|].
  intros r Hr. eapply (claim_search_exhaustive _ _ _ _ d _ _ _ Hinv (search_same_refl _ _) Hlen Hs).
  by apply eligible_candidate; [apply Hinv|].
Qed.

(** ** Completion *)

(** No workspace row of a database names a retired lease. *)
Lemma retire_clears_writers d d2 l k w :
  queue_inv d → run_leases d !! rl_run_id l = Some l → workspace_leases d2 = workspace_leases d →
  workspace_leases (_return_worker_slot (delete_run_lease (_release_workspace_for_run d2 l) l)
    (rl_worker_id l)) !! k = Some w →
  wl_run_lease_token w ≠ Some (rl_lease_token l).
Proof.
  intros Hinv Hl Ew. destruct (return_slot_frame (delete_run_lease (_release_workspace_for_run d2 l) l)
    (rl_worker_id l)) as (_ & _ & ->).
  change (workspace_leases (delete_run_lease (_release_workspace_for_run d2 l) l))
    with (workspace_leases (_release_workspace_for_run d2 l)).
  rewrite (release_workspace_ext d d2 l Ew). intros Hw.
  by destruct (release_workspace_lookup _ _ _ _ Hinv Hl Hw) as [[_ ?]|(? & _ & -> & _)].
Qed.

(** The slot of a retired lease goes back to its worker, capped at the total. *)
Lemma retire_returns_slot d d2 l w :
  workers d2 = workers d → workers d !! rl_worker_id l = Some w → wk_worker_id w = rl_worker_id l →
  workers (_return_worker_slot (delete_run_lease (_release_workspace_for_run d2 l) l)
    (rl_worker_id l)) =
  <[rl_worker_id l := set_available_slots w (Z.min (wk_total_slots w) (wk_available_slots w + 1))]>
    (workers d).
Proof.
  intros Ew Hw Hk. unfold _return_worker_slot.
  assert (workers (delete_run_lease (_release_workspace_for_run d2 l) l) = workers d) as E.
  { simpl. by destruct (release_workspace_frame d2 l) as (_ & -> & _). }
  rewrite E, Hw. simpl. rewrite Hk. destruct (release_workspace_frame d2 l) as (_ & -> & _).
  by rewrite Ew.
Qed.

(** Completing a run retires its lease as a whole.  The caller's lease was
    the live one; afterwards the run is in the requested state (or CANCELLED when
    a cancellation was pending), the lease row is gone and can never be used
    again, no workspace is owned through its token, one slot is back at the
    worker, and no other run or lease is touched. *)
Theorem finish_retires_lease d lease res at_ run d' :
  queue_inv d → finish d lease res at_ = Ok (run, d') →
  lease_live d lease = true ∧ lease_live d' lease = false ∧ lease_issued d' lease ∧
  (∃ row row', runs d !! lease_run_id lease = Some row ∧
     runs d' = <[lease_run_id lease := row']> (runs d) ∧
     run_status run = rr_status row' ∧
     rr_status row' = (if rr_cancellation_requested row then CANCELLED else res_status res)) ∧
  run_leases d' = delete (lease_run_id lease) (run_leases d) ∧
  (∀ k w, workspace_leases d' !! k = Some w →
     wl_run_lease_token w ≠ Some (lease_lease_token lease)) ∧
  ∃ w, workers d !! lease_worker_id lease = Some w ∧
    workers d' = <[lease_worker_id lease := set_available_slots w
      (Z.min (wk_total_slots w) (wk_available_slots w + 1))]> (workers d).
Proof.
  intros Hinv H. destruct (finish_effect _ _ _ _ _ _ Hinv H) as (lr & row & row' & Hl & Hm & Hr &
    Hg & Eruns & Eleases & _ & _ & Hs & Hrs & Hf & d2 & E1 & E2 & E3 & E4 & ->).
  pose proof Hm as Hm'. unfold lease_matches in Hm'. bool_hyps.
  assert (lease_run_id lease = rl_run_id lr) as Hid by congruence.
  assert (lease_worker_id lease = rl_worker_id lr) as Hwk by congruence.
  assert (lease_lease_token lease = rl_lease_token lr) as Htk by congruence.
  destruct (lease_worker_registered _ _ _ Hinv Hl) as [[w Hw] _].
  pose proof (st_workers _ (inv_struct _ Hinv) _ _ Hw) as Hkey.
  unfold lease_live, lease_issued. rewrite Hid, Hwk, Htk, Hl, Eleases, lookup_delete_eq.
  split_and!; try done.
  - exists row'. rewrite Eruns, lookup_insert_eq, Hg. split; [done|].
    unfold run_fence_matches in Hf. bool_hyps. lia.
  - eauto 10.
  - intros k x. by apply (retire_clears_writers d).
  - exists w. split; [done|]. by apply retire_returns_slot.
Qed.

(** ** Scheduling order *)

(** Aging prevents starvation.  A run that has waited two aging periods is
    ordered before every run of the same numeric priority that has waited less
    than one period, whatever their classes; and no run is ever ordered by more
    than two classes above its own. *)
Theorem aging_prevents_starvation policy now old fresh :
  (0 < policy_priority_aging policy)%Z →
  (2 * policy_priority_aging policy ≤ now - rr_created_at old)%Z →
  (now - rr_created_at fresh < policy_priority_aging policy)%Z →
  rr_priority old = rr_priority fresh →
  claim_before policy now old fresh = true ∧
  (effective_rank policy now old ≤ class_rank (rr_priority_class old) + 2)%Z.
Proof.
  intros Hp Ho Hf Hpr. unfold effective_rank, age_boost.
  assert (2 ≤ (now - rr_created_at old) / policy_priority_aging policy)%Z
    by (apply Z.div_le_lower_bound; lia).
  assert ((now - rr_created_at fresh) / policy_priority_aging policy < 1)%Z
    by (apply Z.div_lt_upper_bound; lia).
  split; [|lia]. apply claim_before_iff. unfold effective_rank, age_boost.
  assert (rr_created_at old < rr_created_at fresh)%Z by lia.
  assert (class_rank (rr_priority_class fresh) ≤ 2)%Z by (by destruct (rr_priority_class fresh)).
  assert (0 ≤ class_rank (rr_priority_class old))%Z by (by destruct (rr_priority_class old)).
  lia.
Qed.

(** ** Workspace writer leases *)

Lemma writer_domain_Ok w lease :
  _workspace_lease_domain w = Ok lease →
  wl_expires_at w = Some (writer_expires_at lease) ∧ wl_lease_token w = Some (writer_lease_token lease) ∧
  wl_generation w = writer_generation lease ∧ wl_run_lease_token w = Some (writer_run_lease_token lease).
Proof.
  unfold _workspace_lease_domain.
  destruct (wl_run_id w), (wl_worker_id w), (wl_run_lease_token w), (wl_lease_token w),
    (wl_acquired_at w), (wl_expires_at w); try done.
  unfold validate_workspace_writer_lease. intros H. run_inv H. by split_and!.
Qed.

(** Acquiring a workspace is exclusive, idempotent and bounded by the run
    lease.  The granted writer lease never outlives the run lease nor the
    requested duration; an unowned workspace is taken under the fresh token one
    generation later, the caller's own one is renewed under its token and
    generation, and a workspace owned through another run lease is refused
    without touching its row. *)
Theorem acquire_exclusive d lease t dur token o d' :
  queue_inv d → acquire d lease (utc t) dur token = Ok (o, d') →
  ∃ l, run_leases d !! lease_run_id lease = Some l ∧ lease_matches l lease = true ∧
    (t < rl_expires_at l)%Z ∧
    let key := (lease_tenant_id lease, lease_workspace_id lease) in
    match workspace_leases d !! key with
    | Some w =>
        match wl_lease_token w with
        | Some tok =>
            if owned_by_run_lease w lease
            then ∃ granted, o = Some granted ∧ writer_lease_token granted = tok ∧
                   writer_generation granted = wl_generation w ∧
                   writer_expires_at granted = Z.min (t + dur) (rl_expires_at l)
            else o = None ∧ workspace_leases d' !! key = Some w
        | None => ∃ granted, o = Some granted ∧ writer_lease_token granted = token ∧
                   writer_generation granted = (wl_generation w + 1)%Z ∧
                   writer_expires_at granted = Z.min (t + dur) (rl_expires_at l)
        end
    | None => ∃ granted, o = Some granted ∧ writer_lease_token granted = token ∧
                writer_generation granted = 1%Z ∧
                writer_expires_at granted = Z.min (t + dur) (rl_expires_at l)
    end.
Proof.
  intros Hinv H. unfold acquire, _operation_time in H. rewrite normalize_utc in H.
  unfold _expiry in H. run_inv H. run_inv Hrun0. apply commit_Ok in H as [H _]. run_inv H.
  match goal with H : _assert_matching_run_lease _ _ = Ok _ |- _ =>
    apply matching_lease_Ok in H as [Hl Hm] end.
  apply (lease_by_token_Some _ _ _ (inv_struct _ Hinv)) in Hl as [_ Hl].
  pose proof Hm as Hm'. unfold lease_matches in Hm'. bool_hyps.
  exists v0. replace (lease_run_id lease) with (rl_run_id v0). split_and!; [done..|lia|].
  cbv zeta. unfold ensure_workspace_row in Epair.
  destruct (workspace_leases d !! _) as [w0|] eqn:Ew; injection Epair as <- <-.
  - destruct (wl_lease_token w0) as [tok|] eqn:Etok; simpl in H.
    + destruct (owned_by_run_lease w0 lease); run_inv H; [|done].
      match goal with H : _workspace_lease_domain _ = Ok _ |- _ =>
        apply writer_domain_Ok in H as (He & Ht & Hg & _) end. simpl in *.
      eexists. split; [done|]. split_and!; congruence.
    + run_inv H. match goal with H : _workspace_lease_domain _ = Ok _ |- _ =>
        apply writer_domain_Ok in H as (He & Ht & Hg & _) end. simpl in *.
      eexists. split; [done|]. split_and!; congruence.
  - simpl in H. run_inv H. match goal with H : _workspace_lease_domain _ = Ok _ |- _ =>
      apply writer_domain_Ok in H as (He & Ht & Hg & _) end. simpl in *.
    eexists. split; [done|]. split_and!; [congruence|lia|congruence].
Qed.
