(* ===== verification/QueueRecovery.v ===== *)
(** * Recovery of expired leases always succeeds

    The rows a recovery pass writes satisfy every constraint, so
    [recover_expired] commits; the committed database holds no expired lease and
    no due retry that the pass could see. *)

From stdpp Require Import base list sets gmap strings sorting.
From Stdlib Require Import ZArith Lia.
From S2P Require Import Prelude PyBase Domain Tables Contracts RunQueue WorkspaceLeases RunRepository QueueInvariant QueueOperations QueueSafety QueueProgress.

(** ** Rows and domain values *)

(** The columns [_apply_run] does not write agree with the run. *)
Definition row_identity (row : RunRecord) (run : Run) : Prop :=
  run_id run = rr_id row ∧ run_session_id run = rr_session_id row ∧
  run_workspace_id run = rr_workspace_id row ∧ run_priority run = rr_priority row ∧
  run_priority_class run = rr_priority_class row ∧ run_created_at run = rr_created_at row ∧
  run_traceparent run = rr_traceparent row ∧ run_tracestate run = rr_tracestate row ∧
  run_last_checkpoint_id run = rr_last_checkpoint_id row.

Lemma run_domain_identity row run : _run_domain row = Ok run → row_identity row run ∧ run_wf run.
Proof. unfold _run_domain. intros [-> ?]%validate_run_Ok. by split_and!. Qed.

(** Writing a well-formed run to its row and reading it back is the identity. *)
Lemma apply_run_domain row run t :
  run_wf run → row_identity row run → _run_domain (set_retry_ready_at (_apply_run row run) t) = Ok run.
Proof.
  intros Hwf (H1 & H2 & H3 & H4 & H5 & H6 & H7 & H8 & H9). rewrite <- (wf_validate run Hwf).
  unfold _run_domain. simpl. rewrite <- H1, <- H2, <- H3, <- H4, <- H5, <- H6. by destruct run.
Qed.

Lemma set_retry_same r : set_retry_ready_at r (rr_retry_ready_at r) = r.
Proof. by destruct r. Qed.

Lemma apply_run_checks row run t :
  run_wf run → row_identity row run → run_record_checks row = true →
  bool_decide (run_status run = RETRY_PENDING) = is_some t →
  run_record_checks (set_retry_ready_at (_apply_run row run) t) = true.
Proof.
  intros Hwf (_ & _ & _ & _ & _ & Hc & Htp & Hts & _) Hold Ht.
  unfold run_record_checks in *. bool_hyps. simpl. rewrite <- Hc, Htp, Hts, Ht.
  destruct Hwf. unfold lifecycle_start in *.
  repeat (try assumption; apply andb_true_intro; split); try done; try (apply Z.leb_le; lia).
  - apply match_guard. intros s Hs. by apply Z.leb_le, wf_started.
  - apply match_guard. intros c Hc'. by apply Z.leb_le, wf_completed.
  - destruct (is_started_run_status _); [|done]. by apply is_some_ne, wf_started_state.
  - rewrite wf_terminal_state. by destruct (run_completed_at run).
  - destruct (is_assigned_run_status _); [|done]. destruct wf_assigned_state as [Hw He]; [done|].
    by rewrite (proj2 (is_some_ne _) Hw), (proj2 (is_some_ne _) He).
  - destruct (is_unassigned_run_status _); [|done].
    by destruct wf_unassigned_state as [-> ->].
  - by destruct (is_some t).
Qed.

(** ** Constraint-preserving writes *)

Lemma run_keys_update (m : gmap uuid RunRecord) k r r' :
  run_keys_unique m → m !! k = Some r → rr_tenant_id r' = rr_tenant_id r →
  rr_session_id r' = rr_session_id r → rr_idempotency_key r' = rr_idempotency_key r →
  run_keys_unique (<[k := r']> m).
Proof.
  intros Hu Hk E1 E2 E3 k1 x1 H1 k2 x2 H2. rewrite lookup_insert in H1, H2.
  destruct (decide (k = k1)) as [<-|], (decide (k = k2)) as [<-|]; try done;
    try (injection H1 as <-); try (injection H2 as <-); rewrite ?E1, ?E2, ?E3.
  - by apply (Hu _ _ Hk _ _ H2).
  - by apply (Hu _ _ H1 _ _ Hk).
  - by apply (Hu _ _ H1 _ _ H2).
Qed.

Lemma db_ok_put_run d r r' :
  db_ok d → runs d !! rr_id r' = Some r → same_owner r r' → rr_session_id r' = rr_session_id r →
  rr_last_checkpoint_id r' = rr_last_checkpoint_id r →
  rr_idempotency_key r' = rr_idempotency_key r →
  run_record_checks r' = true → db_ok (put_run d r').
Proof.
  intros [Hr Hs Hw Hl Hk Hq Ht1 Ht2 Hu Hch] Hrow [Ho1 Ho2] Hses Hcp Hkey Hc.
  constructor; try done; simpl; [intros k x Hx..| |].
  - rewrite lookup_insert in Hx. case_decide; [|by apply Hr]. injection Hx as <-. subst.
    destruct (Hr _ _ Hrow) as (_ & _ & Href). split_and!; [done..|].
    unfold run_references in *. simpl. pose proof (proj1 (Hr _ _ Hrow)) as Hid.
    by rewrite Ho1, Ho2, Hses, Hcp, <- Hid.
  - destruct (Hl _ _ Hx) as (? & ? & Href). split_and!; try done.
    unfold run_lease_references in *. simpl.
    by rewrite (run_exists_update d (put_run d r') (rr_id r') r r').
  - destruct (Hk _ _ Hx) as (? & ? & Href). split_and!; try done.
    by rewrite (workspace_references_update d (put_run d r') (rr_id r') r r').
  - apply (run_keys_update _ _ r); done.
  - apply (children_ok_frame d); try done; simpl.
    + intros t k s. unfold run_in_session. simpl. rewrite lookup_insert. case_decide; [|done].
      subst. by rewrite Hrow, Ho1, Hses.
    + intros t k. by rewrite (run_exists_update d (put_run d r') (rr_id r') r r').
Qed.

Lemma db_ok_delete_lease d l : db_ok d → db_ok (delete_run_lease d l).
Proof.
  intros [Hr Hs Hw Hl Hk Hq Ht1 Ht2 Hu Hch]. constructor; try done; simpl.
  - intros k x [_ Hx]%lookup_delete_Some. by apply Hl.
  - intros k1 x1 [_ H1]%lookup_delete_Some k2 x2 [_ H2]%lookup_delete_Some.
    by apply (Ht1 _ _ H1 _ _ H2).
  - by apply (children_ok_frame d).
Qed.

Lemma db_ok_release_workspace d l : db_ok d → db_ok (_release_workspace_for_run d l).
Proof.
  intros Hok. unfold _release_workspace_for_run.
  destruct (scalar_where _ _) as [w|] eqn:Hs; [|done].
  apply scalar_where_Some in Hs as [_ [k0 Hw0]].
  destruct Hok as [Hr Hs Hw Hl Hk Hq Ht1 Ht2 Hu Hch].
  destruct (Hk _ _ Hw0) as (Hkey & Hc & _).
  constructor; try done; simpl.
  - intros k x. rewrite lookup_insert. case_decide; [|apply Hk]. intros [= <-].
    split_and!; try done. unfold workspace_lease_record_checks in *. bool_hyps. simpl.
    apply andb_true_intro. split; [by apply Z.leb_le|done].
  - intros k1 x1 H1 k2 x2 H2. rewrite lookup_insert in H1, H2.
    repeat case_decide; simplify_eq; simpl; try done; try congruence.
    by apply (Ht2 _ _ H1 _ _ H2).
  - by apply (children_ok_frame d).
Qed.

Lemma db_ok_return_slot d k : db_ok d → db_ok (_return_worker_slot d k).
Proof.
  intros Hok. unfold _return_worker_slot. destruct (workers d !! k) as [w|] eqn:Hw0; [|done].
  destruct Hok as [Hr Hs Hw Hl Hk Hq Ht1 Ht2 Hu Hch]. destruct (Hw _ _ Hw0) as [Hkey Hc].
  assert (∀ j, is_some (<[wk_worker_id w := set_available_slots w
    (Z.min (wk_total_slots w) (wk_available_slots w + 1))]> (workers d) !! j) =
    is_some (workers d !! j)) as Hmono.
  { intros j. rewrite lookup_insert. case_decide; [|done]. subst. by rewrite Hw0. }
  constructor; try done; simpl.
  - intros j x. rewrite lookup_insert. case_decide; [|apply Hw]. intros [= <-].
    split; [done|]. unfold worker_record_checks in *. simpl. bool_hyps.
    repeat (apply andb_true_intro; split); apply Z.leb_le; lia.
  - intros j x Hx. destruct (Hl _ _ Hx) as (? & ? & Href). split_and!; try done.
    unfold run_lease_references in *. simpl. by rewrite Hmono.
  - intros j x Hx. destruct (Hk _ _ Hx) as (? & ? & Href). split_and!; try done.
    unfold workspace_lease_references in *. simpl. destruct (wl_worker_id x); [|done].
    by rewrite Hmono.
  - by apply (children_ok_frame d).
Qed.

(** ** One recovered row *)

(** The rows of a database load as domain values, and the clock is not behind
    any run's lifecycle. *)
Definition rows_loadable (d : Db) (now : timestamp) : Prop :=
  ∀ k r, runs d !! k = Some r →
    is_ok (_run_domain r) = true ∧ (default (rr_created_at r) (rr_started_at r) ≤ now)%Z.

Lemma unlease_transition row run s now :
  row_identity row run → run_wf run → s ∈ allowed_run_transitions (run_status run) → s ≠ LEASED →
  s ≠ RUNNING → (lifecycle_start run ≤ now)%Z →
  ∃ run', transition_run run s (utc now) None None = Ok run' ∧ run_wf run' ∧
    row_identity row run' ∧ run_status run' = s ∧ lifecycle_start run' = lifecycle_start run ∧
    run_cancellation_requested run' =
      (run_cancellation_requested run || bool_decide (s = CANCELLED))%bool ∧
    run_assigned_worker_id run' = None ∧
    run_attempt run' = (run_attempt run + (if bool_decide (s = QUEUED ∧
      run_status run ∈ [RETRY_PENDING; LOST]) then 1 else 0))%Z.
Proof.
  intros Hid Hwf Hs Hn1 Hn2 Ht. exists (transition_data run s now None None).
  assert (run_wf (transition_data run s now None None)) as Hwf'
    by (apply transition_data_wf; done).
  split_and!; try done.
  - apply transition_run_of_data; done || apply normalize_utc.
  - by destruct s.
  - by destruct s.
  - simpl. destruct (decide (s = QUEUED)) as [->|Hq].
    + eval_status. destruct (bool_decide (run_status run ∈ _)) eqn:Hb; bool_hyps;
        [rewrite bool_decide_true by done|rewrite bool_decide_false by tauto]; lia.
    + rewrite (bool_decide_false (s = QUEUED)) by done.
      rewrite (bool_decide_false (s = QUEUED ∧ _)) by tauto. simpl. lia.
Qed.

(** The row a pass writes for run row [r]: moved to status [s] with [n] more
    attempts and no lease, everything that identifies it kept. *)
Definition unleased_row (s : RunStatus) (n : Z) (r r' : RunRecord) : Prop :=
  rr_id r' = rr_id r ∧ rr_tenant_id r' = rr_tenant_id r ∧
  rr_lease_generation r' = rr_lease_generation r ∧
  rr_assigned_worker_id r' = None ∧ rr_retry_ready_at r' = None ∧
  rr_status r' = s ∧ rr_attempt r' = (rr_attempt r + n)%Z.

(** An abandoned run is requeued with one more attempt, or cancelled when a
    cancellation was pending. *)
Definition recovered_row (r r' : RunRecord) : Prop :=
  if rr_cancellation_requested r then unleased_row CANCELLED 0 r r' else unleased_row QUEUED 1 r r'.

(** Replacing a row by one that loads keeps the database loadable. *)
Lemma rows_loadable_insert d d' now k r' :
  rows_loadable d now → runs d' = <[k := r']> (runs d) → is_ok (_run_domain r') = true →
  (default (rr_created_at r') (rr_started_at r') ≤ now)%Z → rows_loadable d' now.
Proof.
  intros Hall Hr Hok Ht j x. rewrite Hr, lookup_insert.
  case_decide; [by intros [= <-]|apply Hall].
Qed.

(** A well-formed run written over its row: constraints, loading and clock. *)
Lemma write_back d now row run t d' :
  db_ok d → rows_loadable d now → runs d !! rr_id row = Some row → run_wf run →
  row_identity row run → bool_decide (run_status run = RETRY_PENDING) = is_some t →
  (lifecycle_start run ≤ now)%Z → d' = put_run d (set_retry_ready_at (_apply_run row run) t) →
  db_ok d' ∧ rows_loadable d' now.
Proof.
  intros Hok Hload Hr Hwf Hid Hs Ht ->. pose proof Hid as (_ & _ & _ & _ & _ & Hc & _ & _ & Hcp).
  destruct (ok_runs _ Hok _ _ Hr) as (_ & Hchk & _). split.
  - eapply db_ok_put_run; simpl; try done. by apply apply_run_checks.
  - eapply rows_loadable_insert; [done|done|by rewrite apply_run_domain|].
    simpl. by rewrite <- Hc.
Qed.

Lemma requeue_retry_total now d row :
  db_ok d → rows_loadable d now → runs d !! rr_id row = Some row → rr_status row = RETRY_PENDING →
  ∃ run row', requeue_retry now d row = Ok (run, put_run d row') ∧ unleased_row QUEUED 1 row row' ∧
    db_ok (put_run d row') ∧ rows_loadable (put_run d row') now.
Proof.
  intros Hok Hload Hr Hs. destruct (Hload _ _ Hr) as [Hdom Ht].
  unfold requeue_retry. destruct (_run_domain row) as [run|] eqn:Erun; [|done].
  destruct (run_domain_identity _ _ Erun) as [Hid Hwf].
  apply run_domain_inv in Erun as (_ & Hst & Hat & _ & _ & _ & Hcan & Hcr & Hsa & _).
  destruct (unlease_transition row run QUEUED now) as
    (run' & Htr & Hwf' & Hid' & Hs' & Hls & Hc' & Hw' & Hat'); try done.
  { rewrite Hst, Hs. by left. }
  { unfold lifecycle_start. by rewrite Hcr, Hsa. }
  simpl. rewrite Htr. simpl. eexists run', _. split; [done|].
  split; [|eapply (write_back d now row run' None); try done].
  - unfold unleased_row. simpl. split_and!; try done. rewrite Hat', Hat, bool_decide_true; [done|].
    rewrite Hst, Hs. by split; [|left].
  - by rewrite Hs'.
  - rewrite Hls. unfold lifecycle_start. by rewrite Hcr, Hsa.
Qed.

Lemma recover_run_total now row run :
  _run_domain row = Ok run → rr_status row ∈ [LEASED; RUNNING] →
  (default (rr_created_at row) (rr_started_at row) ≤ now)%Z →
  ∃ run', recover_run now row = Ok run' ∧ run_wf run' ∧ row_identity row run' ∧
    (lifecycle_start run' ≤ now)%Z ∧ run_assigned_worker_id run' = None ∧
    run_status run' = (if rr_cancellation_requested row then CANCELLED else QUEUED) ∧
    run_attempt run' = (rr_attempt row + (if rr_cancellation_requested row then 0 else 1))%Z.
Proof.
  intros Erun Hs Ht. unfold recover_run. rewrite Erun. simpl.
  destruct (run_domain_identity _ _ Erun) as [Hid Hwf].
  apply run_domain_inv in Erun as (_ & Hst & Hat & _ & _ & _ & Hcan & Hcr & Hsa & _).
  assert (lifecycle_start run ≤ now)%Z as Hls by (unfold lifecycle_start; by rewrite Hcr, Hsa).
  assert (∀ s, s = CANCELLED ∨ s = LOST → s ∈ allowed_run_transitions (run_status run)) as Hall.
  { rewrite Hst. intros s Hor. apply elem_of_cons in Hs as [->|[->|Hn]%elem_of_cons];
      [| |by apply elem_of_nil in Hn]; destruct Hor as [-> | ->]; set_solver. }
  rewrite Hcan. destruct (rr_cancellation_requested row).
  - destruct (unlease_transition row run CANCELLED now) as
      (run' & Htr & Hwf' & Hid' & Hs' & Hl' & _ & Hw' & Hat'); eauto.
    exists run'. split_and!; try done; [lia|]. rewrite Hat', bool_decide_false by naive_solver. lia.
  - destruct (unlease_transition row run LOST now) as
      (run1 & Htr & Hwf1 & Hid1 & Hs1 & Hl1 & _ & _ & Hat1); eauto. rewrite Htr. simpl.
    destruct (unlease_transition row run1 QUEUED now) as
      (run2 & Htr2 & Hwf2 & Hid2 & Hs2 & Hl2 & _ & Hw2 & Hat2); try done.
    { rewrite Hs1. by left. }
    { lia. }
    exists run2. split_and!; try done; [lia|].
    rewrite Hat2, Hat1, Hs1, (bool_decide_false (LOST = QUEUED ∧ _)) by naive_solver.
    rewrite bool_decide_true by (split; [done|by right; left]). lia.
Qed.

Lemma held_no_retry d k r :
  db_ok d → runs d !! k = Some r → rr_status r ∈ [LEASED; RUNNING] → rr_retry_ready_at r = None.
Proof.
  intros Hok Hr Hs. destruct (ok_runs _ Hok _ _ Hr) as (_ & Hc & _).
  unfold run_record_checks in Hc. bool_hyps.
  destruct (rr_retry_ready_at r); [|done]. exfalso.
  assert (bool_decide (rr_status r = RETRY_PENDING) = false) as Hb.
  { apply bool_decide_eq_false. intros Heq. rewrite Heq in Hs. set_solver. }
  by rewrite Hb in *.
Qed.

Lemma recover_lease_total now d l :
  queue_inv d → db_ok d → rows_loadable d now → run_leases d !! rl_run_id l = Some l →
  ∃ o d' row row', recover_lease now d l = Ok (o, d') ∧ runs d !! rl_run_id l = Some row ∧
    recovered_row row row' ∧ runs d' = <[rl_run_id l := row']> (runs d) ∧
    db_ok d' ∧ rows_loadable d' now.
Proof.
  intros Hinv Hok Hload Hl. pose proof (inv_agree _ Hinv (rl_run_id l)) as Ha. rewrite Hl in Ha.
  destruct Ha as (row & Hr & Ht & Hg & Hw & Hs & _).
  pose proof (st_runs _ (inv_struct _ Hinv) _ _ Hr) as Hrid.
  destruct (Hload _ _ Hr) as [Hdom Htime]. destruct (_run_domain row) as [run|] eqn:Erun; [|done].
  destruct (recover_run_total now row run Erun Hs Htime)
    as (run' & Hrec & Hwf & Hid & Hls & Hwk & Hst & Hat).
  pose proof (held_no_retry _ _ _ Hok Hr Hs) as Hretry.
  destruct (write_back d now row run' None (put_run d (_apply_run row run'))) as [Hok1 Hload1]; try done.
  { by rewrite Hrid. }
  { rewrite Hst. by destruct (rr_cancellation_requested row). }
  { f_equal. rewrite <- Hretry. by rewrite <- (set_retry_same (_apply_run row run')). }
  exists (Some run'), (_return_worker_slot (delete_run_lease (_release_workspace_for_run
    (put_run d (_apply_run row run')) l) l) (rl_worker_id l)), row, (_apply_run row run').
  destruct (retire_frame (put_run d (_apply_run row run')) l (rl_worker_id l)) as [Er _].
  split_and!; try done.
  - unfold recover_lease. rewrite Hr. unfold lease_owns_run.
    rewrite !bool_decide_true by done. simpl. by rewrite Hrec.
  - unfold recovered_row, unleased_row. simpl. rewrite Hst, Hat.
    by destruct (rr_cancellation_requested row).
  - rewrite Er. simpl. by rewrite Hrid.
  - by apply db_ok_return_slot, db_ok_delete_lease, db_ok_release_workspace.
  - intros k x. rewrite Er. apply Hload1.
Qed.

(** ** The two phases *)

Lemma requeue_retries_total now rows d :
  db_ok d → rows_loadable d now → NoDup (map rr_id rows) →
  (∀ r, r ∈ rows → runs d !! rr_id r = Some r ∧ rr_status r = RETRY_PENDING) →
  ∃ rs d', requeue_retries now d rows = Ok (rs, d') ∧ length rs = length rows ∧
    db_ok d' ∧ rows_loadable d' now ∧ run_leases d' = run_leases d ∧
    (∀ r, r ∈ rows → ∃ r', runs d' !! rr_id r = Some r' ∧ unleased_row QUEUED 1 r r') ∧
    (∀ k, k ∉ map rr_id rows → runs d' !! k = runs d !! k).
Proof.
  revert d. induction rows as [|row rows IH]; intros d Hok Hload Hnd Hrows.
  { exists [], d. split_and!; try done. by intros r ?%elem_of_nil. }
  simpl in Hnd. apply NoDup_cons in Hnd as [Hnin Hnd].
  destruct (Hrows row) as [Hr Hs]; [by left|].
  destruct (requeue_retry_total now d row Hok Hload Hr Hs) as (run & row' & Hq & Hrow' & Hok1 & Hload1).
  pose proof Hrow' as (Hid & _).
  destruct (IH (put_run d row')) as (rs & d' & Hrs & Hlen & Hok' & Hload' & Hls & Hin & Hout); try done.
  { intros r Hrr. destruct (Hrows r) as [? ?]; [by right|]. split; [|done]. simpl. rewrite Hid.
    rewrite lookup_insert_ne; [done|]. intros Heq. apply Hnin. rewrite Heq.
    apply list_elem_of_fmap. eauto. }
  exists (run :: rs), d'. simpl. rewrite Hq. simpl. rewrite Hrs. simpl. split_and!; try done; [lia| |].
  - intros r [->|Hrr]%elem_of_cons; [|by apply Hin]. exists row'. split; [|done].
    rewrite Hout by done. simpl. by rewrite Hid, lookup_insert_eq.
  - intros k [Hk1 Hk2]%not_elem_of_cons. rewrite Hout by done. simpl.
    by rewrite Hid, lookup_insert_ne.
Qed.

Lemma recover_leases_total now ls d :
  queue_inv d → db_ok d → rows_loadable d now → NoDup (map rl_run_id ls) →
  (∀ l, l ∈ ls → run_leases d !! rl_run_id l = Some l) →
  ∃ rs d', recover_leases now d ls = Ok (rs, d') ∧ db_ok d' ∧
    (∀ l, l ∈ ls → ∃ r r', runs d !! rl_run_id l = Some r ∧ runs d' !! rl_run_id l = Some r' ∧
       recovered_row r r') ∧
    (∀ k, k ∉ map rl_run_id ls → runs d' !! k = runs d !! k).
Proof.
  revert d. induction ls as [|l ls IH]; intros d Hinv Hok Hload Hnd Hls.
  { exists [], d. split_and!; try done. by intros r ?%elem_of_nil. }
  simpl in Hnd. apply NoDup_cons in Hnd as [Hnin Hnd].
  destruct (recover_lease_total now d l Hinv Hok Hload) as
    (o & d1 & row & row' & Hrec & Hr & Hrow & Er & Hok1 & Hload1); [by apply Hls; left|].
  destruct (recover_lease_inv _ _ _ _ _ Hinv (Hls l (list_elem_of_here _ _)) Hrec) as [Hinv1 Hdel].
  assert (∀ x, x ∈ ls → rl_run_id l ≠ rl_run_id x) as Hne.
  { intros x Hx Heq. apply Hnin. rewrite Heq. apply list_elem_of_fmap. eauto. }
  destruct (IH d1) as (rs & d' & Hrs & Hok' & Hin & Hout); try done.
  { intros x Hx. rewrite Hdel, lookup_delete_ne by (by apply Hne). apply Hls. by right. }
  eexists _, d'. simpl. rewrite Hrec. simpl. rewrite Hrs. simpl. split_and!; try done.
  - intros x [->|Hx]%elem_of_cons.
    + exists row, row'. rewrite Hout, Er, lookup_insert_eq by done. done.
    + destruct (Hin x Hx) as (r & r' & Hr0 & Hr' & Hrr). exists r, r'.
      rewrite Er, lookup_insert_ne in Hr0 by (by apply Hne). done.
  - intros k [Hk1 Hk2]%not_elem_of_cons. by rewrite Hout, Er, lookup_insert_ne by done.
Qed.

(** Enough room takes every matching row. *)
Lemma sorted_prefix_all {V} (R : relation V) `{!RelDecision R} n (l : list V) x :
  length l ≤ n → x ∈ l → x ∈ take n (merge_sort R l).
Proof.
  intros Hn Hx. rewrite take_ge by (by rewrite merge_sort_Permutation).
  by rewrite merge_sort_Permutation.
Qed.

(** The rows a pass sees. *)
Definition visible_retries (locks : Locks) (d : Db) (now : timestamp) : list RunRecord :=
  select_where (λ r, retry_due now r && negb (bool_decide (rr_id r ∈ locked_runs locks))) (runs d).
Definition visible_expired (locks : Locks) (d : Db) (now : timestamp) : list RunLeaseRecord :=
  select_where (λ l, (rl_expires_at l <=? now)%Z
                     && negb (bool_decide (rl_run_id l ∈ locked_leases locks))) (run_leases d).

Lemma visible_retry_row locks d now r :
  db_struct d → r ∈ visible_retries locks d now ↔
  runs d !! rr_id r = Some r ∧ retry_due now r = true ∧ rr_id r ∉ locked_runs locks.
Proof.
  intros Hst. unfold visible_retries. rewrite elem_of_select. split.
  - intros [Hb [k Hk]]. pose proof (st_runs _ Hst _ _ Hk) as <-. bool_hyps. done.
  - intros (Hr & -> & Hl). split; [|by eauto]. by rewrite bool_decide_false.
Qed.

Lemma visible_expired_row locks d now l :
  db_struct d → l ∈ visible_expired locks d now ↔
  run_leases d !! rl_run_id l = Some l ∧ (rl_expires_at l ≤ now)%Z ∧ rl_run_id l ∉ locked_leases locks.
Proof.
  intros Hst. unfold visible_expired. rewrite elem_of_select. split.
  - intros [Hb [k Hk]]. pose proof (lease_row_key _ _ _ Hst Hk) as <-. bool_hyps. done.
  - intros (Hl & Ht & Hk). split; [|by eauto].
    by rewrite bool_decide_false, (proj2 (Z.leb_le _ _) Ht).
Qed.

Lemma recover_expired_run locks d now n rs1 d1 rs2 d2 :
  1 ≤ n ≤ MAX_RECOVERY_RUNS →
  requeue_retries now d (due_retries d locks now n) = Ok (rs1, d1) →
  recover_leases now d1 (expired_leases d1 locks now (n - length rs1)) = Ok (rs2, d2) → db_ok d2 →
  ∃ rs ws, recover_expired locks d (utc now) n = Ok (rs, ws, d2).
Proof.
  intros [Hn1 Hn2] H1 H2 Hok. eexists _, _. unfold recover_expired, _operation_time.
  rewrite normalize_utc, (proj2 (Nat.leb_le 1 n) Hn1), (proj2 (Nat.leb_le n _) Hn2).
  simpl. rewrite H1. simpl. rewrite H2. simpl. by rewrite (proj2 (db_okb_iff _) Hok).
Qed.

(** A pass whose limit covers everything visible leaves nothing behind. *)
Definition recovery_complete (locks : Locks) (d d' : Db) (now : timestamp) : Prop :=
  (∀ r, r ∈ visible_retries locks d now →
     ∃ r', runs d' !! rr_id r = Some r' ∧ unleased_row QUEUED 1 r r') ∧
  (∀ l, l ∈ visible_expired locks d now →
     ∃ r r', runs d !! rl_run_id l = Some r ∧ runs d' !! rl_run_id l = Some r' ∧
       recovered_row r r') ∧
  visible_expired locks d' now = [] ∧ visible_retries locks d' now = [].

(** The run of a lease is not waiting for a retry. *)
Lemma lease_not_retry d l r :
  queue_inv d → run_leases d !! rl_run_id l = Some l → runs d !! rl_run_id l = Some r →
  rr_status r ≠ RETRY_PENDING.
Proof.
  intros Hinv Hl Hr Hs. destruct (held_lease_agree _ _ _ Hinv Hl Hr) as (_ & _ & _ & Hin & _).
  rewrite Hs in Hin. set_solver.
Qed.

Lemma recovery_pass_complete locks d now n (rs1 : list Run) d1 (rs2 : list Run) d2 :
  queue_inv d → queue_inv d1 → queue_inv d2 →
  run_leases d1 = run_leases d → length rs1 = length (due_retries d locks now n) →
  (∀ r, r ∈ due_retries d locks now n →
     ∃ r', runs d1 !! rr_id r = Some r' ∧ unleased_row QUEUED 1 r r') →
  (∀ k, k ∉ map rr_id (due_retries d locks now n) → runs d1 !! k = runs d !! k) →
  let ls := expired_leases d1 locks now (n - length rs1) in
  recover_leases now d1 ls = Ok (rs2, d2) →
  (∀ k, run_leases d2 !! k = if decide (k ∈ map rl_run_id ls) then None else run_leases d1 !! k) →
  (∀ l, l ∈ ls → ∃ r r', runs d1 !! rl_run_id l = Some r ∧ runs d2 !! rl_run_id l = Some r' ∧
     recovered_row r r') →
  (∀ k, k ∉ map rl_run_id ls → runs d2 !! k = runs d1 !! k) →
  length (visible_retries locks d now) + length (visible_expired locks d now) ≤ n →
  recovery_complete locks d d2 now.
Proof.
  intros Hinv Hinv1 Hinv2 Els Hlen Hin1 Hout1 ls H2 Hlk Hin2 Hout2 Hn.
  pose proof (inv_struct _ Hinv) as Hst. pose proof (inv_struct _ Hinv1) as Hst1.
  pose proof (inv_struct _ Hinv2) as Hst2.
  assert (∀ r, r ∈ visible_retries locks d now → r ∈ due_retries d locks now n) as Hdue.
  { intros r. apply sorted_prefix_all. fold (visible_retries locks d now). lia. }
  assert (length rs1 ≤ length (visible_retries locks d now)) as Hle.
  { rewrite Hlen. unfold due_retries. rewrite length_take, merge_sort_Permutation.
    fold (visible_retries locks d now). lia. }
  assert (visible_expired locks d1 now = visible_expired locks d now) as Evis.
  { unfold visible_expired. by rewrite Els. }
  assert (∀ l, l ∈ visible_expired locks d now → l ∈ ls) as Hexp.
  { intros l. rewrite <- Evis. apply sorted_prefix_all. fold (visible_expired locks d1 now).
    rewrite Evis. lia. }
  assert (∀ l, l ∈ ls → run_leases d !! rl_run_id l = Some l) as Hls.
  { intros l Hl. apply (expired_leases_rows _ _ _ _ _ Hst1) in Hl as [Hl _]. by rewrite <- Els. }
  assert (∀ r, r ∈ due_retries d locks now n → rr_id r ∉ map rl_run_id ls) as Hdisj.
  { intros r Hr (l & Heq & Hl)%list_elem_of_fmap. apply (due_retries_rows _ _ _ _ _ Hst) in Hr as [Hr Hs].
    rewrite Heq in Hr. by apply (lease_not_retry d l r Hinv (Hls l Hl)). }
  assert (∀ l, l ∈ ls → runs d1 !! rl_run_id l = runs d !! rl_run_id l) as Hsame.
  { intros l Hl. apply Hout1. intros (r & Heq & Hr)%list_elem_of_fmap.
    apply (Hdisj r Hr). rewrite <- Heq. apply list_elem_of_fmap. eauto. }
  unfold recovery_complete. split_and!.
  - intros r Hr. rewrite Hout2 by (by apply Hdisj, Hdue). by apply Hin1, Hdue.
  - intros l Hl. destruct (Hin2 l (Hexp l Hl)) as (r & r' & Hr & ? & ?).
    exists r, r'. by rewrite <- Hsame by (by apply Hexp).
  - destruct (visible_expired locks d2 now) as [|l t] eqn:E; [done|]. exfalso.
    assert (l ∈ visible_expired locks d2 now) as Hl by (rewrite E; by left).
    apply (visible_expired_row _ _ _ _ Hst2) in Hl as (Hl & Ht & Hlo). rewrite Hlk in Hl.
    destruct (decide _) as [|Hnin]; [done|]. rewrite Els in Hl. apply Hnin, list_elem_of_fmap.
    exists l. split; [done|]. apply Hexp. by apply visible_expired_row.
  - destruct (visible_retries locks d2 now) as [|r t] eqn:E; [done|]. exfalso.
    assert (r ∈ visible_retries locks d2 now) as Hr by (rewrite E; by left).
    apply (visible_retry_row _ _ _ _ Hst2) in Hr as (Hr & Hd & Hlo). unfold retry_due in Hd.
    destruct (decide (rr_id r ∈ map rl_run_id ls)) as [Hk|Hk].
    + apply list_elem_of_fmap in Hk as (l & Heq & Hl). destruct (Hin2 l Hl) as (r0 & r' & _ & Hr' & Hrec).
      rewrite <- Heq, Hr in Hr'. injection Hr' as <-. unfold recovered_row, unleased_row in Hrec.
      rewrite andb_comm in Hd. destruct (rr_cancellation_requested r0);
        destruct Hrec as (_ & _ & _ & _ & Hnone & _); by rewrite Hnone in Hd.
    + rewrite Hout2 in Hr by done.
      destruct (decide (rr_id r ∈ map rr_id (due_retries d locks now n))) as [Hk'|Hk'].
      * apply list_elem_of_fmap in Hk' as (r0 & Heq & Hr0). destruct (Hin1 r0 Hr0) as (r' & Hr' & Hrec).
        rewrite <- Heq, Hr in Hr'. injection Hr' as <-. destruct Hrec as (_ & _ & _ & _ & Hnone & _).
        by rewrite Hnone, andb_comm in Hd.
      * rewrite Hout1 in Hr by done. apply Hk', list_elem_of_fmap. exists r. split; [done|].
        apply Hdue, visible_retry_row; done.
Qed.

(** C4: recovery succeeds and is complete.  On a consistent database whose
    clock is not behind its runs, [recover_expired] commits for every admissible
    limit; when the limit covers the unlocked expired leases and due retries,
    each due retry is queued again with one more attempt, each expired lease's
    run is queued with one more attempt (or CANCELLED when a cancellation was
    pending), and no unlocked expired lease and no due retry remains. *)
Theorem recover_expired_completes locks d now n :
  queue_inv d → db_ok d → rows_loadable d now → 1 ≤ n ≤ MAX_RECOVERY_RUNS →
  ∃ rs ws d', recover_expired locks d (utc now) n = Ok (rs, ws, d') ∧ queue_inv d' ∧
    (length (visible_retries locks d now) + length (visible_expired locks d now) ≤ n →
     recovery_complete locks d d' now).
Proof.
  intros Hinv Hok Hload Hn. pose proof (inv_struct _ Hinv) as Hst.
  assert (∀ r, r ∈ due_retries d locks now n →
    runs d !! rr_id r = Some r ∧ rr_status r = RETRY_PENDING) as Hrows
    by (intros r; by apply due_retries_rows).
  pose proof (due_retries_nodup d locks now n Hst) as Hnd1.
  destruct (requeue_retries_total now (due_retries d locks now n) d) as
    (rs1 & d1 & H1 & Hlen & Hok1 & Hload1 & Els & Hin1 & Hout1); [done..|].
  pose proof (requeue_retries_inv _ _ _ _ _ Hinv Hnd1 Hrows H1) as Hinv1.
  pose proof (inv_struct _ Hinv1) as Hst1.
  pose proof (expired_leases_nodup d1 locks now (n - length rs1) Hst1) as Hnd.
  assert (∀ l, l ∈ expired_leases d1 locks now (n - length rs1) →
    run_leases d1 !! rl_run_id l = Some l) as Hls.
  { intros l Hl. by apply (expired_leases_rows _ _ _ _ _ Hst1) in Hl as [? _]. }
  destruct (recover_leases_total now _ d1 Hinv1 Hok1 Hload1 Hnd Hls)
    as (rs2 & d2 & H2 & Hok2 & Hin2 & Hout2).
  destruct (recover_leases_inv now _ d1 rs2 d2 Hinv1 Hnd Hls H2) as [Hinv2 Hlk].
  destruct (recover_expired_run _ _ _ _ _ _ _ _ Hn H1 H2 Hok2) as (rs & ws & Hrun).
  exists rs, ws, d2. split_and!; [done..|]. intros Hcap.
  exact (recovery_pass_complete _ _ _ _ _ _ _ _ Hinv Hinv1 Hinv2 Els Hlen Hin1 Hout1 H2 Hlk
    Hin2 Hout2 Hcap).
Qed.
