(* ===== verification/ControlProperties.v ===== *)
(** * Properties of the control plane

    Exactly-once run creation under admission control, rewinding to a
    checkpoint, approval decisions, and cancellation. *)

From stdpp Require Import base list sets gmap strings sorting.
From Stdlib Require Import ZArith Lia.
From S2P Require Import Prelude PyBase Domain Tables Contracts RunQueue WorkspaceLeases RunRepository Approvals QueueInvariant QueueOperations ControlOperations.

(** ** Creation *)

Lemma run_values_domain t run key hash :
  run_wf run → _run_domain (_run_values t run key hash) = Ok run.
Proof. intros Hwf. rewrite <- (wf_validate run Hwf). unfold _run_domain. by destruct run. Qed.

(** A stored row is the creation record of its key. *)
Lemma creation_record_lookup d r :
  db_ok d → runs d !! rr_id r = Some r →
  _creation_record d (rr_tenant_id r) (rr_session_id r) (rr_idempotency_key r) = Some r.
Proof.
  intros Hok Hr. apply (scalar_where_unique _ _ (rr_id r)); [done| |].
  - by rewrite !bool_decide_true by done.
  - intros k' r' Hk' Hb. bool_hyps.
    assert (k' = rr_id r) as -> by (by apply (ok_run_keys _ Hok _ _ Hk' _ _ Hr)). congruence.
Qed.

(** A request for a key that is already stored never writes. *)
Lemma create_known cfg digest d t run key sub mid pid r0 existing :
  db_ok d → runs d !! rr_id existing = Some existing → rr_tenant_id existing = t →
  rr_session_id existing = run_session_id run → rr_idempotency_key existing = key →
  idempotency_key_ok key = true → _run_domain existing = Ok r0 →
  _create cfg digest d t run key
    (run_creation_hash digest (run_priority run) (run_priority_class run) sub) sub mid pid =
  if bool_decide (rr_creation_hash existing =
       run_creation_hash digest (run_priority run) (run_priority_class run) sub)
  then Ok (mkRunCreationResult r0 false, d)
  else Err (DomainOperationError "run_idempotency_conflict" false).
Proof.
  intros Hok Hr <- Hs <- Hkey Hdom. unfold _create. rewrite Hkey, bool_decide_true by done.
  cbn [ensure mbind result_bind]. rewrite <- Hs, (creation_record_lookup _ _ Hok Hr).
  unfold _existing_creation. destruct (bool_decide _); [|done]. simpl. rewrite Hdom. simpl.
  by rewrite (proj2 (db_okb_iff d) Hok).
Qed.

(** C7: run creation happens exactly once per idempotency key.  A creation that
    reports a new run stores exactly one new row for it, of the given payload;
    afterwards a request with the same key in the same session returns that run
    without changing anything when its payload digest is the same, and is
    refused with [run_idempotency_conflict] when it differs. *)
Theorem create_exactly_once cfg digest d t run key hash sub mid pid res d' :
  queue_inv d → run_wf run →
  _create cfg digest d t run key hash sub mid pid = Ok (res, d') → creation_created res = true →
  runs d' = <[run_id run := _run_values t run key hash]> (runs d) ∧ runs d !! run_id run = None ∧
  ∀ run2 sub2 mid2 pid2 hash2, run_session_id run2 = run_session_id run →
    hash2 = run_creation_hash digest (run_priority run2) (run_priority_class run2) sub2 →
    _create cfg digest d' t run2 key hash2 sub2 mid2 pid2 =
    if bool_decide (hash = hash2) then Ok (mkRunCreationResult run false, d')
    else Err (DomainOperationError "run_idempotency_conflict" false).
Proof.
  intros Hinv Hwf H Hc. pose proof H as H0. unfold _create in H0. run_inv H0. clear H0.
  apply create_effect in H as (Hok & Hh & H); [|apply Hinv].
  destruct (_creation_record d t (run_session_id run) key); [by destruct H as (_ & ? & _); congruence|].
  destruct H as (-> & Hn & (d2 & (Er & _) & (Er' & _)) & _).
  assert (runs d' = <[run_id run := _run_values t run key hash]> (runs d)) as Hruns
    by (rewrite Er'; simpl; by rewrite Er).
  split_and!; [done..|]. intros run2 sub2 mid2 pid2 hash2 Hs ->.
  apply (create_known _ _ _ _ _ _ _ _ _ run (_run_values t run key hash)); try done.
  - by rewrite Hruns, lookup_insert_eq.
  - by apply run_values_domain.
Qed.

Lemma tenant_queued_insert d d' t r :
  runs d' = <[rr_id r := r]> (runs d) → runs d !! rr_id r = None → rr_tenant_id r = t →
  rr_status r = QUEUED →
  tenant_queued_runs d' t = (tenant_queued_runs d t + 1)%Z ∧
  global_queued_runs d' = (global_queued_runs d + 1)%Z.
Proof.
  intros Hr Hn Ht Hs. unfold tenant_queued_runs, global_queued_runs. rewrite Hr.
  rewrite !count_where_insert_new by done. rewrite Hs, Ht, bool_decide_true by done. simpl.
  change (is_waiting_status QUEUED) with true. lia.
Qed.

(** Admission control holds the queue to its limits: after a run was
    created, its tenant has at most its quota of waiting runs and the platform at
    most the configured global number. *)
Theorem create_respects_limits cfg digest d t run key hash sub mid pid res d' :
  queue_inv d → run_status run = QUEUED →
  _create cfg digest d t run key hash sub mid pid = Ok (res, d') → creation_created res = true →
  (tenant_queued_runs d' t ≤ match tenant_quotas d !! t with
                             | Some q => tq_max_queued_runs q
                             | None => quota_max_queued_runs (default_quota cfg)
                             end)%Z ∧
  (global_queued_runs d' ≤ policy_global_queue_limit (admission_policy cfg))%Z.
Proof.
  intros Hinv Hq H Hc. apply create_effect in H as (_ & _ & H); [|apply Hinv].
  destruct (_creation_record d t (run_session_id run) key); [by destruct H as (_ & ? & _); congruence|].
  destruct H as (-> & Hn & (d2 & (Er & _) & (Er' & _)) & Ht & Hg).
  destruct (tenant_queued_insert d d' t (_run_values t run key hash)) as [-> ->]; try done.
  - rewrite Er'. simpl. by rewrite Er.
  - lia.
Qed.

(** ** Rewind *)

(** The messages a rewind keeps: those without a transcript position and those
    at a position up to the checkpoint's. *)
Definition keeps_message (limit : Z) (m : MessageRecord) : bool :=
  match json_get (msg_metadata m) (py "transcript_index") with
  | None | Some JNull => true
  | Some (JInt z) => (z <=? limit)%Z
  | Some _ => false
  end.

Lemma retain_messages_filter limit seen rows kept :
  retain_messages limit seen rows = Ok kept →
  kept = filter (λ m, keeps_message limit m = true) rows.
Proof.
  revert seen kept. induction rows as [|m rows IH]; intros seen kept H; simpl in H.
  { by injection H as <-. }
  run_inv H. rewrite filter_cons.
  pose proof (eq_refl (keeps_message limit m)) as Hk. unfold keeps_message in Hk at 2.
  destruct (json_get (msg_metadata m) (py "transcript_index")) as [[| |z| | | |]|]; run_inv H.
  - rewrite decide_True by done. f_equal. by eapply IH.
  - destruct (z <=? limit)%Z.
    + run_inv H. rewrite decide_True by done. f_equal. by eapply IH.
    + rewrite decide_False by congruence. by eapply IH.
  - rewrite decide_True by done. f_equal. by eapply IH.
Qed.

Section Rewind.
Context (message_uuid : uuid → Z → uuid → uuid) (plan_uuid : uuid → Z → uuid).

(** The copy of a message on the new branch. *)
Definition branch_copy (now : timestamp) (t : uuid) (row : RunRecord) (epoch seq : Z)
    (m : MessageRecord) : MessageRecord :=
  mkMessageRecord (message_uuid (rr_id row) epoch (msg_id m)) t (rr_session_id row) (rr_id row)
    epoch seq (msg_role m) (msg_content m) (msg_metadata m) now.

Lemma insert_message_lookup d m d1 :
  insert_message d m = Ok d1 →
  messages d !! msg_id m = None ∧ messages d1 = <[msg_id m := m]> (messages d).
Proof. unfold insert_message. intros H. run_inv H. by apply is_none_eq in Hrun. Qed.

(** Copying adds one row per retained message, numbered consecutively, and
    keeps every old row. *)
Lemma copy_messages_spec now row t e n ms d d1 :
  copy_messages message_uuid now row t e n ms d = Ok d1 →
  (∀ k m, messages d !! k = Some m → messages d1 !! k = Some m) ∧
  (∀ i m, ms !! i = Some m →
     messages d1 !! message_uuid (rr_id row) e (msg_id m) =
     Some (branch_copy now t row e (n + Z.of_nat i) m)) ∧
  (∀ k m, messages d1 !! k = Some m → messages d !! k = Some m ∨
     ∃ i m0, ms !! i = Some m0 ∧ m = branch_copy now t row e (n + Z.of_nat i) m0).
Proof.
  revert n d. induction ms as [|m0 ms IH]; intros n d H; simpl in H.
  { injection H as <-. split_and!; eauto. intros i m Hm. by rewrite lookup_nil in Hm. }
  run_inv H. apply insert_message_lookup in Hrun as [Hnone Hins]. simpl in Hnone, Hins.
  destruct (IH _ _ H) as (Hkeep & Hnew & Hback). split_and!.
  - intros k m Hk. apply Hkeep. rewrite Hins, lookup_insert_ne; [done|]. congruence.
  - intros [|i] m Hm; simpl in Hm.
    + injection Hm as <-. rewrite Z.add_0_r. apply Hkeep. by rewrite Hins, lookup_insert_eq.
    + rewrite (Hnew _ _ Hm). do 2 f_equal. lia.
  - intros k m Hk. destruct (Hback _ _ Hk) as [Hold|(i & m1 & Hi & ->)].
    + rewrite Hins, lookup_insert in Hold. case_decide; [|by left]. injection Hold as <-.
      right. exists 0, m0. split; [done|]. unfold branch_copy. f_equal. lia.
    + right. exists (S i), m1. split; [done|]. unfold branch_copy. f_equal. lia.
Qed.

(** The jobs and compactions that a rewind supersedes are closed. *)
Definition branch_closed (d' : Db) (row : RunRecord) : Prop :=
  (∀ k c, compactions d' !! k = Some c → cc_tenant_id c = rr_tenant_id row →
     cc_session_id c = rr_session_id row → cc_status c ≠ COMPACTION_PENDING) ∧
  (∀ j, memory_jobs d' !! (rr_tenant_id row, rr_id row, rr_execution_epoch row) = Some j →
     mj_status j ∉ [JOB_PENDING; JOB_RUNNING]).

Lemma supersede_closes now row d3 :
  branch_closed (set_memory_jobs
    (set_compactions d3 (supersede_compaction now (rr_tenant_id row) (rr_session_id row) <$>
       compactions d3))
    (map_imap (λ key j, Some (supersede_memory_job now (rr_tenant_id row) (rr_id row)
       (rr_execution_epoch row) key j)) (memory_jobs d3))) row.
Proof.
  split; simpl.
  - intros k c. rewrite lookup_fmap. destruct (compactions d3 !! k) as [c0|]; [|done].
    intros [= <-]. unfold supersede_compaction. destruct (_ && _) eqn:E; [done|].
    intros Ht Hs Hp. by rewrite Ht, Hs, Hp, !bool_decide_true in E by done.
  - intros j. rewrite map_lookup_imap. destruct (memory_jobs d3 !! _) as [j0|]; [|done].
    intros [= <-]. unfold supersede_memory_job. rewrite (bool_decide_true (_ = _)) by done. simpl.
    destruct (bool_decide (mj_status j0 ∈ _)) eqn:E; bool_hyps; [simpl|done]. set_solver.
Qed.

(** Rewinding starts a new branch at the checkpoint and rewrites no
    history.  The run, which was suspended or finished, is queued one execution
    epoch and one attempt later at the checkpoint; every earlier message stays;
    the new branch holds exactly one copy of each message of the checkpoint's
    branch that the checkpoint covers, in order, numbered consecutively after
    the last message of the session; open memory jobs of the old branch and
    open compactions of the session are closed. *)
Theorem rewind_starts_branch now d t k cid run d' :
  queue_inv d → rewind message_uuid plan_uuid now d t k cid = Ok (Some run, d') →
  ∃ row row' cp, runs d !! k = Some row ∧ run_checkpoint d t k cid = Some cp ∧
    is_rewindable_run_status (rr_status row) = true ∧
    runs d' = <[k := row']> (runs d) ∧ rr_status row' = QUEUED ∧
    rr_execution_epoch row' = (rr_execution_epoch row + 1)%Z ∧
    rr_attempt row' = (rr_attempt row + 1)%Z ∧ rr_last_checkpoint_id row' = Some cid ∧
    (∀ j m, messages d !! j = Some m → messages d' !! j = Some m) ∧
    (let kept := filter (λ m, keeps_message (cp_message_sequence cp) m = true)
                   (branch_messages d t row cp) in
     let copy i m := branch_copy now t row (rr_execution_epoch row + 1)
                       (max_sequence d t (rr_session_id row) + 1 + Z.of_nat i) m in
     (∀ i m, kept !! i = Some m →
        messages d' !! message_uuid k (rr_execution_epoch row + 1) (msg_id m) =
        Some (copy i m)) ∧
     (∀ j m, messages d' !! j = Some m → messages d !! j = Some m ∨
        ∃ i m0, kept !! i = Some m0 ∧ m = copy i m0)) ∧
    branch_closed d' row.
Proof.
  intros Hinv H. pose proof H as Heff.
  apply rewind_effect in Heff as (row & row' & Hr & Ht & Hrw & _ & Hid & _ & Hs & He & Ha & Hc & _ &
    d4 & (Er & _) & Hd'); [|apply Hinv].
  exists row, row'. unfold rewind in H. apply commit_Ok in H as [H _].
  unfold tenant_run in H. rewrite Hr, (bool_decide_true (_ = t)) in H by done.
  destruct (run_checkpoint d t k cid) as [cp|] eqn:Ecp; [|run_inv H]. exists cp.
  assert (runs d' = <[k := row']> (runs d)) as Hruns by (rewrite Hd'; simpl; by rewrite Hid, Er).
  clear Hd'. run_inv H.
  apply run_domain_inv in Hrun0 as (_ & _ & _ & Hep & _).
  apply rewind_run_status in Hrun1 as (_ & _ & _ & Hep' & _). rewrite Hep' in Hrun2.
  unfold _seed_rewind_branch in Hrun2. run_inv Hrun2.
  match goal with H : retain_messages _ _ _ = Ok _ |- _ => apply retain_messages_filter in H as -> end.
  match goal with H : copy_messages _ _ _ _ _ _ _ _ = Ok _ |- _ =>
    destruct (copy_messages_spec _ _ _ _ _ _ _ _ H) as (Hkeep & Hnew & Hback) end.
  pose proof (st_runs _ (inv_struct _ Hinv) _ _ Hr) as Hkid.
  unfold insert_plan in Hrun2. run_inv Hrun2. rewrite Hep, Hkid in *.
  split_and!; try done. rewrite <- Hkid. apply (supersede_closes now row v5).
Qed.
End Rewind.

(** ** Approvals *)

Lemma current_approval_Some d t k aid a :
  current_approval d t k aid = Some a →
  approvals d !! aid = Some a ∧ ap_tenant_id a = t ∧ ap_run_id a = k ∧
  ∃ r, runs d !! k = Some r ∧ rr_tenant_id r = t ∧ ap_execution_epoch a = rr_execution_epoch r.
Proof.
  unfold current_approval. destruct (approvals d !! aid) as [x|]; [|done].
  destruct (runs d !! k) as [r|]; [|done]. destruct (_ && _) eqn:E; [|done]. intros [= <-].
  bool_hyps. split_and!; try done. exists r. split_and!; congruence.
Qed.

(** Deciding a pending approval leaves one fewer. *)
Lemma decided_pending d t k aid a s dec :
  approvals d !! aid = Some a → ap_id a = aid → ap_tenant_id a = t → ap_run_id a = k →
  ap_status a = PENDING → s ≠ PENDING →
  pending_approvals (put_approval d (set_decision a s dec)) t k (ap_execution_epoch a) + 1 =
  pending_approvals d t k (ap_execution_epoch a).
Proof.
  intros Ha Hid Ht Hk Hp Hs. unfold pending_approvals. simpl. rewrite Hid.
  pose proof (count_where_update (λ x, bool_decide (ap_tenant_id x = t) &&
    bool_decide (ap_run_id x = k) && (ap_execution_epoch x =? ap_execution_epoch a)%Z &&
    bool_decide (ap_status x = PENDING)) (approvals d) aid a (set_decision a s dec) Ha) as Hc.
  simpl in Hc. rewrite Ht, Hk, Hp, Z.eqb_refl, !(bool_decide_true (_ = _)) in Hc by done.
  rewrite (bool_decide_false (s = PENDING)) in Hc by done. simpl in Hc. lia.
Qed.

(** The same decision on a database that already records it. *)
Lemma decided_again d a row s dec res :
  db_ok d → s = (if dec_approved dec then APPROVED else REJECTED) → s ≠ PENDING →
  ap_execution_epoch a = rr_execution_epoch row →
  ∀ dd, db_ok dd → approvals dd = approvals (put_approval d (set_decision a s dec)) →
    tool_calls dd = tool_calls d →
    (dec_approved dec && requires_response d a && is_none (dec_response dec)) = false →
    _approval_domain (set_decision a s dec) = Ok res →
    (∃ row', runs dd !! ap_run_id a = Some row' ∧ rr_tenant_id row' = ap_tenant_id a ∧
       rr_execution_epoch row' = rr_execution_epoch row) →
    ApprovalRepository.decide dd (ap_tenant_id a) (ap_run_id a) (ap_id a) dec =
    Ok (Some res, false, dd).
Proof.
  intros Hok Es Hs Hre dd Hdd Eap Etc Hresp Hdom (row' & Hrow' & Ht' & He').
  assert (current_approval dd (ap_tenant_id a) (ap_run_id a) (ap_id a) =
    Some (set_decision a s dec)) as Hc'.
  { unfold current_approval. rewrite Eap, Hrow'. simpl. rewrite lookup_insert_eq. simpl.
    rewrite Ht', He', <- Hre, Z.eqb_refl, !bool_decide_true by done. done. }
  unfold ApprovalRepository.decide. rewrite <- Es, Hc'.
  assert (requires_response dd (set_decision a s dec) = requires_response d a) as ->.
  { unfold requires_response. simpl. by rewrite Etc. }
  rewrite Hresp. cbn [negb ensure]. simpl.
  rewrite (bool_decide_false (s = PENDING)) by done. simpl.
  unfold same_decision. simpl. rewrite !bool_decide_true by done. simpl. rewrite Hdom. simpl.
  by rewrite (proj2 (db_okb_iff dd) Hdd).
Qed.

(** C17: deciding a pending approval records the decision, and resumes the run
    exactly when it waits for approval and this was the last pending one of its
    epoch; repeating the same decision afterwards changes nothing and returns the
    recorded approval. *)
Theorem decide_resumes_with_last d t k aid a row dec res woken d' :
  queue_inv d → db_ok d → current_approval d t k aid = Some a → ap_status a = PENDING →
  runs d !! k = Some row →
  ApprovalRepository.decide d t k aid dec = Ok (res, woken, d') →
  (woken = true ↔ rr_status row = WAITING_APPROVAL ∧
     pending_approvals d t k (ap_execution_epoch a) = 1) ∧
  (∃ row', runs d' !! k = Some row' ∧
     rr_status row' = if woken then QUEUED else rr_status row) ∧
  approvals d' !! aid =
    Some (set_decision a (if dec_approved dec then APPROVED else REJECTED) dec) ∧
  ApprovalRepository.decide d' t k aid dec = Ok (res, false, d').
Proof.
  intros Hinv Hok Hcur Hp Hrow H. unfold ApprovalRepository.decide in H. cbv zeta in H.
  set (s := if dec_approved dec then APPROVED else REJECTED) in *.
  assert (s ≠ PENDING) as Hs by (unfold s; by destruct (dec_approved dec)).
  run_inv H. apply commit_Ok in Hrun as [H Hok']. rewrite Hcur in H. run_inv H.
  destruct (current_approval_Some _ _ _ _ _ Hcur) as (Ha & Hat & Hak & r & Hr & Hrt & Hre).
  pose proof (proj1 (ok_approvals _ (ok_children _ Hok) _ _ Ha)) as Hid.
  rewrite Hrow in Hr. injection Hr as <-. subst t k aid.
  rewrite Hp, bool_decide_true in H by done. cbn [negb] in H. run_inv H.
  unfold tenant_run in Hrun0. simpl in Hrun0. rewrite Hrow, bool_decide_true in Hrun0 by done.
  injection Hrun0 as <-.
  pose proof (decided_pending d _ _ _ a s dec Ha eq_refl eq_refl eq_refl Hp Hs) as Hcount.
  pose proof (decided_again d a row s dec v1 Hok eq_refl Hs Hre) as Hrepeat.
  destruct (bool_decide (rr_status row = WAITING_APPROVAL) && _) eqn:Hw; run_inv Hrun1.
  - bool_hyps. match goal with H : (_ =? 0)%nat = true |- _ => apply Nat.eqb_eq in H end.
    match goal with H : transition_run _ _ _ _ _ = Ok _ |- _ =>
      apply transition_run_data in H as (x & lw & le & _ & _ & _ & _ & Hv) end.
    apply validate_run_Ok in Hv as [-> Hwf].
    match goal with H : _run_domain row = Ok _ |- _ =>
      apply run_domain_inv in H as (_ & _ & _ & Hre' & _) end.
    pose proof (st_runs _ (inv_struct _ Hinv) _ _ Hrow) as Hkid.
    split_and!; [split; [|done]; intros _; split; [done|lia]| | |].
    + eexists. simpl. rewrite Hkid, lookup_insert_eq. done.
    + simpl. by rewrite lookup_insert_eq.
    + apply Hrepeat; try done. eexists. simpl. rewrite Hkid, lookup_insert_eq. by split_and!.
  - split_and!.
    + split; [done|]. intros [Hw1 Hw2]. rewrite Hw1, bool_decide_true in Hw by done.
      apply Nat.eqb_neq in Hw. lia.
    + simpl. eauto.
    + simpl. by rewrite lookup_insert_eq.
    + apply Hrepeat; try done; [by bool_hyps|eauto].
Qed.

(** Without a pending approval of the current epoch no decision resumes. *)
Lemma no_pending_no_resume d t k row aid dec res woken d' :
  db_struct d → runs d !! k = Some row →
  pending_approvals d t k (rr_execution_epoch row) = 0 →
  ApprovalRepository.decide d t k aid dec = Ok (res, woken, d') →
  woken = false ∧ runs d' = runs d.
Proof.
  intros Hst Hr Hp H. apply decide_effect in H; [|done]. destruct woken.
  - destruct H as (a & row0 & run & Hcur & Hpa & _).
    destruct (current_approval_Some _ _ _ _ _ Hcur) as (Ha & Hat & Hak & r & Hr' & _ & He).
    rewrite Hr in Hr'. injection Hr' as <-. exfalso.
    pose proof (proj1 (count_where_zero _ _) Hp aid a Ha) as Hb. cbv beta in Hb.
    by rewrite Hat, Hak, He, Hpa, Z.eqb_refl, !bool_decide_true in Hb by done.
  - by destruct H as (? & _).
Qed.

(** ** Cancellation *)

(** C38: a cancellation request for a run that waits for its retry always fails.
    The transition to CANCELLED keeps the retry time of the row, which the table
    allows in RETRY_PENDING only, so the transaction is rejected with an
    integrity error and the run stays scheduled. *)
Theorem cancel_retry_pending_rejected d t k row now :
  db_ok d → runs d !! k = Some row → rr_tenant_id row = t → rr_status row = RETRY_PENDING →
  is_ok (_run_domain row) = true → (default (rr_created_at row) (rr_started_at row) ≤ now)%Z →
  request_cancel d t k (utc now) = Err integrity_error.
Proof.
  intros Hok Hr Ht Hs Hdom Hle. unfold request_cancel, tenant_run.
  rewrite Hr, bool_decide_true by done. destruct (_run_domain row) as [run|] eqn:E; [|done].
  pose proof E as E'. apply run_domain_inv in E' as (Hwf & Hst & _ & _ & _ & _ & _ & Hc & Hsa & _).
  cbn [mbind result_bind]. rewrite Hst, Hs.
  change (bool_decide (RETRY_PENDING ∈ [COMPLETED; FAILED; CANCELLED])) with false.
  change (bool_decide (RETRY_PENDING ∈ [QUEUED; WAITING_APPROVAL; RETRY_PENDING; LOST])) with true.
  cbv iota.
  rewrite (transition_run_of_data run CANCELLED (utc now) now None None None None); [|done|..].
  - cbn [mbind result_bind]. unfold commit.
    destruct (db_okb _) eqn:Hb; [|done]. apply db_okb_iff in Hb. exfalso.
    destruct (ok_runs _ Hb (rr_id row) _ (lookup_insert_eq _ _ _)) as (_ & Hchk & _).
    destruct (ok_runs _ Hok _ _ Hr) as (_ & Hold & _).
    unfold run_record_checks in Hchk, Hold. rewrite !andb_true_iff in Hchk, Hold.
    destruct Hchk as [_ Hx], Hold as [_ Hy]. simpl in Hx. rewrite Hs in Hy.
    destruct (rr_retry_ready_at row); [by vm_compute in Hx|by vm_compute in Hy].
  - apply normalize_utc.
  - unfold lifecycle_start. by rewrite Hc, Hsa.
  - rewrite Hst, Hs. set_solver.
  - done.
Qed.
