(* ===== verification/GatewayProperties.v ===== *)
(** * Properties of the gateway policies

    The capacity store never exceeds its limits and accounts for every reserved
    token, the request store executes each logical request at most once, the rate
    limiter keeps every sliding window within its limit, and the circuit breaker
    opens, probes and closes as a half-open breaker does. *)

From stdpp Require Import base list sets gmap strings.
From Stdlib Require Import ZArith Lia.
From S2P Require Import Prelude PyBase Domain Contracts RunRepository GatewayPolicies.

(** ** Capacity *)

Module Capacity.
Import CapacityStore.

Section Capacity.
Context (c : Config).

Definition of_tenant (t : uuid) (st : LeaseState) : bool :=
  bool_decide (cl_tenant_id (ls_lease st) = t).
Definition of_route (r : pystr) (st : LeaseState) : bool :=
  bool_decide (cl_route_name (ls_lease st) = r).
Definition in_window (r : pystr) (start : timestamp) (st : LeaseState) : bool :=
  bool_decide (cl_route_name (ls_lease st) = r) && (ls_window_started_at st =? start)%Z.
Definition reserved (st : LeaseState) : Z := cl_reserved_tokens (ls_lease st).

(** Tokens held by the live leases of one token window. *)
Definition reserved_in (s : State) (r : pystr) (start : timestamp) : Z :=
  sum_where reserved (in_window r start) (leases s).

Record capacity_inv (s : State) : Prop := {
  ci_ids : ∀ id st, leases s !! id = Some st → cl_id (ls_lease st) = id ∧ (1 ≤ reserved st)%Z ∧
    identifier_string (cl_route_name (ls_lease st)) = Ok (cl_route_name (ls_lease st));
  ci_requests : ∀ key id, requests s !! key = Some id →
    ∃ st, leases s !! id = Some st ∧ request_key st = key;
  ci_owned : ∀ id st, leases s !! id = Some st → requests s !! request_key st = Some id;
  ci_tenant : ∀ t, (Z.of_nat (count_where (of_tenant t) (leases s)) ≤ tenant_limit c)%Z;
  ci_route : ∀ r, (Z.of_nat (count_where (of_route r) (leases s)) ≤ provider_limit c)%Z;
  ci_window : ∀ id st, leases s !! id = Some st →
    ∃ w, tokens s !! cl_route_name (ls_lease st) = Some w ∧
      (ls_window_started_at st ≤ tw_started_at w)%Z;
  ci_tokens : ∀ r w, tokens s !! r = Some w → (reserved_in s r (tw_started_at w) ≤ tw_tokens w)%Z;
}.

Hypothesis Hconfig : config_ok c = true.

Lemma config_bounds :
  (1 ≤ tenant_limit c)%Z ∧ (1 ≤ provider_limit c)%Z ∧ (0 < window c)%Z.
Proof. clear -Hconfig. unfold config_ok in Hconfig. bool_hyps. lia. Qed.

Lemma initial_inv : capacity_inv initial.
Proof.
  pose proof config_bounds. constructor; simpl; try (intros ? ? H'; by rewrite lookup_empty in H').
  - intros t. rewrite (proj2 (count_where_zero _ _)); [lia|]. intros k v Hk.
    by rewrite lookup_empty in Hk.
  - intros t. rewrite (proj2 (count_where_zero _ _)); [lia|]. intros k v Hk.
    by rewrite lookup_empty in Hk.
Qed.

(** Deleting a list of keys. *)
Lemma delete_keys_lookup (l : list LeaseState) (m : gmap (uuid * pystr) uuid) key :
  foldr (λ st m, delete (request_key st) m) m l !! key =
  if bool_decide (key ∈ map request_key l) then None else m !! key.
Proof.
  induction l as [|st l IH]; [done|]. cbn [foldr map].
  rewrite lookup_delete. destruct (decide (request_key st = key)) as [Hk|Hk].
  - rewrite bool_decide_true; [done|]. rewrite Hk. by left.
  - rewrite IH. rewrite (bool_decide_ext (key ∈ map request_key l)
      (key ∈ request_key st :: map request_key l)); [done|].
    rewrite elem_of_cons. naive_solver.
Qed.

(** A state with fewer leases, and the requests of exactly the remaining ones. *)
Lemma shrink_inv s s' :
  capacity_inv s → tokens s' = tokens s →
  (∀ id st, leases s' !! id = Some st → leases s !! id = Some st) →
  (∀ key id, requests s' !! key = Some id ↔
     requests s !! key = Some id ∧ ∃ st, leases s' !! id = Some st ∧ request_key st = key) →
  capacity_inv s'.
Proof.
  intros [I1 I2 I3 I4 I5 I6 I7] Et Hsub Hreq. constructor.
  - intros id st Hst. by apply I1, Hsub.
  - intros key id Hk. by apply Hreq in Hk as [_ ?].
  - intros id st Hst. apply Hreq. split; [by apply I3, Hsub|eauto].
  - intros t. etrans; [|apply (I4 t)]. apply inj_le, count_where_mono. eauto.
  - intros r. etrans; [|apply (I5 r)]. apply inj_le, count_where_mono. eauto.
  - intros id st Hst. rewrite Et. by eapply I6, Hsub.
  - intros r w. rewrite Et. intros Hw. etrans; [|by apply (I7 r w)].
    apply sum_where_mono; [|by eauto]. intros k v Hk _. destruct (I1 k v Hk) as (_ & ? & _). lia.
Qed.

Lemma prune_leases now s id st :
  leases (_prune now s) !! id = Some st ↔ leases s !! id = Some st ∧ expired now st = false.
Proof. simpl. by rewrite map_lookup_filter_Some. Qed.

Lemma prune_inv now s : capacity_inv s → capacity_inv (_prune now s).
Proof.
  intros Hinv. apply (shrink_inv s); [done|done|by intros id st ?%prune_leases; naive_solver|].
  intros key id. simpl. rewrite delete_keys_lookup. split.
  - destruct (bool_decide _) eqn:Hb; [done|]. intros Hk. split; [done|].
    destruct (ci_requests _ Hinv _ _ Hk) as (st & Hst & Hkey). exists st. split; [|done].
    apply prune_leases. split; [done|]. destruct (expired now st) eqn:He; [|done].
    bool_hyps. exfalso. apply Hb. rewrite <- Hkey. apply list_elem_of_fmap.
    exists st. split; [done|]. apply elem_of_select. eauto.
  - intros [Hk (st & Hst & Hkey)]. rewrite bool_decide_false; [done|].
    intros (st' & Hkey' & Hin)%list_elem_of_fmap. apply elem_of_select in Hin as [He [id' Hid']].
    apply prune_leases in Hst as [Hst He0].
    pose proof (ci_owned _ Hinv _ _ Hid') as Ho. rewrite <- Hkey', Hk in Ho.
    injection Ho as <-. rewrite Hst in Hid'. injection Hid' as <-. congruence.
Qed.

(** The current token window of a route, rolled over when it is due. *)
Lemma token_window_inv r now s w s' :
  capacity_inv s → _token_window c r now s = (w, s') →
  capacity_inv s' ∧ tokens s' !! r = Some w ∧ leases s' = leases s ∧ requests s' = requests s ∧
  (tokens s !! r = Some w ∨
   tw_started_at w = now ∧ ∀ id st, leases s !! id = Some st → cl_route_name (ls_lease st) = r →
     (ls_window_started_at st < now)%Z).
Proof.
  intros Hinv H. pose proof config_bounds as (_ & _ & Hwin).
  assert (∀ s0, s0 = mkState (leases s) (requests s) (<[r := mkWindow now 0]> (tokens s)) →
    (∀ id st, leases s !! id = Some st → cl_route_name (ls_lease st) = r →
       (ls_window_started_at st < now)%Z) → capacity_inv s0) as Hroll.
  { intros s0 -> Hold. destruct Hinv as [I1 I2 I3 I4 I5 I6 I7]. constructor; simpl; try done.
    - intros id st Hst. rewrite lookup_insert. case_decide as Hr; [|by eapply I6].
      eexists. split; [done|]. simpl. pose proof (Hold _ _ Hst (eq_sym Hr)). lia.
    - intros r' w'. rewrite lookup_insert. case_decide as Hr; [intros [= <-]|by apply I7].
      simpl. subst r'. unfold reserved_in. rewrite sum_where_zero; [done|]. intros k v Hk.
      unfold in_window. simpl in Hk. destruct (bool_decide _) eqn:Hb; [|done]. bool_hyps.
      apply Z.eqb_neq. pose proof (Hold _ _ Hk Hb). lia. }
  unfold _token_window in H. destruct (tokens s !! r) as [w0|] eqn:Hw.
  - destruct (_ <=? _)%Z eqn:Hdue; injection H as <- <-.
    + bool_hyps. assert (∀ id st, leases s !! id = Some st → cl_route_name (ls_lease st) = r →
        (ls_window_started_at st < now)%Z) as Hold.
      { intros id st Hst Hr. destruct (ci_window _ Hinv _ _ Hst) as (w1 & Hw1 & Hle).
        rewrite Hr, Hw in Hw1. injection Hw1 as <-. lia. }
      split_and!; [by apply Hroll|apply lookup_insert_eq|done|done|by right].
    + split_and!; try done. by left.
  - injection H as <- <-. assert (∀ id st, leases s !! id = Some st →
      cl_route_name (ls_lease st) = r → (ls_window_started_at st < now)%Z) as Hold.
    { intros id st Hst Hr. destruct (ci_window _ Hinv _ _ Hst) as (w1 & Hw1 & _). congruence. }
    split_and!; [by apply Hroll|apply lookup_insert_eq|done|done|by right].
Qed.

(** Granting a fresh lease below every limit. *)
Lemma grant_inv s id st r w n :
  capacity_inv s → leases s !! id = None → cl_id (ls_lease st) = id →
  cl_route_name (ls_lease st) = r → identifier_string r = Ok r → reserved st = n → (1 ≤ n)%Z →
  requests s !! request_key st = None → tokens s !! r = Some w →
  ls_window_started_at st = tw_started_at w →
  (Z.of_nat (count_where (of_tenant (cl_tenant_id (ls_lease st))) (leases s)) < tenant_limit c)%Z →
  (Z.of_nat (count_where (of_route r) (leases s)) < provider_limit c)%Z →
  capacity_inv (mkState (<[id := st]> (leases s)) (<[request_key st := id]> (requests s))
    (<[r := mkWindow (tw_started_at w) (tw_tokens w + n)]> (tokens s))).
Proof.
  intros [I1 I2 I3 I4 I5 I6 I7] Hnone Hid Hr Hname Hn Hpos Hreq Hw Hst Hten Hrt. constructor; simpl.
  - intros id' st'. rewrite lookup_insert. case_decide; [intros [= <-]; subst; by split_and!|apply I1].
  - intros key id'. rewrite lookup_insert. case_decide; [intros [= <-]|].
    + exists st. by rewrite lookup_insert_eq.
    + intros Hk. destruct (I2 _ _ Hk) as (x & Hx & ?). exists x.
      rewrite lookup_insert_ne by congruence. done.
  - intros id' st'. rewrite lookup_insert. case_decide; [intros [= <-]|].
    + subst. apply lookup_insert_eq.
    + intros Hx. rewrite lookup_insert_ne; [by apply I3|]. intros Heq.
      apply I3 in Hx. congruence.
  - intros t. rewrite count_where_insert_new by done. specialize (I4 t).
    unfold of_tenant at 1. case_bool_decide as Ht; [subst t; simpl in *; lia|lia].
  - intros r'. rewrite count_where_insert_new by done. specialize (I5 r').
    unfold of_route at 1. case_bool_decide as Ht; [|lia]. rewrite <- Ht, Hr. lia.
  - intros id' st'. rewrite lookup_insert. case_decide; [intros [= <-]|].
    + rewrite Hr, lookup_insert_eq. eexists. split; [done|]. simpl. lia.
    + intros Hx. destruct (I6 _ _ Hx) as (x & Hx1 & Hx2). rewrite lookup_insert.
      case_decide as Hr'; [|by eauto]. eexists. split; [done|]. simpl.
      rewrite <- Hr', Hw in Hx1. injection Hx1 as <-. done.
  - intros r' w'. unfold reserved_in. simpl. rewrite sum_where_insert_new by done.
    rewrite lookup_insert. case_decide as Hr'; [intros [= <-]; simpl|].
    + subst r'. specialize (I7 _ _ Hw). unfold reserved_in in I7. unfold in_window at 1.
      rewrite bool_decide_true by done. rewrite Hst, Z.eqb_refl. simpl. rewrite Hn. lia.
    + intros Hw'. unfold in_window at 1. rewrite bool_decide_false by congruence. simpl.
      by apply I7.
Qed.

Lemma validate_lease_Ok l l' :
  validate_lease l = Ok l' →
  identifier_string (cl_route_name l) = Ok (cl_route_name l') ∧ cl_id l' = cl_id l ∧
  cl_tenant_id l' = cl_tenant_id l ∧ cl_request_id l' = cl_request_id l ∧
  cl_reserved_tokens l' = cl_reserved_tokens l ∧ (1 ≤ cl_reserved_tokens l)%Z ∧
  cl_acquired_at l' = cl_acquired_at l ∧ cl_expires_at l' = cl_expires_at l.
Proof. unfold validate_lease. intros H. run_inv H. bool_hyps. by split_and!. Qed.

Lemma capacity_acquire_inv clock id s t r req n dur res s' :
  capacity_inv s → identifier_string r = Ok r → leases s !! id = None →
  acquire c clock id s t r req n dur = (res, s') → capacity_inv s'.
Proof.
  intros Hinv Hr Hid H. unfold acquire in H.
  destruct (_bounded_integer _ _ ≫= _) as [now|]; [|by injection H as <- <-].
  pose proof (prune_inv now _ Hinv) as Hp. set (s1 := _prune now s) in *.
  assert (leases s1 !! id = None) as Hid1.
  { destruct (leases s1 !! id) as [x|] eqn:E; [|done]. apply prune_leases in E as [E _]. congruence. }
  destruct (requests s1 !! (t, req)) as [eid|] eqn:Ereq.
  { destruct (leases s1 !! eid); [|by injection H as <- <-].
    destruct (_ || _); by injection H as <- <-. }
  destruct (_ <=? _)%Z eqn:Ht; [by injection H as <- <-|].
  destruct (_ <=? _)%Z eqn:Hrt in H; [by injection H as <- <-|].
  destruct (_token_window c r now s1) as [w s2] eqn:Ew.
  destruct (token_window_inv _ _ _ _ _ Hp Ew) as (Hp2 & Hw & El & Er & _).
  destruct (_ <? _)%Z; [by injection H as <- <-|].
  destruct (validate_lease _) as [lease|] eqn:Ev; [|by injection H as <- <-].
  injection H as <- <-. apply validate_lease_Ok in Ev as (Hrr & E1 & E2 & E3 & E4 & E5 & _).
  simpl in *. rewrite Hr in Hrr. injection Hrr as Hrr. bool_hyps.
  replace (t, req) with (request_key (mkLeaseState lease (tw_started_at w)))
    by (unfold request_key; simpl; by rewrite E2, E3).
  apply grant_inv; simpl; try done.
  - by rewrite El.
  - unfold request_key. simpl. by rewrite E2, E3, Er.
  - rewrite El, E2. exact Ht.
  - rewrite El. exact Hrt.
Qed.

(** Dropping one lease together with its request entry. *)
Lemma drop_lease_inv s id st :
  capacity_inv s → leases s !! id = Some st →
  capacity_inv (mkState (delete id (leases s)) (delete (request_key st) (requests s)) (tokens s)).
Proof.
  intros Hinv Hst. apply (shrink_inv s); [done|done|simpl; by intros ? ? [_ ?]%lookup_delete_Some|].
  simpl. intros key id'. rewrite lookup_delete_Some. split.
  - intros [Hne Hk]. split; [done|]. destruct (ci_requests _ Hinv _ _ Hk) as (x & Hx & Hkey).
    exists x. split; [|done]. apply lookup_delete_Some. split; [|done].
    intros <-. rewrite Hst in Hx. injection Hx as <-. done.
  - intros [Hk (x & [Hne Hx]%lookup_delete_Some & Hkey)]. split; [|done]. intros Heq.
    pose proof (ci_owned _ Hinv _ _ Hst) as Ho. rewrite Heq in Ho. congruence.
Qed.

(** Changing the counter of a window to one that still covers its leases. *)
Lemma set_window_inv s r w n :
  capacity_inv s → tokens s !! r = Some w → (reserved_in s r (tw_started_at w) ≤ n)%Z →
  capacity_inv (mkState (leases s) (requests s)
    (<[r := mkWindow (tw_started_at w) n]> (tokens s))).
Proof.
  intros [I1 I2 I3 I4 I5 I6 I7] Hw Hn. constructor; simpl; try done.
  - intros id st Hst. destruct (I6 _ _ Hst) as (x & Hx & Hle). rewrite lookup_insert.
    case_decide as Hr; [|by eauto]. eexists. split; [done|]. simpl.
    rewrite <- Hr, Hw in Hx. by injection Hx as <-.
  - intros r' w'. rewrite lookup_insert. case_decide; [intros [= <-]; by subst|apply I7].
Qed.

Lemma capacity_release_inv clock s lease n res s' :
  capacity_inv s → release c clock s lease n = (res, s') → capacity_inv s'.
Proof.
  intros Hinv H. unfold release in H.
  destruct (ensure _ _ ≫= _) as [now|] eqn:Eg; [|by injection H as <- <-].
  run_inv Eg. bool_hyps.
  destruct (leases s !! cl_id lease) as [st|] eqn:Hst; [|by injection H as <- <-].
  destruct (bool_decide (ls_lease st = lease)) eqn:Hl; [|by injection H as <- <-]. bool_hyps.
  pose proof (drop_lease_inv _ _ _ Hinv Hst) as Hd. unfold request_key in Hd. rewrite Hl in Hd.
  set (s1 := mkState _ _ _) in *. destruct (_token_window c _ now s1) as [w s2] eqn:Ew.
  destruct (token_window_inv _ _ _ _ _ Hd Ew) as (H2 & Hw & El & Er & _).
  destruct (bool_decide (tw_started_at w = _)) eqn:Hsame; injection H as <- <-; [|done].
  bool_hyps. apply set_window_inv; [done|done|].
  assert (tokens s !! cl_route_name lease = Some w) as Hws.
  { destruct (ci_window _ Hinv _ _ Hst) as (w0 & Hw0 & Hle). rewrite Hl in Hw0.
    unfold _token_window in Ew. simpl in Ew. rewrite Hw0 in Ew.
    pose proof config_bounds as (_ & _ & Hwin).
    destruct (_ <=? _)%Z eqn:Hd0; injection Ew as <- <-; [|done]. simpl in *. bool_hyps. lia. }
  pose proof (ci_tokens _ Hinv _ _ Hws) as Ht. unfold reserved_in in *. rewrite El. simpl.
  rewrite (sum_where_delete _ _ _ _ _ Hst) in Ht. unfold in_window in Ht at 1.
  rewrite Hl, bool_decide_true, Hsame, Z.eqb_refl in Ht by done. simpl in Ht.
  unfold reserved in Ht at 1. rewrite Hl in Ht. rewrite Hsame. lia.
Qed.

(** Replacing a lease by a copy with another expiry. *)
Lemma replace_inv s id st st' :
  capacity_inv s → leases s !! id = Some st → cl_id (ls_lease st') = id →
  request_key st' = request_key st → cl_tenant_id (ls_lease st') = cl_tenant_id (ls_lease st) →
  cl_route_name (ls_lease st') = cl_route_name (ls_lease st) → reserved st' = reserved st →
  ls_window_started_at st' = ls_window_started_at st →
  capacity_inv (mkState (<[id := st']> (leases s)) (requests s) (tokens s)).
Proof.
  intros [I1 I2 I3 I4 I5 I6 I7] Hst Hid Hkey Hten Hroute Hres Hwin. constructor; simpl.
  - intros k x. rewrite lookup_insert. case_decide; [intros [= <-]|apply I1]. subst.
    rewrite Hres, Hroute. destruct (I1 _ _ Hst) as (_ & ? & ?). by split_and!.
  - intros key k Hk. destruct (I2 _ _ Hk) as (x & Hx & Hkx). rewrite lookup_insert.
    case_decide; [|by eauto]. subst. rewrite Hst in Hx. injection Hx as <-. eauto.
  - intros k x. rewrite lookup_insert. case_decide; [intros [= <-]|apply I3]. subst.
    rewrite Hkey. by apply I3.
  - intros t. pose proof (count_where_update (of_tenant t) _ _ _ st' Hst) as Hc.
    unfold of_tenant at 2 4 in Hc. rewrite Hten in Hc. specialize (I4 t). lia.
  - intros r. pose proof (count_where_update (of_route r) _ _ _ st' Hst) as Hc.
    unfold of_route at 2 4 in Hc. rewrite Hroute in Hc. specialize (I5 r). lia.
  - intros k x. rewrite lookup_insert. case_decide; [intros [= <-]|apply I6].
    rewrite Hroute, Hwin. by eapply I6.
  - intros r w Hw. etrans; [|by apply (I7 r w)]. unfold reserved_in. simpl.
    rewrite <- insert_delete_eq, sum_where_insert_new by apply lookup_delete_eq.
    rewrite (sum_where_delete _ _ _ _ _ Hst). unfold in_window at 1 3.
    rewrite Hroute, Hwin, Hres. lia.
Qed.

Lemma capacity_renew_inv clock s lease dur res s' :
  capacity_inv s → renew clock s lease dur = (res, s') → capacity_inv s'.
Proof.
  intros Hinv H. unfold renew in H.
  destruct (_bounded_seconds _ ≫= _) as [now|]; [|by injection H as <- <-].
  pose proof (prune_inv now _ Hinv) as Hp. set (s1 := _prune now s) in *.
  destruct (leases s1 !! cl_id lease) as [st|] eqn:Hst; [|by injection H as <- <-].
  destruct (bool_decide (ls_lease st = lease)) eqn:Hl; [|by injection H as <- <-]. bool_hyps.
  destruct (validate_lease _) as [l'|] eqn:Ev; injection H as <- <-; [|done].
  apply validate_lease_Ok in Ev as (Hr & E1 & E2 & E3 & E4 & _). simpl in *. subst lease.
  destruct (ci_ids _ Hp _ _ Hst) as (_ & _ & Hname). rewrite Hname in Hr. injection Hr as Hr.
  apply (replace_inv s1 _ st); simpl; try done. unfold request_key. simpl. by rewrite E2, E3.
Qed.

(** One call on the store; identifiers are fresh and route names normalized. *)
Inductive capacity_step : State → State → Prop :=
| step_acquire clock id s t r req n dur res s' :
    identifier_string r = Ok r → leases s !! id = None →
    acquire c clock id s t r req n dur = (res, s') → capacity_step s s'
| step_release clock s lease n res s' :
    release c clock s lease n = (res, s') → capacity_step s s'
| step_renew clock s lease dur res s' :
    renew clock s lease dur = (res, s') → capacity_step s s'.

Lemma capacity_step_inv s s' : capacity_inv s → capacity_step s s' → capacity_inv s'.
Proof.
  intros Hinv Hstep. destruct Hstep.
  - by eapply capacity_acquire_inv.
  - by eapply capacity_release_inv.
  - by eapply capacity_renew_inv.
Qed.

(** Whatever sequence of calls is made, at whatever clock readings, no
    tenant and no route ever holds more leases than its limit, the tokens
    reserved by the live leases of a route's current window never exceed what
    the window has counted, and the request index and the leases agree, so a
    repeated request always finds its lease. *)
Theorem capacity_limits_hold s :
  star capacity_step initial s →
  (∀ t, (Z.of_nat (length (tenant_leases s t)) ≤ tenant_limit c)%Z) ∧
  (∀ r, (Z.of_nat (length (route_leases s r)) ≤ provider_limit c)%Z) ∧
  (∀ r w, tokens s !! r = Some w → (reserved_in s r (tw_started_at w) ≤ tw_tokens w)%Z) ∧
  (∀ key id, requests s !! key = Some id ↔ ∃ st, leases s !! id = Some st ∧ request_key st = key).
Proof.
  intros Hs. assert (capacity_inv s) as Hinv.
  { eapply (star_invariant capacity_step capacity_inv); eauto using capacity_step_inv, initial_inv. }
  split_and!; [apply (ci_tenant _ Hinv)|apply (ci_route _ Hinv)|apply (ci_tokens _ Hinv)|].
  intros key id. split; [apply (ci_requests _ Hinv)|]. intros (st & Hst & <-).
  by apply (ci_owned _ Hinv).
Qed.

Lemma guard_Ok now n dur :
  (1 ≤ n ≤ MAX_PROVIDER_TOKENS_PER_WINDOW)%Z → (0 < dur ≤ MAX_POLICY)%Z →
  (_ ← _bounded_integer n MAX_PROVIDER_TOKENS_PER_WINDOW; _ ← _bounded_seconds dur;
   _aware_clock_value (utc now)) = Ok now.
Proof.
  intros [Hn1 Hn2] [Hd1 Hd2]. unfold _bounded_integer, _bounded_seconds, _aware_clock_value.
  rewrite normalize_utc, (proj2 (Z.leb_le 1 n) Hn1), (proj2 (Z.leb_le n _) Hn2), (proj2 (Z.ltb_lt 0 dur) Hd1),
    (proj2 (Z.leb_le dur _) Hd2). done.
Qed.

(** Admission is all or nothing.  A grant is a lease of the store, for
    this tenant, route, request and reservation; when it is new, one slot of
    the tenant and the route and the reserved tokens were available.  A
    rejection or an error leaves no lease and no request entry behind, and a
    rejection names a resource that is really exhausted. *)
Theorem acquire_all_or_nothing now id s t r req n dur res s' :
  capacity_inv s → identifier_string r = Ok r → leases s !! id = None →
  (1 ≤ n ≤ MAX_PROVIDER_TOKENS_PER_WINDOW)%Z → (0 < dur ≤ MAX_POLICY)%Z →
  acquire c (utc now) id s t r req n dur = (res, s') →
  match res with
  | Ok (Granted l) =>
      (∃ st, leases s' !! cl_id l = Some st ∧ ls_lease st = l) ∧
      requests s' !! (t, req) = Some (cl_id l) ∧
      cl_tenant_id l = t ∧ cl_route_name l = r ∧ cl_request_id l = req ∧
      cl_reserved_tokens l = n ∧
      (leases s' = leases (_prune now s) ∨
       cl_id l = id ∧ cl_expires_at l = (now + dur)%Z ∧
       (Z.of_nat (length (tenant_leases (_prune now s) t)) < tenant_limit c)%Z ∧
       (Z.of_nat (length (route_leases (_prune now s) r)) < provider_limit c)%Z ∧
       (tw_tokens (_token_window c r now (_prune now s)).1 + n ≤ token_limit c)%Z)
  | Ok (Rejected scope retry) =>
      leases s' = leases (_prune now s) ∧ requests s' = requests (_prune now s) ∧
      (0 < retry ≤ seconds 3600)%Z ∧
      match scope with
      | TENANT_GATEWAY_REQUESTS =>
          (tenant_limit c ≤ Z.of_nat (length (tenant_leases (_prune now s) t)))%Z
      | PROVIDER_REQUESTS =>
          (provider_limit c ≤ Z.of_nat (length (route_leases (_prune now s) r)))%Z
      | PROVIDER_TOKENS =>
          (token_limit c < tw_tokens (_token_window c r now (_prune now s)).1 + n)%Z
      end
  | Err _ => leases s' = leases (_prune now s) ∧ requests s' = requests (_prune now s)
  end.
Proof.
  intros Hinv Hr Hid Hn Hd H. unfold acquire in H. rewrite (guard_Ok now n dur Hn Hd) in H.
  pose proof (prune_inv now _ Hinv) as Hp. set (s1 := _prune now s) in *.
  assert (∀ scope l, match (retry ← _retry_after l now; rejection scope retry) with
    | Ok (Granted _) => False | Ok (Rejected sc retry) => sc = scope ∧ (0 < retry ≤ seconds 3600)%Z
    | Err _ => True end) as Hrej.
  { intros scope l. destruct (_retry_after l now) as [x|]; [|done]. simpl. unfold rejection.
    destruct (ensure _ _) eqn:E; [|done]. simpl. apply ensure_Ok in E. bool_hyps. split; [done|lia]. }
  destruct (requests s1 !! (t, req)) as [eid|] eqn:Ereq.
  { destruct (ci_requests _ Hp _ _ Ereq) as (st & Hst & Hkey). rewrite Hst in H.
    destruct (_ || _) eqn:Hc; injection H as <- <-; [done|]. bool_hyps.
    destruct (ci_ids _ Hp _ _ Hst) as (Hcid & _). unfold request_key in Hkey.
    injection Hkey as Hk1 Hk2. split_and!; try done; [rewrite Hcid; eauto|congruence|by left]. }
  destruct (_ <=? _)%Z eqn:Ht.
  { specialize (Hrej TENANT_GATEWAY_REQUESTS (tenant_leases s1 t)). injection H as <- <-. bool_hyps.
    destruct (_ ≫= _) as [[|]|]; [done| |done]. destruct Hrej as [-> [? ?]]. by split_and!. }
  destruct (_ <=? _)%Z eqn:Hrt in H.
  { specialize (Hrej PROVIDER_REQUESTS (route_leases s1 r)). injection H as <- <-. bool_hyps.
    destruct (_ ≫= _) as [[|]|]; [done| |done]. destruct Hrej as [-> [? ?]]. by split_and!. }
  destruct (_token_window c r now s1) as [w s2] eqn:Ew.
  destruct (token_window_inv _ _ _ _ _ Hp Ew) as (_ & _ & El & Er & _).
  destruct (_ <? _)%Z eqn:Htok.
  { unfold rejection in H. destruct (ensure _ _) eqn:E in H; simpl in H; injection H as <- <-; [|done].
    apply ensure_Ok in E. bool_hyps. by split_and!. }
  destruct (validate_lease _) as [l|] eqn:Ev; injection H as <- <-; [|done]. bool_hyps.
  apply validate_lease_Ok in Ev as (Hrr & E1 & E2 & E3 & E4 & _ & _ & E6). simpl in *.
  rewrite Hr in Hrr. injection Hrr as Hrr. rewrite E1, !lookup_insert_eq.
  split_and!; try done; [by eexists|]. right. by split_and!.
Qed.
End Capacity.
End Capacity.

(** ** Request idempotency *)

Module Requests.
Import RequestStore.

Section Requests.
Context {GatewayEvent ErrorValue : Type} (is_response_completed : GatewayEvent → bool).

Abbreviation Stored := (@Stored GatewayEvent ErrorValue) (only parsing).
Abbreviation key := (uuid * pystr)%type (only parsing).

(** The stored states a claim can report. *)
Definition stored_ok (r : Stored) : Prop :=
  sha256_hex_ok (sr_request_hash r) = true ∧
  match sr_status r with
  | IN_PROGRESS => sr_events r = [] ∧ sr_error r = None
  | COMPLETED => completed_last is_response_completed (sr_events r) = true ∧ sr_error r = None
  | FAILED => sr_events r = [] ∧ sr_error r ≠ None
  | EXECUTE | CONFLICT => False
  end.
Definition table_ok (m : gmap key Stored) : Prop := map_Forall (λ _ r, stored_ok r) m.

(** Identities as the gateway client computes them *)
Definition identity_ok (req h : pystr) : Prop := idempotency_key_ok req = true ∧ sha256_hex_ok h = true.

(** How a stored request answers a claim *)
Definition answer (r : Stored) (h : pystr) : @Claim GatewayEvent ErrorValue :=
  if bool_decide (sr_request_hash r = h) then mkClaim (sr_status r) (sr_request_hash r) (sr_events r) (sr_error r)
  else mkClaim CONFLICT (sr_request_hash r) [] None.

(** What the protocol promises its clients, on the table [view] a store keeps. *)
Class RequestStoreContract {S : Type} (o : Operations (GatewayEvent := GatewayEvent) (ErrorValue := ErrorValue) S)
    (view : S → gmap key Stored) := {
  contract_claim s t req h res s' : table_ok (view s) → identity_ok req h → op_claim o s t req h = (res, s') →
    match view s !! (t, req) with
    | None =>
        (res = Ok (mkClaim EXECUTE h [] None) ∧ view s' = <[(t, req) := mkStored h IN_PROGRESS [] None]> (view s))
        ∨ (is_ok res = false ∧ view s' = view s)
    | Some r => res = Ok (answer r h) ∧ view s' = view s
    end;
  contract_complete s t req h events res s' : table_ok (view s) → op_complete o s t req h events = (res, s') →
    if is_ok res then ∃ r, view s !! (t, req) = Some r ∧ sr_status r = IN_PROGRESS ∧ sr_request_hash r = h ∧
      completed_last is_response_completed events = true ∧
      view s' = <[(t, req) := mkStored h COMPLETED events None]> (view s)
    else view s' = view s;
  contract_fail s t req h e res s' : table_ok (view s) → op_fail o s t req h e = (res, s') →
    (view s' = view s ∧ (is_ok res = true → ∃ r, view s !! (t, req) = Some r ∧ sr_status r ≠ IN_PROGRESS))
    ∨ ∃ r, view s !! (t, req) = Some r ∧ sr_status r = IN_PROGRESS ∧ sr_request_hash r = h ∧
      view s' = <[(t, req) := mkStored h FAILED [] (Some e)]> (view s);
  contract_release s t req h res s' : op_release o s t req h = (res, s') →
    if is_ok res then ∃ r, view s !! (t, req) = Some r ∧ sr_status r = IN_PROGRESS ∧ view s' = delete (t, req) (view s)
    else view s' = view s;
}.

Lemma validate_claim_Ok (m m' : @Claim GatewayEvent ErrorValue) :
  validate_claim is_response_completed m = Ok m' →
  m' = m ∧ sha256_hex_ok (cm_request_hash m) = true.
Proof. unfold validate_claim. intros H. run_inv H. done. Qed.

(** A stored state is reported as it is. *)
Lemma stored_claim r : stored_ok r →
  validate_claim is_response_completed (mkClaim (sr_status r) (sr_request_hash r) (sr_events r) (sr_error r)) =
  Ok (mkClaim (sr_status r) (sr_request_hash r) (sr_events r) (sr_error r)).
Proof.
  unfold stored_ok, validate_claim. intros [Hh Hr]. simpl. rewrite Hh. revert Hr.
  destruct (sr_status r) eqn:E; try done; simpl.
  - by intros [-> ->].
  - intros [Hl ->]. rewrite Hl. destruct (sr_events r); [done|]. by rewrite bool_decide_false.
  - intros [-> He]. by destruct (sr_error r).
Qed.

(** A completed response passes the claim validator only with its final event. *)
Lemma completed_claim h events (m : @Claim GatewayEvent ErrorValue) :
  validate_claim is_response_completed (mkClaim COMPLETED h events None) = Ok m →
  completed_last is_response_completed events = true.
Proof. unfold validate_claim. simpl. intros H. run_inv H. by bool_hyps. Qed.

Lemma conflict_claim r h : stored_ok r → sr_request_hash r ≠ h →
  validate_claim is_response_completed (mkClaim CONFLICT (sr_request_hash r) [] None) = Ok (answer r h).
Proof. intros [Hh _] Hne. unfold answer, validate_claim. simpl. by rewrite Hh, bool_decide_false. Qed.

Lemma same_claim r h : stored_ok r → sr_request_hash r = h →
  validate_claim is_response_completed (mkClaim (sr_status r) (sr_request_hash r) (sr_events r) (sr_error r)) =
  Ok (answer r h).
Proof. intros Hr <-. unfold answer. rewrite bool_decide_true by done. by apply stored_claim. Qed.

Lemma require_owned_Ok (s : @Store GatewayEvent ErrorValue) t req h r :
  _require_owned s t req h = Ok r → stored s !! (t, req) = Some r ∧ sr_request_hash r = h.
Proof. unfold _require_owned. intros H. run_inv H. by bool_hyps. Qed.

#[export] Instance in_memory_contract : RequestStoreContract (in_memory is_response_completed) stored.
Proof.
  split; cbn [in_memory op_claim op_complete op_fail op_release].
  - intros s t req h res s' Hok [_ Hh] H. unfold claim in H. destruct (stored s !! (t, req)) as [r|] eqn:Hk.
    + specialize (Hok _ _ Hk). destruct (bool_decide _) eqn:E; bool_hyps; injection H as <- <-;
        (split; [|done]); [by apply same_claim|by apply conflict_claim].
    + destruct (_ <=? _)%nat; injection H as <- <-; [by right|left]. unfold validate_claim. simpl. by rewrite Hh.
  - intros s t req h events res s' Hok H. unfold complete in H.
    destruct (_ ≫= _) as [r|] eqn:E; injection H as <- <-; [|done]. cbn [is_ok]. run_inv E. bool_hyps.
    match goal with H : _require_owned _ _ _ _ = Ok _ |- _ => apply require_owned_Ok in H as [Hk Hh] end.
    match goal with H : validate_claim _ _ = Ok _ |- _ => apply completed_claim in H end.
    exists r. split_and!; [done|done|done|done|]. destruct (Hok _ _ Hk) as [_ Hr].
    match goal with H : sr_status r = IN_PROGRESS |- _ => rewrite H in Hr end. destruct Hr as [_ ->].
    cbn [set_stored stored]. by rewrite Hh.
  - intros s t req h e res s' Hok H. unfold fail in H.
    destruct (_require_owned _ _ _ _) as [r|] eqn:E; [|injection H as <- <-; by left].
    apply require_owned_Ok in E as [Hk Hh]. destruct (bool_decide _) eqn:Hs; injection H as <- <-; bool_hyps; [right|left; eauto].
    exists r. split_and!; [done|done|done|]. destruct (Hok _ _ Hk) as [_ Hr]. rewrite Hs in Hr. destruct Hr as [-> _].
    cbn [set_stored stored]. by rewrite Hh.
  - intros s t req h res s' H. unfold release in H. destruct (stored s !! (t, req)) as [r|] eqn:Hk;
      [|by injection H as <- <-]. destruct (_ && _) eqn:Hb; injection H as <- <-; [|done]. bool_hyps. by exists r.
Qed.

(** ** Clients of the protocol *)

Section Clients.
Context {S : Type} (o : Operations (GatewayEvent := GatewayEvent) (ErrorValue := ErrorValue) S) (view : S → gmap key Stored).
Context `{!RequestStoreContract o view}.

(** What happened to a request: its execution was handed out, its claim was
    given back, or neither. *)
Inductive action := Execute (k : key) | Release (k : key) | Observe.

Inductive request_step : S → action → S → Prop :=
| step_claim s t req h m s' :
    identity_ok req h → op_claim o s t req h = (Ok m, s') →
    request_step s (match cm_status m with EXECUTE => Execute (t, req) | _ => Observe end) s'
| step_claim_error s t req h e s' :
    identity_ok req h → op_claim o s t req h = (Err e, s') → request_step s Observe s'
| step_complete s t req h events res s' :
    op_complete o s t req h events = (res, s') → request_step s Observe s'
| step_fail s t req h err res s' :
    op_fail o s t req h err = (res, s') → request_step s Observe s'
| step_release s t req h s' :
    op_release o s t req h = (Ok tt, s') → request_step s (Release (t, req)) s'
| step_release_error s t req h e s' :
    op_release o s t req h = (Err e, s') → request_step s Observe s'.

Inductive request_trace : S → list action → S → Prop :=
| trace_nil s : request_trace s [] s
| trace_snoc s l s1 a s2 :
    request_trace s l s1 → request_step s1 a s2 → request_trace s (l ++ [a]) s2.

(** What one step does to the table. *)
Lemma request_step_effect (s : S) a s' :
  table_ok (view s) → request_step s a s' →
  match a with
  | Execute k => view s !! k = None ∧
      ∃ h, sha256_hex_ok h = true ∧ view s' = <[k := mkStored h IN_PROGRESS [] None]> (view s)
  | Release k => ∃ r, view s !! k = Some r ∧ sr_status r = IN_PROGRESS ∧ view s' = delete k (view s)
  | Observe => view s' = view s ∨ ∃ k r r', view s !! k = Some r ∧ sr_status r = IN_PROGRESS ∧
      stored_ok r' ∧ view s' = <[k := r']> (view s)
  end.
Proof.
  intros Hinv Hstep. destruct Hstep as [s t req h m s' Hid H|s t req h e s' Hid H|s t req h ev res s' H|
    s t req h err res s' H|s t req h s' H|s t req h e s' H].
  - pose proof (contract_claim _ _ _ _ _ _ Hinv Hid H) as Hc. destruct (view s !! (t, req)) as [r|] eqn:Hk.
    + destruct Hc as [[= ->] Hv]. destruct (Hinv _ _ Hk) as [_ Hr]. unfold answer. case_bool_decide; cbn [cm_status]; [|by left].
      destruct (sr_status r); try done; by left.
    + destruct Hc as [[[= ->] Hv]|[? _]]; [|done]. cbn [cm_status]. split; [done|]. exists h. by destruct Hid.
  - left. pose proof (contract_claim _ _ _ _ _ _ Hinv Hid H) as Hc. destruct (view s !! (t, req)) as [r|] eqn:Hk.
    + by destruct Hc.
    + by destruct Hc as [[? _]|[_ ?]].
  - pose proof (contract_complete _ _ _ _ _ _ _ Hinv H) as Hc. destruct (is_ok res); [right|by left].
    destruct Hc as (r & Hk & Hst & Hh & Hl & Hv). exists (t, req), r, (mkStored h COMPLETED ev None).
    split_and!; [done|done| |done]. destruct (Hinv _ _ Hk) as [Hh' _]. rewrite Hh in Hh'. done.
  - destruct (contract_fail _ _ _ _ _ _ _ Hinv H) as [[Hv _]|(r & Hk & Hst & Hh & Hv)]; [by left|right].
    exists (t, req), r, (mkStored h FAILED [] (Some err)).
    split_and!; [done|done| |done]. destruct (Hinv _ _ Hk) as [Hh' _]. rewrite Hh in Hh'. done.
  - exact (contract_release _ _ _ _ _ _ H).
  - left. exact (contract_release _ _ _ _ _ _ H).
Qed.

Lemma request_step_inv (s : S) a s' : table_ok (view s) → request_step s a s' → table_ok (view s').
Proof.
  intros Hinv Hstep. pose proof (request_step_effect _ _ _ Hinv Hstep) as He.
  destruct a as [k|k|].
  - destruct He as (_ & h & Hh & E). intros j x. rewrite E, lookup_insert.
    case_decide; [by intros [= <-]|apply Hinv].
  - destruct He as (r & _ & _ & E). intros j x. rewrite E. intros [_ Hx]%lookup_delete_Some.
    by apply (Hinv j).
  - destruct He as [->|(k & r & r' & _ & _ & Hr' & E)]; [done|]. intros j x.
    rewrite E, lookup_insert. case_decide; [by intros [= <-]|apply Hinv].
Qed.

(** Every operation leaves a table a claim can report from. *)
Lemma claim_table_ok (s : S) t req h : table_ok (view s) → identity_ok req h → table_ok (view (op_claim o s t req h).2).
Proof.
  intros Hok Hid. destruct (op_claim o s t req h) as [[m|e] s'] eqn:E; (eapply request_step_inv; [exact Hok|]).
  - by eapply step_claim.
  - by eapply step_claim_error.
Qed.
Lemma complete_table_ok (s : S) t req h events : table_ok (view s) → table_ok (view (op_complete o s t req h events).2).
Proof.
  intros Hok. destruct (op_complete o s t req h events) as [res s'] eqn:E. eapply request_step_inv; [exact Hok|].
  by eapply step_complete.
Qed.
Lemma fail_table_ok (s : S) t req h e : table_ok (view s) → table_ok (view (op_fail o s t req h e).2).
Proof.
  intros Hok. destruct (op_fail o s t req h e) as [res s'] eqn:E. eapply request_step_inv; [exact Hok|].
  by eapply step_fail.
Qed.
Lemma release_table_ok (s : S) t req h : table_ok (view s) → table_ok (view (op_release o s t req h).2).
Proof.
  intros Hok. destruct (op_release o s t req h) as [[[]|e] s'] eqn:E; (eapply request_step_inv; [exact Hok|]).
  - by eapply step_release.
  - by eapply step_release_error.
Qed.

Definition executions (k : key) (l : list action) : nat :=
  length (filter (λ a, match a with Execute k' => bool_decide (k' = k) | _ => false end = true) l).
Definition releases (k : key) (l : list action) : nat :=
  length (filter (λ a, match a with Release k' => bool_decide (k' = k) | _ => false end = true) l).

Lemma executions_app k l1 l2 : executions k (l1 ++ l2) = executions k l1 + executions k l2.
Proof. unfold executions. by rewrite filter_app, length_app. Qed.
Lemma releases_app k l1 l2 : releases k (l1 ++ l2) = releases k l1 + releases k l2.
Proof. unfold releases. by rewrite filter_app, length_app. Qed.

Lemma executions_one k a :
  executions k [a] = match a with Execute k' => if bool_decide (k' = k) then 1 else 0 | _ => 0 end.
Proof. unfold executions. rewrite filter_cons, filter_nil. destruct a; [by case_bool_decide|done..]. Qed.
Lemma releases_one k a :
  releases k [a] = match a with Release k' => if bool_decide (k' = k) then 1 else 0 | _ => 0 end.
Proof. unfold releases. rewrite filter_cons, filter_nil. destruct a; [done|by case_bool_decide|done]. Qed.

(** A logical request is executed at most once per admission.  Along every
    sequence of calls on an empty store, the executions handed out for a
    request are exactly its releases plus one while it is stored: a second
    execution is handed out only after the first one was released before any
    provider attempt. *)
Theorem request_executed_once s0 l s k :
  view s0 = ∅ → request_trace s0 l s →
  executions k l = releases k l + (if is_some (view s !! k) then 1 else 0) ∧ table_ok (view s).
Proof.
  intros E0 Htr. induction Htr as [s|s l s1 a s2 Htr IH Hstep].
  - rewrite E0. split; [simpl; by rewrite lookup_empty|]. apply map_Forall_empty.
  - destruct (IH E0) as [Hc Hinv]. pose proof (request_step_effect _ _ _ Hinv Hstep) as He.
    split; [|by eapply request_step_inv].
    rewrite executions_app, releases_app, Hc, executions_one, releases_one.
    destruct a as [k'|k'|].
    + destruct He as (Hn & h & _ & ->). destruct (decide (k' = k)) as [->|Hk].
      * rewrite bool_decide_true, lookup_insert_eq, Hn by done. simpl. lia.
      * rewrite bool_decide_false, lookup_insert_ne by done. simpl. lia.
    + destruct He as (r & Hs & _ & ->). destruct (decide (k' = k)) as [->|Hk].
      * rewrite bool_decide_true, lookup_delete_eq, Hs by done. simpl. lia.
      * rewrite bool_decide_false, lookup_delete_ne by done. simpl. lia.
    + destruct He as [->|(k' & r & r' & Hk & _ & _ & ->)]; [lia|].
      rewrite lookup_insert. case_decide; [subst; rewrite Hk; simpl; lia|lia].
Qed.

(** A completed request is final.  However the store is used afterwards,
    the request stays completed with the same payload digest and the same
    events, and every later claim for that payload replays exactly these events
    while a claim for another payload is reported as a conflict. *)
Theorem completed_request_replays l s s' t req r h res s'' :
  table_ok (view s) → request_trace s l s' → view s !! (t, req) = Some r → sr_status r = COMPLETED →
  identity_ok req h → op_claim o s' t req h = (res, s'') →
  res = Ok (answer r h) ∧ view s'' = view s'.
Proof.
  intros Hinv Htr Hr Hs Hid H.
  assert (table_ok (view s') ∧ view s' !! (t, req) = Some r) as [Hinv' Hr'].
  { clear H. induction Htr as [s|s l s1 a s2 Htr IH Hstep]; [done|].
    destruct (IH Hinv Hr) as [Hinv1 Hr1]. split; [by eapply request_step_inv|].
    pose proof (request_step_effect _ _ _ Hinv1 Hstep) as He. destruct a as [k|k|].
    - destruct He as (Hn & h' & _ & ->). rewrite lookup_insert_ne; [done|congruence].
    - destruct He as (r' & Hk & Hst & ->). rewrite lookup_delete_ne; [done|]. intros ->. congruence.
    - destruct He as [->|(k & r0 & r' & Hk & Hst & _ & ->)]; [done|].
      rewrite lookup_insert_ne; [done|]. intros ->. congruence. }
  pose proof (contract_claim _ _ _ _ _ _ Hinv' Hid H) as Hc. by rewrite Hr' in Hc.
Qed.
End Clients.
End Requests.
End Requests.

(** ** Rate limiting *)

Module Rates.
Import RateLimiter.

Section Rates.
Context (k : uuid * pystr).

(** A history of calls under a monotonic clock, with the grants given to [k]. *)
Inductive limiter_history (l0 : Limiter) : Limiter → Z → list Z → Prop :=
| history_start now : limiter_history l0 l0 now []
| history_call l now0 g now t r res l' :
    limiter_history l0 l now0 g → (now0 ≤ now)%Z → acquire now l t r = (res, l') →
    limiter_history l0 l' now
      (if bool_decide ((t, r) = k) && bool_decide (res = Ok None) then g ++ [now] else g).

Lemma drop_until_split b l :
  ∃ dropped, l = dropped ++ drop_until b l ∧ Forall (λ t, t ≤ b)%Z dropped.
Proof.
  induction l as [|t l (dr & Hl & Hall)]; simpl; [by exists []|].
  destruct (t <=? b)%Z eqn:Ht; [|by exists []]. bool_hyps.
  exists (t :: dr). split; [simpl; by rewrite <- Hl|by constructor].
Qed.

Lemma drop_until_head b l t rest : drop_until b l = t :: rest → (b < t)%Z.
Proof.
  induction l as [|x l IH]; simpl; [done|]. destruct (x <=? b)%Z eqn:Hx; [done|].
  bool_hyps. by intros [= -> _].
Qed.

(** The grants of a half-open window that ends at [T]. *)
Definition in_span (W T t : Z) : Prop := (T - W < t ≤ T)%Z.

#[local] Instance in_span_dec W T t : Decision (in_span W T t).
Proof. unfold in_span. apply _. Defined.

Definition grants_in (W T : Z) (g : list Z) : nat := length (filter (in_span W T) g).

(** The deque is the history without grants that left every later window. *)
Record history_inv (l : Limiter) (now : Z) (g : list Z) : Prop := {
  hi_deque : ∃ dropped, g = dropped ++ default [] (windows l !! k) ∧
    Forall (λ t, t ≤ now - window l)%Z dropped;
  hi_length : length (default [] (windows l !! k)) ≤ limit l;
  hi_span : ∀ T, grants_in (window l) T g ≤ limit l;
  hi_past : Forall (λ t, t ≤ now)%Z g;
}.

Lemma grants_in_app W T g1 g2 : grants_in W T (g1 ++ g2) = grants_in W T g1 + grants_in W T g2.
Proof. unfold grants_in. by rewrite filter_app, length_app. Qed.

Lemma grants_in_length W T g : grants_in W T g ≤ length g.
Proof. apply length_filter. Qed.

Lemma grants_in_old W T g now :
  Forall (λ t, t ≤ now - W)%Z g → (now ≤ T)%Z → grants_in W T g = 0.
Proof.
  intros Hall HT. unfold grants_in. induction Hall as [|t g Ht _ IH]; [done|].
  rewrite filter_cons, decide_False; [done|]. unfold in_span. lia.
Qed.

Lemma acquire_frame now l t r res l' :
  acquire now l t r = (res, l') →
  limit l' = limit l ∧ window l' = window l ∧ max_keys l' = max_keys l ∧
  ∀ k', k' ≠ (t, r) → windows l' !! k' = windows l !! k'.
Proof.
  unfold acquire. intros H.
  destruct (_ && _); [injection H as <- <-; done|]. cbv zeta in H.
  destruct (_ <=? _)%nat; [destruct (drop_until _ _)|]; injection H as <- <-; simpl;
    (split_and!; [done..|]); intros k' Hk'; by rewrite lookup_insert_ne.
Qed.

Lemma history_inv_holds l0 l now g :
  windows l0 = ∅ → 1 ≤ limit l0 → limiter_history l0 l now g →
  history_inv l now g ∧ limit l = limit l0 ∧ window l = window l0.
Proof.
  intros Hempty Hlim Hh. induction Hh as [now|l now0 g now t r res l' Hh IH Hle H].
  { split; [|done]. constructor; rewrite ?Hempty, ?lookup_empty; simpl; [by exists []|lia| |done].
    intros T. unfold grants_in. simpl. lia. }
  destruct IH as [[(dr & Hg & Hdr) Hlen Hsp Hpast] [El Ew]].
  destruct (acquire_frame _ _ _ _ _ _ H) as (El' & Ew' & _ & Hother).
  assert (Forall (λ t, t ≤ now - window l)%Z dr) as Hdr'.
  { eapply Forall_impl; [exact Hdr|]. simpl. intros x Hx. lia. }
  assert (Forall (λ t, t ≤ now)%Z g) as Hpast'.
  { eapply Forall_impl; [exact Hpast|]. simpl. intros x Hx. lia. }
  split; [|by split; congruence].
  destruct (decide ((t, r) = k)) as [Hk|Hk].
  2: { rewrite (bool_decide_false ((t, r) = k)) by done. simpl. constructor.
       - rewrite Hother by done. rewrite Ew'. eauto.
       - rewrite Hother by done. by rewrite El'.
       - intros T. rewrite El', Ew'. apply Hsp.
       - done. }
  rewrite (bool_decide_true ((t, r) = k)) by done. simpl.
  unfold acquire in H. rewrite Hk in H. destruct (_ && _).
  { injection H as <- <-. rewrite bool_decide_false by done. constructor; eauto. }
  cbv zeta in H. set (cur := default [] (windows l !! k)) in *.
  destruct (drop_until_split (now - window l) cur) as (dr2 & Hcur & Hdr2).
  set (ts := drop_until (now - window l) cur) in *.
  assert (g = (dr ++ dr2) ++ ts) as Hg' by (rewrite Hg, Hcur at 1; by rewrite app_assoc).
  assert (Forall (λ t, t ≤ now - window l)%Z (dr ++ dr2)) as Hold by (by apply Forall_app).
  assert (length ts ≤ length cur) as Hts by (rewrite Hcur, length_app; lia).
  destruct (limit l <=? length ts)%nat eqn:Hfull.
  - assert (history_inv l' now g ∧ res ≠ Ok None) as [Hi Hres].
    { destruct ts as [|t0 ts']; injection H as <- <-; (split; [|done]); constructor; simpl;
        rewrite ?lookup_insert_eq; simpl; eauto; simpl in *; lia. }
    by rewrite bool_decide_false.
  - injection H as <- <-. rewrite bool_decide_true by done. apply Nat.leb_gt in Hfull.
    constructor; simpl; rewrite ?lookup_insert_eq; simpl.
    + exists (dr ++ dr2). split; [|done]. rewrite Hg' at 1. by rewrite app_assoc.
    + rewrite length_app. simpl. lia.
    + intros T. destruct (decide (now ≤ T)%Z) as [HT|HT].
      * rewrite Hg', <- app_assoc, grants_in_app, (grants_in_old _ T _ now Hold HT).
        pose proof (grants_in_length (window l) T (ts ++ [now])) as Hb.
        rewrite length_app in Hb. simpl in Hb. lia.
      * rewrite grants_in_app.
        assert (grants_in (window l) T [now] = 0) as ->.
        { unfold grants_in. rewrite filter_cons, decide_False; [done|]. unfold in_span. lia. } specialize (Hsp T). lia.
    + apply Forall_app. split; [done|]. by constructor.
Qed.

(** The limiter enforces its sliding window.  Under a monotonic clock, a
    tenant and route are never granted more than [limit] requests in any window
    of the configured length, whatever calls are made for them and for others;
    and a refusal states a positive wait, of at most the window, after which
    the same call is granted. *)
Theorem sliding_window_respected l0 l now g :
  windows l0 = ∅ → limiter_ok l0 = true → limiter_history l0 l now g →
  (∀ T, grants_in (window l0) T g ≤ limit l0) ∧
  ∀ now' wait l', (now ≤ now')%Z → acquire now' l k.1 k.2 = (Ok (Some wait), l') →
    (0 < wait ≤ window l)%Z ∧ (acquire (now' + wait) l' k.1 k.2).1 = Ok None.
Proof.
  intros Hempty Hok Hh. unfold limiter_ok in Hok. bool_hyps.
  match goal with H : (1 <=? limit l0)%nat = true |- _ => apply Nat.leb_le in H as Hlim end.
  destruct (history_inv_holds l0 l now g Hempty Hlim Hh) as [Hi [El Ew]]. split.
  { intros T. rewrite <- El, <- Ew. apply (hi_span _ _ _ Hi). }
  intros now' wait l' Hle Hacq. pose proof (hi_length _ _ _ Hi) as Hlen. unfold acquire in Hacq.
  rewrite <- surjective_pairing in Hacq. destruct (_ && _); [done|]. cbv zeta in Hacq.
  set (cur := default [] (windows l !! k)) in *.
  destruct (drop_until_split (now' - window l) cur) as (dr & Hcur & _).
  destruct (limit l <=? length (drop_until (now' - window l) cur))%nat eqn:Hfull; [|done].
  destruct (drop_until (now' - window l) cur) as [|t0 ts] eqn:Ets; [done|].
  pose proof (drop_until_head _ _ _ _ Ets) as Hhead. injection Hacq as <- <-.
  apply Nat.leb_le in Hfull.
  assert (t0 ≤ now')%Z as Ht0.
  { destruct (hi_deque _ _ _ Hi) as (dr0 & Hg & _). pose proof (hi_past _ _ _ Hi) as Hp.
    fold cur in Hg. rewrite Hg, Hcur in Hp. apply Forall_app in Hp as [_ Hp].
    apply Forall_app in Hp as [_ Hp]. apply Forall_cons in Hp as [Hp _]. lia. }
  split; [lia|]. unfold acquire. simpl.
  rewrite <- surjective_pairing, lookup_insert_eq. simpl.
  replace (t0 <=? now' + Z.max 0 (t0 + window l - now') - window l)%Z with true
    by (symmetry; apply Z.leb_le; lia).
  rewrite Hcur, length_app in Hlen. simpl in Hlen, Hfull.
  destruct (drop_until_split (now' + Z.max 0 (t0 + window l - now') - window l) ts) as (dr2 & Hts & _).
  assert (length (drop_until (now' + Z.max 0 (t0 + window l - now') - window l) ts) ≤ length ts)
    by (rewrite Hts at 2; rewrite length_app; lia).
  destruct (limit l <=? _)%nat eqn:Hf; [apply Nat.leb_le in Hf; lia|done].
Qed.
End Rates.
End Rates.

(** ** Circuit breaking *)

Module Circuits.
Import CircuitBreaker.

(** The abstract breaker of one route. *)
Inductive phase :=
| Closed (failures : Z)
| Open (since : Z)
| HalfOpen (since probe : Z).

Section Circuits.
Context (T R : Z).

Definition spec_allow (now : Z) (p : phase) : bool * phase :=
  match p with
  | Closed n => (true, Closed n)
  | Open o => if (now - o <? R)%Z then (false, Open o) else (true, HalfOpen o now)
  | HalfOpen o q =>
      if (now - o <? R)%Z || (now - q <? R)%Z then (false, HalfOpen o q)
      else (true, HalfOpen o now)
  end.

Definition spec_success (p : phase) : phase := Closed 0.

Definition spec_failure (now : Z) (p : phase) : phase :=
  match p with
  | Closed n => if (T <=? n + 1)%Z then Open now else Closed (n + 1)
  | Open _ | HalfOpen _ _ => Open now
  end.

(** The concrete record as a phase. *)
Definition phase_of (c : CircuitState) : phase :=
  match opened_at c with
  | None => Closed (failures c)
  | Some o =>
      match probe_in_flight c, probe_started_at c with
      | true, Some q => HalfOpen o q
      | _, _ => Open o
      end
  end.

Definition circuit_inv (c : CircuitState) : Prop :=
  (0 ≤ failures c)%Z ∧
  (opened_at c = None → (failures c < T)%Z ∧ probe_in_flight c = false) ∧
  (opened_at c ≠ None → (T ≤ failures c)%Z) ∧
  (probe_in_flight c = true ↔ probe_started_at c ≠ None).

(** Every call on a breaker, by any route. *)
Inductive breaker_step : Breaker → Breaker → Prop :=
| step_allow now b r res b' : allow now b r = (res, b') → breaker_step b b'
| step_success b r res b' : record_success b r = (res, b') → breaker_step b b'
| step_failure now b r res b' : record_failure now b r = (res, b') → breaker_step b b'.

Definition breaker_inv (b : Breaker) : Prop :=
  threshold b = T ∧ recovery b = R ∧ map_Forall (λ _ c, circuit_inv c) (states b).

Hypothesis HT : (1 ≤ T)%Z.

Lemma closed_inv : circuit_inv closed.
Proof. unfold circuit_inv, closed. simpl. split_and!; [lia|by split; [lia|]|done|done]. Qed.

Lemma route_state_inv b r : breaker_inv b → circuit_inv (route_state b r).
Proof.
  intros (_ & _ & Hall). unfold route_state. destruct (states b !! r) as [c|] eqn:E; simpl;
    [by apply (Hall r)|apply closed_inv].
Qed.

Lemma set_state_inv b r c : breaker_inv b → circuit_inv c → breaker_inv (set_state b r c).
Proof.
  intros (E1 & E2 & Hall) Hc. split_and!; try done. simpl. intros k x. rewrite lookup_insert.
  case_decide; [by intros [= <-]|apply Hall].
Qed.

Lemma route_set_same b r c : route_state (set_state b r c) r = c.
Proof. unfold route_state. simpl. by rewrite lookup_insert_eq. Qed.

Lemma route_set_other b r r' c : r' ≠ r → route_state (set_state b r c) r' = route_state b r'.
Proof. intros Hr. unfold route_state. simpl. by rewrite lookup_insert_ne. Qed.

Lemma allow_refines now b r res b' :
  breaker_inv b → at_capacity b r = false → allow now b r = (res, b') →
  breaker_inv b' ∧ res = Ok (spec_allow now (phase_of (route_state b r))).1 ∧
  phase_of (route_state b' r) = (spec_allow now (phase_of (route_state b r))).2.
Proof.
  intros Hinv Hcap H. pose proof (route_state_inv b r Hinv) as Hc.
  pose proof Hinv as (_ & HR & _). unfold allow in H. rewrite Hcap in H.
  set (st := route_state b r) in *.
  assert (breaker_inv (set_state b r st)) as Hi by (by apply set_state_inv).
  unfold phase_of. rewrite HR in H. destruct (opened_at st) as [o|] eqn:Eo.
  2: { injection H as <- <-. rewrite route_set_same, Eo. done. }
  destruct Hc as (Hf & _ & Hop & Hpr). assert (T ≤ failures st)%Z as HTf by (by apply Hop; rewrite Eo).
  assert (breaker_inv (set_state b r (mkCircuit (failures st) (opened_at st) true (Some now)))) as Hi'.
  { apply set_state_inv; [done|]. unfold circuit_inv. simpl. rewrite Eo.
    split_and!; [lia|done|done|done]. }
  rewrite Eo in Hi'. destruct (now - o <? R)%Z eqn:Hro.
  { injection H as <- <-. rewrite route_set_same, Eo.
    destruct (probe_in_flight st), (probe_started_at st); simpl; by rewrite Hro. }
  destruct (probe_in_flight st) eqn:Ep; simpl in H.
  - destruct (probe_started_at st) as [q|] eqn:Eq; [|by destruct (proj1 Hpr eq_refl)].
    destruct (now - q <? R)%Z eqn:Hq; injection H as <- <-; rewrite route_set_same; simpl;
      rewrite ?Eo, ?Ep, ?Eq, Hro, Hq; done.
  - injection H as <- <-. rewrite route_set_same. simpl. rewrite ?Eo, Hro.
    by destruct (probe_started_at st).
Qed.

Lemma failure_refines now b r res b' :
  breaker_inv b → at_capacity b r = false → record_failure now b r = (res, b') →
  breaker_inv b' ∧ res = Ok tt ∧
  phase_of (route_state b' r) = spec_failure now (phase_of (route_state b r)).
Proof.
  intros Hinv Hcap H. pose proof (route_state_inv b r Hinv) as (Hf & Hcl & Hop & _).
  pose proof Hinv as (HTb & _ & _). unfold record_failure in H. rewrite Hcap in H.
  cbv zeta in H. injection H as <- <-. rewrite route_set_same, HTb. split_and!; [|done|].
  - apply set_state_inv; [done|]. unfold circuit_inv. simpl.
    destruct (T <=? failures (route_state b r) + 1)%Z eqn:E; bool_hyps;
      (split; [lia|split; [intros Hn; try done; by split; [lia|]|split;
        [intros Hn; try lia; specialize (Hop Hn); lia|done]]]).
  - unfold phase_of. simpl. destruct (T <=? failures (route_state b r) + 1)%Z eqn:E.
    + destruct (opened_at (route_state b r)); [|simpl; by rewrite E].
      destruct (probe_in_flight (route_state b r)), (probe_started_at (route_state b r)); done.
    + destruct (opened_at (route_state b r)) eqn:Eo; [|simpl; by rewrite E].
      bool_hyps. assert (T ≤ failures (route_state b r))%Z by (by apply Hop). lia.
Qed.

Lemma breaker_step_inv b b' : breaker_inv b → breaker_step b b' → breaker_inv b'.
Proof.
  intros Hinv Hstep. destruct Hstep as [now b r res b' H|b r res b' H|now b r res b' H].
  - destruct (at_capacity b r) eqn:Hc.
    + unfold allow in H. rewrite Hc in H. by injection H as <- <-.
    + by eapply allow_refines.
  - unfold record_success in H. destruct (at_capacity b r); injection H as <- <-; [done|].
    by apply set_state_inv; [|apply closed_inv].
  - destruct (at_capacity b r) eqn:Hc.
    + unfold record_failure in H. rewrite Hc in H. by injection H as <- <-.
    + by eapply failure_refines.
Qed.

Lemma at_capacity_known b r :
  at_capacity b r = bool_decide (r ∉ dom (states b)) && (max_routes b <=? size (states b))%nat.
Proof.
  unfold at_capacity. f_equal. destruct (states b !! r) as [c|] eqn:E; symmetry; cbn.
  - apply bool_decide_eq_false. intros H. apply H, elem_of_dom. eauto.
  - by apply bool_decide_eq_true, not_elem_of_dom.
Qed.

Lemma breaker_step_max b b' : breaker_step b b' → max_routes b' = max_routes b.
Proof.
  intros [now ? r res ? H|? r res ? H|now ? r res ? H]; revert H; unfold allow, record_success, record_failure;
    repeat case_match; by intros [= <- <-].
Qed.

Lemma breaker_reachable n b : star breaker_step (mkBreaker T R n ∅) b → breaker_inv b ∧ max_routes b = n.
Proof.
  intros Hs. eapply (star_invariant breaker_step (λ b, breaker_inv b ∧ max_routes b = n)); [|exact Hs|].
  - intros b1 b2 [Hi Hm] Hb. split; [by eapply breaker_step_inv|]. by rewrite (breaker_step_max _ _ Hb).
  - by split_and!.
Qed.

(** C36: the breaker refines the closed / open / half-open machine.  In every
    reachable state, [allow], [record_success] and [record_failure] on a route
    the breaker knows, or on a new one while the table has room, answer and move
    exactly as the abstract machine does, and leave the other routes alone: it
    opens at the threshold, refuses while the recovery time runs, then lets one
    probe through per recovery time until a success closes it or a failure
    reopens it.  On a new route of a full table they raise and change nothing. *)
Theorem breaker_refines_phases n b r : star breaker_step (mkBreaker T R n ∅) b →
  if bool_decide (r ∉ dom (states b)) && (n <=? size (states b))%nat then
    (∀ now, allow now b r = (Err capacity_error, b)) ∧
    record_success b r = (Err capacity_error, b) ∧
    (∀ now, record_failure now b r = (Err capacity_error, b))
  else
    (∀ now, let '(res, b') := allow now b r in
       res = Ok (spec_allow now (phase_of (route_state b r))).1 ∧
       phase_of (route_state b' r) = (spec_allow now (phase_of (route_state b r))).2 ∧
       ∀ r', r' ≠ r → route_state b' r' = route_state b r') ∧
    (let '(res, b') := record_success b r in
       res = Ok tt ∧ phase_of (route_state b' r) = spec_success (phase_of (route_state b r)) ∧
       ∀ r', r' ≠ r → route_state b' r' = route_state b r') ∧
    (∀ now, let '(res, b') := record_failure now b r in
       res = Ok tt ∧ phase_of (route_state b' r) = spec_failure now (phase_of (route_state b r)) ∧
       ∀ r', r' ≠ r → route_state b' r' = route_state b r').
Proof.
  intros Hs. destruct (breaker_reachable n b Hs) as [Hinv Hmax]. rewrite <-Hmax, <-at_capacity_known.
  destruct (at_capacity b r) eqn:Hcap.
  { unfold allow, record_success, record_failure. by rewrite Hcap. }
  split_and!.
  - intros now. destruct (allow now b r) as [res b'] eqn:H.
    destruct (allow_refines _ _ _ _ _ Hinv Hcap H) as (_ & ? & ?). split_and!; try done.
    intros r' Hr. unfold allow in H. rewrite Hcap in H.
    destruct (opened_at _); [destruct (_ <? _)%Z; [|destruct (_ && _)]|];
      injection H as <- <-; by apply route_set_other.
  - unfold record_success. rewrite Hcap. rewrite route_set_same. split_and!; try done.
    intros r' Hr. by apply route_set_other.
  - intros now. destruct (record_failure now b r) as [res b'] eqn:H.
    destruct (failure_refines _ _ _ _ _ Hinv Hcap H) as (_ & ? & ?). split_and!; try done.
    intros r' Hr. unfold record_failure in H. rewrite Hcap in H. injection H as <- <-.
    by apply route_set_other.
Qed.
End Circuits.
End Circuits.
