(* ===== verification/GatewayStoreProperties.v ===== *)
(** * Properties of the durable gateway policies

    The durable request store keeps the contract of the protocol; the durable breaker
    answers as the process-local one; the fixed-window limiter bounds every span of
    its window; the capacity tables account for every reserved token. *)

From stdpp Require Import base list sets gmap strings.
From Stdlib Require Import ZArith Lia.
From S2P Require Import Prelude PyBase Domain Tables Contracts RunQueue RunRepository GatewayPolicies GatewayStores GatewayProperties.

(** ** Requests *)

Module StoredRequests.
Import RequestStore DurableRequests Requests.
Section StoredRequests.
Context {GatewayEvent ErrorValue : Type} (is_response_completed : GatewayEvent → bool).

Lemma claimed_row_Some (rows : gmap (uuid * pystr) (@Stored GatewayEvent ErrorValue)) t req h r :
  claimed_row rows t req h = Some r → rows !! (t, req) = Some r ∧ sr_status r = IN_PROGRESS ∧ sr_request_hash r = h.
Proof.
  unfold claimed_row, is_in_progress. intros H. destruct (rows !! (t, req)) as [r'|]; [|done].
  destruct (_ && _) eqn:Hb; [|done]. injection H as <-. by bool_hyps.
Qed.

#[export] Instance durable_contract :
  RequestStoreContract is_response_completed (durable (ErrorValue := ErrorValue) is_response_completed) id.
Proof.
  split; cbn [durable op_claim op_complete op_fail op_release]; unfold transact, id.
  - intros rows t req h res rows' Hok [Hreq Hh] H. unfold claim, _request_identity in H. rewrite Hreq, Hh in H.
    cbn [andb ensure mbind result_bind] in H. destruct (rows !! (t, req)) as [r|] eqn:Hk.
    + specialize (Hok _ _ Hk). destruct (bool_decide _) eqn:E; bool_hyps.
      * unfold _claim_from_record in H. rewrite (same_claim _ r h Hok E) in H. by injection H as <- <-.
      * rewrite (conflict_claim _ r h Hok E) in H. by injection H as <- <-.
    + left. unfold validate_claim in H. simpl in H. rewrite Hh in H. by injection H as <- <-.
  - intros rows t req h events res rows' Hok H. destruct (complete _ _ _ _ _ _) as [[[] m]|] eqn:E;
      injection H as <- <-; [|done]. cbn [is_ok]. unfold complete, _request_identity in E. run_inv E.
    match goal with H : claimed_row _ _ _ _ = Some ?r |- _ => apply claimed_row_Some in H as (? & ? & ?); exists r end.
    match goal with H : validate_claim _ _ = Ok _ |- _ => apply completed_claim in H end. done.
  - intros rows t req h e res rows' Hok H. destruct (fail _ _ _ _ _) as [[[] m]|] eqn:E;
      injection H as <- <-; [right|by left]. unfold fail, _request_identity in E. run_inv E.
    match goal with H : claimed_row _ _ _ _ = Some ?r |- _ => apply claimed_row_Some in H as (Hk & Hs & Hh); exists r end.
    destruct (Hok _ _ Hk) as [_ Hr]. rewrite Hs in Hr. destruct Hr as [-> _]. done.
  - intros rows t req h res rows' H. destruct (release _ _ _ _) as [[[] m]|] eqn:E; injection H as <- <-; [|done].
    cbn [is_ok]. unfold release, _request_identity in E. run_inv E.
    match goal with H : claimed_row _ _ _ _ = Some ?r |- _ => apply claimed_row_Some in H as (? & ? & ?); by exists r end.
Qed.
End StoredRequests.
End StoredRequests.

(** ** Circuits *)

Module StoredCircuits.
Import CircuitBreaker.
Module D := DurableCircuits.

(** The circuit a row stands for *)
Definition circuit_of (r : D.GatewayCircuitRecord) : CircuitState :=
  mkCircuit (D.gc_failure_count r) (D.gc_opened_at r) (D.gc_probe_in_flight r) (D.gc_probe_started_at r).

(** A durable and a process-local breaker in corresponding states *)
Record same_circuits (c : D.Settings) (rows : gmap pystr D.GatewayCircuitRecord) (b : Breaker) : Prop := {
  sc_threshold : threshold b = D.failure_threshold c;
  sc_recovery : recovery b = D.recovery c;
  sc_states : states b = circuit_of <$> rows;
  sc_checks : map_Forall (λ _ r, D.circuit_checks r = true) rows;
}.

Lemma locked_row_state c rows b route now : same_circuits c rows b →
  circuit_of (D._locked_row rows route now) = route_state b route.
Proof.
  intros H. unfold D._locked_row, route_state. rewrite (sc_states _ _ _ H), lookup_fmap. by destruct (rows !! route).
Qed.

Lemma locked_row_checks c rows b route now : same_circuits c rows b → D.circuit_checks (D._locked_row rows route now) = true.
Proof. intros H. unfold D._locked_row. destruct (rows !! route) eqn:E; [by apply (sc_checks _ _ _ H) in E|done]. Qed.

Lemma same_circuits_set c rows b route r : same_circuits c rows b → D.circuit_checks r = true →
  same_circuits c (<[route := r]> rows) (set_state b route (circuit_of r)).
Proof.
  intros [Ht Hr Hs Hc] Hr'. split; [done|done| |].
  - cbn [set_state states]. by rewrite fmap_insert, Hs.
  - by apply map_Forall_insert_2.
Qed.

Definition agrees {A} (c : D.Settings) (r : result (A * gmap pystr D.GatewayCircuitRecord)) (m : result A * Breaker) : Prop :=
  ∃ a rows', r = Ok (a, rows') ∧ m.1 = Ok a ∧ same_circuits c rows' m.2.

Lemma save_agrees {A} c rows b route r (a : A) : same_circuits c rows b → D.circuit_checks r = true →
  agrees c (D.save rows route r a) (Ok a, set_state b route (circuit_of r)).
Proof.
  intros H Hr. unfold D.save. rewrite Hr. exists a, (<[route := r]> rows). split_and!; [done|done|]. by apply same_circuits_set.
Qed.

(** The durable circuit breaker answers exactly as the process-local one, call by call, and the two stay in corresponding
    states, as long as the local one has room for the route. *)
Theorem durable_breaker_agrees c rows b route now :
  same_circuits c rows b → at_capacity b route = false → route_name_ok route = true →
  agrees c (D.allow c (utc now) rows route) (allow now b route) ∧
  agrees c (D.record_success (utc now) rows route) (record_success b route) ∧
  agrees c (D.record_failure c (utc now) rows route) (record_failure now b route).
Proof.
  intros Hsame Hcap Hroute. unfold D.allow, D.record_success, D.record_failure, allow, record_success, record_failure.
  unfold _route_name. rewrite Hroute, Hcap. cbn [ensure mbind result_bind].
  unfold _aware_utc. rewrite normalize_utc. cbn [mbind result_bind].
  pose proof (locked_row_checks c rows b route now Hsame) as Hchk.
  rewrite <- !(locked_row_state c rows b route now Hsame). set (row := D._locked_row rows route now) in *.
  rewrite (sc_recovery _ _ _ Hsame), (sc_threshold _ _ _ Hsame). split_and!.
  - cbn [circuit_of opened_at probe_in_flight probe_started_at failures]. destruct (D.gc_opened_at row) as [o|] eqn:Ho;
      [|by apply save_agrees].
    destruct (now - o <? D.recovery c)%Z; [by apply save_agrees|].
    destruct (D.gc_probe_in_flight row && _); [by apply save_agrees|].
    apply save_agrees; [done|]. unfold D.circuit_checks in *. cbn. bool_hyps. rewrite andb_true_r. by apply Z.leb_le.
  - by apply (save_agrees c rows b route (D.mkCircuitRow 0 None None false now) tt).
  - cbn [circuit_of failures opened_at]. apply save_agrees; [done|]. unfold D.circuit_checks in *. cbn. bool_hyps.
    rewrite andb_true_r. apply Z.leb_le. lia.
Qed.
End StoredCircuits.

(** ** Rates *)

Module StoredRates.
Import DurableRates.
Section StoredRates.
Context (l : Limiter) (key : uuid * pystr).

(** The calls of all keys under a clock that does not go back, and the times at which [key] was granted. *)
Inductive rate_history : Rows → Z → list Z → Prop :=
| history_start now : rate_history ∅ now []
| history_call rows now g now' t r out rows' :
    rate_history rows now g → (now ≤ now')%Z → acquire l (utc now') rows t r = Ok (out, rows') →
    rate_history rows' now' (g ++ (if bool_decide ((t, r) = key) && is_none out then [now'] else [])).

Abbreviation W := (window l).
Abbreviation grants T g := (Z.of_nat (Rates.grants_in W T g)).

(** Grants are those of the current fixed window after older ones, of which a later span sees at most one window. *)
Record windows_inv (now : Z) (row : GatewayRateLimitRecord) (g old cur : list Z) : Prop := {
  wi_split : g = old ++ cur;
  wi_count : Z.of_nat (length cur) = rt_request_count row;
  wi_limit : (rt_request_count row ≤ limit l)%Z;
  wi_started : (rt_window_started_at row ≤ now)%Z;
  wi_old_before : Forall (λ t, t ≤ rt_window_started_at row)%Z old;
  wi_head : ∀ t rest, cur = t :: rest → t = rt_window_started_at row;
  wi_old : ∀ T, (rt_window_started_at row ≤ T)%Z → (grants T old ≤ limit l - 1)%Z;
  wi_all : ∀ T, (grants T g ≤ 2 * limit l - 1)%Z;
  wi_past : Forall (λ t, t ≤ now)%Z g;
}.

Definition history_inv (rows : Rows) (now : Z) (g : list Z) : Prop :=
  match rows !! key with
  | None => g = []
  | Some row => ∃ old cur, windows_inv now row g old cur ∧ cur ≠ []
  end.

Hypothesis Hok : limiter_ok l = true.

Lemma limiter_bounds : (1 ≤ limit l)%Z ∧ (0 < W)%Z.
Proof. clear -Hok. unfold limiter_ok in Hok. bool_hyps. lia. Qed.

(** A span that ends before a grant does not see it. *)
Lemma grants_snoc_before T g t : (T < t)%Z → grants T (g ++ [t]) = grants T g.
Proof.
  intros H. rewrite Rates.grants_in_app. unfold Rates.grants_in at 2. rewrite filter_cons_False, filter_nil; [cbn; lia|].
  unfold Rates.in_span. lia.
Qed.
Lemma grants_snoc_le T g t : (grants T (g ++ [t]) ≤ grants T g + 1)%Z.
Proof. rewrite Rates.grants_in_app. pose proof (Rates.grants_in_length W T [t]). cbn [length] in *. lia. Qed.

(** A grant that opens a window *)
Lemma open_window now now' row g old cur : windows_inv now row g old cur → (now ≤ now')%Z →
  (W ≤ now' - rt_window_started_at row)%Z → windows_inv now' (mkRate now' 1) (g ++ [now']) g [now'].
Proof.
  intros [-> Hc Hl Hs Hb Hh Ho Ha Hp] Hn Hw. pose proof limiter_bounds as [Hl1 HW].
  assert (∀ T, (now' ≤ T)%Z → (grants T (old ++ cur) ≤ limit l - 1)%Z) as Hone.
  { intros T HT. rewrite Rates.grants_in_app, (Rates.grants_in_old W T old now');
      [|eapply Forall_impl; [exact Hb|]; cbv beta; lia|done].
    destruct cur as [|t rest]; [cbn; lia|]. specialize (Hh t rest eq_refl). subst t.
    pose proof (Rates.grants_in_app W T [rt_window_started_at row] rest) as E. cbn [app] in E. rewrite E.
    rewrite (Rates.grants_in_old W T [_] now') by (repeat constructor; lia || done).
    pose proof (Rates.grants_in_length W T rest). cbn [length] in *. lia. }
  split; cbn [rt_request_count rt_window_started_at length]; [done|lia|lia|lia| |by intros t rest [= <- _]|done| |].
  - eapply Forall_impl; [exact Hp|]. cbv beta. lia.
  - intros T. destruct (Z.lt_ge_cases T now'); [rewrite grants_snoc_before by done; apply Ha|].
    pose proof (grants_snoc_le T (old ++ cur) now'). specialize (Hone T ltac:(done)). lia.
  - apply Forall_app. split; [eapply Forall_impl; [exact Hp|]; cbv beta; lia|]. by repeat constructor.
Qed.

(** A grant within the window *)
Lemma grant_in_window now now' row g old cur : windows_inv now row g old cur → (now ≤ now')%Z →
  (rt_request_count row < limit l)%Z → (cur = [] → now' = rt_window_started_at row) →
  windows_inv now' (mkRate (rt_window_started_at row) (rt_request_count row + 1)) (g ++ [now']) old (cur ++ [now']).
Proof.
  intros [-> Hc Hl Hs Hb Hh Ho Ha Hp] Hn Hlim Hfirst. split; cbn [rt_request_count rt_window_started_at].
  - by rewrite app_assoc.
  - rewrite length_app. cbn [length]. lia.
  - lia.
  - lia.
  - done.
  - intros t rest E. destruct cur as [|t' cur]; cbn [app] in E; injection E as <- _; [by apply Hfirst|by eapply Hh].
  - done.
  - intros T. destruct (Z.lt_ge_cases T now'); [rewrite grants_snoc_before by done; apply Ha|].
    rewrite <- app_assoc, Rates.grants_in_app. specialize (Ho T ltac:(lia)).
    pose proof (Rates.grants_in_length W T (cur ++ [now'])) as H1. rewrite length_app in H1. cbn [length] in H1. lia.
  - apply Forall_app. split; [eapply Forall_impl; [exact Hp|]; cbv beta; lia|]. by repeat constructor.
Qed.

Lemma acquire_row now rows t r out rows' : acquire l (utc now) rows t r = Ok (out, rows') →
  let row := default (mkRate now 0) (rows !! (t, r)) in
  ∃ row', rows' = <[(t, r) := row']> rows ∧
    ((W ≤ now - rt_window_started_at row ∧ out = None ∧ row' = mkRate now 1)%Z
     ∨ (now - rt_window_started_at row < W ∧ limit l ≤ rt_request_count row ∧
        out = Some (Z.max 0 (W - (now - rt_window_started_at row))) ∧ row' = row)%Z
     ∨ (now - rt_window_started_at row < W ∧ rt_request_count row < limit l ∧ out = None ∧
        row' = mkRate (rt_window_started_at row) (rt_request_count row + 1))%Z).
Proof.
  intros H row. unfold acquire, _route_name, _aware_utc in H. rewrite normalize_utc in H.
  apply bind_Ok in H as (r' & Hr & H). run_inv Hr. cbn [mbind result_bind] in H. fold row in H.
  destruct (_ <=? _)%Z eqn:E1 in H; [injection H as <- <-; bool_hyps; eexists; split; [done|]; by left|].
  destruct (_ <=? _)%Z eqn:E2 in H; injection H as <- <-; bool_hyps; (eexists; split; [done|]; right); [by left|by right].
Qed.

Lemma windows_later now now' row g old cur : windows_inv now row g old cur → (now ≤ now')%Z → windows_inv now' row g old cur.
Proof.
  intros [? ? ? ? ? ? ? ? Hp] Hn. split; try done; [lia|]. eapply Forall_impl; [exact Hp|]. cbv beta. lia.
Qed.

Lemma fresh_window now : windows_inv now (mkRate now 0) [] [] [].
Proof. pose proof limiter_bounds. split; cbn; try done; lia. Qed.

Lemma rate_history_inv rows now g : rate_history rows now g → history_inv rows now g.
Proof.
  induction 1 as [now|rows now g now' t r out rows' _ IH Hn H]; [unfold history_inv; by rewrite lookup_empty|].
  apply acquire_row in H as (row' & -> & Hcase). unfold history_inv in *. rewrite lookup_insert.
  destruct (decide ((t, r) = key)) as [<-|Hk].
  2: { rewrite bool_decide_false by done. cbn [andb]. rewrite app_nil_r.
       destruct (rows !! key) as [row|]; [|done]. destruct IH as (old & cur & Hw & Hne). exists old, cur. split; [by eapply windows_later|done]. }
  rewrite bool_decide_true by done. cbn [andb].
  set (row := default (mkRate now' 0) (rows !! (t, r))) in *.
  assert (∃ old cur, windows_inv now' row g old cur ∧ (cur = [] → rt_window_started_at row = now' ∧ rt_request_count row = 0)%Z)
    as (old & cur & Hw & Hempty).
  { unfold row. destruct (rows !! (t, r)) as [row0|]; cbn [default].
    - destruct IH as (old & cur & Hw & Hne). exists old, cur. split; [by eapply windows_later|done].
    - subst g. exists [], []. split; [apply fresh_window|done]. }
  pose proof limiter_bounds. destruct Hcase as [(Hw1 & -> & ->)|[(_ & Hlim & -> & ->)|(_ & Hlim & -> & ->)]]; cbn [is_none].
  - exists g, [now']. split; [|done]. eapply open_window; [exact Hw|lia|done].
  - rewrite app_nil_r. exists old, cur. split; [done|]. intros Hc. destruct (Hempty Hc) as [_ ?]. lia.
  - exists old, (cur ++ [now']). split; [|by destruct cur]. eapply grant_in_window; [exact Hw|lia|done|].
    intros Hc. by destruct (Hempty Hc).
Qed.

(** The durable limiter grants a tenant and route at most its limit per fixed window and at most twice its limit
    less one in any span of the window's length, and a refusal names a wait after which the same call is granted. *)
Theorem fixed_window_respected rows now g :
  rate_history rows now g →
  (∀ T, Rates.grants_in W T g ≤ 2 * Z.to_nat (limit l) - 1) ∧
  (∀ now' wait rows', acquire l (utc now') rows key.1 key.2 = Ok (Some wait, rows') →
    ∃ rows'', acquire l (utc (now' + wait)) rows' key.1 key.2 = Ok (None, rows'')).
Proof.
  intros Hh. pose proof limiter_bounds as [Hl HW]. split.
  - intros T. pose proof (rate_history_inv rows now g Hh) as Hi. unfold history_inv in Hi.
    destruct (rows !! key) as [row|]; [|subst g; cbn; lia]. destruct Hi as (old & cur & Hw & _). pose proof (wi_all _ _ _ _ _ Hw T). lia.
  - intros now' wait rows' H. pose proof H as H0. apply acquire_row in H as (row' & -> & Hcase). cbv zeta in Hcase.
    set (row := default (mkRate now' 0) (rows !! (key.1, key.2))) in *.
    destruct Hcase as [(_ & ? & _)|[(Hlt & Hlim & [= ->] & ->)|(_ & _ & ? & _)]]; [done| |done].
    unfold acquire, _route_name, _aware_utc in *. rewrite !normalize_utc in *.
    destruct (route_name_ok key.2); [|done]. cbn [ensure mbind result_bind] in *. rewrite lookup_insert_eq. cbn [default id].
    rewrite (proj2 (Z.leb_le W _)); [by eexists|]. lia.
Qed.
End StoredRates.
End StoredRates.

Lemma route_char_visible c : (in_range 97 122 c || in_range 48 57 c || (c =? 45)%N) = true → is_white_space c = false.
Proof.
  intros H. apply not_true_iff_false. intros Hw. unfold in_range, is_white_space in *.
  repeat setoid_rewrite orb_true_iff in H. repeat setoid_rewrite orb_true_iff in Hw. unfold in_range in *.
  repeat setoid_rewrite andb_true_iff in H. repeat setoid_rewrite andb_true_iff in Hw.
  repeat setoid_rewrite N.leb_le in H. repeat setoid_rewrite N.leb_le in Hw.
  repeat setoid_rewrite N.eqb_eq in H. repeat setoid_rewrite N.eqb_eq in Hw. lia.
Qed.

Lemma route_name_identifier s : route_name_ok s = true → identifier_string s = Ok s.
Proof.
  unfold route_name_ok. intros [Hlen H]%andb_true_iff. apply Nat.leb_le in Hlen. destruct s as [|c s]; [done|].
  apply andb_true_iff in H as [Hc H]. unfold identifier_string. rewrite strip_none.
  - rewrite (proj2 (Nat.leb_le (length (c :: s)) 255)) by lia. done.
  - constructor; [apply route_char_visible; by rewrite Hc|]. apply Forall_forall. intros x Hx.
    rewrite forallb_forall in H. apply route_char_visible, H. by apply list_elem_of_In.
Qed.

(** ** Capacity *)

Module StoredCapacity.
Import CapacityStore DurableCapacity.

Abbreviation Leases := (gmap uuid GatewayCapacityLeaseRecord).

(** Tokens held by the leases of one token window of a route *)
Definition in_window (name : pystr) (start : timestamp) (l : GatewayCapacityLeaseRecord) : bool :=
  of_route name l && (gl_token_window_started_at l =? start)%Z.
Definition reserved_in (leases : Leases) (name : pystr) (start : timestamp) : Z :=
  sum_where gl_reserved_tokens (in_window name start) leases.

(** The row of a route accounts for every lease of its current window. *)
Record accounts (leases : Leases) (name : pystr) (r : GatewayProviderCapacityRecord) : Prop := {
  ac_started : ∀ k l, leases !! k = Some l → gl_route_name l = name →
    (gl_token_window_started_at l ≤ pr_token_window_started_at r)%Z;
  ac_tokens : (reserved_in leases name (pr_token_window_started_at r) ≤ pr_accounted_tokens r)%Z;
}.

Record leases_inv (leases : Leases) : Prop := {
  li_row : ∀ k l, leases !! k = Some l → gl_id l = k ∧ (1 ≤ gl_reserved_tokens l)%Z ∧ route_name_ok (gl_route_name l) = true;
  li_unique : ∀ k k' l l', leases !! k = Some l → leases !! k' = Some l' →
    gl_tenant_id l = gl_tenant_id l' → gl_request_id l = gl_request_id l' → l = l';
}.

Record tables_inv (t : Tables) : Prop := {
  ti_leases : leases_inv (capacity_leases t);
  ti_route : ∀ k l, capacity_leases t !! k = Some l → is_Some (routes t !! gl_route_name l);
  ti_accounts : ∀ name r, routes t !! name = Some r → accounts (capacity_leases t) name r ∧ route_checks r = true;
}.

Lemma leases_sub leases leases' : leases_inv leases → leases' ⊆ leases → leases_inv leases'.
Proof.
  intros [H1 H2] Hsub. split.
  - intros k l Hk. by apply H1, (lookup_weaken _ _ _ _ Hk Hsub).
  - intros k k' l l' Hk Hk'. eapply H2; by eapply lookup_weaken.
Qed.

Lemma accounts_sub leases leases' name r : leases_inv leases → leases' ⊆ leases → accounts leases name r → accounts leases' name r.
Proof.
  intros [H1 _] Hsub [H2 H3]. split.
  - intros k l Hk. eapply H2. by eapply lookup_weaken.
  - etransitivity; [|exact H3]. apply sum_where_mono.
    + intros k l Hk _. destruct (H1 k l Hk) as (_ & ? & _). lia.
    + intros k l Hk HP. split; [by eapply lookup_weaken|done].
Qed.

(** Rows with the same token window account for the same leases. *)
Lemma accounts_same leases name r r' : pr_token_window_started_at r' = pr_token_window_started_at r →
  (pr_accounted_tokens r ≤ pr_accounted_tokens r')%Z → accounts leases name r → accounts leases name r'.
Proof. intros E Ha [H1 H2]. split; rewrite E; [done|lia]. Qed.

(** A window without leases *)
Lemma accounts_fresh leases name r : (∀ k l, leases !! k = Some l → gl_route_name l = name →
    (gl_token_window_started_at l < pr_token_window_started_at r)%Z) → (0 ≤ pr_accounted_tokens r)%Z → accounts leases name r.
Proof.
  intros H Ha. split; [intros k l Hk E; specialize (H k l Hk E); lia|].
  unfold reserved_in. rewrite sum_where_zero; [done|]. intros k l Hk. unfold in_window, of_route.
  destruct (bool_decide _) eqn:Hb; [|done]. bool_hyps. specialize (H k l Hk Hb). apply Z.eqb_neq. lia.
Qed.

(** The route row of [_route_capacity]: configured, current, and accounting for the leases *)
Lemma route_capacity_ok c t name now r : settings_ok c = true → tables_inv t → _route_capacity c t name now = Ok r →
  accounts (capacity_leases t) name r ∧ pr_request_limit r = provider_request_limit c ∧
  pr_token_limit r = provider_token_limit c ∧ pr_token_window r = token_window c.
Proof.
  intros Hc Hinv H. unfold _route_capacity in H. run_inv H.
  set (row := default _ (routes t !! name)) in *.
  assert (accounts (capacity_leases t) name row) as Hrow.
  { unfold row. destruct (routes t !! name) as [r|] eqn:E; [apply (ti_accounts t Hinv _ _ E)|].
    apply accounts_fresh; [|done]. intros k l Hk <-. destruct (ti_route t Hinv k l Hk) as [r Hr]. congruence. }
  destruct (negb _ || negb _ || negb _) eqn:Hdiff.
  - split_and!; [|done..]. by eapply accounts_same; [| |exact Hrow].
  - bool_hyps. by split_and!.
Qed.

Lemma reset_ok leases name r now r' : (0 < pr_token_window r)%Z → accounts leases name r → _reset_token_window r now = Ok r' →
  accounts leases name r' ∧ pr_request_limit r' = pr_request_limit r ∧ pr_token_limit r' = pr_token_limit r.
Proof.
  intros Hw Ha H. unfold _reset_token_window in H. run_inv H. destruct (_ <=? _)%Z eqn:E; [|done]. bool_hyps.
  split; [|done]. apply accounts_fresh; [|done]. intros k l Hk El. pose proof (ac_started _ _ _ Ha k l Hk El). cbn. lia.
Qed.

Lemma save_route_ok d rts leases name r t' : tables_inv (mkTables d rts leases) → accounts leases name r →
  save_route (mkTables d rts leases) name r = Ok t' →
  tables_inv t' ∧ routes t' !! name = Some (stored_route r) ∧ capacity_leases t' = leases ∧ db t' = d.
Proof.
  intros [H1 H2 H3] Ha H. unfold save_route in H. run_inv H. cbn [routes capacity_leases db] in *.
  split_and!; [|apply lookup_insert_eq|done|done]. split; cbn [routes capacity_leases]; [done| |].
  - intros k l Hk. rewrite lookup_insert. case_decide; [by eexists|]. by eapply H2.
  - intros name' r'. rewrite lookup_insert. case_decide; [intros [= <-]; subst|apply H3].
    split; [|done]. by eapply accounts_same; [| |exact Ha].
Qed.

Lemma grant_ok t row r t' : tables_inv t → capacity_leases t !! gl_id row = None →
  (∀ k l, capacity_leases t !! k = Some l → gl_tenant_id l = gl_tenant_id row → gl_request_id l ≠ gl_request_id row) →
  (1 ≤ gl_reserved_tokens row)%Z → route_name_ok (gl_route_name row) = true → routes t !! gl_route_name row = Some r →
  gl_token_window_started_at row = pr_token_window_started_at r →
  (reserved_in (capacity_leases t) (gl_route_name row) (pr_token_window_started_at r) + gl_reserved_tokens row
     ≤ pr_accounted_tokens r)%Z →
  save_lease t row = Ok t' → tables_inv t' ∧ capacity_leases t' = <[gl_id row := row]> (capacity_leases t) ∧ routes t' = routes t.
Proof.
  intros [[L1 L2] H2 H3] Hnew Huniq Hres Hname Hr Hst Htok H. unfold save_lease in H. run_inv H. cbn [capacity_leases routes].
  split; [|done]. split; cbn [capacity_leases routes]; [split| |].
  - intros k l. rewrite lookup_insert. case_decide; [by intros [= <-]|apply L1].
  - intros k k' l l'. rewrite !lookup_insert. repeat case_decide; intros; simplify_eq; eauto; exfalso.
    + by eapply Huniq.
    + by eapply Huniq.
  - intros k l. rewrite lookup_insert. case_decide; [intros [= <-]; by eexists|apply H2].
  - intros name r' Hr'. destruct (H3 _ _ Hr') as [[A1 A2] Hchk]. split; [|done]. split.
    + intros k l. rewrite lookup_insert. case_decide; [intros [= <-] <-|apply A1].
      rewrite Hr in Hr'. injection Hr' as <-. lia.
    + unfold reserved_in in *. rewrite sum_where_insert_new by done.
      destruct (in_window name (pr_token_window_started_at r') row) eqn:Hw; [|lia].
      unfold in_window, of_route in Hw. bool_hyps. subst name. rewrite Hr in Hr'. injection Hr' as <-. lia.
Qed.

Lemma lease_domain_fields row lease : _lease_domain row = Ok lease →
  cl_id lease = gl_id row ∧ cl_tenant_id lease = gl_tenant_id row ∧ cl_request_id lease = gl_request_id row ∧
  (1 ≤ gl_reserved_tokens row)%Z.
Proof. unfold _lease_domain, validate_lease. intros H. run_inv H. cbn in *. bool_hyps. done. Qed.

Lemma ensure_quota_row d tenant_id q now d' row : ensure_tenant_quota d tenant_id q now = (d', row) →
  tenant_quotas d' !! tenant_id = Some row.
Proof.
  unfold ensure_tenant_quota. destruct (tenant_quotas d !! tenant_id) eqn:E; intros [= <- <-]; [done|].
  apply lookup_insert_eq.
Qed.

(** The limits a fresh grant respects *)
Record within_limits (c : Settings) (t : Tables) (tenant_id : uuid) (route_name : pystr) : Prop := {
  wl_tenant : ∃ q, tenant_quotas (db t) !! tenant_id = Some q ∧
    (Z.of_nat (count_where (of_tenant tenant_id) (capacity_leases t)) ≤ tq_max_gateway_requests q)%Z;
  wl_route : (Z.of_nat (count_where (of_route route_name) (capacity_leases t)) ≤ provider_request_limit c)%Z;
  wl_tokens : ∃ r, routes t !! route_name = Some r ∧
    (reserved_in (capacity_leases t) route_name (pr_token_window_started_at r) ≤ pr_accounted_tokens r
     ≤ provider_token_limit c)%Z;
}.

(** A lease that was already held for the request *)
Definition held (t : Tables) (tenant_id : uuid) (request_id : pystr) (lease : GatewayCapacityLease) : Prop :=
  ∃ row, capacity_leases t !! cl_id lease = Some row ∧ _lease_domain row = Ok lease ∧ gl_tenant_id row = tenant_id ∧
    gl_request_id row = request_id.

Lemma prune_ok d t leases : tables_inv t → leases ⊆ capacity_leases t → tables_inv (mkTables d (routes t) leases).
Proof.
  intros [H1 H2 H3] Hsub. split; cbn [routes capacity_leases].
  - by eapply leases_sub.
  - intros k l Hk. eapply H2. by eapply lookup_weaken.
  - intros name r Hr. destruct (H3 name r Hr). split; [|done]. by eapply accounts_sub.
Qed.

(** A grant below every limit keeps the tables consistent and within the limits. *)
Lemma grant_limits c d quota rts leases route row t1 t2 :
  tables_inv (mkTables d rts leases) → accounts leases (gl_route_name row) route →
  tenant_quotas d !! gl_tenant_id row = Some quota → (1 ≤ gl_reserved_tokens row)%Z → route_name_ok (gl_route_name row) = true → leases !! gl_id row = None →
  scalar_where (λ l, of_tenant (gl_tenant_id row) l && bool_decide (gl_request_id l = gl_request_id row)) leases = None →
  (Z.of_nat (count_where (of_tenant (gl_tenant_id row)) leases) < tq_max_gateway_requests quota)%Z →
  (Z.of_nat (count_where (of_route (gl_route_name row)) leases) < provider_request_limit c)%Z →
  (pr_accounted_tokens route + gl_reserved_tokens row ≤ provider_token_limit c)%Z →
  gl_token_window_started_at row = pr_token_window_started_at route →
  save_route (mkTables d rts leases) (gl_route_name row) (mkRoute (pr_request_limit route) (pr_token_limit route)
    (pr_token_window route) (pr_token_window_started_at route) (pr_accounted_tokens route + gl_reserved_tokens row)
    (gl_acquired_at row)) = Ok t1 →
  save_lease t1 row = Ok t2 →
  tables_inv t2 ∧ within_limits c t2 (gl_tenant_id row) (gl_route_name row).
Proof.
  intros Hinv1 Hacc Hq Hn Hname Hfree Hex Htenant Hlimit Htokens Est Hsave Hlease. set (counted := mkRoute _ _ _ _ _ _) in Hsave.
  assert (accounts leases (gl_route_name row) counted) as Hcounted by (eapply accounts_same; [| |exact Hacc]; cbn; [done|lia]).
  destruct (save_route_ok _ _ _ _ _ _ Hinv1 Hcounted Hsave) as (Hinv2 & Hr & El & Ed).
  destruct (grant_ok t1 row (stored_route counted) t2) as (Hinv3 & El' & Er'); rewrite ?El; [done|done| |done|done|done|done| |done|].
  { intros k l Hk Et Ereq. pose proof (scalar_where_None _ _ _ _ Hex Hk) as HP. unfold of_tenant in HP.
    rewrite !bool_decide_true in HP by done. done. }
  { pose proof (ac_tokens _ _ _ Hacc). cbn. lia. }
  split; [done|]. rewrite El in El'. split.
  - exists quota. replace (db t2) with d by (unfold save_lease in Hlease; by run_inv Hlease).
    split; [done|]. rewrite El', count_where_insert_new by done. destruct (of_tenant _ row); lia.
  - rewrite El', count_where_insert_new by done. destruct (of_route _ row); lia.
  - exists (stored_route counted). rewrite Er'. split; [done|]. split; [|cbn; lia].
    rewrite <- Er' in Hr. exact (ac_tokens _ _ _ (proj1 (ti_accounts _ Hinv3 _ _ Hr))).
Qed.

Lemma acquire_ok c clock id t tenant_id route_name request_id n dur claim t' :
  settings_ok c = true → tables_inv t →
  acquire c clock id t tenant_id route_name request_id n dur = Ok (claim, t') →
  tables_inv t' ∧
  match claim with
  | Granted lease => held t tenant_id request_id lease ∨ within_limits c t' tenant_id route_name
  | Rejected _ _ => capacity_leases t' ⊆ capacity_leases t
  end.
Proof.
  intros Hc Hinv H. unfold acquire, _validated_route, _validated_request_id, _bounded_integer, _bounded_seconds in H.
  apply bind_Ok in H as (v & Hv & H). assert (v = route_name ∧ route_name_ok route_name = true) as [-> Hname] by (by run_inv Hv).
  apply bind_Ok in H as (v & Hv' & H). assert (v = request_id) as -> by (by run_inv Hv').
  apply bind_Ok in H as (v & Hn & H). assert (v = n ∧ 1 ≤ n)%Z as [-> Hn1] by (run_inv Hn; by bool_hyps).
  apply bind_Ok in H as (v & Hd & H). clear Hv Hv' Hn Hd.
  apply bind_Ok in H as (now & _ & H). destruct (ensure_tenant_quota _ _ _ _) as [d quota] eqn:Hq.
  apply bind_Ok in H as (route & Hroute & H). cbv zeta in H.
  set (leases := filter _ (capacity_leases t)) in H.
  assert (leases ⊆ capacity_leases t) as Hsub by apply map_filter_subseteq.
  destruct (route_capacity_ok _ _ _ _ _ Hc Hinv Hroute) as (Hacc & Elim & Etok & Ewin).
  apply (accounts_sub _ leases _ _ (ti_leases t Hinv) Hsub) in Hacc.
  assert (tables_inv (mkTables d (routes t) leases)) as Hinv1 by by apply prune_ok.
  assert (∀ scope retry r claim' t'', accounts leases route_name r → rejection scope retry = Ok claim' →
    save_route (mkTables d (routes t) leases) route_name r = Ok t'' →
    tables_inv t'' ∧ match claim' with
      | Granted lease => held t tenant_id request_id lease ∨ within_limits c t'' tenant_id route_name
      | Rejected _ _ => capacity_leases t'' ⊆ capacity_leases t
      end) as Hreject.
  { intros scope retry r claim' t'' Hr Hrej Hsave. unfold rejection in Hrej. run_inv Hrej.
    destruct (save_route_ok _ _ _ _ _ _ Hinv1 Hr Hsave) as (? & _ & -> & _). done. }
  destruct (scalar_where _ leases) as [existing|] eqn:Hex.
  - run_inv H. apply scalar_where_Some in Hex as [HP [k Hk]]. unfold of_tenant in HP. bool_hyps.
    match goal with H : save_route _ _ _ = Ok _ |- _ => destruct (save_route_ok _ _ _ _ _ _ Hinv1 Hacc H) as (? & _ & _ & _) end.
    split; [done|left]. exists existing.
    match goal with H : _lease_domain existing = Ok _ |- _ => pose proof (lease_domain_fields _ _ H) as (-> & _) end.
    destruct (li_row _ (ti_leases _ Hinv1) k existing Hk) as (-> & _ & _). split_and!; [by eapply lookup_weaken|done|done|done].
  - destruct (tq_max_gateway_requests quota <=? _)%Z eqn:Htenant; [run_inv H; by eapply Hreject|].
    destruct (pr_request_limit route <=? _)%Z eqn:Hlimit; [run_inv H; by eapply Hreject|].
    apply bind_Ok in H as (route' & Hreset & H).
    destruct (reset_ok leases route_name route now route') as (Hacc' & Elim' & Etok'); [|done|done|].
    { rewrite Ewin. unfold settings_ok in Hc. by bool_hyps. }
    destruct (pr_token_limit route' <? _)%Z eqn:Htokens; [run_inv H; by eapply Hreject|].
    apply bind_Ok in H as (_u & Hfree & H). apply ensure_Ok in Hfree. cbv zeta in H.
    apply bind_Ok in H as (t1 & Hsave & H). apply bind_Ok in H as (t2 & Hlease & H). apply bind_Ok in H as (lease & Hdom & [= <- <-]).
    apply Z.leb_gt in Htenant, Hlimit. apply Z.ltb_ge in Htokens.
    destruct (grant_limits c d quota (routes t) leases route' (mkLeaseRow id tenant_id route_name request_id n
      (pr_token_window_started_at route') now (now + v)) t1 t2) as [Hinv2 Hwithin];
      cbn [gl_id gl_tenant_id gl_route_name gl_request_id gl_reserved_tokens gl_token_window_started_at gl_acquired_at];
      [done|done|by eapply ensure_quota_row|done|done| |done|done|lia|lia|done|done|done|by split; [|right]].
    by destruct (leases !! id).
Qed.

Lemma lease_route t k row lease : tables_inv t → capacity_leases t !! k = Some row → _lease_domain row = Ok lease →
  cl_route_name lease = gl_route_name row.
Proof.
  intros Hinv Hk H. destruct (li_row _ (ti_leases t Hinv) k row Hk) as (_ & _ & Hn). unfold _lease_domain, validate_lease in H.
  cbn [cl_route_name] in H. rewrite (route_name_identifier _ Hn) in H. by run_inv H.
Qed.

Lemma release_ok clock t lease consumed t' : tables_inv t → release clock t lease consumed = Ok (tt, t') → tables_inv t'.
Proof.
  intros Hinv H. unfold release in H. apply bind_Ok in H as (_u & Hcons & H). apply ensure_Ok in Hcons.
  apply bind_Ok in H as (now & _ & H). destruct (capacity_leases t !! cl_id lease) as [row|] eqn:Hrow; [|by run_inv H].
  apply bind_Ok in H as (owned & Hdom & H). apply bind_Ok in H as (_u' & Heq & H). apply ensure_Ok in Heq.
  apply bind_Ok in H as (route & Hroute & H). apply require_Ok in Hroute. apply bind_Ok in H as (route' & Hreset & H).
  cbv zeta in H. apply bind_Ok in H as (t1 & Hsave & [= <-]). bool_hyps. subst owned.
  destruct (ti_accounts t Hinv _ _ Hroute) as [Hacc Hchk]. unfold route_checks in Hchk. bool_hyps.
  destruct (reset_ok (capacity_leases t) (cl_route_name lease) route now route') as (Hacc' & _ & _); [done|done|done|].
  assert (delete (cl_id lease) (capacity_leases t) ⊆ capacity_leases t) as Hsub by apply delete_subseteq.
  eapply (save_route_ok (db t) (routes t)); [by apply prune_ok| |exact Hsave].
  destruct (accounts_sub _ _ _ _ (ti_leases t Hinv) Hsub Hacc') as [A1 A2]. split; [exact A1|].
  cbn [pr_token_window_started_at pr_accounted_tokens]. case_bool_decide as Hw; [|done].
  destruct Hacc' as [_ A3]. unfold reserved_in in *. rewrite (sum_where_delete _ _ _ _ _ Hrow) in A3.
  assert (cl_route_name lease = gl_route_name row) as Ename by by eapply lease_route.
  unfold in_window at 1, of_route at 1 in A3.
  rewrite bool_decide_true, (proj2 (Z.eqb_eq _ _)) in A3 by done. cbn [andb] in A3. lia.
Qed.

(** A lease row replaced by one with another expiry *)
Lemma renew_ok clock t lease dur renewed t' : tables_inv t → renew clock t lease dur = Ok (renewed, t') → tables_inv t'.
Proof.
  intros Hinv H. unfold renew in H. apply bind_Ok in H as (d & _ & H). apply bind_Ok in H as (now & _ & H).
  apply bind_Ok in H as (row & Hrow & H). apply require_Ok in Hrow. apply bind_Ok in H as (owned & _ & H).
  apply bind_Ok in H as (_u & _ & H). cbv zeta in H. apply bind_Ok in H as (t1 & Hsave & H). apply bind_Ok in H as (? & _ & [= _ <-]).
  set (row' := mkLeaseRow _ _ _ _ _ _ _ _) in Hsave. unfold save_lease in Hsave. run_inv Hsave.
  destruct Hinv as [[L1 L2] H2 H3]. destruct (L1 _ _ Hrow) as (Eid & Hres & Hname). cbn [gl_id row'] in *. rewrite Eid in *.
  assert (∀ k l, <[cl_id lease := row']> (capacity_leases t) !! k = Some l → ∃ l0, capacity_leases t !! k = Some l0 ∧
    gl_id l = gl_id l0 ∧ gl_reserved_tokens l = gl_reserved_tokens l0 ∧ gl_route_name l = gl_route_name l0 ∧
    gl_tenant_id l = gl_tenant_id l0 ∧ gl_request_id l = gl_request_id l0 ∧
    gl_token_window_started_at l = gl_token_window_started_at l0) as Hold.
  { intros k l. rewrite lookup_insert. case_decide; [intros [= <-]; subst k; by exists row|]. intros Hk. by exists l. }
  split; cbn [capacity_leases routes]; [split| |].
  - intros k l (l0 & Hk & -> & -> & -> & _)%Hold. by apply L1.
  - intros k k' l l' Hk Hk' Et Er. destruct (Hold k l Hk) as (l0 & K0 & _ & _ & _ & Et0 & Er0 & _).
    destruct (Hold k' l' Hk') as (l1 & K1 & _ & _ & _ & Et1 & Er1 & _).
    assert (l0 = l1) as -> by (eapply L2; [done|done|congruence|congruence]).
    destruct (L1 _ _ K0) as [E0 _], (L1 _ _ K1) as [E1 _]. congruence.
  - intros k l (l0 & Hk & _ & _ & -> & _)%Hold. by eapply H2.
  - intros name r Hr. destruct (H3 name r Hr) as [[A1 A2] Hchk]. split; [|done]. split.
    + intros k l (l0 & Hk & _ & _ & -> & _ & _ & ->)%Hold. by eapply A1.
    + unfold reserved_in in *. rewrite (sum_where_delete _ _ _ _ _ Hrow) in A2.
      rewrite <- insert_delete_eq, sum_where_insert_new by apply lookup_delete_eq. exact A2.
Qed.

(** The tables along every history of capacity calls and quota changes, of any worker with any valid settings *)
Inductive capacity_step : Tables → Tables → Prop :=
| step_acquire c clock id t tenant_id route_name request_id n dur claim t' :
    settings_ok c = true → acquire c clock id t tenant_id route_name request_id n dur = Ok (claim, t') → capacity_step t t'
| step_release clock t lease consumed t' : release clock t lease consumed = Ok (tt, t') → capacity_step t t'
| step_renew clock t lease dur renewed t' : renew clock t lease dur = Ok (renewed, t') → capacity_step t t'
| step_quota q0 t tenant_id quota at_ value d' :
    TenantQuotas.set q0 (db t) tenant_id quota at_ = Ok (value, d') →
    capacity_step t (mkTables d' (routes t) (capacity_leases t)).

Lemma stored_step_inv t t' : tables_inv t → capacity_step t t' → tables_inv t'.
Proof.
  intros Hinv Hstep. destruct Hstep as [c clock id t ? ? ? ? ? ? t' Hc H|clock t lease n t' H|clock t lease dur r t' H|? t ? ? ? ? d' _].
  - exact (proj1 (acquire_ok _ _ _ _ _ _ _ _ _ _ _ Hc Hinv H)).
  - by eapply release_ok.
  - by eapply renew_ok.
  - by apply prune_ok.
Qed.

(** C37: durable admission: along every history of capacity calls by any workers and of quota changes, the row of each route
    accounts for every token its live leases reserved in the current window, and a grant either repeats
    the live lease of the same request or leaves the tenant within its quota, the route within its
    request limit and its tokens within the token limit. *)
Theorem durable_capacity_admission d t :
  star capacity_step (mkTables d ∅ ∅) t →
  (∀ name r, routes t !! name = Some r →
    (reserved_in (capacity_leases t) name (pr_token_window_started_at r) ≤ pr_accounted_tokens r)%Z) ∧
  (∀ c clock id tenant_id route_name request_id n dur lease t', settings_ok c = true →
    acquire c clock id t tenant_id route_name request_id n dur = Ok (Granted lease, t') →
    held t tenant_id request_id lease ∨ within_limits c t' tenant_id route_name).
Proof.
  intros Hstar. assert (tables_inv t) as Hinv.
  { eapply (star_invariant _ tables_inv stored_step_inv); [exact Hstar|].
    split; cbn [capacity_leases routes]; [split|..]; intros *; rewrite ?lookup_empty; done. }
  split.
  - intros name r Hr. exact (ac_tokens _ _ _ (proj1 (ti_accounts t Hinv name r Hr))).
  - intros c clock id tenant_id route_name request_id n dur lease t' Hc H.
    exact (proj2 (acquire_ok _ _ _ _ _ _ _ _ _ _ _ Hc Hinv H)).
Qed.
End StoredCapacity.
