(* ===== verification/GatewayClientProperties.v ===== *)
(** * Properties of the gateway client

    A stream that ends normally has yielded exactly what the request store keeps, every
    claim is settled and every resource given back however a stream ends, and the
    provider is called a bounded number of times for one logical request. *)

From stdpp Require Import base list sets gmap strings.
From Stdlib Require Import ZArith QArith Lia.
From S2P Require Import Prelude PyBase Domain Tables Contracts Transcripts Execution Recovery TaskPlans PyText Gateway Redaction AgentEvents PyEffects ToolTurn ModelTurn RunRepository GatewayPolicies GatewayClient GatewayProperties.

#[local] Open Scope nat_scope.

Module Client.
Import RequestStore Requests.

Abbreviation StoredRequest := (@Stored GatewayEvent ErrorDetail).
Abbreviation Table := (gmap (uuid * pystr) StoredRequest).
Abbreviation rows_ok := (table_ok (ErrorValue := ErrorDetail) is_completed).

Section Client.
Context {W : Type} (env : ClientEnvironment W) (config : GatewayClientConfig).
Context (request_size : GatewayRequest → Z) (request_hash : GatewayRequest → pystr).
Context (event_size : GatewayEvent → Z) (seconds_text : timedelta → pystr).
Context (request : GatewayRequest).

(** An invariant of the world, the request table, the capacity lease the request holds
    and how often the provider was asked for it *)
Context (ok : W → Prop) (view : W → Table) (held : W → option uuid) (contacts : W → nat).

Abbreviation key := (gq_tenant_id request, gq_request_id request).
Abbreviation hash := (request_hash request).

(** Calls of the other components leave the request's row and its provider calls alone;
    its lease may expire meanwhile. *)
Definition no_new_lease (w w' : W) : Prop := ∀ i, held w' = Some i → held w = Some i.
Definition world_kept (w w' : W) : Prop :=
  ok w → ok w' ∧ view w' !! key = view w !! key ∧ no_new_lease w w' ∧ contacts w' = contacts w.
Definition quiet {A} (f : W → A * W) : Prop := ∀ w, world_kept w (f w).2.

(** What a call of the request store leaves alone *)
Definition store_kept (w w' : W) : Prop := ok w → ok w' ∧ no_new_lease w w' ∧ contacts w' = contacts w.

(** What the client relies on: the contract of the request store, the effect of a
    capacity lease and of a provider call, and that nothing else interferes. *)
Class ClientLaws := {
  law_requests :: RequestStoreContract is_completed (ce_requests env) view;
  law_ok w : ok w → rows_ok (view w);
  law_claim w : identity_ok (gq_request_id request) hash →
    store_kept w (op_claim (ce_requests env) w (gq_tenant_id request) (gq_request_id request) hash).2;
  law_complete w e : store_kept w (op_complete (ce_requests env) w (gq_tenant_id request) (gq_request_id request) hash e).2;
  law_fail w e : store_kept w (op_fail (ce_requests env) w (gq_tenant_id request) (gq_request_id request) hash e).2;
  law_release w : store_kept w (op_release (ce_requests env) w (gq_tenant_id request) (gq_request_id request) hash).2;
  law_acquire w n d res w' :
    ok w → ce_acquire env w (gq_tenant_id request) (gq_route_name request) (gq_request_id request) n d = (res, w') →
    ok w' ∧ view w' !! key = view w !! key ∧ contacts w' = contacts w ∧
    match res with
    | Ret (CapacityStore.Granted lease) => held w' = Some (CapacityStore.cl_id lease)
    | _ => no_new_lease w w'
    end;
  law_free w lease n res w' : ok w → ce_release env w lease n = (res, w') →
    ok w' ∧ view w' !! key = view w !! key ∧ contacts w' = contacts w ∧ no_new_lease w w' ∧
    match res with Ret _ => held w' ≠ Some (CapacityStore.cl_id lease) | Raise _ => True end;
  law_gateway w items w' : ok w → ce_gateway env w request = (items, w') →
    ok w' ∧ view w' !! key = view w !! key ∧ no_new_lease w w' ∧ contacts w' = S (contacts w);
  law_renewed w lease : CapacityStore.cl_id (ce_heartbeat env w lease).1.1 = CapacityStore.cl_id lease;
  law_rate t r : quiet (λ w, ce_rate env w t r);
  law_wait_slot : quiet (ce_wait_slot env);
  law_heartbeat lease : quiet (λ w, ce_heartbeat env w lease);
  law_allow r : quiet (λ w, ce_allow env w r);
  law_success r : quiet (λ w, ce_record_success env w r);
  law_failure r : quiet (λ w, ce_record_failure env w r);
  law_close : quiet (ce_close env);
  law_interrupted : quiet (ce_interrupted env);
  law_shield : quiet (ce_shield env);
  law_sleep d : quiet (λ w, ce_sleep env w d);
  law_random : quiet (ce_random env);
  law_model_calls save t c : ce_model_calls env = Some save → quiet (λ w, save w t c);
  law_clock : quiet (ce_clock env);
}.
Context {laws : ClientLaws}.

Abbreviation client := (eff (ClientState W)).
Abbreviation row s := (view (gs_world s) !! key).
Abbreviation locals s := (gs_execution s).

(** What computations that only ask and wait leave alone *)
Definition kept (s s' : ClientState W) : Prop :=
  world_kept (gs_world s) (gs_world s') ∧ gs_free_slots s' = gs_free_slots s ∧
  gs_cleanup_required s' = gs_cleanup_required s ∧ gs_yielded s' = gs_yielded s ∧ locals s' = locals s.

#[local] Instance kept_preorder : PreOrder kept.
Proof.
  unfold kept, world_kept, no_new_lease. split; [done|]. intros s1 s2 s3 (Hw1&?&?&?&?) (Hw2&?&?&?&?).
  split; [|split_and!; congruence]. intros Ho1. destruct (Hw1 Ho1) as (Ho & ? & ? & ?). destruct (Hw2 Ho) as (? & ? & ? & ?).
  split_and!; [done|congruence|eauto|congruence].
Qed.

Lemma keeps_call {A} (f : W → outcome A * W) : quiet f → keeps kept (call f).
Proof. intros Hf s. unfold call. specialize (Hf (gs_world s)). by destruct (f (gs_world s)) as [r w]. Qed.
Lemma keeps_read {A} (f : W → A * W) : quiet f → keeps kept (read f).
Proof. intros Hf. apply keeps_call. intros w. specialize (Hf w). by destruct (f w). Qed.
Lemma keeps_wrapped {A} (m : client A) e : keeps kept m → keeps kept (wrapped m e).
Proof. intros Hm. unfold wrapped. keeps_auto. Qed.
#[local] Hint Resolve keeps_call keeps_read keeps_wrapped law_rate law_wait_slot law_heartbeat law_allow law_success law_failure
  law_close law_interrupted law_shield law_sleep law_random law_clock : keeps.

Lemma require_available_keeps : keeps kept (_require_available request).
Proof. unfold _require_available. keeps_auto. Qed.
Lemma validate_request_keeps : keeps kept (_validate_request config request_size request (W := W)).
Proof. unfold _validate_request. keeps_auto. Qed.
Lemma enforce_rate_limit_keeps : keeps kept (_enforce_rate_limit env seconds_text request).
Proof. unfold _enforce_rate_limit. keeps_auto. Qed.
Lemma require_closed_circuit_keeps : keeps kept (_require_closed_circuit env request).
Proof. unfold _require_closed_circuit. keeps_auto. Qed.
Lemma record_success_keeps : keeps kept (_record_circuit_success env request).
Proof. unfold _record_circuit_success. keeps_auto. Qed.
Lemma record_failure_keeps : keeps kept (_record_circuit_failure env request).
Proof. unfold _record_circuit_failure. keeps_auto. Qed.
Lemma close_stream_keeps : keeps kept (_close_stream env request).
Proof. unfold _close_stream. keeps_auto. Qed.
Lemma retry_delay_keeps n : keeps kept (_retry_delay env config n).
Proof. unfold _retry_delay. keeps_auto. Qed.
Lemma require_terminal_keeps l : keeps kept (_require_terminal_event request l (W := W)).
Proof. unfold _require_terminal_event. keeps_auto. Qed.
Lemma attribute_keeps c n : keeps kept (_attribute_model_call env request c n).
Proof.
  unfold _attribute_model_call. destruct (ce_model_calls env) as [save|] eqn:E; keeps_auto.
  apply keeps_call. by apply law_model_calls.
Qed.
Lemma priced_keeps e : keeps kept (priced env request e).
Proof. unfold priced. keeps_auto. Qed.
Lemma stored_events_keeps c : keeps kept (_stored_events_or_raise request c (W := W)).
Proof. unfold _stored_events_or_raise. keeps_auto. Qed.
#[local] Hint Resolve require_available_keeps validate_request_keeps enforce_rate_limit_keeps require_closed_circuit_keeps
  record_success_keeps record_failure_keeps close_stream_keeps retry_delay_keeps require_terminal_keeps attribute_keeps
  priced_keeps stored_events_keeps : keeps.
Lemma failed_attempt_keeps n d : keeps kept (failed_attempt env config request n d).
Proof. unfold failed_attempt. keeps_auto. Qed.
#[local] Hint Resolve failed_attempt_keeps : keeps.

(** What keeps the cleanup of an execution from its end: a second cancellation while a
    shielded operation is awaited, a release that is cancelled itself, or a heartbeat
    whose sleep raises, in a world that can occur *)
Definition disturbed : Prop :=
  (∃ w applied, ok w ∧ (ce_shield env w).1 = CancelledTwice applied) ∨
  (∃ w lease n, ok w ∧ (ce_release env w lease n).1 = Raise CancelledExn) ∨
  (∃ w lease, ok w ∧ (ce_heartbeat env w lease).1.2 = HB_CRASHED).

(** ** One execution

    [c0] and [slots] are the provider calls and the free slots when the execution
    starts; [h0] says that the request held a lease before; [excuse] is what a
    disturbed cleanup is excused with. *)
Section Execution.
Context (c0 : nat) (h0 : bool) (slots : Z) (excuse : Prop) (excused : disturbed → excuse).

(** Every lease the request holds is this one. *)
Definition holds_only (capacity : option (CapacityLease * Heartbeat)) (w : W) : Prop :=
  ∀ i, held w = Some i → h0 = true ∨ ∃ lease lost, capacity = Some (lease, lost) ∧ CapacityStore.cl_id lease = i.

Lemma holds_only_kept c w w' : no_new_lease w w' → holds_only c w → holds_only c w'.
Proof. intros Hn Hh i Hi. by apply Hh, Hn. Qed.

(** The state while an execution runs with [left_] provider calls to go: the row says
    whether the response is durable, and with which events.  [lost] says that the store
    has completed the request and the answer was lost. *)
Record running (lost : bool) (left_ : nat) (s : ClientState W) : Prop := {
  run_ok : ok (gs_world s);
  run_row : row s = Some (if ex_durable_completion (locals s)
                          then mkStored hash COMPLETED (ex_retained_events (locals s)) None
                          else if lost then mkStored hash COMPLETED (ex_retained_events (locals s)) None
                          else mkStored hash IN_PROGRESS [] None);
  run_completed : ex_completed (locals s) = true → ex_durable_completion (locals s) = true;
  run_slots : (gs_free_slots s + Z.b2z (ex_local_slot (locals s)) = slots)%Z;
  run_held : holds_only (ex_capacity (locals s)) (gs_world s);
  run_crash : ∀ lease, ex_capacity (locals s) = Some (lease, HB_CRASHED) → excuse;
  run_contacts : contacts (gs_world s) + left_ ≤ c0 + cf_max_attempts config;
  run_provider : ex_provider_contacted (locals s) = false →
    contacts (gs_world s) = c0 ∧ ex_durable_completion (locals s) = false ∧ lost = false;
  run_prefix : gs_yielded s `prefix_of` ex_retained_events (locals s);
}.

(** Where an execution stands: durable, in contact with the provider, the events of the
    attempt, those retained and those yielded *)
Definition stage := bool → bool → list GatewayEvent → list GatewayEvent → list GatewayEvent → Prop.
Definition stage_of (φ : stage) (s : ClientState W) : Prop :=
  φ (ex_durable_completion (locals s)) (ex_provider_contacted (locals s)) (ex_attempt_events (locals s))
    (ex_retained_events (locals s)) (gs_yielded s).
Definition at_with (lost : bool) (n : nat) (φ : stage) (s : ClientState W) : Prop := running lost n s ∧ stage_of φ s.
Abbreviation at_ := (at_with false).

Definition anywhere : stage := λ _ _ _ _ _, True.
Definition waiting : stage := λ d p _ rs _, d = false ∧ p = false ∧ rs = [].
Definition between : stage := λ d p _ rs _, d = false ∧ p = true ∧ rs = [].
Definition streaming (terminal : bool) : stage := λ d p as_ rs ys, d = false ∧ p = true ∧ as_ = rs ∧
  if terminal then ∃ c, rs = ys ++ [ResponseCompleted c] else rs = ys.
Definition broken : stage := λ d p as_ rs _, d = false ∧ p = true ∧ as_ = rs.
Definition committed (c : GatewayResponseCompleted) : stage := λ d p _ rs ys,
  d = true ∧ p = true ∧ rs = ys ++ [ResponseCompleted c].
Definition finished : stage := λ d p _ rs ys, d = true ∧ p = true ∧ rs = ys.

Lemma running_mono b n m s : running b n s → m ≤ n → running b m s.
Proof. intros [] Hle. split; try done. lia. Qed.
Lemma at_mono b n m (φ ψ : stage) s :
  at_with b n φ s → m ≤ n → (∀ d p as_ rs ys, φ d p as_ rs ys → ψ d p as_ rs ys) → at_with b m ψ s.
Proof. intros [Hr Hφ] Hle H. split; [by eapply running_mono|]. by apply H. Qed.

(** Where an execution is left when it raises *)
Definition left_off (s : ClientState W) : Prop := ∃ b, (b = true → excuse) ∧ at_with b 0 anywhere s.
Lemma at_left_off b n φ s : (b = true → excuse) → at_with b n φ s → left_off s.
Proof. intros Hb H. exists b. split; [done|]. eapply at_mono; [exact H|lia|done]. Qed.
Lemma at_anywhere n φ s : at_ n φ s → left_off s.
Proof. by apply at_left_off. Qed.

Lemma kept_running b n s s' : kept s s' → running b n s → running b n s'.
Proof.
  intros (Hw & Hfree & _ & Hy & Hx) []. destruct (Hw run_ok0) as (Hok & Hrow & Hheld & Hcon).
  split; rewrite ?Hrow, ?Hx, ?Hcon, ?Hfree, ?Hy; auto. by eapply holds_only_kept.
Qed.
Lemma kept_at b n φ s s' : kept s s' → at_with b n φ s → at_with b n φ s'.
Proof.
  intros Hk [Hr Hφ]. split; [by eapply kept_running|]. destruct Hk as (_ & _ & _ & Hy & Hx). unfold stage_of. by rewrite Hy, Hx.
Qed.
Lemma at_kept {A} b n φ (m : client A) : keeps kept m → spec (at_with b n φ) m (λ _, at_with b n φ) (λ _, at_with b n φ).
Proof.
  intros Hm. apply (keeps_spec kept); [done|]. intros s s'. apply kept_at.
Qed.
(** A quiet computation that raises abandons the stage. *)
Lemma at_kept_raise {A} n φ (m : client A) : keeps kept m → spec (at_ n φ) m (λ _, at_ n φ) (λ _, left_off).
Proof.
  intros Hm s Hs. pose proof (at_kept false n φ m Hm s Hs) as H. destruct (m s) as [[a|e] s']; [done|by eapply at_anywhere].
Qed.

(** Asking never raises. *)
Lemma spec_read {A} (f : W → A * W) P E : quiet f → (∀ s s', kept s s' → P s → P s') → spec P (read f) (λ _, P) E.
Proof.
  intros Hf HP s Hs. pose proof (keeps_read f Hf s) as Hk. revert Hk. unfold read, call.
  destruct (f (gs_world s)) as [a w]. intros Hk. by apply (HP s).
Qed.

(** *** Local variables *)

(** A computation that stays on [running] from one stage to another *)
Lemma at_modify b n m (φ ψ : stage) (f : ClientState W → ClientState W) E :
  (∀ s, at_with b n φ s → at_with b m ψ (f s)) → spec (at_with b n φ) (modify f) (λ _, at_with b m ψ) E.
Proof. intros H s Hs. by apply H. Qed.

Ltac local_step := apply at_modify; intros s [[] Hst]; unfold stage_of in *; cbn in *; split; [split; cbn in *; auto|unfold stage_of; cbn].

Lemma set_contacted_spec n E : spec (at_ n waiting) set_contacted (λ _, at_ n between) E.
Proof. local_step; by destruct Hst as (? & ? & ?). Qed.
Lemma set_completed_spec n φ E : (∀ d p as_ rs ys, φ d p as_ rs ys → d = true) →
  spec (at_ n φ) set_completed (λ _, at_ n φ) E.
Proof. intros Hd. local_step; eauto. Qed.
Lemma new_attempt_spec n E : spec (at_ n between) new_attempt (λ _, at_ n (streaming false)) E.
Proof.
  local_step. destruct Hst as (? & ? & Hrs). split_and!; [done|done|by rewrite Hrs|]. rewrite Hrs in *.
  symmetry. by apply prefix_nil_inv.
Qed.
Lemma retain_event_spec n e E :
  spec (at_ n (streaming false)) (retain_event e)
    (λ _, at_ n (λ d p as_ rs ys, d = false ∧ p = true ∧ as_ = rs ∧ rs = ys ++ [e])) E.
Proof.
  local_step; destruct Hst as (Hd & Hp & Has & Hrs).
  - by rewrite Hd in *.
  - by apply prefix_app_r.
  - split_and!; congruence.
Qed.
Lemma set_stopped_spec n φ E : spec (at_ n φ) set_stopped (λ _, at_ n φ) E.
Proof. local_step; eauto. Qed.

(** Run the first command of a sequence by its specification. *)
Ltac bind_by H := eapply spec_bind; [H|intros ?; cbv beta].

Lemma yield_event_spec n (φ ψ : stage) e :
  (∀ d p as_ rs ys, φ d p as_ rs ys → (ys ++ [e]) `prefix_of` rs ∧ ψ d p as_ rs (ys ++ [e])) →
  spec (at_ n φ) (yield_event env e) (λ _, at_ n ψ) (λ _, at_ n ψ).
Proof.
  intros Hψ. unfold yield_event. eapply spec_bind with (Q := λ _, at_ n ψ).
  { local_step; by apply Hψ in Hst as [? ?]. }
  intros ?. bind_by ltac:(apply at_kept; eauto with keeps). case_match.
  - bind_by ltac:(apply set_stopped_spec). by apply spec_raise.
  - by apply spec_ret.
Qed.

(** *** An attempt *)

Lemma priced_spec n e :
  spec (at_ n (streaming false)) (priced env request e)
    (λ e' s, at_ n (streaming false) s ∧ is_completed e' = is_completed e) (λ _, at_ n broken).
Proof.
  intros s Hs. pose proof (at_kept false n (streaming false) _ (priced_keeps e) s Hs) as H. revert H.
  destruct (priced env request e s) as [[e'|x] s'] eqn:E; intros H.
  - split; [done|]. unfold priced in E. destruct e; repeat case_match; try (by injection E as <- _); try done.
    by apply eff_bind_Ret in E as (c' & s1 & _ & [= <- <-]).
  - eapply at_mono; [exact H|lia|]. by intros d p as_ rs ys (? & ? & ? & ?).
Qed.

Lemma on_event_spec n e :
  spec (at_ n (streaming false)) (on_event env request e) (λ _, at_ n (streaming (is_completed e))) (λ _, at_ n broken).
Proof.
  unfold on_event. eapply spec_bind; [apply priced_spec|]. intros e'. apply spec_assume. intros He. cbv beta.
  bind_by ltac:(apply retain_event_spec). rewrite <-He. destruct (is_completed e') eqn:Hc.
  - apply spec_ret. intros s Hs. eapply at_mono; [exact Hs|lia|]. intros d p as_ rs ys (? & ? & ? & ->).
    split_and!; try done. destruct e'; try done. eauto.
  - eapply spec_weaken; [eapply yield_event_spec with (ψ := streaming false)|done|done|].
    + intros d p as_ rs ys (? & ? & ? & ->). done.
    + intros x s Hs. eapply at_mono; [exact Hs|lia|]. by intros d p as_ rs ys (? & ? & ? & ?).
Qed.

Lemma streaming_broken n b s : at_ n (streaming b) s → at_ n broken s.
Proof. intros H. eapply at_mono; [exact H|lia|]. by intros d p as_ rs ys (? & ? & ? & ?). Qed.

Lemma consume_stream_spec n items ending : ∀ terminal a b,
  spec (at_ n (streaming terminal)) (consume_stream config event_size request (on_event env request) items ending terminal a b)
    (λ t, at_ n (streaming t)) (λ _, at_ n broken).
Proof.
  induction items as [|item items IH]; intros terminal a b; cbn [consume_stream].
  - destruct ending as [|[]]; [by apply spec_ret|apply spec_raise; intros s; apply streaming_broken..].
  - destruct terminal; [apply spec_raise; intros s; apply streaming_broken|].
    destruct (parse_gateway_event item) as [e|]; [|apply spec_raise; intros s; apply streaming_broken].
    destruct (_ || _); [apply spec_raise; intros s; apply streaming_broken|].
    bind_by ltac:(apply on_event_spec). apply IH.
Qed.

Lemma gateway_call_spec n φ E : (∀ d p as_ rs ys, φ d p as_ rs ys → p = true) →
  spec (at_ (S n) φ) (read (λ w, ce_gateway env w request)) (λ _, at_ n φ) E.
Proof.
  intros Hp s [[] Hst]. unfold read, call. destruct (ce_gateway env (gs_world s) request) as [items w] eqn:G.
  apply law_gateway in G as (Hok & Hrow & Hheld & Hc); [|done]. specialize (Hp _ _ _ _ _ Hst).
  split; [split; cbn; rewrite ?Hrow, ?Hc; auto; [by eapply holds_only_kept|lia|congruence]|done].
Qed.

Lemma stream_attempt_spec n :
  spec (at_ (S n) (streaming false)) (_stream_attempt env config event_size request (on_event env request))
    (λ _, at_ n (streaming true)) (λ _, at_ n broken).
Proof.
  unfold _stream_attempt. bind_by ltac:(apply gateway_call_spec; by intros ? ? ? ? ? (_ & ? & _)).
  eapply spec_bind with (Q := λ t, at_ n (streaming t)).
  - eapply spec_finally; [apply consume_stream_spec|..]; intros ?; cbv beta.
    + eapply spec_weaken; [apply at_kept, close_stream_keeps|done|done|]. intros x s. apply streaming_broken.
    + apply at_kept, close_stream_keeps.
  - intros []; [by apply spec_ret|]. apply spec_raise. intros s. apply streaming_broken.
Qed.

(** *** The commit *)

(** The state with [durable_completion] set *)
Definition made_durable (s : ClientState W) : ClientState W := (set_durable s).2.
Lemma kept_durable s s' : kept s s' → kept (made_durable s) (made_durable s').
Proof. intros (? & ? & ? & ? & Hx). unfold kept, made_durable. cbn. by rewrite Hx. Qed.

Definition commits (c : GatewayResponseCompleted) (events : list GatewayEvent) : stage :=
  λ d p as_ rs ys, d = false ∧ p = true ∧ rs = events ∧ rs = ys ++ [ResponseCompleted c].

Lemma store_complete_spec n c events E :
  spec (at_ n (commits c events)) (store_call (λ w, op_complete (ce_requests env) w (gq_tenant_id request) (gq_request_id request) hash events))
    (λ r s, if is_ok r then at_ n (committed c) (made_durable s) ∧ at_with true n (commits c events) s else at_ n anywhere s) E.
Proof.
  intros s [[] (Hd & Hp & Hrs & Hys)]. unfold store_call, read, call.
  destruct (law_complete (gs_world s) events run_ok0) as (Hok & Hh & Hc).
  destruct (op_complete _ _ _ _ _ _) as [r w] eqn:E1. cbn in Hok, Hh, Hc. pose proof (holds_only_kept _ _ _ Hh run_held0).
  pose proof (contract_complete _ _ _ _ _ _ _ _ (law_ok _ run_ok0) E1) as Hcon.
  destruct (is_ok r).
  - destruct Hcon as (r0 & Hrow & _ & _ & _ & Hv).
    split; (split; [split; cbn; rewrite ?Hc; auto|]).
    + rewrite Hv, lookup_insert_eq. by rewrite Hrs.
    + by rewrite Hp.
    + by split_and!.
    + rewrite Hd, Hv, lookup_insert_eq. by rewrite Hrs.
    + by rewrite Hp.
    + by split_and!.
  - split; [split; cbn; rewrite ?Hc, ?Hcon; auto|done].
Qed.

Lemma require_cleanup_spec b n φ E : spec (at_with b n φ) require_cleanup (λ _, at_with b n φ) E.
Proof. local_step; eauto. Qed.

(** A shielded operation: its answer, or the cancellation that took it away *)
Lemma shielded_spec {A} (f : W → A * W) P (Q : A → ClientState W → Prop) E :
  (∀ s, P s → ok (gs_world s)) → (∀ s s', kept s s' → P s → P s') → spec P (read f) Q (λ _ _, False) →
  spec P (shielded env f)
    (λ x s, match x.1 with Some a => Q a s | None => x.2 = true ∧ disturbed ∧ (P s ∨ ∃ a, Q a s) end) E.
Proof.
  intros Hok HP Hf. unfold shielded.
  eapply spec_bind with (Q := λ plan s, P s ∧ ((∃ applied, plan = CancelledTwice applied) → disturbed)).
  { intros s Hs. pose proof (keeps_read _ law_shield s) as Hk. revert Hk. unfold read, call.
    destruct (ce_shield env (gs_world s)) as [plan w] eqn:Ep. intros Hk. split; [by eapply HP|].
    intros [applied ->]. left. exists (gs_world s), applied. rewrite Ep. auto. }
  intros plan. apply spec_assume. intros Hd.
  assert (∀ E', spec P (read f) Q E') as Hread.
  { intros E' s Hs. specialize (Hf s Hs). by destruct (read f s) as [[a|x] s']. }
  destruct plan as [| |[]].
  - bind_by ltac:(apply Hread). by apply spec_ret.
  - bind_by ltac:(apply Hread). by apply spec_ret.
  - bind_by ltac:(apply Hread). apply spec_ret. intros s Hs. cbn. split_and!; [done|eauto|eauto].
  - apply spec_ret. intros s Hs. cbn. split_and!; [done|eauto|by left].
Qed.

Lemma complete_request_spec n c events :
  spec (at_ n (commits c events)) (_complete_request env request_hash request events)
    (λ _, at_ n (committed c)) (λ _, left_off).
Proof.
  unfold _complete_request. eapply spec_bind.
  { apply shielded_spec; [by intros s [[] _]|intros s s'; apply kept_at|apply store_complete_spec]. }
  intros [[[u|err]|] cancelled]; cbn [fst snd is_ok].
  - eapply spec_bind with (Q := λ _, at_ n (committed c)); [by intros s [Hs _]|]. intros ?.
    destruct cancelled; [apply spec_raise; intros s; apply at_anywhere|by apply spec_ret].
  - destruct cancelled; [bind_by ltac:(apply require_cleanup_spec)|]; apply spec_raise; intros s; apply at_anywhere.
  - apply spec_raise. intros s (_ & Hd & [Hs|[[u|err] Hs]]); cbn [is_ok] in Hs; [by eapply at_anywhere| |by eapply at_anywhere].
    destruct Hs as [_ Hs]. eapply at_left_off; [|exact Hs]. auto.
Qed.

(** *** The terminal event *)

Lemma observe_heartbeat_spec b n φ E : spec (at_with b n φ) (observe_heartbeat env) (λ _, at_with b n φ) E.
Proof.
  intros s Hs. unfold observe_heartbeat, mbind, eff_bind, gets.
  destruct (ex_capacity (locals s)) as [[lease []]|] eqn:Hc; [|done..].
  unfold read, call. assert (∀ l, (ce_heartbeat env (gs_world s) lease).1 = (l, HB_CRASHED) → excuse) as Hcrash.
  { intros l Hl. apply excused. right. right. exists (gs_world s), lease. rewrite Hl. by destruct Hs as [[] _]. } pose proof (law_renewed (gs_world s) lease) as Hid.
  pose proof (keeps_read _ (law_heartbeat lease) s) as Hk. unfold read, call in Hk. revert Hid Hk.
  destruct (ce_heartbeat env (gs_world s) lease) as [now_ w]. cbn in Hcrash |- *. intros Hid Hk.
  apply (kept_at _ _ _ _ _ Hk) in Hs as [[] Hst]. cbn in *. split; [split; cbn; auto|done].
  - intros i Hi. destruct (run_held0 i Hi) as [?|(l & x & El & Hl)]; [by left|right]. rewrite Hc in El. injection El as <- <-.
    destruct now_ as [l' x']. exists l', x'. cbn in Hid. split; congruence.
  - intros l [= ->]. by eapply Hcrash.
Qed.

Lemma stop_heartbeat_spec b n φ :
  spec (at_with b n φ) (_stop_capacity_heartbeat env) (λ _, at_with b n φ) (λ _ s, at_with b n φ s ∧ excuse).
Proof.
  unfold _stop_capacity_heartbeat. bind_by ltac:(apply observe_heartbeat_spec). intros s Hs. unfold mbind, eff_bind, gets.
  destruct (ex_capacity (locals s)) as [[lease []]|] eqn:Hc; try done.
  - destruct Hs as [[] Hst]. split; [split; cbn; auto; [|done]|done].
    intros i Hi. destruct (run_held0 i Hi) as [?|(l & x & El & Hl)]; [by left|right]. rewrite Hc in El. injection El as <- <-. eauto.
  - split; [done|]. destruct Hs as [[] _]. by eapply run_crash0.
Qed.

(** A released lease is not held; one that could not be released asks for cleanup. *)
Definition given_back (s : ClientState W) : Prop :=
  ∀ i, held (gs_world s) = Some i → (gs_cleanup_required s = true ∨ excuse) ∨ h0 = true.
Definition unheld (s : ClientState W) : Prop := ∀ i, held (gs_world s) = Some i → h0 = true.

Lemma kept_given_back s s' : ok (gs_world s) → kept s s' → given_back s → given_back s'.
Proof. intros Ho (Hw & _ & Hc & _) Hg i Hi. destruct (Hw Ho) as (_ & _ & Hh & _). rewrite Hc. by eapply Hg, Hh. Qed.

(** A lease is released by its holder. *)
Lemma release_capacity_spec b n φ lease beat tokens :
  spec (λ s, at_with b n φ s ∧ holds_only (Some (lease, beat)) (gs_world s)) (_release_capacity env request lease tokens)
    (λ _ s, at_with b n φ s ∧ unheld s) (λ _ s, at_with b n φ s ∧ given_back s).
Proof.
  unfold _release_capacity. eapply spec_bind.
  { apply shielded_spec with (Q := λ r s, at_with b n φ s ∧
      match r with Ret _ => unheld s | Raise x => x = CancelledExn → disturbed end).
    - by intros s [[[] _] _].
    - intros s s' Hk [Ha Hl]. split; [by eapply kept_at|]. destruct Ha as [[] _], Hk as (Hw & _).
      destruct (Hw run_ok0) as (_ & _ & Hh & _). by eapply holds_only_kept.
    - intros s [[[] Hst] Hl]. unfold read, call. destruct (ce_release env (gs_world s) lease tokens) as [r w] eqn:R.
      assert (∀ x, r = Raise x → x = CancelledExn → disturbed) as Hx.
      { intros x -> ->. right. left. exists (gs_world s), lease, tokens. by rewrite R. }
      apply law_free in R as (Hok & Hrow & Hc & Hh & Hr); [|done]. cbn. split.
      + split; [split; cbn; rewrite ?Hrow, ?Hc; auto; by eapply holds_only_kept|done].
      + destruct r; [|by apply Hx]. intros i Hi. cbn in Hi. destruct (Hl i (Hh i Hi)) as [?|(l & y & [= <- <-] & <-)]; [done|].
        by destruct Hr. }
  assert (∀ s, disturbed → given_back s) as Hex by (intros s Hd i _; left; right; by apply excused).
  intros [[[u|x]|] cancelled]; cbn [fst snd].
  - destruct cancelled; [apply spec_raise|by apply spec_ret]. intros s [Ha Hf]. split; [done|]. intros i Hi. right. by eapply Hf.
  - assert (spec (λ s, at_with b n φ s ∧ (x = CancelledExn → disturbed)) require_cleanup
      (λ _ s, at_with b n φ s ∧ given_back s) (λ _ s, at_with b n φ s ∧ given_back s)) as Hclean.
    { intros s [Ha _]. split; [by apply (require_cleanup_spec b n φ (λ _ _, False))|]. intros i _. left. by left. }
    destruct x; [|bind_by ltac:(exact Hclean); destruct cancelled; by apply spec_raise| |
      bind_by ltac:(exact Hclean); destruct cancelled; by apply spec_raise].
    + bind_by ltac:(exact Hclean). destruct cancelled; by apply spec_raise.
    + apply spec_raise. intros s [Ha Hd]. split; [done|]. by apply Hex, Hd.
  - apply spec_raise. intros s (_ & Hd & [[Ha _]|[r [Ha _]]]); (split; [done|by apply Hex]).
Qed.

Lemma clear_capacity_spec b n φ E :
  spec (λ s, at_with b n φ s ∧ unheld s) (set_capacity None) (λ _ s, at_with b n φ s ∧ unheld s) E.
Proof. intros s [[[] Hst] Hh]. split; [|done]. split; [split; cbn; auto; [|done]|done]. intros i Hi. left. by eapply Hh. Qed.

Lemma release_slot_spec b n φ E :
  spec (at_with b n φ) release_slot (λ _ s, at_with b n φ s ∧ gs_free_slots s = slots) E.
Proof.
  unfold release_slot. intros s [[] Hst]. unfold mbind, eff_bind, gets.
  destruct (ex_local_slot (locals s)) eqn:Hl; cbn in run_slots0 |- *; (split; [split; [split; cbn; rewrite ?Hl; auto|done]|cbn]); lia.
Qed.

Lemma finish_stream_spec n c :
  spec (at_ n (committed c)) (finish_stream env request c) (λ _, at_ n finished) (λ _, left_off).
Proof.
  unfold finish_stream. bind_by ltac:(apply set_completed_spec; by intros ? ? ? ? ? (? & _)).
  bind_by ltac:(eapply spec_weaken; [apply stop_heartbeat_spec|done|intros ? s Hs; exact Hs|intros x s [Hs _]; by eapply at_anywhere]).
  eapply spec_bind with (Q := λ capacity s, at_ n (committed c) s ∧ holds_only capacity (gs_world s)).
  { intros s [[] Hst]. by split. }
  intros capacity. eapply spec_bind with (Q := λ _ s, at_ n (committed c) s ∧ unheld s).
  { destruct capacity as [[lease beat]|]; [|apply spec_raise; intros s [Hs _]; by eapply at_anywhere].
    eapply spec_weaken; [apply (release_capacity_spec false n (committed c) lease beat)|done|done|]. intros x s [Hs _]. by eapply at_anywhere. }
  intros ?. bind_by ltac:(apply clear_capacity_spec).
  eapply spec_bind with (Q := λ _, at_ n (committed c)).
  { eapply spec_weaken; [apply (release_slot_spec false n (committed c) (λ _, left_off))|by intros s [? _]|by intros ? s [? _]|done]. }
  intros ?. eapply spec_weaken; [apply (yield_event_spec n (committed c) finished)|done|done|].
  - by intros d p as_ rs ys (? & ? & ->).
  - intros x s. apply at_anywhere.
Qed.

Lemma commit_attempt_spec n attempt :
  spec (at_ n (streaming true)) (commit_attempt env request_hash request (finish_stream env request) attempt)
    (λ _, at_ n finished) (λ _, left_off).
Proof.
  unfold commit_attempt.
  eapply spec_bind with (Q := λ retained, at_ n (λ d p as_ rs ys, streaming true d p as_ rs ys ∧ rs = retained)).
  { intros s [Hr Hst]. by split. }
  intros retained. eapply spec_bind with (Q := λ c, at_ n (commits c retained)).
  { intros s [Hr [(Hd & Hp & Has & c & Hc) Hret]]. unfold _require_terminal_event.
    rewrite <-Hret, Hc, last_snoc. split; [done|]. split_and!; [done|done|congruence|done]. }
  intros c. bind_by ltac:(apply at_kept_raise, record_success_keeps).
  bind_by ltac:(apply complete_request_spec). bind_by ltac:(apply at_kept_raise, attribute_keeps).
  apply finish_stream_spec.
Qed.

(** A failed attempt is repeated only if nothing was received. *)
Lemma failed_attempt_spec n attempt d :
  spec (at_ n broken) (failed_attempt env config request attempt d) (λ _, at_ n between) (λ _, left_off).
Proof.
  intros s Hs. pose proof (at_kept_raise n broken _ (failed_attempt_keeps attempt d) s Hs) as H. revert H.
  destruct (failed_attempt env config request attempt d s) as [[[]|x] s'] eqn:E; [|done].
  intros [Hr (Hd & Hp & Has)]. split; [done|]. split_and!; [done|done|]. rewrite <-Has.
  unfold failed_attempt in E. apply eff_bind_Ret in E as (u & s1 & _ & E).
  apply eff_bind_Ret in E as (events & s2 & [= <- <-] & E).
  assert (Hk : kept s1 s').
  { match type of E with ?m s1 = _ => assert (keeps kept m) as Hm by keeps_auto; specialize (Hm s1) end. by rewrite E in Hm. }
  destruct Hk as (_ & _ & _ & _ & ->). by destruct (ex_attempt_events (locals s1)).
Qed.

Lemma execute_with_retries_spec left_ : ∀ attempt,
  spec (at_ left_ between)
    (_execute_with_retries env config request_hash event_size request (finish_stream env request) left_ attempt)
    (λ _, at_ 0 finished) (λ _, left_off).
Proof.
  induction left_ as [|left_ IH]; intros attempt; cbn [_execute_with_retries].
  { apply spec_raise. intros s. apply at_anywhere. }
  eapply spec_bind with (Q := λ _, at_ (S left_) between).
  { destruct (_ <? _); [apply at_kept_raise, require_closed_circuit_keeps|by apply spec_ret]. }
  intros ?. bind_by ltac:(apply new_attempt_spec).
  eapply spec_bind with (Q := λ r : bool, if r then at_ left_ between else at_ left_ (streaming true)).
  - eapply spec_catch with (E1 := λ _, at_ left_ broken).
    + bind_by ltac:(apply stream_attempt_spec). by apply spec_ret.
    + intros x. destruct x as [d| | |]; [|apply spec_raise; intros s; apply at_anywhere..].
      bind_by ltac:(apply failed_attempt_spec). by apply spec_ret.
  - intros []; [apply IH|]. eapply spec_weaken; [apply commit_attempt_spec|done| |done].
    intros u s Hs. eapply at_mono; [exact Hs|lia|done].
Qed.

(** *** Admission *)

Lemma acquire_capacity_spec n :
  spec (at_ n waiting) (_acquire_capacity env config request_size seconds_text request)
    (λ lease s, at_ n waiting (set_capacity (Some (lease, HB_RUNNING)) s).2) (λ _, left_off).
Proof.
  intros s [[] Hst]. unfold _acquire_capacity, wrapped, mbind, eff_bind, catch, call.
  destruct (ce_acquire _ _ _ _ _ _ _) as [res w] eqn:A. apply law_acquire in A as (Hok & Hrow & Hc & Hh); [|done].
  assert (Hwait : ∀ s', s' = mkClientState w (gs_free_slots s) (gs_closing s) (gs_cleanup_required s) (gs_closed s)
                      (gs_yielded s) (locals s) → no_new_lease (gs_world s) w → left_off s').
  { intros s' -> Hheld. exists false. split; [done|]. split; [split; cbn; rewrite ?Hrow, ?Hc; auto; [by eapply holds_only_kept|lia]|done]. }
  destruct Hst as (Hd & Hp & Hrs). destruct res as [[lease|scope t]|x]; cbn.
  - split; [split; cbn; rewrite ?Hrow, ?Hc; auto; [|by intros ? [=]]|done].
    intros i Hi. cbn in Hi. right. exists lease, HB_RUNNING. split; congruence.
  - by apply Hwait.
  - by destruct x; apply Hwait.
Qed.

(** Nothing is held before the slot is taken. *)
Definition admitting (n : nat) (s : ClientState W) : Prop := at_ n waiting s ∧ ex_local_slot (locals s) = false.

Lemma admitting_kept {A} n (m : client A) : keeps kept m → spec (admitting n) m (λ _, admitting n) (λ _, left_off).
Proof.
  intros Hm s [Ha Hl]. pose proof (Hm s) as Hk. destruct (m s) as [[a|x] s']; cbn in Hk.
  - split; [by eapply kept_at|]. by destruct Hk as (_ & _ & _ & _ & ->).
  - by eapply at_anywhere, kept_at.
Qed.

Lemma take_slot_spec n E : spec (admitting n) (slot_change true) (λ _, at_ n waiting) E.
Proof.
  intros s [[[] Hst] Hl]. split; [split; cbn; auto|done]. rewrite Hl in run_slots0. cbn in run_slots0. lia.
Qed.

Lemma execute_request_spec :
  spec (admitting (cf_max_attempts config)) (execute_request env config request_size request_hash event_size seconds_text request)
    (λ _, at_ 0 finished) (λ _, left_off).
Proof.
  unfold execute_request. bind_by ltac:(apply admitting_kept, enforce_rate_limit_keeps).
  bind_by ltac:(apply admitting_kept, keeps_call, law_wait_slot). bind_by ltac:(apply take_slot_spec).
  bind_by ltac:(apply at_kept_raise, require_available_keeps). bind_by ltac:(apply acquire_capacity_spec).
  eapply spec_bind with (Q := λ _, at_ (cf_max_attempts config) waiting); [by intros s Hs|]. intros ?.
  bind_by ltac:(apply at_kept_raise, require_closed_circuit_keeps). bind_by ltac:(apply set_contacted_spec).
  eapply spec_bind with (Q := λ _, at_ 0 finished); [|intros ?; apply set_completed_spec; by intros ? ? ? ? ? (? & _)].
  unfold closing_execution. eapply spec_catch; [apply execute_with_retries_spec|]. intros x. cbv beta.
  eapply spec_bind with (Q := λ _, left_off); [by intros s Hs|]. intros [].
  all: destruct x; by apply spec_raise.
Qed.

Lemma on_cancelled_spec x Q : spec left_off (on_cancelled env request x) Q (λ _, left_off).
Proof.
  unfold on_cancelled. destruct x; try by apply spec_raise. eapply spec_bind with (Q := λ _, left_off).
  { intros s (b & Hb & Hs). pose proof (observe_heartbeat_spec b 0 anywhere (λ _ _, False) s Hs) as H.
    destruct (observe_heartbeat env s) as [[[]|y] s']; [|done]. by exists b. }
  intros ?. eapply spec_bind with (Q := λ _, left_off); [by intros s Hs|]. intros capacity.
  repeat case_match; by apply spec_raise.
Qed.

(** *** Settling *)

Lemma release_held_capacity_spec b n φ :
  spec (at_with b n φ) (release_held_capacity env request)
    (λ _ s, at_with b n φ s ∧ given_back s) (λ _ s, at_with b n φ s ∧ given_back s).
Proof.
  unfold release_held_capacity.
  bind_by ltac:(eapply spec_weaken; [apply stop_heartbeat_spec|done|intros ? s Hs; exact Hs|
    intros x s [Hs He]; split; [done|intros i _; left; by right]]).
  eapply spec_bind with (Q := λ x s, at_with b n φ s ∧ x = locals s); [by intros s Hs|]. intros x.
  destruct (ex_capacity x) as [[lease beat]|] eqn:Hx.
  - eapply spec_bind with (Q := λ _ s, at_with b n φ s ∧ unheld s).
    { eapply spec_weaken; [apply (release_capacity_spec b n φ lease beat)| |done|done]. intros s [Ha ->]. split; [done|].
      destruct Ha as [[] _]. by rewrite <-Hx. }
    intros ?. eapply spec_weaken; [apply (clear_capacity_spec b n φ (λ _ _, False))|done| |done].
    intros u s [Ha Hf]. split; [done|]. intros i Hi. right. by eapply Hf.
  - apply spec_ret. intros s [Ha ->]. split; [done|]. intros i Hi. destruct Ha as [[] _].
    destruct (run_held0 i Hi) as [?|(l & y & Hc & _)]; [by right|congruence].
Qed.

(** How an execution leaves the client and its request: the request is given back
    without a provider call, or durable with the retained events, or failed; it stays in
    progress only in a client that asks for cleanup, or whose cleanup is excused. *)
Record settled (s : ClientState W) : Prop := {
  set_ok : ok (gs_world s);
  set_slots : gs_free_slots s = slots;
  set_lease : given_back s;
  set_contacts : contacts (gs_world s) ≤ c0 + cf_max_attempts config;
  set_prefix : gs_yielded s `prefix_of` ex_retained_events (locals s);
  set_row : match row s with
            | None => contacts (gs_world s) = c0
            | Some r => sr_request_hash r = hash ∧
                match sr_status r with
                | COMPLETED => sr_events r = ex_retained_events (locals s)
                | FAILED => sr_events r = []
                | IN_PROGRESS => gs_cleanup_required s = true ∨ excuse
                | EXECUTE | CONFLICT => False
                end
            end;
}.

Lemma kept_settled s s' : kept s s' → settled s → settled s'.
Proof.
  intros Hk []. pose proof (kept_given_back _ _ set_ok0 Hk set_lease0).
  destruct Hk as (Hw & Hfree & Hcl & Hy & Hx). destruct (Hw set_ok0) as (Hok & Hrow & Hheld & Hcon).
  split; rewrite ?Hrow, ?Hx, ?Hcon, ?Hfree, ?Hy, ?Hcl; auto.
Qed.

Definition in_world (w : W) (s : ClientState W) : ClientState W :=
  mkClientState w (gs_free_slots s) (gs_closing s) (gs_cleanup_required s) (gs_closed s) (gs_yielded s) (locals s).
Definition cleaned (s : ClientState W) : ClientState W := (require_cleanup s).2.
Lemma kept_cleaned s s' : kept s s' → kept (cleaned s) (cleaned s').
Proof. intros (? & ? & ? & ? & ?). by split_and!. Qed.

(** A quiet settlement: the answer of the store, or the operation was cancelled before
    or after it took effect *)
Lemma settled_quietly_spec (f : W → result unit * W) P :
  (∀ s, P s → ok (gs_world s)) → (∀ s s', kept s s' → P s → P s') → (∀ s, P s → excuse → settled s) →
  (∀ s, P s → let '(r, w) := f (gs_world s) in
     settled (if is_ok r then in_world w s else cleaned (in_world w s)) ∧ (excuse → settled (in_world w s))) →
  spec P (settled_quietly env f) (λ _, settled) (λ _, settled).
Proof.
  intros Hok HP Hun Hf. unfold settled_quietly. eapply spec_bind.
  { apply shielded_spec with (Q := λ r s, settled (if is_ok r then s else cleaned s) ∧ (excuse → settled s)); [done|done|].
    intros s Hs. specialize (Hf s Hs). unfold read, call. by destruct (f (gs_world s)) as [r w]. }
  intros [r cancelled]. cbn [fst snd]. eapply spec_bind with (Q := λ _, settled).
  - destruct r as [[u|err]|]; cbn [is_ok]; [by intros s [? _]..|]. apply spec_ret.
    intros s (_ & Hd & [Hs|[r [_ Hs]]]); auto.
  - intros ?. destruct cancelled; [by apply spec_raise|by apply spec_ret].
Qed.

(** Before the claim is settled *)
Record closing (s : ClientState W) : Prop := {
  cl_left_off : left_off s;
  cl_given_back : given_back s;
  cl_slots : gs_free_slots s = slots;
}.

Lemma kept_left_off s s' : kept s s' → left_off s → left_off s'.
Proof. intros Hk (b & Hb & Ha). exists b. split; [done|]. by eapply kept_at. Qed.
Lemma kept_closing s s' : kept s s' → closing s → closing s'.
Proof.
  intros Hk [Hl Hg Hs]. split; [by eapply kept_left_off| |by destruct Hk as (_ & -> & _)].
  destruct Hl as (b & _ & [[] _]). by eapply kept_given_back.
Qed.
Lemma kept_closing_with (φ : Execution → Prop) s s' : kept s s' → closing s ∧ φ (locals s) → closing s' ∧ φ (locals s').
Proof. intros Hk [Hc Hφ]. split; [by eapply kept_closing|]. by destruct Hk as (_ & _ & _ & _ & ->). Qed.

Lemma given_back_world (s : ClientState W) w : no_new_lease (gs_world s) w → given_back s → given_back (in_world w s).
Proof. intros Hn Hg i Hi. by eapply Hg, Hn. Qed.
Lemma given_back_cleaned (s : ClientState W) : given_back (cleaned s).
Proof. intros i Hi. by left; left. Qed.
#[local] Hint Resolve given_back_world given_back_cleaned : core.

(** An execution that is left as it is *)
Lemma closing_settled s : closing s → excuse → settled s.
Proof.
  intros [(b & _ & [[] _]) Hg Hs] He. split; [done..|lia|done|]. rewrite run_row0.
  destruct (ex_durable_completion (locals s)); [done|]. destruct b; [done|]. cbn. auto.
Qed.

Lemma fail_request_spec :
  spec (λ s, closing s ∧ ex_durable_completion (locals s) = false) (_fail_request env request_hash request)
    (λ _, settled) (λ _, settled).
Proof.
  apply settled_quietly_spec; [by intros s [[(b & _ & [[] _])] _]|intros s s'; apply (kept_closing_with (λ x, _ x = false))|by intros s [Hc _] He; apply closing_settled|].
  intros s [[(b & Hb & [[] _]) Hg Hs] Hd]. rewrite Hd in *.
  destruct (law_fail (gs_world s) aborted run_ok0) as (Hok & Hh & Hc).
  destruct (op_fail _ _ _ _ _ _) as [r w] eqn:F. cbn in Hok, Hh, Hc.
  pose proof (contract_fail _ _ _ _ _ _ _ _ (law_ok _ run_ok0) F) as [[Hv Hr]|(r0 & Hrow & _ & _ & Hv)].
  - split; [|intros He; split; [done|done|auto|cbn; lia|done|]; cbn; rewrite Hv, run_row0; destruct b; cbn; auto].
    assert (is_ok r = false ∨ b = true) as Hcase.
    { destruct b; [by right|left]. destruct (is_ok r); [|done]. destruct Hr as (r1 & Hr1 & Hst); [done|].
      rewrite run_row0 in Hr1. by injection Hr1 as <-. }
    destruct (is_ok r); (split; [done|done|auto|cbn; lia|done|]); cbn; rewrite Hv, run_row0; destruct b; cbn; auto.
    by destruct Hcase.
  - split; [destruct (is_ok r)|intros He]; (split; [done|done|auto|cbn; lia|done|]); cbn; by rewrite Hv, lookup_insert_eq.
Qed.

Lemma release_request_spec :
  spec (λ s, closing s ∧ ex_provider_contacted (locals s) = false) (_release_request env request_hash request)
    (λ _, settled) (λ _, settled).
Proof.
  apply settled_quietly_spec; [by intros s [[(b & _ & [[] _])] _]|intros s s'; apply (kept_closing_with (λ x, _ x = false))|by intros s [Hc _] He; apply closing_settled|].
  intros s [[(b & Hb & [[] _]) Hg Hs] Hp]. destruct (run_provider0 Hp) as (Hc0 & Hd & ->). rewrite Hd in *.
  destruct (law_release (gs_world s) run_ok0) as (Hok & Hh & Hc).
  destruct (op_release _ _ _ _ _) as [r w] eqn:F. cbn in Hok, Hh, Hc.
  pose proof (contract_release _ _ _ _ _ _ _ F) as Hrel. destruct (is_ok r) eqn:Hr.
  - destruct Hrel as (r0 & _ & _ & Hv). split; [|intros He]; (split; [done|done|auto|cbn; lia|done|]); cbn;
      rewrite Hv, lookup_delete_eq; congruence.
  - split; [|intros He]; (split; [done|done|auto|cbn; lia|done|]); cbn; rewrite Hrel, run_row0; cbn; auto.
Qed.

Lemma settle_claim_spec :
  spec (λ s, left_off s ∧ given_back s) (settle_claim env request_hash request) (λ _, settled) (λ _, settled).
Proof.
  unfold settle_claim. eapply spec_bind with (Q := λ _, closing).
  { intros s [(b & Hb & Ha) Hg]. pose proof (release_slot_spec b 0 anywhere (λ _ _, False) s Ha) as H.
    assert (Hh : ∀ r s', release_slot s = (r, s') → gs_world s' = gs_world s ∧ gs_cleanup_required s' = gs_cleanup_required s).
    { intros r s'. unfold release_slot, mbind, eff_bind, gets. destruct (ex_local_slot (locals s)); by intros [= <- <-]. }
    destruct (release_slot s) as [[[]|x] s']; [|done]. destruct (Hh _ _ eq_refl) as [Hw Hcl].
    destruct H as [Hr Hsl]. split; [by exists b| |done]. unfold given_back. by rewrite Hw, Hcl. }
  intros ?. eapply spec_bind with (Q := λ x s, closing s ∧ x = locals s); [by intros s Hs|]. intros x.
  destruct (ex_provider_contacted x) eqn:Hp.
  - destruct (negb (ex_completed x) && negb (ex_durable_completion x)) eqn:Hd.
    + apply andb_prop in Hd as [_ Hd%negb_true_iff]. eapply spec_weaken; [apply fail_request_spec| |done|done].
      by intros s [Hc ->].
    + apply spec_ret. intros s [[(b & _ & [[] _]) Hg Hs] ->].
      assert (ex_durable_completion (locals s) = true) as Hdu.
      { apply andb_false_iff in Hd as [Hd%negb_false_iff|Hd%negb_false_iff]; auto. }
      rewrite Hdu in *. split; auto; [lia|]. by rewrite run_row0.
  - eapply spec_weaken; [apply release_request_spec| |done|done]. by intros s [Hc ->].
Qed.

(** A finished execution has nothing left to settle. *)
Lemma settle_finished_spec :
  spec (λ s, at_ 0 finished s ∧ given_back s) (settle_claim env request_hash request)
    (λ _ s, settled s ∧ row s = Some (mkStored hash COMPLETED (gs_yielded s) None)) (λ _, settled).
Proof.
  intros s [Ha Hg]. pose proof (settle_claim_spec s (conj (at_anywhere _ _ _ Ha) Hg)) as H. revert H.
  destruct Ha as [[] (Hd & Hp & Hrs)]. rewrite Hd, Hrs in run_row0.
  destruct (settle_claim env request_hash request s) as [[[]|x] s'] eqn:E; [|done]. intros H. split; [done|]. revert E.
  unfold settle_claim, release_slot, mbind, eff_bind, gets. destruct (ex_local_slot (locals s)); cbn; rewrite Hp, Hd, andb_false_r;
    by intros [= <-].
Qed.

Lemma release_left_off_spec :
  spec left_off (release_held_capacity env request)
    (λ _ s, left_off s ∧ given_back s) (λ _ s, left_off s ∧ given_back s).
Proof.
  intros s (b & Hb & Ha). pose proof (release_held_capacity_spec b 0 anywhere s Ha) as H.
  destruct (release_held_capacity env request s) as [[[]|x] s']; destruct H as [Ha' Hg]; (split; [by exists b|done]).
Qed.

Lemma execute_claimed_spec :
  spec (admitting (cf_max_attempts config))
    (execute_claimed env config request_size request_hash event_size seconds_text request)
    (λ _ s, settled s ∧ row s = Some (mkStored hash COMPLETED (gs_yielded s) None)) (λ _, settled).
Proof.
  unfold execute_claimed. eapply spec_finally with (Q := λ _, at_ 0 finished) (E := λ _, left_off).
  - eapply spec_catch; [apply execute_request_spec|]. intros x. apply on_cancelled_spec.
  - intros ?. cbv beta. eapply spec_finally; [apply release_held_capacity_spec|..]; intros ?; cbv beta; [apply settle_finished_spec|].
    eapply spec_weaken; [apply settle_claim_spec| |done|done]. intros s [Ha Hg]. split; [by eapply at_anywhere|done].
  - intros ?. cbv beta. eapply spec_finally; [apply release_left_off_spec|..]; intros ?; cbv beta; apply settle_claim_spec.
Qed.

(** *** The claim *)

(** The state of a client before it streams *)
Record starting (s : ClientState W) : Prop := {
  st_ok : ok (gs_world s);
  st_slots : gs_free_slots s = slots;
  st_held : unheld s;
  st_contacts : contacts (gs_world s) = c0;
  st_yielded : gs_yielded s = [];
  st_locals : locals s = no_execution;
}.

(** While a request of the row [r] is only looked at *)
Record replaying (r : option StoredRequest) (ys : list GatewayEvent) (s : ClientState W) : Prop := {
  rp_ok : ok (gs_world s);
  rp_row : row s = r;
  rp_slots : gs_free_slots s = slots;
  rp_held : unheld s;
  rp_contacts : contacts (gs_world s) = c0;
  rp_yielded : gs_yielded s = ys;
}.
Lemma kept_replaying r ys s s' : kept s s' → replaying r ys s → replaying r ys s'.
Proof.
  intros (Hw & Hfree & Hcl & Hy & Hx) []. destruct (Hw rp_ok0) as (Hok & Hrow & Hheld & Hcon).
  split; rewrite ?Hrow, ?Hcon, ?Hfree, ?Hy; auto. intros i Hi. by eapply rp_held0, Hheld.
Qed.

Lemma yield_all_spec r l : ∀ ys,
  spec (replaying r ys) (yield_all env l) (λ _, replaying r (ys ++ l)) (λ _ s, ∃ ys', replaying r ys' s).
Proof.
  induction l as [|e l IH]; intros ys; cbn [yield_all].
  { apply spec_ret. intros s. by rewrite app_nil_r. }
  eapply spec_bind with (Q := λ _, replaying r (ys ++ [e])).
  - unfold yield_event. eapply spec_bind with (Q := λ _, replaying r (ys ++ [e])).
    { intros s []. split; cbn; auto. by rewrite rp_yielded0. }
    intros ?. eapply spec_bind; [apply spec_read; [apply law_interrupted|intros s s'; apply kept_replaying]|].
    intros []; cbv beta; [|by apply spec_ret]. eapply spec_bind with (Q := λ _, replaying r (ys ++ [e])); [by intros s []|].
    intros ?. apply spec_raise. eauto.
  - intros ?. cbv beta. rewrite (cons_middle e ys l), app_assoc. apply IH.
Qed.

(** What a claim answers, by the row it finds *)
Definition claimed (r : option StoredRequest) (c : RequestClaim) (s : ClientState W) : Prop :=
  match r with
  | Some r0 => c = answer r0 hash ∧ replaying r [] s
  | None => c = mkClaim EXECUTE hash [] None ∧ admitting (cf_max_attempts config) s ∧ locals s = no_execution
  end.
Lemma kept_claimed r c s s' : kept s s' → claimed r c s → claimed r c s'.
Proof.
  intros Hk. unfold claimed. destruct r as [r|].
  - intros [? ?]. split; [done|by eapply kept_replaying].
  - intros (? & [Ha Hl] & Hx). pose proof Hk as (_ & _ & _ & _ & Hx'). split; [done|]. unfold admitting. rewrite Hx'.
    split; [split; [by eapply kept_at|done]|done].
Qed.

(** How a stream leaves the request it found as [r] *)
Record streamed (r : option StoredRequest) (s : ClientState W) : Prop := {
  sm_ok : ok (gs_world s);
  sm_slots : gs_free_slots s = slots;
  sm_lease : given_back s;
  sm_contacts : contacts (gs_world s) ≤ c0 + cf_max_attempts config;
  sm_row : match r with
           | Some _ => row s = r ∧ contacts (gs_world s) = c0
           | None => row s = None → contacts (gs_world s) = c0
           end;
}.
Lemma replaying_streamed r ys s : replaying r ys s → streamed r s.
Proof.
  intros []. split; auto; [intros i Hi; right; by eapply rp_held0|lia|]. by destruct r.
Qed.
Lemma settled_streamed s : settled s → streamed None s.
Proof. intros []. split; auto. intros Hr. by rewrite Hr in set_row0. Qed.

Lemma claimed_streamed r c s : claimed r c s → streamed r s.
Proof.
  unfold claimed. destruct r as [r|]; [intros [_ H]; by eapply replaying_streamed|].
  intros (_ & [[[] (Hd & _)] Hl] & Hx). rewrite Hx in *. cbn in *. split; auto; try lia.
  intros i Hi. right. by destruct (run_held0 i Hi) as [?|(? & ? & [=] & _)].
Qed.

Lemma store_claim_spec r E : identity_ok (gq_request_id request) hash →
  spec (λ s, starting s ∧ row s = r)
    (store_call (λ w, op_claim (ce_requests env) w (gq_tenant_id request) (gq_request_id request) hash))
    (λ res s, match res with Ok c => claimed r c s | Err _ => replaying r [] s end) E.
Proof.
  intros Hid s [[] Hr]. unfold store_call, read, call.
  destruct (law_claim (gs_world s) Hid st_ok0) as (Hok & Hh & Hc).
  destruct (op_claim _ _ _ _ _) as [res w] eqn:C. cbn in Hok, Hh, Hc.
  pose proof (contract_claim _ _ _ _ _ _ _ (law_ok _ st_ok0) Hid C) as Hcon.
  assert (Hfree : ∀ i, held w = Some i → h0 = true) by (intros i Hi; by eapply st_held0, Hh).
  rewrite Hr in Hcon. unfold claimed. destruct r as [r0|].
  - destruct Hcon as [-> Hv]. split; [done|]. split; cbn; rewrite ?Hv, ?Hc; auto.
  - destruct Hcon as [[-> Hv]|[Herr Hv]].
    + split; [done|]. rewrite st_locals0. split; [|done]. split; [|done]. split; [|done].
      split; cbn; rewrite ?Hc; auto; try done; [by rewrite Hv, lookup_insert_eq|lia| |lia|by rewrite st_yielded0].
      intros i Hi. left. by eapply Hfree.
    + destruct res; [done|]. split; cbn; rewrite ?Hv, ?Hc; auto.
Qed.

Lemma claim_request_spec r : identity_ok (gq_request_id request) hash →
  spec (λ s, starting s ∧ row s = r) (_claim_request env request_hash request) (claimed r) (λ _, streamed r).
Proof.
  intros Hid. unfold _claim_request.
  bind_by ltac:(by apply store_claim_spec). rename a into res. eapply spec_bind.
  { apply spec_read; [apply law_interrupted|]. intros s s' Hk. destruct res; [by apply kept_claimed|by apply kept_replaying]. }
  intros []; cbv beta.
  - apply spec_raise. intros s. destruct res; [apply claimed_streamed|apply replaying_streamed].
  - destruct res; [by apply spec_ret|]. apply spec_raise. intros s. apply replaying_streamed.
Qed.

(** *** The stream *)

Lemma starting_replaying s : starting s → replaying (row s) [] s.
Proof. intros []. by split. Qed.

Lemma starting_kept r (m : client unit) : keeps kept m →
  spec (λ s, starting s ∧ row s = r) m (λ _ s, starting s ∧ row s = r) (λ _, streamed r).
Proof.
  intros Hm s [Hs Hr]. pose proof (Hm s) as Hk. destruct (m s) as [[[]|x] s']; cbn in Hk.
  - destruct Hs, Hk as (Hw & Hfree & Hcl & Hy & Hx). destruct (Hw st_ok0) as (Hok & Hrow & Hheld & Hcon). rewrite Hrow.
    split; [|done]. split; rewrite ?Hcon, ?Hfree, ?Hy, ?Hx; auto. intros i Hi. by eapply st_held0, Hheld.
  - eapply replaying_streamed, kept_replaying; [exact Hk|]. rewrite <-Hr. by apply starting_replaying.
Qed.
Lemma replaying_kept {A} r ys (m : client A) : keeps kept m →
  spec (replaying r ys) m (λ _, replaying r ys) (λ _, streamed r).
Proof.
  intros Hm s Hs. pose proof (kept_replaying r ys _ _ (Hm s) Hs) as H. destruct (m s) as [[a|x] s']; [done|].
  by eapply replaying_streamed.
Qed.

(** Only a completed row is replayed. *)
Lemma stored_events_spec r0 :
  spec (replaying (Some r0) []) (_stored_events_or_raise request (answer r0 hash))
    (λ o s, replaying (Some r0) [] s ∧ match o with Some ev => r0 = mkStored hash COMPLETED ev None | None => False end)
    (λ _, streamed (Some r0)).
Proof.
  intros s Hs. pose proof (replaying_streamed _ _ _ Hs) as Hst. destruct Hs as [Hrows Hrow ?].
  pose proof (law_ok _ Hrows _ _ Hrow) as [_ Hok]. unfold answer. case_bool_decide as Hh; [|done].
  destruct r0 as [h st ev err]. cbn in *. subst h. destruct st; cbn in *; try done.
  - destruct Hok as [_ ->]. done.
  - by destruct err.
Qed.

Lemma stream_spec r : identity_ok (gq_request_id request) hash →
  spec (λ s, starting s ∧ row s = r) (stream env config request_size request_hash event_size seconds_text request)
    (λ _ s, streamed r s ∧ row s = Some (mkStored hash COMPLETED (gs_yielded s) None)) (λ _, streamed r).
Proof.
  intros Hid. unfold stream. bind_by ltac:(apply starting_kept, require_available_keeps).
  bind_by ltac:(apply starting_kept, validate_request_keeps). bind_by ltac:(by apply claim_request_spec).
  destruct r as [r0|]; cbn [claimed].
  - apply spec_given. intros ->. bind_by ltac:(apply stored_events_spec). apply spec_assume.
    rename a1 into stored. destruct stored as [ev|]; [|done]. intros Hr0.
    bind_by ltac:(apply replaying_kept, require_terminal_keeps). bind_by ltac:(apply replaying_kept, attribute_keeps).
    eapply spec_weaken; [apply yield_all_spec|done|..].
    + intros u s Hs; cbv beta in Hs. split; [by eapply replaying_streamed|]. destruct Hs. by rewrite rp_row0, rp_yielded0, Hr0.
    + intros x s [ys Hs]. by eapply replaying_streamed.
  - apply spec_given. intros ->. eapply spec_bind with (Q := λ o s, o = None ∧ admitting (cf_max_attempts config) s).
    { by intros s [Hs _]. }
    intros o. apply spec_given. intros ->. eapply spec_weaken; [apply execute_claimed_spec|done|..].
    + intros u s [Hs Hr]. split; [by apply settled_streamed|done].
    + intros x s. apply settled_streamed.
Qed.
End Execution.

(** ** Theorems *)

(** A client in a consistent world that is about to stream *)
Definition ready (s : ClientState W) : Prop :=
  ok (gs_world s) ∧ gs_yielded s = [] ∧ locals s = no_execution.

Lemma ready_starting s : ready s → starting (contacts (gs_world s)) true (gs_free_slots s) s.
Proof. intros (? & ? & ?). by split. Qed.

Abbreviation stream_run := (stream env config request_size request_hash event_size seconds_text request).
Abbreviation execute_run := (execute_claimed env config request_size request_hash event_size seconds_text request).

Lemma stream_returns s s' : identity_ok (gq_request_id request) hash → ready s → stream_run s = (Ret tt, s') →
  row s' = Some (mkStored hash COMPLETED (gs_yielded s') None) ∧ (is_some (row s) = true → row s' = row s).
Proof.
  intros Hid Hs E. pose proof (stream_spec _ _ _ disturbed id (row s) Hid s (conj (ready_starting s Hs) eq_refl)) as H.
  rewrite E in H. destruct H as [[] Hr]. split; [done|]. destruct (row s); [by destruct sm_row0|done].
Qed.

(** C33: a stream that ends normally has yielded exactly the events the request store keeps
    as the completed response, and every later stream of the request that ends normally
    yields the same events again. *)
Theorem stream_result_durable s s' : identity_ok (gq_request_id request) hash → ready s → stream_run s = (Ret tt, s') →
  row s' = Some (mkStored hash COMPLETED (gs_yielded s') None) ∧
  ∀ t t', ready t → row t = row s' → stream_run t = (Ret tt, t') → gs_yielded t' = gs_yielded s'.
Proof.
  intros Hid Hs E. destruct (stream_returns s s' Hid Hs E) as [Hr _]. split; [done|]. intros t t' Ht Hrow Et.
  destruct (stream_returns t t' Hid Ht Et) as [Hr' Hkeep]. rewrite Hkeep in Hr' by (by rewrite Hrow, Hr).
  congruence.
Qed.


(** The world stays consistent. *)
Lemma stream_ok s : identity_ok (gq_request_id request) hash → ready s → ok (gs_world (stream_run s).2).
Proof.
  intros Hid Hs. pose proof (stream_spec _ _ _ disturbed id (row s) Hid s (conj (ready_starting s Hs) eq_refl)) as H.
  destruct (stream_run s) as [[[]|x] s']; [by destruct H as [[] _]|by destruct H].
Qed.

(** *** Repeated streams of one request *)

(** The request is streamed, or other things happen; the client may be another one. *)
Inductive episode : ClientState W → ClientState W → Prop :=
| episode_stream s : ready s → episode s (stream_run s).2
| episode_other s s' : world_kept (gs_world s) (gs_world s') → episode s s'.

(** The calls made for a request that was not known after [c0] of them *)
Definition calls_bounded (c0 : nat) (s : ClientState W) : Prop :=
  ok (gs_world s) ∧ contacts (gs_world s) ≤ c0 + cf_max_attempts config ∧
  (row s = None → contacts (gs_world s) = c0).

Lemma episode_bounded c0 s s' : identity_ok (gq_request_id request) hash →
  calls_bounded c0 s → episode s s' → calls_bounded c0 s'.
Proof.
  intros Hid Hb He. destruct He as [s1 Hs|s1 s2 Hkept]; destruct Hb as (Hrows & Hle & Hnone).
  - assert (streamed (contacts (gs_world s1)) true (gs_free_slots s1) disturbed (row s1) (stream_run s1).2) as [? _ _ Hle' Hr].
    { pose proof (stream_spec _ _ _ disturbed id (row s1) Hid s1 (conj (ready_starting s1 Hs) eq_refl)) as H.
      destruct (stream_run s1) as [[[]|x] s2]; [apply H|apply H]. }
    unfold calls_bounded. destruct (row s1) as [r|] eqn:Er.
    + destruct Hr as [Hr Hc]. rewrite Hr, Hc. split_and!; [done|done|by intros [=]].
    + rewrite Hnone in Hle', Hr by done. by split_and!.
  - destruct (Hkept Hrows) as (Hok & Hrow & _ & Hc). unfold calls_bounded. rewrite Hrow, Hc. auto.
Qed.

(** C35: however often one logical request is streamed, the provider is asked at most
    [max_attempts] times altogether, and not at all while no row of the request is kept. *)
Theorem provider_calls_bounded s s' : identity_ok (gq_request_id request) hash →
  ok (gs_world s) → row s = None → star episode s s' →
  contacts (gs_world s') ≤ contacts (gs_world s) + cf_max_attempts config ∧
  (row s' = None → contacts (gs_world s') = contacts (gs_world s)).
Proof.
  intros Hid Hrows Hrow Hstar.
  assert (calls_bounded (contacts (gs_world s)) s') as (_ & Hle & Hnone); [|by split].
  eapply (star_invariant episode (calls_bounded (contacts (gs_world s)))); [|exact Hstar|].
  - intros s1 s2 Hb He. by eapply episode_bounded.
  - split_and!; [done|lia|done].
Qed.
End Client.
End Client.
