(* ===== verification/LocalClient.v ===== *)
(** * The gateway client on its process-local policies

    [GatewayClient.__init__] composes the client with the in-memory request store, rate
    limiter, capacity store and circuit breaker of [gateway_client/reliability.py] unless
    it is given others.  This composition satisfies what the theorems on the client rely
    on, so they hold of it. *)

From stdpp Require Import base list sets gmap fin_sets strings.
From Stdlib Require Import ZArith QArith Qround Lia.
From S2P Require Import Prelude PyBase Domain Tables Contracts Transcripts Execution Recovery TaskPlans PyText Gateway Redaction AgentEvents PyEffects ToolTurn ModelTurn RunRepository GatewayPolicies GatewayClient GatewayProperties GatewayClientProperties.

#[local] Open Scope nat_scope.

(** ** The composition *)

(** The policies of a client, a clock, and what the provider will stream and where
    consumers and cancellation interrupt *)
Record LocalWorld := mkLocalWorld {
  lw_requests : @RequestStore.Store GatewayEvent ErrorDetail;
  lw_capacity : CapacityStore.State;
  lw_limiter : RateLimiter.Limiter;
  lw_breaker : CircuitBreaker.Breaker;
  lw_now : timestamp;
  lw_calls : nat;
  lw_streams : list model_stream;
  lw_interrupts : list bool;
}.

Definition outcome_of {A} (r : result A) : outcome A := match r with Ok a => Ret a | Err _ => Raise OtherExn end.

Definition set_requests (w : LocalWorld) x : LocalWorld :=
  mkLocalWorld x (lw_capacity w) (lw_limiter w) (lw_breaker w) (lw_now w) (lw_calls w) (lw_streams w) (lw_interrupts w).
Definition set_capacity_store (w : LocalWorld) x : LocalWorld :=
  mkLocalWorld (lw_requests w) x (lw_limiter w) (lw_breaker w) (lw_now w) (lw_calls w) (lw_streams w) (lw_interrupts w).
Definition set_limiter (w : LocalWorld) x : LocalWorld :=
  mkLocalWorld (lw_requests w) (lw_capacity w) x (lw_breaker w) (lw_now w) (lw_calls w) (lw_streams w) (lw_interrupts w).
Definition set_breaker (w : LocalWorld) x : LocalWorld :=
  mkLocalWorld (lw_requests w) (lw_capacity w) (lw_limiter w) x (lw_now w) (lw_calls w) (lw_streams w) (lw_interrupts w).

(** One of the policies of the world *)
Definition on_requests {A} (f : @RequestStore.Store GatewayEvent ErrorDetail → A * @RequestStore.Store GatewayEvent ErrorDetail) (w : LocalWorld) : A * LocalWorld :=
  let '(a, x) := f (lw_requests w) in (a, set_requests w x).
Definition on_capacity {A} (f : CapacityStore.State → A * CapacityStore.State) (w : LocalWorld) : A * LocalWorld :=
  let '(a, x) := f (lw_capacity w) in (a, set_capacity_store w x).
Definition on_limiter {A} (f : RateLimiter.Limiter → A * RateLimiter.Limiter) (w : LocalWorld) : A * LocalWorld :=
  let '(a, x) := f (lw_limiter w) in (a, set_limiter w x).
Definition on_breaker {A} (f : CircuitBreaker.Breaker → A * CircuitBreaker.Breaker) (w : LocalWorld) : A * LocalWorld :=
  let '(a, x) := f (lw_breaker w) in (a, set_breaker w x).
Definition awaited {A} (f : LocalWorld → result A * LocalWorld) (w : LocalWorld) : outcome A * LocalWorld :=
  let '(r, w') := f w in (outcome_of r, w').

Definition local_requests : RequestStore.Operations LocalWorld :=
  let memory := RequestStore.in_memory (ErrorValue := ErrorDetail) is_completed in
  RequestStore.mkOperations _
    (λ w t i h, on_requests (λ x, RequestStore.op_claim memory x t i h) w)
    (λ w t i h e, on_requests (λ x, RequestStore.op_complete memory x t i h e) w)
    (λ w t i h e, on_requests (λ x, RequestStore.op_fail memory x t i h e) w)
    (λ w t i h, on_requests (λ x, RequestStore.op_release memory x t i h) w).

Section LocalClient.
Context (c : CapacityStore.Config) (lease_duration heartbeat : timedelta) (prices : option (pystr → option RoutePrice)).

(** The heartbeat renews when its interval has passed since the last renewal. *)
Definition local_heartbeat (w : LocalWorld) (lease : CapacityLease) : (CapacityLease * Heartbeat) * LocalWorld :=
  if (lw_now w <? CapacityStore.cl_expires_at lease - lease_duration + heartbeat)%Z then ((lease, HB_RUNNING), w) else
  let '(r, w') := on_capacity (λ x, CapacityStore.renew (utc (lw_now w)) x lease lease_duration) w in
  (_heartbeat_capacity [Renewed (outcome_of r)] lease, w').

Definition local_gateway (w : LocalWorld) (_ : GatewayRequest) : model_stream * LocalWorld :=
  (default (mkModelStream [] (Raise OtherExn)) (head (lw_streams w)),
   mkLocalWorld (lw_requests w) (lw_capacity w) (lw_limiter w) (lw_breaker w) (lw_now w) (S (lw_calls w))
     (tail (lw_streams w)) (lw_interrupts w)).
Definition local_interrupted (w : LocalWorld) : bool * LocalWorld :=
  (default false (head (lw_interrupts w)),
   mkLocalWorld (lw_requests w) (lw_capacity w) (lw_limiter w) (lw_breaker w) (lw_now w) (lw_calls w)
     (lw_streams w) (tail (lw_interrupts w))).
(** A cancellation arrives once around a shielded operation. *)
Definition local_shield (w : LocalWorld) : Shield * LocalWorld :=
  let '(cancelled, w') := local_interrupted w in (if cancelled then CancelledOnce else Undisturbed, w').
Definition local_sleep (w : LocalWorld) (delay : Q) : outcome unit * LocalWorld :=
  (Ret tt, mkLocalWorld (lw_requests w) (lw_capacity w) (lw_limiter w) (lw_breaker w) (lw_now w + Z.max 0 (Qceiling (delay * 1000000)))%Z
     (lw_calls w) (lw_streams w) (lw_interrupts w)).

Definition local_environment : ClientEnvironment LocalWorld := mkClientEnvironment LocalWorld
  local_requests
  (λ w t r, awaited (on_limiter (λ x, RateLimiter.acquire (lw_now w) x t r)) w)
  (λ w, (Ret tt, w))
  (λ w t r i n d, awaited (on_capacity (λ x,
     CapacityStore.acquire c (utc (lw_now w)) (fresh (dom (CapacityStore.leases x))) x t r i n d)) w)
  (λ w lease n, awaited (on_capacity (λ x, CapacityStore.release c (utc (lw_now w)) x lease n)) w)
  local_heartbeat
  (λ w r, awaited (on_breaker (λ x, CircuitBreaker.allow (lw_now w) x r)) w)
  (λ w r, awaited (on_breaker (λ x, CircuitBreaker.record_success x r)) w)
  (λ w r, awaited (on_breaker (λ x, CircuitBreaker.record_failure (lw_now w) x r)) w)
  local_gateway (λ w, (Ret tt, w)) local_interrupted local_shield local_sleep (λ w, (1#2, w))
  prices None (λ w, (lw_now w, w)) None.
End LocalClient.

(** ** It keeps the laws *)

Import RequestStore Requests Capacity.

Section Laws.
Context (c : CapacityStore.Config) (Hc : CapacityStore.config_ok c = true).
Context (lease_duration heartbeat : timedelta) (prices : option (pystr → option RoutePrice)).
Context (request_hash : GatewayRequest → pystr) (request : GatewayRequest).
Context (Hroute : identifier_string (gq_route_name request) = Ok (gq_route_name request)).

Definition local_view (w : LocalWorld) : Client.Table := stored (lw_requests w).
Definition local_ok (w : LocalWorld) : Prop :=
  table_ok (ErrorValue := ErrorDetail) is_completed (local_view w) ∧ capacity_inv c (lw_capacity w).
Definition local_held (w : LocalWorld) : option uuid :=
  CapacityStore.requests (lw_capacity w) !! (gq_tenant_id request, gq_request_id request).

#[export] Instance local_contract : RequestStoreContract is_completed local_requests local_view.
Proof.
  split; intros w; intros; cbn [local_requests op_claim op_complete op_fail op_release] in *;
    unfold on_requests, local_view in *;
    match goal with H : (let '(_, _) := ?f in _) = _ |- _ => destruct f as [r x] eqn:E; injection H as <- <- end;
    cbn [set_requests lw_requests] in *.
  - eapply contract_claim; [apply (in_memory_contract is_completed)|done..].
  - eapply contract_complete; [apply (in_memory_contract is_completed)|done..].
  - eapply contract_fail; [apply (in_memory_contract is_completed)|done..].
  - eapply contract_release; [apply (in_memory_contract is_completed)|done..].
Qed.

(** Calls of the request store *)
Lemma on_requests_kept {A} (f : @Store GatewayEvent ErrorDetail → A * @Store GatewayEvent ErrorDetail) w :
  (local_ok w → table_ok (ErrorValue := ErrorDetail) is_completed (stored (f (lw_requests w)).2)) →
  Client.store_kept local_ok local_held lw_calls w (on_requests f w).2.
Proof.
  intros Hf Hok. specialize (Hf Hok). unfold on_requests. destruct (f (lw_requests w)) as [a x]. cbn in *.
  destruct Hok as [_ Hcap]. split; [by split|]. split; [by intros i|done].
Qed.

(** Policies whose state the laws do not speak about *)
Lemma elsewhere_kept w w' : local_view w' = local_view w → lw_capacity w' = lw_capacity w → lw_calls w' = lw_calls w →
  Client.world_kept request local_ok local_view local_held lw_calls w w'.
Proof.
  intros Hv Hcap Hcalls [Hok1 Hok2]. unfold local_ok, Client.no_new_lease, local_held. rewrite Hv, Hcap.
  split; [by split|]. split; [done|]. split; [by intros i|done].
Qed.

(** *** The capacity store *)

Lemma prune_requests now s key id :
  CapacityStore.requests (CapacityStore._prune now s) !! key = Some id → CapacityStore.requests s !! key = Some id.
Proof. cbn. rewrite delete_keys_lookup. by case_bool_decide. Qed.

Lemma capacity_kept w x : capacity_inv c x →
  (∀ id, CapacityStore.requests x !! (gq_tenant_id request, gq_request_id request) = Some id → local_held w = Some id) →
  Client.world_kept request local_ok local_view local_held lw_calls w (set_capacity_store w x).
Proof. intros Hinv Hheld [Hok _]. split; [by split|]. split; [done|]. split; [exact Hheld|done]. Qed.

Lemma renew_requests clock s lease d r s' key id : CapacityStore.renew clock s lease d = (r, s') →
  CapacityStore.requests s' !! key = Some id → CapacityStore.requests s !! key = Some id.
Proof.
  unfold CapacityStore.renew. intros H. repeat case_match; injection H as <- <-; cbn; try done;
    intros Hk; by eapply prune_requests in Hk.
Qed.

Lemma rejection_rejects scope retry (claim : CapacityClaim) :
  CapacityStore.rejection scope retry = Ok claim → claim = CapacityStore.Rejected scope retry.
Proof. unfold CapacityStore.rejection. intros H. by run_inv H. Qed.

Lemma acquire_requests clock id s t r req n d res s' : capacity_inv c s →
  CapacityStore.acquire c clock id s t r req n d = (res, s') →
  match res with
  | Ok (CapacityStore.Granted lease) => CapacityStore.requests s' !! (t, req) = Some (CapacityStore.cl_id lease)
  | _ => ∀ i, CapacityStore.requests s' !! (t, req) = Some i → CapacityStore.requests s !! (t, req) = Some i
  end.
Proof.
  intros Hinv H. unfold CapacityStore.acquire in H.
  destruct (_bounded_integer _ _ ≫= _) as [now|]; [|by injection H as <- <-].
  pose proof (prune_inv c now _ Hinv) as Hp. pose proof (prune_requests now s (t, req)) as Hsub.
  set (s1 := CapacityStore._prune now s) in *. clearbody s1.
  destruct (CapacityStore.requests s1 !! (t, req)) as [eid|] eqn:Ereq.
  { destruct (CapacityStore.leases s1 !! eid) as [st|] eqn:Est; [|injection H as <- <-; by rewrite Ereq].
    destruct (_ || _); injection H as <- <-; [by rewrite Ereq|]. rewrite Ereq.
    destruct (ci_ids _ _ Hp _ _ Est) as [-> _]. done. }
  assert (Hnone : ∀ s2, CapacityStore.requests s2 = CapacityStore.requests s1 → ∀ i,
    CapacityStore.requests s2 !! (t, req) = Some i → CapacityStore.requests s !! (t, req) = Some i).
  { intros s2 Hs2 i. by rewrite Hs2, Ereq. }
  assert (Hrej : ∀ (m : result timedelta) scope s2, CapacityStore.requests s2 = CapacityStore.requests s1 →
    match (m ≫= CapacityStore.rejection scope) with
    | Ok (CapacityStore.Granted lease) => CapacityStore.requests s2 !! (t, req) = Some (CapacityStore.cl_id lease)
    | _ => ∀ i, CapacityStore.requests s2 !! (t, req) = Some i → CapacityStore.requests s !! (t, req) = Some i
    end).
  { intros m scope s2 Hs2. destruct (m ≫= _) as [[lease|]|] eqn:Eo; try by apply Hnone.
    apply bind_Ok in Eo as (x & _ & Eo%rejection_rejects). done. }
  destruct (_ <=? _)%Z; [injection H as <- <-; by apply Hrej|].
  destruct (_ <=? _)%Z in H; [injection H as <- <-; by apply Hrej|].
  destruct (CapacityStore._token_window c r now s1) as [w s2] eqn:Ew.
  destruct (token_window_inv c Hc _ _ _ _ _ Hp Ew) as (_ & _ & _ & Er & _).
  destruct (_ <? _)%Z; [injection H as <- <-; by apply (Hrej (Ok _))|].
  destruct (CapacityStore.validate_lease _) as [lease|] eqn:Ev; injection H as <- <-; [|by apply Hnone].
  cbn [CapacityStore.requests]. rewrite lookup_insert_eq.
  apply validate_lease_Ok in Ev as (_ & Hid & _). by rewrite Hid.
Qed.

Lemma release_requests clock s lease n res s' : capacity_inv c s →
  CapacityStore.release c clock s lease n = (res, s') →
  (∀ k i, CapacityStore.requests s' !! k = Some i → CapacityStore.requests s !! k = Some i) ∧
  (is_ok res = true → ∀ k, CapacityStore.requests s' !! k ≠ Some (CapacityStore.cl_id lease)).
Proof.
  intros Hinv H. pose proof (capacity_release_inv c Hc _ _ _ _ _ _ Hinv H) as Hinv'. unfold CapacityStore.release in H.
  destruct (ensure _ _ ≫= _) as [now|]; [|by injection H as <- <-].
  destruct (CapacityStore.leases s !! CapacityStore.cl_id lease) as [st|] eqn:Hst.
  2:{ injection H as <- <-. split; [done|]. intros _ k Hk. destruct (ci_requests _ _ Hinv _ _ Hk) as (? & ? & _). congruence. }
  destruct (bool_decide _); [|by injection H as <- <-].
  set (s1 := CapacityStore.mkState _ _ _) in *. destruct (CapacityStore._token_window c _ now s1) as [w s2] eqn:Ew.
  assert (CapacityStore.leases s2 = CapacityStore.leases s1 ∧ CapacityStore.requests s2 = CapacityStore.requests s1) as [El Er].
  { unfold CapacityStore._token_window in Ew. by repeat case_match; injection Ew as <- <-. }
  assert (CapacityStore.leases s' = CapacityStore.leases s1 ∧ CapacityStore.requests s' = CapacityStore.requests s1) as [El' Er'].
  { by destruct (bool_decide _); injection H as <- <-. }
  split.
  - intros k i. rewrite Er'. cbn. by intros [_ ?]%lookup_delete_Some.
  - intros _ k Hk. destruct (ci_requests _ _ Hinv' _ _ Hk) as (x & Hx & _). rewrite El' in Hx. cbn in Hx.
    by rewrite lookup_delete_eq in Hx.
Qed.

Lemma heartbeat_same_lease beats : ∀ lease,
  CapacityStore.cl_id (_heartbeat_capacity beats lease).1 = CapacityStore.cl_id lease.
Proof.
  induction beats as [|[|[renewed|[]]] rest IH]; intros lease; cbn; try done.
  destruct (_valid_capacity_renewal lease renewed) eqn:E; [|done]. rewrite IH. unfold _valid_capacity_renewal in E.
  by bool_hyps.
Qed.

#[export] Instance local_laws :
  Client.ClientLaws (local_environment c lease_duration heartbeat prices) request_hash request local_ok local_view local_held lw_calls.
Proof.
  split; cbn [local_environment ce_requests ce_acquire ce_release ce_gateway ce_heartbeat ce_rate ce_wait_slot ce_allow
    ce_record_success ce_record_failure ce_close ce_interrupted ce_shield ce_sleep ce_random ce_model_calls ce_clock].
  - apply local_contract.
  - by intros w [? _].
  - intros w Hid. apply on_requests_kept. intros [Hok _]. by apply (claim_table_ok is_completed (in_memory is_completed) stored).
  - intros w e. apply on_requests_kept. intros [Hok _]. by apply (complete_table_ok is_completed (in_memory is_completed) stored).
  - intros w e. apply on_requests_kept. intros [Hok _]. by apply (fail_table_ok is_completed (in_memory is_completed) stored).
  - intros w. apply on_requests_kept. intros [Hok _]. by apply (release_table_ok is_completed (in_memory is_completed) stored).
  - intros w n d res w' [Hok Hcap]. unfold awaited, on_capacity.
    destruct (CapacityStore.acquire _ _ _ _ _ _ _ _ _) as [r x] eqn:E. intros [= <- <-].
    pose proof (acquire_requests _ _ _ _ _ _ _ _ _ _ Hcap E) as Hreq.
    assert (capacity_inv c x) as Hx.
    { eapply (capacity_acquire_inv c Hc); [exact Hcap|exact Hroute| |exact E]. apply not_elem_of_dom, is_fresh. }
    split; [by split|]. split; [done|]. split; [done|]. by destruct r as [[]|]; cbn.
  - intros w lease n res w' [Hok Hcap]. unfold awaited, on_capacity.
    destruct (CapacityStore.release _ _ _ _ _) as [r x] eqn:E. intros [= <- <-].
    destruct (release_requests _ _ _ _ _ _ Hcap E) as [Hsub Hnot].
    pose proof (capacity_release_inv c Hc _ _ _ _ _ _ Hcap E) as Hx.
    split; [by split|]. split; [done|]. split; [done|]. split; [intros i; apply Hsub|].
    destruct r; cbn; [by apply Hnot|done].
  - intros w items w' [Hok Hcap] [= <- <-]. split; [by split|]. split; [done|]. split; [by intros i|done].
  - intros w lease. unfold local_heartbeat, on_capacity. destruct (_ <? _)%Z; [done|]. destruct (CapacityStore.renew _ _ _ _) as [r x]. cbn [fst].
    apply heartbeat_same_lease.
  - intros t r w. unfold awaited, on_limiter. destruct (RateLimiter.acquire _ _ _ _). by apply elsewhere_kept.
  - intros w. by apply elsewhere_kept.
  - intros lease w. unfold local_heartbeat, on_capacity. destruct (_ <? _)%Z; [by apply elsewhere_kept|].
    intros [Hok Hcap]. destruct (CapacityStore.renew _ _ _ _) as [r x] eqn:E.
    apply capacity_kept; [by eapply (capacity_renew_inv c)| |by split]. intros i. by eapply renew_requests.
  - intros r w. unfold awaited, on_breaker. destruct (CircuitBreaker.allow _ _ _). by apply elsewhere_kept.
  - intros r w. unfold awaited, on_breaker. destruct (CircuitBreaker.record_success _ _). by apply elsewhere_kept.
  - intros r w. unfold awaited, on_breaker. destruct (CircuitBreaker.record_failure _ _ _). by apply elsewhere_kept.
  - intros w. by apply elsewhere_kept.
  - intros w. by apply elsewhere_kept.
  - intros w. by apply elsewhere_kept.
  - intros d w. by apply elsewhere_kept.
  - intros w. by apply elsewhere_kept.
  - done.
  - intros w. by apply elsewhere_kept.
Qed.

End Laws.

(** ** A run *)

Module LocalRun.
Definition request1 : GatewayRequest :=
  mkGatewayRequest 1 2 3 1 1 (py "call-1") (py "request-1") (py "fast") [] [].
Definition request_hash1 (_ : GatewayRequest) : pystr := py "aaaaaaaaaaaaaaaaaaaaaaaaaaaaaaaaaaaaaaaaaaaaaaaaaaaaaaaaaaaaaaaa".
Definition request_size1 (_ : GatewayRequest) : Z := 100.
Definition event_size1 (_ : GatewayEvent) : Z := 10.
Definition seconds_text1 (_ : timedelta) : pystr := py "1".
Definition config1 : GatewayClientConfig :=
  mkClientConfig [py "fast"] 1000 100 10000 3 (1#20) 2 (1#5) 8192 (seconds 300) (seconds 60).
Definition limits1 : CapacityStore.Config := CapacityStore.mkConfig 8 32 1000000 (seconds 60).

Definition text1 : GatewayEvent := GatewayTextDelta (py "hello").
Definition completed1 : GatewayEvent :=
  ResponseCompleted (mkCompleted FINISH_STOP 10 5 0 None (Some (py "provider")) (Some (py "model"))).

(** The provider fails once, then answers. *)
Definition world1 : LocalWorld := mkLocalWorld
  (mkStore 100 ∅) CapacityStore.initial (RateLimiter.mkLimiter 60 (seconds 60) 1000 ∅) (CircuitBreaker.mkBreaker 5 (seconds 30) 100 ∅)
  (seconds 1000) 0 [mkModelStream [] (Raise OtherExn); mkModelStream [Some text1; Some completed1] (Ret tt)] [].
Definition client1 : ClientState LocalWorld := mkClientState world1 32 false false false [] no_execution.

Definition environment1 : ClientEnvironment LocalWorld := local_environment limits1 (seconds 300) (seconds 60) None.
Definition run1 : outcome unit * ClientState LocalWorld :=
  stream environment1 config1 request_size1 request_hash1 event_size1 seconds_text1 request1 client1.

Example run1_works : run1.1 = Ret tt ∧ gs_yielded run1.2 = [text1; completed1] ∧ lw_calls (gs_world run1.2) = 2 ∧
  gs_free_slots run1.2 = 32%Z ∧ gs_cleanup_required run1.2 = false.
Proof. split_and!; vm_compute; reflexivity. Qed.

(** A price of 10^-10 USD per million tokens is a valid price; the cost of ten tokens has
    more decimals than the event accepts.  The provider answered, the text was streamed,
    and the request is stored as failed. *)
Definition run4 : outcome unit * ClientState LocalWorld :=
  stream (local_environment limits1 (seconds 300) (seconds 60) (Some (λ _, Some (mkPrice 1 0 0)))) config1 request_size1 request_hash1
    event_size1 seconds_text1 request1 client1.
Example precise_price_loses_answer : run4.1 = Raise OtherExn ∧ gs_yielded run4.2 = [text1] ∧
  (sr_status <$> local_view (gs_world run4.2) !! (1%N, py "request-1")) = Some FAILED.
Proof. split_and!; vm_compute; reflexivity. Qed.

(** The same request again, on the client the first stream left *)
Definition again (s : ClientState LocalWorld) : ClientState LocalWorld :=
  mkClientState (gs_world s) (gs_free_slots s) (gs_closing s) (gs_cleanup_required s) (gs_closed s) [] no_execution.
Definition client2 : ClientState LocalWorld := again run1.2.
Definition run2 : outcome unit * ClientState LocalWorld :=
  stream environment1 config1 request_size1 request_hash1 event_size1 seconds_text1 request1 client2.


Lemma limits1_ok : CapacityStore.config_ok limits1 = true.
Proof. reflexivity. Defined.
Lemma route1_ok : identifier_string (gq_route_name request1) = Ok (gq_route_name request1).
Proof. reflexivity. Defined.
Lemma identity1_ok : identity_ok (gq_request_id request1) (request_hash1 request1).
Proof. split; reflexivity. Defined.
Lemma world1_ok : local_ok limits1 world1.
Proof. split; [apply map_Forall_empty|apply (Capacity.initial_inv limits1 limits1_ok)]. Qed.
#[local] Instance laws1 : Client.ClientLaws environment1 request_hash1 request1 (local_ok limits1) local_view (local_held request1) lw_calls :=
  local_laws limits1 limits1_ok (seconds 300) (seconds 60) None request_hash1 request1 route1_ok.

Lemma stream_result_durable_witness :
  local_view (gs_world run1.2) !! (1%N, py "request-1") =
    Some (mkStored (request_hash1 request1) COMPLETED [text1; completed1] None).
Proof.
  assert (run1 = (Ret tt, run1.2)) as E by (vm_compute; reflexivity).
  destruct (Client.stream_result_durable environment1 config1 request_size1 request_hash1 event_size1 seconds_text1 request1
    (local_ok limits1) local_view (local_held request1) lw_calls client1 run1.2 identity1_ok) as [H _].
  - split; [apply world1_ok|split; reflexivity].
  - exact E.
  - replace [text1; completed1] with (gs_yielded run1.2) by (vm_compute; reflexivity). exact H.
Defined.



Abbreviation episode1 := (Client.episode environment1 config1 request_size1 request_hash1 event_size1 seconds_text1 request1
  (local_ok limits1) local_view (local_held request1) lw_calls).
Lemma again_episode s : episode1 s (again s).
Proof.
  apply Client.episode_other. intros Hok. split; [exact Hok|]. split; [reflexivity|]. split; [by intros i|reflexivity].
Qed.
Lemma again_ready s : local_ok limits1 (gs_world s) → Client.ready (local_ok limits1) (again s).
Proof. intros Hok. by split. Qed.
Lemma client1_ready : Client.ready (local_ok limits1) client1.
Proof. split; [apply world1_ok|by split]. Qed.
Lemma client2_ready : Client.ready (local_ok limits1) client2.
Proof.
  apply again_ready. exact (Client.stream_ok environment1 config1 request_size1 request_hash1 event_size1 seconds_text1 request1
    (local_ok limits1) local_view (local_held request1) lw_calls client1 identity1_ok client1_ready).
Qed.

(** Two streams of the request cost the two provider calls of the first. *)
Lemma provider_calls_bounded_witness : lw_calls (gs_world run2.2) = 2 ∧ lw_calls (gs_world run2.2) ≤ 0 + 3.
Proof.
  split; [vm_compute; reflexivity|].
  refine (proj1 (Client.provider_calls_bounded environment1 config1 request_size1 request_hash1 event_size1 seconds_text1 request1
    (local_ok limits1) local_view (local_held request1) lw_calls client1 run2.2 identity1_ok world1_ok eq_refl _)).
  apply (star_next _ _ run1.2); [exact (Client.episode_stream _ _ _ _ _ _ _ _ _ _ _ client1 client1_ready)|].
  apply (star_next _ _ client2); [exact (again_episode run1.2)|].
  apply (star_next _ _ run2.2); [exact (Client.episode_stream _ _ _ _ _ _ _ _ _ _ _ client2 client2_ready)|].
  apply star_refl.
Defined.
End LocalRun.
