(* ===== verification/LifecycleProperties.v ===== *)
(** * Holds, tenant deletion and the deletion outbox

    Histories of lifecycle operations interleaved with the writes of every other
    repository, and what stays true along them: legal holds stop deletion, a tenant
    only moves forward and is erased completely, stale deletion leases are fenced, and
    the tenant triggers stop the memory queue. *)

From stdpp Require Import base list sets gmap strings sorting.
From Stdlib Require Import ZArith Lia.
From S2P Require Import Prelude PyBase Domain Tables Contracts Execution MemoryJobs EventStore GatewayStores LifecycleTables DataLifecycle.
Import LifecycleRepository.

(** ** Queries *)

Lemma is_none_None {A} (o : option A) : is_none o = true ↔ o = None.
Proof. by destruct o. Qed.
Lemma is_some_Some {A} (o : option A) : is_some o = true ↔ ∃ a, o = Some a.
Proof. destruct o; naive_solver. Qed.

Section Queries.
Context `{Countable K} {V : Type} (P : V → bool) (m : gmap K V).
Lemma no_row : is_none (scalar_where P m) = true ↔ ∀ k v, m !! k = Some v → P v = false.
Proof.
  rewrite is_none_None. split; [intros E k v; by apply scalar_where_None|]. intros Hn.
  destruct (scalar_where P m) as [v|] eqn:E; [|done]. apply scalar_where_Some in E as [HP [k Hk]]. by rewrite (Hn _ _ Hk) in HP.
Qed.
Lemma no_row_of : is_some (scalar_where P m) = false ↔ ∀ k v, m !! k = Some v → P v = false.
Proof. rewrite <- no_row. by destruct (scalar_where P m). Qed.
End Queries.

Lemma no_hold p t at_ :
  _has_active_hold p t at_ = false ↔ ∀ k h, legal_holds p !! k = Some h → hold_active t at_ h = false.
Proof. apply no_row_of. Qed.

(** ** Histories *)

Section Histories.
Variable uuid5 : pystr → uuid.
Variable uuid_text : uuid → pystr.
Variable isoformat : timestamp → pystr.

(** One committed transaction: any lifecycle operation with any arguments and clocks,
    an entry of the audit sink, or a write of another repository. *)
Inductive lifecycle_step : PlatformDb → PlatformDb → Prop :=
| step_create_export p e r p' : create_audit_export p e = Ok (r, p') → lifecycle_step p p'
| step_complete_export p e r p' : complete_audit_export p e = Ok (r, p') → lifecycle_step p p'
| step_fail_export p i t e r p' : fail_audit_export p i t e = Ok (r, p') → lifecycle_step p p'
| step_place p h r p' : place_legal_hold p h = Ok (r, p') → lifecycle_step p p'
| step_release_hold p t i who at_ r p' : release_legal_hold p t i who at_ = Ok (r, p') → lifecycle_step p p'
| step_request p t q who at_ after e r p' :
    request_tenant_deletion uuid5 uuid_text isoformat p t q who at_ after e = Ok (r, p') → lifecycle_step p p'
| step_begin p t at_ r p' : begin_tenant_deletion p t at_ = Ok (r, p') → lifecycle_step p p'
| step_retention p at_ n r p' : enqueue_expired_artifacts uuid5 p at_ n = Ok (r, p') → lifecycle_step p p'
| step_enqueue p t n now r p' : enqueue_tenant_objects uuid5 p t n now = Ok (r, p') → lifecycle_step p p'
| step_claim_deletions p w at_ s n locked token r p' :
    claim_object_deletions p w at_ s n locked token = Ok (r, p') → lifecycle_step p p'
| step_complete_deletion p l now r p' : complete_object_deletion p l now = Ok (r, p') → lifecycle_step p p'
| step_fail_deletion p l e at_ now r p' : fail_object_deletion p l e at_ now = Ok (r, p') → lifecycle_step p p'
| step_finalize p t at_ r p' : finalize_tenant_deletion p t at_ = Ok (r, p') → lifecycle_step p p'
| step_audit p row p' : add_audit p row = Ok p' → lifecycle_step p p'
| step_write p p' : tenant_write p p' → lifecycle_step p p'.
End Histories.

(** ** What a step may change *)

(** No run of the tenant is active. *)
Definition runs_settled (x : TenantTables) (t : uuid) : Prop :=
  ∀ k r, runs (control x) !! k = Some r → rr_tenant_id r = t → rr_status r ∉ _NONTERMINAL_RUN_STATUSES.

(** No row of the tenant is left. *)
Definition tenant_erased (x : TenantTables) (t : uuid) : Prop := ∀ r, has_row x r → row_tenant r ≠ t.

(** The audit evidence of a request *)
Definition has_evidence (p : PlatformDb) (l : TenantLifecycleRecord) : Prop :=
  ∃ i e, tl_audit_export_id l = Some i ∧ audit_exports p !! i = Some e ∧ ex_tenant_id e = tl_tenant_id l ∧
    ex_status e = EXPORT_COMPLETED ∧ tl_requested_at l = Some (ex_cutoff_at e).

(** The request of a deletion stays what it was. *)
Definition same_request_columns (l l' : TenantLifecycleRecord) : Prop :=
  tl_tenant_id l' = tl_tenant_id l ∧ tl_request_id l' = tl_request_id l ∧ tl_requested_by l' = tl_requested_by l ∧
  tl_requested_at l' = tl_requested_at l ∧ tl_delete_after l' = tl_delete_after l ∧
  tl_audit_export_id l' = tl_audit_export_id l.

(** Which objects may enter the outbox: expired ones of active tenants, all of a
    tenant under deletion. *)
Definition may_queue (p : PlatformDb) (t : uuid) (reason : ObjectDeletionReason) : Prop :=
  match reason with
  | RETENTION_EXPIRED => tenant_active p t = true
  | TENANT_DELETION => ∃ l, tenant_lifecycles p !! t = Some l ∧ tl_status l = DELETING
  end.

(** The moves of a tenant *)
Inductive tenant_move (p p' : PlatformDb) (t : uuid) (l' : TenantLifecycleRecord) : Prop :=
| move_request : tenant_active p t = true → data p' = data p → tl_status l' = DELETION_REQUESTED →
    runs_settled (data p) t → tl_tenant_id l' = t → has_evidence p l' → tenant_move p p' t l'
| move_begin l at_ : tenant_lifecycles p !! t = Some l → tl_status l = DELETION_REQUESTED → tl_status l' = DELETING →
    same_request_columns l l' → tl_deletion_started_at l' = Some at_ → (∀ a, tl_delete_after l = Some a → a ≤ at_)%Z →
    _has_active_hold p t at_ = false → tenant_move p p' t l'
| move_finalize l at_ : tenant_lifecycles p !! t = Some l → tl_status l = DELETING → tl_status l' = DELETED →
    same_request_columns l l' → tl_deletion_started_at l' = tl_deletion_started_at l → tl_deleted_at l' = Some at_ →
    _has_active_hold p t at_ = false → tenant_erased (data p') t →
    (∀ k j, deletion_jobs p' !! k = Some j → dj_tenant_id j = t → dj_status j = DEL_COMPLETED) → tenant_move p p' t l'.

(** The moves of a deletion job *)
Record job_move (p : PlatformDb) (j j' : ObjectDeletionJobRecord) : Prop := {
  jm_identity : dj_id j' = dj_id j ∧ dj_tenant_id j' = dj_tenant_id j ∧ dj_object_key j' = dj_object_key j ∧
    dj_reason j' = dj_reason j;
  jm_running : dj_status j' = DEL_RUNNING →
    j' = j ∨ (dj_lease_generation j' = dj_lease_generation j + 1 ∧ dj_status j ≠ DEL_COMPLETED ∧ dj_status j ≠ DEL_FAILED ∧
      _has_active_hold p (dj_tenant_id j) (dj_updated_at j') = false)%Z;
  jm_generation : (dj_lease_generation j ≤ dj_lease_generation j')%Z;
  jm_final : dj_status j = DEL_COMPLETED ∨ dj_status j = DEL_FAILED →
    dj_status j' = dj_status j ∧ dj_outcome_lease_token j' = dj_outcome_lease_token j;
}.

Record step_effect (p p' : PlatformDb) : Prop := {
  se_ok : platform_ok p';
  se_rows : ∀ r, has_row (data p') r → has_row (data p) r ∨ tenant_active p (row_tenant r) = true;
  se_tenants : ∀ t l', tenant_lifecycles p' !! t = Some l' → tenant_lifecycles p !! t = Some l' ∨ tenant_move p p' t l';
  se_tenants_stay : ∀ t l, tenant_lifecycles p !! t = Some l → ∃ l', tenant_lifecycles p' !! t = Some l';
  se_exports : ∀ i e, audit_exports p !! i = Some e → ex_status e = EXPORT_COMPLETED → audit_exports p' !! i = Some e;
  se_holds : ∀ i h', legal_holds p' !! i = Some h' → legal_holds p !! i = Some h' ∨ lh_released_at h' ≠ None ∨
    (deletion_jobs p' = deletion_jobs p ∧
     ∀ k j, deletion_jobs p !! k = Some j → dj_tenant_id j = lh_tenant_id h' → dj_status j ≠ DEL_RUNNING);
  se_jobs : ∀ k j', deletion_jobs p' !! k = Some j' →
    (deletion_jobs p !! k = None ∧ dj_status j' = DEL_PENDING ∧ may_queue p (dj_tenant_id j') (dj_reason j')) ∨
    ∃ j, deletion_jobs p !! k = Some j ∧ job_move p j j';
  se_jobs_stay : ∀ k j, deletion_jobs p !! k = Some j → ∃ j', deletion_jobs p' !! k = Some j';
}.

Lemma job_move_refl p j : job_move p j j.
Proof. split; try done; by left. Qed.
#[local] Hint Resolve job_move_refl : core.

Lemma same_request_columns_refl l : same_request_columns l l.
Proof. done. Qed.

Lemma effect_refl p : platform_ok p → step_effect p p.
Proof. intros Hp. split; try done; eauto. Qed.

(** A step that leaves all but one table alone *)
Lemma effect_exports p m :
  platform_ok (set_audit_exports p m) →
  (∀ i e, audit_exports p !! i = Some e → ex_status e = EXPORT_COMPLETED → m !! i = Some e) →
  step_effect p (set_audit_exports p m).
Proof. intros Hp Hm. split; try done; cbn; eauto. Qed.
Lemma effect_audit p m : platform_ok (set_audit_log p m) → step_effect p (set_audit_log p m).
Proof. intros Hp. split; try done; cbn; eauto. Qed.
Lemma effect_holds p m :
  platform_ok (set_legal_holds p m) →
  (∀ i h', m !! i = Some h' → legal_holds p !! i = Some h' ∨ lh_released_at h' ≠ None ∨
     ∀ k j, deletion_jobs p !! k = Some j → dj_tenant_id j = lh_tenant_id h' → dj_status j ≠ DEL_RUNNING) →
  step_effect p (set_legal_holds p m).
Proof.
  intros Hp Hm. split; try done; cbn; eauto. intros i h' Hh. destruct (Hm i h' Hh) as [?|[?|?]]; auto.
Qed.
Lemma effect_jobs p m :
  platform_ok (set_deletion_jobs p m) →
  (∀ k j', m !! k = Some j' →
    (deletion_jobs p !! k = None ∧ dj_status j' = DEL_PENDING ∧ may_queue p (dj_tenant_id j') (dj_reason j')) ∨
    ∃ j, deletion_jobs p !! k = Some j ∧ job_move p j j') →
  (∀ k j, deletion_jobs p !! k = Some j → ∃ j', m !! k = Some j') →
  step_effect p (set_deletion_jobs p m).
Proof. intros Hp Hm Hs. split; try done; cbn; eauto. Qed.

(** *** Exports and holds *)

Lemma create_audit_export_effect p e r p' :
  platform_ok p → create_audit_export p e = Ok (r, p') → step_effect p p'.
Proof.
  intros Hp H. unfold create_audit_export in H. run_inv H. destruct (audit_exports p !! axp_id e) as [row|] eqn:E; run_inv H.
  - by apply effect_refl.
  - apply statement_Ok in Hrun0 as [-> Hok]. apply effect_exports; [done|]. intros i x Hi _. cbn.
    rewrite lookup_insert_ne; [done|congruence].
Qed.

Lemma complete_audit_export_effect p e r p' :
  platform_ok p → complete_audit_export p e = Ok (r, p') → step_effect p p'.
Proof.
  intros Hp H. unfold complete_audit_export in H. run_inv H. destruct (ex_status v0) eqn:E; run_inv H.
  - apply statement_Ok in Hrun4 as [-> Hok]. apply effect_exports; [done|]. intros i x Hi Hx. cbn.
    rewrite lookup_insert_ne; [done|]. intros Heq. destruct (pk_exports _ Hp _ _ Hrun0) as [Hid _]. congruence.
  - by apply effect_refl.
Qed.

Lemma fail_audit_export_effect p i t e r p' :
  platform_ok p → fail_audit_export p i t e = Ok (r, p') → step_effect p p'.
Proof.
  intros Hp H. unfold fail_audit_export in H. run_inv H. apply statement_Ok in Hrun2 as [-> Hok].
  apply effect_exports; [done|]. intros k x Hk Hx. cbn. rewrite lookup_insert_ne; [done|].
  intros Heq. bool_hyps. destruct (pk_exports _ Hp _ _ Hrun) as [Hid _]. congruence.
Qed.

Lemma place_legal_hold_effect p h r p' :
  platform_ok p → place_legal_hold p h = Ok (r, p') → step_effect p p'.
Proof.
  intros Hp H. unfold place_legal_hold in H. run_inv H. unfold _require_no_running_deletions in Hrun. run_inv Hrun.
  rewrite no_row in Hrun. destruct (legal_holds p !! lh_id h) as [row|] eqn:E; run_inv H; [by apply effect_refl|].
  apply statement_Ok in Hrun1 as [-> Hok]. apply effect_holds; [done|]. intros i h' [[<- <-]|[Hne Hi]]%lookup_insert_Some; [|by left].
  right. right. intros k j Hj Ht Hs. specialize (Hrun k j Hj). by rewrite Ht, Hs, !bool_decide_true in Hrun.
Qed.

Lemma release_legal_hold_effect p t i who at_ r p' :
  platform_ok p → release_legal_hold p t i who at_ = Ok (r, p') → step_effect p p'.
Proof.
  intros Hp H. unfold release_legal_hold in H. run_inv H. destruct (is_some (lh_released_at v)) eqn:E; run_inv H; [by apply effect_refl|].
  apply statement_Ok in Hrun2 as [-> Hok]. apply effect_holds; [done|].
  intros k h' [[<- <-]|[Hne Hi]]%lookup_insert_Some; [|by left]. right. by left.
Qed.

(** *** Tenants *)

Lemma no_active_runs p t u : _require_no_active_runs p t = Ok u → runs_settled (data p) t.
Proof.
  unfold _require_no_active_runs. rewrite ensure_Ok, no_row. intros Hn k r Hk Ht Hs. specialize (Hn k r Hk).
  unfold run_active in Hn. by rewrite Ht, !bool_decide_true in Hn.
Qed.
Lemma no_hold_required p t at_ u : _require_no_hold p t at_ = Ok u → _has_active_hold p t at_ = false.
Proof. unfold _require_no_hold. rewrite ensure_Ok. by destruct (_has_active_hold p t at_). Qed.

(** Only the lifecycle row of one tenant and the audit log change. *)
Lemma effect_tenant p l m :
  let p' := set_audit_log (put_lifecycle p l) m in
  platform_ok p' → tenant_move p p' (tl_tenant_id l) l → step_effect p p'.
Proof.
  intros p' Hp Hm. split; try done; cbn; eauto.
  - intros t l' [[<- <-]|[Hne Ht]]%lookup_insert_Some; auto.
  - intros t l' Hl. destruct (decide (tl_tenant_id l = t)) as [->|Hne].
    + rewrite lookup_insert_eq. eauto.
    + rewrite lookup_insert_ne by done. eauto.
Qed.

Lemma request_new_effect uuid5 uuid_text isoformat p t q who at_ after e r p' :
  platform_ok p → tenant_active p t = true →
  request_new uuid5 uuid_text isoformat p t q who at_ after e = Ok (r, p') → step_effect p p'.
Proof.
  intros Hp Ha H. unfold request_new, add_audit in H. run_inv H.
  apply statement_Ok in Hrun3 as [-> _]. apply statement_Ok in Hrun4 as [-> Hok]. bool_hyps.
  apply (effect_tenant p _ _ Hok). apply move_request; try done; [by eapply no_active_runs|].
  exists e, v1. cbn. split_and!; try done. congruence.
Qed.

Lemma request_tenant_deletion_effect uuid5 uuid_text isoformat p t q who at_ after e r p' :
  platform_ok p →
  request_tenant_deletion uuid5 uuid_text isoformat p t q who at_ after e = Ok (r, p') → step_effect p p'.
Proof.
  intros Hp H. unfold request_tenant_deletion in H. run_inv H.
  destruct (tenant_lifecycles p !! t) as [row|] eqn:E.
  - case_bool_decide as Hs.
    + eapply request_new_effect; [done| |exact H]. unfold tenant_active. rewrite E. by rewrite bool_decide_true.
    + run_inv H. by apply effect_refl.
  - eapply request_new_effect; [done| |exact H]. unfold tenant_active. by rewrite E.
Qed.

Lemma begin_tenant_deletion_effect p t at_ r p' :
  platform_ok p → begin_tenant_deletion p t at_ = Ok (r, p') → step_effect p p'.
Proof.
  intros Hp H. unfold begin_tenant_deletion in H. run_inv H. destruct (tl_status v) eqn:E; run_inv H; [|by apply effect_refl].
  apply statement_Ok in Hrun5 as [-> Hok]. apply (effect_tenant p _ (audit_log p) Hok).
  destruct (pk_lifecycles _ Hp _ _ Hrun) as [Ht _].
  eapply (move_begin _ _ _ _ v at_); cbn; rewrite ?Ht; try done.
  - intros a Ha. rewrite Ha in Hrun0. bool_hyps. lia.
  - by eapply no_hold_required.
Qed.

(** *** Queueing *)

Section Queueing.
Variable uuid5 : pystr → uuid.
Abbreviation candidate_job := (candidate_job uuid5).

(** [p'] has the jobs of [p] and new ones for candidates. *)
Definition queued (p : PlatformDb) (cs : list Candidate) (at_ : timestamp) (p' : PlatformDb) : Prop :=
  ∃ m, p' = set_deletion_jobs p m ∧ deletion_jobs p ⊆ m ∧
    (∀ k j', m !! k = Some j' → deletion_jobs p !! k = Some j' ∨
      deletion_jobs p !! k = None ∧ ∃ c, c ∈ cs ∧ j' = candidate_job c at_) ∧
    (∀ c, c ∈ cs → key_queued p' (ca_object_key c) = true).

Lemma key_queued_iff p key : key_queued p key = true ↔ ∃ k j, deletion_jobs p !! k = Some j ∧ dj_object_key j = key.
Proof.
  unfold key_queued. split.
  - intros [j Hj]%is_some_Some. apply scalar_where_Some in Hj as [HP [k Hk]]. apply bool_decide_eq_true in HP. eauto.
  - intros (k & j & Hj & Hk). destruct (is_some _) eqn:E; [done|].
    rewrite no_row_of in E. specialize (E _ _ Hj). by rewrite bool_decide_true in E.
Qed.
Lemma key_queued_mono p m key :
  deletion_jobs p ⊆ m → key_queued p key = true → key_queued (set_deletion_jobs p m) key = true.
Proof. rewrite !key_queued_iff. intros Hm (k & j & Hj & Hk). exists k, j. split; [|done]. by eapply lookup_weaken. Qed.

Lemma set_set_jobs p m m' : set_deletion_jobs (set_deletion_jobs p m) m' = set_deletion_jobs p m'.
Proof. done. Qed.

Lemma insert_jobs_queued at_ cs n p n' p' :
  foldM (insert_job uuid5 at_) (n, p) cs = Ok (n', p') → queued p cs at_ p'.
Proof.
  revert n p. induction cs as [|c cs IH]; intros n p H; cbn in H.
  - injection H as <- <-. exists (deletion_jobs p). split_and!; try done; [by destruct p|auto|].
    intros c Hc. by apply elem_of_nil in Hc.
  - apply bind_Ok in H as ([n1 p1] & H1 & H). apply IH in H as (m & -> & Hsub & Hnew & Hall). clear IH.
    destruct (key_queued p (ca_object_key c)) eqn:Ek.
    + injection H1 as <- <-. exists m. split_and!; try done.
      * intros k j' Hj. destruct (Hnew k j' Hj) as [?|(? & c' & Hc & ->)]; [by left|]. right. split; [done|].
        exists c'. split; [by right|done].
      * intros c' [->|Hc]%elem_of_cons; [|by apply Hall]. by apply key_queued_mono.
    + run_inv H1. apply is_none_None in Hrun. unfold put_deletion_job, set_deletion_jobs in Hsub, Hnew.
      cbn [deletion_jobs] in Hsub, Hnew.
      assert (deletion_jobs p ⊆ m) as Hsub'.
      { etransitivity; [|exact Hsub]. by apply insert_subseteq. }
      exists m. split_and!; try done.
      * intros k j' Hj. destruct (Hnew k j' Hj) as [[[<- <-]|[Hne Hk]]%lookup_insert_Some|(Hk & c' & Hc & ->)].
        -- right. split; [done|]. exists c. split; [by left|done].
        -- by left.
        -- apply lookup_insert_None in Hk as [Hk _]. right. split; [done|]. exists c'. split; [by right|done].
      * intros c' [->|Hc]%elem_of_cons; [|by apply Hall]. apply key_queued_iff. exists (dj_id (candidate_job c at_)), (candidate_job c at_). split; [|done].
        eapply lookup_weaken; [|exact Hsub]. apply lookup_insert_eq.
Qed.

Lemma insert_deletion_jobs_queued p cs at_ n p' :
  _insert_deletion_jobs uuid5 p cs at_ = Ok (n, p') → queued p cs at_ p' ∧ platform_ok p'.
Proof.
  intros H. unfold _insert_deletion_jobs in H. run_inv H. apply statement_Ok in Hrun0 as [-> Hok].
  split; [|done]. by eapply insert_jobs_queued.
Qed.

(** New jobs of candidates that may be deleted *)
Lemma queued_effect p cs at_ p' :
  queued p cs at_ p' → platform_ok p' →
  (∀ c, c ∈ cs → may_queue p (ca_tenant_id c) (ca_reason c)) →
  step_effect p p'.
Proof.
  intros (m & -> & Hsub & Hnew & _) Hok Hc. apply effect_jobs; [done| |].
  - intros k j' Hj. destruct (Hnew k j' Hj) as [?|(Hk & c & Hin & ->)]; [right; eauto|]. left. split_and!; [done|done|].
    by apply Hc.
  - intros k j Hj. exists j. by eapply lookup_weaken.
Qed.

Lemma queued_app p cs1 at_ p1 cs2 p2 : queued p cs1 at_ p1 → queued p1 cs2 at_ p2 → queued p (cs1 ++ cs2) at_ p2.
Proof.
  intros (m1 & -> & Hs1 & Hn1 & Ha1) (m2 & -> & Hs2 & Hn2 & Ha2). exists m2. cbn in *. split_and!; [done|by etransitivity| |].
  - intros k j' Hj. destruct (Hn2 k j' Hj) as [Hk|(Hk & c & Hc & ->)].
    + destruct (Hn1 k j' Hk) as [?|(? & c & Hc & ->)]; [by left|]. right. split; [done|]. exists c.
      split; [|done]. apply elem_of_app. by left.
    + right. split; [|exists c; split; [apply elem_of_app; by right|done]].
      destruct (deletion_jobs p !! k) as [j|] eqn:E; [|done]. by rewrite (lookup_weaken _ _ _ _ E Hs1) in Hk.
  - intros c [Hc|Hc]%elem_of_app; [|by apply Ha2]. by apply (key_queued_mono (set_deletion_jobs p m1)); [|apply Ha1].
Qed.

Lemma enqueue_expired_artifacts_effect p at_ limit n p' :
  enqueue_expired_artifacts uuid5 p at_ limit = Ok (n, p') → step_effect p p'.
Proof.
  intros H. unfold enqueue_expired_artifacts in H. run_inv H. apply insert_deletion_jobs_queued in H as [Hq Hok].
  eapply queued_effect; [exact Hq|done|]. intros c (a & -> & Ha)%list_elem_of_fmap.
  apply list_elem_of_filter in Ha as [Ha _]. unfold _tenant_cleanup_allowed in Ha. by destruct (_has_active_hold _ _ _).
Qed.

Lemma elem_of_sorted_rows {K V : Type} `{Countable K} (R : relation V) `{!RelDecision R} n P (m : gmap K V) v :
  v ∈ take n (merge_sort R (select_where P m)) → P v = true ∧ ∃ k, m !! k = Some v.
Proof.
  intros Hv. apply elem_of_select. rewrite <- (merge_sort_Permutation R). rewrite <- (take_drop n (merge_sort R _)).
  apply elem_of_app. by left.
Qed.

(** The objects a tenant-wide scan queues *)
Lemma enqueue_tenant_objects_queued p t limit now n p' :
  enqueue_tenant_objects uuid5 p t limit now = Ok (n, p') →
  ∃ l cs, tenant_lifecycles p !! t = Some l ∧ tl_status l = DELETING ∧ queued p cs (tl_updated_at l) p' ∧ platform_ok p' ∧
    Forall (λ c, ca_tenant_id c = t ∧ ca_reason c = TENANT_DELETION) cs ∧ _has_active_hold p t now = false.
Proof.
  intros H. unfold enqueue_tenant_objects in H. run_inv H. apply no_hold_required in Hrun2.
  apply insert_deletion_jobs_queued in Hrun3 as [Hq Hok]. bool_hyps.
  set (rows := take _ _) in Hq, H.
  assert (Forall (λ c, ca_tenant_id c = t ∧ ca_reason c = TENANT_DELETION)
    ((λ a, mkCandidate (ar_tenant_id a) (Some (ar_id a)) (ar_object_key a) TENANT_DELETION) <$> rows)) as Hrows.
  { apply Forall_fmap, Forall_forall. intros a [Ha _]%elem_of_sorted_rows. by bool_hyps. }
  exists v0. destruct (_ <=? 0)%Z; run_inv H; [by eexists|].
  apply insert_deletion_jobs_queued in Hrun3 as [Hq2 Hok2]. pose proof (queued_app _ _ _ _ _ _ Hq Hq2) as Hq3.
  eexists. split_and!; [done|done|exact Hq3|done| |done].
  apply Forall_app. split; [done|]. apply Forall_fmap, Forall_forall. intros s [Hs _]%elem_of_sorted_rows. by bool_hyps.
Qed.

Lemma enqueue_tenant_objects_effect p t limit now n p' :
  enqueue_tenant_objects uuid5 p t limit now = Ok (n, p') → step_effect p p'.
Proof.
  intros (l & cs & Hl & Hs & Hq & Hok & Hcs & _)%enqueue_tenant_objects_queued. eapply queued_effect; [exact Hq|done|].
  intros c Hc. rewrite Forall_forall in Hcs. destruct (Hcs c Hc) as [-> ->]. cbn. eauto.
Qed.
End Queueing.

(** *** Leases *)

Lemma put_jobs_lookup l p :
  ∃ m, foldl put_deletion_job p l = set_deletion_jobs p m ∧
    (∀ k j', m !! k = Some j' → deletion_jobs p !! k = Some j' ∨ (j' ∈ l ∧ dj_id j' = k)) ∧
    (∀ k j, deletion_jobs p !! k = Some j → ∃ j', m !! k = Some j') ∧
    (∀ j, j ∈ l → ∃ j', j' ∈ l ∧ m !! dj_id j = Some j').
Proof.
  revert p. induction l as [|x l IH]; intros p.
  - exists (deletion_jobs p). split_and!; [by destruct p|auto|eauto|]. intros j Hj. by apply elem_of_nil in Hj.
  - cbn [foldl]. destruct (IH (put_deletion_job p x)) as (m & -> & Hm & Hs & Hl). exists m. cbn in Hm, Hs. split_and!; [done| | |].
    + intros k j' Hj. destruct (Hm k j' Hj) as [[[<- <-]|[Hne Hk]]%lookup_insert_Some|[Hin Hid]]; [| |].
      * right. split; [by left|done].
      * by left.
      * right. split; [by right|done].
    + intros k j Hj. destruct (decide (dj_id x = k)) as [<-|Hne].
      * apply (Hs _ x). apply lookup_insert_eq.
      * apply (Hs _ j). by rewrite lookup_insert_ne.
    + intros j [->|Hj]%elem_of_cons.
      * destruct (Hs (dj_id x) x) as [j' Hj']; [apply lookup_insert_eq|]. exists j'. split; [|done].
        destruct (Hm _ _ Hj') as [Hx|[Hin _]]; [|by right]. rewrite lookup_insert_eq in Hx. injection Hx as <-. by left.
      * destruct (Hl j Hj) as (j' & Hin & Hj'). exists j'. split; [by right|done].
Qed.

Lemma recover_job_move p at_ j : job_move p j (recover_job at_ j).
Proof.
  unfold recover_job. case_bool_decide as Hs; cbn; [|by apply job_move_refl].
  destruct (dj_lease_expires_at j) as [e|]; [|by apply job_move_refl]. destruct (e <=? at_)%Z; [|by apply job_move_refl].
  destruct (dj_attempt j <? _)%Z; (split; [done|done|done|]); intros [?|?]; congruence.
Qed.

Lemma recover_job_open at_ j :
  dj_status (recover_job at_ j) = DEL_PENDING → dj_status j ≠ DEL_COMPLETED ∧ dj_status j ≠ DEL_FAILED.
Proof.
  unfold recover_job. case_bool_decide as Hs; cbn; [by rewrite Hs|]. intros ->. done.
Qed.
Lemma recover_job_same at_ j :
  dj_id (recover_job at_ j) = dj_id j ∧ dj_tenant_id (recover_job at_ j) = dj_tenant_id j ∧
  dj_object_key (recover_job at_ j) = dj_object_key j ∧ dj_reason (recover_job at_ j) = dj_reason j ∧
  dj_lease_generation (recover_job at_ j) = dj_lease_generation j.
Proof. unfold recover_job. by repeat case_match. Qed.

(** A claimed job comes from an open one of a tenant without active hold. *)
Lemma claim_move p at_ token w expires j :
  dj_status (recover_job at_ j) = DEL_PENDING → _has_active_hold p (dj_tenant_id j) at_ = false →
  job_move p j (lease_job token w at_ expires (recover_job at_ j)).
Proof.
  intros Hs Hh. destruct (recover_job_open _ _ Hs) as [Hc Hf].
  destruct (recover_job_same at_ j) as (E1 & E2 & E3 & E4 & E5). split; cbn; rewrite ?E1, ?E2, ?E3, ?E4, ?E5.
  - done.
  - intros _. right. done.
  - lia.
  - by intros [?|?].
Qed.

(** What a claim leases *)
Lemma claim_leased p w at_ s n locked token r p' :
  platform_ok p → claim_object_deletions p w at_ s n locked token = Ok (r, p') →
  let recovered := set_deletion_jobs p (recover_job at_ <$> deletion_jobs p) in
  ∃ leased, p' = foldl put_deletion_job recovered leased ∧ platform_ok p' ∧
    traverse _object_deletion_lease leased = Ok r ∧
    (∀ j', j' ∈ leased → ∃ j, deletion_jobs p !! dj_id j' = Some j ∧ dj_status (recover_job at_ j) = DEL_PENDING ∧
      (dj_attempt (recover_job at_ j) < MAX_LIFECYCLE_ATTEMPTS)%Z ∧ _has_active_hold p (dj_tenant_id j) at_ = false ∧
      j' = lease_job token w at_ (at_ + seconds s)%Z (recover_job at_ j)).
Proof.
  intros Hp H. unfold claim_object_deletions, _recover_expired_jobs in H. run_inv H.
  apply statement_Ok in Hrun2 as [-> Hok1]. apply statement_Ok in Hrun4 as [-> Hok]. intros recovered.
  eexists. split_and!; [reflexivity|done|done|]. intros j' (j1 & -> & Hj1)%list_elem_of_fmap.
  apply list_elem_of_filter in Hj1 as [Hh Hj1]. apply elem_of_sorted_rows in Hj1 as [Hc [k Hk]].
  cbn in Hk. rewrite lookup_fmap in Hk. destruct (deletion_jobs p !! k) as [j|] eqn:Ej; [|done]. injection Hk as <-.
  exists j. destruct (recover_job_same at_ j) as (E1 & E2 & _). unfold claimable in Hc. bool_hyps.
  destruct (pk_jobs _ Hp _ _ Ej) as [Hid _]. cbn. rewrite E1, Hid. rewrite E2 in Hh. done.
Qed.

Lemma claim_object_deletions_effect p w at_ s n locked token r p' :
  platform_ok p → claim_object_deletions p w at_ s n locked token = Ok (r, p') → step_effect p p'.
Proof.
  intros Hp H. destruct (claim_leased _ _ _ _ _ _ _ _ _ Hp H) as (leased & -> & Hok & _ & Hl).
  destruct (put_jobs_lookup leased (set_deletion_jobs p (recover_job at_ <$> deletion_jobs p))) as (m & E & Hm & Hs & _).
  rewrite E in Hok |- *. rewrite set_set_jobs in Hok |- *. cbn in Hm, Hs. apply effect_jobs; [done| |].
  - intros k j' Hj. right. destruct (Hm k j' Hj) as [Hk|[Hin <-]].
    + rewrite lookup_fmap in Hk. destruct (deletion_jobs p !! k) as [j|] eqn:Ej; [|done]. injection Hk as <-.
      exists j. split; [done|]. apply recover_job_move.
    + destruct (Hl j' Hin) as (j & Hj0 & Hst & _ & Hh & Heq). exists j. split; [done|]. rewrite Heq. by apply claim_move.
  - intros k j Hj. eapply Hs. by rewrite lookup_fmap, Hj.
Qed.

(** Holding a lease *)
Definition lease_held (p : PlatformDb) (l : ObjectDeletionLease) : Prop :=
  ∃ j, deletion_jobs p !! dl_job_id l = Some j ∧ _require_deletion_lease j l = Ok tt.

Lemma require_lease_running j l :
  _require_deletion_lease j l = Ok tt →
  dj_status j = DEL_RUNNING ∧ dj_lease_token j = Some (dl_lease_token l) ∧ dj_lease_generation j = dl_lease_generation l ∧
  dj_tenant_id j = dl_tenant_id l ∧ dj_object_key j = dl_object_key l ∧ dj_artifact_id j = dl_artifact_id l.
Proof. unfold _require_deletion_lease. rewrite ensure_Ok. intros H. by bool_hyps. Qed.

(** A running job is closed by its lease. *)
Lemma close_move p j a s o e u c :
  dj_status j = DEL_RUNNING → s ≠ DEL_RUNNING →
  job_move p j (update_job j a s None None o (dj_lease_generation j) (dj_attempt j) None e u c).
Proof. intros Hj Hs. split; cbn; try done. rewrite Hj. by intros [?|?]. Qed.

Lemma effect_put_job p j j' :
  platform_ok (put_deletion_job p j') → deletion_jobs p !! dj_id j' = Some j → job_move p j j' →
  step_effect p (put_deletion_job p j').
Proof.
  intros Hok Hj Hm. apply effect_jobs; [done| |].
  - intros k x [[<- <-]|[Hne Hk]]%lookup_insert_Some; right; eauto.
  - intros k x Hk. destruct (decide (dj_id j' = k)) as [<-|Hne]; [rewrite lookup_insert_eq|rewrite lookup_insert_ne by done]; eauto.
Qed.

(** Removing rows of tenant tables *)
Lemma effect_remove p p1 x :
  step_effect p p1 → data p1 = data p → platform_ok (set_data p1 x) → (∀ r, has_row x r → has_row (data p) r) →
  (∀ t l, tenant_lifecycles p1 !! t = Some l → tenant_lifecycles p !! t = Some l) →
  step_effect p (set_data p1 x).
Proof.
  intros [] Hd Hok Hx Hl. split; try done; cbn; eauto.
Qed.

Lemma remove_artifact_rows x (P : uuid * ArtifactRecord → Prop) `{!∀ kv, Decision (P kv)} r :
  has_row (set_artifacts x (filter P (artifacts x))) r → has_row x r.
Proof. destruct r; cbn; try done. by intros [? _]%map_lookup_filter_Some. Qed.

Lemma complete_object_deletion_effect p l now u p' :
  platform_ok p → complete_object_deletion p l now = Ok (u, p') → step_effect p p'.
Proof.
  intros Hp H. unfold complete_object_deletion in H. apply bind_Ok in H as (j & Hj%require_Ok & H). run_inv H.
  destruct (_ && _); run_inv H; [by apply effect_refl|]. destruct v0.
  destruct (require_lease_running _ _ Hrun0) as (Hr & _). destruct (pk_jobs _ Hp _ _ Hj) as [Hid _]. rewrite <- Hid in Hj.
  assert (∀ a, job_move p j (update_job j a DEL_COMPLETED None None (Some (dl_lease_token l)) (dj_lease_generation j)
    (dj_attempt j) None None now (Some now))) as Hm by (intros; by apply close_move).
  destruct (dj_reason j), (dj_artifact_id j) as [a|]; run_inv H;
    try (apply statement_Ok in Hrun2 as [-> Hok]; by eapply effect_put_job).
  apply statement_Ok in Hrun2 as [-> Hok]. apply statement_Ok in Hrun3 as [-> Hok2].
  apply effect_remove; try done; [by eapply effect_put_job|]. intros r. apply remove_artifact_rows.
Qed.

Lemma fail_object_deletion_effect p l e at_ now u p' :
  platform_ok p → fail_object_deletion p l e at_ now = Ok (u, p') → step_effect p p'.
Proof.
  intros Hp H. unfold fail_object_deletion in H. apply bind_Ok in H as (j & Hj%require_Ok & H). run_inv H.
  destruct (_ && _); run_inv H; [by apply effect_refl|]. destruct v0.
  destruct (require_lease_running _ _ Hrun0) as (Hr & _). destruct (pk_jobs _ Hp _ _ Hj) as [Hid _]. rewrite <- Hid in Hj.
  apply statement_Ok in Hrun2 as [-> Hok]. eapply effect_put_job; [done|done|]. apply close_move; [done|].
  by destruct (detail_retryable e && _).
Qed.

(** ** Erasing a tenant *)

(** A statement that concerns the rows of one tenant only *)
Definition spares_others (t : uuid) (f : TenantTables → TenantTables) : Prop :=
  ∀ x r, row_tenant r ≠ t → has_row (f x) r ↔ has_row x r.

Lemma session_gone_other t d tenant s : tenant ≠ t → session_gone t d tenant s = false.
Proof. intros Hne. unfold session_gone. by rewrite bool_decide_false. Qed.
Lemma run_gone_other t d tenant r : tenant ≠ t → run_gone t d tenant r = false.
Proof.
  intros Hne. unfold run_gone. destruct (runs d !! r); [|done]. rewrite session_gone_other by done. by rewrite andb_false_r.
Qed.
Create Rewrite HintDb gone.
#[local] Hint Rewrite session_gone_other run_gone_other using done : gone.

(** Filters keep the rows of other tenants. *)
Ltac spare :=
  intros x r Hne; destruct r; cbn in Hne |- *; try done;
  rewrite ?map_lookup_filter_Some, ?lookup_delete_Some; cbn; autorewrite with gone; try naive_solver.

(** The event counter of a run stays with the run. *)
Lemma spares_counter t x k v :
  runs (control x) !! k = Some v → rr_tenant_id v ≠ t →
  next_event_sequence (events (delete_tenant_sessions t x)) k = next_event_sequence (events x) k.
Proof.
  intros Hk Hne. unfold next_event_sequence. cbn. f_equal. destruct (et_next (events x) !! k) as [z|] eqn:E.
  - apply map_lookup_filter_Some. split; [done|]. cbn. rewrite Hk. by autorewrite with gone.
  - apply map_lookup_filter_None. by left.
Qed.

Lemma spares_sessions t : spares_others t (delete_tenant_sessions t).
Proof.
  intros x r Hne. destruct r as [|k v n| | | | | | | | | | | | | | | | | | | |].
  2: { cbn in Hne |- *. rewrite map_lookup_filter_Some. cbn. rewrite session_gone_other by done. split.
       - intros [[Hk _] ->]. split; [done|]. by apply (spares_counter _ _ _ v).
       - intros [Hk ->]. split; [done|]. symmetry. by apply (spares_counter _ _ _ v). }
  all: revert Hne; cbn; intros Hne; try done; rewrite ?map_lookup_filter_Some; cbn; autorewrite with gone; try naive_solver.
  all: case_match; autorewrite with gone; naive_solver.
Qed.

Lemma spares_checkpoints t : spares_others t (clear_checkpoints t).
Proof.
  spare. rewrite lookup_fmap. destruct (runs (control x) !! k) as [w|]; cbn; [|naive_solver].
  case_bool_decide as Ht; [|done]. split; intros [[= <-] ?]; by destruct Hne.
Qed.
Lemma spares_archive t at_ : spares_others t (archive_workspaces t at_).
Proof.
  spare. rewrite lookup_fmap. destruct (workspaces x !! k) as [w|]; cbn; [|naive_solver].
  case_bool_decide as Ht; [|done]. split; intros [= <-]; by destruct Hne.
Qed.
Lemma spares_snapshots t : spares_others t (delete_tenant_snapshots t).
Proof. spare. rewrite bool_decide_false by done. naive_solver. Qed.
Lemma spares_artifacts t : spares_others t (delete_tenant_artifacts t).
Proof. spare. Qed.
Lemma spares_writer_leases t : spares_others t (delete_writer_leases t).
Proof. spare. Qed.
Lemma spares_workspaces t : spares_others t (delete_tenant_workspaces t).
Proof. spare; rewrite bool_decide_false by done; naive_solver. Qed.
Lemma spares_gateway t a b c : spares_others t (λ x, delete_gateway_rows t x a b c).
Proof. spare; case_match; rewrite ?map_lookup_filter_Some; naive_solver. Qed.
Lemma spares_quota t : spares_others t (delete_quota t).
Proof. spare. case_match; rewrite ?map_lookup_filter_Some; naive_solver. Qed.

#[local] Hint Resolve spares_sessions spares_checkpoints spares_archive spares_snapshots spares_artifacts
  spares_writer_leases spares_workspaces spares_gateway spares_quota : core.

Lemma erase_statements_spare t at_ : Forall (spares_others t) (erase_statements t at_).
Proof. unfold erase_statements. repeat (apply Forall_cons; split; [auto|]). done. Qed.

(** The statements change tenant tables only, and check the constraints each time. *)
Lemma erase_fold l p p' : foldM erase p l = Ok p' → p' = set_data p (foldl (λ x f, f x) (data p) l) ∧ (platform_ok p → platform_ok p').
Proof.
  revert p. induction l as [|f l IH]; intros p H; cbn in H.
  - injection H as <-. split; [by destruct p|done].
  - apply bind_Ok in H as (p1 & H1 & H). apply statement_Ok in H1 as [-> Hok]. destruct (IH _ H) as [-> Hok']. auto.
Qed.

Lemma fold_spares t l x r : Forall (spares_others t) l → row_tenant r ≠ t → has_row (foldl (λ x f, f x) x l) r ↔ has_row x r.
Proof.
  intros Hl Hr. revert x. induction Hl as [|f l Hf _ IH]; intros x; cbn; [done|]. rewrite IH. by apply Hf.
Qed.

(** In a consistent database a tenant without sessions, workspaces and the rows that
    hang on nothing has no rows at all. *)
Lemma erased_by_constraints p t :
  platform_ok p →
  (∀ k v, sessions (control (data p)) !! k = Some v → sess_tenant_id v ≠ t) →
  (∀ k v, workspaces (data p) !! k = Some v → ws_tenant_id v ≠ t) →
  (∀ k v, workspace_leases (control (data p)) !! k = Some v → wl_tenant_id v ≠ t) →
  tenant_quotas (control (data p)) !! t = None →
  (∀ k v, rate_limits (data p) !! k = Some v → k.1 ≠ t) →
  (∀ k v, gateway_requests (data p) !! k = Some v → k.1 ≠ t) →
  tenant_erased (data p) t.
Proof.
  intros Hp Hs Hw Hl Hq Hrl Hrq. pose proof (pk_app _ Hp) as Hd. pose proof (ok_children _ Hd) as Hc.
  assert (∀ k v, runs (control (data p)) !! k = Some v → rr_tenant_id v ≠ t) as Hruns.
  { intros k v Hk. destruct (ok_runs _ Hd _ _ Hk) as (_ & _ & Hr). unfold run_references in Hr. bool_hyps.
    destruct (sessions _ !! _) as [s|] eqn:E; [|done]. bool_hyps. specialize (Hs _ _ E). congruence. }
  assert (∀ k, run_exists (control (data p)) t k = false) as Hre.
  { intros k. unfold run_exists. destruct (runs _ !! k) as [v|] eqn:E; [|done]. by apply bool_decide_false, (Hruns k). }
  assert (∀ k s, run_in_session (control (data p)) t k s = false) as Hris.
  { intros k s. unfold run_in_session. destruct (runs _ !! k) as [v|] eqn:E; [|done]. by rewrite bool_decide_false by (by eapply Hruns). }
  assert (∀ k, session_exists (control (data p)) t k = false) as Hse.
  { intros k. unfold session_exists. destruct (sessions _ !! k) as [v|] eqn:E; [|done]. by apply bool_decide_false, (Hs k). }
  assert (∀ k, workspace_exists (data p) t k = false) as Hwe.
  { intros k. unfold workspace_exists. destruct (workspaces _ !! k) as [v|] eqn:E; [|done]. by apply bool_decide_false, (Hw k). }
  assert (∀ k v, source_snapshots (data p) !! k = Some v → sn_tenant_id v ≠ t) as Hsn.
  { intros k v Hk <-. destruct (pk_snapshots _ Hp _ _ Hk) as (_ & _ & Hr). unfold snapshot_references in Hr. by rewrite Hwe in Hr. }
  intros r Hr Ht. destruct r; cbn in Hr, Ht; subst t.
  - by eapply Hs.
  - destruct Hr as [Hr _]. by eapply Hruns.
  - destruct (ok_run_leases _ Hd _ _ Hr) as (_ & _ & Hx). unfold run_lease_references in Hx. by rewrite Hre in Hx.
  - by eapply Hl.
  - congruence.
  - destruct (ok_checkpoints _ Hc _ _ Hr) as (_ & Hx). unfold checkpoint_ok in Hx. rewrite Hris in Hx. by rewrite andb_false_r in Hx.
  - destruct (ok_messages _ Hc _ _ Hr) as (_ & Hx). unfold message_ok in Hx. rewrite Hris in Hx. by rewrite andb_false_r in Hx.
  - destruct k as [[t k] z]. pose proof (ok_memory_jobs _ Hc _ _ Hr) as Hx. unfold memory_job_ok in Hx. cbn in *.
    rewrite Hris in Hx. by rewrite andb_false_r in Hx.
  - destruct (ok_compactions _ Hc _ _ Hr) as (_ & Hx). unfold compaction_ok in Hx. rewrite Hse in Hx. by rewrite andb_false_r in Hx.
  - pose proof (ok_task_plans _ Hc _ _ Hr) as Hx. cbn in Hx. unfold task_plan_ok in Hx. rewrite Hre in Hx. by rewrite andb_false_r in Hx.
  - destruct k as [[[t k] z] c]. pose proof (ok_tool_calls _ Hc _ _ Hr) as Hx. unfold tool_call_ok in Hx. cbn in *. by rewrite Hre in Hx.
  - destruct (ok_approvals _ Hc _ _ Hr) as (_ & Hx). unfold approval_ok in Hx. rewrite Hre in Hx. by rewrite andb_false_r in Hx.
  - destruct (ok_memories _ Hc _ _ Hr) as (_ & Hx). unfold memory_ok in Hx. rewrite Hris in Hx. by rewrite andb_false_r in Hx.
  - destruct (pk_events _ Hp _ _ Hr) as (Hx & _). by rewrite Hre in Hx.
  - pose proof (pk_model_calls _ Hp _ _ Hr) as Hx. cbn in Hx. by rewrite Hre in Hx.
  - pose proof (pk_capacity _ Hp _ _ Hr) as Hx. cbn in Hx. by rewrite Hq in Hx.
  - by eapply Hrl.
  - by eapply Hrq.
  - by eapply Hw.
  - destruct (pk_artifacts _ Hp _ _ Hr) as (_ & _ & Hx). unfold artifact_references in Hx. by rewrite Hwe in Hx.
  - by eapply Hsn.
  - destruct (pk_validation_jobs _ Hp _ _ Hr) as (_ & _ & Hx). unfold snapshot_exists in Hx.
    destruct (source_snapshots _ !! _) as [s|] eqn:E; [|done]. bool_hyps. by eapply (Hsn _ _ E).
Qed.

Definition erased_tables (t : uuid) (at_ : timestamp) (x : TenantTables) : TenantTables :=
  foldl (λ x f, f x) x (erase_statements t at_).

Lemma erased_tables_erased p t at_ : platform_ok (set_data p (erased_tables t at_ (data p))) → tenant_erased (erased_tables t at_ (data p)) t.
Proof.
  intros Hok. apply (erased_by_constraints _ t Hok); cbn.
  - by intros k v [_ ?]%map_lookup_filter_Some.
  - by intros k v [_ ?]%map_lookup_filter_Some.
  - by intros k v [_ ?]%map_lookup_filter_Some.
  - apply lookup_delete_eq.
  - by intros k v [_ ?]%map_lookup_filter_Some.
  - by intros k v [_ ?]%map_lookup_filter_Some.
Qed.

(** The objects of the tenant: each has a completed job. *)
Lemma objects_deleted p t u :
  _require_objects_deleted p t = Ok u →
  (∀ k j, deletion_jobs p !! k = Some j → dj_tenant_id j = t → dj_status j = DEL_COMPLETED) ∧
  (∀ k a, artifacts (data p) !! k = Some a → ar_tenant_id a = t → key_queued p (ar_object_key a) = true) ∧
  (∀ k s, source_snapshots (data p) !! k = Some s → sn_tenant_id s = t → key_queued p (sn_object_key s) = true).
Proof.
  unfold _require_objects_deleted. rewrite ensure_Ok, !andb_true_iff, !no_row. intros [[Hj Ha] Hs]. split_and!.
  - intros k j Hk Ht. specialize (Hj k j Hk). rewrite bool_decide_true in Hj by done. cbn in Hj.
    apply bool_decide_eq_false in Hj. by apply dec_stable in Hj.
  - intros k a Hk Ht. specialize (Ha k a Hk). rewrite bool_decide_true in Ha by done. cbn in Ha. by apply negb_false_iff in Ha.
  - intros k a Hk Ht. specialize (Hs k a Hk). rewrite bool_decide_true in Hs by done. cbn in Hs. by apply negb_false_iff in Hs.
Qed.

(** The committed effect of a first finalization *)
Lemma finalize_inv p t at_ r p' :
  platform_ok p → finalize_tenant_deletion p t at_ = Ok (r, p') →
  ∃ l, tenant_lifecycles p !! t = Some l ∧
  ((tl_status l = DELETED ∧ p' = p) ∨
   (tl_status l = DELETING ∧ _has_active_hold p t at_ = false ∧ runs_settled (data p) t ∧ platform_ok p' ∧
    (∀ k j, deletion_jobs p !! k = Some j → dj_tenant_id j = t → dj_status j = DEL_COMPLETED) ∧
    (∀ k a, artifacts (data p) !! k = Some a → ar_tenant_id a = t → key_queued p (ar_object_key a) = true) ∧
    (∀ k s, source_snapshots (data p) !! k = Some s → sn_tenant_id s = t → key_queued p (sn_object_key s) = true) ∧
    p' = put_lifecycle (set_data (clear_job_artifacts t p) (erased_tables t at_ (data p)))
           (mkTenantLifecycle t DELETED (tl_request_id l) (tl_requested_by l) (tl_requested_at l) (tl_delete_after l)
              (tl_audit_export_id l) (tl_deletion_started_at l) (Some at_) at_) ∧
    tenant_erased (data p') t)).
Proof.
  intros Hp H. unfold finalize_tenant_deletion in H. apply bind_Ok in H as (l & Hl%require_Ok & H).
  exists l. split; [done|].
  destruct (tl_status l) eqn:Es; run_inv H; [|by left]. right. destruct (pk_lifecycles _ Hp _ _ Hl) as [Ht _].
  apply statement_Ok in Hrun2 as [-> Hok1]. apply erase_fold in Hrun3 as [-> Hok2]. apply statement_Ok in Hrun4 as [-> Hok].
  destruct (objects_deleted _ _ _ Hrun1) as (Hj & Ha & Hs). rewrite Ht in *. split_and!; try done.
  - by eapply no_hold_required.
  - by eapply no_active_runs.
  - apply (erased_tables_erased (clear_job_artifacts t p)). by apply Hok2.
Qed.

Lemma clear_artifact_move p t j :
  dj_status j ≠ DEL_RUNNING →
  job_move p j (if bool_decide (dj_tenant_id j = t)
    then update_job j None (dj_status j) (dj_worker_id j) (dj_lease_token j) (dj_outcome_lease_token j) (dj_lease_generation j)
           (dj_attempt j) (dj_lease_expires_at j) (dj_error j) (dj_updated_at j) (dj_completed_at j)
    else j).
Proof. intros Hs. case_bool_decide; [|apply job_move_refl]. by split. Qed.

Lemma finalize_tenant_deletion_effect p t at_ r p' :
  platform_ok p → finalize_tenant_deletion p t at_ = Ok (r, p') → step_effect p p'.
Proof.
  intros Hp H. destruct (finalize_inv _ _ _ _ _ Hp H) as (l & Hl & [[_ ->]|(Hs & Hh & Hr & Hok & Hj & _ & _ & -> & He)]);
    [by apply effect_refl|]. split; cbn; try done.
  - intros x Hx. left. destruct (decide (row_tenant x = t)) as [Heq|Hne]; [by destruct (He x Hx)|].
    by apply (fold_spares _ _ _ _ (erase_statements_spare t at_) Hne).
  - intros t' l' [[<- <-]|[Hne Hk]]%lookup_insert_Some; [|by left]. right.
    destruct (pk_lifecycles _ Hp _ _ Hl) as [Ht _]. apply (move_finalize _ _ _ _ l at_); try done.
    intros k j Hk Hjt. cbn in Hk. rewrite lookup_fmap in Hk. destruct (deletion_jobs p !! k) as [j0|] eqn:Ej; [|done].
    injection Hk as <-. case_bool_decide; cbn in *; by apply (Hj _ _ Ej).
  - intros t' l' Hl'. destruct (decide (t = t')) as [<-|Hne]; [rewrite lookup_insert_eq|rewrite lookup_insert_ne by done]; eauto.
  - auto.
  - intros k j' Hk. rewrite lookup_fmap in Hk. destruct (deletion_jobs p !! k) as [j|] eqn:Ej; [|done]. injection Hk as <-.
    right. exists j. split; [done|]. case_bool_decide as Hb; [|apply job_move_refl].
    pose proof (clear_artifact_move p t j) as Hm. rewrite bool_decide_true in Hm by done. apply Hm. by rewrite (Hj _ _ Ej Hb).
  - intros k j Hk. rewrite lookup_fmap, Hk. eauto.
Qed.

Lemma lifecycle_step_effect uuid5 uuid_text isoformat p p' :
  platform_ok p → lifecycle_step uuid5 uuid_text isoformat p p' → step_effect p p'.
Proof.
  intros Hp Hs. destruct Hs.
  - by eapply create_audit_export_effect.
  - by eapply complete_audit_export_effect.
  - by eapply fail_audit_export_effect.
  - by eapply place_legal_hold_effect.
  - by eapply release_legal_hold_effect.
  - by eapply request_tenant_deletion_effect.
  - by eapply begin_tenant_deletion_effect.
  - by eapply enqueue_expired_artifacts_effect.
  - by eapply enqueue_tenant_objects_effect.
  - by eapply claim_object_deletions_effect.
  - by eapply complete_object_deletion_effect.
  - by eapply fail_object_deletion_effect.
  - by eapply finalize_tenant_deletion_effect.
  - unfold add_audit in H. run_inv H. apply statement_Ok in H as [-> Hok]. by apply effect_audit.
  - destruct H as (x & -> & Hg & Hok). split; try done; cbn; eauto.
Qed.

(** ** The invariant *)

Record lifecycle_inv (p : PlatformDb) : Prop := {
  li_ok : platform_ok p;
  li_holds : ∀ i h k j, legal_holds p !! i = Some h → deletion_jobs p !! k = Some j → lh_tenant_id h = dj_tenant_id j →
    lh_released_at h = None → dj_status j = DEL_RUNNING → ∃ e, lh_expires_at h = Some e ∧ (e ≤ dj_updated_at j)%Z;
  li_tenants : ∀ t l, tenant_lifecycles p !! t = Some l → tl_status l ≠ TENANT_ACTIVE →
    has_evidence p l ∧ runs_settled (data p) t ∧ (tl_status l = DELETED → tenant_erased (data p) t);
  li_jobs : ∀ k j, deletion_jobs p !! k = Some j → dj_reason j = TENANT_DELETION →
    ∃ l, tenant_lifecycles p !! dj_tenant_id j = Some l ∧ (tl_status l = DELETING ∨ tl_status l = DELETED);
  li_done : ∀ k j l, deletion_jobs p !! k = Some j → tenant_lifecycles p !! dj_tenant_id j = Some l → tl_status l = DELETED →
    dj_status j = DEL_COMPLETED;
}.

(** Before the first lifecycle operation *)
Definition lifecycle_start (p : PlatformDb) : Prop :=
  platform_ok p ∧ tenant_lifecycles p = ∅ ∧ legal_holds p = ∅ ∧ deletion_jobs p = ∅.

Lemma lifecycle_start_inv p : lifecycle_start p → lifecycle_inv p.
Proof. intros (Hp & E1 & E2 & E3). split; rewrite ?E1, ?E2, ?E3; try done; intros *; by rewrite ?lookup_empty. Qed.

Lemma has_evidence_mono p p' l : step_effect p p' → has_evidence p l → has_evidence p' l.
Proof.
  intros He (i & e & Hi & Hx & Ht & Hs & Hr). exists i, e. split_and!; try done. by apply (se_exports _ _ He).
Qed.

(** Rows of a tenant that accepts no writes are old rows. *)
Lemma inactive_rows p p' t l r :
  step_effect p p' → tenant_lifecycles p !! t = Some l → tl_status l ≠ TENANT_ACTIVE → row_tenant r = t →
  has_row (data p') r → has_row (data p) r.
Proof.
  intros He Hl Hs Ht Hr. destruct (se_rows _ _ He r Hr) as [?|Ha]; [done|]. exfalso.
  unfold tenant_active in Ha. rewrite Ht, Hl in Ha. by apply bool_decide_eq_true in Ha.
Qed.
Lemma runs_settled_step p p' t l :
  step_effect p p' → tenant_lifecycles p !! t = Some l → tl_status l ≠ TENANT_ACTIVE →
  runs_settled (data p) t → runs_settled (data p') t.
Proof.
  intros He Hl Hs Hr k v Hk Ht.
  destruct (inactive_rows _ _ _ _ (ROW_run k v (next_event_sequence (events (data p')) k)) He Hl Hs Ht (conj Hk eq_refl)) as [Hk' _].
  by eapply Hr.
Qed.

Lemma has_evidence_columns p l l' : same_request_columns l l' → has_evidence p l → has_evidence p l'.
Proof.
  intros (E1 & _ & _ & E2 & _ & E3) (i & e & Hi & Hx & Ht & Hs & Hr). exists i, e. rewrite E1, E2, E3. done.
Qed.

(** The order of the states of a tenant *)
Definition status_rank (s : TenantLifecycleStatus) : Z :=
  match s with TENANT_ACTIVE => 0 | DELETION_REQUESTED => 1 | DELETING => 2 | DELETED => 3 end.
Definition tenant_le (l l' : TenantLifecycleRecord) : Prop :=
  (status_rank (tl_status l) ≤ status_rank (tl_status l'))%Z ∧ (tl_status l ≠ TENANT_ACTIVE → same_request_columns l l').

Lemma step_tenant_le p p' t l :
  step_effect p p' → tenant_lifecycles p !! t = Some l → ∃ l', tenant_lifecycles p' !! t = Some l' ∧ tenant_le l l'.
Proof.
  intros He Hl. destruct (se_tenants_stay _ _ He t l Hl) as [l' Hl']. exists l'. split; [done|].
  destruct (se_tenants _ _ He t l' Hl') as [E|[Ha _ Hs _ _ _|l1 at_ E H1 H2 Hc _ _ _|l1 at_ E H1 H2 Hc _ _ _ _ _]].
  - rewrite Hl in E. injection E as <-. split; [lia|]. intros _. apply same_request_columns_refl.
  - unfold tenant_active in Ha. rewrite Hl in Ha. bool_hyps. split; rewrite Ha, ?Hs; [cbn; lia|done].
  - rewrite Hl in E. injection E as <-. split; [rewrite H1, H2; cbn; lia|done].
  - rewrite Hl in E. injection E as <-. split; [rewrite H1, H2; cbn; lia|done].
Qed.

Lemma step_inv_tenants p p' t l' :
  lifecycle_inv p → step_effect p p' → tenant_lifecycles p' !! t = Some l' → tl_status l' ≠ TENANT_ACTIVE →
  has_evidence p' l' ∧ runs_settled (data p') t ∧ (tl_status l' = DELETED → tenant_erased (data p') t).
Proof.
  intros Hi He Hl' Hs'.
  assert (∀ l, tenant_lifecycles p !! t = Some l → tl_status l ≠ TENANT_ACTIVE → same_request_columns l l' →
    has_evidence p' l' ∧ runs_settled (data p') t) as Hold.
  { intros l Hl Hs Hc. destruct (li_tenants _ Hi t l Hl Hs) as (Hev & Hr & _). split.
    - eapply has_evidence_mono; [done|]. by eapply has_evidence_columns.
    - by eapply runs_settled_step. }
  destruct (se_tenants _ _ He t l' Hl') as [E|[_ Hd Hs Hr _ Hev|l1 at_ E H1 H2 Hc _ _ _|l1 at_ E H1 H2 Hc _ _ _ Her _]].
  - destruct (Hold l' E Hs' (same_request_columns_refl _)) as [? ?]. split_and!; [done|done|]. intros Hdel r Hr Ht.
    destruct (li_tenants _ Hi t l' E Hs') as (_ & _ & Her). apply (Her Hdel r); [|done]. by eapply inactive_rows.
  - split_and!; [by eapply has_evidence_mono|by rewrite Hd|by rewrite Hs].
  - destruct (Hold l1 E) as [? ?]; [by rewrite H1|done|]. split_and!; [done|done|by rewrite H2].
  - destruct (Hold l1 E) as [? ?]; [by rewrite H1|done|]. done.
Qed.

Lemma hold_expired p t at_ i h :
  _has_active_hold p t at_ = false → legal_holds p !! i = Some h → lh_tenant_id h = t → lh_released_at h = None →
  ∃ e, lh_expires_at h = Some e ∧ (e ≤ at_)%Z.
Proof.
  rewrite no_hold. intros Hn Hh Ht Hr. specialize (Hn i h Hh). unfold hold_active in Hn. rewrite Ht, bool_decide_true, Hr in Hn by done.
  cbn in Hn. destruct (lh_expires_at h) as [e|]; [|done]. bool_hyps. eauto.
Qed.

Lemma step_inv_holds p p' i h k j :
  lifecycle_inv p → step_effect p p' → legal_holds p' !! i = Some h → deletion_jobs p' !! k = Some j →
  lh_tenant_id h = dj_tenant_id j → lh_released_at h = None → dj_status j = DEL_RUNNING →
  ∃ e, lh_expires_at h = Some e ∧ (e ≤ dj_updated_at j)%Z.
Proof.
  intros Hi He Hh Hj Ht Hr Hs. destruct (se_holds _ _ He i h Hh) as [Hh0|[?|[E Hn]]]; [|done|].
  - destruct (se_jobs _ _ He k j Hj) as [(_ & ? & _)|(j0 & Hj0 & Hm)]; [congruence|].
    destruct (jm_running _ _ _ Hm Hs) as [->|(_ & _ & _ & Hno)]; [by eapply (li_holds _ Hi)|].
    destruct (jm_identity _ _ _ Hm) as (_ & Ht0 & _). eapply hold_expired; [exact Hno|done| |done]. congruence.
  - rewrite E in Hj. by destruct (Hn k j Hj).
Qed.

Lemma step_inv_jobs p p' k j :
  lifecycle_inv p → step_effect p p' → deletion_jobs p' !! k = Some j → dj_reason j = TENANT_DELETION →
  ∃ l, tenant_lifecycles p' !! dj_tenant_id j = Some l ∧ (tl_status l = DELETING ∨ tl_status l = DELETED).
Proof.
  intros Hi He Hj Hr.
  assert (∃ l, tenant_lifecycles p !! dj_tenant_id j = Some l ∧ (tl_status l = DELETING ∨ tl_status l = DELETED)) as (l & Hl & Hs).
  { destruct (se_jobs _ _ He k j Hj) as [(_ & _ & Hn)|(j0 & Hj0 & Hm)].
    - rewrite Hr in Hn. destruct Hn as (l & Hl & Hs). eauto.
    - destruct (jm_identity _ _ _ Hm) as (_ & -> & _ & Er). eapply (li_jobs _ Hi); [done|congruence]. }
  destruct (step_tenant_le _ _ _ _ He Hl) as (l' & Hl' & Hle & _). exists l'. split; [done|].
  destruct Hs as [Hs|Hs]; rewrite Hs in Hle; destruct (tl_status l'); cbn in Hle; (lia || auto).
Qed.

Lemma may_queue_not_deleted p t reason l :
  may_queue p t reason → tenant_lifecycles p !! t = Some l → tl_status l ≠ DELETED.
Proof.
  destruct reason; cbn.
  - unfold tenant_active. intros Ha Hl. rewrite Hl in Ha. bool_hyps. congruence.
  - intros (l' & Hl' & Hs) Hl. congruence.
Qed.

Lemma step_inv_done p p' k j l :
  lifecycle_inv p → step_effect p p' → deletion_jobs p' !! k = Some j → tenant_lifecycles p' !! dj_tenant_id j = Some l →
  tl_status l = DELETED → dj_status j = DEL_COMPLETED.
Proof.
  intros Hi He Hj Hl Hs.
  destruct (se_tenants _ _ He _ l Hl) as [E|[_ _ Hs' _ _ _|l1 at_ E H1 H2 _ _ _ _|l1 at_ E H1 H2 _ _ _ _ _ Hd]]; try congruence.
  - destruct (se_jobs _ _ He k j Hj) as [(_ & _ & Hn)|(j0 & Hj0 & Hm)]; [by destruct (may_queue_not_deleted _ _ _ _ Hn E)|].
    destruct (jm_identity _ _ _ Hm) as (_ & Et & _). rewrite Et in E. pose proof (li_done _ Hi _ _ _ Hj0 E Hs) as Hc.
    destruct (jm_final _ _ _ Hm (or_introl Hc)) as [-> _]. done.
  - by eapply Hd.
Qed.

Lemma effect_inv p p' : lifecycle_inv p → step_effect p p' → lifecycle_inv p'.
Proof.
  intros Hi He. split.
  - apply (se_ok _ _ He).
  - intros i h k j. by apply (step_inv_holds p).
  - intros t l. by apply (step_inv_tenants p).
  - intros k j. by apply (step_inv_jobs p).
  - intros k j l. by apply (step_inv_done p).
Qed.

(** Clearing artifact references keeps the keys. *)
Lemma cleared_queued p t x l key :
  key_queued p key = true → key_queued (put_lifecycle (set_data (clear_job_artifacts t p) x) l) key = true.
Proof.
  rewrite !key_queued_iff. intros (k & j & Hj & <-). cbn. eexists k, _. rewrite lookup_fmap, Hj. split; [done|].
  by case_bool_decide.
Qed.

(** ** Theorems *)

Section Theorems.
Variable uuid5 : pystr → uuid.
Variable uuid_text : uuid → pystr.
Variable isoformat : timestamp → pystr.
Abbreviation step := (lifecycle_step uuid5 uuid_text isoformat).

Lemma step_inv p p' : lifecycle_inv p → step p p' → lifecycle_inv p'.
Proof. intros Hi Hs. eapply effect_inv; [done|]. by eapply lifecycle_step_effect; [apply li_ok|]. Qed.

Lemma history_inv p p' : lifecycle_inv p → star step p p' → lifecycle_inv p'.
Proof. intros Hi Hs. exact (star_invariant _ lifecycle_inv step_inv _ _ Hs Hi). Qed.

(** A relation every step keeps *)
Lemma history_relates (Q : PlatformDb → PlatformDb → Prop) :
  (∀ p, Q p p) → (∀ a b c, Q a b → Q b c → Q a c) → (∀ p p', lifecycle_inv p → step_effect p p' → Q p p') →
  ∀ p p', lifecycle_inv p → star step p p' → Q p p'.
Proof.
  intros Hr Ht Hs p p' Hi Hst. refine (star_relates _ lifecycle_inv Q Hr Ht _ _ _ Hst Hi). intros a b Ha Hab. split.
  - by eapply step_inv.
  - apply Hs; [done|]. by eapply lifecycle_step_effect; [apply li_ok|].
Qed.

(** C9: along every history of lifecycle operations and tenant writes, an object of a
    tenant is being deleted under an unreleased legal hold only if the hold had
    expired when the deletion was leased: a hold that is in force stops every
    further deletion, and none is placed over a running one. *)
Theorem hold_stops_deletion p p' i h k j :
  lifecycle_start p → star step p p' →
  legal_holds p' !! i = Some h → lh_released_at h = None →
  deletion_jobs p' !! k = Some j → dj_tenant_id j = lh_tenant_id h → dj_status j = DEL_RUNNING →
  ∃ e, lh_expires_at h = Some e ∧ (e ≤ dj_updated_at j)%Z.
Proof.
  intros Hp Hst Hh Hr Hj Ht Hs. assert (lifecycle_inv p') as Hi by (by eapply history_inv; [apply lifecycle_start_inv|]). by eapply (li_holds p' Hi).
Qed.

Lemma history_forward p p1 p2 t l :
  lifecycle_start p → star step p p1 → star step p1 p2 → tenant_lifecycles p1 !! t = Some l →
  ∃ l', tenant_lifecycles p2 !! t = Some l' ∧
    (status_rank (tl_status l) ≤ status_rank (tl_status l'))%Z ∧
    (tl_status l ≠ TENANT_ACTIVE → same_request_columns l l') ∧
    (tl_status l' ≠ TENANT_ACTIVE → has_evidence p2 l' ∧ runs_settled (data p2) t) ∧
    (tl_status l' = DELETED → tenant_erased (data p2) t).
Proof.
  intros Hp H1 H2 Hl. assert (lifecycle_inv p1) as Hi1 by (by eapply history_inv; [apply lifecycle_start_inv|]).
  assert (∃ l', tenant_lifecycles p2 !! t = Some l' ∧ tenant_le l l') as (l' & Hl' & Hle & Hc).
  { revert l Hl. eapply (history_relates (λ a b, ∀ l, tenant_lifecycles a !! t = Some l →
      ∃ l', tenant_lifecycles b !! t = Some l' ∧ tenant_le l l')); [| | |exact Hi1|exact H2].
    - intros a l Hl. exists l. split; [done|]. split; [lia|]. intros _. apply same_request_columns_refl.
    - intros a b c Hab Hbc l Hl. destruct (Hab l Hl) as (l1 & Hl1 & Hr1 & Hc1). destruct (Hbc l1 Hl1) as (l2 & Hl2 & Hr2 & Hc2).
      exists l2. split; [done|]. split; [lia|]. intros Hs.
      assert (tl_status l1 ≠ TENANT_ACTIVE) as Hs1.
      { intros Hs1. rewrite Hs1 in Hr1. destruct (tl_status l); cbn in Hr1; (done || lia). }
      specialize (Hc1 Hs). specialize (Hc2 Hs1). unfold same_request_columns in *. intuition congruence.
    - intros a b Ha Hab l Hl. by eapply step_tenant_le. }
  assert (lifecycle_inv p2) as Hi2 by (by eapply history_inv).
  exists l'. split_and!; [done|done|done| |].
  - intros Hs. by destruct (li_tenants _ Hi2 t l' Hl' Hs) as (? & ? & _).
  - intros Hs. apply (li_tenants _ Hi2 t l' Hl'); [by rewrite Hs|done].
Qed.

(** C10: the deletion of a tenant only moves forward, from active over requested and
    deleting to deleted, with the columns of its first request; while it is under
    way the audit export it rests on stays completed at the cutoff of the request
    and no run of the tenant is unfinished; once it is deleted no tenant table has a
    row of it, whatever operations and application writes follow. *)
Theorem deletion_moves_forward p p1 p2 t l :
  lifecycle_start p → star step p p1 → star step p1 p2 → tenant_lifecycles p1 !! t = Some l →
  ∃ l', tenant_lifecycles p2 !! t = Some l' ∧
    (status_rank (tl_status l) ≤ status_rank (tl_status l'))%Z ∧
    (tl_status l ≠ TENANT_ACTIVE → same_request_columns l l') ∧
    (tl_status l' ≠ TENANT_ACTIVE → has_evidence p2 l' ∧ runs_settled (data p2) t) ∧
    (tl_status l' = DELETED → tenant_erased (data p2) t).
Proof. apply history_forward. Qed.

(** C8: finalization erases the tenant for good: afterwards, and after any later
    operations, no tenant table has a row of it; the rows of the other tenants are
    the ones from before; every object-deletion job of the tenant is completed, and
    every object key that its artifacts and snapshots had is the key of a deletion
    job (of whatever tenant: the code compares keys only). *)
Theorem finalize_erases_tenant p p1 t at_ r p2 p3 :
  lifecycle_start p → star step p p1 → finalize_tenant_deletion p1 t at_ = Ok (r, p2) → star step p2 p3 →
  tenant_erased (data p3) t ∧
  (∀ row, row_tenant row ≠ t → has_row (data p2) row ↔ has_row (data p1) row) ∧
  (∀ k j, deletion_jobs p2 !! k = Some j → dj_tenant_id j = t → dj_status j = DEL_COMPLETED) ∧
  (∀ k a, artifacts (data p1) !! k = Some a → ar_tenant_id a = t → key_queued p2 (ar_object_key a) = true) ∧
  (∀ k s, source_snapshots (data p1) !! k = Some s → sn_tenant_id s = t → key_queued p2 (sn_object_key s) = true).
Proof.
  intros Hp H1 Hf H3. assert (lifecycle_inv p1) as Hi1 by (by eapply history_inv; [apply lifecycle_start_inv|]).
  assert (star step p p2) as H2 by (eapply star_trans; [exact H1|]; eapply star_next; [by eapply step_finalize|apply star_refl]).
  destruct (finalize_inv _ _ _ _ _ (li_ok _ Hi1) Hf) as (l & Hl & Hcase).
  assert (∃ l', tenant_lifecycles p2 !! t = Some l' ∧ tl_status l' = DELETED) as (l2 & Hl2 & Hs2).
  { destruct Hcase as [[Hs ->]|(_ & _ & _ & _ & _ & _ & _ & -> & _)]; [eauto|]. eexists. split; [apply lookup_insert_eq|done]. }
  assert (tenant_erased (data p3) t) as Her3.
  { destruct (history_forward _ _ _ _ _ Hp H2 H3 Hl2) as (l3 & _ & Hle & _ & _ & Her). apply Her.
    rewrite Hs2 in Hle. destruct (tl_status l3); cbn in Hle; (done || lia). }
  assert (lifecycle_inv p2) as Hi2 by (by eapply history_inv; [apply lifecycle_start_inv|]).
  split_and!; [done| | | |].
  - intros row Hne. destruct Hcase as [[_ ->]|(_ & _ & _ & _ & _ & _ & _ & -> & _)]; [done|].
    apply (fold_spares _ _ _ _ (erase_statements_spare t at_) Hne).
  - intros k j Hj Ht. eapply (li_done _ Hi2); [done| |exact Hs2]. by rewrite Ht.
  - destruct Hcase as [[Hs ->]|(_ & _ & _ & _ & _ & Ha & _ & -> & _)].
    + intros k a Ha Ht. destruct (li_tenants _ Hi1 t l Hl) as (_ & _ & Her); [by rewrite Hs|]. by destruct (Her Hs (ROW_artifact k a) Ha).
    + intros k a Hk Ht. apply cleared_queued. by eapply Ha.
  - destruct Hcase as [[Hs ->]|(_ & _ & _ & _ & _ & _ & Hq & -> & _)].
    + intros k a Ha Ht. destruct (li_tenants _ Hi1 t l Hl) as (_ & _ & Her); [by rewrite Hs|]. by destruct (Her Hs (ROW_snapshot k a) Ha).
    + intros k a Hk Ht. apply cleared_queued. by eapply Hq.
Qed.

(** *** Fencing *)

(** A lease that was overtaken or settled *)
Definition lease_spent (l : ObjectDeletionLease) (p : PlatformDb) : Prop :=
  ∃ j, deletion_jobs p !! dl_job_id l = Some j ∧ (dl_lease_generation l ≤ dj_lease_generation j)%Z ∧
    _require_deletion_lease j l ≠ Ok tt.

Lemma spent_step l p p' : step_effect p p' → lease_spent l p → lease_spent l p'.
Proof.
  intros He (j & Hj & Hg & Hn). destruct (se_jobs_stay _ _ He _ _ Hj) as [j' Hj']. exists j'. split; [done|].
  destruct (se_jobs _ _ He _ _ Hj') as [(Hk & _)|(j0 & Hj0 & Hm)]; [congruence|]. rewrite Hj in Hj0. injection Hj0 as <-.
  split; [pose proof (jm_generation _ _ _ Hm); lia|]. intros Hr.
  destruct (require_lease_running _ _ Hr) as (Hs & _ & Hg' & _). destruct (jm_running _ _ _ Hm Hs) as [->|(Hg1 & _)]; [done|lia].
Qed.

(** The generation of a job only grows. *)
Lemma generation_history p p' k j :
  lifecycle_inv p → star step p p' → deletion_jobs p !! k = Some j →
  ∃ j', deletion_jobs p' !! k = Some j' ∧ (dj_lease_generation j ≤ dj_lease_generation j')%Z.
Proof.
  intros Hi Hst. revert j. eapply (history_relates (λ a b, ∀ j, deletion_jobs a !! k = Some j →
    ∃ j', deletion_jobs b !! k = Some j' ∧ (dj_lease_generation j ≤ dj_lease_generation j')%Z)); [| | |exact Hi|exact Hst].
  - intros a j Hj. exists j. split; [done|lia].
  - intros a b c Hab Hbc j Hj. destruct (Hab j Hj) as (j1 & Hj1 & ?). destruct (Hbc j1 Hj1) as (j2 & Hj2 & ?).
    exists j2. split; [done|lia].
  - intros a b _ He j Hj. destruct (se_jobs_stay _ _ He _ _ Hj) as [j' Hj']. exists j'. split; [done|].
    destruct (se_jobs _ _ He _ _ Hj') as [(Hk & _)|(j0 & Hj0 & Hm)]; [congruence|]. rewrite Hj in Hj0. injection Hj0 as <-.
    apply (jm_generation _ _ _ Hm).
Qed.

Lemma spent_history l p p' : lifecycle_inv p → star step p p' → lease_spent l p → lease_spent l p'.
Proof.
  intros Hi Hst. eapply (history_relates (λ a b, lease_spent l a → lease_spent l b)); [| | |exact Hi|exact Hst]; auto.
  intros a b _ He. by apply spent_step.
Qed.

(** Settling without the lease changes nothing. *)
Lemma complete_spent l p now u p' : lease_spent l p → complete_object_deletion p l now = Ok (u, p') → p' = p.
Proof.
  intros (j & Hj & _ & Hn) H. unfold complete_object_deletion in H. rewrite Hj in H. cbn in H. run_inv H.
  destruct (_ && _); run_inv H; [done|]. by destruct v0.
Qed.
Lemma fail_spent l p e at_ now u p' : lease_spent l p → fail_object_deletion p l e at_ now = Ok (u, p') → p' = p.
Proof.
  intros (j & Hj & _ & Hn) H. unfold fail_object_deletion in H. rewrite Hj in H. cbn in H. run_inv H.
  destruct (_ && _); run_inv H; [done|]. by destruct v0.
Qed.

(** C11: a deletion lease that was lost stays lost: after any further operations neither
    its completion nor its failure changes the database, whoever holds the job by
    then. *)
Theorem stale_deletion_lease_fenced p p1 p2 p3 l :
  lifecycle_start p → star step p p1 → lease_held p1 l → star step p1 p2 → ¬ lease_held p2 l → star step p2 p3 →
  ¬ lease_held p3 l ∧
  (∀ now u p', complete_object_deletion p3 l now = Ok (u, p') → p' = p3) ∧
  (∀ e at_ now u p', fail_object_deletion p3 l e at_ now = Ok (u, p') → p' = p3).
Proof.
  intros Hp H1 (j & Hj & Hr) H2 Hn H3. assert (lifecycle_inv p1) as Hi1 by (by eapply history_inv; [apply lifecycle_start_inv|]).
  assert (lifecycle_inv p2) as Hi2 by (by eapply history_inv).
  destruct (generation_history _ _ _ _ Hi1 H2 Hj) as (j2 & Hj2 & Hg). destruct (require_lease_running _ _ Hr) as (_ & _ & Hg1 & _).
  assert (lease_spent l p2) as Hsp2.
  { exists j2. split_and!; [done|lia|]. intros Hr2. apply Hn. by exists j2. }
  pose proof (spent_history _ _ _ Hi2 H3 Hsp2) as Hsp3. split_and!.
  - intros (j3 & Hj3 & Hr3). destruct Hsp3 as (j4 & Hj4 & _ & Hn4). rewrite Hj3 in Hj4. by injection Hj4 as <-.
  - intros now u p'. by apply complete_spent.
  - intros e at_ now u p'. by apply fail_spent.
Qed.

Lemma validated_lease d l :
  validate_deletion_lease d = Ok l → dl_job_id l = dl_job_id d ∧ dl_worker_id l = strip_by is_white_space (dl_worker_id d).
Proof.
  unfold validate_deletion_lease. intros H. apply bind_Ok in H as (k & _ & H). apply bind_Ok in H as (w & Hw & H).
  unfold identifier_string in Hw. run_inv Hw. run_inv H. done.
Qed.

Lemma other_worker_loses p l j now :
  deletion_jobs p !! dl_job_id l = Some j → dj_status j = DEL_RUNNING → dj_worker_id j ≠ Some (dl_worker_id l) →
  complete_object_deletion p l now = Err object_deletion_lease_lost ∧
  ∀ e at_, fail_object_deletion p l e at_ now = Err object_deletion_lease_lost.
Proof.
  intros Hj Hs Hw. unfold complete_object_deletion, fail_object_deletion, _require_deletion_lease. rewrite Hj. cbn. rewrite Hs.
  rewrite (bool_decide_false (dj_worker_id j = _)) by done.
  destruct (bool_decide (dj_tenant_id j = dl_tenant_id l)); done.
Qed.

(** A worker whose name has surrounding blanks gets leases it can neither complete
    nor fail: the row keeps the name as given and the lease carries it stripped. *)
Theorem padded_worker_loses_lease p w at_ s n locked token ls p' l now :
  platform_ok p → claim_object_deletions p w at_ s n locked token = Ok (ls, p') → strip_by is_white_space w ≠ w → l ∈ ls →
  complete_object_deletion p' l now = Err object_deletion_lease_lost ∧
  ∀ e at1, fail_object_deletion p' l e at1 now = Err object_deletion_lease_lost.
Proof.
  intros Hp H Hw Hl. destruct (claim_leased _ _ _ _ _ _ _ _ _ Hp H) as (leased & -> & Hok & Htr & Hls).
  apply traverse_Ok in Htr. destruct (Forall2_elem_of_r _ _ _ _ Htr Hl) as (j & Hj & Hlease).
  destruct (put_jobs_lookup leased (set_deletion_jobs p (recover_job at_ <$> deletion_jobs p))) as (m & E & _ & _ & Hm).
  destruct (Hm j Hj) as (j' & Hj' & Hk). destruct (Hls j' Hj') as (j0 & _ & _ & _ & _ & ->).
  destruct (Hls j Hj) as (j1 & _ & _ & _ & _ & ->). rewrite E. cbn in Hlease, Hk. apply validated_lease in Hlease as [Hid Hwk].
  eapply other_worker_loses; [cbn; rewrite Hid; exact Hk|done|]. rewrite Hwk. intros Heq. injection Heq as Heq. by apply Hw.
Qed.
End Theorems.

(** ** Tenant deletion and the job queues

    The trigger that refuses writes of tenants under deletion, against a claim that
    does not look at the tenant's lifecycle. *)

Import MemoryRepository.

Section MemoryQueue.
Variable job_id : job_key → uuid.

Lemma job_before_irrefl a : job_before job_id a a = false.
Proof. unfold job_before. by rewrite Z.ltb_irrefl, N.ltb_irrefl, andb_false_r. Qed.
Lemma job_before_asym a b : job_before job_id a b = true → job_before job_id b a = false.
Proof.
  unfold job_before. rewrite orb_true_iff, orb_false_iff, andb_true_iff, andb_false_iff, !Z.ltb_lt, Z.ltb_ge, !Z.eqb_eq, Z.eqb_neq, N.ltb_lt, N.ltb_ge.
  intros [H|[H1 H2]]; (split; [lia|]); [left; lia|right; lia].
Qed.
Lemma job_before_weak a b c : job_before job_id a b = false → job_before job_id b c = false → job_before job_id a c = false.
Proof.
  unfold job_before. rewrite !orb_false_iff, !andb_false_iff, !Z.ltb_ge, !Z.eqb_neq, !N.ltb_ge. intros [H1 H2] [H3 H4].
  split; [lia|]. destruct H2, H4; [left; lia|left; lia|left; lia|]. destruct (Z.eq_dec (job_due a.2) (job_due c.2)); [right; lia|left; lia].
Qed.

(** What a claim writes is not what was there. *)
Lemma claimed_row_changes d key r w at_ dur tok r' :
  claimable d at_ key r = true → claimed_row d key r w at_ dur tok = Ok r' → r' ≠ r.
Proof.
  intros Hc H. assert (mj_status r = JOB_PENDING ∨ mj_status r = JOB_RUNNING) as Hs.
  { unfold claimable in Hc. destruct key as [[t k] ep]. apply andb_true_iff in Hc as [_ Hc].
    apply orb_true_iff in Hc as [Hc|Hc]; bool_hyps; auto. }
  unfold claimed_row in H. destruct (_ && _); [|destruct (_memory_enabled _ _ _); cbn in H]; run_inv H; intros E.
  - apply (f_equal mj_status) in E. cbn in E. destruct Hs; congruence.
  - apply (f_equal mj_lease_generation) in E. cbn in E. lia.
  - apply (f_equal mj_status) in E. cbn in E. destruct Hs; congruence.
Qed.

(** C16: when the first of the claimable, unlocked memory jobs (pending, or running
    with an expired lease) in the order of the queue belongs to a tenant whose
    deletion was requested, every claim of a memory job, for whatever tenant, is a
    write the trigger refuses: the queue of all tenants stops until the tenant is
    finalized. *)
Theorem deletion_blocks_memory_queue p key r locked w at_ dur tok o d' :
  memory_jobs (control (data p)) !! key = Some r →
  claimable (control (data p)) at_ key r = true → locked key = false →
  (∀ k' r', memory_jobs (control (data p)) !! k' = Some r' → k' ≠ key →
    claimable (control (data p)) at_ k' r' = true → locked k' = false → job_before job_id (key, r) (k', r') = true) →
  tenant_active p key.1.1 = false →
  claim_pending job_id locked (control (data p)) w at_ dur tok = Ok (o, d') →
  ¬ agent_require_active_tenant_write p (set_control (data p) d').
Proof.
  intros Hk Hc Hl Hfirst Ht H Hg. unfold claim_pending in H. run_inv H. apply commit_Ok in H as [H _].
  set (l := filter _ _) in H.
  assert ((key, r) ∈ l) as Hin.
  { apply list_elem_of_filter. cbn. rewrite Hc, Hl. split; [done|]. by apply elem_of_map_to_list. }
  destruct (first_by (job_before job_id) l) as [[k0 r0]|] eqn:Ef.
  2: { apply first_by_None in Ef. rewrite Ef in Hin. by apply elem_of_nil in Hin. }
  pose proof (first_by_least _ _ _ job_before_irrefl job_before_weak job_before_asym Ef _ Hin) as Hle.
  pose proof (first_by_elem _ _ _ Ef) as [Hc0 H0%elem_of_map_to_list]%list_elem_of_filter.
  cbn in Hc0. apply andb_true_iff in Hc0 as [Hc0 Hl0%negb_true_iff].
  destruct (decide (k0 = key)) as [->|Hne]; [|by rewrite (Hfirst _ _ H0 Hne Hc0 Hl0) in Hle].
  rewrite Hk in H0. injection H0 as <-. run_inv H.
  destruct (Hg (ROW_memory_job key v1)) as [Hold|Ha].
  - cbn. apply lookup_insert_eq.
  - cbn in Hold. rewrite Hk in Hold. injection Hold as ->. by eapply claimed_row_changes.
  - cbn in Ha. congruence.
Qed.
End MemoryQueue.
