(* ===== verification/DeletionWorkerProperties.v ===== *)
(** * The deletion worker

    Rely and guarantee between the tasks that share database and object store: a
    deletion job is completed only after its object is gone, and an object that is
    queued and gone does not come back.  A batch of the worker keeps this whatever
    others do at its awaits and however it ends; so a finalized tenant has no object
    left in the store. *)

From stdpp Require Import base list sets gmap strings sorting.
From Stdlib Require Import ZArith NArith Lia.
From S2P Require Import Prelude PyBase Domain Tables Contracts Execution PyText PyFormats PyEffects LifecycleTables DataLifecycle AuditExports LifecycleService LifecycleProperties.
Import LifecycleRepository.

Section Moves.
Variable uuid5 : pystr → uuid.
Local Abbreviation step := (lifecycle_step uuid5 uuid_text isoformat).

(** The objects of completed jobs are gone. *)
Definition objects_gone (w : World) : Prop :=
  ∀ k j, deletion_jobs (wd_db w) !! k = Some j → dj_status j = DEL_COMPLETED → wd_objects w !! dj_object_key j = None.

(** What every task may do to the world *)
Record world_move (w w' : World) : Prop := {
  wm_history : star step (wd_db w) (wd_db w');
  wm_gone : lifecycle_inv (wd_db w) → objects_gone w → objects_gone w';
  wm_absent : lifecycle_inv (wd_db w) → ∀ key, key_queued (wd_db w) key = true → wd_objects w !! key = None → wd_objects w' !! key = None;
}.

(** Queued keys stay queued. *)
Lemma queued_history p p' key : lifecycle_inv p → star step p p' → key_queued p key = true → key_queued p' key = true.
Proof.
  intros Hi Hs. eapply (history_relates uuid5 uuid_text isoformat (λ a b, key_queued a key = true → key_queued b key = true)); [done| | |done|exact Hs].
  - naive_solver.
  - intros a b _ He. rewrite !key_queued_iff. intros (k & j & Hj & Hk). destruct (se_jobs_stay _ _ He _ _ Hj) as [j' Hj'].
    exists k, j'. split; [done|]. destruct (se_jobs _ _ He _ _ Hj') as [(Hn & _)|(j0 & Hj0 & Hm)]; [congruence|].
    rewrite Hj in Hj0. injection Hj0 as <-. by destruct (jm_identity _ _ _ Hm) as (_ & _ & -> & _).
Qed.

#[export] Instance world_move_preorder : PreOrder world_move.
Proof.
  split.
  - intros w. split; [apply star_refl|done|done].
  - intros a b c [H1 G1 A1] [H2 G2 A2]. split; [by eapply star_trans| |].
    + intros Hi Hg. apply G2; [by eapply history_inv|by apply G1].
    + intros Hi key Hk Ho. apply A2; [by eapply history_inv|by eapply queued_history|by apply A1].
Qed.

(** A transaction that completes a job only over a missing object *)
Lemma db_move w p' :
  step (wd_db w) p' →
  (platform_ok (wd_db w) → ∀ k j', deletion_jobs p' !! k = Some j' → dj_status j' = DEL_COMPLETED →
    (∃ j, deletion_jobs (wd_db w) !! k = Some j ∧ dj_status j = DEL_COMPLETED ∧ dj_object_key j' = dj_object_key j) ∨
    wd_objects w !! dj_object_key j' = None) →
  world_move w (set_db w p').
Proof.
  intros Hs Hn. split; cbn; [eapply star_next; [exact Hs|apply star_refl]| |done].
  intros Hi Hg k j' Hj Hc. destruct (Hn (li_ok _ Hi) k j' Hj Hc) as [(j & Hj0 & Hc0 & ->)|Ho]; [by eapply Hg|done].
Qed.

(** ** Triples

    [guards P m Q]: from [P] the computation moves the world as it may, however it
    ends, and returns in [Q]. *)
Definition guards {A} (P : World → Prop) (m : eff World A) (Q : A → World → Prop) : Prop :=
  ∀ w, P w → world_move w (m w).2 ∧ ∀ a w', m w = (Ret a, w') → Q a w'.

Lemma guards_bind {A B} P (m : eff World A) (k : A → eff World B) Q R :
  guards P m Q → (∀ a, guards (Q a) (k a) R) → guards P (m ≫= k) R.
Proof.
  intros Hm Hk w HP. destruct (Hm w HP) as [Hw HQ]. unfold mbind, eff_bind. destruct (m w) as [[a|e] w1]; [|by split].
  destruct (Hk a w1 (HQ _ _ eq_refl)) as [Hw1 HR]. split; [by etransitivity|done].
Qed.
Lemma guards_ret {A} (P : World → Prop) (a : A) : guards P (mret a) (λ x w, P w ∧ x = a).
Proof. intros w HP. split; [reflexivity|]. by intros b w' [= -> ->]. Qed.
Lemma guards_raise {A} (P : World → Prop) e (Q : A → World → Prop) : guards P (raise e) Q.
Proof. intros w HP. split; [reflexivity|done]. Qed.
Lemma guards_gets {A} (P : World → Prop) (f : World → A) : guards P (gets f) (λ _, P).
Proof. intros w HP. split; [reflexivity|]. by intros b w' [= _ <-]. Qed.
Lemma guards_weaken {A} (P P' : World → Prop) (m : eff World A) (Q Q' : A → World → Prop) :
  guards P' m Q' → (∀ w, P w → P' w) → (∀ a w, Q' a w → Q a w) → guards P m Q.
Proof. intros Hm HP HQ w Hw. destruct (Hm w (HP w Hw)) as [? ?]. split; [done|]. eauto. Qed.
Lemma guards_lift {A} message (P : World → Prop) (r : result A) : guards P (lift message r) (λ _, P).
Proof. intros w HP. unfold lift. destruct r; (split; [reflexivity|]); [by intros b w' [= _ <-]|done]. Qed.

Definition stable (P : World → Prop) : Prop := ∀ w w', P w → world_move w w' → P w'.

Section Tasks.
Variable message : string → pystr.
Variable pause : eff World unit.
Hypothesis others : keeps world_move pause.

Lemma guards_pause P : stable P → guards P pause (λ _, P).
Proof.
  intros HP w Hw. pose proof (others w) as Hm. split; [done|]. intros a w' E. rewrite E in Hm. by eapply HP.
Qed.

Lemma guards_transaction {A} P (f : World → PlatformDb → result (A * PlatformDb)) (Q : A → World → Prop) :
  stable P → (∀ a, stable (Q a)) →
  (∀ w a p', P w → f w (wd_db w) = Ok (a, p') → world_move w (set_db w p') ∧ Q a (set_db w p')) →
  guards P (transaction message pause f) Q.
Proof.
  intros HP HQ Hf. unfold transaction. eapply guards_bind; [by apply guards_pause|]. intros ?. cbv beta.
  eapply (guards_bind _ _ _ Q).
  - intros w Hw. unfold commit_. destruct (f w (wd_db w)) as [[b p']|e] eqn:E; [|by split].
    destruct (Hf w b p' Hw E) as [Hm Hq]. split; [done|]. by intros c w' [= <- <-].
  - intros b. eapply guards_bind; [by apply guards_pause|]. intros ?. cbv beta.
    eapply guards_weaken; [apply guards_ret|done|]. by intros c w [? ->].
Qed.

Lemma guards_catch {A} P (m : eff World A) h Q :
  stable P → guards P m Q → (∀ e, guards P (h e) Q) → guards P (catch m h) Q.
Proof.
  intros HP Hm Hh w Hw. destruct (Hm w Hw) as [Hmv Hq]. unfold catch. destruct (m w) as [[a|e] w1]; [by split|].
  destruct (Hh e w1) as [Hmv1 Hq1]; [by eapply HP|]. split; [by etransitivity|done].
Qed.

(** The leases of a worker belong to queued keys. *)
Definition ready (leases : list ObjectDeletionLease) (w : World) : Prop :=
  lifecycle_inv (wd_db w) ∧ ∀ l, l ∈ leases → key_queued (wd_db w) (dl_object_key l) = true.
Definition absent (key : pystr) (w : World) : Prop := key_queued (wd_db w) key = true ∧ wd_objects w !! key = None.

Lemma ready_stable leases : stable (ready leases).
Proof.
  intros w w' [Hi Hl] Hm. split; [by eapply history_inv, wm_history|]. intros l Hin. eapply queued_history; [done|by apply wm_history|by apply Hl].
Qed.
Lemma ready_absent_stable leases key : stable (λ w, ready leases w ∧ absent key w).
Proof.
  intros w w' [Hr [Hk Ho]] Hm. pose proof (ready_stable leases w w' Hr Hm) as Hr'. split; [done|]. destruct Hr as [Hi _]. split.
  - eapply queued_history; [done|by apply wm_history|done].
  - by eapply wm_absent.
Qed.

Context `{WI : Wire} `{OS : ObjectStore} `{!ObjectStoreLaws}.
Variable clock database_now : World → timestamp.
Variable locked : World → gset uuid.
Variable token : World → uuid → uuid.
Variable config : LifecycleServiceConfig.

Lemma delete_object_move key w : world_move w (delete_object key w).2.
Proof.
  destruct (delete_keeps key w) as (Ed & Ho & Hn). split.
  - rewrite Ed. apply star_refl.
  - intros _ Hg k j. rewrite Ed. intros Hj Hc. specialize (Hg k j Hj Hc). destruct (decide (dj_object_key j = key)) as [<-|Hne]; [by apply Hn|].
    by rewrite Ho.
  - intros _ k _ Hk. destruct (decide (k = key)) as [->|Hne]; [by apply Hn|]. by rewrite Ho.
Qed.

Lemma guards_delete leases lease :
  lease ∈ leases →
  guards (ready leases) (delete_leased pause lease)
    (λ o w, ready leases w ∧ (o = None → absent (dl_object_key lease) w)).
Proof.
  intros Hin. unfold delete_leased. apply guards_catch; [apply ready_stable| |].
  - eapply guards_bind; [apply guards_pause, ready_stable|]. intros ?. cbv beta.
    eapply (guards_bind _ _ _ (λ _ w, ready leases w ∧ absent (dl_object_key lease) w)).
    + intros w Hr. pose proof (delete_object_move (dl_object_key lease) w) as Hm. split; [done|]. intros [] w' E.
      pose proof (delete_removes _ _ _ E) as Ho. rewrite E in Hm. pose proof (ready_stable _ _ _ Hr Hm) as Hr'. split; [done|].
      split; [by apply Hr'|done].
    + intros ?. eapply guards_bind; [apply guards_pause, ready_absent_stable|]. intros ?. cbv beta.
      eapply guards_weaken; [apply guards_ret|intros w Hw; exact Hw|]. intros o w [[? ?] ->]. done.
  - assert (∀ d : ErrorDetail, guards (ready leases) (mret (Some d)) (λ o w, ready leases w ∧ (o = None → absent (dl_object_key lease) w))) as Hd.
    { intros d. eapply guards_weaken; [apply guards_ret|intros w Hw; exact Hw|]. by intros o w [? ->]. }
    intros [d| | |]; [apply Hd|apply Hd|apply guards_raise|apply Hd].
Qed.

(** Completing a job whose object is gone *)
Lemma complete_move w lease now u p' :
  absent (dl_object_key lease) w → complete_object_deletion (wd_db w) lease now = Ok (u, p') → world_move w (set_db w p').
Proof.
  intros [_ Ho] Hc. apply db_move; [by eapply step_complete_deletion|]. intros Hp. unfold complete_object_deletion in Hc.
  apply bind_Ok in Hc as (j & Hj%require_Ok & Hc). run_inv Hc. destruct (_ && _); run_inv Hc; [eauto|]. destruct v0.
  destruct (require_lease_running _ _ Hrun0) as (_ & _ & _ & _ & Hkey & _). destruct (pk_jobs _ Hp _ _ Hj) as [Hid _].
  assert (∀ q a k j', deletion_jobs q = <[dj_id j := update_job j a DEL_COMPLETED None None (Some (dl_lease_token lease)) (dj_lease_generation j)
      (dj_attempt j) None None now (Some now)]> (deletion_jobs (wd_db w)) → deletion_jobs q !! k = Some j' → dj_status j' = DEL_COMPLETED →
    (∃ j, deletion_jobs (wd_db w) !! k = Some j ∧ dj_status j = DEL_COMPLETED ∧ dj_object_key j' = dj_object_key j) ∨
    wd_objects w !! dj_object_key j' = None) as Hput.
  { intros q a k j' -> [[_ <-]|[_ Hk]]%lookup_insert_Some Hs; [right; cbn; by rewrite Hkey|left; eauto]. }
  destruct (dj_reason j), (dj_artifact_id j) as [a|]; run_inv Hc; apply statement_Ok in Hrun2 as [-> _];
    try (apply statement_Ok in Hrun3 as [-> _]); intros k j'; by eapply Hput.
Qed.

Lemma fail_move w lease d at_ now u p' :
  fail_object_deletion (wd_db w) lease d at_ now = Ok (u, p') → world_move w (set_db w p').
Proof.
  intros Hc. apply db_move; [by eapply step_fail_deletion|]. intros Hp k j' Hj' Hs. left. unfold fail_object_deletion in Hc.
  apply bind_Ok in Hc as (j & Hj%require_Ok & Hc). run_inv Hc. destruct (_ && _); run_inv Hc; [eauto|].
  apply statement_Ok in Hrun2 as [-> _]. cbn in Hj'. apply lookup_insert_Some in Hj' as [[_ <-]|[_ Hk]]; [|eauto].
  cbn in Hs. by destruct (detail_retryable d && _).
Qed.

Lemma recover_completed at_ j : dj_status (recover_job at_ j) = DEL_COMPLETED → dj_status j = DEL_COMPLETED.
Proof. unfold recover_job. destruct (_ && _); [by destruct (_ <? _)%Z|done]. Qed.

Lemma lease_key j l : _object_deletion_lease j = Ok l → dl_object_key l = dj_object_key j.
Proof.
  unfold _object_deletion_lease. repeat case_match; try done. unfold validate_deletion_lease. intros Hl.
  apply bind_Ok in Hl as (? & _ & Hl). apply bind_Ok in Hl as (? & _ & Hl). run_inv Hl. done.
Qed.

(** A claim leases jobs of queued keys and completes none. *)
Lemma claim_moves w worker at_ s n lk tk ls p' :
  lifecycle_inv (wd_db w) → claim_object_deletions (wd_db w) worker at_ s n lk tk = Ok (ls, p') →
  world_move w (set_db w p') ∧ ready ls (set_db w p').
Proof.
  intros Hi Hc. destruct (claim_leased _ _ _ _ _ _ _ _ _ (li_ok _ Hi) Hc) as (leased & Ep & Hok & Htr & Hls).
  destruct (put_jobs_lookup leased (set_deletion_jobs (wd_db w) (recover_job at_ <$> deletion_jobs (wd_db w)))) as (m & E & Hm & _ & Hin).
  assert (world_move w (set_db w p')) as Hmv.
  { apply db_move; [by eapply step_claim_deletions|]. intros _ k j' Hj' Hs. left. rewrite Ep, E in Hj'. cbn in Hj', Hm.
    destruct (Hm k j' Hj') as [Hk|[Hl _]].
    - rewrite lookup_fmap in Hk. destruct (deletion_jobs (wd_db w) !! k) as [j|] eqn:Ej; [|done]. injection Hk as <-. exists j.
      split_and!; [done|by eapply recover_completed|apply recover_job_same].
    - destruct (Hls j' Hl) as (j & _ & _ & _ & _ & ->). done. }
  split; [done|]. split; [by eapply history_inv, (wm_history _ _ Hmv)|]. intros l Hl. apply traverse_Ok in Htr.
  destruct (Forall2_elem_of_r _ _ _ _ Htr Hl) as (j & Hj & Hlease). apply lease_key in Hlease as ->.
  eapply queued_history; [exact Hi|exact (wm_history _ _ Hmv)|]. apply key_queued_iff. destruct (Hls j Hj) as (a & Ha & _ & _ & _ & ->).
  eexists _, a. split; [exact Ha|]. symmetry. apply (recover_job_same at_ a).
Qed.

Lemma guards_leases all leases c f :
  leases ⊆ all → guards (ready all) (run_leases message pause clock database_now leases c f) (λ _, ready all).
Proof.
  revert c f. induction leases as [|lease rest IH]; intros c f Hsub; cbn [run_leases].
  { eapply guards_weaken; [apply guards_ret|intros w Hw; exact Hw|by intros ? w [? _]]. }
  eapply guards_bind; [apply guards_delete; apply Hsub; by left|]. intros [d|]; cbv beta iota.
  - eapply guards_bind; [apply guards_gets|]. intros at_. cbv beta.
    eapply (guards_bind _ _ _ (λ _, ready all)); [|intros ?; apply IH; set_solver].
    eapply (guards_weaken _ (ready all) _ _ (λ _, ready all)); [|by intros w [Hr _]|done]. apply guards_transaction; [apply ready_stable|intros ?; apply ready_stable|].
    intros w a p' Hr E. pose proof (fail_move _ _ _ _ _ _ _ E) as Hm. split; [done|]. by eapply ready_stable.
  - eapply (guards_bind _ _ _ (λ _, ready all)); [|intros ?; apply IH; set_solver].
    eapply (guards_weaken _ (λ w, ready all w ∧ absent (dl_object_key lease) w) _ _ (λ _, ready all)); [|naive_solver|done].
    apply guards_transaction; [apply ready_absent_stable|intros ?; apply ready_stable|].
    intros w a p' [Hr Ha] E. pose proof (complete_move _ _ _ _ _ Ha E) as Hm. split; [done|]. by eapply ready_stable.
Qed.

(** A batch of the worker moves the world as every task may. *)
Lemma run_batch_guarded worker :
  guards (λ w, lifecycle_inv (wd_db w)) (run_batch message pause clock database_now locked token config worker) (λ _ w, lifecycle_inv (wd_db w)).
Proof.
  assert (stable (λ w, lifecycle_inv (wd_db w))) as Hst by (intros w w' Hi Hm; by eapply history_inv, wm_history).
  unfold run_batch. eapply guards_bind; [apply guards_gets|]. intros at_. cbv beta.
  eapply (guards_bind _ _ _ ready).
  - apply guards_transaction; [done|intros ?; apply ready_stable|]. intros w ls p' Hi E. by eapply claim_moves.
  - intros ls. eapply (guards_bind _ _ _ (λ _, ready ls)); [by apply guards_leases|]. intros [c f]. cbv beta iota.
    eapply guards_weaken; [apply guards_lift|intros w Hw; exact Hw|]. by intros ? w [? _].
Qed.

(** ** Finalization *)

(** The object keys the rows of a tenant name *)
Definition tenant_key (x : TenantTables) (t : uuid) (key : pystr) : Prop :=
  (∃ k a, artifacts x !! k = Some a ∧ ar_tenant_id a = t ∧ ar_object_key a = key) ∨
  (∃ k s, source_snapshots x !! k = Some s ∧ sn_tenant_id s = t ∧ sn_object_key s = key).

Lemma finalize_move w t at_ r p' :
  finalize_tenant_deletion (wd_db w) t at_ = Ok (r, p') → world_move w (set_db w p').
Proof.
  intros Hf. apply db_move; [by eapply step_finalize|]. intros Hp k j' Hj' Hs. left.
  destruct (finalize_inv _ _ _ _ _ Hp Hf) as (l & _ & [[_ ->]|(_ & _ & _ & _ & _ & _ & _ & -> & _)]); [eauto|].
  cbn in Hj'. rewrite lookup_fmap in Hj'. destruct (deletion_jobs (wd_db w) !! k) as [j|]; [|done]. injection Hj' as <-.
  exists j. by case_bool_decide.
Qed.

Lemma finalize_keys p t at_ r p' key :
  lifecycle_inv p → finalize_tenant_deletion p t at_ = Ok (r, p') → tenant_key (data p) t key →
  key_queued p key = true ∧ ∀ k j, deletion_jobs p !! k = Some j → dj_tenant_id j = t → dj_status j = DEL_COMPLETED.
Proof.
  intros Hi Hf Hk. destruct (finalize_inv _ _ _ _ _ (li_ok _ Hi) Hf) as (l & Hl & [[Hs ->]|(_ & _ & _ & _ & Hj & Ha & Hsn & _)]).
  - destruct (li_tenants _ Hi t l Hl) as (_ & _ & He); [by rewrite Hs|]. specialize (He Hs).
    destruct Hk as [(k & a & Ha & Ht & _)|(k & a & Ha & Ht & _)]; [by destruct (He (ROW_artifact k a) Ha)|by destruct (He (ROW_snapshot k a) Ha)].
  - split; [|done]. destruct Hk as [(k & a & Hk & Ht & <-)|(k & a & Hk & Ht & <-)]; eauto.
Qed.

(** C13: after the finalization of a tenant the object store has none of the objects its
    artifacts and snapshots named, for good: whatever other tasks did before, whatever
    they do at the awaits of the last deletion batch, however that batch ended, and
    whatever they do afterwards, as long as they delete an object before they complete
    its job and upload no key that is queued for deletion ([world_move]), and as long
    as the deletion jobs of the tenant's keys are its own, which the code does not
    check when it finalizes. *)
Theorem finalized_objects_gone w0 w1 worker t at_ r p w3 key :
  lifecycle_start (wd_db w0) → world_move w0 w1 →
  let w2 := (run_batch message pause clock database_now locked token config worker w1).2 in
  finalize_tenant_deletion (wd_db w2) t at_ = Ok (r, p) → world_move (set_db w2 p) w3 →
  (∀ k j, deletion_jobs (wd_db w2) !! k = Some j → tenant_key (data (wd_db w2)) t (dj_object_key j) → dj_tenant_id j = t) →
  tenant_key (data (wd_db w2)) t key → wd_objects w3 !! key = None.
Proof.
  intros Hs H01 w2 Hf H23 Hown Hkey. pose proof (lifecycle_start_inv _ Hs) as Hi0.
  assert (objects_gone w0) as Hg0 by (intros k j Hj; destruct Hs as (_ & _ & _ & E); by rewrite E, lookup_empty in Hj).
  pose proof (history_inv _ _ _ _ _ Hi0 (wm_history _ _ H01)) as Hi1. pose proof (wm_gone _ _ H01 Hi0 Hg0) as Hg1.
  destruct (run_batch_guarded worker w1 Hi1) as [H12 _]. fold w2 in H12.
  pose proof (history_inv _ _ _ _ _ Hi1 (wm_history _ _ H12)) as Hi2. pose proof (wm_gone _ _ H12 Hi1 Hg1) as Hg2.
  destruct (finalize_keys _ _ _ _ _ _ Hi2 Hf Hkey) as [Hq Hdone].
  assert (wd_objects w2 !! key = None) as Ho.
  { apply key_queued_iff in Hq as (k & j & Hj & <-). eapply Hg2; [exact Hj|]. eapply Hdone; [exact Hj|]. by eapply Hown. }
  eapply (wm_absent w2 w3); [|done|done|done]. etransitivity; [by eapply finalize_move|done].
Qed.
End Tasks.
End Moves.
