(* ===== verification/AuditFileProperties.v ===== *)
(** * The audit-export file

    [verify_audit_export_file] accepts exactly the files that are a header, the
    entries in order and a trailer; what the writer writes is such a file. *)

From stdpp Require Import base list sets gmap strings sorting pretty.
From Stdlib Require Import ZArith NArith Lia.
From S2P Require Import Prelude PyBase Domain Tables Contracts Execution Transcripts Recovery TaskPlans PyText JsonText PyFormats LifecycleTables DataLifecycle AuditExports.

(** ** Lines *)

(** A line of the file: no line feed but its last byte, within the limit *)
Definition is_line (raw : list N) : Prop :=
  ∃ l, raw = l ++ [10%N] ∧ (10%N ∉ l) ∧ (N.of_nat (length raw) ≤ _MAX_AUDIT_LINE_BYTES)%N.

Lemma readline_line limit l rest :
  10%N ∉ l → (N.of_nat (length l) < limit)%N → readline limit (l ++ 10%N :: rest) = (l ++ [10%N], rest).
Proof.
  revert limit. induction l as [|b l IH]; intros limit Hl Hn; cbn [app readline].
  - destruct (N.eqb_spec limit 0); [cbn in Hn; lia|done].
  - apply not_elem_of_cons in Hl as [Hb Hl]. cbn [length] in Hn. destruct (N.eqb_spec limit 0); [lia|].
    destruct (N.eqb_spec b 10); [by subst|]. rewrite IH; [done|done|lia].
Qed.

Lemma readline_inv limit bs line rest :
  readline limit bs = (line, rest) → bs = line ++ rest ∧
    (last line = Some 10%N → ∃ l, line = l ++ [10%N] ∧ 10%N ∉ l) ∧ (line = [] → limit ≠ 0%N → bs = []).
Proof.
  revert limit line rest. induction bs as [|b bs IH]; intros limit line rest H; cbn in H.
  - by injection H as <- <-.
  - destruct (N.eqb_spec limit 0) as [->|Hl]; [by injection H as <- <-|].
    destruct (N.eqb_spec b 10) as [->|Hb].
    + injection H as <- <-. split_and!; [done| |done]. intros _. exists []. split; [done|apply not_elem_of_nil].
    + destruct (readline (limit - 1) bs) as [l1 r1] eqn:E. injection H as <- <-. destruct (IH _ _ _ E) as (-> & Hlast & _).
      split_and!; [done| |done]. intros Hlast'. destruct l1 as [|b1 l1]; [by injection Hlast' as ->|].
      destruct (Hlast Hlast') as (l & El & Hn). exists (b :: l). split; [by rewrite El|]. apply not_elem_of_cons. by split.
Qed.

Section Files.
Context `{Wire}.

Definition line_value (raw : list N) (v : json) : Prop := json_loads_bytes float_text raw = Some v.

Lemma verify_line_checks e s raw s' :
  verify_line e s raw = Ok s' → (N.of_nat (length raw) ≤ _MAX_AUDIT_LINE_BYTES)%N ∧
    (vs_observed s + Z.of_nat (length raw) ≤ MAX_AUDIT_EXPORT_BYTES)%Z ∧ last raw = Some 10%N.
Proof.
  unfold verify_line. intros Hv. apply bind_Ok in Hv as (u & Hc & _). apply ensure_Ok in Hc.
  rewrite !andb_true_iff, N.leb_le, Z.leb_le, bool_decide_eq_true in Hc. tauto.
Qed.

(** The loop over the file is the loop over its lines. *)
Lemma verify_lines_fold n e s bs s' :
  length bs ≤ n →
  verify_lines (S n) e s bs = Ok s' ↔ ∃ raws, bs = concat raws ∧ Forall is_line raws ∧ foldM (verify_line e) s raws = Ok s'.
Proof.
  revert s bs. induction n as [n IH] using lt_wf_ind. intros s bs Hn. cbn [verify_lines].
  destruct (readline _ bs) as [line rest] eqn:E. apply readline_inv in E as Hi. destruct Hi as (Ebs & Hlast & Hnil).
  destruct line as [|b line].
  - assert (bs = []) as -> by (by apply Hnil). split.
    + intros [= <-]. by exists [].
    + intros (raws & Eb & Hr & Hf). destruct raws as [|r raws]; [done|]. apply Forall_cons in Hr as [(l & -> & _) _]. by destruct l.
  - assert (length rest < n) as Hlt by (rewrite Ebs in Hn; rewrite length_app in Hn; cbn in Hn; lia).
    destruct n as [|n]; [lia|]. split.
    + intros Hv. apply bind_Ok in Hv as (s1 & Hl & Hv). apply (IH n) in Hv as (raws & -> & Hr & Hf); [|lia|lia].
      exists ((b :: line) :: raws). split_and!; [done| |cbn; by rewrite Hl].
      constructor; [|done]. destruct (verify_line_checks _ _ _ _ Hl) as (Hsz & _ & Hle). destruct (Hlast Hle) as (l & El & Hnl).
      exists l. by rewrite <- El.
    + intros (raws & Eb & Hr & Hf). destruct raws as [|r raws]; [by rewrite Ebs in Eb|].
      apply Forall_cons in Hr as [(l & -> & Hnl & Hsz) Hr']. cbn [concat] in Eb. rewrite Eb in E.
      rewrite <- app_assoc in E. cbn [app] in E. rewrite readline_line in E; [|done|rewrite length_app in Hsz; cbn in Hsz; lia].
      injection E as El Er. cbn [foldM] in Hf. apply bind_Ok in Hf as (s1 & Hl & Hf).
      rewrite <- El, Hl. cbn. apply (IH n); [lia|lia|]. eauto.
Qed.

(** ** What the check accepts *)

Definition key_lt (a b : AuditEntry) : Prop := key_le (entry_key b) (entry_key a) = false.

(** A line that holds an entry, in whatever spelling *)
Definition entry_raw (raw : list N) (entry : AuditEntry) : Prop :=
  ∃ v j, line_value raw v ∧ json_get v (py "type") = Some (JString _AUDIT_ENTRY_TYPE) ∧ has_keys v [py "entry"; py "type"] = true ∧
    json_get v (py "entry") = Some j ∧ entry_of_json j = Ok entry.

(** The lines of an export: a header, the entries in strictly ascending order and
    within the scope, and a trailer that agrees with the record *)
Record export_lines (e : AuditExport) (raws : list (list N)) (es : list AuditEntry) : Prop := {
  xl_lines : ∃ h mids t v, raws = h :: mids ++ [t] ∧
    line_value h (header_json (axp_tenant_id e) (axp_id e) (axp_cutoff_at e)) ∧ Forall2 entry_raw mids es ∧
    line_value t v ∧ trailer_matches v (axp_record_count e) (axp_first_occurred_at e) (axp_last_occurred_at e) = true;
  xl_scope : Forall (λ en, in_scope (axp_tenant_id e) (axp_cutoff_at e) en = true) es;
  xl_order : StronglySorted key_lt es;
}.

Record export_file (content : list N) (e : AuditExport) (es : list AuditEntry) : Prop := {
  xf_content : ∃ raws, content = concat raws ∧ Forall is_line raws ∧ export_lines e raws es;
  xf_count : axp_record_count e = Some (Z.of_nat (length es));
  xf_first : axp_first_occurred_at e = au_occurred_at <$> head es;
  xf_last : axp_last_occurred_at e = au_occurred_at <$> last es;
  xf_size : (Z.of_nat (length content) ≤ MAX_AUDIT_EXPORT_BYTES)%Z;
  xf_object : ∃ o, axp_status e = EXPORT_COMPLETED ∧ axp_object e = Some o ∧ so_size_bytes o = Z.of_nat (length content) ∧
    so_sha256 o = sha256 content;
}.

(** The state of the loop after the header and some entries *)
Definition state_of (raws : list (list N)) (es : list AuditEntry) : VerifyState :=
  mkVerifyState (Z.of_nat (length (concat raws))) (concat raws) true false (au_occurred_at <$> head es) (au_occurred_at <$> last es)
    (entry_key <$> last es) (Z.of_nat (length es)).

Definition small (raw : list N) (before : list (list N)) : Prop :=
  (N.of_nat (length raw) ≤ _MAX_AUDIT_LINE_BYTES)%N ∧ (Z.of_nat (length (concat before) + length raw) ≤ MAX_AUDIT_EXPORT_BYTES)%Z ∧
  last raw = Some 10%N.

Definition accepts (e : AuditExport) (es : list AuditEntry) (entry : AuditEntry) : Prop :=
  in_scope (axp_tenant_id e) (axp_cutoff_at e) entry = true ∧ (∀ l, last es = Some l → key_lt l entry).

Lemma concat_snoc {A} (ls : list (list A)) l : concat (ls ++ [l]) = concat ls ++ l.
Proof. rewrite concat_app. cbn. by rewrite app_nil_r. Qed.

Lemma head_snoc {A} (l : list A) x : head (l ++ [x]) = match head l with Some y => Some y | None => Some x end.
Proof. by destruct l. Qed.

Lemma json_object_Ok raw v : _json_object raw = Ok v ↔ line_value raw v ∧ is_json_object v = true.
Proof.
  unfold _json_object, line_value. split.
  - intros Hv. run_inv Hv. done.
  - intros [-> Ho]. cbn. by rewrite Ho.
Qed.
Lemma keys_object v ks : has_keys v ks = true → is_json_object v = true.
Proof. by destruct v. Qed.
Lemma trailer_object v c f l : trailer_matches v c f l = true →
  is_json_object v = true ∧ json_get v (py "type") = Some (JString _AUDIT_TRAILER_TYPE).
Proof.
  destruct v as [| | | | | |fields]; try done. destruct fields as [|[] [|[] [|[] [|[] []]]]]; try done.
  cbn [trailer_matches]. rewrite !andb_true_iff, !bool_decide_eq_true. intros H1. split; [done|].
  unfold json_get. cbn [foldl fst snd]. destruct H1 as [[[[[[[-> ->] ->] ->] ->] _] ->] ->]. done.
Qed.

(** An entry line *)
Lemma verify_entry_Ok e raws es v s' :
  verify_entry e (state_of raws es) v = Ok s' ↔
    ∃ j entry, json_get v (py "type") = Some (JString _AUDIT_ENTRY_TYPE) ∧ has_keys v [py "entry"; py "type"] = true ∧
      json_get v (py "entry") = Some j ∧ entry_of_json j = Ok entry ∧ accepts e es entry ∧ s' = state_of raws (es ++ [entry]).
Proof.
  assert (∀ entry, mkVerifyState (vs_observed (state_of raws es)) (vs_digest (state_of raws es)) true false
    (match vs_first (state_of raws es) with Some t => Some t | None => Some (au_occurred_at entry) end) (Some (au_occurred_at entry))
    (Some (entry_key entry)) (vs_record_count (state_of raws es) + 1) = state_of raws (es ++ [entry])) as Hst.
  { intros entry. unfold state_of. cbn. rewrite head_snoc, last_snoc, length_app. f_equal; [by destruct (head es)|cbn; lia]. }
  assert (∀ entry, (match entry_key <$> last es with Some k => negb (key_le (entry_key entry) k) | None => true end = true) ↔
    (∀ l, last es = Some l → key_lt l entry)) as Hlast.
  { intros entry. unfold key_lt. destruct (last es) as [l|]; cbn; [|naive_solver]. rewrite negb_true_iff. naive_solver. }
  unfold verify_entry. split.
  - intros Hv. run_inv Hv. apply andb_prop in Hrun as [Ht%bool_decide_eq_true Hk]. destruct (json_get v (py "entry")) as [j|]; [|done].
    destruct (entry_of_json j) as [en|] eqn:Ej; [|done]. injection Hrun0 as <-. pose proof (proj1 (Hlast en) Hrun2) as Hl.
    by exists j, en.
  - intros (j & entry & Ht & Hk & Hg & Hj & [Hs Hl] & ->). rewrite Ht, Hk, Hg, Hj, bool_decide_true by done. cbn [andb ensure mbind result_bind].
    unfold in_scope in Hs. rewrite Hs. cbn [mbind result_bind ensure]. cbn [vs_last_key state_of].
    rewrite (proj2 (Hlast entry) Hl). cbn [ensure mbind result_bind]. by rewrite <- Hst.
Qed.

Lemma small_check raw before es :
  small raw before ↔ (N.of_nat (length raw) <=? _MAX_AUDIT_LINE_BYTES)%N
    && (vs_observed (state_of (before ++ [raw]) es) <=? MAX_AUDIT_EXPORT_BYTES)%Z && bool_decide (last raw = Some 10%N) = true.
Proof.
  rewrite !andb_true_iff, N.leb_le, Z.leb_le, bool_decide_eq_true. unfold small. cbn. rewrite concat_snoc, length_app. tauto.
Qed.
Lemma observe_state raws es raw : observe_line (state_of raws es) raw = state_of (raws ++ [raw]) es.
Proof. unfold observe_line, state_of. cbn. rewrite concat_snoc, length_app. f_equal. lia. Qed.

Lemma entry_not_trailer v :
  json_get v (py "type") = Some (JString _AUDIT_ENTRY_TYPE) → json_get v (py "type") ≠ Some (JString _AUDIT_TRAILER_TYPE).
Proof. by intros ->. Qed.

Lemma verify_line_Ok e raws es raw s' :
  verify_line e (state_of raws es) raw = Ok s' ↔ small raw raws ∧
    ((∃ v, line_value raw v ∧ trailer_matches v (axp_record_count e) (axp_first_occurred_at e) (axp_last_occurred_at e) = true ∧
           s' = see_trailer (state_of (raws ++ [raw]) es))
     ∨ (∃ entry, entry_raw raw entry ∧ accepts e es entry ∧ s' = state_of (raws ++ [raw]) (es ++ [entry]))).
Proof.
  rewrite (small_check _ _ es). unfold verify_line. rewrite observe_state. cbv zeta. split.
  - intros Hv. apply bind_Ok in Hv as (u & Hs & Hv). apply ensure_Ok in Hs. split; [done|].
    apply bind_Ok in Hv as (v & Hj & Hv). apply json_object_Ok in Hj as [Hj _].
    cbn [negb vs_header_seen vs_trailer_seen state_of ensure mbind result_bind] in Hv.
    case_bool_decide as Ht.
    + left. exists v. apply bind_Ok in Hv as (u' & Hm & [= <-]). apply ensure_Ok in Hm. done.
    + right. apply verify_entry_Ok in Hv as (j & entry & H1 & H2 & H3 & H4 & Ha & ->). exists entry. split_and!; [|done|done].
      by exists v, j.
  - intros [-> Hc]. cbn [ensure mbind result_bind].
    destruct Hc as [(v & Hv & Hm & ->)|(entry & (v & j & Hv & Ht & Hk & Hg & Hj) & Ha & ->)].
    + destruct (trailer_object _ _ _ _ Hm) as [Ho Ht]. rewrite (proj2 (json_object_Ok raw v) (conj Hv Ho)). cbn [mbind result_bind].
      cbn [negb vs_header_seen vs_trailer_seen state_of ensure mbind result_bind]. by rewrite bool_decide_true, Hm.
    + rewrite (proj2 (json_object_Ok raw v) (conj Hv (keys_object _ _ Hk))). cbn [mbind result_bind].
      cbn [negb vs_header_seen vs_trailer_seen state_of ensure mbind result_bind].
      rewrite bool_decide_false by (by apply entry_not_trailer). apply verify_entry_Ok. by exists j, entry.
Qed.

(** Nothing follows the trailer. *)
Lemma verify_line_closed e s raw s' : vs_header_seen s = true → vs_trailer_seen s = true → verify_line e s raw ≠ Ok s'.
Proof.
  intros Hh Ht Hv. unfold verify_line, observe_line in Hv. apply bind_Ok in Hv as (u & _ & Hv). apply bind_Ok in Hv as (v & _ & Hv).
  cbn in Hv. rewrite Hh, Ht in Hv. done.
Qed.
Lemma fold_closed e s raws s' :
  vs_header_seen s = true → vs_trailer_seen s = true → foldM (verify_line e) s raws = Ok s' → raws = [] ∧ s' = s.
Proof.
  intros Hh Ht. destruct raws as [|raw raws]; [by intros [= <-]|]. cbn. intros Hf. apply bind_Ok in Hf as (s1 & Hl & _).
  by apply verify_line_closed in Hl.
Qed.

#[local] Instance key_lt_trans : Transitive key_lt.
Proof.
  intros a b c. unfold key_lt, key_le. rewrite !orb_false_iff, !andb_false_iff, !Z.ltb_ge, !Z.eqb_neq, !N.leb_gt. cbn. lia.
Qed.

Lemma ascending_snoc es en :
  StronglySorted key_lt es → (∀ l, last es = Some l → key_lt l en) → StronglySorted key_lt (es ++ [en]).
Proof.
  intros Hs Hl. apply StronglySorted_app_2; [|done|by repeat constructor]. intros x y Hx Hy. apply list_elem_of_singleton in Hy as ->.
  destruct (last es) as [z|] eqn:E; [|by apply last_None in E; subst; apply elem_of_nil in Hx].
  specialize (Hl z eq_refl). apply last_Some in E as [es' ->]. apply elem_of_app in Hx as [Hx|Hx]; [|by apply list_elem_of_singleton in Hx as ->].
  etrans; [|exact Hl]. eapply (StronglySorted_app_1_elem_of _ es'); [exact Hs|done|by left].
Qed.

Lemma fold_forward e raws es rest s' :
  Forall (λ en, in_scope (axp_tenant_id e) (axp_cutoff_at e) en = true) es → StronglySorted key_lt es →
  foldM (verify_line e) (state_of raws es) rest = Ok s' → vs_trailer_seen s' = true →
  ∃ mids t v new, rest = mids ++ [t] ∧ Forall2 entry_raw mids new ∧ line_value t v ∧
    trailer_matches v (axp_record_count e) (axp_first_occurred_at e) (axp_last_occurred_at e) = true ∧
    Forall (λ en, in_scope (axp_tenant_id e) (axp_cutoff_at e) en = true) (es ++ new) ∧ StronglySorted key_lt (es ++ new) ∧
    s' = see_trailer (state_of (raws ++ rest) (es ++ new)) ∧ (Z.of_nat (length (concat (raws ++ rest))) ≤ MAX_AUDIT_EXPORT_BYTES)%Z.
Proof.
  revert raws es. induction rest as [|raw rest IH]; intros raws es Hsc Hso Hf Ht; [by injection Hf as <-|].
  cbn [foldM] in Hf. apply bind_Ok in Hf as (s1 & Hl & Hf).
  apply verify_line_Ok in Hl as [Hsm [(v & Hv & Hm & ->)|(entry & Hr & [Ha Hk] & ->)]].
  - apply fold_closed in Hf as [-> ->]; [|done..]. exists [], raw, v, []. rewrite app_nil_r. split_and!; try done.
    destruct Hsm as (_ & Hsm & _). by rewrite concat_snoc, length_app.
  - destruct (IH (raws ++ [raw]) (es ++ [entry])) as (mids & t & v & new & -> & Hm & Hv & Htr & Hsc' & Hso' & -> & Hsz); [|by apply ascending_snoc|done|done|].
    { apply Forall_app. split; [done|by constructor]. }
    exists (raw :: mids), t, v, (entry :: new). rewrite <- !app_assoc in *. cbn [app] in *. split_and!; try done. by constructor.
Qed.

Lemma fold_backward e raws es mids new t v :
  Forall is_line (mids ++ [t]) → Forall2 entry_raw mids new → line_value t v →
  trailer_matches v (axp_record_count e) (axp_first_occurred_at e) (axp_last_occurred_at e) = true →
  Forall (λ en, in_scope (axp_tenant_id e) (axp_cutoff_at e) en = true) new → StronglySorted key_lt (es ++ new) →
  (Z.of_nat (length (concat (raws ++ mids ++ [t]))) ≤ MAX_AUDIT_EXPORT_BYTES)%Z →
  foldM (verify_line e) (state_of raws es) (mids ++ [t]) = Ok (see_trailer (state_of (raws ++ mids ++ [t]) (es ++ new))).
Proof.
  intros Hl Hm Hv Htr. revert raws es new Hm. induction mids as [|raw mids IH]; intros raws es new Hm Hsc Hso Hsz.
  - inversion Hm; subst. rewrite app_nil_r. cbn [app foldM]. apply bind_Ok. eexists. split; [|done].
    apply verify_line_Ok. split; [|left; eauto]. apply Forall_cons in Hl as [(l & -> & _ & Hn) _].
    cbn [app] in Hsz. rewrite concat_snoc, length_app in Hsz. split_and!; [done|done|by rewrite last_snoc].
  - apply Forall2_cons_inv_l in Hm as (entry & new' & Hr & Hm & ->). cbn [app] in *.
    apply Forall_cons in Hl as [(l & El & _ & Hn) Hl]. apply Forall_cons in Hsc as [Ha Hsc].
    assert (es ++ entry :: new' = (es ++ [entry]) ++ new') as Ees by (by rewrite <- app_assoc).
    assert (raws ++ raw :: mids ++ [t] = (raws ++ [raw]) ++ mids ++ [t]) as Er by (by rewrite <- app_assoc).
    cbn [foldM]. apply bind_Ok. exists (state_of (raws ++ [raw]) (es ++ [entry])). split.
    + apply verify_line_Ok. rewrite Er in Hsz. split.
      * rewrite concat_app, concat_snoc, !length_app in Hsz. split_and!; [done|lia|by rewrite El, last_snoc].
      * right. exists entry. split_and!; [done|split; [done|]|done]. intros x Hx. apply last_Some in Hx as [es' ->].
        eapply (StronglySorted_app_1_elem_of _ (es' ++ [x])); [exact Hso| |]; [apply elem_of_app; right|]; by left.
    + rewrite Er, Ees. apply IH; [done|done|done|by rewrite <- Ees|by rewrite <- Er].
Qed.

Definition start_state : VerifyState := mkVerifyState 0 [] false false None None None 0.

Lemma first_line_Ok e h s' :
  verify_line e start_state h = Ok s' ↔
    small h [] ∧ line_value h (header_json (axp_tenant_id e) (axp_id e) (axp_cutoff_at e)) ∧ s' = state_of [h] [].
Proof.
  assert (see_header (observe_line start_state h) = state_of [h] []) as Es.
  { unfold state_of, observe_line, see_header. cbn. by rewrite app_nil_r. }
  assert (small h [] ↔ (N.of_nat (length h) <=? _MAX_AUDIT_LINE_BYTES)%N && (vs_observed (observe_line start_state h) <=? MAX_AUDIT_EXPORT_BYTES)%Z
            && bool_decide (last h = Some 10%N) = true) as ->.
  { rewrite !andb_true_iff, N.leb_le, Z.leb_le, bool_decide_eq_true. unfold small. cbn. tauto. }
  unfold verify_line. cbv zeta. rewrite Es. split.
  - intros Hv. apply bind_Ok in Hv as (u & Hs & Hv). apply ensure_Ok in Hs. split; [done|].
    apply bind_Ok in Hv as (v & Hj & Hv). apply json_object_Ok in Hj as [Hj _]. cbn in Hv. run_inv Hv.
    apply bool_decide_eq_true in Hrun as ->. done.
  - intros (-> & Hl & ->). cbn [ensure mbind result_bind]. rewrite (proj2 (json_object_Ok _ _) (conj Hl eq_refl)).
    cbn [ensure mbind result_bind negb vs_header_seen observe_line start_state]. by rewrite bool_decide_true.
Qed.

Lemma verify_sound content e :
  verify_audit_export_file false true content e = Ok tt → ∃ es, export_file content e es.
Proof.
  unfold verify_audit_export_file. fold start_state.
  intros Hv. run_inv Hv. rename v into o. assert (axp_status e = EXPORT_COMPLETED ∧ axp_object e = Some o) as [Hst Hob].
  { destruct (axp_status e); try done. destruct (axp_object e); [|done]. by injection Hrun as <-. }
  cbn in Hrun1. apply Z.eqb_eq in Hrun1. apply verify_lines_fold in Hrun2 as (raws & -> & Hl & Hf); [|done].
  bool_hyps. destruct raws as [|h rest]; [by injection Hf as <-|]. cbn [foldM] in Hf. apply bind_Ok in Hf as (s1 & Hh & Hf).
  apply first_line_Ok in Hh as (_ & Hh & ->).
  destruct (fold_forward e [h] [] rest v2) as (mids & t & v & es & -> & Hm & Hv & Htr & Hsc & Hso & -> & Hsz); [by constructor|by constructor|done|done|].
  cbn in *. exists es. split; try done.
  + exists (h :: mids ++ [t]). split_and!; [done|done|]. split; [|done|done]. by exists h, mids, t, v.
  + exists o. by split_and!.
Qed.

Lemma verify_complete content e es :
  export_file content e es → verify_audit_export_file false true content e = Ok tt.
Proof.
  unfold verify_audit_export_file. fold start_state.
  intros Hx. destruct (xf_object _ _ _ Hx) as (o & -> & -> & Hs & Hd).
  destruct (xf_content _ _ _ Hx) as (raws & -> & Hl & [(h & mids & t & v & -> & Hh & Hm & Hv & Htr) Hsc Hso]).
  cbn [mbind result_bind ensure negb andb]. rewrite Hs, Z.eqb_refl. cbn [mbind result_bind ensure].
  assert (foldM (verify_line e) start_state (h :: mids ++ [t]) = Ok (see_trailer (state_of (h :: mids ++ [t]) es))) as Hf.
  { cbn [foldM]. apply bind_Ok. exists (state_of [h] []). apply Forall_cons in Hl as [(l & El & _ & Hn) Hl]. pose proof (xf_size _ _ _ Hx) as Hsz. split.
    - apply first_line_Ok. split_and!; [|done|done]. split_and!; [done| |by rewrite El, last_snoc]. cbn in Hsz |- *. rewrite length_app in Hsz. lia.
    - by apply (fold_backward e [h] [] mids es t v). }
  assert (∀ bs, bs = concat (h :: mids ++ [t]) →
    verify_lines (S (length bs)) e start_state bs = Ok (see_trailer (state_of (h :: mids ++ [t]) es))) as Hvl.
  { intros bs Eb. apply verify_lines_fold; [done|]. by exists (h :: mids ++ [t]). }
  rewrite Hvl by done.
  cbn [mbind result_bind]. cbn. rewrite Hd, (xf_count _ _ _ Hx), (xf_first _ _ _ Hx), (xf_last _ _ _ Hx).
  rewrite Z.eqb_refl, !bool_decide_true by done. done.
Qed.

(** C14: [verify_audit_export_file] accepts a regular file exactly when it is the file of
    the export: a header with its identity, entries of the tenant up to the cutoff in
    strictly ascending order of time and identifier, a trailer that agrees with the
    record, nothing else, and the recorded size, checksum, count and time range. *)
Theorem verify_accepts_exports content e :
  verify_audit_export_file false true content e = Ok tt ↔ ∃ es, export_file content e es.
Proof. split; [apply verify_sound|]. intros (es & Hx). by eapply verify_complete. Qed.
End Files.
