(* ===== verification/AuditWriterProperties.v ===== *)
(** * What the audit writer writes

    The file of [_AuditWriter] is one the check accepts, and the check reads back the
    entries that were written. *)

From stdpp Require Import base list sets gmap strings sorting pretty.
From Stdlib Require Import ZArith NArith Lia.
From S2P Require Import Prelude PyBase Domain Tables Contracts Execution Transcripts Recovery TaskPlans PyText JsonText PyFormats LifecycleTables DataLifecycle AuditExports AuditFileProperties.

(** ** Printed values *)

(** Characters of a printed line: no surrogate and no line feed *)
Definition line_char (c : N) : bool := is_scalar c && negb (c =? 10)%N.

Lemma ascii_line_char c : (11 ≤ c < 128)%N → line_char c = true.
Proof.
  intros Hc. unfold line_char, is_scalar. rewrite (proj2 (N.ltb_lt _ _)) by lia. by rewrite (proj2 (N.eqb_neq _ _)) by lia.
Qed.

Lemma escape_chars c : is_scalar c = true → forallb line_char (escape_char c) = true ∧ (utf8_len (escape_char c) ≤ 6)%N.
Proof.
  intros Hs. unfold escape_char.
  destruct (N.eqb_spec c 34); [by subst|]. destruct (N.eqb_spec c 92); [by subst|].
  destruct (N.eqb_spec c 8); [by subst|]. destruct (N.eqb_spec c 9); [by subst|].
  destruct (N.eqb_spec c 10); [by subst|]. destruct (N.eqb_spec c 12); [by subst|].
  destruct (N.eqb_spec c 13); [by subst|]. destruct (N.ltb_spec c 32) as [Hc|Hc].
  - clear -Hc. revert c Hc. apply (below_cases (λ c, forallb line_char (py "\u00" ++ [hex_digit (c / 16); hex_digit (c mod 16)])%N = true
      ∧ (utf8_len (py "\u00" ++ [hex_digit (c / 16); hex_digit (c mod 16)]) ≤ 6)%N) 32). by repeat constructor.
  - cbn. unfold line_char. rewrite Hs, (proj2 (N.eqb_neq c 10)) by lia. split; [done|]. unfold utf8_size. repeat case_match; lia.
Qed.

Lemma forallb_bind {A B} (f : A → list B) (P : B → bool) (Q : A → bool) l :
  (∀ x, Q x = true → forallb P (f x) = true) → forallb Q l = true → forallb P (l ≫= f) = true.
Proof.
  intros Hf. induction l as [|x l IH]; [done|]. cbn. intros [Hx Hl]%andb_prop. rewrite forallb_app, Hf by done. cbn. by apply IH.
Qed.

Lemma quoted_chars s : scalar_text s = true → forallb line_char (quoted s) = true ∧ (utf8_len (quoted s) ≤ 2 + 6 * N.of_nat (length s))%N.
Proof.
  intros Hs. unfold quoted. split.
  - cbn. rewrite forallb_app. cbn. rewrite andb_true_r. eapply forallb_bind; [|exact Hs]. intros x Hx. by apply escape_chars.
  - change (34%N :: (s ≫= escape_char) ++ [34%N]) with ([34%N] ++ (s ≫= escape_char) ++ [34%N]). rewrite !utf8_len_app.
    change (utf8_len [34%N]) with 1%N. enough (utf8_len (s ≫= escape_char) ≤ 6 * N.of_nat (length s))%N by lia.
    induction s as [|c s IH]; [done|]. cbn [mbind list_bind length]. rewrite utf8_len_app. apply andb_prop in Hs as [Hc Hs].
    destruct (escape_chars c Hc) as [_ Hle]. specialize (IH Hs). unfold mbind in *. lia.
Qed.

Lemma number_line_char s : forallb number_char s = true → forallb line_char s = true.
Proof.
  rewrite !forallb_forall. intros Hs c Hc. specialize (Hs c Hc). apply ascii_line_char.
  unfold number_char, is_digit, in_range in Hs. rewrite !orb_true_iff, !andb_true_iff, !N.leb_le, !N.eqb_eq in Hs. lia.
Qed.

Lemma str_join_chars (P : N → bool) l : P 44%N = true → forallb (forallb P) l = true → forallb P (str_join (py ",") l) = true.
Proof.
  intros H44. induction l as [|s [|t l] IH]; intros Hl; [done|by apply andb_prop in Hl as [Hs _]|].
  change (str_join (py ",") (s :: t :: l)) with (s ++ py "," ++ str_join (py ",") (t :: l)).
  apply andb_prop in Hl as [Hs Hl]. rewrite !forallb_app, Hs, IH by done. change (forallb P (py ",")) with (P 44%N && true). by rewrite H44.
Qed.

Lemma bracketed_chars (P : N → bool) a s b :
  forallb P a = true → forallb P b = true → forallb P s = true → forallb P (a ++ s ++ b) = true.
Proof. intros Ha Hb Hs. by rewrite !forallb_app, Ha, Hb, Hs. Qed.

Section Printed.
Context `{Wire}.

Lemma canonical_chars n j :
  need j ≤ n → json_ok float_text j = true → encodable j = true → forallb line_char (_canonical_json j) = true.
Proof.
  revert j. induction n as [|n IH]; intros j Hn Hok He; [destruct j; cbn in Hn; lia|].
  destruct j as [|b|z|s|s|l|l].
  - done.
  - by destruct b.
  - cbn [_canonical_json]. apply number_line_char. apply pretty_Z_token.
  - cbn [json_ok] in Hok. rewrite !andb_true_iff in Hok. destruct Hok as [[[_ Hs] _] _]. by apply number_line_char.
  - by apply quoted_chars.
  - rewrite canonical_array. apply bracketed_chars; [done..|]. apply str_join_chars; [done|].
    cbn [json_ok encodable] in Hok, He. rewrite forallb_forall in Hok, He |- *. intros x Hx%list_elem_of_In.
    apply list_elem_of_fmap in Hx as (y & -> & Hy). apply IH; [|by apply Hok, list_elem_of_In|by apply He, list_elem_of_In].
    pose proof (foldr_elem need l y Hy). cbn in Hn. lia.
  - rewrite canonical_object. apply bracketed_chars; [done..|]. apply str_join_chars; [done|].
    cbn [json_ok encodable] in Hok, He. apply andb_prop in Hok as [_ Hok]. rewrite forallb_forall in Hok, He |- *. intros x Hx%list_elem_of_In.
    apply list_elem_of_fmap in Hx as (y & -> & Hy). apply list_elem_of_In in Hy as Hy'. specialize (Hok y Hy'). specialize (He y Hy').
    apply andb_prop in He as [Hk He]. unfold field_text. rewrite !forallb_app. destruct (quoted_chars y.1 Hk) as [-> _]. apply andb_true_intro. split; [done|]. apply andb_true_intro. split; [done|].
    apply IH; [|done|done]. pose proof (foldr_elem (λ kv : pystr * json, need kv.2) l y Hy) as Hfe. cbn in Hfe, Hn. lia.
Qed.

(** The bytes of one line *)
Definition line_of (v : json) : list N := utf8_encode (_canonical_json v) ++ [10%N].

Lemma encode_no_newline s : forallb line_char s = true → 10%N ∉ utf8_encode s.
Proof.
  induction s as [|c s IH]; [intros _; apply not_elem_of_nil|]. rewrite encode_cons. cbn. intros [Hc Hs]%andb_prop.
  apply not_elem_of_app. split; [|by apply IH]. unfold line_char in Hc. apply andb_prop in Hc as [_ Hc]. apply negb_true_iff, N.eqb_neq in Hc.
  unfold encode_char. repeat case_match; rewrite ?not_elem_of_cons; split_and!; try apply not_elem_of_nil;
    (by apply not_eq_sym) || (clear; repeat match goal with |- context [N.modulo ?a ?b] => generalize (N.modulo a b) | |- context [N.div ?a ?b] => generalize (N.div a b) end; intros; lia).
Qed.

Lemma printed_line kv l :
  json_ok float_text (JObject (kv :: l)) = true → encodable (JObject (kv :: l)) = true →
  (utf8_len (_canonical_json (JObject (kv :: l))) < _MAX_AUDIT_LINE_BYTES)%N →
  is_line (line_of (JObject (kv :: l))) ∧ line_value (line_of (JObject (kv :: l))) (JObject (kv :: l)).
Proof.
  intros Hok He Hsz. pose proof (canonical_chars _ _ (le_n _) Hok He) as Hc. split.
  - exists (utf8_encode (_canonical_json (JObject (kv :: l)))). split_and!; [done|by apply encode_no_newline|].
    unfold line_of. rewrite length_app, Nat2N.inj_add, length_encode. cbn [length]. lia.
  - apply loads_line; [done|]. unfold scalar_text. rewrite forallb_forall in Hc |- *. intros c Hin. specialize (Hc c Hin).
    by apply andb_prop in Hc as [? _].
Qed.

(** ** Entries *)

(** What holds of every Python value of the type: identifiers of 128 bits, a time of
    the calendar, and details as [json] represents them *)
Definition entry_value (e : AuditEntry) : bool :=
  uuid_ok (au_id e) && uuid_ok (au_tenant_id e) && timestamp_ok (au_occurred_at e) && json_ok float_text (au_details e).

Lemma validate_entry_Ok e e' :
  validate_audit_entry e = Ok e' ↔
  ∃ subject, identifier_string (au_subject e) = Ok subject ∧ 
    e' = mkAuditRecord (au_id e) (au_tenant_id e) subject (au_method e) (au_resource e) (au_action e) (au_request_id e) (au_details e) (au_occurred_at e) ∧
    chars_between 1 4096 (au_resource e) = true ∧ action_ok (au_action e) = true ∧ chars_between 1 255 (au_request_id e) = true ∧
    scalar_text subject = true ∧ scalar_text (au_resource e) = true ∧ scalar_text (au_request_id e) = true ∧
    is_json_object (au_details e) = true ∧ encodable (au_details e) = true ∧
    (utf8_len (_canonical_json (au_details e)) ≤ MAX_AUDIT_DETAILS_BYTES)%N ∧ (entry_size e' ≤ MAX_AUDIT_ENTRY_BYTES)%N.
Proof.
  unfold validate_audit_entry. split.
  - intros Hv. run_inv Hv. bool_hyps. apply N.leb_le in Hrun5, Hrun6. cbn in Hrun5. exists v. by split_and!.
  - intros (subject & -> & -> & H1 & H2 & H3 & H4 & H5 & H6 & H7 & H8 & Hd%N.leb_le & Hs%N.leb_le). cbn [mbind result_bind].
    rewrite H1, H2, H3, H4, H5, H6, H7, H8. cbn [mbind result_bind ensure andb au_details].
    rewrite Hd. cbn [mbind result_bind ensure]. by rewrite Hs.
Qed.

Lemma validate_entry_idem e e' : validate_audit_entry e = Ok e' → validate_audit_entry e' = Ok e'.
Proof.
  rewrite !validate_entry_Ok. intros (subject & Hs & -> & ?). exists subject. cbn. split_and!; try tauto. by eapply identifier_string_idem.
Qed.

Lemma plain_scalar s : plain_text s = true → scalar_text s = true.
Proof.
  unfold plain_text, scalar_text. rewrite !forallb_forall. intros Hs c Hc. specialize (Hs c Hc).
  unfold plain_char, in_range, is_scalar in *. rewrite !andb_true_iff, !N.leb_le in Hs. rewrite (proj2 (N.ltb_lt _ _)) by lia. done.
Qed.
Lemma action_scalar s : action_ok s = true → scalar_text s = true.
Proof.
  unfold action_ok. intros [_ Hs]%andb_prop. destruct s as [|c s]; [done|]. apply andb_prop in Hs as [Hc Hs].
  assert (∀ x, action_char x = true → is_scalar x = true) as Ha.
  { intros x. unfold action_char, lower_alnum, in_range, is_scalar. rewrite !orb_true_iff, !andb_true_iff, !N.leb_le, bool_decide_eq_true.
    intros Hx. left. apply N.ltb_lt. rewrite !elem_of_cons, elem_of_nil in Hx. lia. }
  unfold scalar_text. cbn [forallb]. apply andb_true_intro. split.
  - apply Ha. unfold action_char, lower_alnum. by rewrite Hc.
  - rewrite forallb_forall in Hs |- *. eauto.
Qed.

Lemma entry_fields e :
  closed_object (entry_json e) [py "action"; py "details"; py "id"; py "method"; py "occurred_at"; py "request_id"; py "resource";
    py "subject"; py "tenant_id"] = Ok tt ∧
  required_string (entry_json e) "id" = Ok (uuid_text (au_id e)) ∧ required_string (entry_json e) "tenant_id" = Ok (uuid_text (au_tenant_id e)) ∧
  required_string (entry_json e) "subject" = Ok (au_subject e) ∧ required_string (entry_json e) "method" = Ok (method_text (au_method e)) ∧
  required_string (entry_json e) "resource" = Ok (au_resource e) ∧ required_string (entry_json e) "action" = Ok (au_action e) ∧
  required_string (entry_json e) "request_id" = Ok (au_request_id e) ∧
  json_get (entry_json e) (py "occurred_at") = Some (JString (dump_datetime (au_occurred_at e))) ∧
  json_get (entry_json e) (py "details") = Some (au_details e).
Proof. repeat split. Qed.

Lemma parse_method_text m : parse_method (method_text m) = Some m.
Proof. by destruct m. Qed.

Definition field_len (kv : pystr * json) : N := (utf8_len (quoted kv.1) + 2 + utf8_len (_canonical_json kv.2))%N.

Lemma object_len l : (utf8_len (_canonical_json (JObject l)) ≤ 2 + foldr (λ kv n, field_len kv + n) 0 l)%N.
Proof.
  rewrite canonical_object, !utf8_len_app. change (utf8_len (py "{")) with 1%N. change (utf8_len (py "}")) with 1%N.
  enough (utf8_len (str_join (py ",") (field_text <$> l)) ≤ foldr (λ kv n, field_len kv + n) 0 l)%N by lia.
  assert (∀ kv, utf8_len (field_text kv) + 1 = field_len kv)%N as Hf.
  { intros kv. unfold field_text, field_len. rewrite !utf8_len_app. change (utf8_len (py ":")) with 1%N. lia. }
  induction l as [|kv [|kv' l] IH]; [done| |].
  - cbn [fmap list_fmap str_join foldr]. specialize (Hf kv). lia.
  - change (str_join (py ",") (field_text <$> kv :: kv' :: l)) with (field_text kv ++ py "," ++ str_join (py ",") (field_text <$> kv' :: l)).
    rewrite !utf8_len_app. change (utf8_len (py ",")) with 1%N. change (foldr (λ kv n, (field_len kv + n)%N) 0%N (kv :: kv' :: l))
      with (field_len kv + foldr (λ kv n, (field_len kv + n)%N) 0%N (kv' :: l))%N. specialize (Hf kv). lia.
Qed.

Lemma string_field_len k s n :
  (utf8_len (quoted (py k)) <=? 30)%N = true → scalar_text s = true → length s ≤ n →
  (field_len (py k, JString s) ≤ 34 + 6 * N.of_nat n)%N.
Proof. intros Hk%N.leb_le Hs Hn. unfold field_len. cbn [fst snd _canonical_json]. destruct (quoted_chars s Hs) as [_ Hq]. lia. Qed.

(** *** Counts *)

Lemma digits_large c r : is_digit c = true → c ≠ 48%N → forallb is_digit r = true → (10 ^ N.of_nat (length r) ≤ digits_value (c :: r))%N.
Proof.
  intros Hc Hne. unfold is_digit, in_range in Hc. rewrite andb_true_iff, !N.leb_le in Hc. induction r as [|d r IH] using rev_ind; intros Hr.
  - cbn. lia.
  - rewrite forallb_app in Hr. apply andb_prop in Hr as [Hr _]. specialize (IH Hr).
    rewrite app_comm_cons, digits_value_snoc, length_app. cbn [length].
    rewrite Nat.add_1_r, Nat2N.inj_succ, N.pow_succ_r'. revert IH. generalize (10 ^ N.of_nat (length r))%N, (digits_value (c :: r)). intros. lia.
Qed.

Lemma count_limit n : (0 ≤ n ≤ MAX_AUDIT_EXPORT_RECORDS)%Z → int_limit (py (pretty n)) = true.
Proof.
  intros Hn. destruct n as [|x|x]; [done| |lia]. destruct (pretty_N_token (Npos x)) as (ds & E & Hd & Hi & Hv).
  unfold int_limit. change (pretty (Z.pos x)) with (pretty (N.pos x)). rewrite E, unsigned_digits by done. cbn [snd]. apply N.leb_le.
  destruct ds as [|c r]; [done|]. cbn [length]. apply andb_prop in Hd as [Hc Hr]. cbn in Hi.
  destruct (N.eqb_spec c 48) as [->|Hne]; [by destruct r|]. pose proof (digits_large c r Hc Hne Hr) as Hl. rewrite Hv in Hl.
  destruct (N.le_gt_cases (N.of_nat (length r)) 8) as [Hs|Hs]; [lia|].
  assert (10 ^ 8 ≤ 10 ^ N.of_nat (length r))%N by (apply N.pow_le_mono_r; lia). unfold MAX_AUDIT_EXPORT_RECORDS in Hn.
  change (10 ^ 8)%N with 100000000%N in *. lia.
Qed.

Lemma timestamp_plain t : plain_text (_timestamp t) = true ∧ length (_timestamp t) ≤ 27.
Proof.
  unfold _timestamp. destruct (iso_local_plain t) as [Hp Hl]. rewrite plain_text_app, Hp, length_app. split; [done|]. change (length (py "Z")) with 1. lia.
Qed.

Lemma header_printed t x c :
  encodable (header_json t x c) = true ∧ is_line (line_of (header_json t x c)) ∧ line_value (line_of (header_json t x c)) (header_json t x c).
Proof.
  destruct (timestamp_plain c) as [Hc%plain_scalar Lc]. pose proof (plain_scalar _ (plain_uuid x)) as Hx. pose proof (plain_scalar _ (plain_uuid t)) as Ht.
  assert (encodable (header_json t x c) = true) as Hen by (unfold header_json; cbn [encodable forallb fst snd]; by rewrite Hc, Hx, Ht).
  split; [done|]. apply printed_line; [reflexivity|done|]. eapply N.le_lt_trans; [apply object_len|]. cbn [foldr].
  pose proof (string_field_len "cutoff_at" _ _ eq_refl Hc Lc).
  pose proof (string_field_len "export_id" _ _ eq_refl Hx (Nat.eq_le_incl _ _ (uuid_text_length _))).
  pose proof (string_field_len "tenant_id" _ _ eq_refl Ht (Nat.eq_le_incl _ _ (uuid_text_length _))).
  assert (field_len (py "type", JString _AUDIT_HEADER_TYPE) ≤ 40)%N by done.
  unfold _MAX_AUDIT_LINE_BYTES, MAX_AUDIT_ENTRY_BYTES. lia.
Qed.

Lemma optional_printed k o : (utf8_len (quoted (py k)) <=? 30)%N = true →
  encodable (optional_timestamp o) = true ∧ json_ok float_text (optional_timestamp o) = true ∧ (field_len (py k, optional_timestamp o) ≤ 250)%N.
Proof.
  intros Hk. destruct o as [t|]; cbn [optional_timestamp].
  - destruct (timestamp_plain t) as [Ht%plain_scalar Lt]. split_and!; [done|done|]. pose proof (string_field_len k _ _ Hk Ht Lt). lia.
  - split_and!; [done|done|]. unfold field_len. cbn [fst snd]. change (utf8_len (_canonical_json JNull)) with 4%N. apply N.leb_le in Hk. lia.
Qed.

Lemma number_len s : forallb number_char s = true → utf8_len s = N.of_nat (length s).
Proof.
  induction s as [|c s IH]; [done|]. cbn [forallb length]. intros [Hc Hs]%andb_prop. change (utf8_len (c :: s)) with (utf8_size c + utf8_len s)%N.
  rewrite IH by done. assert (utf8_size c = 1)%N as ->; [|lia]. unfold utf8_size. unfold number_char, is_digit, in_range in Hc.
  rewrite !orb_true_iff, !andb_true_iff, !N.leb_le, !N.eqb_eq in Hc. destruct (N.ltb_spec c 128); [done|lia].
Qed.

Lemma count_len n : (0 ≤ n)%Z → int_limit (py (pretty n)) = true → (utf8_len (py (pretty n)) ≤ 4300)%N.
Proof.
  intros Hn Hl. rewrite number_len by apply pretty_Z_token. destruct n as [|x|x]; [done| |lia].
  destruct (pretty_N_token (Npos x)) as (ds & E & Hd & _). change (pretty (Z.pos x)) with (pretty (N.pos x)) in *.
  unfold int_limit in Hl. rewrite E, unsigned_digits in Hl by done. rewrite E. by apply N.leb_le in Hl.
Qed.

Lemma trailer_printed n f l : (0 ≤ n ≤ MAX_AUDIT_EXPORT_RECORDS)%Z →
  encodable (trailer_json n f l) = true ∧ is_line (line_of (trailer_json n f l)) ∧ line_value (line_of (trailer_json n f l)) (trailer_json n f l).
Proof.
  intros Hn. pose proof (count_limit n Hn) as Hc. pose proof (count_len n (proj1 Hn) Hc) as Ln.
  destruct (optional_printed "first_occurred_at" f eq_refl) as (Ef & Jf & Lf). destruct (optional_printed "last_occurred_at" l eq_refl) as (El & Jl & Ll).
  assert (encodable (trailer_json n f l) = true) as Hen by (unfold trailer_json; cbn [encodable forallb fst snd]; by rewrite Ef, El, Hc).
  split; [done|]. apply printed_line; [unfold trailer_json; cbn [json_ok forallb fst snd]; by rewrite Jf, Jl, Hc|done|].
  eapply N.le_lt_trans; [apply object_len|]. cbn [foldr].
  assert (field_len (py "type", JString _AUDIT_TRAILER_TYPE) ≤ 40)%N by done.
  assert (field_len (py "record_count", JInt n) ≤ 5000)%N.
  { unfold field_len. cbn [fst snd _canonical_json]. change (utf8_len (quoted (py "record_count"))) with 14%N. lia. }
  unfold _MAX_AUDIT_LINE_BYTES, MAX_AUDIT_ENTRY_BYTES. lia.
Qed.

Section Laws.
Context `{!WireLaws}.

Lemma entry_of_entry_json e : validate_audit_entry e = Ok e → entry_value e = true → entry_of_json (entry_json e) = Ok e.
Proof.
  unfold entry_value. intros Hv Hx. rewrite !andb_true_iff in Hx. destruct Hx as [[[Hi Ht] Ho] _].
  unfold entry_of_json, required_uuid. destruct (entry_fields e) as (-> & -> & -> & -> & -> & -> & -> & -> & -> & ->).
  cbn [mbind result_bind option_bind]. rewrite !parse_uuid_text, parse_method_text, parse_dump_datetime by done.
  cbn [require mbind result_bind]. rewrite normalize_utc. cbn [mbind result_bind default]. destruct e. exact Hv.
Qed.

(** The texts of an entry *)
Lemma entry_texts e :
  validate_audit_entry e = Ok e → entry_value e = true →
  (scalar_text (au_action e) = true ∧ length (au_action e) ≤ 255) ∧
  (scalar_text (uuid_text (au_id e)) = true ∧ scalar_text (uuid_text (au_tenant_id e)) = true) ∧
  (scalar_text (dump_datetime (au_occurred_at e)) = true ∧ length (dump_datetime (au_occurred_at e)) ≤ 32) ∧
  (scalar_text (au_request_id e) = true ∧ length (au_request_id e) ≤ 255) ∧
  (scalar_text (au_resource e) = true ∧ (N.of_nat (length (au_resource e)) ≤ 4096)%N) ∧
  (scalar_text (au_subject e) = true ∧ length (au_subject e) ≤ 255) ∧
  encodable (au_details e) = true ∧ json_ok float_text (au_details e) = true ∧
  (utf8_len (_canonical_json (au_details e)) ≤ MAX_AUDIT_DETAILS_BYTES)%N.
Proof.
  intros Hv Hx. unfold entry_value in Hx. rewrite !andb_true_iff in Hx. destruct Hx as [[[_ _] Ho] Hd].
  apply validate_entry_Ok in Hv as (subject & Hs & He & Hr & Ha & Hq & Hs' & Hr' & Hq' & _ & Hen & Hsz & _).
  assert (au_subject e = subject) as Es by (by apply (f_equal au_subject) in He). subst subject.
  apply identifier_string_Ok in Hs as [_ Hs]. destruct (dump_datetime_text _ Ho) as [Hp Hl].
  unfold chars_between in Hr, Hq. apply andb_prop in Hr as [_ Hr%N.leb_le]. apply andb_prop in Hq as [_ Hq%N.leb_le].
  apply andb_prop in Ha as Ha'. destruct Ha' as [Hal%Nat.leb_le _].
  split_and!; try done; try (by apply plain_scalar, plain_uuid); [by apply action_scalar|by apply plain_scalar|lia|lia].
Qed.

Lemma entry_line_printed e :
  validate_audit_entry e = Ok e → entry_value e = true →
  encodable (entry_line e) = true ∧ is_line (line_of (entry_line e)) ∧ line_value (line_of (entry_line e)) (entry_line e).
Proof.
  intros Hv Hx. destruct (entry_texts e Hv Hx) as ((Ha & La) & (Hi & Ht) & (Ho & Lo) & (Hq & Lq) & (Hr & Lr) & (Hs & Ls) & He & Hd & Ld).
  assert (encodable (entry_line e) = true) as Hen.
  { unfold entry_line, entry_json. cbn [encodable forallb fst snd]. rewrite Ha, Hi, Ht, Ho, Hq, Hr, Hs, He. by destruct (au_method e). }
  split; [done|]. apply printed_line; [|done|].
  - unfold entry_line, entry_json. cbn [json_ok forallb fst snd]. by rewrite Hd.
  - eapply N.le_lt_trans; [apply object_len|]. cbn [foldr]. unfold field_len at 1. cbn [fst snd].
    pose proof (object_len (match entry_json e with JObject l => l | _ => [] end)) as Hj. cbn [entry_json] in Hj. unfold entry_json.
    cbn [foldr] in Hj.
    pose proof (string_field_len "action" _ _ eq_refl Ha La). pose proof (string_field_len "id" _ _ eq_refl Hi (Nat.eq_le_incl _ _ (uuid_text_length _))).
    pose proof (string_field_len "tenant_id" _ _ eq_refl Ht (Nat.eq_le_incl _ _ (uuid_text_length _))).
    pose proof (string_field_len "occurred_at" _ _ eq_refl Ho Lo). pose proof (string_field_len "request_id" _ _ eq_refl Hq Lq).
    pose proof (string_field_len "resource" _ _ eq_refl Hr (le_n _)). pose proof (string_field_len "subject" _ _ eq_refl Hs Ls).
    assert (field_len (py "method", JString (method_text (au_method e))) ≤ 100)%N by (by destruct (au_method e)).
    assert (field_len (py "details", au_details e) ≤ 20 + utf8_len (_canonical_json (au_details e)))%N 
      by (unfold field_len; cbn [fst snd]; change (utf8_len (quoted (py "details"))) with 9%N; lia).
    assert (field_len (py "type", JString _AUDIT_ENTRY_TYPE) ≤ 30)%N by done.
    change (utf8_len (quoted (py "entry"))) with 7%N. unfold _MAX_AUDIT_LINE_BYTES, MAX_AUDIT_ENTRY_BYTES, MAX_AUDIT_DETAILS_BYTES in *.
    lia.
Qed.
End Laws.
End Printed.

(** ** The writer *)

Section Writer.
Context `{Wire}.
Variable os_write : list N → list N → result Z.

Lemma write_all_Ok fuel file payload f : _write_all os_write fuel file payload = Ok f → f = file ++ payload.
Proof.
  revert file payload. induction fuel as [|fuel IH]; intros file [|b payload] Hw; cbn in Hw; try (by injection Hw as <-; rewrite app_nil_r); [done|].
  run_inv Hw. apply IH in Hw as ->. rewrite <- app_assoc. f_equal. apply take_drop.
Qed.

(** A descriptor that makes progress takes the whole payload. *)
Lemma write_all_total fuel file payload :
  (∀ file b rest, ∃ n, os_write file (b :: rest) = Ok n ∧ (0 < n)%Z) → length payload ≤ fuel →
  _write_all os_write fuel file payload = Ok (file ++ payload).
Proof.
  intros Hos. revert file payload. induction fuel as [|fuel IH]; intros file [|b payload] Hl; try (cbn; by rewrite app_nil_r); [cbn in Hl; lia|].
  cbn [_write_all]. destruct (Hos file b payload) as (n & -> & Hn). cbn [mbind result_bind]. rewrite (proj2 (Z.ltb_lt _ _)) by done.
  cbn [mbind result_bind ensure]. rewrite IH.
  - rewrite <- app_assoc, take_drop. done.
  - rewrite length_drop. cbn [length] in *. lia.
Qed.

Definition with_line (w : AuditWriter) (v : json) : AuditWriter :=
  mkAuditWriter (aw_tenant_id w) (aw_export_id w) (aw_cutoff_at w) (aw_maximum_bytes w) (aw_maximum_records w) (aw_file w ++ line_of v)
    (aw_written_bytes w + Z.of_nat (length (line_of v))) (aw_last_key w) (aw_record_count w) (aw_first_occurred_at w)
    (aw_last_occurred_at w) (aw_finished w).

Lemma write_json_Ok w v w' :
  _write_json os_write w v = Ok w' → encodable v = true ∧ w' = with_line w v ∧ (aw_written_bytes w' ≤ aw_maximum_bytes w)%Z.
Proof.
  unfold _write_json. intros Hw. run_inv Hw. apply Z.leb_le in Hrun0. apply write_all_Ok in Hrun1 as ->. done.
Qed.

Ltac writer_fields :=
  cbn [aw_tenant_id aw_export_id aw_cutoff_at aw_maximum_bytes aw_maximum_records aw_file aw_written_bytes aw_last_key aw_record_count
       aw_first_occurred_at aw_last_occurred_at aw_finished with_line new_writer app] in *.

(** The writer after a header and some entries *)
Definition body (t x : uuid) (c : timestamp) (es : list AuditEntry) : list (list N) :=
  line_of (header_json t x c) :: ((λ e, line_of (entry_line e)) <$> es).

Record written (w : AuditWriter) (t x : uuid) (c mb mr : Z) (es : list AuditEntry) : Prop := {
  wr_identity : aw_tenant_id w = t ∧ aw_export_id w = x ∧ aw_cutoff_at w = c ∧ aw_maximum_bytes w = mb ∧ aw_maximum_records w = mr;
  wr_file : aw_file w = concat (body t x c es);
  wr_bytes : aw_written_bytes w = Z.of_nat (length (aw_file w)) ∧ (aw_written_bytes w ≤ mb)%Z;
  wr_count : aw_record_count w = Z.of_nat (length es) ∧ (es = [] ∨ aw_record_count w ≤ mr)%Z;
  wr_first : aw_first_occurred_at w = au_occurred_at <$> head es;
  wr_last : aw_last_occurred_at w = au_occurred_at <$> last es;
  wr_key : aw_last_key w = entry_key <$> last es;
  wr_scope : Forall (λ en, in_scope t c en = true) es;
  wr_order : StronglySorted key_lt es;
  wr_open : aw_finished w = false;
}.

Lemma header_written t x c mb mr w : write_header os_write (new_writer t x c mb mr) = Ok w → written w t x c mb mr [].
Proof.
  intros Hw. apply write_json_Ok in Hw as (_ & -> & Hb). writer_fields. split; writer_fields; try done.
  - unfold body. cbn [fmap list_fmap concat]. by rewrite app_nil_r.
  - split; [done|by left].
  - constructor.
Qed.

Lemma body_snoc t x c es e : concat (body t x c (es ++ [e])) = concat (body t x c es) ++ line_of (entry_line e).
Proof. unfold body. rewrite fmap_app, app_comm_cons. cbn [fmap list_fmap]. by rewrite concat_snoc. Qed.

Lemma entry_written w t x c mb mr es e w' :
  written w t x c mb mr es → write_entry os_write w e = Ok w' → written w' t x c mb mr (es ++ [e]).
Proof.
  intros [(<- & <- & <- & <- & <-) Hf [Hb Hb'] [Hc Hc'] H1 H2 Hk Hs Ho Hop] Hw. unfold write_entry in Hw. run_inv Hw.
  apply write_json_Ok in Hrun2 as (_ & -> & Hle). writer_fields. bool_hyps. split; writer_fields.
  - done.
  - by rewrite body_snoc, Hf.
  - rewrite Hb, length_app. split; [lia|]. lia.
  - rewrite length_app. cbn. split; [lia|right; lia].
  - rewrite H1, head_snoc. by destruct (head es).
  - by rewrite last_snoc.
  - by rewrite last_snoc.
  - apply Forall_app. split; [done|]. constructor; [|done]. unfold in_scope. rewrite bool_decide_true by done. cbn. by apply Z.leb_le.
  - apply ascending_snoc; [done|]. intros l Hl. rewrite Hk, Hl in Hrun0. cbn in Hrun0. by apply negb_true_iff in Hrun0.
  - done.
Qed.

Lemma entries_written w t x c mb mr es new w' :
  written w t x c mb mr es → write_entries os_write w new = Ok w' → written w' t x c mb mr (es ++ new).
Proof.
  revert w es. induction new as [|e new IH]; intros w es Hw Hn; cbn in Hn; [injection Hn as <-; by rewrite app_nil_r|].
  apply bind_Ok in Hn as (w1 & H1 & Hn). assert (es ++ e :: new = (es ++ [e]) ++ new) as -> by (by rewrite <- app_assoc).
  eapply IH; [|exact Hn]. by eapply entry_written.
Qed.

Lemma batches_written w t x c mb mr es batches w' :
  written w t x c mb mr es → foldM (write_entries os_write) w batches = Ok w' → written w' t x c mb mr (es ++ concat batches).
Proof.
  revert w es. induction batches as [|b batches IH]; intros w es Hw Hn; cbn in Hn; [injection Hn as <-; by rewrite app_nil_r|].
  apply bind_Ok in Hn as (w1 & H1 & Hn). cbn [concat]. rewrite app_assoc. eapply IH; [|exact Hn]. by eapply entries_written.
Qed.

(** The completed record the service stores for a file *)
Definition records_file (e : AuditExport) (w : AuditWriter) : Prop :=
  axp_tenant_id e = aw_tenant_id w ∧ axp_id e = aw_export_id w ∧ axp_cutoff_at e = aw_cutoff_at w ∧
  axp_status e = EXPORT_COMPLETED ∧ axp_record_count e = Some (aw_record_count w) ∧
  axp_first_occurred_at e = aw_first_occurred_at w ∧ axp_last_occurred_at e = aw_last_occurred_at w ∧
  ∃ o, axp_object e = Some o ∧ so_size_bytes o = Z.of_nat (length (aw_file w)) ∧ so_sha256 o = sha256 (aw_file w).

Lemma finished_identity w t x c mb mr es w' :
  written w t x c mb mr es → finish os_write w = Ok w' → aw_tenant_id w' = t ∧ aw_export_id w' = x ∧ aw_cutoff_at w' = c.
Proof.
  intros [(<- & <- & <- & _) _ _ _ _ _ _ _ _ _] Hf. unfold finish in Hf. run_inv Hf. apply write_json_Ok in Hrun0 as (_ & -> & _). done.
Qed.

Context `{!WireLaws}.

Lemma entries_printed es :
  Forall (λ en, validate_audit_entry en = Ok en ∧ entry_value en = true) es →
  Forall2 entry_raw ((λ e, line_of (entry_line e)) <$> es) es.
Proof.
  induction 1 as [|en es [Hv Hx] _ IH]; [constructor|]. constructor; [|done].
  destruct (entry_line_printed en Hv Hx) as (_ & _ & Hl). exists (entry_line en), (entry_json en).
  split_and!; [exact Hl|done|done|done|by apply entry_of_entry_json].
Qed.

Lemma finished_file w t x c mb mr es w' e :
  written w t x c mb mr es → (mb ≤ MAX_AUDIT_EXPORT_BYTES)%Z → (mr ≤ MAX_AUDIT_EXPORT_RECORDS)%Z →
  Forall (λ en, validate_audit_entry en = Ok en ∧ entry_value en = true) es →
  finish os_write w = Ok w' → records_file e w' → export_file (aw_file w') e es.
Proof.
  intros [(<- & <- & <- & <- & <-) Hf [Hb Hb'] [Hc Hc'] H1 H2 Hk Hs Ho Hop] Hmb Hmr Hes Hfin He. unfold finish in Hfin. run_inv Hfin.
  apply write_json_Ok in Hrun0 as (_ & -> & Hle). unfold records_file in He. writer_fields.
  destruct He as (Et & Ei & Ec & Est & Ecount & Ef & El & o & Eo & Esz & Esh).
  assert (0 ≤ aw_record_count w ≤ MAX_AUDIT_EXPORT_RECORDS)%Z as Hn.
  { rewrite Hc in *. destruct Hc' as [->|Hc']; [cbn; unfold MAX_AUDIT_EXPORT_RECORDS|]; lia. }
  destruct (header_printed (aw_tenant_id w) (aw_export_id w) (aw_cutoff_at w)) as (_ & Hhl & Hhv).
  destruct (trailer_printed (aw_record_count w) (aw_first_occurred_at w) (aw_last_occurred_at w) Hn) as (_ & Htl & Htv).
  cbn [aw_file with_line]. split.
  - exists (body (aw_tenant_id w) (aw_export_id w) (aw_cutoff_at w) es ++ [line_of (trailer_json (aw_record_count w) (aw_first_occurred_at w) (aw_last_occurred_at w))]).
    split_and!; [by rewrite concat_snoc, Hf| |].
    + unfold body. cbn. constructor; [done|]. apply Forall_app. split; [|by constructor]. apply Forall_fmap.
      eapply Forall_impl; [exact Hes|]. intros en [Hv Hx]. by apply entry_line_printed.
    + split; [|by rewrite Et, Ec|done]. unfold body. eexists _, _, _, _. cbn. split_and!; [reflexivity|by rewrite Et, Ei, Ec| |exact Htv|].
      * by apply entries_printed.
      * rewrite Ecount, Ef, El. unfold trailer_json, trailer_matches. rewrite !bool_decide_true by done. cbn. by rewrite Z.eqb_refl.
  - by rewrite Ecount, Hc.
  - by rewrite Ef.
  - by rewrite El.
  - rewrite length_app. lia.
  - by exists o.
Qed.

(** C15: the writer and the check agree: when header, entries in batches and trailer were
    written within the limits of the service, the file verifies against the record of
    the writer, and the entries it holds are the ones that were written. *)
Theorem written_export_verifies t x c mb mr batches w0 w1 w2 e :
  (mb ≤ MAX_AUDIT_EXPORT_BYTES)%Z → (mr ≤ MAX_AUDIT_EXPORT_RECORDS)%Z →
  Forall (λ en, validate_audit_entry en = Ok en ∧ entry_value en = true) (concat batches) →
  write_header os_write (new_writer t x c mb mr) = Ok w0 → foldM (write_entries os_write) w0 batches = Ok w1 →
  finish os_write w1 = Ok w2 → records_file e w2 →
  verify_audit_export_file false true (aw_file w2) e = Ok tt ∧ export_file (aw_file w2) e (concat batches).
Proof.
  intros Hmb Hmr Hes Hw0 Hw1 Hw2 He.
  assert (written w1 t x c mb mr (concat batches)) as Hw by (eapply (batches_written w0 _ _ _ _ _ []); [by apply header_written|done]).
  pose proof (finished_file _ _ _ _ _ _ _ _ _ Hw Hmb Hmr Hes Hw2 He) as Hx.
  split; [by eapply verify_complete|done].
Qed.
End Writer.
