(* ===== verification/AuditServiceProperties.v ===== *)
(** * The audit export

    [AuditExportService.export] against a log that grows while it is read: what it
    completes is a stored file that verifies, with an entry for every row that was in
    scope when it started. *)

From stdpp Require Import base list sets gmap strings sorting.
From Stdlib Require Import ZArith NArith Lia.
From S2P Require Import Prelude PyBase Domain Tables Contracts Execution Transcripts Recovery TaskPlans PyText JsonText PyFormats PyEffects LifecycleTables DataLifecycle AuditExports LifecycleService LifecycleProperties AuditFileProperties AuditWriterProperties.
Import LifecycleRepository.

(** ** Pages *)

#[export] Instance row_le_total : Total row_le.
Proof.
  intros a b. unfold row_le, key_le. destruct (entry_key a) as [t i], (entry_key b) as [u j]. cbn.
  destruct (Z.lt_trichotomy t u) as [Hl|[->|Hl]].
  - left. by rewrite (proj2 (Z.ltb_lt _ _) Hl).
  - rewrite Z.ltb_irrefl, Z.eqb_refl. cbn. destruct (N.le_ge_cases i j) as [Hi|Hi]; [left|right]; by apply N.leb_le.
  - right. by rewrite (proj2 (Z.ltb_lt _ _) Hl).
Qed.
#[export] Instance row_le_trans : Transitive row_le.
Proof.
  intros a b c. unfold row_le, key_le. destruct (entry_key a) as [t i], (entry_key b) as [u j], (entry_key c) as [v k]. cbn.
  rewrite !orb_true_iff, !andb_true_iff, !Z.ltb_lt, !Z.eqb_eq, !N.leb_le. lia.
Qed.

Lemma key_le_antisym a b : key_le a b = true → key_le b a = true → a = b.
Proof.
  destruct a as [t i], b as [u j]. unfold key_le. cbn. rewrite !orb_true_iff, !andb_true_iff, !Z.ltb_lt, !Z.eqb_eq, !N.leb_le.
  intros H1 H2. f_equal; lia.
Qed.

(** The rows of the log are found under their identifiers and are values. *)
Definition log_values `{Wire} (p : PlatformDb) : Prop :=
  ∀ i row, audit_log p !! i = Some row → au_id row = i ∧ entry_value row = true.

Section Pages.
Context `{Wire} (p : PlatformDb) (t : uuid) (c : timestamp) (cursor : option (timestamp * uuid)) (n : Z).
Local Abbreviation page := (audit_page p t c cursor n).
Local Abbreviation wanted := (λ row, in_scope t c row && after_cursor cursor row).

Lemma page_rows row : row ∈ page → in_scope t c row = true ∧ after_cursor cursor row = true ∧ ∃ i, audit_log p !! i = Some row.
Proof. intros [Hw Hi]%elem_of_sorted_rows. apply andb_prop in Hw as [? ?]. done. Qed.

Lemma page_empty : (1 ≤ n)%Z → page = [] → ∀ i row, audit_log p !! i = Some row → in_scope t c row = true → after_cursor cursor row = false.
Proof.
  intros Hn Hp i row Hi Hs. destruct (after_cursor cursor row) eqn:Ha; [|done].
  assert (row ∈ select_where wanted (audit_log p)) as Hin by (apply elem_of_select; rewrite Hs, Ha; eauto).
  rewrite <- (merge_sort_Permutation row_le) in Hin. unfold audit_page in Hp. destruct (merge_sort row_le _) as [|x l]; [by apply elem_of_nil in Hin|].
  destruct (Z.to_nat n) eqn:E; [lia|done].
Qed.

(** A page has every row up to its last one. *)
Lemma page_reaches last_row row i :
  log_values p → last page = Some last_row → audit_log p !! i = Some row → in_scope t c row = true → after_cursor cursor row = true →
  after_cursor (Some (entry_key last_row)) row = false → row ∈ page.
Proof.
  intros Hlog Hl Hi Hs Ha Hk.
  assert (row ∈ select_where wanted (audit_log p)) as Hin by (apply elem_of_select; rewrite Hs, Ha; eauto).
  rewrite <- (merge_sort_Permutation row_le) in Hin. rewrite <- (take_drop (Z.to_nat n) (merge_sort row_le _)) in Hin.
  apply elem_of_app in Hin as [Hin|Hin]; [done|].
  pose proof (Sorted_merge_sort row_le (select_where wanted (audit_log p))) as Hso. apply Sorted_StronglySorted in Hso; [|apply _].
  rewrite <- (take_drop (Z.to_nat n) (merge_sort row_le _)) in Hso.
  assert (last_row ∈ page) as Hlr by (apply last_Some in Hl as [l ->]; apply elem_of_app; right; by left).
  assert (row_le last_row row) as Hle by (eapply StronglySorted_app_1_elem_of; [exact Hso|done|done]).
  cbn in Hk. apply negb_false_iff in Hk. pose proof (key_le_antisym _ _ Hk Hle) as Heq.
  destruct (page_rows _ Hlr) as (_ & _ & j & Hj). destruct (Hlog _ _ Hi) as [Hid _]. destruct (Hlog _ _ Hj) as [Hjd _].
  assert (i = j) as <- by (rewrite <- Hid, <- Hjd; by injection Heq). rewrite Hi in Hj. by injection Hj as ->.
Qed.
End Pages.

(** ** Returning computations *)

Definition returns {A} (P : World → Prop) (m : eff World A) (Q : A → World → Prop) : Prop :=
  ∀ w a w', P w → m w = (Ret a, w') → Q a w'.

Lemma returns_bind {A B} P (m : eff World A) (k : A → eff World B) Q R :
  returns P m Q → (∀ a, returns (Q a) (k a) R) → returns P (m ≫= k) R.
Proof. intros Hm Hk w b w' HP (a & w1 & E1 & E2)%eff_bind_Ret. eapply Hk; [by eapply Hm|done]. Qed.
Lemma returns_ret {A} (P : World → Prop) (a : A) Q : (∀ w, P w → Q a w) → returns P (mret a) Q.
Proof. intros HQ w b w' HP [= <- <-]. auto. Qed.
Lemma returns_raise {A} (P : World → Prop) e (Q : A → World → Prop) : returns P (raise e) Q.
Proof. by intros w a w' _ [=]. Qed.
Lemma returns_gets {A} (P : World → Prop) (f : World → A) : returns P (gets f) (λ _, P).
Proof. by intros w a w' HP [= _ <-]. Qed.
Lemma returns_lift {A} message (P : World → Prop) (r : result A) : returns P (lift message r) (λ a w, P w ∧ r = Ok a).
Proof. intros w a w' HP. unfold lift. destruct r; [|done]. by intros [= <- <-]. Qed.
Lemma returns_weaken {A} (P P' : World → Prop) (m : eff World A) (Q Q' : A → World → Prop) :
  returns P' m Q' → (∀ w, P w → P' w) → (∀ a w, Q' a w → Q a w) → returns P m Q.
Proof. intros Hm HP HQ w a w' Hw E. eauto. Qed.

(** ** Rows of exports *)

Lemma validated_stored o o' : validate_stored_object o = Ok o' → o' = o.
Proof. unfold validate_stored_object. intros Hx. apply bind_Ok in Hx as (? & _ & Hx). run_inv Hx. done. Qed.
Lemma validated_object o o' : validate_optional validate_stored_object o = Ok o' → o' = o.
Proof.
  destruct o as [o|]; cbn; [|by intros [= <-]]. intros Hv. apply bind_Ok in Hv as (x & Hx%validated_stored & [= <-]). by subst.
Qed.

(** The fields validation leaves alone *)
Definition same_export (e e' : AuditExport) : Prop :=
  axp_id e' = axp_id e ∧ axp_tenant_id e' = axp_tenant_id e ∧ axp_status e' = axp_status e ∧ axp_cutoff_at e' = axp_cutoff_at e ∧
  axp_object e' = axp_object e ∧ axp_record_count e' = axp_record_count e ∧ axp_first_occurred_at e' = axp_first_occurred_at e ∧
  axp_last_occurred_at e' = axp_last_occurred_at e.

Lemma validated_export e e' : validate_audit_export e = Ok e' → same_export e e'.
Proof.
  unfold validate_audit_export. intros Hv. apply bind_Ok in Hv as (who & _ & Hv). apply bind_Ok in Hv as (o & Ho%validated_object & Hv).
  apply bind_Ok in Hv as (? & _ & Hv). apply bind_Ok in Hv as (? & _ & Hv). apply bind_Ok in Hv as (? & _ & [= <-]). by subst o.
Qed.

Lemma export_row_status row e : _audit_export row = Ok e → axp_status e = ex_status row ∧ axp_cutoff_at e = ex_cutoff_at row.
Proof.
  unfold _audit_export. intros Hv. apply bind_Ok in Hv as (o & _ & Hv). apply bind_Ok in Hv as (x & _ & Hv).
  by apply validated_export in Hv as (_ & _ & -> & -> & _).
Qed.

Lemma completed_row p e r p' :
  platform_ok p → complete_audit_export p e = Ok (r, p') →
  platform_ok p' ∧ audit_log p' = audit_log p ∧ same_export e r ∧ axp_status r = EXPORT_COMPLETED ∧
  ∃ row, audit_exports p' !! axp_id e = Some row ∧ _audit_export row = Ok r.
Proof.
  intros Hp Hc. unfold complete_audit_export in Hc. run_inv Hc. bool_hyps. destruct (ex_status v0) eqn:Es; run_inv Hc.
  - apply statement_Ok in Hrun4 as [-> Hok]. destruct (pk_exports _ Hp _ _ Hrun0) as [Hid _]. bool_hyps.
    split_and!; [done|done| | |].
    + unfold _audit_export in Hrun5. apply bind_Ok in Hrun5 as (o & Ho & Hv). apply bind_Ok in Hv as (x & _ & Hv). cbn in Ho.
      rewrite Hrun in Ho. apply bind_Ok in Ho as (o' & Ho' & [= <-]). apply validated_export in Hv. destruct Hv as (E1 & E2 & E3 & E4 & E5 & E6 & E7 & E8).
      cbn in *. unfold same_export. rewrite E1, E2, E3, E4, E5, E6, E7, E8. split_and!; try done; try congruence.
      apply validated_stored in Ho' as ->. rewrite Hrun3. by destruct v3.
    + apply export_row_status in Hrun5 as [-> _]. done.
    + eexists. split; [|exact Hrun5]. cbn. rewrite Hid. apply lookup_insert_eq.
  - bool_hyps. subst e. split_and!; [done|done|done|by eapply export_row_status in Hrun2 as [-> _]|by exists v0].
Qed.

(** ** The export *)

Section Exports.
Context `{WI : Wire} `{OS : ObjectStore} `{!WireLaws} `{!ObjectStoreLaws}.
Variable message : string → pystr.
Variable pause : eff World unit.
Variable clock : World → timestamp.
Variable os_write : list N → list N → result Z.
Variable config : LifecycleServiceConfig.
Variable tenant_id export_id : uuid.
Local Abbreviation object_key := (tenant_audit_export_object_key tenant_id export_id).

(** What others may do while an export runs: append to the audit log and change
    anything but this export and its object *)
Record export_rely (w w' : World) : Prop := {
  er_log : audit_log (wd_db w) ⊆ audit_log (wd_db w');
  er_values : platform_ok (wd_db w) → log_values (wd_db w) → platform_ok (wd_db w') ∧ log_values (wd_db w');
  er_export : audit_exports (wd_db w') !! export_id = audit_exports (wd_db w) !! export_id;
  er_object : wd_objects w' !! object_key = wd_objects w !! object_key;
}.
Hypothesis others : keeps export_rely pause.

Definition stable (P : World → Prop) : Prop := ∀ w w', P w → export_rely w w' → P w'.

Lemma returns_pause P : stable P → returns P pause (λ _, P).
Proof. intros HP w a w' Hw E. pose proof (others w) as Hr. rewrite E in Hr. by eapply HP. Qed.
Lemma returns_thread {A} P (r : result A) : stable P → returns P (to_thread message pause r) (λ a w, P w ∧ r = Ok a).
Proof.
  intros HP. unfold to_thread. eapply returns_bind; [by apply returns_pause|]. intros ?. cbv beta.
  eapply returns_bind; [apply returns_lift|]. intros x. cbv beta.
  eapply returns_bind; [apply returns_pause|].
  - intros w w' [Hw E] Hr. split; [by eapply HP|done].
  - intros ?. by apply returns_ret.
Qed.
Lemma returns_transaction {A} P (f : World → PlatformDb → result (A * PlatformDb)) (Q : A → World → Prop) :
  stable P → (∀ a, stable (Q a)) → (∀ w a p', P w → f w (wd_db w) = Ok (a, p') → Q a (set_db w p')) →
  returns P (transaction message pause f) Q.
Proof.
  intros HP HQ Hf. unfold transaction. eapply returns_bind; [by apply returns_pause|]. intros ?. cbv beta.
  eapply (returns_bind _ _ _ Q).
  - intros w b w' Hw. unfold commit_. destruct (f w (wd_db w)) as [[x p']|] eqn:E; [|done]. intros [= <- <-]. by eapply Hf.
  - intros b. eapply returns_bind; [by apply returns_pause|]. intros ?. by apply returns_ret.
Qed.
Lemma set_db_same w : set_db w (wd_db w) = w.
Proof. by destruct w. Qed.
Lemma returns_query {A} P (f : PlatformDb → result A) (Q : A → World → Prop) :
  stable P → (∀ a, stable (Q a)) → (∀ w a, P w → f (wd_db w) = Ok a → Q a w) → returns P (query message pause f) Q.
Proof.
  intros HP HQ Hf. apply returns_transaction; [done|done|]. intros w a p' Hw E. run_inv E. rewrite set_db_same. by apply Hf.
Qed.

(** *** The pages of an export *)

Section Reading.
Variable p0 : PlatformDb.
Variable stored : option AuditExportRecord.
Variable c : timestamp.
Hypothesis Hsize : (1 ≤ audit_batch_size config)%Z.
Local Abbreviation mb := (audit_max_bytes config).
Local Abbreviation mr := (audit_max_records config).

Definition started (w : World) : Prop :=
  audit_log p0 ⊆ audit_log (wd_db w) ∧ platform_ok (wd_db w) ∧ log_values (wd_db w) ∧ audit_exports (wd_db w) !! export_id = stored.
Lemma started_stable : stable started.
Proof.
  intros w w' (Hl & Hp & Hv & He) Hr. destruct (er_values _ _ Hr Hp Hv) as [Hp' Hv']. split_and!; [|done|done|].
  - etransitivity; [exact Hl|by apply er_log].
  - by rewrite (er_export _ _ Hr).
Qed.

(** Entries that come from rows of the log *)
Definition from_log (es : list AuditEntry) (w : World) : Prop :=
  Forall (λ en, ∃ i row, audit_log (wd_db w) !! i = Some row ∧ _audit_entry row = Ok en) es.
Lemma from_log_stable es : stable (from_log es).
Proof.
  intros w w' Hf Hr. eapply Forall_impl; [exact Hf|]. intros en (i & row & Hi & He). exists i, row. split; [|done].
  by eapply lookup_weaken; [|apply er_log].
Qed.

(** Every row of the start up to the cursor has its entry. *)
Definition covers (cursor : option (timestamp * uuid)) (es : list AuditEntry) : Prop :=
  ∀ i row, audit_log p0 !! i = Some row → in_scope tenant_id c row = true → after_cursor cursor row = false →
    ∃ en, _audit_entry row = Ok en ∧ en ∈ es.
Definition complete (es : list AuditEntry) : Prop :=
  ∀ i row, audit_log p0 !! i = Some row → in_scope tenant_id c row = true → ∃ en, _audit_entry row = Ok en ∧ en ∈ es.
Definition values (es : list AuditEntry) : Prop := Forall (λ en, validate_audit_entry en = Ok en ∧ entry_value en = true) es.

Definition progress (es : list AuditEntry) (w : World) : Prop :=
  started w ∧ from_log es w ∧ covers (entry_key <$> last es) es ∧ values es.
Lemma progress_stable es : stable (progress es).
Proof. intros w w' (Hs & Hf & Hc) Hr. split_and!; [by eapply started_stable|by eapply from_log_stable|by apply Hc|by apply Hc]. Qed.

Lemma entry_same row en : _audit_entry row = Ok en → entry_key en = entry_key row ∧ entry_value en = entry_value row ∧ validate_audit_entry en = Ok en.
Proof.
  intros He. pose proof (validate_entry_idem _ _ He) as Hv. apply validate_entry_Ok in He as (subject & _ & -> & _). done.
Qed.

Lemma traverse_last rows entries row :
  traverse _audit_entry rows = Ok entries → last rows = Some row → ∃ en, last entries = Some en ∧ _audit_entry row = Ok en.
Proof.
  intros Ht%traverse_Ok Hl. apply last_Some in Hl as [l ->]. apply Forall2_app_inv_l in Ht as (k1 & k2 & _ & Hk & ->).
  apply Forall2_cons_inv_l in Hk as (en & k3 & He & Hn & ->). apply Forall2_nil_inv_l in Hn as ->. exists en. by rewrite last_snoc.
Qed.

(** What a page read at some moment says about the start *)
Definition page_facts (es : list AuditEntry) (rows : list AuditRecord) (w : World) : Prop :=
  progress es w ∧
  (rows = [] → complete es) ∧
  (∀ row, last rows = Some row → ∀ i r, audit_log p0 !! i = Some r → in_scope tenant_id c r = true →
    after_cursor (entry_key <$> last es) r = true → after_cursor (Some (entry_key row)) r = false → r ∈ rows) ∧
  (∀ row, row ∈ rows → entry_value row = true ∧ ∃ i, audit_log (wd_db w) !! i = Some row).
Lemma page_facts_stable es rows : stable (page_facts es rows).
Proof.
  intros w w' (Hp & H1 & H2 & H3) Hr. split_and!; [by eapply progress_stable|done|done|]. intros row Hin. destruct (H3 row Hin) as (Hv & i & Hi).
  split; [done|]. exists i. by eapply lookup_weaken; [|apply er_log].
Qed.

Lemma page_read es w :
  progress es w →
  page_facts es (audit_page (wd_db w) tenant_id c (entry_key <$> last es) (audit_batch_size config)) w.
Proof.
  intros Hp. pose proof Hp as ((Hl & Hpo & Hv & _) & Hf & Hc & Hvals). split_and!; [done| | |].
  - intros Hn i row Hi Hs. eapply Hc; [done|done|]. eapply page_empty; [exact Hsize|exact Hn| |done]. by eapply lookup_weaken.
  - intros row Hlast i r Hi Hs Ha Hk. eapply page_reaches; try done. by eapply lookup_weaken.
  - intros row Hin. destruct (page_rows _ _ _ _ _ _ Hin) as (_ & _ & i & Hi). split; [|eauto]. by apply (Hv i row).
Qed.

(** The entries of a page extend what was read. *)
Lemma page_progress es rows entries row w :
  page_facts es rows w → last rows = Some row → traverse _audit_entry rows = Ok entries →
  progress (es ++ entries) w ∧ entry_key <$> last (es ++ entries) = Some (entry_key row).
Proof.
  intros ((Hst & Hf & Hc & Hv) & _ & Hpg & Hrows) Hl Ht. destruct (traverse_last _ _ _ Ht Hl) as (en & Hen & Hr).
  destruct (entry_same _ _ Hr) as (Hk & _ & _). assert (last (es ++ entries) = Some en) as Hlast by (by rewrite last_app, Hen).
  rewrite Hlast. cbn. rewrite Hk. split; [|done]. unfold progress. rewrite Hlast. cbn. rewrite Hk.
  apply traverse_Ok in Ht. split_and!; [done| | |].
  - apply Forall_app. split; [done|]. apply Forall_forall. intros e He. destruct (Forall2_elem_of_r _ _ _ _ Ht He) as (x & Hx & Hxe).
    destruct (Hrows x Hx) as (_ & i & Hi). eauto.
  - intros i r Hi Hs Ha. destruct (after_cursor (entry_key <$> last es) r) eqn:Hold.
    + pose proof (Hpg row Hl i r Hi Hs Hold Ha) as Hin. destruct (Forall2_elem_of_l _ _ _ _ Ht Hin) as (e & He & Hre).
      exists e. split; [done|]. apply elem_of_app. by right.
    + destruct (Hc i r Hi Hs Hold) as (e & He & Hin). exists e. split; [done|]. apply elem_of_app. by left.
  - apply Forall_app. split; [done|]. apply Forall_forall. intros e He. destruct (Forall2_elem_of_r _ _ _ _ Ht He) as (x & Hx & Hxe).
    destruct (entry_same _ _ Hxe) as (_ & -> & Hve). split; [done|]. by apply Hrows.
Qed.

Lemma pages_complete fuel aw es :
  written aw tenant_id export_id c mb mr es →
  returns (progress es) (iter_pages message pause fuel tenant_id c (audit_batch_size config)
      (λ aw batch, to_thread message pause (write_entries os_write aw batch)) (entry_key <$> last es) aw)
    (λ aw' w, ∃ es', written aw' tenant_id export_id c mb mr es' ∧ progress es' w ∧ complete es').
Proof.
  revert aw es. induction fuel as [|fuel IH]; intros aw es Hw; cbn [iter_pages]; [apply returns_raise|].
  eapply (returns_bind _ _ _ (page_facts es)).
  { apply returns_query; [apply progress_stable|apply page_facts_stable|]. intros w rows Hp E. injection E as <-. by apply page_read. }
  intros rows. destruct (last rows) as [row|] eqn:El.
  - eapply returns_bind; [apply returns_lift|]. intros entries. cbv beta.
    eapply (returns_bind _ _ _ (λ aw' w, (page_facts es rows w ∧ traverse _audit_entry rows = Ok entries) ∧ write_entries os_write aw entries = Ok aw')).
    { apply returns_thread. intros w w' [Hp E] Hr. split; [by eapply page_facts_stable|done]. }
    intros aw'. cbv beta. intros w a w' [[Hp Ht] Hwr] E. destruct (page_progress _ _ _ _ _ Hp El Ht) as [Hp' Hk].
    rewrite <- Hk in E. eapply IH; [by eapply entries_written|exact Hp'|exact E].
  - apply returns_ret. intros w (Hp & Hn & _). exists es. split_and!; [done|done|]. apply Hn. by apply last_None.
Qed.

(** *** Completion *)

(** A stored, verified export of what the start had *)
Definition exported (e : AuditExport) (w : World) : Prop :=
  ∃ content es, wd_objects w !! object_key = Some content ∧ export_file content e es ∧ complete es ∧ from_log es w ∧
    axp_cutoff_at e = c ∧ axp_tenant_id e = tenant_id ∧ axp_id e = export_id ∧
    ∃ row, audit_exports (wd_db w) !! export_id = Some row ∧ _audit_export row = Ok e.
Lemma exported_stable e : stable (exported e).
Proof.
  intros w w' (content & es & Ho & Hx & Hc & Hf & H1 & H2 & H3 & row & Hr & He) Hm. exists content, es. split_and!; try done.
  - by rewrite (er_object _ _ Hm).
  - by eapply from_log_stable.
  - exists row. by rewrite (er_export _ _ Hm).
Qed.

Definition uploaded (content : list N) (es : list AuditEntry) (w : World) : Prop :=
  progress es w ∧ wd_objects w !! object_key = Some content.
Lemma uploaded_stable content es : stable (uploaded content es).
Proof. intros w w' [Hp Ho] Hr. split; [by eapply progress_stable|]. by rewrite (er_object _ _ Hr). Qed.

Lemma upload_progress es content ty m :
  returns (progress es) (upload_from_path object_key content ty m)
    (λ o w, uploaded content es w ∧ so_sha256 o = sha256 content ∧ so_size_bytes o = Z.of_nat (length content)).
Proof.
  intros w o w' Hp E. destruct (upload_stores _ _ _ _ _ _ _ E) as (Ho & _ & Hs & Hz). split_and!; [|done|done]. split; [|done].
  pose proof (upload_keeps object_key content ty m w) as [Hd _]. rewrite E in Hd. cbn in Hd.
  unfold progress, started, from_log in *. by rewrite Hd.
Qed.

Hypothesis Hlimits : (mb ≤ MAX_AUDIT_EXPORT_BYTES)%Z ∧ (mr ≤ MAX_AUDIT_EXPORT_RECORDS)%Z.

Lemma write_export_returns who :
  returns started (write_export message pause clock os_write config tenant_id export_id who c) exported.
Proof.
  unfold write_export. eapply returns_bind; [apply returns_pause, started_stable|]. intros []. cbv beta.
  eapply returns_bind; [apply returns_thread, started_stable|]. intros aw0. cbv beta.
  eapply (returns_bind _ _ _ (λ aw w, ∃ es, written aw tenant_id export_id c mb mr es ∧ progress es w ∧ complete es)).
  { intros w a w' [Hs Hh] E. apply header_written in Hh. unfold iter_audit_entries in E. apply eff_bind_Ret in E as (u & w1 & E1 & E2).
    assert (started w1) as Hs1 by (by eapply (returns_lift _ started) in E1 as [? _]).
    eapply (pages_complete _ aw0 []); [done| |exact E2]. split_and!; [done|constructor| |constructor]. intros i row _ _ [=]. }
  intros aw1. cbv beta. intros w a w' (es & Hw & Hp & Hc) E. revert w a w' Hp E.
  change (returns (progress es) (aw2 ← to_thread message pause (finish os_write aw1);
    _ ← pause;
    o ← upload_from_path object_key (aw_file aw2) _AUDIT_EXPORT_CONTENT_TYPE mb;
    _ ← pause;
    now ← gets clock;
    completed ← lift message (validate_audit_export (mkAuditExport export_id tenant_id EXPORT_COMPLETED who c c
      (Some o) (Some (aw_record_count aw2)) (aw_first_occurred_at aw2) (aw_last_occurred_at aw2) (Some now) None));
    transaction message pause (λ _ p, complete_audit_export p completed)) exported).
  eapply returns_bind; [apply returns_thread, progress_stable|]. intros aw2. cbv beta.
  intros w a w' [Hp Hfin] E. revert w a w' Hp E.
  eapply returns_bind; [apply returns_pause, progress_stable|]. intros []. cbv beta.
  eapply returns_bind; [apply upload_progress|]. intros o. cbv beta. intros w a' w' [Hu [Hsh Hsz]] E. revert w a' w' Hu E.
  eapply returns_bind; [apply returns_pause, uploaded_stable|]. intros []. cbv beta.
  eapply returns_bind; [apply returns_gets|]. intros now. cbv beta.
  eapply returns_bind; [apply returns_lift|]. intros completed. cbv beta.
  intros w a' w' [Hu Hval] E. revert w a' w' Hu E. apply validated_export in Hval.
  apply returns_transaction; [apply uploaded_stable|apply exported_stable|].
  intros w e p' [((Hl & Hpo & Hv & Hex) & Hf & _ & Hvals) Ho] Hcomp.
  destruct (completed_row _ _ _ _ Hpo Hcomp) as (Hpo' & Hlog & Hse & Hst & row & Hrow & Hre).
  destruct Hval as (V1 & V2 & V3 & V4 & V5 & V6 & V7 & V8). destruct Hse as (S1 & S2 & S3 & S4 & S5 & S6 & S7 & S8).
  cbn [axp_id axp_tenant_id axp_status axp_cutoff_at axp_object axp_record_count axp_first_occurred_at axp_last_occurred_at] in V1, V2, V3, V4, V5, V6, V7, V8.
  rewrite V1 in Hrow, S1. rewrite V2 in S2. rewrite V4 in S4. destruct (finished_identity _ _ _ _ _ _ _ _ _ Hw Hfin) as (I1 & I2 & I3).
  exists (aw_file aw2), es. split_and!; try done.
  - eapply (finished_file os_write aw1); [exact Hw|apply Hlimits|apply Hlimits|exact Hvals|exact Hfin|].
    unfold records_file. rewrite S1, S2, S4, S6, S7, S8, S5, V5, V6, V7, V8, I1, I2, I3. split_and!; try done. by exists o.
  - unfold from_log. cbn [wd_db set_db]. by rewrite Hlog.
  - by exists row.
Qed.
End Reading.

Lemma fail_export_raises x w a w' : fail_export message pause tenant_id export_id x w ≠ (Ret a, w').
Proof.
  destruct x as [d| | |]; try done. cbn. intros (u & w1 & _ & E2)%eff_bind_Ret. done.
Qed.
Lemma returns_catch {A} (P : World → Prop) (m : eff World A) h Q :
  returns P m Q → (∀ e w a w', h e w ≠ (Ret a, w')) → returns P (catch m h) Q.
Proof.
  intros Hm Hh w a w' HP. unfold catch. destruct (m w) as [[b|e] w1] eqn:E; [|by intros Hr%Hh]. intros [= -> ->]. by eapply Hm.
Qed.

(** An export without an outcome yet *)
Definition open_export (o : option AuditExportRecord) : Prop := ∀ row, o = Some row → ex_status row = EXPORT_PENDING.

Lemma create_open p e r p' :
  platform_ok p → axp_id e = export_id → open_export (audit_exports p !! export_id) → create_audit_export p e = Ok (r, p') →
  axp_status r = EXPORT_PENDING ∧ platform_ok p' ∧ audit_log p' = audit_log p.
Proof.
  intros Hp He Ho Hc. unfold create_audit_export in Hc. run_inv Hc. bool_hyps. rewrite He in Hc.
  destruct (audit_exports p !! export_id) as [row|]; run_inv Hc.
  - apply export_row_status in Hrun1 as [-> _]. split_and!; [by apply Ho|done|done].
  - apply statement_Ok in Hrun0 as [-> Hok]. apply export_row_status in Hrun1 as [-> _]. done.
Qed.

Lemma returns_open (o : option AuditExportRecord) p0 :
  open_export o → stable (λ w, started p0 o w ∧ open_export (audit_exports (wd_db w) !! export_id)).
Proof. intros Ho w w' [Hs Hop] Hr. split; [by eapply started_stable|]. by rewrite (er_export _ _ Hr). Qed.

Hypothesis Hconfig : service_config_ok config = true.

Lemma config_limits :
  (1 ≤ audit_batch_size config)%Z ∧ (audit_max_bytes config ≤ MAX_AUDIT_EXPORT_BYTES)%Z ∧ (audit_max_records config ≤ MAX_AUDIT_EXPORT_RECORDS)%Z.
Proof. unfold service_config_ok in Hconfig. rewrite !andb_true_iff, !Z.leb_le in Hconfig. tauto. Qed.

Lemma export_returns p0 o who cutoff :
  open_export o → returns (started p0 o) (export message pause clock os_write config tenant_id export_id who cutoff)
    (λ e w, exported p0 (axp_cutoff_at e) e w).
Proof.
  intros Ho. destruct config_limits as (Hb & Hmb & Hmr). unfold export.
  eapply (returns_bind _ _ _ (λ x w, started p0 o w ∧ ∀ e, x = Some e → axp_status e = EXPORT_PENDING)).
  { apply returns_query; [apply started_stable| |].
    - intros x w w' [Hs Hx] Hr. split; [by eapply started_stable|done].
    - intros w x Hs Hg. split; [done|]. intros e ->. unfold get_audit_export in Hg. destruct Hs as (_ & _ & _ & Hs). rewrite Hs in Hg.
      destruct o as [row|]; [|done]. destruct (bool_decide _); [|done]. run_inv Hg. apply export_row_status in Hrun as [-> _]. by apply Ho. }
  intros existing.
  eapply (returns_bind _ _ _ (λ found w, started p0 o w ∧ ∃ c, found = inr c)).
  { destruct existing as [e|].
    - destruct (_ || _); [apply returns_raise|]. destruct (axp_status e) eqn:Es; [apply returns_ret; eauto| |apply returns_raise].
      + intros w [? ?]; eauto.
      + intros w a w' [_ Hx]. specialize (Hx e eq_refl). congruence.
    - destruct cutoff as [c|]; [apply returns_ret; intros w [? _]; eauto|]. eapply returns_bind; [apply returns_gets|]. intros now.
      apply returns_ret. intros w [? _]; eauto. }
  intros [e|c]; [intros w a w' [_ [? [=]]]|].
  eapply returns_bind; [apply returns_lift|]. intros pending. cbv beta.
  eapply (returns_bind _ _ _ (λ current w, axp_status current = EXPORT_PENDING ∧ ∃ o', started p0 o' w)).
  { intros w a w' [[Hs _] Hv] E. revert w a w' Hs E. apply validated_export in Hv as (Hid & _).
    apply returns_transaction; [apply started_stable| |].
    - intros r w w' [Hst [o' Hs]] Hr. split; [done|]. exists o'. by eapply started_stable.
    - intros w r p' (Hl & Hp & Hlv & Hx) Hc. destruct (create_open (wd_db w) pending r p' Hp Hid) as (Hst & Hp' & Hlog); [by rewrite Hx|done|].
      split; [done|]. eexists. unfold started, log_values in *. cbn [wd_db set_db]. rewrite Hlog. split_and!; done. }
  intros current w a w' [Hst [o' Hs]]. rewrite Hst. intros E.
  enough (exported p0 c a w') as Hx by (pose proof Hx as (? & ? & _ & _ & _ & _ & <- & _); done).
  revert w a w' Hs E. change (returns (started p0 o') (_ ← pause; catch (write_export message pause clock os_write config tenant_id export_id who c)
    (fail_export message pause tenant_id export_id)) (exported p0 c)).
  eapply returns_bind; [apply returns_pause, started_stable|]. intros ?. cbv beta.
  apply returns_catch; [|apply fail_export_raises]. by apply write_export_returns.
Qed.

(** C12: a new or resumed export that returns has completed: the object store has a file
    under the key of the export that verifies against the returned record; the file
    has an entry for every audit row of the tenant up to the cutoff that the log had
    when the export began, although others append to the log meanwhile, and every
    entry comes from a row of the log; the record is stored as completed. *)
Theorem audit_export_complete w who cutoff e w' :
  platform_ok (wd_db w) → log_values (wd_db w) → open_export (audit_exports (wd_db w) !! export_id) →
  export message pause clock os_write config tenant_id export_id who cutoff w = (Ret e, w') →
  ∃ content es, wd_objects w' !! object_key = Some content ∧ verify_audit_export_file false true content e = Ok tt ∧
    export_file content e es ∧
    (∀ i row, audit_log (wd_db w) !! i = Some row → in_scope tenant_id (axp_cutoff_at e) row = true →
      ∃ en, _audit_entry row = Ok en ∧ en ∈ es) ∧
    (∀ en, en ∈ es → ∃ i row, audit_log (wd_db w') !! i = Some row ∧ _audit_entry row = Ok en) ∧
    ∃ row, audit_exports (wd_db w') !! export_id = Some row ∧ ex_status row = EXPORT_COMPLETED ∧ _audit_export row = Ok e.
Proof.
  intros Hp Hv Ho E. destruct (export_returns (wd_db w) _ who cutoff Ho w e w') as (content & es & Hob & Hx & Hc & Hf & _ & _ & _ & row & Hr & He);
    [by split_and!|exact E|].
  exists content, es. split_and!; [done|by eapply verify_complete|done|exact Hc|by apply Forall_forall|].
  exists row. split_and!; [done| |done]. apply export_row_status in He as [<- _]. by destruct (xf_object _ _ _ Hx) as (? & ? & _).
Qed.

(** *** Enough fuel *)

Lemma bind_ext {A B} (m : eff World A) (f g : A → eff World B) w :
  (∀ a w', m w = (Ret a, w') → f a w' = g a w') → (m ≫= f) w = (m ≫= g) w.
Proof. intros Hf. unfold mbind, eff_bind. destruct (m w) as [[a|x] w1]; [by apply Hf|done]. Qed.

Lemma write_entries_count aw es aw' :
  write_entries os_write aw es = Ok aw' →
  aw_maximum_records aw' = aw_maximum_records aw ∧ aw_record_count aw' = (aw_record_count aw + Z.of_nat (length es))%Z ∧
  (es ≠ [] → (aw_record_count aw' ≤ aw_maximum_records aw)%Z).
Proof.
  revert aw. induction es as [|en es IH]; intros aw Hw; cbn in Hw; [injection Hw as <-; split_and!; [done|cbn; lia|done]|].
  apply bind_Ok in Hw as (aw1 & H1 & Hw). destruct (IH _ Hw) as (Hm & Hc & Hle). unfold write_entry in H1. run_inv H1.
  apply write_json_Ok in Hrun2 as (_ & -> & _). cbn [aw_record_count aw_maximum_records with_line] in *. bool_hyps. cbn [length]. split_and!; [done|lia|]. intros _.
  destruct es as [|en' es]; [cbn in *; lia|]. by apply Hle.
Qed.

(** More fuel than records to come changes nothing: the pages of an export end, by an
    empty page or by the limit of the writer. *)
Lemma pages_fuel fuel k c n aw cursor w :
  (0 ≤ aw_maximum_records aw - aw_record_count aw < Z.of_nat fuel)%Z →
  iter_pages message pause (fuel + k) tenant_id c n (λ aw batch, to_thread message pause (write_entries os_write aw batch)) cursor aw w =
  iter_pages message pause fuel tenant_id c n (λ aw batch, to_thread message pause (write_entries os_write aw batch)) cursor aw w.
Proof.
  revert aw cursor w. induction fuel as [|fuel IH]; intros aw cursor w Hf; [lia|]. cbn [Nat.add iter_pages].
  apply bind_ext. intros rows w1 _. destruct (last rows) as [row|] eqn:El; [|done].
  apply bind_ext. intros entries w2 Ht. assert (traverse _audit_entry rows = Ok entries) as Ht'.
  { unfold lift in Ht. destruct (traverse _ _); [|done]. by injection Ht as -> _. }
  apply bind_ext. intros aw' w3 Hw. unfold to_thread in Hw. apply eff_bind_Ret in Hw as (? & w4 & _ & Hw). apply eff_bind_Ret in Hw as (aw2 & w5 & Hw & Hr).
  apply eff_bind_Ret in Hr as (? & w6 & _ & [= -> _]). unfold lift in Hw. destruct (write_entries os_write aw entries) as [aw3|] eqn:Ew; [|done].
  injection Hw as -> _. destruct (write_entries_count _ _ _ Ew) as (Hm & Hc & Hle). apply IH.
  assert (entries ≠ []) as Hne. { intros ->. apply traverse_Ok in Ht'. apply Forall2_nil_inv_r in Ht' as ->. done. }
  specialize (Hle Hne). assert (length entries ≠ 0) by (by destruct entries). rewrite Hm. lia.
Qed.

Lemma export_fuel_enough k c aw :
  aw_record_count aw = 0%Z → aw_maximum_records aw = audit_max_records config →
  ∀ w, iter_audit_entries message pause (export_fuel config + k) tenant_id c (audit_batch_size config)
      (λ aw batch, to_thread message pause (write_entries os_write aw batch)) aw w =
    iter_audit_entries message pause (export_fuel config) tenant_id c (audit_batch_size config)
      (λ aw batch, to_thread message pause (write_entries os_write aw batch)) aw w.
Proof.
  intros Hc Hm w. unfold iter_audit_entries. apply bind_ext. intros ? w1 _. apply pages_fuel. rewrite Hc, Hm. unfold export_fuel.
  unfold service_config_ok in Hconfig. rewrite !andb_true_iff, !Z.leb_le in Hconfig. lia.
Qed.
End Exports.

(** ** Requests *)

Section Requests.
Context `{WI : Wire} `{OS : ObjectStore} `{!ObjectStoreLaws}.
Variable message : string → pystr.
Variable pause : eff World unit.
Variable clock : World → timestamp.
Variable os_write : list N → list N → result Z.
Variable uuid5 : pystr → uuid.
Variable config : LifecycleServiceConfig.

(** A download that verifies *)
Lemma verify_returns e : returns (λ _, True) (verify message pause config e) (λ _ _, ∃ content es, export_file content e es).
Proof.
  unfold verify. destruct (axp_status e); try apply returns_raise. destruct (axp_object e) as [o|]; [|apply returns_raise].
  intros w u w' _ E. apply eff_bind_Ret in E as (? & w1 & _ & E). apply eff_bind_Ret in E as (content & w2 & _ & E).
  unfold to_thread in E. apply eff_bind_Ret in E as (? & w3 & _ & E). apply eff_bind_Ret in E as ([] & w4 & E & _).
  exists content. apply verify_sound. unfold lift in E. destruct (verify_audit_export_file _ _ _ _) as [[]|]; [done|done].
Qed.

Lemma requested_row p t q who at_ after x l p' :
  request_tenant_deletion uuid5 uuid_text isoformat p t q who at_ after x = Ok (l, p') →
  tl_status l ≠ TENANT_ACTIVE ∧ tl_request_id l = Some q ∧ tl_audit_export_id l = Some x.
Proof.
  assert (request_new uuid5 uuid_text isoformat p t q who at_ after x = Ok (l, p') →
    tl_status l ≠ TENANT_ACTIVE ∧ tl_request_id l = Some q ∧ tl_audit_export_id l = Some x) as Hnew.
  { unfold request_new. intros Hr. run_inv Hr. unfold _tenant_lifecycle, validate_tenant_lifecycle in Hrun5. run_inv Hrun5. done. }
  unfold request_tenant_deletion. intros Hr. run_inv Hr. destruct (tenant_lifecycles p !! t) as [row|]; [|by apply Hnew].
  case_bool_decide as Hs; [by apply Hnew|]. run_inv Hr. unfold same_request in Hrun1. bool_hyps. split_and!; try done.
  unfold _tenant_lifecycle, validate_tenant_lifecycle in Hrun0. by run_inv Hrun0.
Qed.

(** A deletion request that returns rests on evidence: the tenant is under deletion
    with this request and this export, and a file was downloaded and verified against
    the export. *)
Theorem requested_deletion_verified w t q x who l e w' :
  request message pause clock os_write uuid5 config t q x who w = (Ret (l, e), w') →
  tl_status l ≠ TENANT_ACTIVE ∧ tl_request_id l = Some q ∧ tl_audit_export_id l = Some x ∧ ∃ content es, export_file content e es.
Proof.
  assert (∀ w, request_fresh message pause clock os_write uuid5 config t q x who w = (Ret (l, e), w') →
    tl_status l ≠ TENANT_ACTIVE ∧ tl_request_id l = Some q ∧ tl_audit_export_id l = Some x ∧ ∃ content es, export_file content e es) as Hfresh.
  { intros w0 E. unfold request_fresh in E. apply eff_bind_Ret in E as (e' & w1 & _ & E). apply eff_bind_Ret in E as (u & w2 & Hv & E).
    apply eff_bind_Ret in E as (l' & w3 & Ht & [= -> -> _]). apply verify_returns in Hv; [|done].
    unfold transaction in Ht. apply eff_bind_Ret in Ht as (? & w4 & _ & Ht). apply eff_bind_Ret in Ht as (l2 & w5 & Ht & Hl).
    apply eff_bind_Ret in Hl as (? & w6 & _ & [= -> _]). unfold commit_ in Ht.
    destruct (request_tenant_deletion _ _ _ _ _ _ _ _ _ _) as [[l3 p']|] eqn:Er; [|done]. injection Ht as -> _.
    apply requested_row in Er as (? & ? & ?). done. }
  intros E. unfold request in E. apply eff_bind_Ret in E as (existing & w1 & _ & E). destruct existing as [row|]; [|by eapply Hfresh].
  case_bool_decide as Hs; [by eapply Hfresh|]. destruct (negb _ || negb _ || negb _) eqn:Hb; [done|]. bool_hyps.
  apply eff_bind_Ret in E as (found & w2 & _ & E). destruct found as [e'|]; [|done].
  apply eff_bind_Ret in E as (u & w3 & Hv & [= -> -> _]). apply verify_returns in Hv; [|done]. done.
Qed.
End Requests.
