(* ===== verification/Scenario.v ===== *)
(** * A concrete history

    One session, one run and one worker taken through the whole life of a run;
    every theorem with hypotheses is applied to a state of this history. *)

From stdpp Require Import base list sets gmap strings sorting.
From Stdlib Require Import ZArith Lia.
From S2P Require Import Prelude PyBase Domain Tables Contracts RunQueue WorkspaceLeases RunRepository Approvals QueueInvariant QueueOperations ControlOperations QueueSafety QueueProgress QueueRecovery ControlProperties.

(** ** States *)

Definition state_of {A} (r : result (A * Db)) (d : Db) : Db :=
  match r with Ok (_, d') => d' | Err _ => d end.

Definition w1 : pystr := py "worker-1".
Definition cfg1 : QueueConfig := mkQueueConfig default_tenant_quota default_admission_policy.
Definition digest64 : pystr := replicate 64 97%N.
Definition digest1 : json → pystr := λ _, digest64.
Definition session1 : SessionRecord := mkSessionRecord 10 1 20 REQUIRE_SENSITIVE (py "default") true 1.
Definition run1 : Run :=
  mkRun 100 10 20 QUEUED 0 INTERACTIVE 1 1 None None None false None None 1000 None None.
Definition submission1 : RunSubmission := mkRunSubmission run1 (py "fix the tests") [] [].

Definition s_empty : Db :=
  mkDb {[10%N := session1]} ∅ ∅ ∅ ∅ ∅ ∅ ∅ ∅ ∅ ∅ ∅ ∅ ∅ None.
Definition hash1 : pystr := digest64.

Definition s_created : Db :=
  state_of (_create cfg1 digest1 s_empty 1 run1 (py "key-1") hash1 (Some submission1) 900 901) s_empty.

Definition registration1 : WorkerRegistration :=
  mkWorkerRegistration w1 [py "gvisor"] 2 2 ACTIVE 500 500.
Definition s_registered : Db := state_of (register_worker s_created registration1) s_created.

Definition claim1 : result (option RunLease * Db) :=
  claim cfg1 no_locks s_registered w1 (utc 2000) (seconds 60) 7 8.
Definition s_claimed : Db := state_of claim1 s_registered.
Definition lease0 : RunLease :=
  mkRunLease 1 100 10 20 w1 (py "default") 7 1 1 1 0 INTERACTIVE (Some 1000%Z) 2000
    (2000 + seconds 60) None false None None.
Definition s_running : Db := state_of (start s_claimed lease0 (utc 3000)) s_claimed.

Definition result_completed : RunExecutionResult := mkRunExecutionResult COMPLETED None None None.
Definition result_retry : RunExecutionResult :=
  mkRunExecutionResult RETRY_PENDING None None (Some (seconds 5)).
Definition result_waiting : RunExecutionResult :=
  mkRunExecutionResult WAITING_APPROVAL None None None.

Definition s_finished : Db := state_of (finish s_running lease0 result_completed (utc 4000)) s_running.
Definition s_retrying : Db := state_of (finish s_running lease0 result_retry (utc 4000)) s_running.

(** A tool call of the running execution waits for approval. *)
Definition s_tool : Db :=
  mkDb (sessions s_running) (runs s_running) (workers s_running) (run_leases s_running)
    (workspace_leases s_running) (tenant_quotas s_running) (checkpoints s_running)
    (messages s_running) (memory_jobs s_running) (compactions s_running) (task_plans s_running)
    {[(1%N, 100%N, 1%Z, py "call-1") := mkToolCallRecord 1 (py "bash") (JObject []) digest64 TOOL_WAITING_APPROVAL None None None None None]}
    (approvals s_running) (memories s_running) (queue_admission s_running).
Definition approval1 : PersistedApproval :=
  mkPersistedApproval 700 100 1 PENDING (py "writes outside") (JObject []) None 3500 None None.
Definition s_requested : Db :=
  state_of (create_approval_fenced 3600 s_tool lease0 approval1 (py "call-1")) s_tool.
Definition decision1 : ApprovalDecision := mkApprovalDecision true (py "alice") 4500 None.
Definition s_parked : Db := state_of (finish s_requested lease0 result_waiting (utc 4000)) s_requested.
Definition s_resumed : Db := state_of (ApprovalRepository.decide s_parked 1 100 700 decision1) s_parked.

(** The decision overtakes the worker. *)
Definition decision_early : ApprovalDecision := mkApprovalDecision true (py "alice") 3700 None.
Definition s_decided_early : Db :=
  state_of (ApprovalRepository.decide s_requested 1 100 700 decision_early) s_requested.
Definition s_stranded : Db :=
  state_of (finish s_decided_early lease0 result_waiting (utc 4000)) s_decided_early.

Definition row_stranded : RunRecord :=
  match runs s_stranded !! 100%N with
  | Some r => r
  | None => _run_values 1 run1 [] []
  end.

(** The finished run with a checkpoint of its first epoch. *)
Definition s_checkpointed : Db :=
  mkDb (sessions s_finished) (runs s_finished) (workers s_finished) (run_leases s_finished)
    (workspace_leases s_finished) (tenant_quotas s_finished)
    {[500%N := mkCheckpointRecord 500 1 100 10 1 (py "call-1") 3 [] (py "s3://snapshots/1") (py "r1") None None (JObject []) None 3200]}
    (messages s_finished) (memory_jobs s_finished) (compactions s_finished) (task_plans s_finished)
    (tool_calls s_finished) (approvals s_finished) (memories s_finished) (queue_admission s_finished).
Definition message_uuid1 (run : uuid) (epoch : Z) (m : uuid) : uuid :=
  (run * 1000000 + Z.to_N epoch * 10000 + m)%N.
Definition plan_uuid1 (c : uuid) (epoch : Z) : uuid := (c * 1000 + Z.to_N epoch)%N.

(** ** Facts about the states, by evaluation *)

Ltac by_run := vm_compute; reflexivity.

Lemma checked_inv d : queue_invb d = true → queue_inv d.
Proof. apply queue_invb_sound. Qed.

Lemma checked_ok d : db_okb d = true → db_ok d.
Proof. apply db_okb_iff. Qed.

Lemma checked_loadable d now :
  bool_decide (map_Forall (λ _ r, is_ok (_run_domain r) = true ∧
    (default (rr_created_at r) (rr_started_at r) ≤ now)%Z) (runs d)) = true → rows_loadable d now.
Proof. intros H%bool_decide_eq_true. exact H. Qed.

Lemma run1_wf : run_wf run1.
Proof. apply (validate_run_wf run1). by_run. Qed.

Definition cancelled1 : Run :=
  match transition_run run1 CANCELLED (utc 2000) None None with Ok r => r | Err _ => run1 end.

Lemma run1_cancels : transition_run run1 CANCELLED (utc 2000) None None = Ok cancelled1.
Proof. by_run. Qed.

Lemma history_created :
  _create cfg1 digest1 s_empty 1 run1 (py "key-1") hash1 (Some submission1) 900 901 =
  Ok (mkRunCreationResult run1 true, s_created).
Proof. by_run. Qed.

Lemma history_claimed : claim1 = Ok (Some lease0, s_claimed).
Proof. by_run. Qed.

(** C39: the decision on an approval can be lost.  From a consistent state in
    which a worker has recorded a pending approval for its run, the approval may
    be decided before the worker parks the run; the committed history then ends
    in a state where the run waits for approval, all its approvals are decided,
    and no decision on any approval ever resumes it. *)
Theorem approval_decided_early_strands_run :
  ∃ d d' row, queue_inv d ∧ star (queue_step cfg1) d d' ∧ queue_inv d' ∧
    runs d' !! 100%N = Some row ∧ rr_status row = WAITING_APPROVAL ∧
    pending_approvals d' 1 100 (rr_execution_epoch row) = 0 ∧
    (∀ k a, approvals d' !! k = Some a → ap_status a = APPROVED) ∧
    ∀ aid dec res woken d'', ApprovalRepository.decide d' 1 100 aid dec = Ok (res, woken, d'') →
      woken = false ∧ runs d'' = runs d'.
Proof.
  assert (queue_inv s_stranded) as Hinv by (apply checked_inv; by_run).
  assert (runs s_stranded !! 100%N = Some row_stranded) as Hrow by by_run.
  assert (pending_approvals s_stranded 1 100 (rr_execution_epoch row_stranded) = 0) as Hp by by_run.
  exists s_tool, s_stranded, row_stranded. split_and!; [| |done..|by_run|done| |].
  - apply checked_inv. by_run.
  - eapply (star_next _ _ s_requested).
    { eapply (step_create_approval _ 3600 s_tool lease0 approval1 (py "call-1") approval1). by_run. }
    eapply (star_next _ _ s_decided_early).
    { eapply (step_decide _ s_requested 1 100 700 decision_early
        (Some (mkPersistedApproval 700 100 1 APPROVED (py "writes outside") (JObject [])
           (Some (py "alice")) 3500 (Some 3700%Z) None)) false). by_run. }
    eapply (star_next _ _ s_stranded); [|apply star_refl].
    eapply (step_finish _ s_decided_early lease0 result_waiting (utc 4000)
      (match _run_domain row_stranded with Ok r => r | Err _ => run1 end)); by_run.
  - assert (bool_decide (map_Forall (λ _ a, ap_status a = APPROVED) (approvals s_stranded)) = true)
      as Hall%bool_decide_eq_true by by_run. exact Hall.
  - intros aid dec res woken d''. by apply no_pending_no_resume with row_stranded; [apply Hinv|..].
Qed.

(** ** The theorems at concrete states *)

Lemma transition_run_succeeds_iff_witness :
  is_ok (transition_run run1 LEASED (utc 2000) (Some w1) (Some (utc 3000))) = true.
Proof.
  apply (transition_run_succeeds_iff run1 LEASED (utc 2000) (Some w1) (Some (utc 3000)) run1_wf).
  split; [by left|]. exists 2000%Z. split; [reflexivity|]. split; [by vm_compute|].
  intros _. exists w1, (utc 3000), 3000%Z. split_and!; try reflexivity; vm_compute; lia.
Defined.

Lemma transition_run_effect_witness :
  ∃ t, normalize_timestamp (utc 2000) = Ok t ∧ transition_effect run1 cancelled1 CANCELLED t.
Proof. exact (transition_run_effect run1 CANCELLED (utc 2000) None None cancelled1 run1_wf run1_cancels). Defined.

Lemma cancelled1_wf : run_wf cancelled1.
Proof. apply (validate_run_wf cancelled1). by_run. Qed.

Lemma rewind_run_spec_witness :
  rewind_run cancelled1 500 =
  Ok (update_run cancelled1 QUEUED 2 2 None None (Some 500%N) false None None).
Proof. rewrite (rewind_run_spec cancelled1 500 cancelled1_wf). by_run. Defined.

Lemma run_history_progress_witness : run_wf cancelled1 ∧ run_progress run1 cancelled1.
Proof.
  apply (run_history_progress run1 cancelled1 run1_wf).
  eapply star_next; [exact (step_transition _ _ _ _ _ _ run1_cancels)|apply star_refl].
Defined.

Lemma terminal_run_absorbing_witness :
  transition_run cancelled1 QUEUED (utc 9000) None None = Err invalid_run_transition.
Proof. apply (terminal_run_absorbing cancelled1 QUEUED (utc 9000) None None). by_run. Defined.

Lemma queue_history_invariant_witness : queue_inv s_created.
Proof.
  apply (queue_history_invariant cfg1 s_empty s_created); [apply checked_inv; by_run|].
  eapply star_next; [|apply star_refl].
  exact (step_create _ digest1 _ _ run1 _ _ _ _ _ _ _ ltac:(set_solver) history_created).
Defined.

Lemma sandbox_single_writer_witness :
  ∃ r, runs s_running !! 100%N = Some r ∧ rr_status r = RUNNING ∧ rr_lease_generation r = 1%Z ∧
    ∀ k l, run_leases s_running !! k = Some l → rl_lease_token l = 7%N → k = 100%N.
Proof.
  refine (proj2 (sandbox_single_writer s_running 1 20 100 100 10 10 w1 w1 7 7 1 1
    (utc 3500) (utc 3600) 1 1 _ _ _)); [apply checked_inv|..]; by_run.
Defined.

Lemma stale_lease_fenced_witness :
  start s_finished lease0 (utc 5000) = Err run_lease_lost.
Proof.
  refine (proj1 (stale_lease_fenced cfg1 s_finished s_finished lease0 5000 (seconds 60) 9
    result_completed 5000 1 10 20 1 _ _ _ (star_refl _ _) _)).
  - apply checked_inv. by_run.
  - exists (match runs s_finished !! 100%N with
            | Some r => r | None => _run_values 1 run1 [] [] end). by split; [by_run|vm_compute].
  - by_run.
  - by vm_compute.
Defined.

Lemma claim_takes_best_run_witness :
  ∃ now row row', normalize_timestamp (utc 2000) = Ok now ∧ (0 < seconds 60 ≤ MAX_LEASE)%Z ∧
    eligible no_locks s_registered row ∧
    (tenant_active_runs s_registered (rr_tenant_id row) <
       effective_quota cfg1 s_registered (rr_tenant_id row))%Z ∧
    (∀ r, eligible no_locks s_registered r →
       claim_before (admission_policy cfg1) now r row = true →
       out_of_reach cfg1 no_locks s_registered r) ∧
    claim_effect cfg1 s_registered s_claimed w1 now (now + seconds 60) 7 8 row row' ∧
    lease_run_id lease0 = rr_id row ∧ lease_lease_token lease0 = 7%N ∧
    lease_generation lease0 = (rr_lease_generation row + 1)%Z ∧ queue_inv s_claimed.
Proof.
  apply (claim_takes_best_run cfg1 no_locks s_registered w1 (utc 2000) (seconds 60) 7 8 lease0
    s_claimed); [apply checked_inv; by_run|exact history_claimed].
Defined.

(** The worker of the running state: one of its two slots is free. *)
Definition worker_running : WorkerRecord := mkWorkerRecord w1 [py "gvisor"] 2 1 ACTIVE 500 500.

Lemma claim_empty_means_none_witness :
  claim cfg1 no_locks s_running w1 (utc 3500) (seconds 60) 17 18 = Ok (None, s_running) ∧
  ∀ r, eligible no_locks s_running r → out_of_reach cfg1 no_locks s_running r.
Proof.
  split; [by_run|].
  refine (proj2 (proj2 (proj2 (claim_empty_means_none cfg1 no_locks s_running w1 worker_running
    (utc 3500) (seconds 60) 17 18 s_running _ _ _ _ _ _)))).
  - apply checked_inv. by_run.
  - by_run.
  - reflexivity.
  - reflexivity.
  - apply Nat.leb_le. by_run.
  - by_run.
Defined.

Lemma finish_retires_lease_witness :
  lease_live s_running lease0 = true ∧ lease_live s_finished lease0 = false.
Proof.
  destruct (finish_retires_lease s_running lease0 result_completed (utc 4000)
    (match finish s_running lease0 result_completed (utc 4000) with
     | Ok (r, _) => r | Err _ => run1 end) s_finished) as (H1 & H2 & _);
    [apply checked_inv; by_run|by_run|by split].
Defined.

Lemma recover_expired_completes_witness :
  ∃ rs ws d', recover_expired no_locks s_running (utc (seconds 100)) 10 = Ok (rs, ws, d') ∧
    recovery_complete no_locks s_running d' (seconds 100).
Proof.
  destruct (recover_expired_completes no_locks s_running (seconds 100) 10)
    as (rs & ws & d' & H & _ & Hc).
  - apply checked_inv. by_run.
  - apply checked_ok. by_run.
  - apply checked_loadable. by_run.
  - split; apply Nat.leb_le; by_run.
  - exists rs, ws, d'. split; [exact H|]. apply Hc. apply Nat.leb_le. by_run.
Defined.

Lemma create_exactly_once_witness :
  _create cfg1 digest1 s_created 1 run1 (py "key-1") hash1 None 0 0 =
  Ok (mkRunCreationResult run1 false, s_created).
Proof.
  destruct (create_exactly_once cfg1 digest1 s_empty 1 run1 (py "key-1") hash1 (Some submission1)
    900 901 (mkRunCreationResult run1 true) s_created) as (_ & _ & H);
    [apply checked_inv; by_run|exact run1_wf|exact history_created|reflexivity|].
  exact (H run1 None 0%N 0%N hash1 eq_refl eq_refl).
Defined.

Lemma create_respects_limits_witness :
  (tenant_queued_runs s_created 1 ≤ 100)%Z ∧ (global_queued_runs s_created ≤ 10000)%Z.
Proof.
  apply (create_respects_limits cfg1 digest1 s_empty 1 run1 (py "key-1") hash1 (Some submission1)
    900 901 (mkRunCreationResult run1 true) s_created);
    [apply checked_inv; by_run|reflexivity|exact history_created|reflexivity].
Defined.

Definition rewound1 : Run :=
  update_run run1 QUEUED 2 2 None None (Some 500%N) false (Some 3000%Z) None.
Definition s_rewound : Db :=
  state_of (rewind message_uuid1 plan_uuid1 9000 s_checkpointed 1 100 500) s_checkpointed.

Lemma rewind_starts_branch_witness :
  ∃ row cp, runs s_checkpointed !! 100%N = Some row ∧
    run_checkpoint s_checkpointed 1 100 500 = Some cp ∧ branch_closed s_rewound row.
Proof.
  destruct (rewind_starts_branch message_uuid1 plan_uuid1 9000 s_checkpointed 1 100 500 rewound1
    s_rewound) as (row & row' & cp & Hr & Hcp & _ & _ & _ & _ & _ & _ & _ & _ & Hc);
    [apply checked_inv; by_run|by_run|]. exists row, cp. exact (conj Hr (conj Hcp Hc)).
Defined.

(** The approval row while the run is parked. *)
Definition approval_row1 : ApprovalRecord :=
  mkApprovalRecord 700 1 100 1 (Some (py "call-1")) PENDING (py "writes outside") (JObject []) None
    3500 None None.
Definition row_parked : RunRecord :=
  match runs s_parked !! 100%N with Some r => r | None => _run_values 1 run1 [] [] end.
Definition approved1 : PersistedApproval :=
  mkPersistedApproval 700 100 1 APPROVED (py "writes outside") (JObject [])
    (Some (py "alice")) 3500 (Some 4500%Z) None.

Lemma decide_resumes_with_last_witness :
  ApprovalRepository.decide s_resumed 1 100 700 decision1 = Ok (Some approved1, false, s_resumed).
Proof.
  refine (proj2 (proj2 (proj2 (decide_resumes_with_last s_parked 1 100 700 approval_row1 row_parked
    decision1 (Some approved1) true s_resumed _ _ _ _ _ _)))).
  - apply checked_inv. by_run.
  - apply checked_ok. by_run.
  - by_run.
  - reflexivity.
  - by_run.
  - by_run.
Defined.

Definition row_retrying : RunRecord :=
  match runs s_retrying !! 100%N with Some r => r | None => _run_values 1 run1 [] [] end.

Lemma cancel_retry_pending_rejected_witness :
  request_cancel s_retrying 1 100 (utc 5000) = Err integrity_error.
Proof.
  apply (cancel_retry_pending_rejected s_retrying 1 100 row_retrying 5000);
    [apply checked_ok; by_run|by_run|by_run|by_run|by_run|by vm_compute].
Defined.

Lemma aging_prevents_starvation_witness :
  claim_before default_admission_policy (seconds 700)
    (_run_values 1 (mkRun 1 10 20 QUEUED 0 EVALUATION 1 1 None None None false None None 0 None None)
       [] [])
    (_run_values 1 (mkRun 2 10 20 QUEUED 0 INTERACTIVE 1 1 None None None false None None
       (seconds 600) None None) [] []) = true.
Proof. by apply (aging_prevents_starvation default_admission_policy (seconds 700)). Defined.

Definition s_acquired : Db := state_of (acquire s_running lease0 (utc 3500) (seconds 30) 33) s_running.
Definition writer0 : WorkspaceWriterLease :=
  mkWorkspaceWriterLease 1 20 100 w1 7 8 1 2000 (3500 + seconds 30).

Lemma acquire_exclusive_witness :
  ∃ l, run_leases s_running !! 100%N = Some l ∧ lease_matches l lease0 = true ∧
    (3500 < rl_expires_at l)%Z.
Proof.
  destruct (acquire_exclusive s_running lease0 3500 (seconds 30) 33 (Some writer0) s_acquired)
    as (l & H1 & H2 & H3 & _); [apply checked_inv; by_run|by_run|].
  exists l. exact (conj H1 (conj H2 H3)).
Defined.
