(* ===== verification/ExecutionScenario.v ===== *)
(** * A concrete execution

    The running execution of the queue scenario journals messages, saves tool
    calls and checkpoints, recovers, updates its plan, and has its context
    compacted and its memories extracted; every theorem of these components with
    hypotheses is applied to a state of this history. *)

From stdpp Require Import base list sets gmap strings sorting.
From Stdlib Require Import ZArith Lia.
From S2P Require Import Prelude PyBase WorkspaceAccess Domain Tables Contracts RunQueue RunRepository Transcripts Execution Recovery MessageCodecs TaskPlans ContextStore MemoryJobs QueueInvariant TranscriptProperties ExecutionProperties RecoveryProperties TaskPlanProperties ContextProperties MemoryProperties Scenario.

(** ** The parameters *)

Definition encoded1 (m : GatewayMessage) : Z := 50 + Z.of_N (utf8_len (gm_content m)).
Definition transcript_id1 (run : uuid) (epoch index : Z) : uuid :=
  (run * 1000000 + Z.to_N epoch * 10000 + Z.to_N index)%N.
Definition jsonb1 (j : json) : Z := Z.of_N (json_size j).
Definition state_size1 (s : RunRecoveryState) : Z := Z.of_nat (length (rs_messages s)).
(** A digest by length: 64 hexadecimal digits. *)
Definition digest2 (j : json) : pystr := replicate 64 (48 + json_size j mod 10)%N.
Definition text_digest1 (s : pystr) : pystr := replicate 64 (48 + utf8_len s mod 10)%N.
Definition text_le1 (a b : pystr) : Prop := length a ≤ length b.
#[export] Instance text_le1_dec : RelDecision text_le1.
Proof. intros a b. unfold text_le1. apply _. Defined.
Definition ascii_lower (s : pystr) : pystr :=
  (λ c, if in_range 65 90 c then (c + 32)%N else c) <$> s.
Definition list_repr1 (l : list json) : pystr := py "[...]".

(** ** The transcript *)

Definition m_user : GatewayMessage := mkGatewayMessage USER (py "fix the tests") None [].
Definition call1 : GatewayToolCall := mkGatewayToolCall (py "call-1") (py "bash") (JObject []).
Definition m_assistant : GatewayMessage := mkGatewayMessage ASSISTANT [] None [call1].
Definition m_tool : GatewayMessage := mkGatewayMessage TOOL (py "2 passed") (Some (py "call-1")) [].

Definition chk1 : Checkpoint :=
  mkCheckpoint 500 100 10 1 (py "call-1") 1 [message_json m_user] (py "s3://snapshots/1") (py "r1")
    (JObject []) None 3200.
Definition cp1 : CheckpointRecord := checkpoint_row 1 chk1.

Definition s_journaled : Db :=
  state_of (append_transcript_fenced encoded1 transcript_id1 3500 s_running lease0 1
    [m_assistant; m_tool] 3500) s_running.

Lemma journaled : append_transcript_fenced encoded1 transcript_id1 3500 s_running lease0 1
  [m_assistant; m_tool] 3500 = Ok (tt, s_journaled).
Proof. by_run. Qed.

(** Bounds on computed numbers. *)
Ltac by_leb := apply Nat.leb_le; by_run.

Lemma append_extends_recovery_witness :
  recovery_messages encoded1 jsonb1 s_journaled lease0 (Some cp1) = Ok [m_user; m_assistant; m_tool].
Proof.
  apply (append_extends_recovery encoded1 transcript_id1 jsonb1 3500 s_running lease0 cp1 [m_user]
    [m_assistant; m_tool] 3500 s_journaled); [by_run|done|by_run|exact journaled| |by_leb|by_leb|].
  - intros m [->|[->|Hm]%elem_of_cons]%elem_of_cons; [by_run|by_run|by apply elem_of_nil in Hm].
  - apply Z.leb_le. by_run.
Defined.

Lemma append_replay_idempotent_witness :
  messages s_running ⊆ messages s_journaled ∧ s_journaled = set_messages s_running (messages s_journaled) ∧
  append_transcript_fenced encoded1 transcript_id1 9000 s_journaled lease0 1 [m_assistant; m_tool] 9000
  = Ok (tt, s_journaled).
Proof.
  eapply (append_replay_idempotent encoded1 transcript_id1 3500 9000 s_running lease0 1
    [m_assistant; m_tool] 3500 9000 s_journaled); [exact journaled|by_run].
Defined.

Lemma durable_message_roundtrip_witness :
  message_of_json (message_json m_assistant) = Ok m_assistant ∧
  _gateway_message (transcript_row transcript_id1 lease0 3500 m_assistant 2 7) = Ok m_assistant ∧
  (validate_gateway_message m_tool = Ok m_tool → message_json m_assistant = message_json m_tool →
   m_assistant = m_tool).
Proof. apply durable_message_roundtrip. by_run. Defined.

(** ** Tool calls and checkpoints *)

Definition tool_call1 (status : ToolCallStatus) (result_ : option json) (started completed : option timestamp)
    : ToolCall :=
  mkToolCall (py "call-1") 100 1 1 (py "bash") (JObject []) (digest2 (JObject [])) status None result_
    None started completed.
Definition call_received : ToolCall := tool_call1 TOOL_RECEIVED None None None.
Definition call_running : ToolCall := tool_call1 TOOL_RUNNING None (Some 3300%Z) None.
Definition call_completed : ToolCall :=
  tool_call1 TOOL_COMPLETED (Some (JObject [])) (Some 3300%Z) (Some 3400%Z).

Definition s_received : Db := state_of (save_tool_call digest2 s_running 1 call_received) s_running.
Definition s_executing : Db :=
  state_of (save_tool_call_fenced digest2 3300 s_received lease0 call_running) s_received.
Definition s_called : Db :=
  state_of (save_tool_call_fenced digest2 3400 s_executing lease0 call_completed) s_executing.

Lemma received : save_tool_call digest2 s_running 1 call_received = Ok (call_received, s_received).
Proof. by_run. Qed.

Lemma call_history : star (call_step digest2) s_received s_called.
Proof.
  eapply star_next.
  { eapply (step_save_fenced digest2 3300 s_received lease0 call_running call_running s_executing); by_run. }
  eapply star_next; [|apply star_refl].
  eapply (step_save_fenced digest2 3400 s_executing lease0 call_completed call_completed s_called); by_run.
Qed.

Definition call_key1 : uuid * uuid * Z * pystr := (1%N, 100%N, 1%Z, py "call-1").

Lemma tool_outcome_final_witness :
  ∃ row', tool_calls s_called !! call_key1 = Some row' ∧ tc_tool_name row' = py "bash".
Proof.
  destruct (tool_outcome_final digest2 s_received s_called call_key1 (tool_call_row call_received)
    call_history ltac:(by_run)) as (row' & Hrow & _ & Hname & _).
  exists row'. split; [exact Hrow|exact Hname].
Defined.

Lemma no_calls_valid : stored_calls_valid digest2 s_running.
Proof.
  intros k r Hk. assert (tool_calls s_running = ∅) as E by by_run.
  rewrite E, lookup_empty in Hk. discriminate Hk.
Qed.

Lemma tool_call_replay_safe_witness :
  ∃ s2 row, tool_calls s_called !! call_key1 = Some row ∧
    _tool_call_domain digest2 call_key1 row = Ok s2 ∧
    save_tool_call digest2 s_called 1 call_received = Ok (s2, s_called).
Proof.
  eapply (tool_call_replay_safe digest2 s_running 1 call_received call_received s_received s_called);
    [exact no_calls_valid|by_run|exact received|exact call_history].
Defined.

Definition s_checkpoint : Db := state_of (create_checkpoint_fenced 3500 s_journaled lease0 chk1) s_journaled.
Definition s_completed : Db :=
  state_of (complete_checkpoint_fenced 3600 s_checkpoint lease0 500 (py "s3://snapshots/2") (py "r2"))
    s_checkpoint.

Lemma checkpoint_written_once_witness :
  chk1 = chk1 ∧ create_checkpoint_fenced 3700 s_completed lease0 chk1 = Ok (chk1, s_completed) ∧
  complete_checkpoint_fenced 3700 s_completed lease0 500 (py "s3://snapshots/3") (py "r3") =
  Err (DomainOperationError "checkpoint_state_conflict" false).
Proof.
  eapply (checkpoint_written_once 3500 3600 3700 s_journaled lease0 chk1 chk1 s_checkpoint
    (py "s3://snapshots/2") (py "r2") s_completed _ (py "s3://snapshots/3") (py "r3")); by_run.
Defined.

(** ** Recovery *)

Definition s_recovering : Db :=
  state_of (save_tool_call digest2 s_completed 1 call_received) s_completed.
Definition state1 : RunRecoveryState :=
  match load digest2 encoded1 state_size1 jsonb1 text_le1 9000 s_recovering lease0 with
  | Ok s => s
  | Err _ => mkRecoveryState None None [] JNull None [] REQUIRE_ALL []
  end.

Lemma recovered : load digest2 encoded1 state_size1 jsonb1 text_le1 9000 s_recovering lease0 = Ok state1.
Proof. by_run. Qed.

Lemma recovering_valid : stored_calls_valid digest2 s_recovering.
Proof.
  intros k r Hk. exists call_received.
  assert (tool_calls s_recovering = {[call_key1 := tool_call_row call_received]}) as E by by_run.
  rewrite E in Hk. apply lookup_singleton_Some in Hk as [<- <-]. split; by_run.
Qed.

Lemma recovery_restores_branch_witness :
  py "call-1" ∈ pend_tool_call_id <$> rs_pending_tool_calls state1.
Proof.
  destruct (recovery_restores_branch digest2 encoded1 state_size1 jsonb1 text_le1 9000 s_recovering lease0
    state1 recovering_valid recovered) as (_ & _ & _ & _ & Hall).
  refine (proj2 (Hall _ (py "call-1") (tool_call_row call_received) _) _); [by_run|by_run|].
  apply list_elem_of_here.
Defined.

(** ** Task plans *)

Definition task_a : TrackedTask := mkTrackedTask (py "a") (py "write the test") TASK_COMPLETED [] [].
Definition task_b : TrackedTask := mkTrackedTask (py "b") (py "make it pass") TASK_IN_PROGRESS [] [py "a"].
Definition update1 : TaskPlanUpdate := mkTaskPlanUpdate 1 [task_a; task_b].
Definition state_b : PersistedTaskState := mkTaskState 910 100 1 2 [task_a; task_b] 3500.
Definition s_planned : Db := state_of (TaskRepository.update s_running 1 100 update1 910 3500) s_running.

Lemma plan_update_compare_and_set_witness :
  ts_version state_b = 2%Z ∧ TaskRepository.get list_repr1 s_planned 1 100 = Ok (Some state_b) ∧
  TaskRepository.update s_planned 1 100 (mkTaskPlanUpdate 1 []) 911 3600 =
  Err TaskRepository.task_plan_version_conflict.
Proof.
  apply (plan_update_compare_and_set list_repr1 s_running 1 100 update1 910 3500 state_b s_planned
    (mkTaskPlanUpdate 1 []) 911 3600); by_run.
Defined.

(** ** Compaction *)

Definition s_requested_compaction : Db :=
  state_of (ContextRepository.request_compaction s_running 1 10 800 (py "compact-1") (py "default") 3500)
    s_running.
Definition outcome1 : ContextRepository.Outcome :=
  ContextRepository.mkCompactionOutcome (Some (py "summary")) (Some 100%Z) (Some 10%Z) None.
Definition outcome2 : ContextRepository.Outcome :=
  ContextRepository.mkCompactionOutcome (Some (py "other")) (Some 100%Z) (Some 10%Z) None.
Definition compacted : PersistedContextCompaction :=
  mkCompaction 800 10 1 COMPACTION_COMPLETED (py "compact-1") 1 (py "default") (Some (py "summary"))
    (Some 100%Z) (Some 10%Z) None 3500 (Some 3600%Z).
Definition s_compacted : Db :=
  state_of (ContextRepository._finish s_requested_compaction 1 800 outcome1 3600) s_requested_compaction.

Lemma compaction_outcome_final_witness :
  ContextRepository.same_outcome compacted outcome1 = true ∧
  ContextRepository._finish s_compacted 1 800 outcome2 3700 =
  Err (DomainOperationError "context_compaction_conflict" false).
Proof.
  eapply (compaction_outcome_final s_requested_compaction 1 800 outcome1 3600 compacted s_compacted
    s_compacted outcome2 3700); [by_run|apply star_refl].
Defined.

(** ** Memory extraction *)

Definition job_id1 (key : uuid * uuid * Z) : uuid := (key.1.2 * 100 + Z.to_N key.2)%N.
Definition no_job_locks (key : uuid * uuid * Z) : bool := false.
Definition claim_a : result (option MemoryExtractionJob * Db) :=
  MemoryRepository.claim_pending job_id1 no_job_locks s_finished (py "memory-1") 5000 1000 61.
Definition s_memory_a : Db := state_of claim_a s_finished.
Definition job_a : MemoryExtractionJob :=
  mkJob 10001 1 10 100 1 JOB_RUNNING 1 1 (Some (py "memory-1")) (Some 61%N) 1 (Some 6000%Z) None 4000
    (Some 5000%Z) None.
Definition claim_b : result (option MemoryExtractionJob * Db) :=
  MemoryRepository.claim_pending job_id1 no_job_locks s_memory_a (py "memory-2") 6500 1000 62.
Definition s_memory_b : Db := state_of claim_b s_memory_a.
Definition job_b : MemoryExtractionJob :=
  mkJob 10001 1 10 100 1 JOB_RUNNING 1 2 (Some (py "memory-2")) (Some 62%N) 2 (Some 7500%Z) None 4000
    (Some 6500%Z) None.

Lemma claimed_a : claim_a = Ok (Some job_a, s_memory_a).
Proof. by_run. Qed.

Lemma claimed_b : claim_b = Ok (Some job_b, s_memory_b).
Proof. by_run. Qed.

Lemma memory_lease_fenced_witness :
  is_ok (MemoryRepository.complete job_id1 s_memory_b job_a [] 6600) = false ∧
  is_ok (MemoryRepository.fail job_id1 s_memory_b job_a
    (mkErrorDetail (py "extraction_failed") (py "failed") false (JObject [])) 6600) = false.
Proof.
  eapply (memory_lease_fenced job_id1 no_job_locks s_finished (py "memory-1") 5000 1000 61 job_a s_memory_a
    s_memory_a no_job_locks (py "memory-2") 6500 1000 62 job_b s_memory_b s_memory_b);
    [exact claimed_a|apply star_refl|exact claimed_b|reflexivity|reflexivity|apply star_refl].
Defined.

Lemma memory_source_bounded_witness :
  (utf8_len (match MemoryRepository.source_for_job job_id1 s_memory_b job_b 8 (utc 6600) with
             | Ok s => s | Err _ => [] end) <= 8)%N.
Proof.
  destruct (MemoryRepository.source_for_job job_id1 s_memory_b job_b 8 (utc 6600)) as [s|] eqn:E.
  - exact (memory_source_bounded job_id1 s_memory_b job_b 8 (utc 6600) s E).
  - exfalso. revert E. vm_compute. discriminate.
Defined.

(** ** Paths *)

Lemma file_reference_confined_witness :
  validate_file_reference ascii_lower (py "src/app.py") = Ok (py "src/app.py") ∧
  is_absolute (py "src/app.py") = false ∧
  ∀ p, p ∈ parts (py "src/app.py") → p ≠ [] ∧ p ≠ py "." ∧ p ≠ py ".." ∧ (slash ∉ p) ∧
    ascii_lower p ≠ py ".git".
Proof. apply (file_reference_confined ascii_lower (py "./src//app.py") (py "src/app.py")). by_run. Defined.
