(* ===== verification/LifecycleScenario.v ===== *)
(** * A tenant is deleted

    A concrete database with two tenants, the complete deletion of the first one, a
    legal hold, and the theorems of the data lifecycle applied to these states. *)

From stdpp Require Import base list sets gmap strings sorting.
From Stdlib Require Import ZArith Lia.
From S2P Require Import Prelude PyBase Domain Tables Contracts RunQueue RunRepository Execution PyFormats MemoryJobs EventStore GatewayPolicies GatewayStores LifecycleTables DataLifecycle LifecycleProperties Scenario ExecutionScenario.
Import LifecycleRepository.

Definition platform_of {A} (r : result (A * PlatformDb)) (p : PlatformDb) : PlatformDb :=
  match r with Ok (_, p') => p' | Err _ => p end.

Definition uuid5_1 (s : pystr) : uuid := foldr (λ c n, (c + 131 * n)%N) 0%N s.

(** ** Two tenants *)

Definition session2 : SessionRecord := mkSessionRecord 11 2 21 REQUIRE_SENSITIVE (py "default") true 1.
Definition second_run (r : RunRecord) : RunRecord :=
  mkRunRecord 101 2 11 21 (rr_status r) (rr_priority_class r) (rr_priority r) (rr_attempt r) (rr_execution_epoch r)
    (rr_lease_generation r) (rr_assigned_worker_id r) (rr_lease_expires_at r) (rr_retry_ready_at r) (rr_last_checkpoint_id r)
    (rr_cancellation_requested r) (rr_traceparent r) (rr_tracestate r) (rr_idempotency_key r) (rr_creation_hash r)
    (rr_created_at r) (rr_started_at r) (rr_completed_at r).
Definition second_job : MemoryExtractionJobRecord :=
  mkMemoryJob 11 JOB_PENDING 1 1 None None 0 None None 4500 None None.
Definition control0 : Db :=
  mkDb (<[11%N := session2]> (sessions s_finished))
    (match runs s_finished !! 100%N with Some r => <[101%N := second_run r]> (runs s_finished) | None => runs s_finished end)
    (workers s_finished) (run_leases s_finished) (workspace_leases s_finished) (tenant_quotas s_finished)
    (checkpoints s_finished) (messages s_finished) (<[(2%N, 101%N, 1%Z) := second_job]> (memory_jobs s_finished))
    (compactions s_finished) (task_plans s_finished) (tool_calls s_finished) (approvals s_finished) (memories s_finished)
    (queue_admission s_finished).

Definition source_key : pystr := py "tenants/1/snapshots/600.tar.gz".
Definition log_key : pystr := py "tenants/1/logs/501.txt".
Definition artifact1 : ArtifactRecord :=
  mkArtifactRecord 500 1 20 None 1 SOURCE_SNAPSHOT source_key digest64 10 (py "application/gzip") None 500 None.
Definition artifact2 : ArtifactRecord :=
  mkArtifactRecord 501 1 20 (Some 100%N) 1 COMMAND_LOG log_key digest64 20 (py "text/plain") None 3500 (Some 9000%Z).
Definition artifact3 : ArtifactRecord :=
  mkArtifactRecord 502 2 21 (Some 101%N) 1 FINAL_PATCH (py "tenants/2/patches/502.diff") digest64 30 (py "text/plain") None 3500
    (Some 9000%Z).
Definition snapshot1 : SourceSnapshotRecord :=
  mkSourceSnapshotRecord 600 1 20 SN_READY source_key (Some digest64) (Some 10%Z) (Some 500%N) (Some digest64) (Some 1%Z)
    (Some 40%Z) None 400 500.
Definition data0 : TenantTables :=
  mkTenantTables control0 (mkEventTables ∅ ∅) {[800%N := mkModelCallRow 1 100 1 (py "call") (py "request")]} ∅
    {[(1%N, py "default") := DurableRates.mkRate 1000 3]} ∅
    {[20%N := mkWorkspaceRecord 20 1 WS_READY (py "repo") (Some 600%N) 1 300 500;
      21%N := mkWorkspaceRecord 21 2 WS_PENDING (py "other") None 0 300 300]}
    {[500%N := artifact1; 501%N := artifact2; 502%N := artifact3]} {[600%N := snapshot1]}
    {[700%N := mkValidationJob 700 1 20 600 VJ_COMPLETED 0 1 None None 1 None 400 (Some 450%Z) (Some 500%Z)]}.
Definition p_start : PlatformDb := mkPlatformDb data0 ∅ ∅ ∅ ∅ ∅.

(** ** The deletion of the first tenant *)

Definition cutoff1 : timestamp := 10000.
Definition pending_export : AuditExport :=
  mkAuditExport 300 1 EXPORT_PENDING (py "admin") cutoff1 cutoff1 None None None None None None.
Definition completed_export : AuditExport :=
  mkAuditExport 300 1 EXPORT_COMPLETED (py "admin") cutoff1 cutoff1
    (Some (mkStoredObject (py "compliance/tenants/1/audit/300.jsonl") digest64 200 (py "application/x-ndjson") None))
    (Some 0%Z) None None (Some 10500%Z) None.
Definition p_export : PlatformDb := platform_of (create_audit_export p_start pending_export) p_start.
Definition p_evidence : PlatformDb := platform_of (complete_audit_export p_export completed_export) p_export.
Definition request1 : result (TenantLifecycleRecord * PlatformDb) :=
  request_tenant_deletion uuid5_1 uuid_text isoformat p_evidence 1 900 (py "admin") cutoff1 (cutoff1 + 5000) 300.
Definition p_request : PlatformDb := platform_of request1 p_evidence.
Definition p_deleting : PlatformDb := platform_of (begin_tenant_deletion p_request 1 16000) p_request.
Definition p_queued : PlatformDb := platform_of (enqueue_tenant_objects uuid5_1 p_deleting 1 100 17000) p_deleting.
Definition no_locked : gset uuid := ∅.
Definition token1 (job : uuid) : uuid := (job * 10 + 1)%N.
Definition claim_deletions1 : result (list ObjectDeletionLease * PlatformDb) :=
  claim_object_deletions p_queued w1 18000 60 100 no_locked token1.
Definition p_claimed : PlatformDb := platform_of claim_deletions1 p_queued.
Definition leases1 : list ObjectDeletionLease := match claim_deletions1 with Ok (ls, _) => ls | Err _ => [] end.
Definition complete_all (p : PlatformDb) (ls : list ObjectDeletionLease) : PlatformDb :=
  foldl (λ p l, platform_of (complete_object_deletion p l 20000) p) p ls.
Definition p_objects_gone : PlatformDb := complete_all p_claimed leases1.
Definition finalize1 : result (TenantLifecycleRecord * PlatformDb) := finalize_tenant_deletion p_objects_gone 1 30000.
Definition p_deleted : PlatformDb := platform_of finalize1 p_objects_gone.

(** A hold that has run out when the objects are claimed *)
Definition hold1 : LegalHoldRecord := mkLegalHold 400 1 (py "litigation") (py "counsel") 17200 (Some 17500%Z) None None.
Definition p_held : PlatformDb := platform_of (place_legal_hold p_queued hold1) p_queued.
Definition claim_held : result (list ObjectDeletionLease * PlatformDb) := claim_object_deletions p_held w1 18000 60 100 no_locked token1.
Definition p_held_claimed : PlatformDb := platform_of claim_held p_held.
Definition padded : pystr := py " worker-1".
Definition claim_padded : result (list ObjectDeletionLease * PlatformDb) :=
  claim_object_deletions p_queued padded 18000 60 1 no_locked token1.
Definition p_padded : PlatformDb := platform_of claim_padded p_queued.

(** ** Facts by evaluation *)

Abbreviation step1 := (lifecycle_step uuid5_1 uuid_text isoformat).

Lemma ran {A} (r : result (A * PlatformDb)) p : is_ok r = true → ∃ a, r = Ok (a, platform_of r p).
Proof. destruct r as [[a p']|]; [|done]. by exists a. Qed.

(** One more step of a history *)
Lemma then_step p p1 p2 : star step1 p p1 → step1 p1 p2 → star step1 p p2.
Proof. intros H1 H2. eapply star_trans; [exact H1|]. eapply star_next; [exact H2|apply star_refl]. Qed.

Lemma start_ok : lifecycle_start p_start.
Proof. split; [apply platform_okb_iff; by_run|]. done. Qed.

Lemma evidence_reached : star step1 p_start p_evidence.
Proof.
  destruct (ran (create_audit_export p_start pending_export) p_start ltac:(by_run)) as [x Hx].
  destruct (ran (complete_audit_export p_export completed_export) p_export ltac:(by_run)) as [y Hy].
  eapply then_step; [eapply then_step; [apply star_refl|]|].
  - eapply step_create_export. exact Hx.
  - eapply step_complete_export. exact Hy.
Qed.
Lemma request_reached : star step1 p_start p_request.
Proof.
  destruct (ran request1 p_evidence ltac:(by_run)) as [x Hx]. eapply then_step; [apply evidence_reached|].
  eapply step_request. exact Hx.
Qed.
Lemma queued_after_request : star step1 p_request p_queued.
Proof.
  destruct (ran (begin_tenant_deletion p_request 1 16000) p_request ltac:(by_run)) as [x Hx].
  destruct (ran (enqueue_tenant_objects uuid5_1 p_deleting 1 100 17000) p_deleting ltac:(by_run)) as [y Hy].
  eapply then_step; [eapply then_step; [apply star_refl|]|].
  - eapply step_begin. exact Hx.
  - eapply step_enqueue. exact Hy.
Qed.
Lemma queued_reached : star step1 p_start p_queued.
Proof. eapply star_trans; [apply request_reached|apply queued_after_request]. Qed.
Lemma claimed_step : step1 p_queued p_claimed.
Proof. destruct (ran claim_deletions1 p_queued ltac:(by_run)) as [x Hx]. eapply step_claim_deletions. exact Hx. Qed.

Definition complete_ok (p : PlatformDb) (l : ObjectDeletionLease) : bool := is_ok (complete_object_deletion p l 20000).
Fixpoint all_complete (p : PlatformDb) (ls : list ObjectDeletionLease) : bool :=
  match ls with [] => true | l :: ls => complete_ok p l && all_complete (platform_of (complete_object_deletion p l 20000) p) ls end.
Lemma complete_all_steps ls p : all_complete p ls = true → star step1 p (complete_all p ls).
Proof.
  revert p. induction ls as [|l ls IH]; intros p H; [apply star_refl|]. cbn in H. apply andb_prop in H as [H1 H2].
  eapply star_next; [|by apply IH]. destruct (ran _ p H1) as [x Hx]. eapply step_complete_deletion. exact Hx.
Qed.
Lemma objects_gone_steps : star step1 p_claimed p_objects_gone.
Proof. apply complete_all_steps. by_run. Qed.
Lemma finalize_ran : ∃ r, finalize_tenant_deletion p_objects_gone 1 30000 = Ok (r, p_deleted).
Proof. apply (ran finalize1). by_run. Qed.
Lemma deleted_step : step1 p_objects_gone p_deleted.
Proof. destruct finalize_ran as [r Hr]. eapply step_finalize. exact Hr. Qed.
Lemma claimed_reached : star step1 p_start p_claimed.
Proof. eapply then_step; [apply queued_reached|apply claimed_step]. Qed.
Lemma objects_gone_reached : star step1 p_start p_objects_gone.
Proof. eapply star_trans; [apply claimed_reached|apply objects_gone_steps]. Qed.
Lemma deleted_after_request : star step1 p_request p_deleted.
Proof.
  eapply star_trans; [apply queued_after_request|]. eapply star_next; [apply claimed_step|].
  eapply star_trans; [apply objects_gone_steps|]. eapply star_next; [apply deleted_step|apply star_refl].
Qed.

Definition row_at {V} (m : gmap uuid V) (k : uuid) (x : V) : V := default x (m !! k).
Lemma row_at_Some {V} (m : gmap uuid V) k x : is_some (m !! k) = true → m !! k = Some (row_at m k x).
Proof. unfold row_at. by destruct (m !! k). Qed.

(** ** Witnesses *)

Definition log_job_id : uuid := uuid5_1 (py "agent-object-deletion:" ++ log_key).
Definition no_job : ObjectDeletionJobRecord :=
  mkDeletionJob 0 0 None [] RETENTION_EXPIRED DEL_PENDING None None None 0 0 None None 0 0 None.
Definition held_job : ObjectDeletionJobRecord := row_at (deletion_jobs p_held_claimed) log_job_id no_job.

Lemma held_claimed_reached : star step1 p_start p_held_claimed.
Proof.
  destruct (ran (place_legal_hold p_queued hold1) p_queued ltac:(by_run)) as [x Hx].
  destruct (ran claim_held p_held ltac:(by_run)) as [y Hy].
  eapply then_step; [eapply then_step; [apply queued_reached|]|].
  - eapply step_place. exact Hx.
  - eapply step_claim_deletions. exact Hy.
Qed.

Lemma hold_stops_deletion_witness : ∃ e, lh_expires_at hold1 = Some e ∧ (e ≤ dj_updated_at held_job)%Z.
Proof.
  apply (hold_stops_deletion uuid5_1 uuid_text isoformat p_start p_held_claimed 400 hold1 log_job_id held_job start_ok
    held_claimed_reached); [by_run|reflexivity|apply row_at_Some; by_run|by_run|by_run].
Defined.

Definition no_tenant : TenantLifecycleRecord := mkTenantLifecycle 0 TENANT_ACTIVE None None None None None None None 0.
Definition requested1 : TenantLifecycleRecord := row_at (tenant_lifecycles p_request) 1 no_tenant.

Lemma deletion_moves_forward_witness :
  ∃ l', tenant_lifecycles p_deleted !! 1%N = Some l' ∧
    (status_rank (tl_status requested1) ≤ status_rank (tl_status l'))%Z ∧
    (tl_status requested1 ≠ TENANT_ACTIVE → same_request_columns requested1 l') ∧
    (tl_status l' ≠ TENANT_ACTIVE → has_evidence p_deleted l' ∧ runs_settled (data p_deleted) 1) ∧
    (tl_status l' = DELETED → tenant_erased (data p_deleted) 1).
Proof.
  apply (deletion_moves_forward uuid5_1 uuid_text isoformat p_start p_request p_deleted 1 requested1 start_ok request_reached
    deleted_after_request). apply row_at_Some. by_run.
Defined.

Definition finalized1 : TenantLifecycleRecord := match finalize1 with Ok (l, _) => l | Err _ => no_tenant end.
Lemma ran_value {A} (r : result (A * PlatformDb)) a p :
  is_ok r = true → r = Ok (match r with Ok (x, _) => x | Err _ => a end, platform_of r p).
Proof. by destruct r as [[]|]. Qed.
Lemma finalize1_ran : finalize1 = Ok (finalized1, p_deleted).
Proof. exact (ran_value finalize1 no_tenant p_objects_gone ltac:(by_run)). Qed.

(** The first tenant is gone, the second one keeps its artifact. *)
Lemma finalize_erases_tenant_witness :
  tenant_erased (data p_deleted) 1 ∧ has_row (data p_deleted) (ROW_artifact 502 artifact3).
Proof.
  destruct (finalize_erases_tenant uuid5_1 uuid_text isoformat p_start p_objects_gone 1 30000 finalized1 p_deleted p_deleted
    start_ok objects_gone_reached finalize1_ran (star_refl _ _)) as (He & Ho & _).
  split; [exact He|]. apply Ho; [discriminate|by_run].
Defined.

Definition lease_heldb (p : PlatformDb) (l : ObjectDeletionLease) : bool :=
  match deletion_jobs p !! dl_job_id l with
  | Some j => match _require_deletion_lease j l with Ok _ => true | Err _ => false end
  | None => false
  end.
Lemma lease_heldb_iff p l : lease_heldb p l = true ↔ lease_held p l.
Proof.
  unfold lease_heldb, lease_held. destruct (deletion_jobs p !! dl_job_id l) as [j|]; [|naive_solver].
  destruct (_require_deletion_lease j l) as [[]|] eqn:E; [naive_solver|]. split; [done|]. intros (j' & [= <-] & Hr). congruence.
Qed.
Definition no_lease : ObjectDeletionLease := mkDeletionLease 0 0 None [] RETENTION_EXPIRED [] 0 0 0 0.
Definition deletion_lease1 : ObjectDeletionLease := default no_lease (head leases1).

Lemma stale_deletion_lease_fenced_witness :
  ¬ lease_held p_deleted deletion_lease1 ∧
  (∀ now u p', complete_object_deletion p_deleted deletion_lease1 now = Ok (u, p') → p' = p_deleted) ∧
  (∀ e at_ now u p', fail_object_deletion p_deleted deletion_lease1 e at_ now = Ok (u, p') → p' = p_deleted).
Proof.
  apply (stale_deletion_lease_fenced uuid5_1 uuid_text isoformat p_start p_claimed p_objects_gone p_deleted deletion_lease1
    start_ok claimed_reached).
  - apply lease_heldb_iff. by_run.
  - apply objects_gone_steps.
  - rewrite <- lease_heldb_iff. intros H. vm_compute in H. discriminate H.
  - eapply star_next; [apply deleted_step|apply star_refl].
Defined.

Definition padded_lease : ObjectDeletionLease := match claim_padded with Ok (l :: _, _) => l | _ => no_lease end.
Lemma padded_claimed : claim_padded = Ok ([padded_lease], p_padded).
Proof.
  assert (match claim_padded with Ok ([_], _) => true | _ => false end = true) as H by by_run. unfold padded_lease, p_padded.
  by destruct claim_padded as [[[|l [|]] p']|].
Qed.
Lemma queued_ok : platform_ok p_queued.
Proof. apply platform_okb_iff. by_run. Qed.
Lemma padded_worker_loses_lease_witness :
  complete_object_deletion p_padded padded_lease 19000 = Err object_deletion_lease_lost.
Proof.
  refine (proj1 (padded_worker_loses_lease p_queued padded 18000 60 1 no_locked token1 [padded_lease] p_padded padded_lease 19000
    queued_ok padded_claimed _ _)); [|by left]. intros H. vm_compute in H. discriminate H.
Defined.

(** The second tenant's job waits behind the one of the tenant under deletion. *)
Definition job_key1 : uuid * uuid * Z := (1%N, 100%N, 1%Z).
Definition waiting_job : MemoryExtractionJobRecord := default second_job (memory_jobs (control (data p_request)) !! job_key1).
Definition memory_claim : result (option MemoryExtractionJob * Db) :=
  MemoryRepository.claim_pending job_id1 no_job_locks (control (data p_request)) (py "memory-1") 50000 1000 61.
Definition memory_claimed : Db := state_of memory_claim (control (data p_request)).
Definition memory_answer : option MemoryExtractionJob := match memory_claim with Ok (o, _) => o | Err _ => None end.
Lemma memory_claim_ran : memory_claim = Ok (memory_answer, memory_claimed).
Proof.
  assert (is_ok memory_claim = true) as H by by_run. unfold memory_answer, memory_claimed. by destruct memory_claim as [[]|].
Qed.
Definition other_jobs_later (d : Db) : bool :=
  bool_decide (map_Forall (λ k' r', k' ≠ job_key1 → MemoryRepository.job_before job_id1 (job_key1, waiting_job) (k', r') = true)
    (memory_jobs d)).

Lemma deletion_blocks_memory_queue_witness :
  ¬ agent_require_active_tenant_write p_request (set_control (data p_request) memory_claimed).
Proof.
  apply (deletion_blocks_memory_queue job_id1 p_request job_key1 waiting_job no_job_locks (py "memory-1") 50000 1000 61
    memory_answer memory_claimed); [by_run|by_run|by_run| |by_run|apply memory_claim_ran].
  assert (other_jobs_later (control (data p_request)) = true) as H by by_run. apply bool_decide_eq_true in H.
  intros k' r' Hk Hne _ _. by apply (H k' r' Hk).
Defined.
