(* ===== verification/AuditScenario.v ===== *)
(** * An export, and the last deletion batch

    A concrete wire format and object store for which the documented laws hold, an
    audit export while another task appends to the log, and the deletion of the
    objects of a tenant up to its finalization. *)

From stdpp Require Import base list sets gmap strings sorting pretty.
From Stdlib Require Import ZArith NArith Lia.
From S2P Require Import Prelude PyBase Domain Tables Contracts Execution Transcripts Recovery TaskPlans PyText JsonText PyFormats PyEffects LifecycleTables DataLifecycle AuditExports LifecycleService LifecycleProperties DeletionWorkerProperties AuditFileProperties AuditWriterProperties AuditServiceProperties Scenario LifecycleScenario.
Import LifecycleRepository.

(** ** A wire format *)

Definition number_of (base : N) (ds : list N) : N := foldl (λ n d, (n * base + d)%N) 0%N ds.
Lemma number_of_digits base k n : (base ≠ 0)%N → number_of base (low_digits base k n) = (n mod base ^ N.of_nat k)%N.
Proof.
  intros Hb. revert n. induction k as [|k IH]; intros n; [by rewrite N.mod_1_r|].
  unfold number_of in *. cbn [low_digits]. rewrite foldl_app, IH. cbn [foldl].
  rewrite Nat2N.inj_succ, N.pow_succ_r', N.Div0.mod_mul_r. lia.
Qed.

Definition digit_of_hex (c : N) : N := default 0%N (hex_value c).
Lemma digit_of_hex_char d : (d < 16)%N → digit_of_hex (hex_char d) = d.
Proof. apply (below_cases (λ d, digit_of_hex (hex_char d) = d) 16). by repeat constructor. Qed.

Definition not_dash (c : N) : bool := negb (c =? 45)%N.
Definition parse_uuid1 (s : pystr) : option uuid := Some (number_of 16 (digit_of_hex <$> List.filter not_dash s)).
Definition offset1 : Z := 62135596800000000.
Definition dump_datetime1 (t : timestamp) : pystr := fixed 18 (t + offset1).
Definition parse_datetime1 (j : json) : option datetime :=
  match j with
  | JString s => Some (utc (Z.of_N (number_of 10 ((λ c, (c - 48)%N) <$> s)) - offset1))
  | _ => None
  end.
Definition sha256_1 (bs : list N) : pystr := hex_char <$> low_digits 16 64 (foldl (λ n b, (n * 257 + b + 1)%N) 7%N bs).
#[export] Instance wire1 : Wire := {
  float_text := id;
  parse_uuid := parse_uuid1;
  dump_datetime := dump_datetime1;
  parse_datetime := parse_datetime1;
  entry_size e := utf8_len (_canonical_json (au_details e));
  sha256 := sha256_1;
}.

Lemma filter_none_out {A} (P : A → bool) l : forallb P l = true → List.filter P l = l.
Proof. induction l as [|x l IH]; [done|]. cbn. intros [-> H]%andb_prop. by rewrite IH. Qed.
Lemma forallb_take {A} (P : A → bool) k l : forallb P l = true → forallb P (take k l) = true.
Proof. revert k. induction l as [|x l IH]; intros [|k]; cbn; try done. intros [-> H]%andb_prop. cbn. by apply IH. Qed.
Lemma forallb_drop {A} (P : A → bool) k l : forallb P l = true → forallb P (drop k l) = true.
Proof. revert k. induction l as [|x l IH]; intros [|k]; cbn; try done. intros [_ H]%andb_prop. by apply IH. Qed.

Lemma hex_no_dash u : forallb not_dash (uuid_hex u) = true.
Proof.
  unfold uuid_hex. apply Is_true_true, forallb_True, Forall_fmap. eapply Forall_impl; [by apply low_digits_small|]. cbn. intros d Hd.
  apply Is_true_true. revert d Hd. apply (below_cases (λ d, not_dash (hex_char d) = true) 16). by repeat constructor.
Qed.

Lemma uuid_text_filter u : List.filter not_dash (uuid_text u) = uuid_hex u.
Proof.
  unfold uuid_text. pose proof (hex_no_dash u) as Hh. rewrite !List.filter_app. change (List.filter not_dash (py "-")) with ([] : pystr).
  rewrite !filter_none_out by (repeat first [done|apply forallb_take|apply forallb_drop]). reflexivity.
Qed.

#[export] Instance wire_laws1 : WireLaws.
Proof.
  split.
  - intros u Hu. cbn [parse_uuid wire1]. unfold parse_uuid1. f_equal. rewrite uuid_text_filter. unfold uuid_hex. rewrite <- list_fmap_compose.
    assert ((digit_of_hex ∘ hex_char) <$> low_digits 16 32 u = low_digits 16 32 u) as ->.
    { pose proof (low_digits_small 16 32 u ltac:(done)) as Hs. induction Hs as [|d l Hd _ IH]; [done|].
      cbn [fmap list_fmap]. f_equal; [by apply digit_of_hex_char|exact IH]. }
    rewrite number_of_digits by done. unfold uuid_ok in Hu. apply N.ltb_lt in Hu.
    assert (16 ^ N.of_nat 32 = 2 ^ 128)%N as -> by (vm_compute; reflexivity). apply N.mod_small. exact Hu.
  - intros t Ht. cbn [parse_datetime dump_datetime wire1]. unfold parse_datetime1, dump_datetime1, fixed. rewrite <- list_fmap_compose.
    assert (((λ c, (c - 48)%N) ∘ (λ d, (48 + d)%N)) <$> low_digits 10 18 (Z.to_N (t + offset1)) = low_digits 10 18 (Z.to_N (t + offset1))) as ->.
    { generalize (low_digits 10 18 (Z.to_N (t + offset1))). intros l. induction l as [|d l IH]; [done|].
      cbn [fmap list_fmap]. f_equal; [unfold compose; lia|exact IH]. }
    rewrite number_of_digits by done. unfold timestamp_ok in Ht. bool_hyps. unfold offset1. rewrite N.mod_small.
    + do 2 f_equal. lia.
    + change (10 ^ N.of_nat 18)%N with 1000000000000000000%N. lia.
  - intros t _. cbn [dump_datetime wire1]. unfold dump_datetime1. rewrite fixed_length. split; [apply plain_fixed|lia].
Qed.

(** ** An object store *)

Definition set_objects (w : World) (m : gmap pystr (list N)) : World := mkWorld (wd_db w) m (wd_tick w).
Definition store_error : exn := OtherExn.
#[export] Instance store1 : ObjectStore := {
  upload_from_path k c ty m w :=
    if (Z.of_nat (length c) <=? m)%Z then
      match wd_objects w !! k with
      | None => (Ret (mkStoredObject k (sha256 c) (Z.of_nat (length c)) ty None), set_objects w (<[k := c]> (wd_objects w)))
      | Some c' => if bool_decide (c' = c) then (Ret (mkStoredObject k (sha256 c) (Z.of_nat (length c)) ty None), w) else (Raise store_error, w)
      end
    else (Raise store_error, w);
  download_to_path k m h w :=
    match wd_objects w !! k with
    | Some c => if bool_decide (sha256 c = h) && (Z.of_nat (length c) <=? m)%Z then (Ret c, w) else (Raise store_error, w)
    | None => (Raise store_error, w)
    end;
  delete_object k w := (Ret tt, set_objects w (delete k (wd_objects w)));
}.

#[export] Instance store_laws1 : ObjectStoreLaws.
Proof.
  split; cbn [upload_from_path download_to_path delete_object store1].
  - intros k c ty m w o w'. destruct (_ <=? m)%Z; [|done]. destruct (wd_objects w !! k) as [c'|] eqn:E.
    + case_bool_decide; [|done]. intros [= <- <-]. by subst.
    + intros [= <- <-]. cbn [wd_objects set_objects]. by rewrite lookup_insert_eq.
  - intros k c ty m w. destruct (_ <=? m)%Z; [|done]. destruct (wd_objects w !! k) as [c'|]; [by case_bool_decide|].
    split; [done|]. intros k' Hk. cbn [snd wd_objects set_objects]. by rewrite lookup_insert_ne.
  - intros k m h w c w'. destruct (wd_objects w !! k) as [c'|]; [|done]. case_bool_decide; [|done]. cbn [andb].
    destruct (_ <=? m)%Z; [|done]. by intros [= <- <-].
  - intros k m h w. destruct (wd_objects w !! k) as [c'|]; [|done]. by destruct (_ && _).
  - intros k w w' [= <-]. cbn [wd_objects set_objects]. by rewrite lookup_delete_eq.
  - intros k w. split_and!; [done| |].
    + intros k' Hk. cbn [snd wd_objects set_objects]. by rewrite lookup_delete_ne.
    + intros _. cbn [snd wd_objects set_objects]. by rewrite lookup_delete_eq.
Qed.

(** ** An export while the log grows *)

Definition message1 (code : string) : pystr := py "the operation was refused".
Definition clock1 (w : World) : timestamp := 50000 + Z.of_nat (wd_tick w).
Definition config1 : LifecycleServiceConfig := mkServiceConfig 1 5 4000 10 60 100.
(** At most seven bytes a call *)
Definition os_write1 (file payload : list N) : result Z := Ok (Z.min 7 (Z.of_nat (length payload))).

Definition audit_row (id tenant : uuid) (subject : string) (at_ : timestamp) : AuditRecord :=
  mkAuditRecord id tenant (py subject) POST (py "/runs") (py "run.create") (py "req-1") (JObject [(py "n", JInt 7)]) at_.
Definition late_row : AuditRecord := audit_row 93 1 "carol" 9500.
Definition p_logged : PlatformDb :=
  set_audit_log p_start {[90%N := audit_row 90 1 "alice" 9000; 91%N := audit_row 91 1 " bob " 8000; 92%N := audit_row 92 2 "eve" 8500]}.
Definition w_logged : World := mkWorld p_logged ∅ 0.

(** Another task appends a row at the tenth await. *)
Definition pause1 : eff World unit := λ w,
  (Ret tt, mkWorld (if (wd_tick w =? 10)%nat
                    then match LifecycleRepository.add_audit (wd_db w) late_row with Ok p => p | Err _ => wd_db w end
                    else wd_db w) (wd_objects w) (S (wd_tick w))).

Lemma pause1_rely t x : keeps (export_rely t x) pause1.
Proof.
  intros w. cbn [snd pause1]. destruct (wd_tick w =? 10)%nat; [|by split].
  destruct (add_audit (wd_db w) late_row) as [p|] eqn:E; [|by split]. unfold add_audit in E. run_inv E.
  apply statement_Ok in E as [-> Hok]. apply is_none_None in Hrun. split; cbn [wd_db wd_objects].
  - cbn. by apply insert_subseteq.
  - intros _ Hv. split; [done|]. intros i row. cbn. intros [[<- <-]|[_ Hi]]%lookup_insert_Some; [|by apply Hv].
    split; [done|]. by vm_compute.
  - done.
  - done.
Qed.

Definition export_run : outcome AuditExport * World :=
  export message1 pause1 clock1 os_write1 config1 1 301 (py "admin") (Some 10000%Z) w_logged.
Definition no_export : AuditExport := mkAuditExport 0 0 EXPORT_PENDING [] 0 0 None None None None None None.
Definition value_of {A} (r : outcome A * World) (a : A) : A := match r.1 with Ret x => x | Raise _ => a end.
Definition returned {A} (r : outcome A * World) : bool := match r.1 with Ret _ => true | Raise _ => false end.
Lemma value_returned {A} (r : outcome A * World) a : returned r = true → r = (Ret (value_of r a), r.2).
Proof. by destruct r as [[] ?]. Qed.
Definition exported1 : AuditExport := value_of export_run no_export.
Definition w_exported : World := export_run.2.

Lemma export_ran :
  export message1 pause1 clock1 os_write1 config1 1 301 (py "admin") (Some 10000%Z) w_logged = (Ret exported1, w_exported).
Proof. change (export_run = (Ret exported1, w_exported)). exact (value_returned export_run no_export ltac:(by_run)). Qed.
(** The row appended meanwhile is exported as well. *)
Example three_records : axp_record_count exported1 = Some 3%Z.
Proof. by_run. Qed.

Lemma logged_ok : platform_ok (wd_db w_logged).
Proof. apply platform_okb_iff. by_run. Qed.
Lemma logged_values : log_values (wd_db w_logged).
Proof.
  intros i row Hi. cbn [wd_db w_logged] in Hi. unfold p_logged in Hi. cbn [audit_log set_audit_log] in Hi.
  repeat (apply lookup_insert_Some in Hi as [[<- <-]|[_ Hi]]; [split; [reflexivity|vm_compute; reflexivity]|]).
  apply lookup_singleton_Some in Hi as [<- <-]. split; [reflexivity|vm_compute; reflexivity].
Qed.
Lemma logged_open : open_export (audit_exports (wd_db w_logged) !! 301%N).
Proof. intros row Hr. discriminate Hr. Qed.

Lemma audit_export_complete_witness :
  ∃ content (es : list AuditRecord), wd_objects w_exported !! tenant_audit_export_object_key 1 301 = Some content ∧
    verify_audit_export_file false true content exported1 = Ok tt ∧
    ∃ en, _audit_entry (audit_row 91 1 " bob " 8000) = Ok en ∧ en ∈ es.
Proof.
  destruct (audit_export_complete message1 pause1 clock1 os_write1 config1 1 301 (pause1_rely 1 301) eq_refl w_logged (py "admin")
    (Some 10000%Z) exported1 w_exported logged_ok logged_values logged_open export_ran) as (content & es & Ho & Hv & _ & Hc & _).
  exists content, es. split; [exact Ho|]. split; [exact Hv|].
  refine (Hc 91%N (audit_row 91 1 " bob " 8000) _ _); vm_compute; reflexivity.
Defined.

(** ** Two batches of entries *)

Definition entry_a : AuditRecord := audit_row 91 1 "bob" 8000.
Definition entry_b : AuditRecord := audit_row 90 1 "alice" 9000.
Definition batches1 : list (list AuditRecord) := [[entry_a]; []; [entry_b]].
Definition result_or {A} (r : result A) (a : A) : A := match r with Ok x => x | Err _ => a end.
Lemma result_is {A} (r : result A) a : is_ok r = true → r = Ok (result_or r a).
Proof. by destruct r. Qed.
Definition writer0 : AuditWriter := new_writer 1 301 10000 4000 5.
Definition header_run : result AuditWriter := write_header os_write1 (new_writer 1 301 10000 4000 5).
Definition writer1 : AuditWriter := result_or header_run writer0.
Definition entries_run : result AuditWriter := foldM (write_entries os_write1) writer1 batches1.
Definition writer2 : AuditWriter := result_or entries_run writer0.
Definition finish_run : result AuditWriter := finish os_write1 writer2.
Definition writer3 : AuditWriter := result_or finish_run writer0.
Definition record1 : AuditExport :=
  mkAuditExport 301 1 EXPORT_COMPLETED (py "admin") 10000 10000
    (Some (mkStoredObject (py "k") (sha256 (aw_file writer3)) (Z.of_nat (length (aw_file writer3))) _AUDIT_EXPORT_CONTENT_TYPE None))
    (Some 2%Z) (Some 8000%Z) (Some 9000%Z) (Some 10001%Z) None.

Lemma batches_valid : Forall (λ en, validate_audit_entry en = Ok en ∧ entry_value en = true) (concat batches1).
Proof. repeat constructor; vm_compute; reflexivity. Qed.
Lemma record1_file : records_file record1 writer3.
Proof. unfold records_file. split_and!; try (vm_compute; reflexivity). by eexists. Qed.

Lemma writer1_ran : write_header os_write1 (new_writer 1 301 10000 4000 5) = Ok writer1.
Proof. change (header_run = Ok writer1). exact (result_is header_run writer0 ltac:(by_run)). Qed.
Lemma writer2_ran : foldM (write_entries os_write1) writer1 batches1 = Ok writer2.
Proof. change (entries_run = Ok writer2). exact (result_is entries_run writer0 ltac:(by_run)). Qed.
Lemma writer3_ran : finish os_write1 writer2 = Ok writer3.
Proof. change (finish_run = Ok writer3). exact (result_is finish_run writer0 ltac:(by_run)). Qed.
Lemma limits1 : (4000 ≤ MAX_AUDIT_EXPORT_BYTES)%Z ∧ (5 ≤ MAX_AUDIT_EXPORT_RECORDS)%Z.
Proof. by vm_compute. Qed.

Lemma written_export_verifies_witness :
  verify_audit_export_file false true (aw_file writer3) record1 = Ok tt ∧ export_file (aw_file writer3) record1 (concat batches1).
Proof.
  exact (written_export_verifies os_write1 1 301 10000 4000 5 batches1 writer1 writer2 writer3 record1 (proj1 limits1) (proj2 limits1)
    batches_valid writer1_ran writer2_ran writer3_ran record1_file).
Defined.

(** ** The last batch of deletions *)

Definition pause0 : eff World unit := mret tt.
Definition claim_clock (_ : World) : timestamp := 18000.
Definition later_clock (_ : World) : timestamp := 20000.
Definition locked1 (_ : World) : gset uuid := no_locked.
Definition tokens1 (_ : World) : uuid → uuid := token1.
Definition objects0 : gmap pystr (list N) :=
  {[source_key := [1%N]; log_key := [2%N]; py "tenants/2/patches/502.diff" := [3%N]]}.
Definition w_before : World := mkWorld p_start objects0 0.
Definition w_queued : World := mkWorld p_queued objects0 0.
Definition batch_run : outcome LifecycleBatchResult * World :=
  run_batch message1 pause0 claim_clock later_clock locked1 tokens1 config1 w1 w_queued.
Definition w_batch : World := batch_run.2.
Definition finalize_batch : result (TenantLifecycleRecord * PlatformDb) := finalize_tenant_deletion (wd_db w_batch) 1 30000.
Definition p_finalized : PlatformDb := platform_of finalize_batch (wd_db w_batch).
Definition finalized_row : TenantLifecycleRecord := match finalize_batch with Ok (l, _) => l | Err _ => no_tenant end.

Definition all_rows {V} (P : V → bool) (m : gmap uuid V) : bool := forallb (λ kv, P kv.2) (map_to_list m).
Lemma all_rows_lookup {V} (P : V → bool) (m : gmap uuid V) k v : all_rows P m = true → m !! k = Some v → P v = true.
Proof.
  unfold all_rows. rewrite forallb_forall. intros H Hk. apply (H (k, v)). apply list_elem_of_In. by apply elem_of_map_to_list.
Qed.

Definition not_completed (j : ObjectDeletionJobRecord) : bool := negb (bool_decide (dj_status j = DEL_COMPLETED)).
Definition owned1 (j : ObjectDeletionJobRecord) : bool := bool_decide (dj_tenant_id j = 1%N).

Lemma queued_move : world_move uuid5_1 w_before w_queued.
Proof.
  split; [exact queued_reached| |].
  - intros _ _ k j Hj Hs.
    pose proof (all_rows_lookup not_completed (deletion_jobs p_queued) k j ltac:(by_run) Hj) as Hn.
    apply negb_true_iff in Hn. apply bool_decide_eq_false in Hn. by destruct (Hn Hs).
  - intros _ key Hk. exfalso. apply key_queued_iff in Hk as (k & j & Hj & _). cbn [wd_db w_before] in Hj. discriminate Hj.
Qed.
Lemma batch_jobs_owned k j : deletion_jobs (wd_db w_batch) !! k = Some j → dj_tenant_id j = 1%N.
Proof.
  intros Hj. pose proof (all_rows_lookup owned1 (deletion_jobs (wd_db w_batch)) k j ltac:(by_run) Hj) as Hn.
  by apply bool_decide_eq_true in Hn.
Qed.

Lemma log_key_owned : tenant_key (data (wd_db w_batch)) 1 log_key.
Proof. left. exists 501%N, (row_at (artifacts (data (wd_db w_batch))) 501 artifact2). split; [apply row_at_Some; by_run|split; by_run]. Qed.

Lemma finalized_objects_gone_witness : wd_objects w_batch !! log_key = None.
Proof.
  exact (finalized_objects_gone uuid5_1 message1 pause0 (keeps_ret (world_move uuid5_1) tt) claim_clock later_clock locked1 tokens1 config1
    w_before w_queued w1 1 30000 finalized_row p_finalized (set_db w_batch p_finalized) log_key start_ok queued_move
    (ran_value finalize_batch no_tenant (wd_db w_batch) ltac:(by_run)) (reflexivity _) (λ k j Hj _, batch_jobs_owned k j Hj) log_key_owned).
Defined.
