(* ===== verification/GatewayScenario.v ===== *)
(** * Gateway policies on concrete calls

    Each gateway theorem applied to a short history of calls. *)

From stdpp Require Import base list sets gmap strings.
From Stdlib Require Import ZArith Lia.
From S2P Require Import Prelude PyBase Domain Tables Contracts RunQueue RunRepository GatewayPolicies GatewayStores GatewayProperties GatewayStoreProperties Scenario.


(** ** Capacity *)

Module CapacityRun.
Import CapacityStore Capacity.

(** Two requests per tenant, one per route, ten tokens a minute. *)
Definition config1 : Config := mkConfig 2 1 10 (seconds 60).
Definition route1 : pystr := py "route-1".

Definition grant1 : result GatewayCapacityClaim * State :=
  acquire config1 (utc 1000) 5 initial 1 route1 (py "req-1") 4 (seconds 30).
Definition refused1 : result GatewayCapacityClaim * State :=
  acquire config1 (utc 2000) 6 grant1.2 1 route1 (py "req-2") 4 (seconds 30).

Lemma history1 : star (capacity_step config1) initial grant1.2.
Proof.
  eapply star_next; [|apply star_refl].
  eapply (step_acquire _ (utc 1000) 5 initial 1 route1 (py "req-1") 4 (seconds 30) grant1.1);
    by_run.
Qed.

Lemma inv1 : capacity_inv config1 grant1.2.
Proof.
  eapply (star_invariant (capacity_step config1) (capacity_inv config1));
    [|apply history1|by apply initial_inv].
  intros s s' Hi Hs. by apply (capacity_step_inv config1 eq_refl s).
Qed.

Lemma capacity_limits_hold_witness :
  (Z.of_nat (length (tenant_leases grant1.2 1)) ≤ 2)%Z ∧ length (tenant_leases grant1.2 1) = 1.
Proof.
  split; [|by_run].
  exact (proj1 (capacity_limits_hold config1 eq_refl grant1.2 history1) 1%N).
Defined.

(** The second request finds the route busy until the first lease expires. *)
Lemma acquire_all_or_nothing_witness :
  refused1.1 = Ok (Rejected PROVIDER_REQUESTS (seconds 30 - 1000)%Z) ∧
  leases refused1.2 = leases (_prune 2000 grant1.2).
Proof.
  assert (refused1.1 = Ok (Rejected PROVIDER_REQUESTS (seconds 30 - 1000)%Z)) as E by by_run.
  split; [exact E|].
  pose proof (acquire_all_or_nothing config1 eq_refl 2000 6 grant1.2 1 route1 (py "req-2") 4
    (seconds 30) refused1.1 refused1.2 inv1) as H.
  rewrite E in H. apply H; [by_run|by_run|done|done|by_run].
Defined.

End CapacityRun.

(** ** Requests *)

Module RequestRun.
Import DurableRequests RequestStore Requests StoredRequests.

(** Events are numbers and zero completes a response. *)
Definition is_completed1 (e : N) : bool := (e =? 0)%N.
Definition req1 : pystr := py "req-1".
Definition digest_a : pystr := replicate 64 97%N.
Definition store0 : @Store N N := mkStore 4 ∅.
Definition store1 : @Store N N := (claim is_completed1 store0 1 req1 digest_a).2.
Definition store2 : @Store N N := (complete is_completed1 store1 1 req1 digest_a [3; 0]%N).2.

Abbreviation memory1 := (in_memory (ErrorValue := N) is_completed1).
Lemma identity1 : identity_ok req1 digest_a.
Proof. split; by_run. Qed.

Lemma trace1 : request_trace memory1 store0 [Execute (1%N, req1); Observe] store2.
Proof.
  apply (trace_snoc memory1 store0 [Execute (1%N, req1)] store1); [apply (trace_snoc memory1 store0 [] store0)|].
  - apply trace_nil.
  - by apply (step_claim memory1 store0 1 req1 digest_a (mkClaim EXECUTE digest_a [] None) store1).
  - by apply (step_complete memory1 store1 1 req1 digest_a [3; 0]%N (Ok tt) store2).
Qed.

(** The same calls on the durable store *)
Abbreviation durable1 := (durable (ErrorValue := N) is_completed1).
Definition rows1 : gmap (uuid * pystr) (@Stored N N) := (op_claim durable1 ∅ 1%N req1 digest_a).2.
Definition rows2 : gmap (uuid * pystr) (@Stored N N) := (op_complete durable1 rows1 1%N req1 digest_a [3; 0]%N).2.

Lemma trace2 : request_trace durable1 ∅ [Execute (1%N, req1); Observe] rows2.
Proof.
  apply (trace_snoc durable1 ∅ [Execute (1%N, req1)] rows1); [apply (trace_snoc durable1 ∅ [] ∅)|].
  - apply trace_nil.
  - by apply (step_claim durable1 ∅ 1 req1 digest_a (mkClaim EXECUTE digest_a [] None) rows1).
  - by apply (step_complete durable1 rows1 1 req1 digest_a [3; 0]%N (Ok tt) rows2).
Qed.

Lemma request_executed_once_witness :
  (executions (1%N, req1) [Execute (1%N, req1); Observe] = 1 ∧ stored store2 !! (1%N, req1) ≠ None) ∧
  (executions (1%N, req1) [Execute (1%N, req1); Observe] = 1 ∧ rows2 !! (1%N, req1) ≠ None).
Proof.
  split; (split; [|done]).
  - rewrite (proj1 (request_executed_once is_completed1 memory1 stored store0 _ store2 (1%N, req1) eq_refl trace1)). by_run.
  - rewrite (proj1 (request_executed_once is_completed1 durable1 id ∅ _ rows2 (1%N, req1) eq_refl trace2)). by_run.
Defined.

(** Claimed again, the completed request replays its events. *)
Lemma completed_request_replays_witness :
  (op_claim durable1 rows2 1%N req1 digest_a).1 = Ok (mkClaim COMPLETED digest_a [3; 0]%N None).
Proof.
  refine (proj1 (completed_request_replays is_completed1 durable1 id [] rows2 rows2 1 req1
    (mkStored digest_a COMPLETED [3; 0]%N None) digest_a _ rows2 _ (trace_nil _ rows2) eq_refl eq_refl identity1 eq_refl)).
  exact (proj2 (request_executed_once is_completed1 durable1 id ∅ _ rows2 (1%N, req1) eq_refl trace2)).
Defined.

End RequestRun.

(** ** Rates *)

Module RateRun.
Import RateLimiter Rates.

Definition key1 : uuid * pystr := (1%N, py "route-1").
(** Two grants every ten seconds. *)
Definition limiter0 : Limiter := mkLimiter 2 (seconds 10) 8 ∅.
Definition limiter1 : Limiter := (acquire 100 limiter0 1 (py "route-1")).2.
Definition limiter2 : Limiter := (acquire 200 limiter1 1 (py "route-1")).2.

Lemma limited1 : limiter_history key1 limiter0 limiter2 200 [100; 200]%Z.
Proof.
  apply (history_call key1 limiter0 limiter1 100 [100%Z] 200 1 (py "route-1") (Ok None) limiter2);
    [|done|by_run].
  by apply (history_call key1 limiter0 limiter0 100 [] 100 1 (py "route-1") (Ok None) limiter1);
    [apply history_start| |by_run].
Qed.

Lemma sliding_window_respected_witness :
  grants_in (seconds 10) 250 [100; 200]%Z ≤ 2 ∧ grants_in (seconds 10) 250 [100; 200]%Z = 2.
Proof.
  split; [|by_run].
  exact (proj1 (sliding_window_respected key1 limiter0 limiter2 200 [100; 200]%Z
    eq_refl eq_refl limited1) 250%Z).
Defined.

End RateRun.

(** ** Circuits *)

Module CircuitRun.
Import CircuitBreaker Circuits.

Definition r1 : pystr := py "route-1".
Definition breaker0 : Breaker := mkBreaker 2 (seconds 10) 8 ∅.
Definition breaker1 : Breaker := (record_failure 100 breaker0 r1).2.
Definition breaker2 : Breaker := (record_failure 200 breaker1 r1).2.

Lemma opened1 : star breaker_step breaker0 breaker2.
Proof.
  eapply star_next; [by apply (step_failure 100 breaker0 r1 (Ok tt) breaker1)|].
  eapply star_next; [by apply (step_failure 200 breaker1 r1 (Ok tt) breaker2)|apply star_refl].
Qed.

(** A table of one route, which is taken *)
Definition small0 : Breaker := mkBreaker 2 (seconds 10) 1 ∅.
Definition small1 : Breaker := (record_success small0 r1).2.
Lemma taken1 : star breaker_step small0 small1.
Proof. eapply star_next; [by apply (step_success small0 r1 (Ok tt) small1)|apply star_refl]. Qed.

(** Open after two failures, and half open ten seconds later; a full table refuses another
    route. *)
Lemma breaker_refines_phases_witness :
  (allow 300 breaker2 r1).1 = Ok false ∧
  phase_of (route_state (allow (200 + seconds 10) breaker2 r1).2 r1) = HalfOpen 200 (200 + seconds 10) ∧
  allow 300 small1 (py "route-2") = (Err capacity_error, small1).
Proof.
  pose proof (breaker_refines_phases 2 (seconds 10) ltac:(done) 8 breaker2 r1 opened1) as H.
  pose proof (breaker_refines_phases 2 (seconds 10) ltac:(done) 1 small1 (py "route-2") taken1) as Hfull.
  change (bool_decide (r1 ∉ dom (states breaker2)) && (8 <=? size (states breaker2))%nat) with false in H.
  change (bool_decide (py "route-2" ∉ dom (states small1)) && (1 <=? size (states small1))%nat) with true in Hfull.
  split; [exact (proj1 (proj1 H 300%Z))|]. split; [exact (proj1 (proj2 (proj1 H (200 + seconds 10)%Z)))|].
  exact (proj1 Hfull 300%Z).
Defined.

End CircuitRun.

(** ** The durable stores *)

Module DurableRun.
Import DurableCapacity StoredCapacity.

(** One request per route, ten tokens a minute. *)
Definition settings1 : Settings := mkSettings default_tenant_quota 1 10 (seconds 60).
Definition route1 : pystr := py "route-1".
Definition tables0 : Tables := mkTables s_empty ∅ ∅.
Definition ask (t : Tables) (now : timestamp) (id : uuid) (request_id : pystr)
    : result (CapacityStore.GatewayCapacityClaim * Tables) :=
  acquire settings1 (utc now) id t 1 route1 request_id 4 (seconds 30).
Definition tables1 : Tables := match ask tables0 1000 5 (py "req-1") with Ok (_, t) => t | Err _ => tables0 end.
Definition lease1 : CapacityStore.GatewayCapacityLease :=
  CapacityStore.mkLease 5 1 route1 (py "req-1") 4 1000 (1000 + seconds 30).

Lemma asked1 : ask tables0 1000 5 (py "req-1") = Ok (CapacityStore.Granted lease1, tables1).
Proof. by_run. Qed.

Lemma durable_capacity_admission_witness :
  within_limits settings1 tables1 1 route1 ∧
  ask tables1 2000 6 (py "req-2") = Ok (CapacityStore.Rejected CapacityStore.PROVIDER_REQUESTS (seconds 30 - 1000)%Z, tables1).
Proof.
  split; [|by_run].
  destruct (proj2 (durable_capacity_admission s_empty tables0 (star_refl _ _)) settings1 (utc 1000) 5%N 1%N route1 (py "req-1") 4%Z
    (seconds 30) lease1 tables1 eq_refl asked1) as [(row & Hrow & _)|H]; [discriminate Hrow|exact H].
Defined.

(** Two failures open the circuit of both breakers. *)
Import StoredCircuits.
Definition circuit1 : DurableCircuits.Settings := DurableCircuits.mkSettings 2 (seconds 10).

Lemma empty_agrees : same_circuits circuit1 ∅ CircuitRun.breaker0.
Proof. split; done. Qed.

Lemma durable_breaker_agrees_witness :
  agrees circuit1 (DurableCircuits.record_failure circuit1 (utc 100) ∅ CircuitRun.r1) (Ok tt, CircuitRun.breaker1).
Proof.
  exact (proj2 (proj2 (durable_breaker_agrees circuit1 ∅ CircuitRun.breaker0 CircuitRun.r1 100 empty_agrees eq_refl eq_refl))).
Defined.

(** A limit of two per ten seconds *)
Import DurableRates StoredRates.
Definition limiter1 : Limiter := mkLimiter 2 (seconds 10).
Definition rate_key : uuid * pystr := (1%N, route1).
Fixpoint calls (rows : Rows) (times : list Z) : Rows :=
  match times with
  | [] => rows
  | now :: rest => match acquire limiter1 (utc now) rows 1 route1 with Ok (_, rows') => calls rows' rest | Err _ => rows end
  end.
Definition first : Z := 0.
Definition burst : list Z := [first; seconds 9; seconds 10; seconds 11].

Lemma burst_history : rate_history limiter1 rate_key (calls ∅ burst) (seconds 11) ([] ++ [first] ++ [seconds 9] ++ [seconds 10] ++ [seconds 11]).
Proof.
  rewrite !app_assoc.
  apply (history_call limiter1 rate_key (calls ∅ [first; seconds 9; seconds 10]) (seconds 10) _ (seconds 11) 1%N route1 None); [|done|by_run].
  apply (history_call limiter1 rate_key (calls ∅ [first; seconds 9]) (seconds 9) _ (seconds 10) 1%N route1 None); [|done|by_run].
  apply (history_call limiter1 rate_key (calls ∅ [first]) first _ (seconds 9) 1%N route1 None); [|done|by_run].
  apply (history_call limiter1 rate_key ∅ first _ first 1%N route1 None); [apply history_start|done|by_run].
Qed.

(** The bound is reached: three of the four grants fall within one span of ten seconds. *)
Lemma fixed_window_respected_witness :
  Rates.grants_in (seconds 10) (seconds 11) ([] ++ [first] ++ [seconds 9] ++ [seconds 10] ++ [seconds 11]) ≤ 3 ∧
  Rates.grants_in (seconds 10) (seconds 11) [first; seconds 9; seconds 10; seconds 11] = 3.
Proof.
  split; [|by_run].
  exact (proj1 (fixed_window_respected limiter1 rate_key eq_refl _ _ _ burst_history) (seconds 11)).
Defined.
End DurableRun.
