(* ===== verification/ContextScenario.v ===== *)
(** * A concrete context

    The running execution of the queue scenario journals ten tool turns, loses its
    worker, is claimed again and has its context built for the new attempt while a
    compaction request is pending.  The theorems about contexts are applied to this
    history. *)

From stdpp Require Import base list sets gmap strings sorting pretty.
From Stdlib Require Import ZArith Lia.
From S2P Require Import Prelude PyBase WorkspaceAccess Domain Tables Contracts RunQueue RunRepository Transcripts Execution Recovery TaskPlans PyText Gateway ContextPipeline ContextStore MemoryJobs WorkerContext ContextProperties ContextPipelineProperties WorkerContextProperties QueueInvariant Scenario ExecutionScenario.

(** ** The first attempt *)

Definition turn_call (n : nat) : GatewayToolCall :=
  mkGatewayToolCall (py "call-" ++ py_nat n) (py "bash") (JObject []).
Definition turn_messages (n : nat) : list GatewayMessage :=
  [mkGatewayMessage ASSISTANT [] None [turn_call n];
   mkGatewayMessage TOOL (py "ok") (Some (py "call-" ++ py_nat n)) []].

(** The system message and the submission come first: the loop journals from
    position two on. *)
Definition s_turns : Db :=
  state_of (append_transcript_fenced encoded1 transcript_id1 3500 s_running lease0 2
    (mjoin (turn_messages <$> seq 1 10)) 3500) s_running.

(** The worker is lost, the run recovered and claimed again. *)
Definition s_lost : Db :=
  match recover_expired no_locks s_turns (utc (seconds 100)) 10 with Ok (_, _, d) => d | Err _ => s_turns end.
Definition s_heartbeat : Db :=
  state_of (register_worker s_lost (mkWorkerRegistration w1 [py "gvisor"] 2 2 ACTIVE (seconds 100) (seconds 100))) s_lost.
Definition claim2 : result (option RunLease * Db) :=
  claim cfg1 no_locks s_heartbeat w1 (utc (seconds 101)) (seconds 60) 70 80.
Definition lease2 : RunLease :=
  mkRunLease 1 100 10 20 w1 (py "default") 70 2 2 1 0 INTERACTIVE (Some 1000%Z) (seconds 101)
    (seconds 161) None false None None.
Definition s_claimed2 : Db := state_of claim2 s_heartbeat.
Definition s_running2 : Db := state_of (start s_claimed2 lease2 (utc (seconds 102))) s_claimed2.
Definition writer2 : WorkspaceWriterLease :=
  mkWorkspaceWriterLease 1 20 100 w1 70 80 2 (seconds 101) (seconds 161).

(** The user asks for a compaction before the worker builds the context. *)
Definition s_asked : Db :=
  state_of (ContextRepository.request_compaction s_running2 1 10 800 (py "compact-1") (py "default")
    (seconds 103)) s_running2.
Definition recovery2 : RunRecoveryState :=
  match Recovery.load digest2 encoded1 state_size1 jsonb1 text_le1 (seconds 103) s_asked lease2 with
  | Ok s => s
  | Err _ => state1
  end.

(** ** The context of the second attempt *)

Definition identity1 (s : pystr) : pystr := s.
Definition redact1 (j : json) : json := j.
Definition request_size1 (r : ContextBuildRequest) : Z := Z.of_nat (length (cbr_conversation r)).
Definition compress1 (q : ContextCompressionRequest) : result ContextCompressionResult :=
  Ok (mkCompressionResult (py "the first turns passed") 100 5).
Definition auto_id1 (s : uuid) (key : pystr) : uuid := (s * 1000 + N.of_nat (length key))%N.
Definition pipeline1 : ContextPipeline :=
  mkPipeline [mkRouteBudget (py "default") 100000 4096] (default_contributors ascii_lower encoded1)
    utf8_estimate MAX_COMPRESSION_INPUT_BYTES MAX_CONTEXT_SUMMARY_BYTES.
Definition source1 : PersistentRunContextSource :=
  mkContextSource (py "You are a coding agent.") 4096 100 None.
Definition builder1 : DurableRunContextBuilder := mkContextBuilder pipeline1 source1 true 3072.

Definition built2 : result ContextBuildResult * Db :=
  build_run_context ascii_lower request_size1 identity1 redact1 text_digest1 encoded1 compress1 auto_id1
    builder1 (seconds 104) s_asked lease2 writer2 recovery2.
Definition context2 : ContextBuildResult :=
  match built2.1 with Ok r => r | Err _ => mkBuildResult [] 0 0 false None None None [] [] end.
Definition next_message : GatewayMessage := mkGatewayMessage ASSISTANT (py "All tests pass.") None [].

(** ** Witnesses *)

Lemma built_ok : built2 = (Ok context2, built2.2).
Proof. by_run. Qed.

Definition request2 : ContextBuildRequest :=
  match load ascii_lower request_size1 identity1 redact1 text_digest1 source1 s_asked lease2 writer2
    recovery2 None (Some 21%Z) None true with
  | Ok r => r
  | Err _ => mkContextRequest 0 0 0 0 [] [] [] [] [] JNull [] [] [] None false
  end.

Lemma pipeline_built : build encoded1 compress1 pipeline1 request2 = Ok context2.
Proof. by_run. Qed.

Lemma compress1_nonempty : summaries_nonempty compress1.
Proof. intros q c [= <-]. discriminate. Qed.

Lemma utf8_chunks_reassemble_witness :
  ∃ chunks, _utf8_chunks [8364; 97; 128512]%N 4 = Ok chunks ∧ mjoin chunks = [8364; 97; 128512]%N ∧ chunks ≠ [].
Proof.
  destruct (utf8_chunks_reassemble [8364; 97; 128512]%N 4) as (chunks & H & Hj & Hn & _);
    [reflexivity|lia|]. by exists chunks.
Defined.

(** A summary that fits only in part. *)
Definition pipeline_small : ContextPipeline :=
  mkPipeline [mkRouteBudget (py "default") 300 200] (default_contributors ascii_lower encoded1)
    utf8_estimate MAX_COMPRESSION_INPUT_BYTES MAX_CONTEXT_SUMMARY_BYTES.

Lemma fit_summary_longest_witness :
  ∃ r, _fit_summary encoded1 pipeline_small (py "a summary of twenty-nine bytes") [] 110 = Ok r.
Proof.
  destruct (fit_summary_longest encoded1 pipeline_small (py "a summary of twenty-nine bytes") [] 110)
    as (r & Hr & _); [reflexivity| |exists r; exact Hr].
  intros n Hn. do 31 (destruct n as [|n]; [by_run|]). exfalso.
  apply Nat.leb_le in Hn. revert Hn. vm_compute. discriminate.
Defined.

Lemma build_keeps_critical_witness :
  ∃ budget, budget_get (pl_budgets pipeline1) (cbr_route_name request2) = Ok budget ∧
    (pl_estimator pipeline1 (br_messages context2) <= available_input_tokens budget)%Z.
Proof.
  destruct (build_keeps_critical_within_budget encoded1 compress1 pipeline1 request2 context2)
    as (budget & fragments & retained & Hb & _ & He & _).
  - by apply (default_contributors_named ascii_lower encoded1).
  - exact compress1_nonempty.
  - exact pipeline_built.
  - exists budget. split; [exact Hb|exact He].
Defined.

(** The recovered transcript is in order. *)
Definition follows_callsb (l : list GatewayMessage) : bool :=
  forallb (λ i, match l !! i, l !! pred i with
                | Some m, Some a => negb (bool_decide (gm_role m = TOOL)) || ((0 <? i)%nat && proposes (gm_tool_call_id m) a)
                | _, _ => true
                end) (seq 0 (length l)).

Lemma follows_callsb_sound l : follows_callsb l = true → results_follow_calls l.
Proof.
  unfold follows_callsb. rewrite forallb_forall. intros H i m Hi Hrole.
  assert (i < length l) as Hlt by (by eapply lookup_lt_Some).
  specialize (H i). rewrite in_seq, Hi in H. specialize (H ltac:(lia)).
  destruct (l !! pred i) as [a|] eqn:Ha; [|apply lookup_ge_None in Ha; lia].
  rewrite bool_decide_true in H by done. cbn [negb orb] in H. apply andb_prop in H as [Hpos%Nat.ltb_lt Hp].
  exists (pred i), a. split_and!; [lia|done|done|]. intros k b Hk1 Hk2. lia.
Qed.

Lemma build_keeps_tool_calls_witness :
  ∃ m j a, br_messages context2 !! 2 = Some m ∧ gm_role m = TOOL ∧
    j < 2 ∧ br_messages context2 !! j = Some a ∧ proposes (gm_tool_call_id m) a = true.
Proof.
  assert (∃ m, br_messages context2 !! 2 = Some m ∧ gm_role m = TOOL) as (m & Hm & Hrole).
  { destruct (br_messages context2 !! 2) as [m|] eqn:E.
    - exists m. split; [reflexivity|]. apply Some_inj. change (gm_role <$> Some m = Some TOOL). rewrite <- E. by_run.
    - exfalso. assert (is_some (br_messages context2 !! 2) = true) as Hs by by_run. by rewrite E in Hs. }
  edestruct (build_keeps_tool_calls ascii_lower encoded1 compress1 pipeline1 request2 context2) as [_ Hcalls].
  - reflexivity.
  - exact compress1_nonempty.
  - apply follows_callsb_sound. by_run.
  - exact pipeline_built.
  - destruct (Hcalls 2 m Hm Hrole) as (j & a & Hlt & Ha & Hp). exists m, j, a. exact (conj Hm (conj Hrole (conj Hlt (conj Ha Hp)))).
Defined.

Definition pending1 : PersistedContextCompaction :=
  mkCompaction 800 10 1 COMPACTION_PENDING (py "compact-1") 21 (py "default") None None None None (seconds 103) None.
Definition pending_row1 : ContextCompactionRecord :=
  mkContextCompaction 800 1 10 1 COMPACTION_PENDING (py "compact-1") 21 (py "default") None None None None
    (seconds 103) None.

Lemma run_context_settles_compaction_witness :
  ∃ row', compactions built2.2 !! 800%N = Some row' ∧ cc_status row' = COMPACTION_COMPLETED ∧
    cc_summary row' = Some (py "the first turns passed").
Proof.
  destruct (run_context_settles_compaction ascii_lower identity1 text_digest1 redact1 request_size1 encoded1
    compress1 auto_id1 builder1 (seconds 104) s_asked lease2 writer2 recovery2 None pending1 s_asked pending_row1
    context2 built2.2) as (row' & Hrow & Hout); [by_run|by_run|by_run|reflexivity|exact built_ok|].
  exists row'. split; [exact Hrow|].
  assert (br_summary context2 = Some (py "the first turns passed")) as E by by_run.
  rewrite E in Hout. destruct Hout as (H1 & H2 & _). by split.
Defined.

(** A tool call identifier of 244 characters. *)
Definition long_result : ContextToolResult :=
  mkContextToolResult (replicate 244 97%N) (py "bash") (py "{}") false.
Definition request_long : ContextBuildRequest :=
  mkContextRequest 1 10 100 1 (py "default") (py "You are a coding agent.") [] [m_user] [] (JObject [])
    [long_result] [] [] None false.

Lemma long_tool_call_id_breaks_context_witness :
  is_ok (build encoded1 compress1 pipeline1 request_long) = false.
Proof.
  destruct (build encoded1 compress1 pipeline1 request_long) as [r|] eqn:E; [|reflexivity].
  exfalso. refine (long_tool_call_id_breaks_context ascii_lower encoded1 compress1 pipeline1 request_long
    long_result r _ _ _ _ E).
  - reflexivity.
  - by left.
  - by_run.
  - apply Nat.ltb_lt. by_run.
Defined.

(** ** Journaling after a compaction *)

(** A message is refused at a position that holds a row of another role. *)
Lemma occupied_position_refused encoded message_id now d lease start m suffix at_ row :
  tenant_message d (lease_tenant_id lease)
    (message_id (lease_run_id lease) (lease_execution_epoch lease) (start + 1)%Z) = Some row →
  msg_role row ≠ gm_role m →
  is_ok (append_transcript_fenced encoded message_id now d lease start (m :: suffix) at_) = false.
Proof.
  intros Hrow Hrole. destruct (append_transcript_fenced _ _ _ _ _ _ _ _) as [[u d']|e] eqn:E; [|done]. exfalso.
  unfold append_transcript_fenced in E. do 3 (apply bind_Ok in E as (? & _ & E)). apply commit_Ok in E as [E _].
  do 2 (apply bind_Ok in E as (? & _ & E)). apply bind_Ok in E as (d1 & E & _). cbn [append_messages] in E.
  rewrite Hrow in E. apply bind_Ok in E as (? & E & _). apply ensure_Ok in E.
  unfold same_transcript_row in E. rewrite (bool_decide_eq_false_2 (msg_role row = gm_role m) Hrole) in E.
  by rewrite andb_false_r in E.
Qed.

(** C40: compacted journal: after a compaction the loop is given fewer messages than the journal holds.  It
    journals from the number of messages it was given, a position the first attempt
    has already used, and whatever the model answers is refused as a conflict. *)
Theorem compacted_context_cannot_journal m suffix :
  gm_role m = TOOL ∨
  is_ok (append_transcript_fenced encoded1 transcript_id1 (seconds 105) built2.2 lease2
           (Z.of_nat (length (br_messages context2))) (m :: suffix) (seconds 105)) = false.
Proof.
  destruct (decide (gm_role m = TOOL)) as [|Hm]; [by left|right].
  destruct (tenant_message built2.2 (lease_tenant_id lease2) (transcript_id1 (lease_run_id lease2)
    (lease_execution_epoch lease2) (Z.of_nat (length (br_messages context2)) + 1)%Z)) as [row|] eqn:E.
  - eapply occupied_position_refused; [exact E|]. intros Hr. apply Hm. rewrite <- Hr. apply Some_inj.
    change (msg_role <$> Some row = Some TOOL). rewrite <- E. by_run.
  - exfalso. apply (f_equal is_some) in E. revert E. vm_compute. discriminate.
Qed.
