(* ===== verification/AgentScenario.v ===== *)
(** * A concrete attempt

    A model writes a file through a checkpointed tool and then answers; the loop runs
    on a small world with a workspace, a journal and an execution count, and the
    executor of the queue scenario's leased run persists its events.  The theorems
    about turns, loops and attempts are applied here. *)

From stdpp Require Import base list sets gmap strings sorting pretty.
From Stdlib Require Import ZArith Lia.
From S2P Require Import Prelude PyBase Domain Tables Contracts RunQueue Approvals Transcripts Execution Recovery TaskPlans PyText Gateway Redaction AgentEvents PyEffects ToolTurn ModelTurn AgentLoop Executor ToolTurnProperties ToolTurnHistory ToolTurnEvents ModelTurnProperties AgentLoopProperties AgentLoopJournal AgentDelivery ExecutorProperties QueueInvariant Scenario ExecutionScenario.

(** ** The world *)

Record world := mkWorld {
  w_workspace : pystr;
  w_runs : gmap pystr nat;
  w_journal : list (uuid * nat * list GatewayMessage);
  w_ids : nat;
  w_requests : nat;
}.

Definition tool1 : ToolRegistration :=
  mkRegistration (mkToolDefinition (py "write_file") (py "write a file") (JObject [])) WORKSPACE_MUTATION (λ _, []).

Definition count_run (id : pystr) (runs : gmap pystr nat) : gmap pystr nat := <[id := S (runs !!! id)]> runs.

(** The tool moves the workspace to a new revision; [broken] makes it raise afterwards. *)
Definition stream1 (broken : bool) (w : world) (call : GatewayToolCall) (context : ToolExecutionContext)
    : tool_stream * world :=
  (mkToolStream [ToolOutputChunk false (py "writing"); ToolExecutionCompleted (JObject [])]
     (if broken then Raise TimeoutExn else Ret tt) (Ret tt),
   mkWorld (py "rev1") (count_run (gtc_id call) (w_runs w)) (w_journal w) (w_ids w) (w_requests w)).

Definition checkpoint1 (w : world) (run_id : uuid) (id : pystr) (t : list GatewayMessage) (plan : json)
    (summary : option pystr) : Checkpoint :=
  mkCheckpoint 500 run_id 10 1 id (Z.of_nat (length t)) [] (py "s3") (w_workspace w) plan summary 0%Z.
Definition coordinator1 : CheckpointCoordinator world := mkCoordinator _
  (λ w run_id id t plan summary, (Ret (checkpoint1 w run_id id t plan summary), w))
  (λ w c id, (Ret (w_workspace w), w))
  (λ w c, (Ret tt, mkWorld (chk_workspace_revision c) (w_runs w) (w_journal w) (w_ids w) (w_requests w))).

Definition tools1 (broken : bool) : ToolEnvironment world := mkToolEnvironment _
  [tool1] (λ _, seconds 30) (λ w, (900%N, w)) (stream1 broken) (Some coordinator1) (λ _, false).

Definition done1 (reason : GatewayFinishReason) : option GatewayEvent :=
  Some (ResponseCompleted (mkCompleted reason 1 1 0 None None None)).
Definition write1 : GatewayToolCall := mkGatewayToolCall (py "call-1") (py "write_file") (JObject []).
Definition gateway1 (w : world) (request : GatewayRequest) : model_stream * world :=
  (mkModelStream
     (if (w_requests w =? 0)%nat then [Some (GatewayToolCallEvent write1); done1 FINISH_TOOL_CALLS]
      else [Some (GatewayTextDelta (py "file written")); done1 FINISH_STOP]) (Ret tt),
   mkWorld (w_workspace w) (w_runs w) (w_journal w) (w_ids w) (S (w_requests w))).
Definition new_id1 (w : world) (prefix : pystr) : pystr * world :=
  (prefix ++ py "-" ++ py (pretty (w_ids w)),
   mkWorld (w_workspace w) (w_runs w) (w_journal w) (S (w_ids w)) (w_requests w)).
Definition journal1 (w : world) (run_id : uuid) (start : nat) (ms : list GatewayMessage) : outcome unit * world :=
  (Ret tt, mkWorld (w_workspace w) (w_runs w) (w_journal w ++ [(run_id, start, ms)]) (w_ids w) (w_requests w)).

Definition env1 : LoopEnvironment world := mkLoopEnvironment _ (tools1 false) gateway1 new_id1 (Some journal1).

#[local] Instance restores1 : RestoresWorkspace w_workspace coordinator1 chk_workspace_revision.
Proof. split; [done| |]; [by intros * [= <- <-]|by intros * [= <- <-]]. Qed.
#[local] Instance counts1 broken : CountsRuns (tools1 broken) w_runs.
Proof. split; [done|done|..]; by intros * [= <-]. Qed.
#[local] Instance loop_keeps1 : LoopKeeps env1 w_runs.
Proof. split; [done|done|]. by intros * [= <-]. Qed.
#[local] Instance tools_keep1 broken : ToolsKeep (tools1 broken) w_journal.
Proof. split; [done|done|..]; by intros * [= <-]. Qed.
#[local] Instance journals1 : Journals env1 w_journal.
Proof. refine {| journal_append := journal1 |}; [done|done|done|]. by intros * [= <- <-]. Defined.

(** ** The attempt *)

Definition config1 : AgentLoopConfig := mkLoopConfig 20 50 3 256 1048576 262144 262144 262144 262144.
Definition ascii_word (c : N) : bool := is_letter c || is_digit c || (c =? 95)%N.
Definition redactor1 : StreamRedactor := redaction_stream ascii_word (make_secrets [py "hunter2!"]).
Definition text_id (s : pystr) : pystr := s.
Definition json_id (j : json) : json := j.
Definition error_size1 (e : ErrorDetail) : Z := 100.
Definition payload_size1 (p : AgentPayload) : Z :=
  match p with ModelTextDelta _ d => Z.of_nat (length d) * 400000 | _ => 100 end.
Definition request_size2 (r : GatewayRequest) : Z := 100.
Definition uuid_text1 (u : uuid) : pystr := py (pretty u).

Definition ask1 : GatewayMessage := mkGatewayMessage USER (py "write the file") None [].
Definition input1 : AgentLoopInput :=
  mkLoopInput 1 10 100 1 1 (py "w1") (py "default") [ask1] None (JObject []) None [] AUTO_APPROVE [].
Definition world0 : world := mkWorld (py "rev0") ∅ [] 0 0.

Definition attempt1 : outcome unit * LoopState world :=
  run env1 config1 redactor1 text_id json_id error_size1 digest2 payload_size1 request_size2 text_id uuid_text1 input1
    world0.

Definition returned {A S} (x : outcome A * S) : bool := match x.1 with Ret _ => true | Raise _ => false end.
Lemma returned_Ret {S} (x : outcome unit * S) : returned x = true → x = (Ret tt, x.2).
Proof. destruct x as [[[]|] s]; done. Qed.
Lemma attempt1_returns : attempt1 = (Ret tt, attempt1.2).
Proof. apply returned_Ret. by_run. Qed.

(** The run reports its end once. *)
Lemma run_reports_one_end_witness : closed_by settles (ls_yielded attempt1.2).
Proof.
  exact (proj2 (run_reports_one_end env1 config1 redactor1 text_id json_id error_size1 digest2 payload_size1 request_size2
    text_id uuid_text1 input1 world0 attempt1.2 attempt1_returns)).
Defined.

(** The tool ran exactly once. *)
Lemma call_runs_at_most_once_witness :
  w_runs (ts_world (ls_turn attempt1.2)) !!! py "call-1" ≤ w_runs world0 !!! py "call-1" + 1 ∧
  w_runs (ts_world (ls_turn attempt1.2)) !!! py "call-1" = 1.
Proof.
  split; [|by_run].
  exact (call_runs_at_most_once env1 config1 redactor1 text_id json_id error_size1 digest2 payload_size1 request_size2
    text_id uuid_text1 input1 w_runs world0 (Ret tt) attempt1.2 (py "call-1") attempt1_returns).
Defined.

(** The answer was journaled before it was reported. *)
Definition final1 : AgentEvent :=
  default (mkAgentEvent 0 0 (RunFailed loop_incomplete) 0%Z) (last (ls_yielded attempt1.2)).
Lemma last_default {A} (d : A) l : is_some (last l) = true → last l = Some (default d (last l)).
Proof. by destruct (last l). Qed.

Lemma success_reported_after_journal_witness :
  (∃ calls, w_journal (ts_world (ls_turn attempt1.2)) = w_journal world0 ++ calls ∧
     hands_over (li_run_id input1) 1 calls (drop 1 (ts_transcript (ls_turn attempt1.2)))) ∧
  length (drop 1 (ts_transcript (ls_turn attempt1.2))) = 3.
Proof.
  split; [|by_run].
  refine (proj1 (success_reported_after_journal env1 config1 redactor1 text_id json_id error_size1 digest2 payload_size1
    request_size2 text_id uuid_text1 input1 w_journal world0 attempt1.2 final1 (py "file written") (Some 500%N)
    attempt1_returns _ _)); [apply last_default; by_run|by_run].
Defined.

(** ** Turns *)

Definition state1 (w : world) : TurnState world := mkTurnState w 0 [ask1] ∅.
Definition turn1 (mode : ApprovalMode) : TurnInput := mkTurnInput 100 (JObject []) None mode ∅ ∅.
Definition execute1 (broken : bool) (mode : ApprovalMode) : outcome ToolTurnReport * TurnState world :=
  execute (tools1 broken) config1 text_id json_id error_size1 digest2 payload_size1 uuid_text1 (turn1 mode) [write1] [] 0
    (state1 world0).

Lemma blocked_turn_runs_nothing_witness : w_workspace (ts_world (execute1 false REQUIRE_ALL).2) = py "rev0".
Proof.
  apply (blocked_turn_runs_nothing (tools1 false) config1 text_id json_id error_size1 digest2 payload_size1 uuid_text1
    w_workspace (turn1 REQUIRE_ALL) [write1] [] 0 (state1 world0)).
  - reflexivity.
  - right. right. exists write1. split.
    + split; [reflexivity|]. exists [], []. split; [reflexivity|]. apply not_elem_of_nil.
    + split; reflexivity.
Defined.

Definition report0 : ToolTurnReport := mkReport [] 0 true None None.
Definition report_of {S} (x : outcome ToolTurnReport * S) : ToolTurnReport :=
  match x.1 with Ret r => r | Raise _ => report0 end.
Lemma report_of_Ret {S} (x : outcome ToolTurnReport * S) : returned x = true → x = (Ret (report_of x), x.2).
Proof. by destruct x as [[r|] s]. Qed.

Lemma turn_answers_every_call_witness :
  turn_answered [ask1] [write1] [] (ts_transcript (execute1 false AUTO_APPROVE).2).
Proof.
  apply (turn_answers_every_call (tools1 false) config1 text_id json_id error_size1 digest2 payload_size1 uuid_text1
    (turn1 AUTO_APPROVE) [write1] [] 0 (state1 world0) (report_of (execute1 false AUTO_APPROVE))).
  - apply (report_of_Ret (execute1 false AUTO_APPROVE)). by_run.
  - by_run.
Defined.

Definition item1 : PreparedCall := mkPreparedCall write1 (digest2 (JObject [])) (Some WORKSPACE_MUTATION) None.
Definition failed1 : outcome call_progress * TurnState world :=
  execute_call (tools1 true) config1 text_id json_id error_size1 digest2 payload_size1 uuid_text1 (turn1 AUTO_APPROVE)
    item1 WORKSPACE_MUTATION (state1 world0).
Definition progress1 : call_progress := match failed1.1 with Ret p => p | Raise _ => TurnOver [] None end.

(** The tool is cancelled after it changed the workspace. *)
Definition cancelled_stream (w : world) (call : GatewayToolCall) (context : ToolExecutionContext) : tool_stream * world :=
  (mkToolStream [] (Raise CancelledExn) (Ret tt),
   mkWorld (py "rev1") (count_run (gtc_id call) (w_runs w)) (w_journal w) (w_ids w) (w_requests w)).
Definition tools_cancelled : ToolEnvironment world := mkToolEnvironment _
  [tool1] (λ _, seconds 30) (λ w, (900%N, w)) cancelled_stream (Some coordinator1) (λ _, false).
Definition cancelled_call : outcome call_progress * TurnState world :=
  execute_call tools_cancelled config1 text_id json_id error_size1 digest2 payload_size1 uuid_text1 (turn1 AUTO_APPROVE)
    item1 WORKSPACE_MUTATION (state1 world0).
Definition was_cancelled {A S} (x : outcome A * S) : bool := match x.1 with Raise CancelledExn => true | _ => false end.
Lemma cancelled_Raise {A S} (x : outcome A * S) : was_cancelled x = true → x = (Raise CancelledExn, x.2).
Proof. by destruct x as [[|[]] s]. Qed.

Lemma failed_call_restores_workspace_witness :
  (w_workspace (ts_world failed1.2) = py "rev0" ∨ fails_with restore_failed progress1 ∨
   ∃ events c plan o, progress1 = CallDone events c plan ∧ ts_outcomes failed1.2 !! py "call-1" = Some o ∧
     to_status o = TOOL_COMPLETED) ∧ w_runs (ts_world failed1.2) !!! py "call-1" = 1 ∧
  w_workspace (ts_world cancelled_call.2) = py "rev0" ∧ w_runs (ts_world cancelled_call.2) !!! py "call-1" = 1.
Proof.
  split_and!; [|by_run| |by_run].
  2: { apply (failed_call_restores_workspace tools_cancelled config1 text_id json_id error_size1 digest2 payload_size1 uuid_text1
         w_workspace coordinator1 chk_workspace_revision eq_refl (turn1 AUTO_APPROVE) item1 WORKSPACE_MUTATION (state1 world0)
         (Raise CancelledExn) cancelled_call.2); [reflexivity| |by split].
       change (cancelled_call = (Raise CancelledExn, cancelled_call.2)). apply cancelled_Raise. by_run. }
  apply (failed_call_restores_workspace (tools1 true) config1 text_id json_id error_size1 digest2 payload_size1 uuid_text1
    w_workspace coordinator1 chk_workspace_revision eq_refl (turn1 AUTO_APPROVE) item1 WORKSPACE_MUTATION (state1 world0)
    (Ret progress1) failed1.2); [reflexivity|].
  assert (returned failed1 = true) as H by by_run. change (failed1 = (Ret progress1, failed1.2)).
  unfold progress1. revert H. generalize failed1. by intros [[p|] s].
Defined.

Lemma text_chunks_reassemble_witness :
  ∃ chunks, _model_text_chunks (_model_text_payload_fits payload_size1 (py "m")) (py "abcde") = (chunks, true) ∧
    mjoin chunks = py "abcde" ∧ length chunks = 3.
Proof.
  destruct (text_chunks_reassemble payload_size1 (py "m") (py "abcde")) as (chunks & H & Hj & _).
  - intros c. cbn. unfold MAX_EVENT_PAYLOAD_BYTES. lia.
  - exists chunks. split; [exact H|]. split; [exact Hj|].
    assert (chunks = (_model_text_chunks (_model_text_payload_fits payload_size1 (py "m")) (py "abcde")).1) as -> by (by rewrite H).
    by_run.
Defined.

(** ** The executor *)

(** An event store that keeps every event. *)
Definition append_event1 (now : timestamp) (d : Db) (store : list AgentEvent) (lease : RunLease) (key : pystr) (e : AgentEvent)
    : result (list AgentEvent) := Ok (store ++ [e]).
Definition observed1 (d : Db) (observed : observed_tools) (turn : Z) : attempt_state (E := list AgentEvent) :=
  mkAttempt d ([] : list AgentEvent) observed turn None None None.

Definition timed1 : list (timestamp * AgentEvent) := (λ e, (3500%Z, e)) <$> ls_yielded attempt1.2.
Definition settled1 : result (RunExecutionResult * attempt_state (E := list AgentEvent)) :=
  run_events digest2 append_event1 true lease0 (observed1 s_running ∅ 0) timed1.

Lemma attempt_result_follows_loop_witness : ∃ e r s, settled1 = Ok (r, s) ∧ announces (ev_payload e) r.
Proof.
  destruct settled1 as [[r s]|x] eqn:E; [|exfalso; assert (is_ok settled1 = true) as H by by_run; by rewrite E in H].
  destruct (attempt_result_follows_loop digest2 append_event1 env1 config1 redactor1 text_id json_id error_size1 payload_size1
    request_size2 text_id uuid_text1 input1 world0 attempt1.2 true lease0 (observed1 s_running ∅ 0) timed1 r s
    attempt1_returns) as (e & _ & He).
  - unfold timed1. rewrite <- list_fmap_compose. apply list_fmap_id.
  - exact E.
  - exists e, r, s. split; [reflexivity|exact He].
Defined.

Definition completed_event1 : AgentEvent :=
  mkAgentEvent 100 5 (ToolCompleted (py "call-1") TOOL_COMPLETED (Some (JObject [])) None) 3400.
Definition before_completion : attempt_state (E := list AgentEvent) := observed1 s_executing {[py "call-1" := call_running]} 1.
Definition after_completion : result (attempt_state (E := list AgentEvent) * option RunExecutionResult) :=
  observe_event digest2 append_event1 true 3400 lease0 before_completion completed_event1.

Lemma reported_outcome_durable_witness :
  ∃ s fin row, after_completion = Ok (s, fin) ∧ tool_calls (at_db s) !! call_key1 = Some row ∧
    tc_status row = TOOL_COMPLETED.
Proof.
  destruct after_completion as [[s fin]|x] eqn:E;
    [|exfalso; assert (is_ok after_completion = true) as H by by_run; by rewrite E in H].
  destruct (reported_outcome_durable digest2 append_event1 true 3400 lease0 before_completion s completed_event1
    (py "call-1") TOOL_COMPLETED (Some (JObject [])) None call_running fin) as (row & cid & Hid & Hrow & Hst & _).
  - reflexivity.
  - reflexivity.
  - by_run.
  - exact E.
  - exists s, fin, row. split; [reflexivity|]. split; [|exact Hst].
    assert (identifier_string (call_id call_running) = Ok (py "call-1")) as Hc by by_run.
    rewrite Hc in Hid. injection Hid as <-. exact Hrow.
Defined.

(** A call proposed in the second turn is parked for approval and announced again. *)
Definition second_turn_call : ToolCall :=
  mkToolCall (py "call-1") 100 1 2 (py "bash") (JObject []) (digest2 (JObject [])) TOOL_WAITING_APPROVAL None None None
    None None.
Definition s_parked : Db :=
  state_of (save_tool_call digest2 s_running 1 second_turn_call) s_running.
Definition resumed_event : AgentEvent :=
  mkAgentEvent 100 3 (ModelToolCallReceived (py "approval-resume") (py "call-1") (py "bash") (Some (JObject []))
    (Some (digest2 (JObject []))) None) 3400.

Lemma later_turn_call_not_resumable_witness :
  is_ok (observe_event digest2 append_event1 true 3500 lease0 (observed1 s_parked ∅ 0) resumed_event) = false.
Proof.
  destruct (observe_event digest2 append_event1 true 3500 lease0 (observed1 s_parked ∅ 0) resumed_event) as [[s fin]|x] eqn:E;
    [|reflexivity]. exfalso.
  assert (tool_calls s_parked !! call_key1 = Some (tool_call_row second_turn_call)) as Hrow by by_run.
  refine (later_turn_call_not_resumable digest2 append_event1 true 3500 lease0 (observed1 s_parked ∅ 0) resumed_event
    (py "approval-resume") (py "call-1") (py "bash") (JObject []) (digest2 (JObject [])) (tool_call_row second_turn_call)
    s fin _ _ _ _ _ E); [reflexivity|reflexivity|by_run|exact Hrow|reflexivity].
Defined.
