(* ===== verification/EventScenario.v ===== *)
(** * A concrete event log

    The API and the worker of the running execution append to the log of the run,
    readers replay and follow it, and the attempt of the agent scenario is delivered
    to the store. *)

From stdpp Require Import base list sets gmap strings sorting pretty.
From Stdlib Require Import ZArith Lia.
From S2P Require Import Prelude PyBase Domain Tables Contracts RunQueue Approvals Transcripts Execution Recovery TaskPlans PyText Gateway AgentEvents EventStore PyEffects ToolTurn ModelTurn AgentLoop Executor EventStoreProperties AgentDelivery Scenario ExecutionScenario AgentScenario.

Definition tenant1 (run_id : uuid) : uuid := 1%N.
Definition event_size1 (e : StoredEvent) : Z := 200.
Definition page_size1 (p : EventPage) : Z := foldr Z.add EVENT_PAGE_ENVELOPE_RESERVE_BYTES ((λ e, event_size1 e + 1)%Z <$> pg_events p).
Definition draft1 : EventDraft := mkEventDraft (RunStarted 1 w1) 3400.
Definition draft2 : EventDraft := mkEventDraft (ModelTextDelta (py "m1") (py "hi")) 3500.
Definition draft3 : EventDraft := mkEventDraft (ModelTextDelta (py "m1") (py "ho")) 3600.
Definition key1 : pystr := py "a1.g1.e1".

Definition appended_to (r : result (StoredEvent * EventTables)) (t : EventTables) : EventTables :=
  match r with Ok (_, t') => t' | Err _ => t end.
Definition api_append (t : EventTables) : result (StoredEvent * EventTables) :=
  append digest2 payload_size1 s_running t 1 100 draft1.
Definition worker_append (t : EventTables) (draft : EventDraft) : result (StoredEvent * EventTables) :=
  append_idempotent_fenced digest2 payload_size1 3500 s_running t lease0 key1 draft.
Definition e_started : EventTables := appended_to (api_append no_events) no_events.
Definition e_delivered : EventTables := appended_to (worker_append e_started draft2) e_started.
Definition e_more : EventTables := appended_to (api_append e_delivered) e_delivered.
Definition delivered1 : StoredEvent := mkStoredEvent 100 1 2 (dr_payload draft2) 3500.

Abbreviation step1 := (event_step digest2 payload_size1 tenant1).

Lemma running_owned : owned tenant1 s_running.
Proof.
  assert (bool_decide (map_Forall (λ _ r, rr_tenant_id r = 1%N) (runs s_running)) = true) as H by by_run.
  apply bool_decide_eq_true in H. intros run_id r Hr. exact (H run_id r Hr).
Qed.
Lemma started_step : star step1 no_events e_started.
Proof.
  eapply star_next; [|apply star_refl].
  apply (step_append _ _ _ s_running _ _ 1%N 100%N draft1 (mkStoredEvent 100 1 1 (dr_payload draft1) 3400));
    [exact running_owned|by_run|by_run].
Qed.
Lemma delivered_step : star step1 e_started e_delivered.
Proof.
  eapply star_next; [|apply star_refl].
  apply (step_append_fenced _ _ _ 3500 s_running _ _ lease0 key1 draft2 delivered1); [exact running_owned|by_run|by_run].
Qed.
Lemma more_step : star step1 e_delivered e_more.
Proof.
  eapply star_next; [|apply star_refl].
  apply (step_append _ _ _ s_running _ _ 1%N 100%N draft1 (mkStoredEvent 100 1 3 (dr_payload draft1) 3400));
    [exact running_owned|by_run|by_run].
Qed.
Lemma more_reached : star step1 no_events e_more.
Proof. eapply star_trans; [exact started_step|]. eapply star_trans; [exact delivered_step|exact more_step]. Qed.

Lemma page_size1_ok p : (page_size1 p ≤
  EVENT_PAGE_ENVELOPE_RESERVE_BYTES + foldr Z.add 0 ((λ e, event_size1 e + 1) <$> pg_events p))%Z.
Proof. unfold page_size1. generalize ((λ e, event_size1 e + 1)%Z <$> pg_events p). induction l; cbn [foldr]; lia. Qed.
Lemma fits1 t : Forall (fits event_size1 MIN_EVENT_PAGE_BYTES) (log_rows t 100 0).
Proof. apply Forall_forall. intros row _. unfold fits, event_size1. by vm_compute. Qed.
Lemma bytes1 : (EVENT_PAGE_ENVELOPE_RESERVE_BYTES ≤ MIN_EVENT_PAGE_BYTES ≤ MAX_EVENT_PAGE_BYTES)%Z.
Proof. by vm_compute. Qed.

Lemma event_log_append_only_witness :
  se_sequence <$> event_log e_delivered 100 0 = [1; 2]%Z ∧ event_log e_delivered 100 0 `prefix_of` event_log e_more 100 0.
Proof.
  apply (event_log_append_only digest2 payload_size1 tenant1 e_delivered e_more 100); [|exact more_step].
  eapply star_trans; [exact started_step|exact delivered_step].
Defined.

Lemma replay_yields_log_witness :
  iter_after digest2 payload_size1 event_size1 page_size1 MIN_EVENT_PAGE_BYTES e_more 1 100 0 2 = Ok (event_log e_more 100 0) ∧
  length (event_log e_more 100 0) = 3.
Proof.
  split; [|by_run].
  apply (replay_yields_log digest2 payload_size1 event_size1 page_size1 tenant1 MIN_EVENT_PAGE_BYTES 2 e_more 100 0);
    [exact more_reached|reflexivity|exact page_size1_ok|exact bytes1|reflexivity|exact (fits1 e_more)].
Defined.

Lemma stream_follows_log_witness : ∃ n,
  EventStore.stream digest2 payload_size1 event_size1 page_size1 MIN_EVENT_PAGE_BYTES [e_started; e_started; e_more] 1 100 0 1 =
  Ok (take n (event_log e_more 100 0)).
Proof.
  apply (stream_follows_log digest2 payload_size1 event_size1 page_size1 tenant1 MIN_EVENT_PAGE_BYTES 1 e_started
    [e_started; e_more] 100 0); [exact started_step| |reflexivity|exact page_size1_ok|exact bytes1|reflexivity|exact (fits1 e_more)].
  repeat constructor. eapply star_trans; [exact delivered_step|exact more_step].
Defined.

Lemma delivery_exactly_once_witness :
  worker_append e_more draft2 = Ok (delivered1, e_more) ∧
  worker_append e_more draft3 = Err (DomainOperationError "event_delivery_conflict" false).
Proof.
  pose proof (λ draft, delivery_exactly_once digest2 payload_size1 tenant1 3500 s_running lease0 key1 draft2 e_started delivered1
    e_delivered e_more 3500 s_running lease0 draft started_step running_owned running_owned ltac:(by_run) ltac:(by_run) more_step
    eq_refl eq_refl ltac:(by_run)) as H.
  split; [exact (proj2 (H draft2))|exact (proj2 (H draft3))].
Defined.

(** ** The attempt of the agent scenario *)

Definition store_attempt : result (RunExecutionResult * attempt_state (E := EventTables)) :=
  run_events digest2 (append_worker_event digest2 payload_size1) true lease0
    (mkAttempt s_running e_started ∅ 0 None None None) timed1.

Lemma attempt_events_durable_witness : ∃ r s added, store_attempt = Ok (r, s) ∧
  event_log (at_events s) 100 0 = event_log e_started 100 0 ++ added ∧ se_payload <$> added = ev_payload <$> ls_yielded attempt1.2.
Proof.
  destruct store_attempt as [[r s]|x] eqn:E; [|exfalso; assert (is_ok store_attempt = true) as H by by_run; by rewrite E in H].
  destruct (attempt_events_durable digest2 payload_size1 tenant1 env1 config1 redactor1 text_id json_id error_size1
    request_size2 text_id uuid_text1 input1 world0 attempt1.2 true lease0
    (mkAttempt s_running e_started ∅ 0 None None None) timed1 r s attempt1_returns) as (added & Hlog & Hpay).
  - unfold timed1. rewrite <- list_fmap_compose. apply list_fmap_id.
  - exact started_step.
  - reflexivity.
  - intros e _ k row Hk. 
    assert (bool_decide (map_Forall (λ _ row, er_delivery_key row = None) (et_rows e_started)) = true) as H by by_run.
    apply bool_decide_eq_true in H. specialize (H k row Hk). apply not_true_is_false.
    intros (_ & _ & Hkey)%same_delivery_true. by rewrite H in Hkey.
  - exact E.
  - exists r, s, added. split; [reflexivity|exact (conj Hlog Hpay)].
Defined.
